(* ===== verification/_CoqProject ===== *)
-Q . S2P
Prelude.v
Proto.v
Encoder.v
Messages.v
Pool.v
ConnectionTable.v
RemoteSubscriptions.v
SubscriptionTable.v
SubscriptionTableProofs.v
SubscriptionTableSpec.v
Forwarder.v
MessageProcessing.v
MessageProcessingProofs.v
DataPlane.v
ReceiverBuffer.v
ProducerBuffer.v
Timer.v
Session.v
RequestResponse.v
FireAndForget.v
FireAndForgetProofs.v
Streaming.v
StreamingProofs.v
StreamingRecovery.v
SessionLayer.v
SessionLayerProofs.v
Text.v
ComponentId.v
Provider.v
Service.v
ProcessorFrame.v
ServiceProofs.v
ServiceClaims.v
AuthTypes.v
KeyResolver.v
FileWatcher.v
Jwt.v
JwtBuilder.v
JwtMiddleware.v
AuthConfig.v
AuthProofs.v
AuthRun.v
AuthDemo.v
AuthClaims.v
Tls.v
Grpc.v
GrpcClaims.v
Controller.v
ControllerProofs.v
ControllerClaims.v
Mls.v
MlsClaims.v
Slim.v
SlimClaims.v
Bindings.v
BindingsClaims.v
McpProxy.v
McpProxyProofs.v
McpProxyClaims.v
TableInterface.v
Workload.v
WorkloadProofs.v
TestAgents.v
TestAgentsProofs.v
TestAgentsClaims.v
TestAgentsRun.v
DeliveredItems.v
ProxySystem.v
EndToEnd.v
EndToEndRun.v
SdkMock.v
SdkMockClaims.v
