(* ===== verification/Prelude.v ===== *)
(** * SLIM data plane: verification library

    SLIM (Secure Low-latency Interactive Messaging) connects agents by name. The
    Rust program under [src/data-plane] has the following parts, and this library
    models them one file (or a model file and a proofs file) each. Paths below are
    under [src/data-plane/core] unless they say otherwise.

    ** The program and where it is modelled

    - Names and messages ([datapath/src/api], [datapath/src/messages]). An agent
      type is three hashes and the strings they come from, an agent a type and an
      id; a message is a subscription, an unsubscription or a publication with a
      SLIM header and, for a publication, a session header. [Proto] has the wire
      structures, [Encoder] the names with their coarser equality, [Messages] the
      constructors, [validate] and the accessors, which panic on absent parts.
    - Tables ([datapath/src/tables], [connection.rs]). [Pool] is the slot pool
      with its bitmap, [ConnectionTable] the connections, [RemoteSubscriptions]
      what was forwarded where, [SubscriptionTable] who subscribed for what;
      [SubscriptionTableProofs] and [SubscriptionTableSpec] prove it against a set
      of (agent, side, connection) triples. [TableInterface] has the trait of
      [tables.rs] as a class with laws, and two implementations of it.
      [Forwarder] joins the tables.
    - Message processor ([datapath/src/message_processing.rs]).
      [MessageProcessing] has the handlers as computations on one state (tables,
      channels, tokens, tasks), [MessageProcessingProofs] what each of them does,
      [DataPlane] the processor as a transition system, [ProcessorFrame] what a
      step leaves alone.
    - Sessions ([service/src]). [ReceiverBuffer] and [ProducerBuffer] order and
      keep stream messages, [Timer] is the timer task, [Session] what sessions
      share, [RequestResponse], [FireAndForget] and [Streaming] the three kinds,
      [SessionLayer] the sessions of one application. [FireAndForgetProofs],
      [StreamingProofs], [StreamingRecovery] and [SessionLayerProofs] prove them.
    - Service ([service/src/lib.rs]). [Service] joins the message processor and
      the session layers of the agents; [ServiceProofs] has its invariant and
      steps, [ServiceClaims] what follows, [DeliveredItems] what the items are
      that its applications are given, [EndToEnd] two services and the nodes
      between them, [EndToEndRun] a run of them.
    - Configuration ([config/src]). [Text] has the string operations of the
      standard library it uses, [ComponentId] the identifiers of components,
      [Provider] the resolution of references in YAML values, [AuthConfig] basic,
      bearer and JWT authentication, [Tls] the TLS settings of clients and servers
      with their certificate resolvers, [Grpc] the gRPC clients and servers;
      [GrpcClaims] proves them and makes them an instance of the interfaces the
      message processor and the service are modelled against.
    - Authentication ([auth/src]). [AuthTypes] has the claims with their JSON and
      the interface of the JWT library, [KeyResolver] the keys of an issuer,
      [FileWatcher] the task that watches a file, [Jwt] signing and verification
      with the token cache, [JwtBuilder] the builder with its states as type
      indices, [JwtMiddleware] the client and server layers. [AuthProofs] has the
      invariant of a verifier, [AuthRun] a server behind the middleware as a run
      of events, [AuthDemo] a small token library that satisfies the interface,
      [AuthClaims] what follows.
    - Control plane ([controller/src]). [Controller] has the control messages, the
      handler and the control streams with their local connections, over the state
      of the message processor; [ControllerProofs] what each loop of the handler
      does and how the processor carries out what it is sent, [ControllerClaims]
      the theorems.
    - Group key agreement ([mls/src]). [Mls] has identities and their files,
      groups and the session interceptor, over the interface of the MLS library;
      [MlsClaims] the theorems, with a small library that satisfies the interface.
    - Executable ([slim/src], [tracing/src], [nop_component/src]). [Slim] has the
      runtime, the tracing set-up, the loading of the configuration file and the
      main function; [SlimClaims] the theorems.
    - Python bindings ([src/data-plane/python-bindings/src]). [Bindings] has the
      methods and exported functions over [Service]; [BindingsClaims] the theorems.
    - MCP proxy ([src/data-plane/integrations/mcp/mcp-proxy/src]). [McpProxy] has
      the main loop and the tasks of the sessions, with their bounded channels, over
      [Service]; [McpProxyProofs] its steps and invariant, [McpProxyClaims] the
      theorems, [ProxySystem] the proxy and its service as one system.
    - Test programs ([src/data-plane/testing/src]). [Workload] has the files of a
      test with their lines, and the generator that draws and writes them;
      [TestAgents] the publisher and the subscriber over [Service], one turn of
      their loops per message. [WorkloadProofs] has what the generator draws,
      [TestAgentsProofs] the steps of the two programs, [TestAgentsClaims] and
      [TestAgentsRun] the theorems, with a test run from the generated files on.
    - Example client ([src/data-plane/examples/src/sdk-mock]). [SdkMock] has its
      start and its loop over [Service], and the key exchange of its two roles, one
      access to a file per step, on a shared disk with [Mls]; [SdkMockClaims] the
      theorems.

    ** How the code is represented

    A function that may panic returns [panics]; Rust's [Result] is the type
    [Result] and never an exception. Each component has its own state-passing
    monad: [proc] for the message processor, [sess] for sessions (an environment
    of channels, timers and random draws next to the session's state), [svc] for
    the service, [ctl] for the controller, [py] for the bindings. A struct is a record with the source's fields, an enum an
    inductive type with its variants, a [HashMap] or [HashSet] a [gmap] from the
    part of the key its [Eq] compares (with the key itself where the two differ),
    a [Vec] a list. Integers are [N] or [Z]; where a width matters the wrap-around
    or the overflow panic is written out ([wrap_u32], [wrap_usize], the class
    [BuildProfile] for builds with and without overflow checks).

    An async task is a step function, one turn of its [select!] per event, and the
    events are arguments or constructors of a step relation: [stream_event],
    [timer_turn], [ff_turn], [stream_turn], [process_turn], [control_turn],
    [main_turn]. A handler runs to its
    end in one step: what its locks protect is not interleaved with other
    handlers, and a send to a full channel, which would only wait, succeeds; in the
    proxy, where two tasks wait for each other's channels, waiting is a state of
    its own ([Sending], [Notifying]). So the channels between sessions, applications
    and the processor are open or closed outboxes of any length, and that a
    full one (32 or 128 places) blocks its sender is not represented in the sessions
    and the session layer. A [SessionInterceptor] is a pair of functions of the
    message; the one interceptor with state, that of [mls/src], is modelled with
    its state passed explicitly in [Mls], and what theorems on sessions with
    interceptors assume of them is stated for any such pair. A panic of a turn is the
    end of its task. The verification of a token may have to wait for the network: [verify_claims] runs to that point, [verify_resume]
    runs on with the answers and the state of that time, and [poll] joins them.
    Clocks are arguments: [clock i] is the [i]-th reading an operation makes.

    ** Parameters

    Code outside the repository is a class with the documented facts that are
    used: [Hasher] (XxHash64: values are [u64]), [HashIter] (iteration enumerates
    the entries, in any order), [Transport] and [GrpcConfig] (gRPC
    configurations), [Telemetry] (spans and their context), [Rng] (the random
    draws), [ErrorText] and [StatusText] (debug texts), [Logging],
    [DebugAssertions] and [BuildProfile] (kinds of build), [UnicodeTables] (the
    regex crate beyond ASCII), [Environment] (variables and files),
    [JsonWebToken] with [JsonWebTokenLaws] (the JWT library: what [decode] checks,
    what [encode] makes), [Headers] with [HeadersLaws] (http headers), [Web]
    (URLs, JSON texts), [Notify] (file events), [Rustls] (certificates),
    [GrpcLib] (addresses and header names), [YamlToJson], [Uuid] and [GrpcClient]
    (identifiers and clients of the controller), [MlsRs] with [MlsLaws] (the MLS
    library: a welcome message joins, members of an epoch read each other's
    messages, others do not), [IdentityJson], [Base64], [Yaml] and [FromValue]
    (serde), [Otlp] (exporters), [FromPy] (Python dictionaries), [Rmcp] (MCP
    messages), [Removal] (which files the system lets the example remove). Random draws of a match or of the workload generator and the
    outcomes of connection attempts are arguments of the operations. Every class
    has a concrete instance, with which the witnesses evaluate.

    ** Fuel and bounds

    Recursion is structural wherever the code's loops run over data. The loop that
    draws a session id has no bound in the code: [draw_session_id] takes the
    number of draws allowed, running out of it is a panic named as such, and
    [create_session_draws] shows that it returns when one of those draws is free.
    Connecting tries 10 times and reconnecting 120 times, as in the code; the
    producer keeps 500 messages. [chunks] cuts a list into at most as many chunks
    as it has elements, which is its fuel. The workload
    generator loops until it has made as many lines as it was asked for: its loops
    take fuel, [workload_test_passes] shows that one more than that is enough
    whatever is drawn, and [generator_stuck] for which arguments none is.

    ** What is shown

    The doc comment of each theorem states its conditions; where one is
    material, it names the theorem that shows what happens without it.

    - The whole: a publication made on one service reaches the application of
      another through any number of nodes, once, with its content and sender, and
      the acknowledgement of a reliable one ends its retransmission
      ([publication_end_to_end]).
    - Data plane: in every reachable state the tables agree, and no handler panics
      on an event with a complete source that unsubscribes only from what is
      subscribed ([data_plane_safe]); under such operations the subscription table
      refines a set, with the same results and errors, and is equivalent to a plain
      set searched from end to end ([table_equals_reference]); the pool refines a
      finite map, with its bitmap, capacity and results; a publication reaches
      exactly the matched connections, once, while their channels are open;
      subscriptions are registered, forwarded and recorded; a lost connection is
      restored with its subscriptions or dropped with them.
    - Streams: when no loss is reported before the first message, the receiver
      buffer delivers in order without gap and holds nothing back needlessly, and a
      receiving session does so for each of its producers; a producing session
      refines the list of its messages; over a network that loses, reorders and
      duplicates up to 500 messages but for the first and the last, every message
      arrives once, in order ([stream_recovers_losses]).
    - Requests and fire-and-forget: each request under an id of its own has one
      outcome, when no timer ends after the reply; reliable messages are retried,
      acknowledged or reported; sticky sessions discover one peer, send it what was
      held back in order, and belong to it; closing stops everything.
    - Session layer: the pool is consistent; for a publication of the network, which
      session takes or opens it, what the interceptors make of it and what the
      session does with it are as stated independently ([network_message_routed]);
      ids are drawn free and in range, but for bidirectional streams.
    - Service: apps stay wired to the processor, each to its own connection, and the
      operations of the facade return ([service_safe]); creating an agent makes it
      reachable, deleting it cuts it off; each item an application is given carries
      the context of its own message, whatever the order of events
      ([delivered_items_described]).
    - Configuration: identifiers round trip; resolution equals a reference
      definition; which servers a TLS client trusts; certificate files are not
      watched.
    - Authentication: only requests with a genuine token, not expired by more than
      the leeway in the step that served them, reach the service, whatever the
      network answers and however keys change ([served_requests_genuine]); the token
      cache is invisible; a client and a server with the same HMAC secret work
      together, for an hour whatever duration is configured; how long a token is
      used again.
    - Control plane: a command whose connections can be made, handled and then
      carried out by the processor, performs exactly the subscriptions it orders on
      the connections it names ([controller_configures]); what an error leaves
      behind; the lists report exactly what the tables hold, as far as the reply
      channel has room.
    - Groups: what a member publishes through its interceptor is what the member it
      added last reads, and those added before do not ([mls_group_talks]); what the
      interceptors refuse; an identity is kept.
    - Executable: a loaded configuration is what the file says; a runtime has the
      cores asked for, within the machine's; the program that ends has started and
      drained all its services.
    - Bindings: the calls are safe in every state a program can reach, receiving
      when the next publication has content ([bindings_safe]); a reply goes back
      where the request came from.
    - Proxy: from its start on a configured service, sessions are kept apart in
      every interleaving ([proxy_sessions_apart]); clients that do not answer are
      dropped.
    - Test programs: the publisher accepts every reply the subscriber makes to a
      line of a generated workload without colliding names or id 0
      ([workload_test_passes]); both programs set up
      what the files ask for ([test_agents_set_up]). The two programs of the
      example that both get through their key exchange are in one group, in every
      interleaving, if a stale welcome message could be removed
      ([handshake_sound]); each ends within 109 steps ([peer_ends]).
    - Where the code does not do what it is meant to, the theorem states what it
      does (a too low [max_set], matching that skips connections, a refused
      unsubscription that loses a reference, late timeouts that panic, crossed
      discoveries that strand messages, [unsubscribe] that subscribes, endpoints
      that stay taken, publications without a source id that end a receive loop,
      a token duration that does not reach the tokens, an underflow that keeps an
      expired token in use, cached tokens that outlive their key, only the last of
      several services served, commands that fail without a reply, endpoints whose
      connection was reused, members that miss a commit, plaintext accepted in a
      group, an empty configuration file that panics, a topic lost in Python, a
      proxy whose channels block each other, sessions that stay dead, a generator
      that never ends, a publication with id 0 that raises a false alarm, a late
      server that removes the key package it then waits for, a first message that
      stays encrypted).

    ** Not modelled

    Signal handling, the command line of the proxy, the generated gRPC stubs
    and an uncompiled copy of the provider module are glue around libraries or no
    part of the program. Display of the tables, metric
    counters and log output are left out. Interleavings inside a handler are not
    represented, and the bound of a channel only in the proxy and for the replies
    of the controller.

    This file holds what all others share: panics, results, machine integers,
    formatting, vectors, hash maps, tactics, and lemmas on lists and maps. *)
From stdpp Require Import base list gmap strings numbers option pretty.
From Stdlib Require Import HexadecimalString HexadecimalN NArith.

Declare Scope slim_scope.
Delimit Scope slim_scope with slim.

(** ** Panics

    A Rust function that may panic ([unwrap], [expect], [panic!], indexing out
    of bounds) returns a [panics] value. *)
Inductive panics (A : Type) : Type :=
| Done (a : A)
| Panic (why : string).
Arguments Done {A} _.
Arguments Panic {A} _.

#[export] Instance panics_ret : MRet panics := fun A a => Done a.
#[export] Instance panics_bind : MBind panics := fun A B f c =>
  match c with
  | Done a => f a
  | Panic why => Panic why
  end.
#[export] Instance panics_fmap : FMap panics := fun A B f c =>
  match c with
  | Done a => Done (f a)
  | Panic why => Panic why
  end.

#[export] Instance panics_eq_dec {A} `{EqDecision A} : EqDecision (panics A).
Proof. solve_decision. Defined.

Definition panicked {A} (c : panics A) : Prop := exists why, c = Panic why.

(** [Option::unwrap] and [Option::expect]. *)
Definition expect {A} (o : option A) (why : string) : panics A :=
  match o with
  | Some a => Done a
  | None => Panic why
  end.

(** ** Results

    Rust's [Result]: an ordinary value, never an exception. *)
Inductive Result (T E : Type) : Type :=
| Ok (t : T)
| Err (e : E).
Arguments Ok {T E} _.
Arguments Err {T E} _.

Definition is_ok {T E} (r : Result T E) : bool :=
  match r with Ok _ => true | Err _ => false end.
Definition is_err {T E} (r : Result T E) : bool := negb (is_ok r).
Definition map_err {T E F} (f : E -> F) (r : Result T E) : Result T F :=
  match r with Ok t => Ok t | Err e => Err (f e) end.

Notation "'tt_ok'" := (Ok tt) : slim_scope.

(** ** Machine integers *)
Definition u32_modulus : N := 4294967296.
Definition u64_modulus : N := 18446744073709551616.
Definition u32_max : N := 4294967295.
Definition u64_max : N := 18446744073709551615.
(** [usize] on the 64-bit targets the crates are built for. *)
Definition usize_max : N := u64_max.

Definition wrap_u32 (n : N) : N := (n `mod` u32_modulus)%N.
Definition wrap_usize (n : N) : N := (n `mod` u64_modulus)%N.

Definition is_u32 (n : N) : Prop := (n <= u32_max)%N.
Definition is_u64 (n : N) : Prop := (n <= u64_max)%N.

Lemma wrap_usize_small n : (n <= u64_max)%N -> wrap_usize n = n.
Proof. intros H. apply N.mod_small. unfold u64_max, u64_modulus in *. lia. Qed.
Lemma wrap_u32_small n : (n <= u32_max)%N -> wrap_u32 n = n.
Proof. intros H. apply N.mod_small. unfold u32_max, u32_modulus in *. lia. Qed.

(** ** Formatting *)
Open Scope string_scope.
(** [{:x}] of an unsigned integer. *)
Definition fmt_hex (n : N) : string := NilZero.string_of_uint (N.to_hex_uint n).
(** [{}] of an unsigned integer. *)
Definition fmt_dec (n : N) : string := pretty n.
(** [{:?}] of an [Option] of an unsigned integer. *)
Definition fmt_debug_opt (o : option N) : string :=
  match o with
  | None => "None"
  | Some n => "Some(" +:+ fmt_dec n +:+ ")"
  end.
Close Scope string_scope.

(** ** Randomness

    [rng.random_range(0..n)] panics on an empty range and otherwise returns any
    value of the range: the draw [r] is an argument of the model, and every
    position is the image of some draw. *)
Definition random_range (n r : nat) : panics nat :=
  if decide (n = 0) then Panic "cannot sample empty range" else Done (r mod n).

Lemma random_range_done n r : 0 < n -> random_range n r = Done (r mod n).
Proof. intros H. unfold random_range. case_decide; [lia|done]. Qed.

(** ** Vectors *)

(** [Vec::swap_remove]: the last element takes the place of the removed one. *)
Definition swap_remove {A} (i : nat) (l : list A) : list A :=
  match last l with
  | None => l
  | Some y => take (length l - 1) (<[i := y]> l)
  end.

(** [Vec::resize_with(n, || v)]. *)
Definition resize_with {A} (n : nat) (v : A) (l : list A) : list A :=
  take n l ++ replicate (n - length l) v.

(** [Iterator::position]. *)
Fixpoint position {A} (p : A -> bool) (l : list A) : option nat :=
  match l with
  | [] => None
  | x :: l => if p x then Some 0 else S <$> position p l
  end.

(** ** Hash maps and hash sets

    A Rust [HashMap] compares keys with the key type's [Eq], which may identify
    values that differ in some field. [key] maps a Rust key to the part [Eq]
    compares; the map keeps the key it was first given. *)
Definition hm_get {A K V} `{Countable K} (key : A -> K) (a : A)
    (m : gmap K (A * V)) : option V := snd <$> m !! key a.
Definition hm_insert {A K V} `{Countable K} (key : A -> K) (a : A) (v : V)
    (m : gmap K (A * V)) : gmap K (A * V) :=
  match m !! key a with
  | Some (a0, _) => <[key a := (a0, v)]> m
  | None => <[key a := (a, v)]> m
  end.
Definition hm_remove {A K V} `{Countable K} (key : A -> K) (a : A)
    (m : gmap K (A * V)) : gmap K (A * V) := delete (key a) m.

Definition hs_contains {A K} `{Countable K} (key : A -> K) (a : A) (s : gmap K A) : bool :=
  bool_decide (is_Some (s !! key a)).
(** [HashSet::insert] returns whether the value was absent. *)
Definition hs_insert {A K} `{Countable K} (key : A -> K) (a : A) (s : gmap K A) : gmap K A * bool :=
  match s !! key a with
  | Some _ => (s, false)
  | None => (<[key a := a]> s, true)
  end.
(** [HashSet::remove] returns whether the value was present. *)
Definition hs_remove {A K} `{Countable K} (key : A -> K) (a : A) (s : gmap K A) : gmap K A * bool :=
  match s !! key a with
  | Some _ => (delete (key a) s, true)
  | None => (s, false)
  end.

(** The iteration order of a [HashMap] or [HashSet] is unspecified: the model
    takes any enumeration of the entries. *)
Class HashIter : Type := {
  hash_iter : forall {K A} `{Countable K}, gmap K A -> list (K * A);
  hash_iter_perm : forall {K A} `{Countable K} (m : gmap K A),
    hash_iter m ≡ₚ map_to_list m
}.

(** One lawful enumeration, for evaluation on concrete inputs. *)
Definition hash_iter_sorted : HashIter :=
  {| hash_iter := fun K A _ _ m => map_to_list m;
     hash_iter_perm := fun K A _ _ m => reflexivity _ |}.

(** ** Tactics *)

(** Case split on the scrutinee of a [match] or [if] of the goal. *)
Ltac split_match :=
  match goal with
  | |- context [match ?x with _ => _ end] =>
      lazymatch x with context [match _ with _ => _ end] => fail | _ => destruct x eqn:? end
  end.
(** The same in a hypothesis. *)
Ltac split_match_in H :=
  match type of H with
  | context [match ?x with _ => _ end] =>
      lazymatch x with context [match _ with _ => _ end] => fail | _ => destruct x eqn:? end
  end.
Ltac crush := repeat (simplify_eq/=; try split_match); simplify_eq/=; eauto.

Create HintDb slim.
Create Rewrite HintDb slim.

(** ** Lemmas on lists *)
Lemma swap_remove_perm {A} (l : list A) i x :
  l !! i = Some x -> l ≡ₚ x :: swap_remove i l.
Proof.
  intros Hx. rewrite <- (take_drop_middle l i x Hx).
  assert (Hi : i < length l) by eauto using lookup_lt_Some.
  assert (Hlen : length (take i l) = i) by (rewrite length_take; lia).
  revert Hlen. generalize (take i l), (drop (S i) l). intros l1 l2 Hlen. clear Hx Hi.
  unfold swap_remove. destruct l2 as [|y l2 _] using rev_ind.
  - rewrite last_snoc, insert_app_r_alt by lia.
    rewrite length_app; simpl. rewrite take_app_length' by lia.
    by rewrite Permutation_app_comm.
  - rewrite last_app_cons, last_cons, last_snoc, insert_app_r_alt by lia.
    replace (i - length l1) with 0 by lia; simpl.
    rewrite length_app; simpl. rewrite length_app; simpl.
    rewrite take_app_ge by lia.
    replace (_ - _ - _) with (S (length l2)) by lia; simpl.
    rewrite take_app_length. by rewrite <- Permutation_middle, (Permutation_app_comm l2 [y]).
Qed.

Lemma position_Some {A} (p : A -> bool) l i :
  position p l = Some i <->
  (exists x, l !! i = Some x /\ p x = true) /\
  (forall j x, j < i -> l !! j = Some x -> p x = false).
Proof.
  revert i. induction l as [|y l IH]; intros i; simpl.
  { split; [done|]. intros [(x&Hx&_) _]. done. }
  destruct (p y) eqn:Hy.
  - split.
    + intros [= <-]. split; [by exists y|lia].
    + intros [(x&Hx&Hp) Hlt]. destruct i; [done|].
      specialize (Hlt 0 y ltac:(lia) eq_refl). congruence.
  - rewrite fmap_Some. setoid_rewrite IH. split.
    + intros (k&[(x&Hx&Hp) Hlt]&->). split; [by exists x|].
      intros [|j] z Hj Hz; simpl in *; [congruence|]. eapply Hlt; [|done]. lia.
    + intros [(x&Hx&Hp) Hlt]. destruct i as [|i]; simpl in *; [congruence|].
      exists i. split; [|done]. split; [by exists x|].
      intros j z Hj Hz. apply (Hlt (S j) z); [lia|done].
Qed.

Lemma position_None {A} (p : A -> bool) l :
  position p l = None <-> (forall x, x ∈ l -> p x = false).
Proof.
  induction l as [|y l IH]; simpl.
  { split; [|done]. intros _ x Hx. by apply elem_of_nil in Hx. }
  destruct (p y) eqn:Hy.
  - split; [done|]. intros H. rewrite (H y) in Hy; [done|left].
  - rewrite fmap_None, IH. setoid_rewrite elem_of_cons. firstorder congruence.
Qed.

Lemma length_resize_with {A} n (v : A) l : length (resize_with n v l) = n.
Proof. unfold resize_with. rewrite length_app, length_take, length_replicate. lia. Qed.

Lemma lookup_resize_with {A} n (v : A) l i :
  length l <= n ->
  resize_with n v l !! i =
    if decide (i < length l) then l !! i else if decide (i < n) then Some v else None.
Proof.
  intros Hn. unfold resize_with. rewrite take_ge by done.
  repeat case_decide.
  - by apply lookup_app_l.
  - rewrite lookup_app_r by lia. apply lookup_replicate_2. lia.
  - rewrite lookup_app_r by lia. apply lookup_replicate_None. lia.
Qed.

(** Going once round a range. *)
Lemma mod_wrap a n : a < 2 * n -> a mod n = if decide (a < n) then a else a - n.
Proof.
  intros Ha. case_decide; [by apply Nat.mod_small|].
  symmetry. apply (Nat.mod_unique a n 1); lia.
Qed.

(** ** Sums over maps *)
Definition map_sum {K V} `{Countable K} (f : V -> nat) (m : gmap K V) : nat :=
  map_fold (fun _ v acc => f v + acc) 0 m.

Section map_sum.
Context {K V : Type} `{Countable K} (f : V -> nat).
Implicit Type m : gmap K V.

Lemma map_sum_empty : map_sum f (∅ : gmap K V) = 0.
Proof. apply map_fold_empty. Qed.

Lemma map_sum_insert_new m k v :
  m !! k = None -> map_sum f (<[k:=v]> m) = f v + map_sum f m.
Proof. intros Hk. unfold map_sum. rewrite map_fold_insert_L; [done| |done]. intros; lia. Qed.

Lemma map_sum_delete m k v :
  m !! k = Some v -> map_sum f m = f v + map_sum f (delete k m).
Proof.
  intros Hk. rewrite <- (insert_delete_id m k v) at 1 by done.
  apply map_sum_insert_new. apply lookup_delete_eq.
Qed.

Lemma map_sum_insert m k v v' :
  m !! k = Some v -> map_sum f (<[k:=v']> m) + f v = f v' + map_sum f m.
Proof.
  intros Hk. rewrite (map_sum_delete m k v Hk).
  rewrite (map_sum_delete (<[k:=v']> m) k v') by apply lookup_insert_eq.
  rewrite delete_insert_eq. lia.
Qed.

Lemma map_sum_pos m : 0 < map_sum f m <-> exists k v, m !! k = Some v /\ 0 < f v.
Proof.
  induction m as [|k v m Hk IH] using map_ind.
  { rewrite map_sum_empty. split; [lia|]. intros (k&v&Hk&_). by rewrite lookup_empty in Hk. }
  rewrite map_sum_insert_new by done. split.
  - intros Hpos. destruct (decide (0 < f v)) as [Hv|Hv].
    { exists k, v. by rewrite lookup_insert_eq. }
    destruct (proj1 IH ltac:(lia)) as (k'&v'&Hk'&Hv').
    exists k', v'. rewrite lookup_insert_ne; [done|congruence].
  - intros (k'&v'&Hk'&Hv'). apply lookup_insert_Some in Hk' as [[-> ->]|[_ Hk']]; [lia|].
    assert (0 < map_sum f m) by (apply IH; eauto). lia.
Qed.
End map_sum.

(** Occurrences of a value in a list. *)
Definition occ {A} `{EqDecision A} (x : A) (l : list A) : nat :=
  length (filter (fun y => y = x) l).

Section occ.
Context {A : Type} `{EqDecision A}.
Implicit Types (x y : A) (l : list A).

Lemma occ_perm x l k : l ≡ₚ k -> occ x l = occ x k.
Proof. intros Hp. unfold occ. by rewrite Hp. Qed.
Lemma occ_app x l k : occ x (l ++ k) = occ x l + occ x k.
Proof. unfold occ. by rewrite filter_app, length_app. Qed.
Lemma occ_cons x y l : occ x (y :: l) = (if decide (y = x) then 1 else 0) + occ x l.
Proof. unfold occ. rewrite filter_cons. by case_decide. Qed.
Lemma occ_nil x : occ x [] = 0.
Proof. done. Qed.
Lemma occ_pos x l : 0 < occ x l <-> x ∈ l.
Proof.
  induction l as [|y l IH]; [rewrite occ_nil, elem_of_nil; lia|].
  rewrite occ_cons, elem_of_cons. case_decide; [split; [by left|lia]|].
  rewrite Nat.add_0_l, IH. split; [by right|]. by intros [->|?].
Qed.
Lemma occ_insert x l i y z :
  l !! i = Some y ->
  occ x (<[i:=z]> l) + (if decide (y = x) then 1 else 0) =
  occ x l + (if decide (z = x) then 1 else 0).
Proof.
  intros Hi. pose proof (delete_Permutation l i y Hi) as Hl.
  assert (Hlt : i < length l) by eauto using lookup_lt_Some.
  rewrite insert_take_drop by done.
  rewrite (delete_take_drop l i) in Hl. rewrite (occ_perm x _ _ Hl).
  rewrite occ_app, !occ_cons, occ_app. lia.
Qed.
Lemma occ_le_length x l : occ x l <= length l.
Proof. apply length_filter. Qed.
Lemma occ_zero x l : occ x l = 0 <-> x ∉ l.
Proof. rewrite <- occ_pos. lia. Qed.
End occ.

#[export] Hint Rewrite @occ_app @occ_cons @occ_nil : slim.
