(* ===== verification/Proto.v ===== *)
(** * Wire data types

    The structures of the pub/sub protocol, as
    [datapath/src/api/gen/pubsub.proto.v1.rs] declares them: names, headers,
    message bodies and the [SessionHeaderType] enumeration with its conversions
    from and to [i32] and to and from its ProtoBuf names. *)
From stdpp Require Import base list gmap strings numbers option.
From S2P Require Import Prelude.

(** [pubsub::v1::Agent], imported by the crate as [ProtoAgent]. *)
Record ProtoAgent : Type := mkProtoAgent {
  pa_organization : N;
  pa_namespace : N;
  pa_agent_type : N;
  pa_agent_id : option N;
}.

Record SlimHeader : Type := mkSlimHeader {
  sh_source : option ProtoAgent;
  sh_destination : option ProtoAgent;
  sh_fanout : N;
  sh_recv_from : option N;
  sh_forward_to : option N;
  sh_incoming_conn : option N;
  sh_error : option bool;
}.

Record SessionHeader : Type := mkSessionHeader {
  se_header_type : Z;
  se_session_id : N;
  se_message_id : N;
}.

(** [#[derive(Default)]] of a prost message: every field zero. *)
Definition SessionHeader_default : SessionHeader := mkSessionHeader 0 0 0.

Record Content : Type := mkContent {
  co_content_type : string;
  co_blob : list Byte.byte;
}.

Record ProtoSubscribe : Type := mkProtoSubscribe {
  su_header : option SlimHeader;
  su_organization : string;
  su_namespace : string;
  su_agent_type : string;
}.

Record ProtoUnsubscribe : Type := mkProtoUnsubscribe {
  un_header : option SlimHeader;
}.

Record ProtoPublish : Type := mkProtoPublish {
  pu_header : option SlimHeader;
  pu_session : option SessionHeader;
  pu_msg : option Content;
}.

Inductive MessageType : Type :=
| Subscribe (s : ProtoSubscribe)
| Unsubscribe (u : ProtoUnsubscribe)
| Publish (p : ProtoPublish).

Record ProtoMessage : Type := mkProtoMessage {
  pm_metadata : gmap string string;
  pm_message_type : option MessageType;
}.

Inductive SessionHeaderType : Type :=
| Unspecified
| Fnf
| FnfReliable
| FnfAck
| FnfDiscovery
| FnfDiscoveryReply
| Request
| Reply
| Stream
| PubSub
| RtxRequest
| RtxReply
| BeaconStream
| BeaconPubSub.

#[export] Instance ProtoAgent_eq_dec : EqDecision ProtoAgent.
Proof. solve_decision. Defined.
#[export] Instance SlimHeader_eq_dec : EqDecision SlimHeader.
Proof. solve_decision. Defined.
#[export] Instance SessionHeader_eq_dec : EqDecision SessionHeader.
Proof. solve_decision. Defined.
#[export] Instance SessionHeaderType_eq_dec : EqDecision SessionHeaderType.
Proof. solve_decision. Defined.

Definition SessionHeaderType_all : list SessionHeaderType :=
  [Unspecified; Fnf; FnfReliable; FnfAck; FnfDiscovery; FnfDiscoveryReply; Request; Reply;
   Stream; PubSub; RtxRequest; RtxReply; BeaconStream; BeaconPubSub].

(** [i32::from(t)], the [repr(i32)] discriminant. *)
Definition SessionHeaderType_to_i32 (t : SessionHeaderType) : Z :=
  match t with
  | Unspecified => 0
  | Fnf => 1
  | FnfReliable => 2
  | FnfAck => 3
  | FnfDiscovery => 4
  | FnfDiscoveryReply => 5
  | Request => 6
  | Reply => 7
  | Stream => 8
  | PubSub => 9
  | RtxRequest => 10
  | RtxReply => 11
  | BeaconStream => 12
  | BeaconPubSub => 13
  end.

(** [SessionHeaderType::try_from], derived by prost: the variant whose
    discriminant is the argument, an error otherwise. *)
Definition SessionHeaderType_try_from (z : Z) : option SessionHeaderType :=
  list_find (fun t => SessionHeaderType_to_i32 t = z) SessionHeaderType_all ≫= fun p => Some p.2.

(** [unwrap_or_default]. *)
Definition SessionHeaderType_from_i32 (z : Z) : SessionHeaderType :=
  default Unspecified (SessionHeaderType_try_from z).

Definition as_str_name (t : SessionHeaderType) : string :=
  match t with
  | Unspecified => "UNSPECIFIED"
  | Fnf => "FNF"
  | FnfReliable => "FNF_RELIABLE"
  | FnfAck => "FNF_ACK"
  | FnfDiscovery => "FNF_DISCOVERY"
  | FnfDiscoveryReply => "FNF_DISCOVERY_REPLY"
  | Request => "REQUEST"
  | Reply => "REPLY"
  | Stream => "STREAM"
  | PubSub => "PUB_SUB"
  | RtxRequest => "RTX_REQUEST"
  | RtxReply => "RTX_REPLY"
  | BeaconStream => "BEACON_STREAM"
  | BeaconPubSub => "BEACON_PUB_SUB"
  end.

Open Scope string_scope.
Definition from_str_name (value : string) : option SessionHeaderType :=
  if decide (value = "UNSPECIFIED") then Some Unspecified
  else if decide (value = "FNF") then Some Fnf
  else if decide (value = "FNF_RELIABLE") then Some FnfReliable
  else if decide (value = "FNF_ACK") then Some FnfAck
  else if decide (value = "FNF_DISCOVERY") then Some FnfDiscovery
  else if decide (value = "FNF_DISCOVERY_REPLY") then Some FnfDiscoveryReply
  else if decide (value = "REQUEST") then Some Request
  else if decide (value = "REPLY") then Some Reply
  else if decide (value = "STREAM") then Some Stream
  else if decide (value = "PUB_SUB") then Some PubSub
  else if decide (value = "RTX_REQUEST") then Some RtxRequest
  else if decide (value = "RTX_REPLY") then Some RtxReply
  else if decide (value = "BEACON_STREAM") then Some BeaconStream
  else if decide (value = "BEACON_PUB_SUB") then Some BeaconPubSub
  else None.
Close Scope string_scope.

(** The discriminant of a variant reads back as that variant. *)
Lemma try_from_to_i32 t :
  SessionHeaderType_try_from (SessionHeaderType_to_i32 t) = Some t.
Proof. by destruct t. Qed.

Lemma try_from_None z :
  SessionHeaderType_try_from z = None <-> ~ (0 <= z <= 13)%Z.
Proof.
  unfold SessionHeaderType_try_from. split.
  - intros H Hz.
    assert (exists t, SessionHeaderType_to_i32 t = z) as [t <-].
    { assert (z = 0 \/ z = 1 \/ z = 2 \/ z = 3 \/ z = 4 \/ z = 5 \/ z = 6 \/ z = 7 \/ z = 8 \/
              z = 9 \/ z = 10 \/ z = 11 \/ z = 12 \/ z = 13)%Z as Hcase by lia.
      repeat (destruct Hcase as [->|Hcase]);
        [by exists Unspecified|by exists Fnf|by exists FnfReliable|by exists FnfAck
        |by exists FnfDiscovery|by exists FnfDiscoveryReply|by exists Request|by exists Reply
        |by exists Stream|by exists PubSub|by exists RtxRequest|by exists RtxReply
        |by exists BeaconStream|subst z; by exists BeaconPubSub]. }
    by destruct t.
  - intros Hz. destruct (list_find _ _) as [[i t]|] eqn:Hf; [|done].
    apply list_find_Some in Hf as (_&Ht&_). destruct t; simpl in Ht; subst z; lia.
Qed.
#[export] Hint Resolve try_from_to_i32 : slim.

(** both encodings of a [SessionHeaderType] are injective round trips, and
    [try_from] rejects exactly the integers outside [0..13]. *)
Lemma header_type_roundtrip t z :
  SessionHeaderType_try_from (SessionHeaderType_to_i32 t) = Some t /\
  from_str_name (as_str_name t) = Some t /\
  (SessionHeaderType_try_from z = None <-> ~ (0 <= z <= 13)%Z).
Proof.
  split; [apply try_from_to_i32|]. split; [by destruct t|]. apply try_from_None.
Qed.
