(* ===== verification/Encoder.v ===== *)
(** * Names

    [datapath/src/messages/encoder.rs]: agent types and agents, their equality
    (which ignores the original strings), their rendering, and their
    construction from strings and from the wire structure.

    [calculate_hash] is [XxHash64] of the twox-hash crate: a parameter, of which
    the development uses that its value is a [u64]. *)
From stdpp Require Import base list gmap strings numbers option.
From S2P Require Import Prelude Proto.

Definition DEFAULT_AGENT_ID : N := u64_max.

(** XxHash64 of a string, and of the three words of an agent type. *)
Class Hasher : Type := {
  calculate_hash : string -> N;
  calculate_hash_u64 : forall s, is_u64 (calculate_hash s);
  calculate_hash_words : N * N * N -> N;
  calculate_hash_words_u64 : forall w, is_u64 (calculate_hash_words w);
}.

Record AgentType : Type := mkAgentType {
  at_organization : N;
  at_namespace : N;
  at_agent_type : N;
  at_strings : option (string * string * string);
}.

(** [#[derive(Default)]]. *)
Definition AgentType_default : AgentType := mkAgentType 0 0 0 None.

(** What [Hash] and [PartialEq] of an agent type look at. *)
Definition type_key (t : AgentType) : N * N * N :=
  (at_organization t, at_namespace t, at_agent_type t).

(** [impl PartialEq for AgentType]. *)
Definition AgentType_eq (a b : AgentType) : bool :=
  bool_decide (at_organization a = at_organization b)
  && bool_decide (at_namespace a = at_namespace b)
  && bool_decide (at_agent_type a = at_agent_type b).

Open Scope string_scope.
(** [impl Display for AgentType]. *)
Definition AgentType_fmt (t : AgentType) : string :=
  fmt_hex (at_organization t) +:+ "/" +:+ fmt_hex (at_namespace t) +:+ "/"
    +:+ fmt_hex (at_agent_type t)
    +:+ match at_strings t with
        | Some (o, n, a) => " (" +:+ o +:+ "/" +:+ n +:+ "/" +:+ a +:+ ")"
        | None => ""
        end.
Close Scope string_scope.

(** [impl From<&ProtoAgent> for AgentType]. *)
Definition AgentType_from_proto (agent : ProtoAgent) : AgentType :=
  mkAgentType (pa_organization agent) (pa_namespace agent) (pa_agent_type agent) None.

Definition organization_string (t : AgentType) : option string :=
  (fun s => s.1.1) <$> at_strings t.
Definition namespace_string (t : AgentType) : option string :=
  (fun s => s.1.2) <$> at_strings t.
Definition agent_type_string (t : AgentType) : option string :=
  (fun s => s.2) <$> at_strings t.

Record Agent : Type := mkAgent {
  ag_agent_type : AgentType;
  ag_agent_id : N;
}.

Definition Agent_default : Agent := mkAgent AgentType_default 0.

(** What the derived [Hash], [Eq] of an agent look at. *)
Definition agent_key (a : Agent) : (N * N * N) * N := (type_key (ag_agent_type a), ag_agent_id a).

(** The derived [PartialEq]. *)
Definition Agent_eq (a b : Agent) : bool :=
  AgentType_eq (ag_agent_type a) (ag_agent_type b) && bool_decide (ag_agent_id a = ag_agent_id b).

Open Scope string_scope.
(** [impl Display for Agent]. *)
Definition Agent_fmt (a : Agent) : string :=
  fmt_hex (at_organization (ag_agent_type a)) +:+ "/"
    +:+ fmt_hex (at_namespace (ag_agent_type a)) +:+ "/"
    +:+ fmt_hex (at_agent_type (ag_agent_type a)) +:+ "/"
    +:+ fmt_hex (ag_agent_id a).

(** [impl From<&ProtoAgent> for Agent]. *)
Definition Agent_from_proto (agent : ProtoAgent) : panics Agent :=
  id ← expect (pa_agent_id agent) "agent id not found";
  Done (mkAgent (AgentType_from_proto agent) id).
Close Scope string_scope.

(** [Agent::new]. *)
Definition Agent_new (agent_type : AgentType) (agent_id : N) : Agent :=
  mkAgent agent_type agent_id.

Definition with_agent_id (a : Agent) (agent_id : N) : Agent := mkAgent (ag_agent_type a) agent_id.
Definition with_agent_type (a : Agent) (agent_type : AgentType) : Agent :=
  mkAgent agent_type (ag_agent_id a).

Definition agent_id_option (a : Agent) : option N :=
  if decide (ag_agent_id a = DEFAULT_AGENT_ID) then None else Some (ag_agent_id a).

Section hashed.
Context `{Hasher}.

(** [AgentType::from_strings]. *)
Definition AgentType_from_strings (organization namespace agent_type : string) : AgentType :=
  mkAgentType (calculate_hash organization) (calculate_hash namespace)
    (calculate_hash agent_type) (Some (organization, namespace, agent_type)).

(** [Agent::from_strings]. *)
Definition Agent_from_strings (organization namespace agent_type : string) (agent_id : N) : Agent :=
  mkAgent (AgentType_from_strings organization namespace agent_type) agent_id.

Definition agent_id_from_identity (identity : string) : N := calculate_hash identity.

(** [Agent::from_strings_and_identity]. *)
Definition Agent_from_strings_and_identity
    (organization namespace agent_type identity : string) : Agent :=
  mkAgent (AgentType_from_strings organization namespace agent_type)
    (agent_id_from_identity identity).
End hashed.

(** [==] on names is equality of their keys. *)
Lemma AgentType_eq_key a b : AgentType_eq a b = true <-> type_key a = type_key b.
Proof.
  unfold AgentType_eq, type_key. rewrite !andb_true_iff, !bool_decide_eq_true.
  split; [by intros [[-> ->] ->]|by intros [= -> -> ->]].
Qed.
Lemma Agent_eq_key a b : Agent_eq a b = true <-> agent_key a = agent_key b.
Proof.
  unfold Agent_eq, agent_key. rewrite andb_true_iff, AgentType_eq_key, bool_decide_eq_true.
  by rewrite pair_equal_spec.
Qed.

Lemma unwrap_agent_id_option a :
  default DEFAULT_AGENT_ID (agent_id_option a) = ag_agent_id a.
Proof. unfold agent_id_option. by case_decide. Qed.
#[export] Hint Rewrite unwrap_agent_id_option : slim.

(** A hasher for evaluation on concrete names: the base-256 value of the
    string, modulo [2^64]. *)
Definition string_value (s : string) : N :=
  foldl (fun acc c => (acc * 256 + Ascii.N_of_ascii c) `mod` u64_modulus)%N 0%N
    (String.list_ascii_of_string s).
Lemma mod_u64 n : is_u64 (n `mod` u64_modulus)%N.
Proof.
  unfold is_u64, u64_max. pose proof (N.mod_lt n u64_modulus ltac:(done)).
  unfold u64_modulus in *. lia.
Qed.
Lemma string_value_u64 s : is_u64 (string_value s).
Proof.
  unfold string_value. destruct (String.list_ascii_of_string s) as [|c l] using rev_ind.
  - done.
  - rewrite foldl_app. apply mod_u64.
Qed.
Definition toy_hasher : Hasher :=
  {| calculate_hash := string_value;
     calculate_hash_u64 := string_value_u64;
     calculate_hash_words w := ((w.1.1 + 3 * w.1.2 + 7 * w.2) `mod` u64_modulus)%N;
     calculate_hash_words_u64 w := mod_u64 _ |}.
