(* ===== verification/Messages.v ===== *)
(** * Messages

    [datapath/src/messages/utils.rs]: the headers and the messages exchanged on
    a connection, their constructors, accessors, setters and validation. The
    accessors that [unwrap] a missing header return a [panics] value. *)
From stdpp Require Import base list gmap strings numbers option.
From S2P Require Import Prelude Proto Encoder.

Inductive MessageError : Type :=
| SlimHeaderNotFound
| SourceNotFound
| DestinationNotFound
| SessionHeaderNotFound
| MessageTypeNotFound
| IncomingConnectionNotFound.

Open Scope string_scope.
Definition SLIM_IDENTITY : string := "SLIM_IDENTITY".

(** [thiserror]'s [Display]. *)
Definition MessageError_fmt (e : MessageError) : string :=
  match e with
  | SlimHeaderNotFound => "SLIM header not found"
  | SourceNotFound => "source not found"
  | DestinationNotFound => "destination not found"
  | SessionHeaderNotFound => "session header not found"
  | MessageTypeNotFound => "message type not found"
  | IncomingConnectionNotFound => "incoming connection not found"
  end.

(** ** Names on the wire *)

(** [impl From<&Agent> for ProtoAgent]. *)
Definition ProtoAgent_from_agent (agent : Agent) : ProtoAgent :=
  let id := if decide (ag_agent_id agent = DEFAULT_AGENT_ID) then None
            else Some (ag_agent_id agent) in
  mkProtoAgent (at_organization (ag_agent_type agent)) (at_namespace (ag_agent_type agent))
    (at_agent_type (ag_agent_type agent)) id.

(** [impl From<(&AgentType, Option<u64>)> for ProtoAgent]. *)
Definition ProtoAgent_from_type (agent_type : AgentType) (agent_id : option N) : ProtoAgent :=
  mkProtoAgent (at_organization agent_type) (at_namespace agent_type)
    (at_agent_type agent_type) agent_id.

(** [impl Display for MessageType]. *)
Definition MessageType_fmt (t : MessageType) : string :=
  match t with
  | Publish _ => "publish"
  | Subscribe _ => "subscribe"
  | Unsubscribe _ => "unsubscribe"
  end.

(** ** SLIM header flags *)
Record SlimHeaderFlags : Type := mkSlimHeaderFlags {
  fl_fanout : N;
  fl_recv_from : option N;
  fl_forward_to : option N;
  fl_incoming_conn : option N;
  fl_error : option bool;
}.

Definition SlimHeaderFlags_default : SlimHeaderFlags := mkSlimHeaderFlags 1 None None None None.

Definition fmt_debug_bool_opt (o : option bool) : string :=
  match o with
  | None => "None"
  | Some true => "Some(true)"
  | Some false => "Some(false)"
  end.

(** [impl Display for SlimHeaderFlags]. *)
Definition SlimHeaderFlags_fmt (f : SlimHeaderFlags) : string :=
  "fanout: " +:+ fmt_dec (fl_fanout f) +:+ ", recv_from: " +:+ fmt_debug_opt (fl_recv_from f)
    +:+ ", forward_to: " +:+ fmt_debug_opt (fl_forward_to f)
    +:+ ", incoming_conn: " +:+ fmt_debug_opt (fl_incoming_conn f)
    +:+ ", error: " +:+ fmt_debug_bool_opt (fl_error f).

Definition SlimHeaderFlags_new (fanout : N) (recv_from forward_to incoming_conn : option N)
    (error : option bool) : SlimHeaderFlags :=
  mkSlimHeaderFlags fanout recv_from forward_to incoming_conn error.

Definition with_fanout (f : SlimHeaderFlags) (fanout : N) : SlimHeaderFlags :=
  mkSlimHeaderFlags fanout (fl_recv_from f) (fl_forward_to f) (fl_incoming_conn f) (fl_error f).
Definition with_recv_from (f : SlimHeaderFlags) (recv_from : N) : SlimHeaderFlags :=
  mkSlimHeaderFlags (fl_fanout f) (Some recv_from) (fl_forward_to f) (fl_incoming_conn f) (fl_error f).
Definition with_forward_to (f : SlimHeaderFlags) (forward_to : N) : SlimHeaderFlags :=
  mkSlimHeaderFlags (fl_fanout f) (fl_recv_from f) (Some forward_to) (fl_incoming_conn f) (fl_error f).
Definition with_incoming_conn (f : SlimHeaderFlags) (incoming_conn : N) : SlimHeaderFlags :=
  mkSlimHeaderFlags (fl_fanout f) (fl_recv_from f) (fl_forward_to f) (Some incoming_conn) (fl_error f).
Definition with_error (f : SlimHeaderFlags) (error : bool) : SlimHeaderFlags :=
  mkSlimHeaderFlags (fl_fanout f) (fl_recv_from f) (fl_forward_to f) (fl_incoming_conn f) (Some error).

(** ** SLIM header *)
Definition SlimHeader_new (source : Agent) (name_type : AgentType) (name_id : option N)
    (flags : option SlimHeaderFlags) : SlimHeader :=
  let flags := default SlimHeaderFlags_default flags in
  mkSlimHeader (Some (ProtoAgent_from_agent source))
    (Some (ProtoAgent_from_type name_type name_id))
    (fl_fanout flags) (fl_recv_from flags) (fl_forward_to flags)
    (fl_incoming_conn flags) (fl_error flags).

Definition SlimHeader_clear (h : SlimHeader) : SlimHeader :=
  mkSlimHeader (sh_source h) (sh_destination h) (sh_fanout h) None None
    (sh_incoming_conn h) (sh_error h).

Definition SlimHeader_get_source (h : SlimHeader) : panics Agent :=
  match sh_source h with
  | Some source => Agent_from_proto source
  | None => Panic "source not found"
  end.

Definition SlimHeader_get_dst (h : SlimHeader) : panics (AgentType * option N) :=
  match sh_destination h with
  | Some destination => Done (AgentType_from_proto destination, pa_agent_id destination)
  | None => Panic "destination not found"
  end.

Definition SlimHeader_set_source (source : Agent) (h : SlimHeader) : SlimHeader :=
  mkSlimHeader (Some (ProtoAgent_from_agent source)) (sh_destination h) (sh_fanout h)
    (sh_recv_from h) (sh_forward_to h) (sh_incoming_conn h) (sh_error h).
Definition SlimHeader_set_destination (dst : Agent) (h : SlimHeader) : SlimHeader :=
  mkSlimHeader (sh_source h) (Some (ProtoAgent_from_agent dst)) (sh_fanout h)
    (sh_recv_from h) (sh_forward_to h) (sh_incoming_conn h) (sh_error h).
Definition SlimHeader_set_recv_from (recv_from : option N) (h : SlimHeader) : SlimHeader :=
  mkSlimHeader (sh_source h) (sh_destination h) (sh_fanout h) recv_from
    (sh_forward_to h) (sh_incoming_conn h) (sh_error h).
Definition SlimHeader_set_forward_to (forward_to : option N) (h : SlimHeader) : SlimHeader :=
  mkSlimHeader (sh_source h) (sh_destination h) (sh_fanout h) (sh_recv_from h)
    forward_to (sh_incoming_conn h) (sh_error h).
Definition SlimHeader_set_error (error : option bool) (h : SlimHeader) : SlimHeader :=
  mkSlimHeader (sh_source h) (sh_destination h) (sh_fanout h) (sh_recv_from h)
    (sh_forward_to h) (sh_incoming_conn h) error.
Definition SlimHeader_set_incoming_conn (incoming_conn : option N) (h : SlimHeader) : SlimHeader :=
  mkSlimHeader (sh_source h) (sh_destination h) (sh_fanout h) (sh_recv_from h)
    (sh_forward_to h) incoming_conn (sh_error h).
Definition SlimHeader_set_error_flag (error : option bool) (h : SlimHeader) : SlimHeader :=
  mkSlimHeader (sh_source h) (sh_destination h) (sh_fanout h) (sh_recv_from h)
    (sh_forward_to h) (sh_incoming_conn h) error.
Definition SlimHeader_set_fanout (fanout : N) (h : SlimHeader) : SlimHeader :=
  mkSlimHeader (sh_source h) (sh_destination h) fanout (sh_recv_from h)
    (sh_forward_to h) (sh_incoming_conn h) (sh_error h).

(** The connection whose state a (un)subscription updates, and the connection
    it is forwarded to, if any. *)
Definition get_in_out_connections (h : SlimHeader) : panics (N * option N) :=
  incoming ← expect (sh_incoming_conn h) "incoming connection not found";
  match sh_recv_from h with
  | Some val => Done (val, None)
  | None =>
      match sh_forward_to h with
      | Some val => Done (incoming, Some val)
      | None => Done (incoming, None)
      end
  end.

(** ** Session header *)
Definition SessionHeader_new (header_type : Z) (session_id message_id : N) : SessionHeader :=
  mkSessionHeader header_type session_id message_id.
Definition SessionHeader_set_session_id (session_id : N) (h : SessionHeader) : SessionHeader :=
  mkSessionHeader (se_header_type h) session_id (se_message_id h).
Definition SessionHeader_set_message_id (message_id : N) (h : SessionHeader) : SessionHeader :=
  mkSessionHeader (se_header_type h) (se_session_id h) message_id.
(** The setter prost derives for the enumeration field. *)
Definition SessionHeader_set_header_type (t : SessionHeaderType) (h : SessionHeader) : SessionHeader :=
  mkSessionHeader (SessionHeaderType_to_i32 t) (se_session_id h) (se_message_id h).
Definition SessionHeader_clear (h : SessionHeader) : SessionHeader :=
  mkSessionHeader (se_header_type h) 0 0.

(** ** Message bodies *)
Definition ProtoSubscribe_new (source : Agent) (agent_type : AgentType) (agent_id : option N)
    (flags : option SlimHeaderFlags) : panics ProtoSubscribe :=
  let header := Some (SlimHeader_new source agent_type agent_id flags) in
  organization ← expect (organization_string agent_type) "called `Option::unwrap()` on a `None` value";
  namespace ← expect (namespace_string agent_type) "called `Option::unwrap()` on a `None` value";
  ty ← expect (agent_type_string agent_type) "called `Option::unwrap()` on a `None` value";
  Done (mkProtoSubscribe header organization namespace ty).

(** [impl From<ProtoMessage> for ProtoSubscribe]. *)
Definition ProtoSubscribe_from (message : ProtoMessage) : panics ProtoSubscribe :=
  match pm_message_type message with
  | Some (Subscribe s) => Done s
  | _ => Panic "message type is not subscribe"
  end.

Definition ProtoUnsubscribe_new (source : Agent) (agent_type : AgentType) (agent_id : option N)
    (flags : option SlimHeaderFlags) : ProtoUnsubscribe :=
  mkProtoUnsubscribe (Some (SlimHeader_new source agent_type agent_id flags)).

(** [impl From<ProtoMessage> for ProtoUnsubscribe]. *)
Definition ProtoUnsubscribe_from (message : ProtoMessage) : panics ProtoUnsubscribe :=
  match pm_message_type message with
  | Some (Unsubscribe u) => Done u
  | _ => Panic "message type is not unsubscribe"
  end.

Definition ProtoPublish_with_header (header : option SlimHeader) (session : option SessionHeader)
    (payload : option Content) : ProtoPublish := mkProtoPublish header session payload.

Definition ProtoPublish_new (source : Agent) (agent_type : AgentType) (agent_id : option N)
    (flags : option SlimHeaderFlags) (content_type : string) (blob : list Byte.byte) : ProtoPublish :=
  ProtoPublish_with_header (Some (SlimHeader_new source agent_type agent_id flags))
    (Some SessionHeader_default) (Some (mkContent content_type blob)).

(** [impl From<ProtoMessage> for ProtoPublish]. *)
Definition ProtoPublish_from (message : ProtoMessage) : panics ProtoPublish :=
  match pm_message_type message with
  | Some (Publish p) => Done p
  | _ => Panic "message type is not publish"
  end.

(** ** Messages *)
Definition ProtoMessage_new (metadata : gmap string string) (message_type : MessageType) : ProtoMessage :=
  mkProtoMessage metadata (Some message_type).

Definition new_subscribe (source : Agent) (agent_type : AgentType) (agent_id : option N)
    (flags : option SlimHeaderFlags) : panics ProtoMessage :=
  subscribe ← ProtoSubscribe_new source agent_type agent_id flags;
  Done (ProtoMessage_new ∅ (Subscribe subscribe)).

Definition new_unsubscribe (source : Agent) (agent_type : AgentType) (agent_id : option N)
    (flags : option SlimHeaderFlags) : ProtoMessage :=
  ProtoMessage_new ∅ (Unsubscribe (ProtoUnsubscribe_new source agent_type agent_id flags)).

Definition new_publish (source : Agent) (agent_type : AgentType) (agent_id : option N)
    (flags : option SlimHeaderFlags) (content_type : string) (blob : list Byte.byte) : ProtoMessage :=
  ProtoMessage_new ∅ (Publish (ProtoPublish_new source agent_type agent_id flags content_type blob)).

Definition new_publish_with_headers (slim_header : option SlimHeader)
    (session_header : option SessionHeader) (content_type : string) (blob : list Byte.byte)
    : ProtoMessage :=
  ProtoMessage_new ∅
    (Publish (ProtoPublish_with_header slim_header session_header (Some (mkContent content_type blob)))).

Definition unwrap_none {A} : panics A := Panic "called `Option::unwrap()` on a `None` value".
Definition unwrap {A} (o : option A) : panics A :=
  match o with Some a => Done a | None => unwrap_none end.

Definition try_get_slim_header (m : ProtoMessage) : option SlimHeader :=
  match pm_message_type m with
  | Some (Publish publish) => pu_header publish
  | Some (Subscribe sub) => su_header sub
  | Some (Unsubscribe unsub) => un_header unsub
  | None => None
  end.

Definition get_slim_header (m : ProtoMessage) : panics SlimHeader :=
  match pm_message_type m with
  | Some (Publish publish) => unwrap (pu_header publish)
  | Some (Subscribe sub) => unwrap (su_header sub)
  | Some (Unsubscribe unsub) => unwrap (un_header unsub)
  | None => Panic "SLIM header not found"
  end.

(** A change made through [get_slim_header_mut]. *)
Definition with_slim_header_mut (f : SlimHeader -> SlimHeader) (m : ProtoMessage) : panics ProtoMessage :=
  match pm_message_type m with
  | Some (Publish p) =>
      h ← unwrap (pu_header p);
      Done (mkProtoMessage (pm_metadata m)
              (Some (Publish (mkProtoPublish (Some (f h)) (pu_session p) (pu_msg p)))))
  | Some (Subscribe s) =>
      h ← unwrap (su_header s);
      Done (mkProtoMessage (pm_metadata m)
              (Some (Subscribe (mkProtoSubscribe (Some (f h)) (su_organization s)
                                  (su_namespace s) (su_agent_type s)))))
  | Some (Unsubscribe u) =>
      h ← unwrap (un_header u);
      Done (mkProtoMessage (pm_metadata m) (Some (Unsubscribe (mkProtoUnsubscribe (Some (f h))))))
  | None => Panic "SLIM header not found"
  end.

Definition get_session_header (m : ProtoMessage) : panics SessionHeader :=
  match pm_message_type m with
  | Some (Publish publish) => unwrap (pu_session publish)
  | Some (Subscribe _) | Some (Unsubscribe _) | None => Panic "session header not found"
  end.

(** A change made through [get_session_header_mut]. *)
Definition with_session_header_mut (f : SessionHeader -> SessionHeader) (m : ProtoMessage)
    : panics ProtoMessage :=
  match pm_message_type m with
  | Some (Publish p) =>
      h ← unwrap (pu_session p);
      Done (mkProtoMessage (pm_metadata m)
              (Some (Publish (mkProtoPublish (pu_header p) (Some (f h)) (pu_msg p)))))
  | Some (Subscribe _) | Some (Unsubscribe _) | None => Panic "session header not found"
  end.

Definition try_get_session_header (m : ProtoMessage) : option SessionHeader :=
  match pm_message_type m with
  | Some (Publish publish) => pu_session publish
  | Some (Subscribe _) | Some (Unsubscribe _) | None => None
  end.

(** [ProtoMessage::validate]. *)
Definition validate (m : ProtoMessage) : panics (Result unit MessageError) :=
  if decide (pm_message_type m = None) then Done (Err MessageTypeNotFound) else
  if decide (try_get_slim_header m = None) then Done (Err SlimHeaderNotFound) else
  slim_header ← get_slim_header m;
  if decide (sh_source slim_header = None) then Done (Err SourceNotFound) else
  if decide (sh_destination slim_header = None) then Done (Err DestinationNotFound) else
  match pm_message_type m with
  | Some (Publish p) =>
      if decide (pu_header p = None) then Done (Err SlimHeaderNotFound) else
      if decide (pu_session p = None) then Done (Err SessionHeaderNotFound) else
      Done (Ok tt)
  | Some (Subscribe s) =>
      if decide (su_header s = None) then Done (Err SlimHeaderNotFound) else Done (Ok tt)
  | Some (Unsubscribe u) =>
      if decide (un_header u = None) then Done (Err SlimHeaderNotFound) else Done (Ok tt)
  | None => Done (Err MessageTypeNotFound)
  end.

Definition insert_metadata (key val : string) (m : ProtoMessage) : ProtoMessage :=
  mkProtoMessage (<[key := val]> (pm_metadata m)) (pm_message_type m).
Definition remove_metadata (key : string) (m : ProtoMessage) : ProtoMessage :=
  mkProtoMessage (delete key (pm_metadata m)) (pm_message_type m).

Definition get_id (m : ProtoMessage) : panics N := se_message_id <$> get_session_header m.
Definition get_source (m : ProtoMessage) : panics Agent := get_slim_header m ≫= SlimHeader_get_source.
Definition get_fanout (m : ProtoMessage) : panics N := sh_fanout <$> get_slim_header m.
Definition get_recv_from (m : ProtoMessage) : panics (option N) := sh_recv_from <$> get_slim_header m.
Definition get_forward_to (m : ProtoMessage) : panics (option N) := sh_forward_to <$> get_slim_header m.
Definition get_error (m : ProtoMessage) : panics (option bool) := sh_error <$> get_slim_header m.
Definition get_incoming_conn (m : ProtoMessage) : panics N :=
  get_slim_header m ≫= fun h => unwrap (sh_incoming_conn h).
Definition try_get_incoming_conn (m : ProtoMessage) : panics (option N) :=
  sh_incoming_conn <$> get_slim_header m.

Definition get_name_as_agent (m : ProtoMessage) : panics Agent :=
  h ← get_slim_header m;
  '(a_type, a_id) ← SlimHeader_get_dst h;
  let id := match a_id with
            | None => DEFAULT_AGENT_ID
            | Some id => id
            end in
  Done (Agent_new a_type id).

Definition get_type (m : ProtoMessage) : panics MessageType :=
  match pm_message_type m with
  | Some t => Done t
  | None => Panic "message type not found"
  end.

Definition get_payload (m : ProtoMessage) : panics (option Content) :=
  match pm_message_type m with
  | Some (Publish p) => Done (pu_msg p)
  | Some (Subscribe _) | Some (Unsubscribe _) | None => Panic "payload not found"
  end.

Definition get_header_type (m : ProtoMessage) : panics SessionHeaderType :=
  h ← get_session_header m; Done (SessionHeaderType_from_i32 (se_header_type h)).

Definition clear_slim_header : ProtoMessage -> panics ProtoMessage :=
  with_slim_header_mut SlimHeader_clear.
Definition set_recv_from (recv_from : option N) : ProtoMessage -> panics ProtoMessage :=
  with_slim_header_mut (SlimHeader_set_recv_from recv_from).
Definition set_forward_to (forward_to : option N) : ProtoMessage -> panics ProtoMessage :=
  with_slim_header_mut (SlimHeader_set_forward_to forward_to).
Definition set_error (error : option bool) : ProtoMessage -> panics ProtoMessage :=
  with_slim_header_mut (SlimHeader_set_error error).
Definition set_fanout (fanout : N) : ProtoMessage -> panics ProtoMessage :=
  with_slim_header_mut (SlimHeader_set_fanout fanout).
Definition set_incoming_conn (incoming_conn : option N) : ProtoMessage -> panics ProtoMessage :=
  with_slim_header_mut (SlimHeader_set_incoming_conn incoming_conn).
Definition set_error_flag (error : option bool) : ProtoMessage -> panics ProtoMessage :=
  with_slim_header_mut (SlimHeader_set_error_flag error).
Definition set_header_type (t : SessionHeaderType) : ProtoMessage -> panics ProtoMessage :=
  with_session_header_mut (SessionHeader_set_header_type t).
Definition set_message_id (message_id : N) : ProtoMessage -> panics ProtoMessage :=
  with_session_header_mut (SessionHeader_set_message_id message_id).

Definition is_publish (m : ProtoMessage) : panics bool :=
  t ← get_type m; Done (match t with Publish _ => true | _ => false end).
Definition is_subscribe (m : ProtoMessage) : panics bool :=
  t ← get_type m; Done (match t with Subscribe _ => true | _ => false end).
Definition is_unsubscribe (m : ProtoMessage) : panics bool :=
  t ← get_type m; Done (match t with Unsubscribe _ => true | _ => false end).
Close Scope string_scope.

Section named.
Context `{Hasher}.

(** [ProtoMessage::get_name]: a subscription carries the original strings,
    and its type is rebuilt from them. *)
Definition get_name (m : ProtoMessage) : panics (AgentType * option N) :=
  h ← get_slim_header m;
  '(agent_type, agent_id) ← SlimHeader_get_dst h;
  match pm_message_type m with
  | Some (Subscribe s) =>
      Done (AgentType_from_strings (su_organization s) (su_namespace s) (su_agent_type s), agent_id)
  | _ => Done (agent_type, agent_id)
  end.
End named.

(** ** Properties *)

(** What [validate] accepts. *)
Definition valid_message (m : ProtoMessage) : Prop :=
  exists h src dst, try_get_slim_header m = Some h /\ sh_source h = Some src /\
    sh_destination h = Some dst /\
    match pm_message_type m with
    | Some (Publish p) => exists s, pu_session p = Some s
    | Some _ => True
    | None => False
    end.

Lemma get_slim_header_try m :
  get_slim_header m = match try_get_slim_header m with
                      | Some h => Done h
                      | None => match pm_message_type m with
                                | Some _ => unwrap_none
                                | None => Panic "SLIM header not found"
                                end
                      end.
Proof.
  unfold get_slim_header, try_get_slim_header.
  destruct (pm_message_type m) as [[[[]]|[[]]|[[]]]|]; done.
Qed.

(** [validate] is total, and accepts exactly the messages with a body, a SLIM
    header with source and destination and, for a publication, a session
    header. *)
Lemma validate_iff m :
  exists r, validate m = Done r /\ (r = Ok tt <-> valid_message m).
Proof.
  unfold validate, valid_message.
  destruct (pm_message_type m) as [t|] eqn:Ht.
  2:{ eexists; split; [done|]. split; [done|]. by intros (?&?&?&_&_&_&?). }
  destruct (decide _) as [|_]; [done|].
  rewrite get_slim_header_try.
  destruct (try_get_slim_header m) as [h|] eqn:Hh; simpl.
  2:{ eexists; split; [done|]. split; [done|]. by intros (?&?&?&?&_). }
  destruct (sh_source h) as [src|] eqn:Hs; simpl.
  2:{ eexists; split; [done|]. split; [done|]. by intros (?&?&?&[= <-]&?&_); simplify_eq. }
  destruct (sh_destination h) as [dst|] eqn:Hd; simpl.
  2:{ eexists; split; [done|]. split; [done|]. by intros (?&?&?&[= <-]&_&?&_); simplify_eq. }
  unfold try_get_slim_header in Hh; rewrite Ht in Hh.
  destruct t as [s|u|p]; simplify_eq/=; rewrite Hh; simpl;
    [eexists; split; [done|]; split; [by eauto 10|done]..|].
  destruct (pu_session p) as [s|]; simpl; eexists; (split; [done|]).
  - split; [by eauto 10|done].
  - split; [done|]. by intros (?&?&?&_&_&_&?&?).
Qed.

(** The accessors the message processor calls on a validated message. *)
Section accessors.
Context `{Hasher}.

Lemma valid_accessors m :
  valid_message m ->
  exists t h dst,
    get_type m = Done t /\ get_slim_header m = Done h /\ SlimHeader_get_dst h = Done dst /\
    get_name_as_agent m = Done (Agent_new dst.1 (default DEFAULT_AGENT_ID dst.2)) /\
    (exists name, get_name m = Done name) /\
    (forall p, t = Publish p -> exists s, get_session_header m = Done s).
Proof.
  intros (h&src&dst&Hh&Hs&Hd&Ht).
  assert (get_slim_header m = Done h) as Hg by (by rewrite get_slim_header_try, Hh).
  destruct (pm_message_type m) as [t|] eqn:Hmt; [|done].
  exists t, h, (AgentType_from_proto dst, pa_agent_id dst).
  unfold get_type, get_name, get_name_as_agent, get_session_header, SlimHeader_get_dst in *.
  rewrite Hmt, Hg; simpl. rewrite Hd; simpl.
  do 4 (split; [done || by destruct (pa_agent_id dst)|]). split.
  - destruct t; eauto.
  - intros p ->. destruct Ht as [s ->]. by exists s.
Qed.

(** C40: on a message that [validate] accepts, [get_type], [get_slim_header],
    [get_dst], [get_name], [get_name_as_agent] and, for a publication,
    [get_session_header] return; [get_source] returns exactly when the
    source carries an agent id, which [validate] does not check. *)
Lemma validate_accessors m :
  validate m = Done (Ok tt) ->
  (exists t, get_type m = Done t) /\
  (exists name, get_name m = Done name) /\
  (exists name, get_name_as_agent m = Done name) /\
  (exists h src, get_slim_header m = Done h /\ sh_source h = Some src /\
     get_source m = match pa_agent_id src with
                    | Some id => Done (mkAgent (AgentType_from_proto src) id)
                    | None => Panic "agent id not found"
                    end) /\
  (is_publish m = Done true -> exists s, get_session_header m = Done s).
Proof.
  intros Hv. destruct (validate_iff m) as (r&Hr&Hiff).
  rewrite Hv in Hr; injection Hr as <-.
  pose proof (proj1 Hiff eq_refl) as Hvalid.
  destruct (valid_accessors m Hvalid) as (t&h&dst&Ht&Hh&_&Hna&Hn&Hp).
  destruct Hvalid as (h'&src&_&Hh'&Hs&_).
  rewrite get_slim_header_try, Hh' in Hh. injection Hh as <-.
  assert (get_slim_header m = Done h') as Hg by (by rewrite get_slim_header_try, Hh').
  split; [eauto|]. split; [done|]. split; [eauto|]. split.
  - exists h', src. split; [done|]. split; [done|].
    unfold get_source. rewrite Hg; simpl. unfold SlimHeader_get_source. rewrite Hs.
    unfold Agent_from_proto. by destruct (pa_agent_id src).
  - unfold is_publish. rewrite Ht; simpl. destruct t; simpl; [done..|]. eauto.
Qed.

(** a subscription for a type built from its strings carries the whole
    name: [get_name] on the new message returns the type with its strings and
    the requested id, and the header holds the flags as given. *)
Lemma new_subscribe_roundtrip src o n t id flags :
  exists m h, new_subscribe src (AgentType_from_strings o n t) id (Some flags) = Done m /\
    validate m = Done (Ok tt) /\ is_subscribe m = Done true /\
    get_name m = Done (AgentType_from_strings o n t, id) /\
    get_slim_header m = Done h /\
    sh_fanout h = fl_fanout flags /\ sh_recv_from h = fl_recv_from flags /\
    sh_forward_to h = fl_forward_to flags /\ sh_incoming_conn h = fl_incoming_conn flags /\
    sh_error h = fl_error flags.
Proof. do 2 eexists. repeat split; reflexivity. Qed.

(** an unsubscription built from the same strings names the same
    agent type (its key, [Eq]'s view of it) and the same id as the
    subscription, so it removes what the subscription added. *)
Lemma unsubscribe_names_subscription src o n t id flags flags' :
  exists m ty ty', new_subscribe src (AgentType_from_strings o n t) id flags = Done m /\
    get_name m = Done (ty, id) /\
    get_name (new_unsubscribe src (AgentType_from_strings o n t) id flags') = Done (ty', id) /\
    AgentType_eq ty ty' = true.
Proof.
  do 3 eexists. repeat split. by apply AgentType_eq_key.
Qed.
End accessors.

Lemma validate_accessors_witness :
  let m := mkProtoMessage ∅ (Some (Publish (mkProtoPublish
    (Some (mkSlimHeader (Some (mkProtoAgent 1 2 3 None)) (Some (mkProtoAgent 4 5 6 (Some 7%N)))
       1 None None None None))
    (Some (mkSessionHeader 0 1 2)) None))) in
  (exists s, get_session_header m = Done s) /\ get_source m = Panic "agent id not found".
Proof.
  intros m. destruct (@validate_accessors toy_hasher m eq_refl) as (_&_&_&(h&src&Hh&Hs&->)&Hp).
  split; [exact (Hp eq_refl)|]. injection Hh as <-. injection Hs as <-. reflexivity.
Defined.

(** writing an agent to the wire and reading it back gives the same agent
    (up to the strings), unless its id is [DEFAULT_AGENT_ID]: that id is not
    written, and reading the agent back panics. *)
Lemma proto_agent_roundtrip a :
  (ag_agent_id a <> DEFAULT_AGENT_ID ->
    exists b, Agent_from_proto (ProtoAgent_from_agent a) = Done b /\ Agent_eq a b = true) /\
  (ag_agent_id a = DEFAULT_AGENT_ID ->
    Agent_from_proto (ProtoAgent_from_agent a) = Panic "agent id not found").
Proof.
  unfold Agent_from_proto, ProtoAgent_from_agent. case_decide as Hid; simpl; split; try done.
  intros _. eexists; split; [done|]. by apply Agent_eq_key.
Qed.

Lemma with_slim_header_mut_done f m h :
  try_get_slim_header m = Some h ->
  exists m', with_slim_header_mut f m = Done m' /\ try_get_slim_header m' = Some (f h) /\
    pm_metadata m' = pm_metadata m /\
    get_session_header m' = get_session_header m /\
    (MessageType_fmt <$> pm_message_type m') = (MessageType_fmt <$> pm_message_type m).
Proof.
  unfold try_get_slim_header, with_slim_header_mut, get_session_header. intros Hh.
  destruct (pm_message_type m) as [[s|u|p]|]; [| | |done]; simpl in Hh; rewrite Hh; simpl; eauto 10.
Qed.
