(* ===== verification/Pool.v ===== *)
(** * The element pool

    [datapath/src/tables/pool.rs]: a slab of optional elements with a bitmap of
    the used slots, the number of elements, the capacity, and [max_set], meant
    to be the highest used slot. *)
From stdpp Require Import base list gmap strings numbers option.
From S2P Require Import Prelude.

(** ** Model *)
Record Pool (T : Type) : Type := mkPool {
  bitmap : list bool;
  pool : list (option T);
  len : nat;
  capacity : nat;
  max_set : nat;
}.
Arguments mkPool {T} _ _ _ _ _.
Arguments bitmap {T} _.
Arguments pool {T} _.
Arguments len {T} _.
Arguments capacity {T} _.
Arguments max_set {T} _.

Section model.
Context {T : Type}.
Implicit Type p : Pool T.

Definition Pool_with_capacity (capacity : nat) : Pool T :=
  mkPool (replicate capacity false) (resize_with capacity None []) 0 capacity 0.

Definition Pool_is_empty p : bool := bool_decide (len p = 0).

Definition Pool_get p (index : nat) : option T := mjoin (pool p !! index).

(** A change made through [get_mut], when the slot holds an element. *)
Definition Pool_update p (index : nat) (f : T -> T) : Pool T :=
  match Pool_get p index with
  | Some x => mkPool (bitmap p) (<[index := Some (f x)]> (pool p)) (len p) (capacity p) (max_set p)
  | None => p
  end.

(** [Pool::insert_at]. [BitVec::set] and [Vec]'s [IndexMut] panic out of
    range; the guard tests [capacity < index]. *)
Definition Pool_insert_at p (element : T) (index : nat) : panics (Pool T * bool) :=
  if decide (capacity p < index) then Done (p, false) else
  let len' := if default false (bitmap p !! index) then len p else len p + 1 in
  if decide (index < length (bitmap p)) then
    if decide (index < length (pool p)) then
      Done (mkPool (<[index := true]> (bitmap p)) (<[index := Some element]> (pool p)) len'
              (capacity p) (if decide (max_set p < index) then index else max_set p), true)
    else Panic "index out of bounds"
  else Panic "index out of bounds".

(** The resizing step of [Pool::insert]. *)
Definition Pool_grow p : Pool T :=
  mkPool (bitmap p ++ replicate (capacity p) false) (resize_with (2 * capacity p) None (pool p))
    (len p) (capacity p * 2) (max_set p).

(** [Pool::insert]. *)
Definition Pool_insert p (element : T) : panics (Pool T * nat) :=
  let p := if decide (len p = capacity p) then Pool_grow p else p in
  match position negb (bitmap p) with
  | Some index =>
      '(p, ok) ← Pool_insert_at p element index;
      if ok : bool then Done (p, index) else Panic "insert_at failed"
  | None => Panic "pool is full"
  end.

(** The loop of [Pool::remove] looking for the new [max_set]:
    [for i in (0..n).rev()], stopping at the first set bit. *)
Fixpoint find_max_set (bits : list bool) (n : nat) : option nat :=
  match n with
  | 0 => None
  | S i => if default false (bits !! i) then Some i else find_max_set bits i
  end.

(** [Pool::remove]. *)
Definition Pool_remove p (index : nat) : Pool T * bool :=
  if default false (bitmap p !! index) then
    let bits := <[index := false]> (bitmap p) in
    let max_set' :=
      if decide (index = max_set p /\ index <> 0)
      then default (max_set p) (find_max_set bits (index - 1))
      else max_set p in
    (mkPool bits (<[index := None]> (pool p)) (len p - 1) (capacity p) max_set', true)
  else (p, false).

(** [Iter::next]: the remaining bits and the current index are the state. *)
Fixpoint Iter_next p (bits : list bool) (current_index : nat) : option T * list bool * nat :=
  match bits with
  | [] => (None, [], current_index)
  | false :: bits => Iter_next p bits (S current_index)
  | true :: bits => (Pool_get p current_index, bits, S current_index)
  end.

(** A [for] loop over the iterator: it stops at the first [None]. *)
Fixpoint Iter_collect (fuel : nat) p (bits : list bool) (current_index : nat) : list T :=
  match fuel with
  | 0 => []
  | S fuel =>
      match Iter_next p bits current_index with
      | (Some x, bits, i) => x :: Iter_collect fuel p bits i
      | (None, _, _) => []
      end
  end.
(** Each step consumes a bit, so the number of bits bounds the steps. *)
Definition Pool_iter p : list T := Iter_collect (S (length (bitmap p))) p (bitmap p) 0.
End model.

(** ** Well-formedness *)
Record Pool_wf {T} (p : Pool T) : Prop := {
  wf_bitmap_length : length (bitmap p) = capacity p;
  wf_pool_length : length (pool p) = capacity p;
  wf_bits : forall i, bitmap p !! i = Some true <-> is_Some (Pool_get p i);
  wf_len : len p = occ true (bitmap p);
}.

(** [max_set] bounds the used slots. *)
Definition max_set_ok {T} (p : Pool T) : Prop :=
  forall i, is_Some (Pool_get p i) -> i <= max_set p.

Section lemmas.
Context {T : Type}.
Implicit Types (p : Pool T) (x : T).

Lemma Pool_get_Some p i x : Pool_get p i = Some x <-> pool p !! i = Some (Some x).
Proof. unfold Pool_get. destruct (pool p !! i) as [[]|]; simpl; split; congruence. Qed.

Lemma Pool_get_lt p i : Pool_wf p -> is_Some (Pool_get p i) -> i < capacity p.
Proof.
  intros Hwf [x Hx]. apply Pool_get_Some, lookup_lt_Some in Hx.
  by rewrite <- (wf_pool_length p Hwf).
Qed.

Lemma bit_default p i :
  Pool_wf p -> default false (bitmap p !! i) = bool_decide (is_Some (Pool_get p i)).
Proof.
  intros Hwf. pose proof (wf_bits p Hwf i) as Hb.
  case_bool_decide as Hg.
  - by rewrite (proj2 Hb Hg).
  - destruct (bitmap p !! i) as [[]|] eqn:E; [|done..]. by destruct Hg; apply Hb.
Qed.

Lemma Pool_with_capacity_wf n : Pool_wf (Pool_with_capacity (T:=T) n).
Proof.
  unfold Pool_with_capacity. split; simpl.
  - apply length_replicate.
  - apply length_resize_with.
  - intros i. unfold Pool_get; simpl.
    rewrite lookup_resize_with by (simpl; lia). simpl.
    destruct (decide (i < 0)); [lia|]. split.
    + intros [? _]%lookup_replicate. done.
    + case_decide; simpl; by intros [? ?].
  - induction n; [done|]. simpl. by rewrite occ_cons, decide_False.
Qed.

Lemma Pool_get_with_capacity n i : Pool_get (Pool_with_capacity (T:=T) n) i = None.
Proof.
  unfold Pool_get; simpl. rewrite lookup_resize_with by (simpl; lia).
  simpl. repeat case_decide; done || lia.
Qed.

Lemma Pool_grow_wf p : Pool_wf p -> Pool_wf (Pool_grow p).
Proof.
  intros [Hb Hp Hbits Hlen]. split; simpl.
  - rewrite length_app, length_replicate. lia.
  - rewrite length_resize_with. lia.
  - intros i. unfold Pool_get in *; simpl. rewrite lookup_resize_with by lia.
    case_decide as Hi.
    + rewrite lookup_app_l by lia. apply Hbits.
    + rewrite lookup_app_r by lia. split.
      * intros [? _]%lookup_replicate. done.
      * case_decide; simpl; by intros [? ?].
  - rewrite occ_app, Hlen. assert (occ true (replicate (capacity p) false) = 0); [|lia].
    apply occ_zero. intros Hin. apply elem_of_replicate in Hin as [? _]. done.
Qed.

Lemma Pool_get_grow p i : Pool_wf p -> Pool_get (Pool_grow p) i = Pool_get p i.
Proof.
  intros Hwf. unfold Pool_get; simpl. pose proof (wf_pool_length p Hwf).
  rewrite lookup_resize_with by lia.
  case_decide as Hi; [done|]. rewrite (lookup_ge_None_2 (pool p) i) by lia. by case_decide.
Qed.

(** Storing [x] in slot [i]. *)
Lemma Pool_insert_at_spec p x i :
  Pool_wf p -> i < capacity p ->
  exists p', Pool_insert_at p x i = Done (p', true) /\ Pool_wf p' /\
    (forall j, Pool_get p' j = if decide (j = i) then Some x else Pool_get p j) /\
    capacity p' = capacity p /\
    len p' = (if decide (is_Some (Pool_get p i)) then len p else S (len p)) /\
    max_set p' = Nat.max (max_set p) i.
Proof.
  intros Hwf Hi. destruct Hwf as [Hb Hp Hbits Hlen] eqn:E; clear E.
  assert (Hget : forall q j, pool q = <[i := Some x]> (pool p) ->
    Pool_get q j = if decide (j = i) then Some x else Pool_get p j).
  { intros q j Hq. unfold Pool_get. rewrite Hq. case_decide as Hj; subst.
    - by rewrite list_lookup_insert_eq by lia.
    - by rewrite list_lookup_insert_ne. }
  destruct (lookup_lt_is_Some_2 (bitmap p) i ltac:(lia)) as [b Hbi].
  unfold Pool_insert_at. rewrite decide_False by lia. rewrite decide_True by lia.
  rewrite decide_True by lia. eexists; split; [done|].
  split; [split; simpl|].
  - by rewrite length_insert.
  - by rewrite length_insert.
  - intros j. erewrite Hget by done. simpl. destruct (decide (j = i)) as [->|Hj].
    + rewrite list_lookup_insert_eq by lia. split; eauto.
    + rewrite list_lookup_insert_ne by done. apply Hbits.
  - pose proof (occ_insert true (bitmap p) i b true Hbi) as Hocc.
    rewrite Hbi; simpl. destruct b; simpl in Hocc; rewrite Hlen; lia.
  - split; [by intros; apply Hget|]. split; [done|]. simpl. split.
    + rewrite bit_default by done. 
      case_bool_decide; [by rewrite decide_True|rewrite decide_False by done; lia].
    + case_decide; lia.
Qed.

Lemma Pool_free_slot p :
  Pool_wf p -> len p < capacity p ->
  exists i, position negb (bitmap p) = Some i /\ i < capacity p /\ Pool_get p i = None /\
    (forall j, j < i -> is_Some (Pool_get p j)).
Proof.
  intros Hwf Hlt. pose proof (wf_bitmap_length p Hwf) as Hb.
  destruct (position negb (bitmap p)) as [i|] eqn:Hpos.
  - apply position_Some in Hpos as [(b&Hbi&Hneg) Hbefore].
    exists i. split; [done|]. split; [by rewrite <- Hb; eapply lookup_lt_Some|].
    split.
    + apply eq_None_not_Some. rewrite <- (wf_bits p Hwf), Hbi. by destruct b.
    + intros j Hj. apply (wf_bits p Hwf).
      destruct (lookup_lt_is_Some_2 (bitmap p) j) as [c Hc].
      { apply lookup_lt_Some in Hbi. lia. }
      rewrite Hc. specialize (Hbefore j c Hj Hc). by destruct c.
  - exfalso. rewrite position_None in Hpos.
    assert (occ true (bitmap p) = length (bitmap p)).
    { clear -Hpos. induction (bitmap p) as [|b l IH]; [done|].
      rewrite occ_cons. destruct b; [|by specialize (Hpos false ltac:(left))].
      simpl. rewrite IH; [done|]. intros y Hy. apply Hpos. by right. }
    rewrite (wf_len p Hwf) in Hlt. lia.
Qed.
End lemmas.

(** ** Properties *)
Section properties.
Context {T : Type}.
Implicit Types (p : Pool T) (x : T).

Lemma Pool_insert_total p x :
  Pool_wf p -> 0 < capacity p ->
  exists p' i, Pool_insert p x = Done (p', i) /\ Pool_wf p' /\
    Pool_get p i = None /\ (forall j, j < i -> is_Some (Pool_get p j)) /\
    (forall j, Pool_get p' j = if decide (j = i) then Some x else Pool_get p j) /\
    len p' = S (len p) /\ 0 < capacity p' /\ max_set p' = Nat.max (max_set p) i.
Proof.
  intros Hwf Hcap. unfold Pool_insert.
  set (q := if decide (len p = capacity p) then Pool_grow p else p).
  assert (Pool_wf q /\ (forall j, Pool_get q j = Pool_get p j) /\ len q = len p /\
          len q < capacity q /\ max_set q = max_set p) as (Hq&Hget&Hlen&Hroom&Hmax).
  { unfold q. case_decide as Hfull.
    - split; [by apply Pool_grow_wf|]. split; [by intros; apply Pool_get_grow|]. simpl. lia.
    - do 3 (split; [done|]). split; [|done].
      pose proof (occ_le_length true (bitmap p)).
      rewrite (wf_len p Hwf) in *. rewrite <- (wf_bitmap_length p Hwf) in *. lia. }
  destruct (Pool_free_slot q Hq Hroom) as (i&Hpos&Hi&Hfree&Hbefore).
  destruct (Pool_insert_at_spec q x i Hq Hi) as (p'&Hat&Hwf'&Hget'&Hcap'&Hlen'&Hmax').
  rewrite Hpos, Hat; simpl. exists p', i.
  rewrite Hget in Hfree. split; [done|]. split; [done|]. split; [done|].
  split; [intros j Hj; rewrite <- Hget; by apply Hbefore|].
  split; [intros j; rewrite Hget', Hget; done|].
  rewrite Hlen', Hget, Hfree, decide_False by (by intros [? ?]).
  split; [lia|]. split; [lia|]. lia.
Qed.

Lemma find_max_set_spec bits n :
  match find_max_set bits n with
  | Some i => i < n /\ bits !! i = Some true /\ (forall j, i < j < n -> bits !! j <> Some true)
  | None => forall j, j < n -> bits !! j <> Some true
  end.
Proof.
  induction n as [|n IH]; simpl; [lia|].
  destruct (default false (bits !! n)) eqn:E.
  - destruct (bits !! n) as [[]|] eqn:Hn; simpl in E; [|done..].
    split; [lia|]. split; [done|]. lia.
  - assert (bits !! n <> Some true) as Hn by (intros Hn; by rewrite Hn in E).
    destruct (find_max_set bits n) as [i|].
    + destruct IH as (?&?&Hj). split; [lia|]. split; [done|]. intros j Hlt.
      destruct (decide (j = n)) as [->|]; [done|]. apply Hj. lia.
    + intros j Hlt. destruct (decide (j = n)) as [->|]; [done|]. apply IH. lia.
Qed.

Lemma Pool_remove_get p i j :
  Pool_wf p ->
  Pool_get (Pool_remove p i).1 j = if decide (j = i) then None else Pool_get p j.
Proof.
  intros Hwf. unfold Pool_remove. rewrite bit_default by done. case_bool_decide as Hi; simpl.
  - unfold Pool_get; simpl. case_decide as Hj; subst.
    + apply Pool_get_lt in Hi; [|done].
      rewrite list_lookup_insert_eq by (by rewrite (wf_pool_length p Hwf)). done.
    + by rewrite list_lookup_insert_ne.
  - case_decide as Hj; subst; [|done]. by apply eq_None_not_Some.
Qed.

Lemma Pool_remove_wf p i : Pool_wf p -> Pool_wf (Pool_remove p i).1.
Proof.
  intros Hwf. pose proof (fun j => Pool_remove_get p i j Hwf) as Hget. revert Hget.
  unfold Pool_remove. rewrite bit_default by done. case_bool_decide as Hi; simpl; [|done].
  intros Hget. pose proof (Pool_get_lt p i Hwf Hi) as Hlt.
  split; simpl; rewrite ?length_insert; [apply Hwf..| |].
  - intros j. rewrite Hget. destruct (decide (j = i)) as [->|Hj].
    + rewrite list_lookup_insert_eq by (by rewrite (wf_bitmap_length p Hwf)).
      split; [done|]. by intros [? ?].
    + rewrite list_lookup_insert_ne by done. apply Hwf.
  - pose proof (proj2 (wf_bits p Hwf i) Hi) as Hbit.
    pose proof (occ_insert true (bitmap p) i true false Hbit) as Hocc. simpl in Hocc.
    rewrite (wf_len p Hwf). lia.
Qed.

Lemma Pool_remove_max_set p i :
  Pool_wf p -> max_set_ok p ->
  (i <> max_set p \/ i = 0 \/ Pool_get p (i - 1) = None) ->
  max_set_ok (Pool_remove p i).1.
Proof.
  intros Hwf Hok Hcase j. rewrite Pool_remove_get by done.
  case_decide as Hj; [by intros [? ?]|]. intros Hsome. pose proof (Hok j Hsome) as Hle.
  unfold Pool_remove. destruct (default false _) eqn:Hbit; simpl; [|done].
  case_decide as Hmax; [|done]. destruct Hmax as [Hmax Hnz].
  destruct Hcase as [?|[?|Hprev]]; [done..|].
  pose proof (find_max_set_spec (<[i:=false]> (bitmap p)) (i - 1)) as Hfind.
  apply (wf_bits p Hwf) in Hsome as Hjb.
  assert (Hjb' : <[i:=false]> (bitmap p) !! j = Some true) by (by rewrite list_lookup_insert_ne).
  assert (j <> i - 1) by (intros ->; rewrite Hprev in Hsome; by destruct Hsome).
  destruct (find_max_set _ _) as [k|]; simpl; [|lia].
  destruct Hfind as (?&_&Hnone). destruct (decide (j <= k)) as [|]; [done|].
  exfalso. apply (Hnone j); [lia|done].
Qed.
End properties.

(** ** Changes through [get_mut] *)
Lemma Pool_update_wf {T} (p : Pool T) i f : Pool_wf p -> Pool_wf (Pool_update p i f).
Proof.
  intros Hwf. unfold Pool_update. destruct (Pool_get p i) as [x|] eqn:Hx; [|done].
  destruct Hwf as [Hb Hp Hbits Hlen]. split; simpl; [done|by rewrite length_insert| |done].
  intros j. rewrite Hbits. unfold Pool_get; simpl.
  destruct (decide (i = j)) as [<-|Hne].
  - rewrite list_lookup_insert_eq by (apply Pool_get_Some, lookup_lt_Some in Hx; done).
    apply Pool_get_Some in Hx. rewrite Hx; simpl. split; by eexists.
  - by rewrite list_lookup_insert_ne.
Qed.

Lemma Pool_get_update {T} (p : Pool T) i f j :
  Pool_get (Pool_update p i f) j = if decide (j = i) then f <$> Pool_get p i else Pool_get p j.
Proof.
  unfold Pool_update. destruct (Pool_get p i) as [x|] eqn:Hx.
  - unfold Pool_get; simpl. case_decide as Hj; subst.
    + by rewrite list_lookup_insert_eq by (apply Pool_get_Some, lookup_lt_Some in Hx; done).
    + by rewrite list_lookup_insert_ne.
  - by case_decide; subst.
Qed.

Lemma capacity_update {T} (p : Pool T) i f : capacity (Pool_update p i f) = capacity p.
Proof. unfold Pool_update. by destruct (Pool_get p i). Qed.
Lemma len_update {T} (p : Pool T) i f : len (Pool_update p i f) = len p.
Proof. unfold Pool_update. by destruct (Pool_get p i). Qed.

(** ** Refinement of a finite map

    The operations on a pool with what they return, and their meaning on the
    capacity and the finite map from slots to elements: [insert] takes the lowest
    free slot, after doubling the capacity when there is none, and returns it;
    [insert_at] stores below the capacity and refuses above it; [remove] says
    whether the slot was used; [get_mut] changes the element of a used slot. *)
Inductive PoolOp (T : Type) : Type :=
| OpInsert (x : T)
| OpInsertAt (x : T) (i : nat)
| OpRemove (i : nat)
| OpGetMut (i : nat) (f : T -> T).
Arguments OpInsert {T} _.
Arguments OpInsertAt {T} _ _.
Arguments OpRemove {T} _.
Arguments OpGetMut {T} _ _.

Inductive PoolResult : Type :=
| AtSlot (i : nat)
| Whether (b : bool).

Section refinement.
Context {T : Type}.
Implicit Types (p : Pool T) (m : gmap nat T).

Definition Pool_exec p (o : PoolOp T) : panics (Pool T * PoolResult) :=
  match o with
  | OpInsert x => '(p, i) ← Pool_insert p x; Done (p, AtSlot i)
  | OpInsertAt x i => '(p, b) ← Pool_insert_at p x i; Done (p, Whether b)
  | OpRemove i => let (p, b) := Pool_remove p i in Done (p, Whether b)
  | OpGetMut i f => Done (Pool_update p i f, Whether (bool_decide (is_Some (Pool_get p i))))
  end.

Inductive pool_step : nat -> gmap nat T -> PoolOp T -> PoolResult -> nat -> gmap nat T -> Prop :=
| step_insert c m x i :
    m !! i = None -> (forall j, j < i -> is_Some (m !! j)) ->
    pool_step c m (OpInsert x) (AtSlot i) (if decide (size m = c) then 2 * c else c) (<[i := x]> m)
| step_insert_at c m x i : i < c -> pool_step c m (OpInsertAt x i) (Whether true) c (<[i := x]> m)
| step_refused c m x i : c < i -> pool_step c m (OpInsertAt x i) (Whether false) c m
| step_remove c m i : pool_step c m (OpRemove i) (Whether (bool_decide (is_Some (m !! i)))) c (delete i m)
| step_get_mut c m i f : pool_step c m (OpGetMut i f) (Whether (bool_decide (is_Some (m !! i)))) c (alter f i m).

(** [p] represents [m], with capacity [c]. *)
Record pool_rel p (c : nat) m : Prop := {
  rel_wf : Pool_wf p;
  rel_positive : 0 < c;
  rel_capacity : capacity p = c;
  rel_get : forall i, Pool_get p i = m !! i;
  rel_len : len p = size m;
}.

(** [insert_at] is not called with the capacity itself, where it panics. *)
Definition op_in_range p (o : PoolOp T) : Prop :=
  match o with OpInsertAt _ i => i <> capacity p | _ => True end.

Lemma pool_rel_init n : 0 < n -> pool_rel (Pool_with_capacity n) n ∅.
Proof.
  intros Hn. split; [apply Pool_with_capacity_wf|done|done| |done].
  intros i. by rewrite Pool_get_with_capacity, lookup_empty.
Qed.

(** A slot written, seen in the map. *)
Lemma pool_rel_store p p' c c' m i x :
  pool_rel p c m -> Pool_wf p' -> 0 < c' -> capacity p' = c' ->
  (forall j, Pool_get p' j = if decide (j = i) then Some x else Pool_get p j) ->
  len p' = (if decide (is_Some (m !! i)) then len p else S (len p)) -> pool_rel p' c' (<[i := x]> m).
Proof.
  intros Hrel Hwf Hpos Hcap Hget Hlen. split; [done..| |].
  - intros j. rewrite Hget, (rel_get _ _ _ Hrel).
    destruct (decide (j = i)) as [->|]; [by rewrite lookup_insert_eq|by rewrite lookup_insert_ne].
  - rewrite Hlen, (rel_len _ _ _ Hrel). case_decide as Hi; [by rewrite map_size_insert_Some|].
    rewrite map_size_insert_None; [done|]. by apply eq_None_not_Some.
Qed.

Lemma pool_rel_remove p c m i : pool_rel p c m -> pool_rel (Pool_remove p i).1 c (delete i m).
Proof.
  intros [Hwf Hpos Hcap Hget Hlen]. split; [by apply Pool_remove_wf|done|..].
  - unfold Pool_remove. by destruct (default _ _).
  - intros j. rewrite Pool_remove_get, Hget by done.
    case_decide; subst; [by rewrite lookup_delete_eq|by rewrite lookup_delete_ne].
  - unfold Pool_remove. rewrite bit_default, Hget by done.
    case_bool_decide as Hi; simpl.
    + destruct Hi as [x Hx]. rewrite map_size_delete_Some by eauto. lia.
    + rewrite delete_id; [done|]. by apply eq_None_not_Some.
Qed.
Lemma pool_rel_update p c m i f : pool_rel p c m -> pool_rel (Pool_update p i f) c (alter f i m).
Proof.
  intros [Hwf Hpos Hcap Hget Hlen].
  split; [by apply Pool_update_wf|done|by rewrite capacity_update| |].
  - intros j. rewrite Pool_get_update, !Hget by done.
    destruct (decide (j = i)) as [->|]; [by rewrite lookup_alter_eq|by rewrite lookup_alter_ne].
  - by rewrite len_update, Hlen, <- (size_dom (D := gset nat) (alter f i m)), dom_alter_L, size_dom.
Qed.

Lemma Pool_insert_at_capacity p x i p' b : Pool_insert_at p x i = Done (p', b) -> capacity p' = capacity p.
Proof. unfold Pool_insert_at. repeat case_decide; intros [= <- _]; done. Qed.
Lemma Pool_insert_capacity p x p' i :
  Pool_insert p x = Done (p', i) -> capacity p' = if decide (len p = capacity p) then 2 * capacity p else capacity p.
Proof.
  unfold Pool_insert. destruct (position _ _) as [j|]; [|done].
  destruct (Pool_insert_at _ x j) as [[q []]|] eqn:Hq; cbn; [|done..]. intros [= <- _].
  rewrite (Pool_insert_at_capacity _ _ _ _ _ Hq). case_decide; cbn; lia.
Qed.

Lemma pool_step_simulated p c m o :
  pool_rel p c m -> op_in_range p o ->
  exists p' r c' m', Pool_exec p o = Done (p', r) /\ pool_step c m o r c' m' /\ pool_rel p' c' m'.
Proof.
  intros Hrel Hin. pose proof Hrel as [Hwf Hpos Hcap Hget Hlen]. destruct o as [x|x i|i|i f]; simpl in *.
  - destruct (Pool_insert_total p x Hwf) as (p'&i&Hins&Hwf'&Hfree&Hbefore&Hget'&Hlen'&Hcap'&_); [lia|].
    rewrite Hins. eexists p', _, _, _. rewrite Hget in Hfree. split; [done|]. split.
    + constructor; [done|]. intros j Hj. rewrite <- Hget. by apply Hbefore.
    + apply (pool_rel_store p p' c _ m i x); [done..|case_decide; lia| |done|].
      * rewrite (Pool_insert_capacity _ _ _ _ Hins). by rewrite Hlen, Hcap.
      * rewrite Hfree, decide_False; [done|]. by intros [].
  - destruct (decide (c < i)) as [Hgt|Hle].
    + unfold Pool_insert_at. rewrite decide_True by lia. eexists p, _, _, _. split; [done|]. by split; [constructor|].
    + destruct (Pool_insert_at_spec p x i Hwf) as (p'&Hins&Hwf'&Hget'&Hcap'&Hlen'&_); [lia|].
      rewrite Hins. eexists p', _, _, _. split; [done|]. split; [constructor; lia|].
      apply (pool_rel_store p p' c c m i x); [done..|lia|done|]. by rewrite Hlen', Hget.
  - eexists _, _, _, _. split; [by rewrite (surjective_pairing (Pool_remove p i))|]. split; [|by apply pool_rel_remove].
    replace (Pool_remove p i).2 with (bool_decide (is_Some (m !! i))); [constructor|].
    unfold Pool_remove. rewrite bit_default, Hget by done. by case_bool_decide.
  - eexists _, _, _, _. split; [done|]. rewrite Hget. split; [constructor|]. by apply pool_rel_update.
Qed.

(** Runs of operations, with the result of each. *)
Fixpoint Pool_exec_all p (ops : list (PoolOp T)) : panics (Pool T * list PoolResult) :=
  match ops with
  | [] => Done (p, [])
  | o :: ops =>
      '(p, r) ← Pool_exec p o;
      '(p, rs) ← Pool_exec_all p ops;
      Done (p, r :: rs)
  end.
Fixpoint ops_in_range p (ops : list (PoolOp T)) : Prop :=
  match ops with
  | [] => True
  | o :: ops =>
      op_in_range p o /\
      match Pool_exec p o with Done (p', _) => ops_in_range p' ops | Panic _ => True end
  end.
Inductive pool_steps : nat -> gmap nat T -> list (PoolOp T) -> list PoolResult -> nat -> gmap nat T -> Prop :=
| steps_nil c m : pool_steps c m [] [] c m
| steps_cons c m o r c' m' ops rs c'' m'' :
    pool_step c m o r c' m' -> pool_steps c' m' ops rs c'' m'' -> pool_steps c m (o :: ops) (r :: rs) c'' m''.

Lemma pool_steps_simulated p c m ops :
  pool_rel p c m -> ops_in_range p ops ->
  exists p' rs c' m', Pool_exec_all p ops = Done (p', rs) /\ pool_steps c m ops rs c' m' /\ pool_rel p' c' m'.
Proof.
  revert p c m. induction ops as [|o ops IH]; intros p c m Hrel Hin; simpl in *.
  { exists p, [], c, m. split; [done|]. split; [constructor|done]. }
  destruct Hin as [Ho Hops].
  destruct (pool_step_simulated p c m o Hrel Ho) as (p1&r&c1&m1&He&Hstep&Hrel1).
  rewrite He in *; simpl.
  destruct (IH p1 c1 m1 Hrel1 Hops) as (p2&rs&c2&m2&He2&Hsteps&Hrel2). rewrite He2.
  exists p2, (r :: rs), c2, m2. split; [done|]. split; [by econstructor|done].
Qed.

(** C37: refinement. From an empty pool of positive capacity, every sequence of
    [insert], [insert_at] (at positions other than the capacity itself, where it
    panics), [remove] and changes through [get_mut] runs without a panic, and
    what each call returns (the slot taken, whether something was stored or
    removed), the capacity and the contents are those of the same operations on a
    finite map: [insert] returns the lowest free slot and doubles a full
    capacity. At the end the bitmap has one bit per slot, set exactly for the used
    ones, and [len] is the number of elements. *)
Theorem Pool_refines_map n ops :
  0 < n -> ops_in_range (Pool_with_capacity n) ops ->
  exists p rs c m, Pool_exec_all (Pool_with_capacity n) ops = Done (p, rs) /\ pool_steps n ∅ ops rs c m /\
    capacity p = c /\ length (bitmap p) = c /\
    (forall i, Pool_get p i = m !! i) /\ (forall i, bitmap p !! i = Some true <-> is_Some (m !! i)) /\
    len p = size m /\ (Pool_is_empty p = true <-> m = ∅).
Proof.
  intros Hn Hops.
  destruct (pool_steps_simulated _ _ _ ops (pool_rel_init n Hn) Hops) as (p&rs&c&m&He&Hs&[Hwf _ Hcap Hget Hlen]).
  exists p, rs, c, m. do 3 (split; [done|]). split; [by rewrite (wf_bitmap_length p Hwf)|]. split; [done|].
  split; [intros i; by rewrite (wf_bits p Hwf), Hget|]. split; [done|].
  unfold Pool_is_empty. by rewrite bool_decide_eq_true, Hlen, map_size_empty_iff.
Qed.
End refinement.

Definition pool_run : list (PoolOp nat) :=
  [OpInsert 7; OpInsert 8; OpRemove 0; OpInsertAt 4 9; OpInsert 9; OpInsertAt 5 1; OpRemove 3; OpGetMut 0 S].
Lemma Pool_refines_map_witness :
  exists p rs c m, Pool_exec_all (Pool_with_capacity 1) pool_run = Done (p, rs) /\ pool_steps 1 ∅ pool_run rs c m /\
    capacity p = c /\ length (bitmap p) = c /\
    (forall i, Pool_get p i = m !! i) /\ (forall i, bitmap p !! i = Some true <-> is_Some (m !! i)) /\
    len p = size m /\ (Pool_is_empty p = true <-> m = ∅).
Proof. apply Pool_refines_map; [lia|]. vm_compute. repeat split; lia. Defined.
Example pool_run_results :
  snd <$> Pool_exec_all (Pool_with_capacity 1) pool_run =
  Done [AtSlot 0; AtSlot 1; Whether true; Whether false; AtSlot 0; Whether true; Whether false; Whether true].
Proof. by vm_compute. Qed.

(** ** Iteration *)
Section iteration.
Context {T : Type}.
Implicit Type p : Pool T.

Lemma Iter_next_spec p bits i :
  (forall j, bits !! j = Some true <-> is_Some (Pool_get p (i + j))) ->
  length (pool p) = i + length bits ->
  match Iter_next p bits i with
  | (Some x, bits', i') =>
      omap id (drop i (pool p)) = x :: omap id (drop i' (pool p)) /\
      (forall j, bits' !! j = Some true <-> is_Some (Pool_get p (i' + j))) /\
      length (pool p) = i' + length bits' /\ length bits' < length bits
  | (None, _, _) => omap id (drop i (pool p)) = []
  end.
Proof.
  revert i. induction bits as [|b bits IH]; intros i Hbits Hlen; simpl in *.
  { by rewrite drop_ge by lia. }
  destruct (lookup_lt_is_Some_2 (pool p) i ltac:(lia)) as [o Ho].
  rewrite (drop_S (pool p) o i Ho). simpl.
  pose proof (Hbits 0) as Hb0. rewrite Nat.add_0_r in Hb0.
  unfold Pool_get in Hb0 at 1. rewrite Ho in Hb0. simpl in Hb0.
  assert (Htail : forall j, bits !! j = Some true <-> is_Some (Pool_get p (S i + j))).
  { intros j. specialize (Hbits (S j)). simpl in Hbits.
    by replace (S i + j) with (i + S j) by lia. }
  destruct b.
  - destruct (proj1 Hb0 eq_refl) as [x Hx]. unfold Pool_get. rewrite Ho, Hx. simpl.
    split; [done|]. split; [done|]. lia.
  - destruct o as [x|]; [by discriminate (proj2 Hb0 ltac:(by eexists))|]. simpl.
    specialize (IH (S i) Htail ltac:(lia)).
    destruct (Iter_next p bits (S i)) as [[[x|] bits'] i']; [|done].
    destruct IH as (?&?&?&?). do 3 (split; [done|]). lia.
Qed.

Lemma Iter_collect_spec fuel p bits i :
  length bits < fuel ->
  (forall j, bits !! j = Some true <-> is_Some (Pool_get p (i + j))) ->
  length (pool p) = i + length bits ->
  Iter_collect fuel p bits i = omap id (drop i (pool p)).
Proof.
  revert bits i. induction fuel as [|fuel IH]; intros bits i Hfuel Hbits Hlen; simpl; [lia|].
  pose proof (Iter_next_spec p bits i Hbits Hlen) as Hnext.
  destruct (Iter_next p bits i) as [[[x|] bits'] i']; [|done].
  destruct Hnext as (->&?&?&?). f_equal. apply IH; [lia|done..].
Qed.

(** iterating a well-formed pool terminates and yields exactly its
    elements, in slot order; free slots are skipped. *)
Theorem Pool_iter_spec p : Pool_wf p -> Pool_iter p = omap id (pool p).
Proof.
  intros Hwf. unfold Pool_iter. rewrite Iter_collect_spec; [done|lia|apply Hwf|].
  simpl. by rewrite (wf_bitmap_length p Hwf), (wf_pool_length p Hwf).
Qed.
End iteration.

Definition pool_79 : Pool nat :=
  mkPool [true; false; true; false] [Some 7; None; Some 9; None] 2 4 2.
Lemma pool_79_wf : Pool_wf pool_79.
Proof.
  split; [done..| |done]. intros i. unfold pool_79, Pool_get; simpl.
  do 4 (destruct i as [|i]; simpl;
    [split; (done || (by intros [? [=]]) || (by intros _; eexists))|]).
  split; [done|by intros [? [=]]].
Qed.
Lemma Pool_iter_spec_witness : Pool_iter pool_79 = [7; 9].
Proof. exact (Pool_iter_spec pool_79 pool_79_wf). Defined.

(** ** [max_set] *)

(** [max_set] bounds every used slot after any operation but one: [insert]
    and [insert_at] keep the bound, and so does [remove], except when it removes
    the slot [max_set] while the slot just below is in use. *)
Theorem max_set_preserved {T} (p : Pool T) (x : T) i :
  Pool_wf p -> 0 < capacity p -> max_set_ok p ->
  (forall p' k, Pool_insert p x = Done (p', k) -> max_set_ok p' /\ k <= max_set p') /\
  (i < capacity p -> forall p' b, Pool_insert_at p x i = Done (p', b) -> max_set_ok p') /\
  ((i <> max_set p \/ i = 0 \/ Pool_get p (i - 1) = None) -> max_set_ok (Pool_remove p i).1).
Proof.
  intros Hwf Hcap Hok. split; [|split].
  - intros p' k Hins.
    destruct (Pool_insert_total p x Hwf Hcap) as (q&k'&Hq&_&_&_&Hget&_&_&Hmax).
    rewrite Hins in Hq. injection Hq as <- <-. split; [|lia].
    intros j. rewrite Hget. case_decide; [lia|]. intros Hj. pose proof (Hok j Hj). lia.
  - intros Hi p' b Hins. destruct (Pool_insert_at_spec p x i Hwf Hi) as (q&Hq&_&Hget&_&_&Hmax).
    rewrite Hins in Hq. injection Hq as <- _.
    intros j. rewrite Hget. case_decide; [lia|]. intros Hj. pose proof (Hok j Hj). lia.
  - by apply Pool_remove_max_set.
Qed.

Lemma max_set_preserved_witness :
  max_set_ok (Pool_remove pool_79 2).1 /\ max_set (Pool_remove pool_79 2).1 = 0.
Proof.
  split; [|done].
  apply (max_set_preserved pool_79 0 2 pool_79_wf); [simpl; lia| |right; right; done].
  intros i. unfold pool_79, Pool_get; simpl.
  do 3 (destruct i as [|i]; simpl; [lia|]). destruct i; simpl; by intros [? [=]].
Defined.

(** the exception happens. Three elements are inserted and the last one is
    removed: [max_set] becomes 0 although slot 1 is still in use, because the
    search for the new maximum starts two slots below the removed one. *)
Theorem max_set_misses_slot :
  exists p : Pool nat,
    fst <$> Pool_exec_all (Pool_with_capacity 2) [OpInsert 7; OpInsert 8; OpInsert 9; OpRemove 2] = Done p /\
    Pool_get p 1 = Some 8 /\ max_set p = 0 /\ ~ max_set_ok p.
Proof.
  eexists. split; [vm_compute; reflexivity|]. split; [done|]. split; [done|].
  intros H. specialize (H 1 ltac:(by eauto)). simpl in H. lia.
Qed.

(** [insert_at] returns [false] and changes nothing above the capacity,
    stores the element below it, and panics when the position is the capacity
    itself. *)
Theorem insert_at_branches {T} (p : Pool T) (x : T) i :
  Pool_wf p ->
  (capacity p < i -> Pool_insert_at p x i = Done (p, false)) /\
  (i = capacity p -> panicked (Pool_insert_at p x i)) /\
  (i < capacity p -> exists p', Pool_insert_at p x i = Done (p', true) /\ Pool_get p' i = Some x).
Proof.
  intros Hwf. split; [|split].
  - intros Hi. unfold Pool_insert_at. by rewrite decide_True.
  - intros ->. unfold Pool_insert_at. rewrite decide_False by lia.
    rewrite decide_False by (rewrite (wf_bitmap_length p Hwf); lia). by eexists.
  - intros Hi. destruct (Pool_insert_at_spec p x i Hwf Hi) as (p'&Hins&_&Hget&_).
    exists p'. split; [done|]. by rewrite Hget, decide_True.
Qed.

Lemma insert_at_branches_witness :
  panicked (Pool_insert_at pool_79 1 4) /\ Pool_insert_at pool_79 1 5 = Done (pool_79, false).
Proof.
  split.
  - by apply (insert_at_branches pool_79 1 4 pool_79_wf).
  - apply (insert_at_branches pool_79 1 5 pool_79_wf). simpl. lia.
Defined.
