(* ===== verification/ConnectionTable.v ===== *)
(** * Connections and the connection table

    [datapath/src/connection.rs] and [datapath/src/tables/connection_table.rs].
    A sender half of an mpsc channel is named by the channel's number, a
    cancellation token by its own number; the state behind those numbers is kept
    by the message processor. *)
From Stdlib Require Import Sorting.Sorted.
From stdpp Require Import base list gmap strings numbers option.
From S2P Require Import Prelude Pool.

(** ** Connections *)
Record SocketAddr : Type := mkSocketAddr {
  sa_ip : string;
  sa_port : N;
}.

Inductive Channel : Type :=
| Server (tx : N)
| Client (tx : N)
| UnknownChannel.

(** [connection::Type]. *)
Inductive ConnType : Type :=
| Local
| Remote
| UnknownType.

Record Connection : Type := mkConnection {
  cn_remote_addr : option SocketAddr;
  cn_local_addr : option SocketAddr;
  cn_channel : Channel;
  cn_connection_type : ConnType;
  cn_cancellation_token : option N;
}.

(** [Connection::new]. *)
Definition Connection_new (connection_type : ConnType) : Connection :=
  mkConnection None None UnknownChannel connection_type None.
Definition with_remote_addr (remote_addr : option SocketAddr) (c : Connection) : Connection :=
  mkConnection remote_addr (cn_local_addr c) (cn_channel c) (cn_connection_type c)
    (cn_cancellation_token c).
Definition with_local_addr (local_addr : option SocketAddr) (c : Connection) : Connection :=
  mkConnection (cn_remote_addr c) local_addr (cn_channel c) (cn_connection_type c)
    (cn_cancellation_token c).
Definition with_channel (channel : Channel) (c : Connection) : Connection :=
  mkConnection (cn_remote_addr c) (cn_local_addr c) channel (cn_connection_type c)
    (cn_cancellation_token c).
Definition with_cancellation_token (token : option N) (c : Connection) : Connection :=
  mkConnection (cn_remote_addr c) (cn_local_addr c) (cn_channel c) (cn_connection_type c) token.
Definition is_local_connection (c : Connection) : bool :=
  match cn_connection_type c with Local => true | _ => false end.

(** ** The table

    The lock around the pool makes every operation atomic; [Arc] sharing of an
    immutable connection is invisible. *)
Section table.
Context {T : Type}.
Implicit Type t : Pool T.

Definition ConnectionTable_with_capacity (capacity : nat) : Pool T := Pool_with_capacity capacity.
Definition ConnectionTable_insert t (connection : T) : panics (Pool T * nat) :=
  Pool_insert t connection.
Definition ConnectionTable_insert_at t (connection : T) (index : nat) : panics (Pool T * bool) :=
  Pool_insert_at t connection index.
Definition ConnectionTable_remove t (index : nat) : Pool T * bool := Pool_remove t index.
Definition ConnectionTable_get t (index : nat) : option T := Pool_get t index.

(** [ConnectionTable::for_each]: the calls [f] receives, in order. *)
Definition ConnectionTable_for_each t : list (nat * T) :=
  omap (fun idx => pair idx <$> ConnectionTable_get t idx) (seq 0 (S (max_set t))).

Lemma for_each_elem t i c :
  (i, c) ∈ ConnectionTable_for_each t <-> i <= max_set t /\ Pool_get t i = Some c.
Proof.
  unfold ConnectionTable_for_each, ConnectionTable_get. rewrite list_elem_of_omap.
  setoid_rewrite elem_of_seq. split.
  - intros (j&Hj&Hc). destruct (Pool_get t j) as [c'|] eqn:E; simplify_eq/=. split; [lia|done].
  - intros [Hi Hc]. exists i. split; [lia|]. by rewrite Hc.
Qed.

(** [for_each] visits the connections in increasing index order, each
    once and with the connection stored at that index; it visits every
    connection as long as [max_set] bounds the used slots. *)
Theorem for_each_spec t :
  (forall i c, (i, c) ∈ ConnectionTable_for_each t -> ConnectionTable_get t i = Some c) /\
  StronglySorted lt (ConnectionTable_for_each t).*1 /\
  (max_set_ok t ->
   forall i c, ConnectionTable_get t i = Some c -> (i, c) ∈ ConnectionTable_for_each t).
Proof.
  split; [|split].
  - intros i c [_ ?]%for_each_elem. done.
  - unfold ConnectionTable_for_each. generalize (S (max_set t)) as n, 0 as k.
    induction n as [|n IH]; intros k; simpl; [constructor|].
    destruct (ConnectionTable_get t k) as [c|]; simpl; [|apply IH].
    constructor; [apply IH|]. apply Forall_forall. intros j Hj%list_elem_of_In.
    apply list_elem_of_fmap in Hj as ([j' c']&->&Hj).
    apply list_elem_of_omap in Hj as (i&Hi&Hc). apply elem_of_seq in Hi.
    destruct (ConnectionTable_get t i); simplify_eq/=. lia.
  - intros Hok i c Hc. apply for_each_elem. split; [apply Hok; by eexists|done].
Qed.
End table.
