(* ===== verification/RemoteSubscriptions.v ===== *)
(** * Subscriptions forwarded on remote connections

    [datapath/src/tables/remote_subscription_table.rs]: for each connection, the
    set of (source, name) pairs that were forwarded on it and that a
    reconnection replays. *)
From stdpp Require Import base list gmap strings numbers option.
From S2P Require Import Prelude Proto Encoder.

Record SubscriptionInfo : Type := mkSubscriptionInfo {
  si_source : Agent;
  si_name : Agent;
}.

(** What the derived [Hash] and [Eq] look at. *)
Definition info_key (i : SubscriptionInfo) : ((N * N * N) * N) * ((N * N * N) * N) :=
  (agent_key (si_source i), agent_key (si_name i)).

Abbreviation InfoSet := (gmap (((N * N * N) * N) * ((N * N * N) * N)) SubscriptionInfo).
Abbreviation RemoteSubscriptions := (gmap N InfoSet).

(** [RemoteSubscriptions::add_subscription]. *)
Definition Remote_add_subscription (map : RemoteSubscriptions) (source name : Agent) (conn : N)
    : RemoteSubscriptions :=
  let info := mkSubscriptionInfo source name in
  match map !! conn with
  | None => <[conn := (hs_insert info_key info ∅).1]> map
  | Some set => <[conn := (hs_insert info_key info set).1]> map
  end.

(** [RemoteSubscriptions::remove_subscription]. *)
Definition Remote_remove_subscription (map : RemoteSubscriptions) (source name : Agent) (conn : N)
    : RemoteSubscriptions :=
  let info := mkSubscriptionInfo source name in
  match map !! conn with
  | None => map
  | Some set =>
      let set := (hs_remove info_key info set).1 in
      if decide (set = ∅) then delete conn map else <[conn := set]> map
  end.

Definition Remote_get_subscriptions_on_connection (map : RemoteSubscriptions) (conn : N) : InfoSet :=
  match map !! conn with
  | None => ∅
  | Some set => set
  end.

Definition Remote_remove_connection (map : RemoteSubscriptions) (conn : N) : RemoteSubscriptions :=
  delete conn map.

(** ** Properties *)

(** Every stored pair sits under its own key, and no empty set is kept. *)
Definition Remote_wf (map : RemoteSubscriptions) : Prop :=
  forall conn set, map !! conn = Some set ->
    set <> ∅ /\ (forall k i, set !! k = Some i -> info_key i = k).

Definition forwarded (map : RemoteSubscriptions) (conn : N)
    (k : ((N * N * N) * N) * ((N * N * N) * N)) : Prop :=
  is_Some (Remote_get_subscriptions_on_connection map conn !! k).

Lemma info_remove_lookup (info : SubscriptionInfo) (set : InfoSet) k :
  (hs_remove info_key info set).1 !! k = if decide (k = info_key info) then None else set !! k.
Proof.
  unfold hs_remove. destruct (set !! info_key info) eqn:E; simpl; case_decide; subst.
  - apply lookup_delete_eq.
  - by apply lookup_delete_ne.
  - done.
  - done.
Qed.

Lemma get_subscriptions_default map conn :
  Remote_get_subscriptions_on_connection map conn = default ∅ (map !! conn).
Proof. unfold Remote_get_subscriptions_on_connection. by destruct (map !! conn). Qed.

Lemma forwarded_add map s n c conn k :
  forwarded (Remote_add_subscription map s n c) conn k <->
  (conn = c /\ k = info_key (mkSubscriptionInfo s n)) \/ forwarded map conn k.
Proof.
  unfold forwarded. rewrite !get_subscriptions_default.
  set (info := mkSubscriptionInfo s n). unfold Remote_add_subscription. fold info.
  assert (Hins : forall set : InfoSet,
    is_Some ((hs_insert info_key info set).1 !! k) <-> k = info_key info \/ is_Some (set !! k)).
  { intros set. unfold hs_insert. destruct (set !! info_key info) eqn:E; simpl.
    - split; [by right|]. intros [->|?]; [by eexists|done].
    - rewrite lookup_insert_is_Some. split; [intros [?|[? ?]]; auto|].
      intros [->|?]; [by left|]. destruct (decide (info_key info = k)); auto. }
  destruct (decide (conn = c)) as [->|Hne].
  - destruct (map !! c) as [set|] eqn:E; rewrite lookup_insert_eq; simpl; rewrite Hins;
      rewrite ?lookup_empty; intuition congruence.
  - destruct (map !! c) as [set|] eqn:E; rewrite lookup_insert_ne by done; intuition congruence.
Qed.

Lemma forwarded_remove map s n c conn k :
  forwarded (Remote_remove_subscription map s n c) conn k <->
  forwarded map conn k /\ ~ (conn = c /\ k = info_key (mkSubscriptionInfo s n)).
Proof.
  unfold forwarded. rewrite !get_subscriptions_default.
  unfold Remote_remove_subscription. set (info := mkSubscriptionInfo s n).
  assert (Hlk : forall set : InfoSet, is_Some ((hs_remove info_key info set).1 !! k) <->
    is_Some (set !! k) /\ k <> info_key info).
  { intros set. rewrite info_remove_lookup. case_decide; [|intuition congruence].
    split; [by intros [? ?]|intuition congruence]. }
  destruct (map !! c) as [set|] eqn:E; simpl.
  - destruct (decide (conn = c)) as [->|Hne].
    + rewrite E; simpl. case_decide as Hemp.
      * rewrite lookup_delete_eq; simpl. specialize (Hlk set). rewrite Hemp in Hlk.
        rewrite lookup_empty in *. intuition congruence.
      * rewrite lookup_insert_eq; simpl. rewrite Hlk. intuition congruence.
    + case_decide; [rewrite lookup_delete_ne by done|rewrite lookup_insert_ne by done]; intuition congruence.
  - split; [|intuition congruence]. intros H. split; [done|]. intros [-> _].
    rewrite E in H. simpl in H. rewrite lookup_empty in H. by destruct H.
Qed.

(** the table is a set of (connection, source, name) triples: an added
    triple is returned for its connection, a removed one no longer is, dropping
    a connection removes exactly its triples, and nothing else changes. *)
Theorem remote_subscriptions_spec (map : RemoteSubscriptions) s n c conn k :
  (forwarded (Remote_add_subscription map s n c) conn k <->
    (conn = c /\ k = info_key (mkSubscriptionInfo s n)) \/ forwarded map conn k) /\
  (forwarded (Remote_remove_subscription map s n c) conn k <->
    forwarded map conn k /\ ~ (conn = c /\ k = info_key (mkSubscriptionInfo s n))) /\
  (forwarded (Remote_remove_connection map c) conn k <-> forwarded map conn k /\ conn <> c).
Proof.
  split; [apply forwarded_add|]. split; [apply forwarded_remove|].
  unfold forwarded, Remote_remove_connection. rewrite !get_subscriptions_default.
  destruct (decide (conn = c)) as [->|Hne].
  - rewrite lookup_delete_eq; simpl. rewrite lookup_empty. split; [by intros [? ?]|]. by intros [_ ?].
  - rewrite lookup_delete_ne by done. intuition congruence.
Qed.
