(* ===== verification/SubscriptionTable.v ===== *)
(** * The subscription table: model

    [datapath/src/tables/subscription_table.rs] and [tables/errors.rs].
    [table] maps an agent type to the connections that subscribed for it, in
    total and per agent id; [connections] maps a connection to the agents it
    subscribed for. In the pairs below the first component is the array's
    position 0 (local connections), the second its position 1 (remote ones).

    Every operation takes the locks it needs one after the other; the model
    runs an operation without interleaving. The iteration order of the hash
    maps is the [HashIter] parameter, the outcomes of [random_range] are the
    arguments [r], [r1], [r2]. *)
From stdpp Require Import base list gmap strings numbers option.
From S2P Require Import Prelude Proto Encoder Pool.

Inductive SubscriptionTableError : Type :=
| NoMatch (s : string)
| SubscriptionNotFound
| AgentIdNotFound
| ConnectionIdNotFound.

Open Scope string_scope.
Definition SubscriptionTableError_fmt (e : SubscriptionTableError) : string :=
  match e with
  | NoMatch s => "no matching found for " +:+ s
  | SubscriptionNotFound => "subscription not fund"
  | AgentIdNotFound => "agent id not fund"
  | ConnectionIdNotFound => "connection id not fund"
  end.

(** [format!("{}, {:?}", agent_type, agent_id)]. *)
Definition no_match {A} (agent_type : AgentType) (agent_id : option N)
    : Result A SubscriptionTableError :=
  Err (NoMatch (AgentType_fmt agent_type +:+ ", " +:+ fmt_debug_opt agent_id)).
Close Scope string_scope.

(** The array position selected by [is_local]. *)
Definition side {A} (is_local : bool) (p : A * A) : A := if is_local then p.1 else p.2.
Definition set_side {A} (is_local : bool) (x : A) (p : A * A) : A * A :=
  if is_local then (x, p.2) else (p.1, x).

(** ** Reference-counted connections *)
Record ConnId : Type := mkConnId {
  ci_conn_id : N;
  ci_counter : nat;
}.
(** [ConnId::new]. *)
Definition ConnId_new (conn_id : N) : ConnId := mkConnId conn_id 1.

Record Connections : Type := mkConnections {
  cs_index : gmap N nat;
  cs_pool : Pool ConnId;
}.

Definition Connections_default : Connections := mkConnections ∅ (Pool_with_capacity 2).

Definition Connections_insert (c : Connections) (conn : N) : panics Connections :=
  match cs_index c !! conn with
  | None =>
      '(p, pos) ← Pool_insert (cs_pool c) (ConnId_new conn);
      Done (mkConnections (<[conn := pos]> (cs_index c)) p)
  | Some pos =>
      match Pool_get (cs_pool c) pos with
      | None => Done c
      | Some _ =>
          Done (mkConnections (cs_index c)
                  (Pool_update (cs_pool c) pos
                     (fun ci => mkConnId (ci_conn_id ci) (ci_counter ci + 1))))
      end
  end.

Definition Connections_remove (c : Connections) (conn : N)
    : Connections * Result unit SubscriptionTableError :=
  match cs_index c !! conn with
  | None => (c, Err ConnectionIdNotFound)
  | Some conn_index =>
      match Pool_get (cs_pool c) conn_index with
      | None => (c, Err ConnectionIdNotFound)
      | Some conn_id =>
          if decide (ci_counter conn_id = 1) then
            (mkConnections (delete conn (cs_index c)) (Pool_remove (cs_pool c) conn_index).1, Ok tt)
          else
            (mkConnections (cs_index c)
               (Pool_update (cs_pool c) conn_index
                  (fun ci => mkConnId (ci_conn_id ci) (ci_counter ci - 1))), Ok tt)
      end
  end.

(** The [while !stop] loop of [get_one]: from [i], round the positions
    [0..n-1], until [index] comes up again. [None] when the fuel runs out. *)
Fixpoint get_one_loop (fuel : nat) (p : Pool ConnId) (except_conn : N) (n index i : nat)
    : option (option N) :=
  match fuel with
  | 0 => None
  | S fuel =>
      let next :=
        let i := (i + 1) mod n in
        if decide (i = index) then Some None else get_one_loop fuel p except_conn n index i in
      match Pool_get p i with
      | Some ci => if decide (ci_conn_id ci <> except_conn) then Some (Some (ci_conn_id ci)) else next
      | None => next
      end
  end.

Section model.
Context `{HashIter}.

(** The first key of a map's iteration. *)
Definition first_key (m : gmap N nat) : panics N :=
  match hash_iter m with
  | (k, _) :: _ => Done k
  | [] => Panic "called `Option::unwrap()` on a `None` value"
  end.

Definition Connections_get_one (c : Connections) (except_conn : N) (r : nat) : panics (option N) :=
  if decide (size (cs_index c) = 1) then
    if decide (is_Some (cs_index c !! except_conn)) then Done None
    else Some <$> first_key (cs_index c)
  else
    let n := max_set (cs_pool c) + 1 in
    index ← random_range n r;
    expect (get_one_loop n (cs_pool c) except_conn n index index) "loop did not stop".

Definition Connections_get_all (c : Connections) (except_conn : N) : panics (option (list N)) :=
  if decide (size (cs_index c) = 1) then
    if decide (is_Some (cs_index c !! except_conn)) then Done None
    else (fun k => Some [k]) <$> first_key (cs_index c)
  else
    let out := filter (fun k => k <> except_conn) (hash_iter (cs_index c)).*1 in
    Done (if decide (out = []) then None else Some out).
End model.

(** ** The state of an agent type *)
Record AgentTypeState : Type := mkAgentTypeState {
  ts_ids : gmap N (list N * list N);
  ts_connections : Connections * Connections;
}.

Definition AgentTypeState_default : AgentTypeState :=
  mkAgentTypeState ∅ (Connections_default, Connections_default).

Definition AgentTypeState_new (agent_id conn : N) (is_local : bool) : panics AgentTypeState :=
  let type_state := AgentTypeState_default in
  let v := [conn] in
  c ← Connections_insert (side is_local (ts_connections type_state)) conn;
  Done (mkAgentTypeState
          (<[agent_id := if is_local then (v, []) else ([], v)]> (ts_ids type_state))
          (set_side is_local c (ts_connections type_state))).

Definition AgentTypeState_insert (s : AgentTypeState) (agent_id conn : N) (is_local : bool)
    : panics AgentTypeState :=
  c ← Connections_insert (side is_local (ts_connections s)) conn;
  let conns := set_side is_local c (ts_connections s) in
  match ts_ids s !! agent_id with
  | None =>
      Done (mkAgentTypeState (<[agent_id := set_side is_local [conn] ([], [])]> (ts_ids s)) conns)
  | Some v =>
      Done (mkAgentTypeState
              (<[agent_id := set_side is_local (side is_local v ++ [conn]) v]> (ts_ids s)) conns)
  end.

Definition AgentTypeState_remove (s : AgentTypeState) (agent_id conn : N) (is_local : bool)
    : AgentTypeState * Result unit SubscriptionTableError :=
  match ts_ids s !! agent_id with
  | None => (s, Err AgentIdNotFound)
  | Some connection_ids =>
      match Connections_remove (side is_local (ts_connections s)) conn with
      | (_, Err e) => (s, Err e)
      | (c, Ok _) =>
          let conns := set_side is_local c (ts_connections s) in
          match position (fun c => bool_decide (c = conn)) (side is_local connection_ids) with
          | Some i =>
              let v := set_side is_local (swap_remove i (side is_local connection_ids))
                         connection_ids in
              if decide (v.1 = [] /\ v.2 = [])
              then (mkAgentTypeState (delete agent_id (ts_ids s)) conns, Ok tt)
              else (mkAgentTypeState (<[agent_id := v]> (ts_ids s)) conns, Ok tt)
          | None => (mkAgentTypeState (ts_ids s) conns, Ok tt)
          end
      end
  end.

(** The [while !stop] loop of [get_one_connection]: it tests position [pos] at
    every turn while [i] goes round. *)
Fixpoint get_one_connection_loop (fuel : nat) (v : list N) (incoming_conn : N) (pos i : nat)
    : panics (option N) :=
  match fuel with
  | 0 => Panic "loop did not stop"
  | S fuel =>
      c ← expect (v !! pos) "index out of bounds";
      if decide (c <> incoming_conn) then Done (Some c) else
      let i := (i + 1) mod length v in
      if decide (i = pos) then Done None
      else get_one_connection_loop fuel v incoming_conn pos i
  end.

Section model_state.
Context `{HashIter}.

(** [vec.len()] is the length of the two-element array. *)
Definition get_one_connection (s : AgentTypeState) (agent_id : option N) (incoming_conn : N)
    (get_local_connection : bool) (r : nat) : panics (option N) :=
  let conns := side get_local_connection (ts_connections s) in
  match agent_id with
  | None => Connections_get_one conns incoming_conn r
  | Some id =>
      match ts_ids s !! id with
      | None =>
          if decide (size (cs_index conns) = 1) then Connections_get_one conns incoming_conn r
          else Done None
      | Some vec =>
          match side get_local_connection vec with
          | [] => Done None
          | [c] => if decide (c = incoming_conn) then Done None else Done (Some c)
          | v =>
              pos ← random_range 2 r;
              get_one_connection_loop (length v) v incoming_conn pos pos
          end
      end
  end.

Definition get_all_connections (s : AgentTypeState) (agent_id : option N) (incoming_conn : N)
    (get_local_connection : bool) : panics (option (list N)) :=
  let conns := side get_local_connection (ts_connections s) in
  match agent_id with
  | None => Connections_get_all conns incoming_conn
  | Some id =>
      match ts_ids s !! id with
      | None => Done None
      | Some vec =>
          match side get_local_connection vec with
          | [] => Done None
          | [c] => if decide (c = incoming_conn) then Done None else Done (Some [c])
          | v =>
              let out := filter (fun c => c <> incoming_conn) v in
              Done (if decide (out = []) then None else Some out)
          end
      end
  end.
End model_state.

(** ** The table *)
Abbreviation TypeKey := (N * N * N)%type.
Abbreviation AgentKey := ((N * N * N) * N)%type.
Abbreviation TypeTable := (gmap TypeKey (AgentType * AgentTypeState)).
Abbreviation ConnTable := (gmap N (gmap AgentKey Agent)).

Record SubscriptionTable : Type := mkSubscriptionTable {
  st_table : TypeTable;
  st_connections : ConnTable;
}.

Definition SubscriptionTable_default : SubscriptionTable := mkSubscriptionTable ∅ ∅.

Definition add_subscription_to_sub_table (agent : Agent) (conn : N) (is_local : bool)
    (table : TypeTable) : panics TypeTable :=
  match hm_get type_key (ag_agent_type agent) table with
  | None =>
      state ← AgentTypeState_new (ag_agent_id agent) conn is_local;
      Done (hm_insert type_key (ag_agent_type agent) state table)
  | Some state =>
      state ← AgentTypeState_insert state (ag_agent_id agent) conn is_local;
      Done (hm_insert type_key (ag_agent_type agent) state table)
  end.

Definition add_subscription_to_connection (agent : Agent) (conn_index : N) (map : ConnTable)
    : ConnTable :=
  match map !! conn_index with
  | None => <[conn_index := (hs_insert agent_key agent ∅).1]> map
  | Some s => <[conn_index := (hs_insert agent_key agent s).1]> map
  end.

Definition remove_subscription_from_sub_table (agent : Agent) (conn_index : N) (is_local : bool)
    (table : TypeTable) : TypeTable * Result unit SubscriptionTableError :=
  match hm_get type_key (ag_agent_type agent) table with
  | None => (table, Err SubscriptionNotFound)
  | Some state =>
      match AgentTypeState_remove state (ag_agent_id agent) conn_index is_local with
      | (state, Err e) => (hm_insert type_key (ag_agent_type agent) state table, Err e)
      | (state, Ok _) =>
          if decide (ts_ids state = ∅)
          then (hm_remove type_key (ag_agent_type agent) table, Ok tt)
          else (hm_insert type_key (ag_agent_type agent) state table, Ok tt)
      end
  end.

Definition remove_subscription_from_connection (agent : Agent) (conn_index : N) (map : ConnTable)
    : ConnTable * Result unit SubscriptionTableError :=
  match map !! conn_index with
  | None => (map, Err ConnectionIdNotFound)
  | Some s =>
      match hs_remove agent_key agent s with
      | (_, false) => (map, Err SubscriptionNotFound)
      | (s, true) =>
          if decide (s = ∅) then (delete conn_index map, Ok tt)
          else (<[conn_index := s]> map, Ok tt)
      end
  end.

Definition add_subscription (t : SubscriptionTable) (agent_type : AgentType) (agent_uid : option N)
    (conn : N) (is_local : bool) : panics (SubscriptionTable * Result unit SubscriptionTableError) :=
  let agent := Agent_new agent_type (default DEFAULT_AGENT_ID agent_uid) in
  let exists_already :=
    match st_connections t !! conn with
    | None => false
    | Some set => hs_contains agent_key agent set
    end in
  if exists_already then Done (t, Ok tt) else
  table ← add_subscription_to_sub_table agent conn is_local (st_table t);
  Done (mkSubscriptionTable table (add_subscription_to_connection agent conn (st_connections t)),
        Ok tt).

Definition remove_subscription (t : SubscriptionTable) (agent_type : AgentType) (agent_id : option N)
    (conn : N) (is_local : bool) : SubscriptionTable * Result unit SubscriptionTableError :=
  let agent := Agent_new agent_type (default DEFAULT_AGENT_ID agent_id) in
  match remove_subscription_from_sub_table agent conn is_local (st_table t) with
  | (table, Err e) => (mkSubscriptionTable table (st_connections t), Err e)
  | (table, Ok _) =>
      let (conns, res) := remove_subscription_from_connection agent conn (st_connections t) in
      (mkSubscriptionTable table conns, res)
  end.

(** The loop of [remove_connection] over the agents of a connection. *)
Fixpoint remove_agents (agents : list Agent) (conn : N) (is_local : bool) (table : TypeTable)
    : TypeTable * Result unit SubscriptionTableError :=
  match agents with
  | [] => (table, Ok tt)
  | agent :: agents =>
      match remove_subscription_from_sub_table agent conn is_local table with
      | (table, Err e) => (table, Err e)
      | (table, Ok _) => remove_agents agents conn is_local table
      end
  end.

Section model_table.
Context `{HashIter}.

Definition remove_connection (t : SubscriptionTable) (conn : N) (is_local : bool)
    : SubscriptionTable * Result unit SubscriptionTableError :=
  match st_connections t !! conn with
  | None => (t, Err ConnectionIdNotFound)
  | Some set =>
      match remove_agents (hash_iter set).*2 conn is_local (st_table t) with
      | (table, Err e) => (mkSubscriptionTable table (st_connections t), Err e)
      | (table, Ok _) => (mkSubscriptionTable table (delete conn (st_connections t)), Ok tt)
      end
  end.

Definition match_one (t : SubscriptionTable) (agent_type : AgentType) (agent_id : option N)
    (incoming_conn : N) (r1 r2 : nat) : panics (Result N SubscriptionTableError) :=
  match hm_get type_key agent_type (st_table t) with
  | None => Done (no_match agent_type agent_id)
  | Some state =>
      local_out ← get_one_connection state agent_id incoming_conn true r1;
      match local_out with
      | Some out => Done (Ok out)
      | None =>
          remote_out ← get_one_connection state agent_id incoming_conn false r2;
          match remote_out with
          | Some out => Done (Ok out)
          | None => Done (no_match agent_type agent_id)
          end
      end
  end.

Definition match_all (t : SubscriptionTable) (agent_type : AgentType) (agent_id : option N)
    (incoming_conn : N) : panics (Result (list N) SubscriptionTableError) :=
  match hm_get type_key agent_type (st_table t) with
  | None => Done (no_match agent_type agent_id)
  | Some state =>
      local_out ← get_all_connections state agent_id incoming_conn true;
      match local_out with
      | Some out => Done (Ok out)
      | None =>
          remote_out ← get_all_connections state agent_id incoming_conn false;
          match remote_out with
          | Some out => Done (Ok out)
          | None => Done (no_match agent_type agent_id)
          end
      end
  end.

(** [SubscriptionTable::for_each]: the calls [f] receives, in order. *)
Definition SubscriptionTable_for_each (t : SubscriptionTable)
    : list (AgentType * N * list N * list N) :=
  '(_, (k, v)) ← hash_iter (st_table t);
  '(id, conn) ← hash_iter (ts_ids v);
  [(k, id, conn.1, conn.2)].
End model_table.
