(* ===== verification/SubscriptionTableProofs.v ===== *)
(** * The subscription table: invariant and correctness

    The invariant ties the reference counts of a type's connections to the
    per-agent lists, and the per-agent lists to the per-connection sets. Every
    operation preserves it under the stated conditions; matching returns exactly
    the subscribed connections other than the incoming one. *)
From stdpp Require Import base list gmap strings numbers option.
From S2P Require Import Prelude Proto Encoder Pool SubscriptionTable.

(** ** Reference-counted connections *)

(** [c] holds connection [k] with reference count [cnt k] (absent when 0). *)
Record Connections_rep (c : Connections) (cnt : N -> nat) : Prop := {
  rep_pool_wf : Pool_wf (cs_pool c);
  rep_capacity : 0 < capacity (cs_pool c);
  rep_index : forall conn pos, cs_index c !! conn = Some pos ->
    Pool_get (cs_pool c) pos = Some (mkConnId conn (cnt conn)) /\ 0 < cnt conn;
  rep_absent : forall conn, cs_index c !! conn = None -> cnt conn = 0;
  rep_pool : forall pos ci, Pool_get (cs_pool c) pos = Some ci ->
    cs_index c !! ci_conn_id ci = Some pos;
}.

#[export] Instance Connections_rep_proper :
  Proper ((=) ==> pointwise_relation N (=) ==> iff) Connections_rep.
Proof.
  assert (H : forall c (f g : N -> nat),
    (forall k, f k = g k) -> Connections_rep c f -> Connections_rep c g).
  { intros c f g Hfg [? ? Hi Ha Hp]. split; [done..| | |done].
    - intros conn pos Hpos. rewrite <- Hfg. by apply Hi.
    - intros conn Hn. rewrite <- Hfg. by apply Ha. }
  intros c ? <- f g Hfg. split; apply H; intros k; [apply Hfg|symmetry; apply Hfg].
Qed.

Lemma rep_mem c cnt conn :
  Connections_rep c cnt -> is_Some (cs_index c !! conn) <-> 0 < cnt conn.
Proof.
  intros Hrep. destruct (cs_index c !! conn) as [pos|] eqn:E.
  - split; [|by eexists]. intros _. by apply (rep_index c cnt Hrep conn pos).
  - apply (rep_absent c cnt Hrep) in E. split; [by intros [? ?]|lia].
Qed.

(** The count of one connection changed by [f]. *)
Definition at_conn (conn : N) (f : nat -> nat) (cnt : N -> nat) : N -> nat :=
  fun k => if decide (k = conn) then f (cnt k) else cnt k.

(** Changing the count of a connection that is there. *)
Lemma Connections_rep_update c cnt conn pos f :
  Connections_rep c cnt -> cs_index c !! conn = Some pos -> 0 < f (cnt conn) ->
  Connections_rep
    (mkConnections (cs_index c)
       (Pool_update (cs_pool c) pos (fun ci => mkConnId (ci_conn_id ci) (f (ci_counter ci)))))
    (at_conn conn f cnt).
Proof.
  intros [Hwf Hcap Hi Ha Hp] Hpos Hf. destruct (Hi conn pos Hpos) as [Hget Hc].
  unfold at_conn. split; simpl.
  - by apply Pool_update_wf.
  - by rewrite capacity_update.
  - intros k q Hq. rewrite Pool_get_update. destruct (Hi k q Hq) as [Hk Hck].
    destruct (decide (k = conn)) as [->|Hne].
    + assert (q = pos) as -> by congruence. rewrite decide_True, Hget by done. done.
    + rewrite decide_False; [done|]. intros ->. rewrite Hget in Hk. congruence.
  - intros k Hk. case_decide; [congruence|]. by apply Ha.
  - intros q ci. rewrite Pool_get_update. case_decide as Hq; [|apply Hp].
    rewrite Hget; simpl. intros [= <-]. simpl. congruence.
Qed.

Lemma Connections_insert_spec c cnt conn :
  Connections_rep c cnt ->
  exists c', Connections_insert c conn = Done c' /\ Connections_rep c' (at_conn conn S cnt).
Proof.
  intros Hrep. unfold Connections_insert. destruct (cs_index c !! conn) as [pos|] eqn:E.
  - destruct (rep_index c cnt Hrep conn pos E) as [Hget Hpos]. rewrite Hget.
    eexists; split; [done|].
    assert (Hf : pointwise_relation N eq (at_conn conn S cnt) (at_conn conn (fun n => n + 1) cnt)).
    { intros k. unfold at_conn. case_decide; [lia|done]. }
    rewrite Hf. apply (Connections_rep_update c cnt conn pos (fun n => n + 1)); [done..|lia].
  - pose proof (rep_absent c cnt Hrep conn E) as Hzero.
    destruct Hrep as [Hwf Hcap Hi Ha Hp].
    destruct (Pool_insert_total (cs_pool c) (ConnId_new conn) Hwf Hcap)
      as (p'&pos&Hins&Hwf'&Hfree&_&Hget&_&Hcap'&_).
    rewrite Hins; simpl. eexists; split; [done|]. unfold at_conn. split; simpl; [done..| | |].
    + intros k q. rewrite Hget. destruct (decide (k = conn)) as [->|Hne].
      * rewrite lookup_insert_eq. intros [= ->]. rewrite !decide_True by done.
        unfold ConnId_new. rewrite Hzero. split; [done|lia].
      * rewrite lookup_insert_ne by done. intros Hq. destruct (Hi k q Hq) as [Hk ?].
        rewrite decide_False; [done|]. intros ->. congruence.
    + intros k. destruct (decide (k = conn)) as [->|Hne].
      * by rewrite lookup_insert_eq.
      * rewrite lookup_insert_ne by done. apply Ha.
    + intros q ci. rewrite Hget. case_decide as Hq.
      * intros [= <-]. subst. simpl. apply lookup_insert_eq.
      * intros Hci. rewrite lookup_insert_ne; [by apply Hp|].
        intros Hc. apply Hp in Hci. congruence.
Qed.

Lemma Connections_remove_spec c cnt conn :
  Connections_rep c cnt -> 0 < cnt conn ->
  exists c', Connections_remove c conn = (c', Ok tt) /\
    Connections_rep c' (at_conn conn pred cnt).
Proof.
  intros Hrep Hpos. unfold Connections_remove.
  destruct (proj2 (rep_mem c cnt conn Hrep) Hpos) as [pos E]. rewrite E.
  destruct (rep_index c cnt Hrep conn pos E) as [Hget _]. rewrite Hget; simpl.
  case_decide as Hone.
  - eexists; split; [done|]. destruct Hrep as [Hwf Hcap Hi Ha Hp].
    unfold at_conn. split; simpl.
    + by apply Pool_remove_wf.
    + unfold Pool_remove. by destruct (default _ _).
    + intros k q. destruct (decide (k = conn)) as [->|Hne]; [by rewrite lookup_delete_eq|].
      rewrite lookup_delete_ne by done. intros Hq. destruct (Hi k q Hq) as [Hk ?].
      rewrite Pool_remove_get by done. rewrite decide_False; [done|].
      intros ->. rewrite Hget in Hk. congruence.
    + intros k. destruct (decide (k = conn)) as [->|Hne]; [lia|].
      rewrite lookup_delete_ne by done. apply Ha.
    + intros q ci. rewrite Pool_remove_get by done. case_decide as Hq; [done|].
      intros Hci. pose proof (Hp q ci Hci) as Hidx. rewrite lookup_delete_ne; [done|].
      intros ->. congruence.
  - eexists; split; [done|].
    assert (Hf : pointwise_relation N eq (at_conn conn pred cnt) (at_conn conn (fun n => n - 1) cnt)).
    { intros k. unfold at_conn. case_decide; [lia|done]. }
    rewrite Hf. apply (Connections_rep_update c cnt conn pos (fun n => n - 1)); [done..|lia].
Qed.

Lemma Connections_remove_absent c cnt conn :
  Connections_rep c cnt -> cnt conn = 0 ->
  Connections_remove c conn = (c, Err ConnectionIdNotFound).
Proof.
  intros Hrep Hz. unfold Connections_remove.
  destruct (cs_index c !! conn) as [pos|] eqn:E; [|done].
  destruct (rep_index c cnt Hrep conn pos E). lia.
Qed.

Lemma Connections_default_rep : Connections_rep Connections_default (fun _ => 0).
Proof.
  split; simpl; [apply Pool_with_capacity_wf|lia|..].
  - intros conn pos. by rewrite lookup_empty.
  - done.
  - intros pos ci. by rewrite Pool_get_with_capacity.
Qed.
#[export] Hint Resolve Connections_default_rep : slim.

(** ** Selection among the connections of a type *)

(** A slot [get_one] passes over. *)
Definition passed_over (p : Pool ConnId) (e : N) (i : nat) : Prop :=
  forall ci, Pool_get p i = Some ci -> ci_conn_id ci = e.

Lemma passed_over_all p e n index d :
  index < n -> n <= d -> (forall d', d' < d -> passed_over p e ((index + d') mod n)) ->
  forall j, j < n -> passed_over p e j.
Proof.
  intros Hi Hd Hall j Hj. destruct (decide (index <= j)) as [Hle|Hgt].
  - specialize (Hall (j - index) ltac:(lia)). rewrite mod_wrap in Hall by lia.
    rewrite decide_True in Hall by lia. by replace (index + (j - index)) with j in Hall by lia.
  - specialize (Hall (n - index + j) ltac:(lia)). rewrite mod_wrap in Hall by lia.
    rewrite decide_False in Hall by lia. by replace (index + _ - n) with j in Hall by lia.
Qed.

(** With as much fuel as slots not yet visited the loop returns, and returns
    nothing only when every slot up to [max_set] is passed over. *)
Lemma get_one_loop_spec p e n index fuel :
  forall d, index < n -> d + fuel = n -> 0 < fuel ->
  (forall d', d' < d -> passed_over p e ((index + d') mod n)) ->
  exists o, get_one_loop fuel p e n index ((index + d) mod n) = Some o /\
    match o with
    | Some k => k <> e /\ exists pos ci, Pool_get p pos = Some ci /\ ci_conn_id ci = k
    | None => forall j, j < n -> passed_over p e j
    end.
Proof.
  induction fuel as [|fuel IH]; intros d Hi Hd Hpos Hall; [lia|]. simpl.
  assert (Hnext : passed_over p e ((index + d) mod n) ->
    exists o, (let i := ((index + d) mod n + 1) mod n in
      if decide (i = index) then Some None else get_one_loop fuel p e n index i) = Some o /\
    match o with
    | Some k => k <> e /\ exists pos ci, Pool_get p pos = Some ci /\ ci_conn_id ci = k
    | None => forall j, j < n -> passed_over p e j
    end).
  { intros Hhere. cbv zeta.
    assert (Hall' : forall d', d' < S d -> passed_over p e ((index + d') mod n)).
    { intros d' Hd'. destruct (decide (d' = d)) as [->|]; [done|]. apply Hall. lia. }
    rewrite Nat.Div0.add_mod_idemp_l. replace (index + d + 1) with (index + S d) by lia.
    rewrite (mod_wrap (index + S d) n) by lia.
    destruct (decide (fuel = 0)) as [->|Hf].
    - rewrite decide_True by (destruct (decide (index + S d < n)); lia).
      exists None. split; [done|].
      by apply (passed_over_all p e n index (S d)); [|lia|].
    - rewrite <- (mod_wrap (index + S d) n) by lia.
      rewrite decide_False; [apply IH; [lia..|done]|].
      rewrite mod_wrap by lia. destruct (decide (index + S d < n)); lia. }
  destruct (Pool_get p ((index + d) mod n)) as [ci|] eqn:Hget.
  - case_decide as Hne.
    2:{ apply Hnext. intros ci' Hci'. rewrite Hget in Hci'. injection Hci' as <-.
        destruct (decide (ci_conn_id ci = e)); tauto. }
    exists (Some (ci_conn_id ci)). split; [done|]. split; [done|]. by exists ((index + d) mod n), ci.
  - apply Hnext. intros ci'. by rewrite Hget.
Qed.

Section selection.
Context `{HashIter}.

Lemma hash_iter_elem {K A} `{Countable K} (m : gmap K A) k a :
  (k, a) ∈ hash_iter m <-> m !! k = Some a.
Proof. by rewrite hash_iter_perm, elem_of_map_to_list. Qed.
Lemma hash_iter_keys {K A} `{Countable K} (m : gmap K A) k :
  k ∈ (hash_iter m).*1 <-> is_Some (m !! k).
Proof.
  rewrite list_elem_of_fmap. split.
  - intros ([k' a]&->&Ha). apply hash_iter_elem in Ha. by exists a.
  - intros [a Ha]. exists (k, a). by rewrite hash_iter_elem.
Qed.
Lemma hash_iter_keys_nodup {K A} `{Countable K} (m : gmap K A) : NoDup (hash_iter m).*1.
Proof. rewrite hash_iter_perm. apply NoDup_fst_map_to_list. Qed.

(** A map with one entry: its first key is its only key. *)
Lemma first_key_one (m : gmap N nat) :
  size m = 1 -> exists k, first_key m = Done k /\ forall k', is_Some (m !! k') <-> k' = k.
Proof.
  intros Hsize. pose proof (hash_iter_keys m) as Hkeys. unfold first_key.
  assert (Hlen : length (hash_iter m) = 1).
  { by rewrite hash_iter_perm, length_map_to_list. }
  destruct (hash_iter m) as [|[k a] [|]] eqn:E; simpl in Hlen; [lia| |lia].
  exists k. split; [done|]. intros k'. rewrite <- Hkeys; simpl. apply list_elem_of_singleton.
Qed.

Lemma Connections_get_one_spec c cnt e r :
  Connections_rep c cnt ->
  exists o, Connections_get_one c e r = Done o /\
    match o with
    | Some k => 0 < cnt k /\ k <> e
    | None => max_set_ok (cs_pool c) \/ size (cs_index c) = 1 -> forall k, 0 < cnt k -> k = e
    end.
Proof.
  intros Hrep. unfold Connections_get_one. pose proof (rep_mem c cnt) as Hmem.
  destruct (decide (size (cs_index c) = 1)) as [Hone|Hmany].
  - destruct (first_key_one _ Hone) as (k&Hk&Hkeys). case_decide as He.
    + exists None. split; [done|]. intros _ k' Hk'. apply Hmem in Hk'; [|done].
      apply Hkeys in Hk' as ->, He as ->. done.
    + rewrite Hk; simpl. exists (Some k). split; [done|].
      rewrite <- Hmem, Hkeys by done. split; [done|]. intros ->. apply He, Hkeys. done.
  - rewrite random_range_done by lia; simpl.
    destruct (get_one_loop_spec (cs_pool c) e (max_set (cs_pool c) + 1)
      (r mod (max_set (cs_pool c) + 1)) (max_set (cs_pool c) + 1) 0) as (o&Hloop&Ho);
      [apply Nat.mod_upper_bound; lia|lia..|].
    rewrite Nat.add_0_r, Nat.Div0.mod_mod in Hloop. rewrite Hloop; simpl.
    exists o. split; [done|]. destruct o as [k|].
    + destruct Ho as (Hne&pos&ci&Hget&<-). split; [|done].
      apply Hmem; [done|]. exists pos. by apply (rep_pool c cnt Hrep).
    + intros [Hmax|?]; [|done]. intros k Hk. apply Hmem in Hk as [pos Hpos]; [|done].
      destruct (rep_index c cnt Hrep k pos Hpos) as [Hget _].
      pose proof (Hmax pos ltac:(by eexists)). by apply (Ho pos) in Hget; [|lia].
Qed.

Lemma Connections_get_all_spec c cnt e :
  Connections_rep c cnt ->
  exists o, Connections_get_all c e = Done o /\
    match o with
    | Some l => l <> [] /\ NoDup l /\ forall k, k ∈ l <-> 0 < cnt k /\ k <> e
    | None => forall k, 0 < cnt k -> k = e
    end.
Proof.
  intros Hrep. unfold Connections_get_all. pose proof (rep_mem c cnt) as Hmem.
  destruct (decide (size (cs_index c) = 1)) as [Hone|Hmany].
  - destruct (first_key_one _ Hone) as (k&Hk&Hkeys). case_decide as He.
    + exists None. split; [done|]. intros k' Hk'. apply Hmem in Hk'; [|done].
      apply Hkeys in Hk' as ->, He as ->. done.
    + rewrite Hk; simpl. exists (Some [k]). split; [done|]. split; [done|].
      split; [apply NoDup_singleton|]. intros k'. rewrite list_elem_of_singleton.
      rewrite <- Hmem, Hkeys by done. split; [|by intros [? _]].
      intros ->. split; [done|]. intros ->. apply He, Hkeys. done.
  - eexists; split; [done|].
    assert (Hin : forall k, k ∈ filter (fun k => k <> e) (hash_iter (cs_index c)).*1 <->
                            0 < cnt k /\ k <> e).
    { intros k. rewrite list_elem_of_filter, hash_iter_keys, Hmem by done. tauto. }
    case_decide as Hnil.
    + intros k Hk. rewrite Hnil in Hin. destruct (decide (k = e)) as [->|Hne]; [done|].
      exfalso. apply (elem_of_nil k), Hin. done.
    + split; [done|]. split; [|done]. apply list.NoDup_filter, hash_iter_keys_nodup.
Qed.
End selection.

(** ** The state of an agent type *)

Lemma side_set_side {A} b b' (x : A) p :
  side b' (set_side b x p) = if decide (b' = b) then x else side b' p.
Proof. by destruct b, b'. Qed.
#[export] Hint Rewrite @side_set_side : slim.

(** How often connection [k] is listed for agent [id] on one side, and over all
    the agents of the type. *)
Definition mult (s : AgentTypeState) (id : N) (b : bool) (k : N) : nat :=
  match ts_ids s !! id with
  | Some v => occ k (side b v)
  | None => 0
  end.
Definition total (s : AgentTypeState) (b : bool) (k : N) : nat :=
  map_sum (fun v => occ k (side b v)) (ts_ids s).

Record AgentTypeState_wf (s : AgentTypeState) : Prop := {
  tw_conns : forall b, Connections_rep (side b (ts_connections s)) (total s b);
  tw_ids : forall id v, ts_ids s !! id = Some v -> ~ (v.1 = [] /\ v.2 = []);
}.

Definition hit (id id' : N) (b b' : bool) (k k' : N) : nat :=
  if decide (id = id' /\ b = b' /\ k = k') then 1 else 0.

Lemma total_pos s b k : 0 < total s b k <-> exists id, 0 < mult s id b k.
Proof.
  unfold total, mult. rewrite map_sum_pos. split.
  - intros (id&v&Hv&Hocc). exists id. by rewrite Hv.
  - intros [id Hid]. destruct (ts_ids s !! id) as [v|] eqn:E; [eauto|lia].
Qed.

Lemma mult_le_total s id b k : mult s id b k <= total s b k.
Proof.
  unfold mult, total. destruct (ts_ids s !! id) as [v|] eqn:E; [|lia].
  rewrite (map_sum_delete _ _ id v E). lia.
Qed.

Lemma sides_empty (v : list N * list N) :
  (v.1 = [] /\ v.2 = []) <-> forall b, side b v = [].
Proof.
  split; [by intros [? ?] []|]. intros Hb. split; [apply (Hb true)|apply (Hb false)].
Qed.

(** Replacing the entry of one agent: [v'] in place of the lists [v] (empty
    lists when the agent was absent). *)
Lemma total_insert s conns id v' b k :
  total (mkAgentTypeState (<[id := v']> (ts_ids s)) conns) b k + mult s id b k =
  occ k (side b v') + total s b k.
Proof.
  unfold total, mult; simpl. destruct (ts_ids s !! id) as [v|] eqn:E.
  - exact (map_sum_insert (fun v => occ k (side b v)) (ts_ids s) id v v' E).
  - rewrite map_sum_insert_new by done. lia.
Qed.

Lemma total_remove s conns id b k :
  total (mkAgentTypeState (delete id (ts_ids s)) conns) b k + mult s id b k = total s b k.
Proof.
  unfold total, mult; simpl. destruct (ts_ids s !! id) as [v|] eqn:E.
  - rewrite (map_sum_delete _ (ts_ids s) id v E). lia.
  - rewrite delete_id by done. lia.
Qed.

Lemma AgentTypeState_default_wf : AgentTypeState_wf AgentTypeState_default.
Proof.
  split; simpl.
  - intros b. unfold total; simpl.
    assert (Hz : pointwise_relation N eq
      (fun k => map_sum (fun v => occ k (side b v)) (∅ : gmap N (list N * list N))) (fun _ => 0)).
    { intros k. apply map_sum_empty. }
    rewrite Hz. destruct b; apply Connections_default_rep.
  - intros id v. by rewrite lookup_empty.
Qed.

Lemma AgentTypeState_new_insert agent_id conn is_local :
  AgentTypeState_new agent_id conn is_local =
  AgentTypeState_insert AgentTypeState_default agent_id conn is_local.
Proof. by destruct is_local. Qed.

(** [insert] lists the connection once more for the agent. *)
Lemma AgentTypeState_insert_spec s id conn b :
  AgentTypeState_wf s ->
  exists s', AgentTypeState_insert s id conn b = Done s' /\ AgentTypeState_wf s' /\
    forall id' b' k, mult s' id' b' k = mult s id' b' k + hit id' id b' b k conn.
Proof.
  intros [Hc Hids]. unfold AgentTypeState_insert.
  destruct (Connections_insert_spec _ _ conn (Hc b)) as (c'&Hins&Hrep). rewrite Hins; simpl.
  set (v0 := default ([], []) (ts_ids s !! id)).
  set (v' := set_side b (side b v0 ++ [conn]) v0).
  exists (mkAgentTypeState (<[id := v']> (ts_ids s)) (set_side b c' (ts_connections s))).
  assert (Hocc : forall b' k, occ k (side b' v') = mult s id b' k + hit id id b' b k conn).
  { intros b' k. unfold v', mult, hit, v0. rewrite side_set_side.
    destruct (decide (b' = b)) as [->|Hne].
    - rewrite occ_app, occ_cons, occ_nil. rewrite Nat.add_0_r.
      rewrite (decide_ext (conn = k) (id = id /\ b = b /\ k = conn)) by intuition congruence.
      destruct (ts_ids s !! id); [done|]. by destruct b.
    - rewrite decide_False by tauto. rewrite Nat.add_0_r.
      destruct (ts_ids s !! id); [done|]. by destruct b'. }
  split; [|split; [split|]]; simpl.
  - unfold v', v0. destruct (ts_ids s !! id); [done|]. by destruct b.
  - intros b'. rewrite side_set_side. destruct (decide (b' = b)) as [->|Hne].
    + eapply Connections_rep_proper; [done| |exact Hrep]. intros k.
      pose proof (total_insert s (set_side b c' (ts_connections s)) id v' b k) as Ht.
      rewrite Hocc in Ht. unfold at_conn, hit in *.
      destruct (decide (k = conn)) as [->|]; [rewrite decide_True in Ht by done; lia|].
      rewrite decide_False in Ht by tauto. lia.
    + eapply Connections_rep_proper; [done| |exact (Hc b')]. intros k.
      pose proof (total_insert s (set_side b c' (ts_connections s)) id v' b' k) as Ht.
      rewrite Hocc in Ht. unfold hit in Ht. rewrite decide_False in Ht by tauto. lia.
  - intros id' v. destruct (decide (id' = id)) as [->|Hne].
    + rewrite lookup_insert_eq. intros [= <-]. rewrite sides_empty. intros Hb.
      specialize (Hb b). unfold v' in Hb. rewrite side_set_side, decide_True in Hb by done.
      by destruct (side b v0).
    + rewrite lookup_insert_ne by done. apply Hids.
  - intros id' b' k. destruct (decide (id' = id)) as [->|Hne].
    + rewrite <- Hocc. unfold mult at 1; simpl. by rewrite lookup_insert_eq.
    + unfold mult, hit; simpl. rewrite lookup_insert_ne by done.
      rewrite (decide_False (P:=id' = id /\ _)) by tauto. lia.
Qed.

(** [remove] of a listed connection takes it off once. *)
Lemma AgentTypeState_remove_spec s id conn b :
  AgentTypeState_wf s -> 0 < mult s id b conn ->
  exists s', AgentTypeState_remove s id conn b = (s', Ok tt) /\ AgentTypeState_wf s' /\
    forall id' b' k, mult s id' b' k = mult s' id' b' k + hit id' id b' b k conn.
Proof.
  intros [Hc Hids] Hpos. unfold AgentTypeState_remove.
  destruct (ts_ids s !! id) as [v|] eqn:Hv; [|unfold mult in Hpos; rewrite Hv in Hpos; lia].
  assert (Htot : 0 < total s b conn) by (pose proof (mult_le_total s id b conn); lia).
  destruct (Connections_remove_spec _ _ conn (Hc b) Htot) as (c'&Hrem&Hrep). rewrite Hrem; simpl.
  assert (Hin : conn ∈ side b v) by (apply occ_pos; unfold mult in Hpos; by rewrite Hv in Hpos).
  destruct (position _ (side b v)) as [i|] eqn:Hi.
  2:{ rewrite position_None in Hi. specialize (Hi conn Hin). by rewrite bool_decide_true in Hi. }
  apply position_Some in Hi as [(x&Hx&Hp) _]. apply bool_decide_eq_true in Hp as ->.
  set (v' := set_side b (swap_remove i (side b v)) v).
  assert (Hocc : forall b' k, occ k (side b' v) = occ k (side b' v') + hit id id b' b k conn).
  { intros b' k. unfold v', hit. rewrite side_set_side. destruct (decide (b' = b)) as [->|Hne].
    - rewrite (occ_perm k _ _ (swap_remove_perm _ _ _ Hx)), occ_cons.
      rewrite (decide_ext (conn = k) (id = id /\ b = b /\ k = conn)) by intuition congruence. lia.
    - rewrite decide_False by tauto. lia. }
  assert (Hm : forall b' k, mult s id b' k = occ k (side b' v)).
  { intros b' k. unfold mult. by rewrite Hv. }
  assert (Hgen : forall s', (forall id', id' <> id -> ts_ids s' !! id' = ts_ids s !! id') ->
    ts_connections s' = set_side b c' (ts_connections s) ->
    (forall b' k, mult s' id b' k = occ k (side b' v')) ->
    (forall b' k, total s' b' k + mult s id b' k = occ k (side b' v') + total s b' k) ->
    (forall w, ts_ids s' !! id = Some w -> ~ (w.1 = [] /\ w.2 = [])) ->
    AgentTypeState_wf s' /\
    forall id' b' k, mult s id' b' k = mult s' id' b' k + hit id' id b' b k conn).
  { intros s' Hother Hconns Hmult Htotal Hempty. split; [split|].
    - intros b'. rewrite Hconns, side_set_side. destruct (decide (b' = b)) as [->|Hne].
      + eapply Connections_rep_proper; [done| |exact Hrep]. intros k.
        specialize (Htotal b k). rewrite Hm, Hocc in Htotal. unfold at_conn, hit in *.
        destruct (decide (k = conn)) as [->|]; [rewrite decide_True in Htotal by done; lia|].
        rewrite decide_False in Htotal by tauto. lia.
      + eapply Connections_rep_proper; [done| |exact (Hc b')]. intros k.
        specialize (Htotal b' k). rewrite Hm, Hocc in Htotal. unfold hit in Htotal.
        rewrite decide_False in Htotal by tauto. lia.
    - intros id' w Hw. destruct (decide (id' = id)) as [->|Hne]; [by apply Hempty|].
      rewrite Hother in Hw by done. by apply (Hids id').
    - intros id' b' k. destruct (decide (id' = id)) as [->|Hne].
      + by rewrite Hm, Hmult.
      + unfold mult, hit. rewrite Hother by done. rewrite (decide_False (P:=id' = id /\ _)) by tauto. lia. }
  destruct (decide (v'.1 = [] /\ v'.2 = [])) as [Hemp|Hemp]; eexists; (split; [done|]);
    apply Hgen; simpl; try done.
  - intros id' Hne. by apply lookup_delete_ne.
  - intros b' k. unfold mult; simpl. rewrite lookup_delete_eq.
    by rewrite (proj1 (sides_empty v') Hemp b').
  - intros b' k. rewrite (proj1 (sides_empty v') Hemp b'), occ_nil. apply total_remove.
  - intros w. by rewrite lookup_delete_eq.
  - intros id' Hne. by apply lookup_insert_ne.
  - intros b' k. unfold mult; simpl. by rewrite lookup_insert_eq.
  - intros b' k. apply total_insert.
  - intros w. rewrite lookup_insert_eq. by intros [= <-].
Qed.

(** [remove] fails without a change when the type does not know the agent or
    the connection. *)
Lemma AgentTypeState_remove_err s id conn b :
  AgentTypeState_wf s -> total s b conn = 0 ->
  AgentTypeState_remove s id conn b =
    (s, Err (if decide (is_Some (ts_ids s !! id)) then ConnectionIdNotFound else AgentIdNotFound)).
Proof.
  intros [Hc _] Hz. unfold AgentTypeState_remove.
  destruct (ts_ids s !! id) as [v|] eqn:Hv.
  - rewrite (Connections_remove_absent _ _ conn (Hc b) Hz). by rewrite decide_True by eauto.
  - rewrite decide_False; [done|]. by intros [? ?].
Qed.

(** The connections of side [b] that match [agent_id] and are not [incoming]. *)
Definition state_target (s : AgentTypeState) (agent_id : option N) (incoming : N) (b : bool) (k : N)
    : Prop :=
  k <> incoming /\
  match agent_id with
  | None => exists id, 0 < mult s id b k
  | Some id => 0 < mult s id b k
  end.

Section state_selection.
Context `{HashIter}.

Lemma get_all_connections_spec s agent_id incoming b :
  AgentTypeState_wf s -> (forall id k, mult s id b k <= 1) ->
  exists o, get_all_connections s agent_id incoming b = Done o /\
    match o with
    | Some l => l <> [] /\ NoDup l /\ forall k, k ∈ l <-> state_target s agent_id incoming b k
    | None => forall k, ~ state_target s agent_id incoming b k
    end.
Proof.
  intros [Hc _] Honce. unfold get_all_connections, state_target. destruct agent_id as [id|].
  - assert (Hm : forall k, mult s id b k <= 1) by (intros; apply Honce). unfold mult in *.
    destruct (ts_ids s !! id) as [v|]; [|exists None; split; [done|]; intros k; lia].
    assert (Hnd : NoDup (side b v)).
    { clear Hc Honce. induction (side b v) as [|k l IH]; constructor.
      - specialize (Hm k). rewrite occ_cons, decide_True in Hm by done.
        rewrite <- occ_zero. lia.
      - apply IH. intros k'. specialize (Hm k'). rewrite occ_cons in Hm. lia. }
    destruct (side b v) as [|k [|k' l]] eqn:Hl.
    + exists None. split; [done|]. intros k [_ Hk]. rewrite occ_nil in Hk. lia.
    + case_decide as Hk; eexists; (split; [done|]).
      * intros k' [Hne Hk']. apply occ_pos, list_elem_of_singleton in Hk'. congruence.
      * split; [done|]. split; [done|]. intros k'.
        rewrite occ_pos, list_elem_of_singleton. intuition congruence.
    + eexists; split; [done|]. case_decide as Hf.
      * intros k0 [Hne Hk0]. rewrite occ_pos in Hk0.
        apply (elem_of_nil k0). rewrite <- Hf, list_elem_of_filter. done.
      * split; [done|]. split; [by apply list.NoDup_filter|]. intros k0.
        by rewrite occ_pos, list_elem_of_filter.
  - destruct (Connections_get_all_spec _ _ incoming (Hc b)) as (o&->&Ho).
    exists o. split; [done|]. destruct o as [l|].
    + destruct Ho as (Hl&Hnd&Ho). split; [done|]. split; [done|].
      intros k. rewrite Ho, total_pos. tauto.
    + intros k [Hne Hk]. by apply Hne, Ho, total_pos.
Qed.

(** The loop looks at one position only: the first draw decides. *)
Lemma get_one_connection_loop_spec v incoming pos c :
  v !! pos = Some c ->
  get_one_connection_loop (length v) v incoming pos pos =
  Done (if decide (c = incoming) then None else Some c).
Proof.
  intros Hc. assert (Hlt : pos < length v) by eauto using lookup_lt_Some.
  assert (Hgen : forall fuel d, d + fuel = length v -> 0 < fuel ->
    get_one_connection_loop fuel v incoming pos ((pos + d) mod length v) =
    Done (if decide (c = incoming) then None else Some c)).
  { induction fuel as [|fuel IH]; intros d Hd Hpos; [lia|]. simpl. rewrite Hc; simpl.
    destruct (decide (c = incoming)) as [->|Hne]; [|by rewrite decide_True].
    rewrite decide_False by tauto. rewrite Nat.Div0.add_mod_idemp_l.
    replace (pos + d + 1) with (pos + S d) by lia.
    destruct (decide (fuel = 0)) as [->|Hf].
    - rewrite decide_True; [done|]. rewrite mod_wrap by lia.
      destruct (decide (pos + S d < length v)); lia.
    - rewrite decide_False; [by apply IH; lia|].
      rewrite mod_wrap by lia. destruct (decide (pos + S d < length v)); lia. }
  specialize (Hgen (length v) 0 ltac:(lia) ltac:(lia)).
  rewrite Nat.add_0_r, Nat.mod_small in Hgen by done. exact Hgen.
Qed.

Lemma get_one_connection_spec s agent_id incoming b r :
  AgentTypeState_wf s ->
  exists o, get_one_connection s agent_id incoming b r = Done o /\
    match o with
    | Some k =>
        state_target s agent_id incoming b k \/
        exists id, agent_id = Some id /\ ts_ids s !! id = None /\ k <> incoming /\
          forall k', 0 < total s b k' <-> k' = k
    | None =>
        match agent_id with
        | None => max_set_ok (cs_pool (side b (ts_connections s))) ->
            forall k, ~ state_target s None incoming b k
        | Some id => forall v k, ts_ids s !! id = Some v -> k ∈ side b v -> k <> incoming ->
            2 <= length (side b v) /\ side b v !! (r mod 2) = Some incoming
        end
    end.
Proof.
  intros [Hc _]. pose proof (Connections_get_one_spec _ _ incoming r (Hc b)) as (o&Hone&Ho).
  unfold get_one_connection, state_target. destruct agent_id as [id|].
  - destruct (ts_ids s !! id) as [v|] eqn:Hv.
    + destruct (side b v) as [|k [|k' l]] eqn:Hl.
      * exists None. split; [done|]. intros ? k [= <-]. rewrite Hl. by intros ?%elem_of_nil.
      * case_decide as Hk; eexists; (split; [done|]).
        -- intros ? k' [= <-]. rewrite Hl, list_elem_of_singleton. congruence.
        -- left. split; [done|]. unfold mult. rewrite Hv, Hl. apply occ_pos. by left.
      * rewrite random_range_done by lia. unfold mbind, panics_bind.
        assert (Hr : r mod 2 < 2) by (apply Nat.mod_upper_bound; lia).
        destruct (lookup_lt_is_Some_2 (side b v) (r mod 2)) as [c Hat]; [rewrite Hl; simpl; lia|].
        rewrite <- Hl, (get_one_connection_loop_spec _ _ _ c Hat).
        eexists; split; [done|]. case_decide as Hinc; subst.
        -- intros ? k0 [= <-] _ _. split; [rewrite Hl; simpl; lia|done].
        -- left. split; [done|]. unfold mult. rewrite Hv. apply occ_pos.
           by eapply list_elem_of_lookup_2.
    + case_decide as Hsize; [|by exists None].
      rewrite Hone. exists o. split; [done|]. destruct o as [k|]; [|done].
      right. exists id. destruct Ho as [Hpos Hne]. do 3 (split; [done|]).
      destruct (first_key_one _ Hsize) as (k0&_&Hkeys).
      intros k'. rewrite <- (rep_mem _ _ k' (Hc b)), Hkeys.
      rewrite <- (rep_mem _ _ k (Hc b)), Hkeys in Hpos. by subst.
  - exists o. split; [done|]. destruct o as [k|].
    + left. rewrite <- total_pos. tauto.
    + intros Hmax k. rewrite <- total_pos. intros [Hne Hk]. apply Hne, Ho; auto.
Qed.
End state_selection.
