(* ===== verification/SubscriptionTableSpec.v ===== *)
(** * The subscription table refines a set of subscriptions

    The abstract state of [SubscriptionTableImpl] is the set of triples (agent,
    side, connection). Every operation, run on a table that represents a set,
    ends in a table that represents the set the abstract operation gives, with
    the abstract result; matching returns the connections of the set. The
    conditions under which this holds are those of [op_ok]: a connection is
    either local or remote, and an unsubscription names an agent the connection
    subscribed for (or a type it did not subscribe for at all). *)
From stdpp Require Import base list gmap strings numbers option sets.
From S2P Require Import Prelude Proto Encoder Pool SubscriptionTable SubscriptionTableProofs.

(** ** Subscriptions as a set *)
Abbreviation Subs := (gset (AgentKey * bool * N)).

Inductive sub_op : Type :=
| OpSubscribe (agent_type : AgentType) (agent_uid : option N) (conn : N) (is_local : bool)
| OpUnsubscribe (agent_type : AgentType) (agent_uid : option N) (conn : N) (is_local : bool)
| OpDisconnect (conn : N) (is_local : bool).

Definition op_key (agent_type : AgentType) (agent_uid : option N) : AgentKey :=
  (type_key agent_type, default DEFAULT_AGENT_ID agent_uid).

(** The answer to an unsubscription: it succeeds for a subscription of the set;
    otherwise the error says whether anyone is subscribed for the type, and for
    the agent. *)
Definition spec_unsubscribe (S : Subs) (ty : AgentType) (uid : option N) (k : N) (b : bool)
    : Result unit SubscriptionTableError :=
  if decide ((op_key ty uid, b, k) ∈ S) then Ok tt
  else if decide (set_Forall (fun e => e.1.1.1 <> type_key ty) S) then Err SubscriptionNotFound
  else if decide (set_Forall (fun e => e.1.1 <> op_key ty uid) S) then Err AgentIdNotFound
  else Err ConnectionIdNotFound.

(** The abstract operation: the new set and the result of the call. *)
Definition spec_op (S : Subs) (o : sub_op) : Subs * Result unit SubscriptionTableError :=
  match o with
  | OpSubscribe ty uid k b => (S ∪ {[(op_key ty uid, b, k)]}, Ok tt)
  | OpUnsubscribe ty uid k b => (S ∖ {[(op_key ty uid, b, k)]}, spec_unsubscribe S ty uid k b)
  | OpDisconnect k b =>
      (filter (fun e => e.2 <> k) S,
       if decide (set_Forall (fun e => e.2 <> k) S) then Err ConnectionIdNotFound else Ok tt)
  end.

(** All of connection [k]'s subscriptions are on side [b]. *)
Definition on_side (k : N) (b : bool) (S : Subs) : Prop :=
  set_Forall (fun e => e.2 = k -> e.1.2 = b) S.

Definition op_ok (S : Subs) (o : sub_op) : Prop :=
  match o with
  | OpSubscribe _ _ k b => on_side k b S
  | OpUnsubscribe ty uid k b =>
      (op_key ty uid, b, k) ∈ S \/
      set_Forall (fun e => ~ (e.1.1.1 = type_key ty /\ e.1.2 = b /\ e.2 = k)) S
  | OpDisconnect k b => on_side k b S
  end.
#[export] Instance op_ok_dec S o : Decision (op_ok S o).
Proof. destruct o; simpl; unfold on_side; apply _. Defined.

(** ** What a table represents *)

(** How often a connection is listed for an agent. *)
Definition tmult (table : TypeTable) (ak : AgentKey) (b : bool) (k : N) : nat :=
  match table !! ak.1 with
  | Some (_, s) => mult s ak.2 b k
  | None => 0
  end.
(** Whether a connection's set has the agent. *)
Definition in_conn (conns : ConnTable) (k : N) (ak : AgentKey) : Prop :=
  exists set, conns !! k = Some set /\ is_Some (set !! ak).
#[export] Instance in_conn_dec conns k ak : Decision (in_conn conns k ak).
Proof.
  unfold in_conn. destruct (conns !! k) as [set|]; [destruct (decide (is_Some (set !! ak)))|].
  - left. by exists set.
  - right. by intros (?&[= <-]&?).
  - right. by intros (?&?&_).
Defined.

Definition types_ok (table : TypeTable) : Prop :=
  forall tk a s, table !! tk = Some (a, s) ->
    type_key a = tk /\ AgentTypeState_wf s /\ ts_ids s <> ∅.
Definition conns_ok (conns : ConnTable) : Prop :=
  forall k set, conns !! k = Some set ->
    set <> ∅ /\ forall ak a, set !! ak = Some a -> agent_key a = ak.

Record represents (t : SubscriptionTable) (S : Subs) : Prop := {
  rs_types : types_ok (st_table t);
  rs_conns : conns_ok (st_connections t);
  rs_mult : forall ak b k,
    tmult (st_table t) ak b k = if decide ((ak, b, k) ∈ S) then 1 else 0;
  rs_in_conn : forall ak k, in_conn (st_connections t) k ak <-> exists b, (ak, b, k) ∈ S;
  rs_sides : forall ak b ak' b' k, (ak, b, k) ∈ S -> (ak', b', k) ∈ S -> b = b';
}.

Definition thit (ak ak' : AgentKey) (b b' : bool) (k k' : N) : nat :=
  if decide (ak = ak' /\ b = b' /\ k = k') then 1 else 0.

Lemma represents_empty : represents SubscriptionTable_default ∅.
Proof.
  split; simpl.
  - intros tk a s. by rewrite lookup_empty.
  - intros k set. by rewrite lookup_empty.
  - intros ak b k. unfold tmult; simpl. by rewrite lookup_empty, decide_False by set_solver.
  - intros ak k. unfold in_conn. simpl. setoid_rewrite lookup_empty.
    split; [by intros (?&?&_)|]. intros [b Hb]. set_solver.
  - set_solver.
Qed.

(** ** The maps of the model *)
Lemma hm_insert_lookup (agent_type : AgentType) (s : AgentTypeState) (table : TypeTable) tk :
  snd <$> (hm_insert type_key agent_type s table !! tk) =
  if decide (tk = type_key agent_type) then Some s else snd <$> table !! tk.
Proof.
  unfold hm_insert. destruct (table !! type_key agent_type) as [[a0 s0]|] eqn:E;
    (destruct (decide (tk = type_key agent_type)) as [->|Hne];
      [by rewrite lookup_insert_eq|by rewrite lookup_insert_ne]).
Qed.

Lemma tmult_snd table ak b k :
  tmult table ak b k =
  match snd <$> table !! ak.1 with Some s => mult s ak.2 b k | None => 0 end.
Proof. unfold tmult. by destruct (table !! ak.1) as [[? ?]|]. Qed.

Lemma tmult_insert agent_type s table ak b k :
  tmult (hm_insert type_key agent_type s table) ak b k =
  if decide (ak.1 = type_key agent_type) then mult s ak.2 b k else tmult table ak b k.
Proof. rewrite !tmult_snd, hm_insert_lookup. by case_decide. Qed.

Lemma tmult_remove agent_type table ak b k :
  tmult (hm_remove type_key agent_type table) ak b k =
  if decide (ak.1 = type_key agent_type) then 0 else tmult table ak b k.
Proof.
  unfold tmult, hm_remove. case_decide as Hk.
  - by rewrite Hk, lookup_delete_eq.
  - by rewrite lookup_delete_ne.
Qed.

Lemma types_ok_insert agent_type s table :
  types_ok table -> AgentTypeState_wf s -> ts_ids s <> ∅ ->
  types_ok (hm_insert type_key agent_type s table).
Proof.
  intros Hok Hwf Hne tk a s'. unfold hm_insert.
  destruct (table !! type_key agent_type) as [[a0 s0]|] eqn:E;
    (destruct (decide (tk = type_key agent_type)) as [->|Hk];
      [rewrite lookup_insert_eq; intros [= <- <-]|rewrite lookup_insert_ne by done; apply Hok]).
  - split; [|done]. by apply (Hok _ a0 s0).
  - done.
Qed.

Lemma types_ok_remove agent_type table :
  types_ok table -> types_ok (hm_remove type_key agent_type table).
Proof.
  intros Hok tk a s. unfold hm_remove. rewrite lookup_delete_Some. intros [_ Hs]. by apply Hok.
Qed.

Lemma hm_get_Some (agent_type : AgentType) (table : TypeTable) (s : AgentTypeState) :
  hm_get type_key agent_type table = Some s ->
  exists a, table !! type_key agent_type = Some (a, s).
Proof. unfold hm_get. rewrite fmap_Some. intros ([a s']&Hl&->). by exists a. Qed.
Lemma hm_get_None (agent_type : AgentType) (table : TypeTable) :
  hm_get type_key agent_type table = None -> table !! type_key agent_type = None.
Proof. unfold hm_get. by rewrite fmap_None. Qed.

(** ** The operations on each of the two maps *)
Lemma mult_ids_nonempty s id b k : 0 < mult s id b k -> ts_ids s <> ∅.
Proof. unfold mult. intros Hm He. rewrite He, lookup_empty in Hm. lia. Qed.

Lemma hit_thit (agent : Agent) id b b' k k' (ak : AgentKey) :
  ak.1 = type_key (ag_agent_type agent) -> ak.2 = id ->
  hit id (ag_agent_id agent) b b' k k' = thit ak (agent_key agent) b b' k k'.
Proof.
  intros Hk <-. destruct ak as [tk i]; simpl in *. subst. unfold hit, thit, agent_key.
  apply decide_ext. rewrite pair_equal_spec. tauto.
Qed.

Lemma thit_other (agent : Agent) b b' k k' (ak : AgentKey) :
  ak.1 <> type_key (ag_agent_type agent) -> thit ak (agent_key agent) b b' k k' = 0.
Proof.
  intros Hne. unfold thit. rewrite decide_False; [done|]. intros (->&_). by apply Hne.
Qed.

Lemma add_subscription_to_sub_table_spec table agent conn b :
  types_ok table ->
  exists table', add_subscription_to_sub_table agent conn b table = Done table' /\
    types_ok table' /\
    forall ak b' k, tmult table' ak b' k = tmult table ak b' k + thit ak (agent_key agent) b' b k conn.
Proof.
  intros Hok. unfold add_subscription_to_sub_table.
  set (s0 := default AgentTypeState_default (hm_get type_key (ag_agent_type agent) table)).
  assert (Hs0 : AgentTypeState_wf s0 /\ forall ak b' k,
    ak.1 = type_key (ag_agent_type agent) -> tmult table ak b' k = mult s0 ak.2 b' k).
  { unfold s0. destruct (hm_get type_key (ag_agent_type agent) table) as [s|] eqn:E; simpl.
    - apply hm_get_Some in E as [a Ha]. split; [by apply (Hok _ _ _ Ha)|].
      intros ak b' k Hk. unfold tmult. by rewrite Hk, Ha.
    - apply hm_get_None in E. split; [apply AgentTypeState_default_wf|].
      intros ak b' k Hk. unfold tmult, mult. by rewrite Hk, E. }
  destruct Hs0 as [Hwf Hs0].
  destruct (AgentTypeState_insert_spec s0 (ag_agent_id agent) conn b Hwf) as (s'&Hins&Hwf'&Hm).
  exists (hm_insert type_key (ag_agent_type agent) s' table). split; [|split].
  - unfold s0 in Hins. destruct (hm_get type_key (ag_agent_type agent) table); simpl in Hins.
    + by rewrite Hins.
    + by rewrite AgentTypeState_new_insert, Hins.
  - apply types_ok_insert; [done..|]. apply (mult_ids_nonempty s' (ag_agent_id agent) b conn).
    rewrite Hm. unfold hit. rewrite decide_True by done. lia.
  - intros ak b' k. rewrite tmult_insert. case_decide as Hk.
    + rewrite Hs0, Hm by done. by rewrite (hit_thit agent _ _ _ _ _ ak).
    + rewrite thit_other by done. lia.
Qed.

Lemma remove_subscription_from_sub_table_spec table agent conn b :
  types_ok table -> 0 < tmult table (agent_key agent) b conn ->
  exists table', remove_subscription_from_sub_table agent conn b table = (table', Ok tt) /\
    types_ok table' /\
    forall ak b' k, tmult table ak b' k = tmult table' ak b' k + thit ak (agent_key agent) b' b k conn.
Proof.
  intros Hok Hpos. unfold remove_subscription_from_sub_table, hm_get.
  unfold tmult in Hpos; simpl in Hpos.
  destruct (table !! type_key (ag_agent_type agent)) as [[a s]|] eqn:E; [|lia]; simpl.
  destruct (Hok _ _ _ E) as (_&Hwf&_).
  destruct (AgentTypeState_remove_spec s _ conn b Hwf Hpos) as (s'&->&Hwf'&Hm).
  assert (Hcount : forall ak b' k,
    ak.1 = type_key (ag_agent_type agent) ->
    tmult table ak b' k = mult s' ak.2 b' k + thit ak (agent_key agent) b' b k conn).
  { intros ak b' k Hk. unfold tmult. rewrite Hk, E, Hm. by rewrite (hit_thit agent _ _ _ _ _ ak). }
  case_decide as Hemp; eexists; (split; [done|]); split.
  - by apply types_ok_remove.
  - intros ak b' k. rewrite tmult_remove. case_decide as Hk.
    + rewrite Hcount by done. unfold mult. by rewrite Hemp, lookup_empty.
    + rewrite thit_other by done. lia.
  - by apply types_ok_insert.
  - intros ak b' k. rewrite tmult_insert. case_decide as Hk; [by apply Hcount|].
    rewrite thit_other by done. lia.
Qed.

(** A type without subscriptions of the connection is left as it is. *)
Lemma remove_subscription_from_sub_table_err table agent conn b :
  types_ok table -> (forall id, tmult table (type_key (ag_agent_type agent), id) b conn = 0) ->
  remove_subscription_from_sub_table agent conn b table =
    (table, Err match table !! type_key (ag_agent_type agent) with
                | None => SubscriptionNotFound
                | Some (_, s) =>
                    if decide (is_Some (ts_ids s !! ag_agent_id agent)) then ConnectionIdNotFound else AgentIdNotFound
                end).
Proof.
  intros Hok Hz. unfold remove_subscription_from_sub_table, hm_get.
  destruct (table !! type_key (ag_agent_type agent)) as [[a s]|] eqn:E; simpl; [|done].
  destruct (Hok _ _ _ E) as (_&Hwf&_).
  rewrite AgentTypeState_remove_err; [|done|].
  - unfold hm_insert. rewrite E. by rewrite insert_id by done.
  - destruct (total s b conn) eqn:Ht; [done|].
    destruct (proj1 (total_pos s b conn)) as [id Hid]; [lia|].
    specialize (Hz id). unfold tmult in Hz; simpl in Hz. rewrite E in Hz. lia.
Qed.

Lemma remove_agents_spec agents conn b : forall table,
  types_ok table -> NoDup (agent_key <$> agents) ->
  (forall a, a ∈ agents -> 0 < tmult table (agent_key a) b conn) ->
  exists table', remove_agents agents conn b table = (table', Ok tt) /\ types_ok table' /\
    forall ak b' k, tmult table ak b' k =
      tmult table' ak b' k + if decide (ak ∈ agent_key <$> agents /\ b' = b /\ k = conn) then 1 else 0.
Proof.
  induction agents as [|a agents IH]; intros table Hok Hnd Hpos; cbn [remove_agents].
  { exists table. split; [done|]. split; [done|]. intros ak b' k.
    rewrite decide_False by (rewrite elem_of_nil; tauto). lia. }
  rewrite fmap_cons in Hnd. apply NoDup_cons in Hnd as [Hnotin Hnd].
  destruct (remove_subscription_from_sub_table_spec table a conn b Hok) as (table1&->&Hok1&Hm1);
    [apply Hpos; by left|].
  destruct (IH table1 Hok1 Hnd) as (table'&->&Hok'&Hm').
  { intros a' Ha'. specialize (Hpos a' ltac:(by right)). rewrite Hm1 in Hpos. unfold thit in Hpos.
    rewrite decide_False in Hpos; [lia|]. intros (Heq&_). apply Hnotin. rewrite <- Heq.
    by apply list_elem_of_fmap_2. }
  exists table'. split; [done|]. split; [done|]. intros ak b' k.
  rewrite Hm1, Hm', fmap_cons. unfold thit.
  destruct (decide (ak = agent_key a)) as [->|Hne].
  - rewrite (decide_False (P := _ ∈ agent_key <$> agents /\ _)) by tauto.
    rewrite (decide_ext (agent_key a = agent_key a /\ b' = b /\ k = conn)
      (agent_key a ∈ agent_key a :: (agent_key <$> agents) /\ b' = b /\ k = conn)); [lia|].
    rewrite elem_of_cons. tauto.
  - rewrite (decide_False (P := ak = agent_key a /\ _)) by tauto.
    rewrite (decide_ext (ak ∈ agent_key a :: (agent_key <$> agents) /\ b' = b /\ k = conn)
      (ak ∈ agent_key <$> agents /\ b' = b /\ k = conn)); [lia|].
    rewrite elem_of_cons. tauto.
Qed.

Lemma add_subscription_to_connection_spec agent conn conns :
  conns_ok conns ->
  conns_ok (add_subscription_to_connection agent conn conns) /\
  forall k ak, in_conn (add_subscription_to_connection agent conn conns) k ak <->
    in_conn conns k ak \/ (k = conn /\ ak = agent_key agent).
Proof.
  intros Hok. set (set0 := default ∅ (conns !! conn)).
  assert (Hset0 : forall ak a, set0 !! ak = Some a -> agent_key a = ak).
  { intros ak a. unfold set0. destruct (conns !! conn) as [set|] eqn:E; simpl.
    - by apply (Hok conn set E).
    - by rewrite lookup_empty. }
  assert (Hadd : add_subscription_to_connection agent conn conns =
                 <[conn := (hs_insert agent_key agent set0).1]> conns).
  { unfold add_subscription_to_connection, set0. by destruct (conns !! conn). }
  assert (Hins : forall ak, is_Some ((hs_insert agent_key agent set0).1 !! ak) <->
                            is_Some (set0 !! ak) \/ ak = agent_key agent).
  { intros ak. unfold hs_insert. destruct (set0 !! agent_key agent) as [a0|] eqn:E; simpl.
    - split; [by left|]. intros [? | ->]; [done|]. by eexists.
    - rewrite lookup_insert_is_Some'. intuition congruence. }
  rewrite Hadd. split.
  - intros k set. destruct (decide (k = conn)) as [->|Hne].
    2:{ rewrite lookup_insert_ne by done. apply Hok. }
    rewrite lookup_insert_eq. intros [= <-]. split.
    + intros He. assert (Hc : is_Some ((hs_insert agent_key agent set0).1 !! agent_key agent))
        by (apply Hins; by right). rewrite He, lookup_empty in Hc. by destruct Hc.
    + intros ak a. unfold hs_insert. destruct (set0 !! agent_key agent) eqn:E; simpl; [apply Hset0|].
      intros [[<- <-]|[_ Ha]]%lookup_insert_Some; [done|]. by apply Hset0.
  - intros k ak. unfold in_conn. destruct (decide (k = conn)) as [->|Hne].
    + rewrite lookup_insert_eq. unfold set0 in *. split.
      * intros (set&[= <-]&[Hl| ->]%Hins); [|by right]. left.
        destruct (conns !! conn) as [set|]; simpl in Hl; [by exists set|].
        rewrite lookup_empty in Hl. by destruct Hl.
      * intros Hor. eexists; split; [done|]. apply Hins.
        destruct Hor as [(set&Hset&Hl)|[_ ->]]; [left|by right]. by rewrite Hset.
    + rewrite lookup_insert_ne by done. intuition congruence.
Qed.

Lemma remove_subscription_from_connection_spec agent conn conns :
  conns_ok conns -> in_conn conns conn (agent_key agent) ->
  exists conns', remove_subscription_from_connection agent conn conns = (conns', Ok tt) /\
    conns_ok conns' /\
    forall k ak, in_conn conns' k ak <-> in_conn conns k ak /\ ~ (k = conn /\ ak = agent_key agent).
Proof.
  intros Hok (set&Hset&[a Ha]). destruct (Hok conn set Hset) as [_ Hkeys].
  unfold remove_subscription_from_connection, hs_remove. rewrite Hset, Ha.
  assert (Hdel : forall ak, is_Some (delete (agent_key agent) set !! ak) <->
                            is_Some (set !! ak) /\ ak <> agent_key agent).
  { intros ak. rewrite lookup_delete_is_Some. intuition congruence. }
  case_decide as Hemp; eexists; (split; [done|]); split.
  - intros k set'. rewrite lookup_delete_Some. intros [_ Hk]. exact (Hok k set' Hk).
  - intros k ak. unfold in_conn. destruct (decide (k = conn)) as [->|Hne].
    + rewrite lookup_delete_eq. split; [by intros (?&?&_)|]. intros [(set'&Hs'&Hl) Hn].
      assert (set' = set) as -> by congruence.
      exfalso. assert (Hd : is_Some (delete (agent_key agent) set !! ak)).
      { apply Hdel. split; [done|]. intros ->. by apply Hn. }
      rewrite Hemp, lookup_empty in Hd. by destruct Hd.
    + rewrite lookup_delete_ne by done. intuition congruence.
  - intros k set'. destruct (decide (k = conn)) as [->|Hne].
    2:{ rewrite lookup_insert_ne by done. apply Hok. }
    rewrite lookup_insert_eq. intros [= <-]. split; [done|].
    intros ak a'. rewrite lookup_delete_Some. intros [_ Ha']. by apply Hkeys.
  - intros k ak. unfold in_conn. destruct (decide (k = conn)) as [->|Hne].
    + rewrite lookup_insert_eq, Hset. split.
      * intros (?&[= <-]&[? ?]%Hdel). split; [by eexists|]. tauto.
      * intros [(?&[= <-]&?) Hn]. eexists; split; [done|]. apply Hdel. tauto.
    + rewrite lookup_insert_ne by done. intuition congruence.
Qed.

(** ** The operations *)
Lemma one_hit (P Q : Prop) `{Decision P, Decision Q} (R : Prop) `{Decision R} n :
  n = (if decide P then 1 else 0) -> ~ (P /\ Q) -> (R <-> P \/ Q) ->
  n + (if decide Q then 1 else 0) = if decide R then 1 else 0.
Proof. intros -> Hex Hiff. repeat case_decide; tauto. Qed.

Lemma add_subscription_refines t S ty uid k b :
  represents t S -> on_side k b S ->
  exists t', add_subscription t ty uid k b = Done (t', Ok tt) /\
    represents t' (S ∪ {[(op_key ty uid, b, k)]}).
Proof.
  intros [Hty Hco Hm Hin Hsides] Hside. unfold add_subscription.
  set (agent := Agent_new ty (default DEFAULT_AGENT_ID uid)).
  change (op_key ty uid) with (agent_key agent).
  assert (Hon : forall ak b', (ak, b', k) ∈ S -> b' = b).
  { intros ak b' He. by apply (Hside _ He). }
  destruct (decide (in_conn (st_connections t) k (agent_key agent))) as [Hyes|Hno].
  - assert (Hold : (agent_key agent, b, k) ∈ S).
    { destruct (proj1 (Hin _ _) Hyes) as [b' Hb']. by rewrite <- (Hon _ _ Hb'). }
    destruct Hyes as (set&Hset&Hl). rewrite Hset. unfold hs_contains.
    rewrite bool_decide_true by done. exists t. split; [done|].
    rewrite (comm_L (∪) S), subseteq_union_1_L by (by apply singleton_subseteq_l). by split.
  - assert (Hnew : (agent_key agent, b, k) ∉ S) by (intros Hs; apply Hno, Hin; by exists b).
    replace (match st_connections t !! k with Some _ => _ | None => _ end) with false.
    2:{ destruct (st_connections t !! k) as [set|] eqn:E; [|done]. unfold hs_contains.
        rewrite bool_decide_false; [done|]. intros Hl. apply Hno. by exists set. }
    destruct (add_subscription_to_sub_table_spec (st_table t) agent k b Hty) as (table'&->&Hty'&Hm').
    destruct (add_subscription_to_connection_spec agent k (st_connections t) Hco) as [Hco' Hin'].
    simpl. eexists; split; [done|]. split; simpl; [done..| | |].
    + intros ak b' k'. rewrite Hm'. apply (one_hit _ _ _ _ (Hm ak b' k')).
      * intros [Hs (->&->&->)]. done.
      * rewrite elem_of_union, elem_of_singleton, !pair_equal_spec. tauto.
    + intros ak k'. rewrite Hin', Hin. setoid_rewrite elem_of_union.
      setoid_rewrite elem_of_singleton. setoid_rewrite pair_equal_spec.
      setoid_rewrite pair_equal_spec. split.
      * intros [[b' Hb']|[-> ->]]; [exists b'; by left|exists b; by right].
      * intros [b' [Hb'|[[-> ->] ->]]]; [left; by exists b'|by right].
    + intros ak b1 ak' b2 k'. rewrite !elem_of_union, !elem_of_singleton, !pair_equal_spec.
      intros [H1|[[-> ->] Hk1]] [H2|[[-> ->] Hk2]]; subst;
        [by eapply Hsides|by apply (Hon ak)| |done]. symmetry. by apply (Hon ak').
Qed.

(** Taking a set of subscriptions off: the counts lose exactly those. *)
Lemma represents_minus t S table' conns' (gone : AgentKey * bool * N -> Prop)
    `{forall e, Decision (gone e)} :
  represents t S ->
  types_ok table' -> conns_ok conns' ->
  (forall e, gone e -> e ∈ S) ->
  (forall ak b k, tmult (st_table t) ak b k =
    tmult table' ak b k + if decide (gone (ak, b, k)) then 1 else 0) ->
  (forall ak k, in_conn conns' k ak <->
    in_conn (st_connections t) k ak /\ forall b, ~ gone (ak, b, k)) ->
  represents (mkSubscriptionTable table' conns') (filter (fun e => ~ gone e) S).
Proof.
  intros [Hty Hco Hm Hin Hsides] Hty' Hco' Hsub Hm' Hin'. split; simpl; [done..| | |].
  - intros ak b k. specialize (Hm' ak b k). rewrite Hm in Hm'.
    pose proof (Hsub (ak, b, k)) as Hg.
    rewrite (decide_ext ((ak, b, k) ∈ filter (fun e => ~ gone e) S)
      (~ gone (ak, b, k) /\ (ak, b, k) ∈ S)) by (by rewrite elem_of_filter).
    repeat case_decide; try lia; tauto.
  - intros ak k. rewrite Hin', Hin. setoid_rewrite elem_of_filter. split.
    + intros [[b Hb] Hn]. exists b. split; [apply Hn|done].
    + intros [b [Hn Hb]]. split; [by exists b|]. intros b' Hg.
      pose proof (Hsides _ _ _ _ _ (Hsub _ Hg) Hb) as ->. done.
  - intros ak b ak' b' k. rewrite !elem_of_filter. intros [_ H1] [_ H2]. by eapply Hsides.
Qed.

Lemma remove_subscription_refines t S ty uid k b :
  represents t S -> (op_key ty uid, b, k) ∈ S ->
  exists t', remove_subscription t ty uid k b = (t', Ok tt) /\
    represents t' (S ∖ {[(op_key ty uid, b, k)]}).
Proof.
  intros Hrep Hs. pose proof Hrep as [Hty Hco Hm Hin Hsides]. unfold remove_subscription.
  set (agent := Agent_new ty (default DEFAULT_AGENT_ID uid)).
  change (op_key ty uid) with (agent_key agent) in *.
  destruct (remove_subscription_from_sub_table_spec (st_table t) agent k b Hty)
    as (table'&->&Hty'&Hm'); [rewrite Hm, decide_True by done; lia|].
  destruct (remove_subscription_from_connection_spec agent k (st_connections t) Hco)
    as (conns'&->&Hco'&Hin'); [apply Hin; by exists b|].
  eexists; split; [done|].
  replace (S ∖ _) with (filter (fun e => ~ e = (agent_key agent, b, k)) S).
  2:{ apply set_eq. intros e. rewrite elem_of_filter, elem_of_difference, elem_of_singleton. tauto. }
  apply (represents_minus t S); [done..|by intros e ->| |].
  - intros ak b' k'. rewrite Hm'. unfold thit. f_equal. apply decide_ext.
    rewrite !pair_equal_spec. tauto.
  - intros ak k'. rewrite Hin'. apply and_iff_compat_l. split.
    + intros Hn b' [= -> -> ->]. by apply Hn.
    + intros Hn [-> ->]. by apply (Hn b).
Qed.

(** The table has an entry for an agent exactly when someone is subscribed for it. *)
Lemma agent_listed s id : AgentTypeState_wf s -> is_Some (ts_ids s !! id) <-> exists b k, 0 < mult s id b k.
Proof.
  intros Hwf. unfold mult. destruct (ts_ids s !! id) as [v|] eqn:Hv; (split; [|by eauto || (intros (?&?&?); lia)]).
  - intros _. destruct v as [[|k l] [|k' l']] eqn:Ev.
    + by destruct (tw_ids s Hwf id _ Hv).
    + exists false, k'. apply occ_pos. by left.
    + exists true, k. apply occ_pos. by left.
    + exists true, k. apply occ_pos. by left.
  - by intros [].
Qed.
Lemma represents_agent t S tk id a s : represents t S -> st_table t !! tk = Some (a, s) ->
  is_Some (ts_ids s !! id) <-> exists b k, ((tk, id), b, k) ∈ S.
Proof.
  intros Hrep Hs. destruct (rs_types t S Hrep _ _ _ Hs) as (_&Hwf&_). rewrite (agent_listed s id Hwf).
  assert (Hm : forall b k, mult s id b k = if decide (((tk, id), b, k) ∈ S) then 1 else 0).
  { intros b k. rewrite <- (rs_mult t S Hrep (tk, id) b k). unfold tmult. cbn. by rewrite Hs. }
  split; intros (b&k&Hbk); exists b, k; revert Hbk; rewrite Hm; case_decide; (done || lia).
Qed.
Lemma represents_type t S tk : represents t S ->
  st_table t !! tk = None <-> set_Forall (fun e => e.1.1.1 <> tk) S.
Proof.
  intros Hrep. split.
  - intros Hn [[[tk' id] b] k] He Hk. cbn in Hk. subst tk'.
    pose proof (rs_mult t S Hrep (tk, id) b k) as Hm. unfold tmult in Hm. cbn in Hm. by rewrite Hn, decide_True in Hm.
  - intros Hall. destruct (st_table t !! tk) as [[a s]|] eqn:Hs; [|done]. exfalso.
    destruct (rs_types t S Hrep _ _ _ Hs) as (_&_&Hne). apply map_choose in Hne as (id&v&Hv).
    destruct (proj1 (represents_agent t S tk id a s Hrep Hs)) as (b&k&Hin); [by eexists|]. by apply (Hall _ Hin).
Qed.

Lemma remove_subscription_unknown t S ty uid k b :
  represents t S -> (forall id, ((type_key ty, id), b, k) ∉ S) ->
  remove_subscription t ty uid k b = (t, spec_unsubscribe S ty uid k b).
Proof.
  intros Hrep Hn. unfold remove_subscription, spec_unsubscribe.
  set (agent := Agent_new ty (default DEFAULT_AGENT_ID uid)).
  rewrite (remove_subscription_from_sub_table_err (st_table t) agent k b (rs_types t S Hrep)).
  2:{ intros id. by rewrite (rs_mult t S Hrep), decide_False by apply Hn. }
  rewrite (decide_False (P := (op_key ty uid, b, k) ∈ S)) by apply Hn. cbn [ag_agent_type agent Agent_new].
  destruct (st_table t !! type_key ty) as [[a s]|] eqn:Hs.
  - rewrite (decide_False (P := set_Forall (fun e => e.1.1.1 <> type_key ty) S))
      by (by intros Hall%(represents_type t S _ Hrep); rewrite Hall in Hs).
    pose proof (represents_agent t S _ (ag_agent_id agent) _ _ Hrep Hs) as Hag.
    destruct t. cbn. f_equal. destruct (decide (is_Some _)) as [Hi|Hi].
    + apply Hag in Hi as (b'&k'&Hi). rewrite decide_False; [done|]. intros Hall. by apply (Hall _ Hi).
    + rewrite decide_True; [done|]. intros [[ak b'] k'] He Hk. cbn in Hk. subst ak. apply Hi, Hag. by exists b', k'.
  - apply (represents_type t S _ Hrep) in Hs. rewrite decide_True by done. by destruct t.
Qed.

Section refinement.
Context `{HashIter}.

Lemma remove_connection_refines t S k b :
  represents t S -> on_side k b S -> (exists e, e ∈ S /\ e.2 = k) ->
  exists t', remove_connection t k b = (t', Ok tt) /\
    represents t' (filter (fun e => e.2 <> k) S).
Proof.
  intros Hrep Hside ([[ak0 b0] k0]&He&Hk). simpl in Hk. subst k0.
  pose proof Hrep as [Hty Hco Hm Hin Hsides].
  assert (Hon : forall ak b', (ak, b', k) ∈ S -> b' = b).
  { intros ak b' Hs. by apply (Hside _ Hs). }
  destruct (proj2 (Hin ak0 k)) as (set&Hset&_); [by exists b0|].
  destruct (Hco k set Hset) as [_ Hkeys]. unfold remove_connection. rewrite Hset.
  assert (Hfmap : agent_key <$> (hash_iter set).*2 = (hash_iter set).*1).
  { rewrite <- list_fmap_compose. apply list_fmap_ext. intros i [ak a] Hi; simpl.
    apply list_elem_of_lookup_2, hash_iter_elem in Hi. by apply Hkeys. }
  assert (Hkeyset : forall ak, ak ∈ agent_key <$> (hash_iter set).*2 <-> (ak, b, k) ∈ S).
  { intros ak. rewrite Hfmap, hash_iter_keys. split.
    - intros Hl. destruct (proj1 (Hin ak k)) as [b' Hb']; [by exists set|].
      by rewrite <- (Hon _ _ Hb').
    - intros Hs. destruct (proj2 (Hin ak k)) as (set'&Hset'&?); [by exists b|]. congruence. }
  destruct (remove_agents_spec (hash_iter set).*2 k b (st_table t) Hty) as (table'&->&Hty'&Hm').
  { rewrite Hfmap. apply hash_iter_keys_nodup. }
  { intros a Ha. rewrite Hm, decide_True; [lia|]. apply Hkeyset. by apply list_elem_of_fmap_2. }
  eexists; split; [done|].
  replace (filter _ S) with (filter (fun e => ~ (e.2 = k /\ e ∈ S)) S).
  2:{ apply set_eq. intros e. rewrite !elem_of_filter. tauto. }
  apply (represents_minus t S); [done..| |by intros e [_ ?]| |].
  - intros k' set'. rewrite lookup_delete_Some. intros [_ Hk']. exact (Hco k' set' Hk').
  - intros ak b' k'. rewrite Hm'. f_equal. apply decide_ext; simpl. rewrite Hkeyset. split.
    + intros (?&->&->). done.
    + intros [-> Hs]. by rewrite <- (Hon _ _ Hs).
  - intros ak k'. simpl. destruct (decide (k' = k)) as [->|Hne].
    + unfold in_conn at 1. rewrite lookup_delete_eq. split; [by intros (?&?&_)|].
      intros [[b' Hb']%Hin Hn]. exfalso. by apply (Hn b').
    + unfold in_conn at 1. rewrite lookup_delete_ne by done. split; [|by intros [? _]].
      intros Hc. split; [done|]. intros b' [? _]. done.
Qed.

Definition run_op (t : SubscriptionTable) (o : sub_op)
    : panics (SubscriptionTable * Result unit SubscriptionTableError) :=
  match o with
  | OpSubscribe ty uid k b => add_subscription t ty uid k b
  | OpUnsubscribe ty uid k b => Done (remove_subscription t ty uid k b)
  | OpDisconnect k b => Done (remove_connection t k b)
  end.

Lemma run_op_refines t S o :
  represents t S -> op_ok S o ->
  exists t', run_op t o = Done (t', (spec_op S o).2) /\ represents t' (spec_op S o).1.
Proof.
  intros Hrep Hok. destruct o as [ty uid k b|ty uid k b|k b]; simpl in *.
  - destruct (add_subscription_refines t S ty uid k b Hrep Hok) as (t'&->&?). by exists t'.
  - destruct (decide ((op_key ty uid, b, k) ∈ S)) as [Hs|Hs].
    + destruct (remove_subscription_refines t S ty uid k b Hrep Hs) as (t'&->&?).
      exists t'. unfold spec_unsubscribe. by rewrite decide_True.
    + destruct Hok as [?|Hn]; [done|].
      rewrite (remove_subscription_unknown t S ty uid k b Hrep) by (intros id Hid; by apply (Hn _ Hid)).
      exists t. split; [done|]. by rewrite difference_disjoint_L by (by apply disjoint_singleton_r).
  - destruct (decide _) as [Hsome|Hsome].
    2:{ apply not_set_Forall_Exists in Hsome as (e&He&Hk); [|apply _].
        apply dec_stable in Hk.
        destruct (remove_connection_refines t S k b Hrep Hok) as (t'&->&?); [by exists e|].
        by exists t'. }
    unfold remove_connection.
    destruct (st_connections t !! k) as [set|] eqn:E.
    { exfalso. destruct Hrep as [_ Hco _ Hin _]. destruct (Hco k set E) as [Hne _].
      apply map_choose in Hne as (ak&a&Ha).
      destruct (proj1 (Hin ak k)) as [b' Hb']; [exists set; split; [done|by exists a]|].
      by apply (Hsome _ Hb'). }
    exists t. split; [done|].
    replace (filter _ S) with S; [done|]. apply set_eq. intros e. rewrite elem_of_filter.
    split; [|by intros [_ ?]]. intros He. split; [by apply Hsome|done].
Qed.

(** Runs of operations, with the result of each. *)
Fixpoint run_ops (t : SubscriptionTable) (ops : list sub_op)
    : panics (SubscriptionTable * list (Result unit SubscriptionTableError)) :=
  match ops with
  | [] => Done (t, [])
  | o :: ops =>
      '(t, res) ← run_op t o;
      '(t, l) ← run_ops t ops;
      Done (t, res :: l)
  end.

Fixpoint spec_ops (S : Subs) (ops : list sub_op) : Subs * list (Result unit SubscriptionTableError) :=
  match ops with
  | [] => (S, [])
  | o :: ops =>
      let (S', res) := spec_op S o in
      let (S'', l) := spec_ops S' ops in (S'', res :: l)
  end.

Fixpoint ops_ok (S : Subs) (ops : list sub_op) : Prop :=
  match ops with
  | [] => True
  | o :: ops => op_ok S o /\ ops_ok (spec_op S o).1 ops
  end.
#[export] Instance ops_ok_dec S ops : Decision (ops_ok S ops).
Proof. revert S. induction ops as [|o ops IH]; intros S; simpl; apply _. Defined.

Lemma run_ops_refines ops : forall t S,
  represents t S -> ops_ok S ops ->
  exists t', run_ops t ops = Done (t', (spec_ops S ops).2) /\ represents t' (spec_ops S ops).1.
Proof.
  induction ops as [|o ops IH]; intros t S Hrep Hok; simpl; [by exists t|].
  destruct Hok as [Ho Hops].
  destruct (run_op_refines t S o Hrep Ho) as (t1&->&Hrep1). simpl.
  destruct (spec_op S o) as [S1 res1]. simpl in *.
  destruct (IH t1 S1 Hrep1 Hops) as (t'&->&Hrep'). simpl.
  destruct (spec_ops S1 ops) as [S2 l]. by exists t'.
Qed.
End refinement.

(** C5: From an empty table, any sequence of subscriptions, unsubscriptions and
    disconnections that is [ops_ok] (a connection keeps one side; an
    unsubscription names an agent the connection is subscribed for, or a type it
    has no subscription for at all) runs without panicking, gives call by call
    the results of the abstract set operations, errors included, and ends in a
    table that represents the resulting set of subscriptions: reference counts,
    per-agent lists and per-connection sets all agree with it. Outside [ops_ok]
    it does not hold: [foreign_unsubscribe_corrupts]. *)
Theorem subscription_table_refines `{HashIter} ops :
  ops_ok ∅ ops ->
  exists t, run_ops SubscriptionTable_default ops = Done (t, (spec_ops ∅ ops).2) /\
    represents t (spec_ops ∅ ops).1.
Proof. intros Hok. by apply run_ops_refines; [apply represents_empty|]. Qed.

(** A run with two types, two agents, a local and two remote connections. *)
Definition demo_type : AgentType := mkAgentType 1 2 3 None.
Definition demo_ops : list sub_op :=
  [OpSubscribe demo_type (Some 10%N) 1 true; OpSubscribe demo_type (Some 10%N) 2 false;
   OpSubscribe demo_type (Some 11%N) 2 false; OpSubscribe demo_type None 3 false;
   OpSubscribe demo_type (Some 10%N) 1 true; OpUnsubscribe demo_type (Some 11%N) 2 false;
   OpUnsubscribe (mkAgentType 9 9 9 None) None 2 false; OpSubscribe demo_type (Some 12%N) 1 true;
   OpDisconnect 1 true; OpDisconnect 7 true].

Lemma subscription_table_refines_witness :
  (spec_ops ∅ demo_ops).2 =
    [Ok tt; Ok tt; Ok tt; Ok tt; Ok tt; Ok tt; Err SubscriptionNotFound; Ok tt; Ok tt; Err ConnectionIdNotFound] /\
  exists t, @run_ops hash_iter_sorted SubscriptionTable_default demo_ops =
      Done (t, (spec_ops ∅ demo_ops).2) /\ represents t (spec_ops ∅ demo_ops).1.
Proof.
  split; [by vm_compute|]. apply (@subscription_table_refines hash_iter_sorted demo_ops).
  apply (bool_decide_unpack _). by vm_compute.
Defined.

(** ** Matching *)

(** The connections of one side a message for [agent_type], [agent_id] that
    came in on [incoming] can go out on. *)
Definition target (S : Subs) (agent_type : AgentType) (agent_id : option N) (incoming : N)
    (b : bool) (k : N) : Prop :=
  k <> incoming /\
  match agent_id with
  | None => exists id, ((type_key agent_type, id), b, k) ∈ S
  | Some id => ((type_key agent_type, id), b, k) ∈ S
  end.

Section matching.
Context `{HashIter} (t : SubscriptionTable) (S : Subs) (Hrep : represents t S).

Lemma state_mult s agent_type id b k :
  hm_get type_key agent_type (st_table t) = Some s ->
  0 < mult s id b k <-> ((type_key agent_type, id), b, k) ∈ S.
Proof.
  intros [a Ha]%hm_get_Some. pose proof (rs_mult t S Hrep (type_key agent_type, id) b k) as Hm.
  unfold tmult in Hm; simpl in Hm. rewrite Ha in Hm. rewrite Hm. case_decide; split; (lia || done).
Qed.

Lemma state_target_iff s agent_type agent_id incoming b k :
  hm_get type_key agent_type (st_table t) = Some s ->
  state_target s agent_id incoming b k <-> target S agent_type agent_id incoming b k.
Proof.
  intros Hs. unfold state_target, target. apply and_iff_compat_l. destruct agent_id as [id|].
  - by apply state_mult.
  - split; intros [id Hid]; exists id; by eapply state_mult.
Qed.

Lemma no_type_no_target agent_type agent_id incoming b k :
  hm_get type_key agent_type (st_table t) = None ->
  ~ target S agent_type agent_id incoming b k.
Proof.
  intros Hn%hm_get_None [_ Ht].
  assert (Hnone : forall id, ((type_key agent_type, id), b, k) ∉ S).
  { intros id Hs. pose proof (rs_mult t S Hrep (type_key agent_type, id) b k) as Hm.
    unfold tmult in Hm; simpl in Hm. by rewrite Hn, decide_True in Hm. }
  destruct agent_id as [id|]; [by apply (Hnone id)|]. destruct Ht as [id Hid]. by apply (Hnone id).
Qed.

Lemma state_ok s agent_type :
  hm_get type_key agent_type (st_table t) = Some s ->
  AgentTypeState_wf s /\ forall id b k, mult s id b k <= 1.
Proof.
  intros [a Ha]%hm_get_Some. split; [by apply (rs_types t S Hrep _ _ _ Ha)|].
  intros id b k. pose proof (rs_mult t S Hrep (type_key agent_type, id) b k) as Hm.
  unfold tmult in Hm; simpl in Hm. rewrite Ha in Hm. rewrite Hm. case_decide; lia.
Qed.

Lemma match_all_exact agent_type agent_id incoming :
  exists res, match_all t agent_type agent_id incoming = Done res /\
    match res with
    | Ok l => l <> [] /\ NoDup l /\
        exists b, (b = false -> forall k, ~ target S agent_type agent_id incoming true k) /\
          forall k, k ∈ l <-> target S agent_type agent_id incoming b k
    | Err e => Err e = no_match (A:=unit) agent_type agent_id /\
        forall b k, ~ target S agent_type agent_id incoming b k
    end.
Proof.
  unfold match_all. destruct (hm_get type_key agent_type (st_table t)) as [s|] eqn:Hs.
  2:{ eexists; split; [done|]. split; [done|]. intros b k. by apply no_type_no_target. }
  destruct (state_ok s agent_type Hs) as [Hwf Honce].
  pose proof (fun b k => state_target_iff s agent_type agent_id incoming b k Hs) as Hiff.
  destruct (get_all_connections_spec s agent_id incoming true Hwf (fun id => Honce id true))
    as (o1&->&Ho1); simpl. destruct o1 as [l|].
  { eexists; split; [done|]. destruct Ho1 as (Hl&Hnd&Hin). split; [done|]. split; [done|].
    exists true. split; [done|]. intros k. by rewrite Hin, Hiff. }
  destruct (get_all_connections_spec s agent_id incoming false Hwf (fun id => Honce id false))
    as (o2&->&Ho2); simpl. destruct o2 as [l|]; (eexists; split; [done|]).
  - destruct Ho2 as (Hl&Hnd&Hin). split; [done|]. split; [done|]. exists false. split.
    + intros _ k. rewrite <- Hiff. apply Ho1.
    + intros k. by rewrite Hin, Hiff.
  - split; [done|]. intros [] k; rewrite <- Hiff; [apply Ho1|apply Ho2].
Qed.

(** The agent is not known; [k] is the only connection of its type and side. *)
Definition only_choice (agent_type : AgentType) (agent_id : option N) (b : bool) (k : N) : Prop :=
  exists id, agent_id = Some id /\
    (forall b' k', ((type_key agent_type, id), b', k') ∉ S) /\
    forall k', (exists id', ((type_key agent_type, id'), b, k') ∈ S) <-> k' = k.

(** The pools of the type's connections have a [max_set] that bounds them. *)
Definition pools_tight (agent_type : AgentType) : Prop :=
  forall s b, hm_get type_key agent_type (st_table t) = Some s ->
    max_set_ok (cs_pool (side b (ts_connections s))).

(** One side: what [get_one_connection] returns in terms of the set. *)
Lemma get_one_connection_target s agent_type agent_id incoming b r :
  hm_get type_key agent_type (st_table t) = Some s ->
  exists o, get_one_connection s agent_id incoming b r = Done o /\
    match o with
    | Some k => k <> incoming /\
        (target S agent_type agent_id incoming b k \/ only_choice agent_type agent_id b k)
    | None =>
        match agent_id with
        | None => pools_tight agent_type -> forall k, ~ target S agent_type None incoming b k
        | Some id => ((type_key agent_type, id), b, incoming) ∉ S ->
            forall k, ~ target S agent_type (Some id) incoming b k
        end
    end.
Proof.
  intros Hs. destruct (state_ok s agent_type Hs) as [Hwf _].
  destruct (get_one_connection_spec s agent_id incoming b r Hwf) as (o&->&Ho).
  exists o. split; [done|]. pose proof (fun id b k => state_mult s agent_type id b k Hs) as Hm.
  destruct o as [k|].
  - destruct Ho as [Ht|(id&->&Hid&Hne&Htot)].
    + split; [apply Ht|]. left. by eapply state_target_iff.
    + split; [done|]. right. exists id. split; [done|]. split.
      * intros b' k' Hs'. apply Hm in Hs'. unfold mult in Hs'. rewrite Hid in Hs'. lia.
      * intros k'. rewrite <- Htot, total_pos. by setoid_rewrite Hm.
  - destruct agent_id as [id|].
    + intros Hinc k [Hne Hk]. apply Hm in Hk. unfold mult in Hk.
      destruct (ts_ids s !! id) as [v|] eqn:Hv; [|lia]. apply occ_pos in Hk.
      destruct (Ho v k eq_refl Hk Hne) as [_ Hat]. apply Hinc, Hm. unfold mult. rewrite Hv.
      by eapply occ_pos, list_elem_of_lookup_2.
    + intros Htight k Ht. eapply (Ho (Htight s b Hs)). by eapply state_target_iff.
Qed.

Lemma match_one_exact agent_type agent_id incoming r1 r2 :
  exists res, match_one t agent_type agent_id incoming r1 r2 = Done res /\
    match res with
    | Ok k => k <> incoming /\ exists b,
        target S agent_type agent_id incoming b k \/ only_choice agent_type agent_id b k
    | Err e => Err e = no_match (A:=unit) agent_type agent_id /\
        match agent_id with
        | None => pools_tight agent_type -> forall b k, ~ target S agent_type None incoming b k
        | Some id => (forall b, ((type_key agent_type, id), b, incoming) ∉ S) ->
            forall b k, ~ target S agent_type (Some id) incoming b k
        end
    end.
Proof.
  unfold match_one. destruct (hm_get type_key agent_type (st_table t)) as [s|] eqn:Hs.
  2:{ eexists; split; [done|]. split; [done|].
      destruct agent_id; intros _ b k; by apply no_type_no_target. }
  destruct (get_one_connection_target s agent_type agent_id incoming true r1 Hs) as (o1&->&Ho1).
  simpl. destruct o1 as [k|].
  { eexists; split; [done|]. destruct Ho1 as [? ?]. split; [done|]. by exists true. }
  destruct (get_one_connection_target s agent_type agent_id incoming false r2 Hs) as (o2&->&Ho2).
  simpl. destruct o2 as [k|]; (eexists; split; [done|]).
  { destruct Ho2 as [? ?]. split; [done|]. by exists false. }
  split; [done|]. destruct agent_id as [id|].
  - intros Hn [] k; [apply Ho1|apply Ho2]; apply Hn.
  - intros Hn [] k; [by apply Ho1|by apply Ho2].
Qed.
End matching.

(** C13: After any sequence of operations that is [ops_ok] (a connection keeps
    one side and unsubscribes only from what it is subscribed for, or from a type
    it has no subscription for), [match_all] returns exactly the connections
    subscribed for the name other than the incoming one, each once: the local
    ones, or the remote ones when there is no local one. It fails, with the
    message naming the type and id, exactly when there is none. *)
Theorem match_all_after_ops `{HashIter} ops agent_type agent_id incoming :
  ops_ok ∅ ops ->
  let S := (spec_ops ∅ ops).1 in
  exists t l res, run_ops SubscriptionTable_default ops = Done (t, l) /\
    match_all t agent_type agent_id incoming = Done res /\
    match res with
    | Ok out => out <> [] /\ NoDup out /\
        exists b, (b = false -> forall k, ~ target S agent_type agent_id incoming true k) /\
          forall k, k ∈ out <-> target S agent_type agent_id incoming b k
    | Err e => Err e = no_match (A:=unit) agent_type agent_id /\
        forall b k, ~ target S agent_type agent_id incoming b k
    end.
Proof.
  intros Hok S. destruct (run_ops_refines ops _ _ represents_empty Hok) as (t&Hrun&Hrep).
  destruct (match_all_exact t S Hrep agent_type agent_id incoming) as (res&Hres&Hspec).
  by exists t, (spec_ops ∅ ops).2, res.
Qed.

Lemma match_all_after_ops_witness :
  exists t l res, @run_ops hash_iter_sorted SubscriptionTable_default demo_ops = Done (t, l) /\
    @match_all hash_iter_sorted t demo_type (Some 10%N) 3 = Done res /\
    match res with
    | Ok out => out <> [] /\ NoDup out /\
        exists b, (b = false -> forall k, ~ target (spec_ops ∅ demo_ops).1 demo_type (Some 10%N) 3 true k) /\
          forall k, k ∈ out <-> target (spec_ops ∅ demo_ops).1 demo_type (Some 10%N) 3 b k
    | Err e => Err e = no_match (A:=unit) demo_type (Some 10%N) /\
        forall b k, ~ target (spec_ops ∅ demo_ops).1 demo_type (Some 10%N) 3 b k
    end.
Proof.
  apply (@match_all_after_ops hash_iter_sorted demo_ops demo_type (Some 10%N) 3%N).
  apply (bool_decide_unpack _). by vm_compute.
Defined.

(** [match_one], whatever the random draws, never panics and never returns
    the incoming connection: it returns a connection subscribed for the name,
    or, for an agent nobody subscribed for, the only connection of its type on
    that side. When it fails although a subscribed connection exists, then the
    incoming connection is itself subscribed for the agent (for a name with an
    id), or a pool's [max_set] is too low (for a name without). *)
Theorem match_one_after_ops `{HashIter} ops agent_type agent_id incoming r1 r2 :
  ops_ok ∅ ops ->
  let S := (spec_ops ∅ ops).1 in
  exists t l res, run_ops SubscriptionTable_default ops = Done (t, l) /\
    match_one t agent_type agent_id incoming r1 r2 = Done res /\
    match res with
    | Ok k => k <> incoming /\ exists b,
        target S agent_type agent_id incoming b k \/ only_choice S agent_type agent_id b k
    | Err e => Err e = no_match (A:=unit) agent_type agent_id /\
        match agent_id with
        | None => pools_tight t agent_type -> forall b k, ~ target S agent_type None incoming b k
        | Some id => (forall b, ((type_key agent_type, id), b, incoming) ∉ S) ->
            forall b k, ~ target S agent_type (Some id) incoming b k
        end
    end.
Proof.
  intros Hok S. destruct (run_ops_refines ops _ _ represents_empty Hok) as (t&Hrun&Hrep).
  destruct (match_one_exact t S Hrep agent_type agent_id incoming r1 r2) as (res&Hres&Hspec).
  by exists t, (spec_ops ∅ ops).2, res.
Qed.

Lemma match_one_after_ops_witness :
  exists t l res, @run_ops hash_iter_sorted SubscriptionTable_default demo_ops = Done (t, l) /\
    @match_one hash_iter_sorted t demo_type None 3 0 1 = Done res /\
    match res with
    | Ok k => k <> 3%N /\ exists b,
        target (spec_ops ∅ demo_ops).1 demo_type None 3 b k \/
        only_choice (spec_ops ∅ demo_ops).1 demo_type None b k
    | Err e => Err e = no_match (A:=unit) demo_type None /\
        (pools_tight t demo_type -> forall b k, ~ target (spec_ops ∅ demo_ops).1 demo_type None 3 b k)
    end.
Proof.
  apply (@match_one_after_ops hash_iter_sorted demo_ops demo_type None 3%N 0 1).
  apply (bool_decide_unpack _). by vm_compute.
Defined.

(** ** Behaviours outside the conditions above *)

(** Evaluate the lookups of a concrete table. *)
Ltac eval_lookups :=
  repeat (match goal with
  | |- context [hm_get ?key ?a ?m] =>
      let s := eval vm_compute in (hm_get key a m) in change (hm_get key a m) with s
  | |- context [ts_ids ?m !! ?k] =>
      let s := eval vm_compute in (ts_ids m !! k) in change (ts_ids m !! k) with s
  | |- context [size (cs_index ?c)] =>
      let s := eval vm_compute in (size (cs_index c)) in change (size (cs_index c)) with s
  end; cbv beta iota zeta; cbn [side fst snd ts_connections]).

(** [get_one_connection] tests one position at every turn of its loop, and
    draws it from the first two. With three connections subscribed for an
    agent: a message coming in on the first is not forwarded when position 0 is
    drawn, although two other connections are subscribed, and the third
    connection is never chosen. *)
Theorem match_one_skips_connections `{HashIter} :
  let ops := [OpSubscribe demo_type (Some 10%N) 1 false; OpSubscribe demo_type (Some 10%N) 2 false;
              OpSubscribe demo_type (Some 10%N) 3 false] in
  exists t l, run_ops SubscriptionTable_default ops = Done (t, l) /\
    match_one t demo_type (Some 10%N) 1 0 0 = Done (no_match demo_type (Some 10%N)) /\
    match_one t demo_type (Some 10%N) 1 0 1 = Done (Ok 2%N) /\
    forall incoming r1 r2, match_one t demo_type (Some 10%N) incoming r1 r2 <> Done (Ok 3%N).
Proof.
  eexists _, _. split; [by vm_compute|]. split; [by vm_compute|]. split; [by vm_compute|].
  intros incoming r1 r2. unfold match_one, get_one_connection. eval_lookups.
  rewrite random_range_done by lia. unfold mbind, panics_bind. cbn [length].
  assert (Hr : r2 mod 2 = 0 \/ r2 mod 2 = 1) by (pose proof (Nat.mod_upper_bound r2 2); lia).
  pose proof (get_one_connection_loop_spec [1; 2; 3]%N incoming) as Hloop. cbn [length] in Hloop.
  destruct Hr as [-> | ->]; erewrite Hloop by done; by case_decide.
Qed.

(** When the connection in the pool's last used slot goes away, [max_set]
    drops too far and [match_one] misses a connection: with connections 1, 2
    and 3 subscribed for a type and 3 gone again, a message that came in on 1
    is never forwarded to 2, whatever is drawn, while [match_all] finds it. *)
Theorem match_one_misses_slot :
  let ops := [OpSubscribe demo_type None 1 false; OpSubscribe demo_type None 2 false;
              OpSubscribe demo_type None 3 false; OpUnsubscribe demo_type None 3 false] in
  exists t, @run_ops hash_iter_sorted SubscriptionTable_default ops =
      Done (t, [Ok tt; Ok tt; Ok tt; Ok tt]) /\
    @match_all hash_iter_sorted t demo_type None 1 = Done (Ok [2%N]) /\
    forall r1 r2, @match_one hash_iter_sorted t demo_type None 1 r1 r2 =
      Done (no_match demo_type None).
Proof.
  eexists. split; [by vm_compute|]. split; [by vm_compute|].
  intros r1 r2. unfold match_one, get_one_connection, Connections_get_one.
  eval_lookups. cbn [cs_pool max_set].
  rewrite !random_range_done by lia. rewrite !Nat.mod_1_r. by vm_compute.
Qed.

(** An unsubscription that names an agent the connection did not subscribe
    for is refused, but it has already taken a reference from the connection's
    count for the type: the subscription of connection 1 for agent 10 is lost
    to messages for the type, while the per-connection set still has it. *)
Theorem foreign_unsubscribe_corrupts :
  let ops := [OpSubscribe demo_type (Some 10%N) 1 false; OpSubscribe demo_type (Some 11%N) 2 false] in
  let o := OpUnsubscribe demo_type (Some 11%N) 1 false in
  exists t t', @run_ops hash_iter_sorted SubscriptionTable_default ops = Done (t, [Ok tt; Ok tt]) /\
    @run_op hash_iter_sorted t o = Done (t', Err SubscriptionNotFound) /\
    @match_all hash_iter_sorted t demo_type None 7 = Done (Ok [2%N; 1%N]) /\
    @match_all hash_iter_sorted t' demo_type None 7 = Done (Ok [2%N]) /\
    in_conn (st_connections t') 1 (type_key demo_type, 10%N).
Proof.
  eexists _, _. split; [by vm_compute|]. split; [by vm_compute|].
  split; [by vm_compute|]. split; [by vm_compute|].
  apply (bool_decide_unpack _). by vm_compute.
Qed.
