(* ===== verification/Forwarder.v ===== *)
(** * The forwarder

    [datapath/src/forwarder.rs]: the subscription table, the table of forwarded
    subscriptions and the connection table behind one interface. Connection
    numbers are [u64] in the tables and [usize] pool indices in the connection
    table. *)
From stdpp Require Import base list gmap strings numbers option sets.
From S2P Require Import Prelude Proto Encoder Pool ConnectionTable RemoteSubscriptions.
From S2P Require Import SubscriptionTable SubscriptionTableProofs SubscriptionTableSpec.

Record Forwarder (T : Type) : Type := mkForwarder {
  subscription_table : SubscriptionTable;
  remote_subscription_table : RemoteSubscriptions;
  connection_table : Pool T;
}.
Arguments mkForwarder {T} _ _ _.
Arguments subscription_table {T} _.
Arguments remote_subscription_table {T} _.
Arguments connection_table {T} _.

(** [Forwarder::new]. *)
Definition Forwarder_new {T} : Forwarder T :=
  mkForwarder SubscriptionTable_default ∅ (ConnectionTable_with_capacity 100).

Section model.
Context {T : Type}.
Implicit Types (f : Forwarder T) (conn : T).

Definition on_connection_established f conn (existing_index : option N)
    : panics (Forwarder T * option N) :=
  match existing_index with
  | None =>
      '(ct, x) ← ConnectionTable_insert (connection_table f) conn;
      Done (mkForwarder (subscription_table f) (remote_subscription_table f) ct, Some (N.of_nat x))
  | Some x =>
      '(ct, inserted) ← ConnectionTable_insert_at (connection_table f) conn (N.to_nat x);
      Done (mkForwarder (subscription_table f) (remote_subscription_table f) ct,
            if (inserted : bool) then existing_index else None)
  end.

Definition get_connection f (conn_index : N) : option T :=
  ConnectionTable_get (connection_table f) (N.to_nat conn_index).

Definition get_subscriptions_forwarded_on_connection f (conn_index : N) : InfoSet :=
  Remote_get_subscriptions_on_connection (remote_subscription_table f) conn_index.

Definition on_subscription_msg f (agent_type : AgentType) (agent_id : option N) (conn_index : N)
    (is_local add : bool) : panics (Forwarder T * Result unit SubscriptionTableError) :=
  '(t, res) ←
    (if add then add_subscription (subscription_table f) agent_type agent_id conn_index is_local
     else Done (remove_subscription (subscription_table f) agent_type agent_id conn_index is_local));
  Done (mkForwarder t (remote_subscription_table f) (connection_table f), res).

Definition on_forwarded_subscription f (source : Agent) (name_type : AgentType)
    (name_agent_id : option N) (conn_index : N) (add : bool) : Forwarder T :=
  let name := Agent_new name_type (default DEFAULT_AGENT_ID name_agent_id) in
  mkForwarder (subscription_table f)
    (if add then Remote_add_subscription (remote_subscription_table f) source name conn_index
     else Remote_remove_subscription (remote_subscription_table f) source name conn_index)
    (connection_table f).

Context `{HashIter}.

Definition on_connection_drop f (conn_index : N) (is_local : bool) : Forwarder T :=
  mkForwarder (remove_connection (subscription_table f) conn_index is_local).1
    (Remote_remove_connection (remote_subscription_table f) conn_index)
    (ConnectionTable_remove (connection_table f) (N.to_nat conn_index)).1.

Definition on_publish_msg_match f (agent_type : AgentType) (agent_id : option N)
    (incoming_conn fanout : N) (r1 r2 : nat) : panics (Result (list N) SubscriptionTableError) :=
  if decide (fanout = 1%N) then
    res ← match_one (subscription_table f) agent_type agent_id incoming_conn r1 r2;
    match res with
    | Ok out => Done (Ok [out])
    | Err e => Done (Err e)
    end
  else match_all (subscription_table f) agent_type agent_id incoming_conn.
End model.

(** ** Properties *)

(** What the forwarder keeps: well-formed tables, the subscriptions of [S]. *)
Record Forwarder_wf {T} (f : Forwarder T) (S : Subs) : Prop := {
  fw_subs : represents (subscription_table f) S;
  fw_conns : Pool_wf (connection_table f);
  fw_capacity : 0 < capacity (connection_table f);
}.

Lemma Forwarder_new_wf {T} : Forwarder_wf (Forwarder_new (T:=T)) ∅.
Proof.
  split; simpl; [apply represents_empty|apply Pool_with_capacity_wf|lia].
Qed.

Section properties.
Context `{HashIter} {T : Type}.
Implicit Types (f : Forwarder T) (conn : T).

(** What a publication is matched to: a non-empty list without the incoming
    connection, all of it subscribed (or, for an unknown agent and fanout 1,
    the type's only connection). *)
Lemma on_publish_msg_match_sound f S agent_type agent_id incoming fanout r1 r2 :
  Forwarder_wf f S ->
  exists res, on_publish_msg_match f agent_type agent_id incoming fanout r1 r2 = Done res /\
    match res with
    | Ok out => out <> [] /\ NoDup out /\ (incoming ∉ out) /\
        (forall k, k ∈ out -> exists b, target S agent_type agent_id incoming b k \/
           only_choice S agent_type agent_id b k) /\
        (fanout = 1%N -> length out = 1)
    | Err e => Err e = no_match (A:=unit) agent_type agent_id
    end.
Proof.
  intros Hwf. unfold on_publish_msg_match. destruct (decide (fanout = 1%N)) as [->|Hf].
  - destruct (match_one_exact (subscription_table f) S (fw_subs f S Hwf)
      agent_type agent_id incoming r1 r2) as (res&->&Hres). simpl.
    destruct res as [k|e]; (eexists; split; [done|]); [|by destruct Hres].
    destruct Hres as [Hne Hk]. split; [done|]. split; [apply NoDup_singleton|].
    rewrite list_elem_of_singleton. split; [done|]. split; [|done].
    intros k' ->%list_elem_of_singleton. done.
  - destruct (match_all_exact (subscription_table f) S (fw_subs f S Hwf)
      agent_type agent_id incoming) as (res&->&Hres).
    exists res. split; [done|]. destruct res as [out|e]; [|by destruct Hres].
    destruct Hres as (Hne&Hnd&b&_&Hin). do 2 (split; [done|]). split; [|split; [|done]].
    + intros Hinc. apply Hin in Hinc. by destruct Hinc.
    + intros k Hk. exists b. left. by apply Hin.
Qed.

Lemma on_connection_established_new f S conn :
  Forwarder_wf f S ->
  exists f' k, on_connection_established f conn None = Done (f', Some k) /\ Forwarder_wf f' S /\
    get_connection f k = None /\
    (forall j, get_connection f' j = if decide (j = k) then Some conn else get_connection f j) /\
    subscription_table f' = subscription_table f /\
    remote_subscription_table f' = remote_subscription_table f.
Proof.
  intros [Hs Hp Hc]. unfold on_connection_established, ConnectionTable_insert.
  destruct (Pool_insert_total _ conn Hp Hc) as (p'&i&->&Hwf'&Hfree&_&Hget&_&Hcap'&_). simpl.
  eexists _, (N.of_nat i). split; [done|]. split; [by split|].
  unfold get_connection, ConnectionTable_get; simpl. rewrite Nat2N.id. split; [done|].
  split; [|done]. intros j. rewrite Hget.
  destruct (decide (j = N.of_nat i)) as [->|Hne]; [by rewrite decide_True by apply Nat2N.id|].
  rewrite decide_False; [done|]. intros <-. by rewrite N2Nat.id in Hne.
Qed.

(** Re-establishing a connection at the index it had. *)
Lemma on_connection_established_at f S conn k :
  Forwarder_wf f S -> is_Some (get_connection f k) ->
  exists f', on_connection_established f conn (Some k) = Done (f', Some k) /\ Forwarder_wf f' S /\
    (forall j, get_connection f' j = if decide (j = k) then Some conn else get_connection f j) /\
    subscription_table f' = subscription_table f /\
    remote_subscription_table f' = remote_subscription_table f.
Proof.
  intros [Hs Hp Hc] Hk. unfold on_connection_established, ConnectionTable_insert_at.
  pose proof (Pool_get_lt _ _ Hp Hk) as Hlt.
  destruct (Pool_insert_at_spec _ conn _ Hp Hlt) as (p'&->&Hwf'&Hget&Hcap&_). simpl.
  eexists. split; [done|]. split; [split; simpl; [done..|lia]|].
  unfold get_connection, ConnectionTable_get; simpl.
  split; [|done]. intros j. rewrite Hget. f_equal. apply decide_ext. split; [|by intros ->].
  intros Heq. by apply N2Nat.inj.
Qed.

Lemma on_subscription_msg_add_wf f S ty id k b :
  Forwarder_wf f S -> on_side k b S ->
  exists f', on_subscription_msg f ty id k b true = Done (f', Ok tt) /\
    Forwarder_wf f' (S ∪ {[(op_key ty id, b, k)]}) /\
    connection_table f' = connection_table f /\
    remote_subscription_table f' = remote_subscription_table f.
Proof.
  intros [Hs Hp Hc] Hside. unfold on_subscription_msg.
  destruct (add_subscription_refines _ _ ty id k b Hs Hside) as (t'&->&Hrep). simpl.
  eexists; split; [done|]. by split.
Qed.

Lemma on_connection_drop_wf f S k b :
  Forwarder_wf f S -> on_side k b S ->
  Forwarder_wf (on_connection_drop f k b) (filter (fun e => e.2 <> k) S).
Proof.
  intros [Hs Hp Hc] Hside. unfold on_connection_drop, ConnectionTable_remove. split; simpl.
  - destruct (run_op_refines _ S (OpDisconnect k b) Hs Hside) as (t'&Hrun&Hrep).
    simpl in Hrun. injection Hrun as Hrun. by rewrite Hrun.
  - by apply Pool_remove_wf.
  - unfold Pool_remove. by destruct (default _ _).
Qed.

Lemma get_connection_drop f k b j :
  Pool_wf (connection_table f) ->
  get_connection (on_connection_drop f k b) j = (if decide (j = k) then None else get_connection f j).
Proof.
  intros Hwf. unfold get_connection, ConnectionTable_get; simpl. unfold ConnectionTable_remove.
  rewrite Pool_remove_get by done.
  destruct (decide (j = k)) as [->|Hne]; [by rewrite decide_True|].
  rewrite decide_False; [done|]. intros Heq. apply Hne. by apply N2Nat.inj.
Qed.
End properties.

(** Dropping a connection removes it from all three tables: it is no longer
    found, nothing is recorded as forwarded on it, and no publication, from
    whichever connection and with whichever fanout and draws, is matched to it;
    the other connections and forwarded subscriptions stay. *)
Theorem dropped_connection_unreachable `{HashIter} {T} (f : Forwarder T) S k b :
  Forwarder_wf f S -> on_side k b S ->
  let f' := on_connection_drop f k b in
  get_connection f' k = None /\
  (forall j, j <> k -> get_connection f' j = get_connection f j) /\
  (forall j i, forwarded (remote_subscription_table f') j i <->
     forwarded (remote_subscription_table f) j i /\ j <> k) /\
  forall agent_type agent_id incoming fanout r1 r2 out,
    on_publish_msg_match f' agent_type agent_id incoming fanout r1 r2 = Done (Ok out) -> k ∉ out.
Proof.
  intros Hwf Hside f'. pose proof (fw_conns f S Hwf) as Hp.
  split; [unfold f'; by rewrite get_connection_drop, decide_True|].
  split; [intros j Hj; unfold f'; by rewrite get_connection_drop, decide_False|]. split.
  - intros j i. unfold f', forwarded, Remote_remove_connection; simpl.
    rewrite !get_subscriptions_default. unfold Remote_remove_connection.
    destruct (decide (j = k)) as [->|Hne].
    + rewrite lookup_delete_eq; simpl. rewrite lookup_empty. split; [by intros [? ?]|tauto].
    + rewrite lookup_delete_ne by done. tauto.
  - intros ty id inc fanout r1 r2 out Hout Hk.
    destruct (on_publish_msg_match_sound f' _ ty id inc fanout r1 r2
      (on_connection_drop_wf f S k b Hwf Hside)) as (res&Hres&Hspec).
    rewrite Hout in Hres. injection Hres as <-. destruct Hspec as (_&_&_&Hall&_).
    assert (Hno : forall ak b', (ak, b', k) ∉ filter (fun e => e.2 <> k) S).
    { intros ak b' He. apply elem_of_filter in He. by apply (proj1 He). }
    destruct (Hall k Hk) as [b' [[_ Ht]|(id'&_&_&Honly)]].
    + destruct id as [id|]; [by apply Hno in Ht|]. destruct Ht as [id Hid]. by apply Hno in Hid.
    + destruct (proj2 (Honly k) eq_refl) as [id'' Hid]. by apply Hno in Hid.
Qed.

(** A forwarder with three connections, one local, and their subscriptions. *)
Definition demo_forwarder : panics (Forwarder unit) :=
  '(f, _) ← on_connection_established Forwarder_new tt None;
  '(f, _) ← on_connection_established f tt None;
  '(f, _) ← on_connection_established f tt None;
  '(f, _) ← on_subscription_msg f demo_type (Some 10%N) 0 true true;
  '(f, _) ← on_subscription_msg f demo_type None 1 false true;
  Done f.
Definition demo_subs : Subs :=
  ∅ ∪ {[(op_key demo_type (Some 10%N), true, 0%N)]} ∪ {[(op_key demo_type None, false, 1%N)]}.

Lemma demo_forwarder_wf : exists f, demo_forwarder = Done f /\ Forwarder_wf f demo_subs.
Proof.
  unfold demo_forwarder.
  destruct (on_connection_established_new Forwarder_new ∅ tt Forwarder_new_wf) as (f1&k1&->&Hf1&_).
  cbn -[on_connection_established on_subscription_msg].
  destruct (on_connection_established_new f1 ∅ tt Hf1) as (f2&k2&->&Hf2&_).
  cbn -[on_connection_established on_subscription_msg].
  destruct (on_connection_established_new f2 ∅ tt Hf2) as (f3&k3&->&Hf3&_).
  cbn -[on_connection_established on_subscription_msg].
  destruct (on_subscription_msg_add_wf f3 ∅ demo_type (Some 10%N) 0 true Hf3) as (f4&->&Hf4&_).
  { apply (bool_decide_unpack _). by vm_compute. }
  cbn -[on_subscription_msg]. edestruct (on_subscription_msg_add_wf f4 _ demo_type None 1 false Hf4) as (f5&->&Hf5&_).
  { apply (bool_decide_unpack _). by vm_compute. }
  by exists f5.
Qed.

Lemma dropped_connection_unreachable_witness :
  exists f, demo_forwarder = Done f /\ Forwarder_wf f demo_subs /\
    get_connection (@on_connection_drop unit hash_iter_sorted f 0 true) 0 = None.
Proof.
  destruct demo_forwarder_wf as (f&Hf&Hwf). exists f. split; [done|]. split; [done|].
  apply (@dropped_connection_unreachable hash_iter_sorted unit f demo_subs 0%N true Hwf).
  apply (bool_decide_unpack _). by vm_compute.
Defined.
