(* ===== verification/MessageProcessing.v ===== *)
(** * The message processor: model

    [datapath/src/message_processing.rs] and [datapath/src/errors.rs].

    The state behind the numbers a connection holds is kept here: the mpsc
    channels (their queue, and whether the receiver is still there) and the
    cancellation tokens. A handler runs to its end without interleaving; a full
    channel only delays a send, so the queue has no bound in the model. A
    spawned [process_stream] task is an entry of [mp_tasks]; [stream_event] is
    one turn of its [select!] loop on the event that won, including what follows
    the loop.

    Parameters: the OpenTelemetry propagator and whether spans are recorded
    ([Telemetry]), the gRPC transport ([Transport]; the outcomes of opening a
    channel are arguments), and the hash functions. *)
From stdpp Require Import base list gmap strings numbers option sets.
From S2P Require Import Prelude Proto Encoder Messages Pool ConnectionTable.
From S2P Require Import RemoteSubscriptions SubscriptionTable Forwarder.

Open Scope string_scope.
Inductive DataPathError : Type :=
| ConnectionError (s : string)
| DisconnectionError (s : string)
| UnknownMsgType (s : string)
| InvalidMessage (s : string)
| ErrorSettingInConnection (s : string)
| SubscriptionError (s : string)
| UnsubscriptionError (s : string)
| PublicationError (s : string)
| CommandError (s : string)
| ConnectionNotFound (s : string)
| WrongChannelType
| MessageSendError (s : string)
| StreamError (s : string)
| ProcessingError (s : string).

(** The [Display] of [thiserror]. *)
Definition DataPathError_fmt (e : DataPathError) : string :=
  match e with
  | ConnectionError s => "connection error: " +:+ s
  | DisconnectionError s => "disconnection error: " +:+ s
  | UnknownMsgType s => "unkwon message type " +:+ s
  | InvalidMessage s => "invalid message: " +:+ s
  | ErrorSettingInConnection _ => "unable to set incoming connection"
  | SubscriptionError s => "error handling subscription: " +:+ s
  | UnsubscriptionError s => "error handling unsubscription: " +:+ s
  | PublicationError s => "error handling publish: " +:+ s
  | CommandError s => "error parsing command message: " +:+ s
  | ConnectionNotFound s => "connection not found: " +:+ s
  | WrongChannelType => "wrong channel type"
  | MessageSendError s => "error sending message: " +:+ s
  | StreamError s => "stream error: " +:+ s
  | ProcessingError s => "error processing message: " +:+ s
  end.

(** [{:?}] of an ASCII string: quoted, with the escapes of [char::escape_debug]. *)
Definition escape_debug (c : Ascii.ascii) : string :=
  let n := Ascii.N_of_ascii c in
  if decide (n = 34)%N then "\" +:+ String c ""
  else if decide (n = 92)%N then "\\"
  else if decide (n = 10)%N then "\n"
  else if decide (n = 13)%N then "\r"
  else if decide (n = 9)%N then "\t"
  else if decide (n = 0)%N then "\0"
  else if decide (n < 32 \/ n = 127)%N then "\u{" +:+ fmt_hex n +:+ "}"
  else String c "".
Definition dquote : string := String (Ascii.ascii_of_N 34) "".
Definition fmt_debug_str (s : string) : string :=
  dquote +:+ String.concat "" (escape_debug <$> String.list_ascii_of_string s) +:+ dquote.

(** The derived [Debug]. *)
Definition DataPathError_debug (e : DataPathError) : string :=
  let tuple name s := name +:+ "(" +:+ fmt_debug_str s +:+ ")" in
  match e with
  | ConnectionError s => tuple "ConnectionError" s
  | DisconnectionError s => tuple "DisconnectionError" s
  | UnknownMsgType s => tuple "UnknownMsgType" s
  | InvalidMessage s => tuple "InvalidMessage" s
  | ErrorSettingInConnection s => tuple "ErrorSettingInConnection" s
  | SubscriptionError s => tuple "SubscriptionError" s
  | UnsubscriptionError s => tuple "UnsubscriptionError" s
  | PublicationError s => tuple "PublicationError" s
  | CommandError s => tuple "CommandError" s
  | ConnectionNotFound s => tuple "ConnectionNotFound" s
  | WrongChannelType => "WrongChannelType"
  | MessageSendError s => tuple "MessageSendError" s
  | StreamError s => tuple "StreamError" s
  | ProcessingError s => tuple "ProcessingError" s
  end.

(** ** State *)

(** What travels on a channel: [Ok(msg)] or [msg], or an error status (all of
    those the processor sends have code [Internal]). *)
Inductive Item : Type :=
| Delivered (msg : ProtoMessage)
| InternalStatus (message : string).

Record Chan : Type := mkChan {
  ch_open : bool;
  ch_queue : list Item;
}.

(** The gRPC transport: client configurations and whether
    [ClientConfig::to_channel] can make a channel of one. *)
Class Transport : Type := {
  ClientConfig : Type;
  to_channel : ClientConfig -> bool;
}.

(** [span_enabled]: whether a subscriber records the spans of [create_span];
    the fields of a span nobody records are not evaluated. [inject_context]
    is the propagator's injection for the current span. *)
Class Telemetry : Type := {
  span_enabled : bool;
  instance_id : string;
  inject_context : list (string * string) -> gmap string string -> gmap string string;
}.

Section state.
Context `{Transport}.

(** The captured variables of a [process_stream] task. *)
Record Task : Type := mkTask {
  tk_conn_index : N;
  tk_client_config : option ClientConfig;
  tk_cancellation_token : N;
  tk_is_local : bool;
}.

Record MessageProcessor : Type := mkMessageProcessor {
  mp_forwarder : Forwarder Connection;
  mp_channels : gmap N Chan;
  mp_tokens : gmap N bool;
  mp_tasks : gmap N Task;
  mp_next : N;
}.

(** [MessageProcessor::new] and [with_drain_channel]. *)
Definition MessageProcessor_new : MessageProcessor :=
  mkMessageProcessor Forwarder_new ∅ ∅ ∅ 0.

(** Computations on the state that may panic. *)
Definition proc (A : Type) : Type := MessageProcessor -> panics (MessageProcessor * A).
#[export] Instance proc_ret : MRet proc := fun A a s => Done (s, a).
#[export] Instance proc_bind : MBind proc := fun A B f c s =>
  match c s with
  | Done (s, a) => f a s
  | Panic why => Panic why
  end.
Definition lift {A} (c : panics A) : proc A := fun s => a ← c; Done (s, a).
Definition gets {A} (f : MessageProcessor -> A) : proc A := fun s => Done (s, f s).

Definition set_forwarder (f : Forwarder Connection) : proc unit := fun s =>
  Done (mkMessageProcessor f (mp_channels s) (mp_tokens s) (mp_tasks s) (mp_next s), tt).
Definition set_channels (c : gmap N Chan) : proc unit := fun s =>
  Done (mkMessageProcessor (mp_forwarder s) c (mp_tokens s) (mp_tasks s) (mp_next s), tt).
Definition set_tokens (t : gmap N bool) : proc unit := fun s =>
  Done (mkMessageProcessor (mp_forwarder s) (mp_channels s) t (mp_tasks s) (mp_next s), tt).
Definition set_tasks (t : gmap N Task) : proc unit := fun s =>
  Done (mkMessageProcessor (mp_forwarder s) (mp_channels s) (mp_tokens s) t (mp_next s), tt).
Definition fresh : proc N := fun s =>
  Done (mkMessageProcessor (mp_forwarder s) (mp_channels s) (mp_tokens s) (mp_tasks s)
          (mp_next s + 1), mp_next s).

(** [mpsc::channel(128)]. *)
Definition new_channel : proc N :=
  tx ← fresh;
  chans ← gets mp_channels;
  _ ← set_channels (<[tx := mkChan true []]> chans);
  mret tx.
(** The receiver is dropped. *)
Definition close_channel (tx : N) : proc unit :=
  chans ← gets mp_channels;
  set_channels (alter (fun c => mkChan false (ch_queue c)) tx chans).
(** [CancellationToken::new]. *)
Definition new_token : proc N :=
  t ← fresh;
  tokens ← gets mp_tokens;
  _ ← set_tokens (<[t := false]> tokens);
  mret t.
(** [CancellationToken::cancel]. *)
Definition cancel (t : N) : proc unit :=
  tokens ← gets mp_tokens;
  set_tokens (<[t := true]> tokens).

(** [Sender::send]: fails when the receiver is gone. *)
Definition send (tx : N) (i : Item) : proc (Result unit string) :=
  chans ← gets mp_channels;
  match chans !! tx with
  | Some (mkChan true q) =>
      _ ← set_channels (<[tx := mkChan true (q ++ [i])%list]> chans);
      mret (Ok tt)
  | _ => mret (Err "channel closed")
  end.
End state.

(** ** Telemetry *)
Section telemetry.
Context `{Telemetry}.

(** The span's attributes. *)
Definition create_span (function : string) (out_conn : N) (msg : ProtoMessage)
    : panics (list (string * string)) :=
  attrs ←
    (if span_enabled then
       source ← get_source msg;
       destination ← get_name_as_agent msg;
       t ← get_type msg;
       Done [("function", function); ("source", Agent_fmt source);
             ("destination", Agent_fmt destination); ("instance_id", instance_id);
             ("connection_id", fmt_dec out_conn); ("message_type", MessageType_fmt t)]
     else Done []);
  t ← get_type msg;
  match t with
  | Publish _ =>
      header_type ← get_header_type msg;
      session ← get_session_header msg;
      Done (if span_enabled then
              (attrs ++ [("session_type", as_str_name header_type);
                         ("session_id", fmt_dec (se_session_id session));
                         ("message_id", fmt_dec (se_message_id session))])%list
            else [])
  | _ => Done attrs
  end.

Definition inject_current_context (span : list (string * string)) (msg : ProtoMessage)
    : ProtoMessage :=
  mkProtoMessage (inject_context span (pm_metadata msg)) (pm_message_type msg).
End telemetry.

(** ** Handlers *)
Section handlers.
Context `{Hasher, HashIter, Transport, Telemetry}.

(** [process_stream]: the spawned task. *)
Definition process_stream (conn_index : N) (client_config : option ClientConfig)
    (cancellation_token : N) (is_local : bool) : proc N :=
  id ← fresh;
  tasks ← gets mp_tasks;
  _ ← set_tasks (<[id := mkTask conn_index client_config cancellation_token is_local]> tasks);
  mret id.

Definition establish (connection : Connection) (existing : option N) : proc (option N) :=
  f ← gets mp_forwarder;
  '(f, opt) ← lift (on_connection_established f connection existing);
  _ ← set_forwarder f;
  mret opt.

(** [attempts]: the outcomes of [client.open_channel], in order; an attempt
    without an outcome is a failed one. *)
Fixpoint try_to_connect (client_config : option ClientConfig) (local remote : option SocketAddr)
    (existing_conn_index : option N) (max_retry : nat) (attempts : list bool)
    : proc (Result (N * N) DataPathError) :=
  match max_retry with
  | 0 => mret (Err (ConnectionError "reached max connection retries"))
  | S max_retry =>
      tx ← new_channel;
      match attempts with
      | true :: _ =>
          cancellation_token ← new_token;
          let connection :=
            with_cancellation_token (Some cancellation_token)
              (with_channel (Client tx)
                 (with_remote_addr remote
                    (with_local_addr local (Connection_new Remote)))) in
          opt ← establish connection existing_conn_index;
          match opt with
          | None =>
              mret (Err (ConnectionError "error adding connection to the connection tables"))
          | Some conn_index =>
              ret ← process_stream conn_index client_config cancellation_token false;
              mret (Ok (ret, conn_index))
          end
      | _ =>
          _ ← close_channel tx;
          try_to_connect client_config local remote existing_conn_index max_retry (tail attempts)
      end
  end.

Definition connect (client_config : option ClientConfig) (local remote : option SocketAddr)
    (attempts : list bool) : proc (Result (N * N) DataPathError) :=
  try_to_connect client_config local remote None 10 attempts.

Definition disconnect (conn : N) : proc (Result unit DataPathError) :=
  f ← gets mp_forwarder;
  match get_connection f conn with
  | None => mret (Err (DisconnectionError "connection not found"))
  | Some c =>
      match cn_cancellation_token c with
      | None => mret (Ok tt)
      | Some t => _ ← cancel t; mret (Ok tt)
      end
  end.

(** The connection number, the channel to send on (read by the new task) and
    the channel to receive from. *)
Definition register_local_connection : proc (N * N * N) :=
  tx1 ← new_channel;
  tx2 ← new_channel;
  cancellation_token ← new_token;
  let connection :=
    with_cancellation_token (Some cancellation_token)
      (with_channel (Server tx2) (Connection_new Local)) in
  opt ← establish connection None;
  conn_id ← lift (unwrap opt);
  _ ← process_stream conn_id None cancellation_token true;
  mret (conn_id, tx1, tx2).

(** [PubSubService::open_channel]: a connection opened by a remote peer. The
    channel is the one the peer's response stream reads. *)
Definition open_channel (remote_addr local_addr : option SocketAddr) : proc N :=
  tx ← new_channel;
  let connection :=
    with_channel (Server tx)
      (with_local_addr local_addr (with_remote_addr remote_addr (Connection_new Remote))) in
  opt ← establish connection None;
  conn_index ← lift (unwrap opt);
  cancellation_token ← new_token;
  _ ← process_stream conn_index None cancellation_token false;
  mret tx.

Definition send_msg (msg : ProtoMessage) (out_conn : N) : proc (Result unit DataPathError) :=
  f ← gets mp_forwarder;
  match get_connection f out_conn with
  | Some conn =>
      msg ← lift (clear_slim_header msg);
      span ← lift (create_span "send_message" out_conn msg);
      let msg := inject_current_context span msg in
      match cn_channel conn with
      | Server tx | Client tx =>
          res ← send tx (Delivered msg);
          mret (map_err MessageSendError res)
      | UnknownChannel => mret (Err (MessageSendError "connection not found"))
      end
  | None =>
      mret (Err (MessageSendError ("connection " +:+ fmt_dec out_conn +:+ " not found")))
  end.

(** The copies of a matched message: [len - 1] clones, then the message. *)
Fixpoint forward_all (msg : ProtoMessage) (out_vec : list N) : proc (Result unit DataPathError) :=
  match out_vec with
  | [] => lift (Panic "attempt to subtract with overflow")
  | k :: rest =>
      res ← send_msg msg k;
      match res with
      | Err e => mret (Err (PublicationError (DataPathError_fmt e)))
      | Ok _ => match rest with [] => mret (Ok tt) | _ => forward_all msg rest end
      end
  end.

Definition match_and_forward_msg (msg : ProtoMessage) (agent_type : AgentType)
    (in_connection fanout : N) (agent_id : option N) (r1 r2 : nat)
    : proc (Result unit DataPathError) :=
  forward_to ← lift (get_forward_to msg);
  match forward_to with
  | Some val =>
      res ← send_msg msg val;
      mret (map_err (fun e => PublicationError (DataPathError_fmt e)) res)
  | None =>
      f ← gets mp_forwarder;
      res ← lift (on_publish_msg_match f agent_type agent_id in_connection fanout r1 r2);
      match res with
      | Ok out_vec => forward_all msg out_vec
      | Err e => mret (Err (PublicationError (SubscriptionTableError_fmt e)))
      end
  end.

Definition process_publish (msg : ProtoMessage) (in_connection : N) (r1 r2 : nat)
    : proc (Result unit DataPathError) :=
  header ← lift (get_slim_header msg);
  '(agent_type, agent_id) ← lift (SlimHeader_get_dst header);
  fanout ← lift (get_fanout msg);
  match_and_forward_msg msg agent_type in_connection fanout agent_id r1 r2.

Definition process_subscription (msg : ProtoMessage) (in_connection : N) (add : bool)
    : proc (Result unit DataPathError) :=
  '(agent_type, agent_id) ← lift (get_name msg);
  header ← lift (get_slim_header msg);
  '(conn, forward) ← lift (get_in_out_connections header);
  f ← gets mp_forwarder;
  match get_connection f conn with
  | None => mret (Err (SubscriptionError "connection not found"))
  | Some connection =>
      '(f, res) ← lift (on_subscription_msg f agent_type agent_id conn
                          (is_local_connection connection) add);
      _ ← set_forwarder f;
      match res with
      | Err e => mret (Err (SubscriptionError (SubscriptionTableError_fmt e)))
      | Ok _ =>
          match forward with
          | None => mret (Ok tt)
          | Some out_conn =>
              source_agent ← lift (get_source msg);
              res ← send_msg msg out_conn;
              match res with
              | Ok _ =>
                  f ← gets mp_forwarder;
                  _ ← set_forwarder
                        (on_forwarded_subscription f source_agent agent_type agent_id out_conn add);
                  mret (Ok tt)
              | Err e => mret (Err (UnsubscriptionError (DataPathError_fmt e)))
              end
          end
      end
  end.

Definition process_message (msg : ProtoMessage) (in_connection : N) (r1 r2 : nat)
    : proc (Result unit DataPathError) :=
  t ← lift (get_type msg);
  match t with
  | Subscribe _ => process_subscription msg in_connection true
  | Unsubscribe _ => process_subscription msg in_connection false
  | Publish _ => process_publish msg in_connection r1 r2
  end.

(** Both branches on [is_local] inject the context of a span that differs
    only in its parent. *)
Definition handle_new_message (conn_index : N) (is_local : bool) (msg : ProtoMessage) (r1 r2 : nat)
    : proc (Result unit DataPathError) :=
  valid ← lift (validate msg);
  match valid with
  | Err err => mret (Err (InvalidMessage (MessageError_fmt err)))
  | Ok _ =>
      msg ← lift (set_incoming_conn (Some conn_index) msg);
      span ← lift (create_span "process_local" conn_index msg);
      let msg := inject_current_context span msg in
      res ← process_message msg conn_index r1 r2;
      mret (map_err (fun e => ProcessingError (DataPathError_fmt e)) res)
  end.

Definition send_error_to_local_app (conn_index : N) (err : DataPathError) : proc unit :=
  f ← gets mp_forwarder;
  match get_connection f conn_index with
  | Some conn =>
      match cn_channel conn with
      | Server tx =>
          _ ← send tx (InternalStatus ("error processing message: " +:+ DataPathError_debug err));
          mret tt
      | _ => mret tt
      end
  | None => mret tt
  end.

(** Which branch of [reconnect]'s [select!] completes first. *)
Inductive Race : Type :=
| TokenCancelled
| DrainSignaled
| Connecting (attempts : list bool).

(** The loop that restores the forwarded subscriptions; a failed send is only
    logged. *)
Fixpoint restore_subscriptions (infos : list SubscriptionInfo) (conn_index : N) : proc unit :=
  match infos with
  | [] => mret tt
  | r :: infos =>
      sub_msg ← lift (new_subscribe (si_source r) (ag_agent_type (si_name r))
                        (agent_id_option (si_name r)) None);
      _ ← send_msg sub_msg conn_index;
      restore_subscriptions infos conn_index
  end.

Definition reconnect (client_conf : option ClientConfig) (conn_index : N) (race : Race) : proc bool :=
  config ← lift (unwrap client_conf);
  if to_channel config then
    f ← gets mp_forwarder;
    let remote_subscriptions := get_subscriptions_forwarded_on_connection f conn_index in
    match race with
    | TokenCancelled | DrainSignaled => mret false
    | Connecting attempts =>
        res ← try_to_connect (Some config) None None (Some conn_index) 120 attempts;
        match res with
        | Ok _ =>
            _ ← restore_subscriptions (hash_iter remote_subscriptions).*2 conn_index;
            mret true
        | Err _ => mret false
        end
    end
  else mret false.

(** What the [select!] of a task's loop returns. *)
Inductive StreamEvent : Type :=
| Received (msg : ProtoMessage) (r1 r2 : nat)
| ReceiveError (race : Race)
| EndOfStream (race : Race)
| Drained
| Cancelled.

(** After the loop: reconnect when allowed and configured, else drop the
    connection's state. *)
Definition finish_stream (id : N) (task : Task) (try_to_reconnect : bool) (race : Race) : proc unit :=
  tasks ← gets mp_tasks;
  _ ← set_tasks (delete id tasks);
  connected ←
    (if try_to_reconnect && bool_decide (is_Some (tk_client_config task))
     then reconnect (tk_client_config task) (tk_conn_index task) race
     else mret false);
  if (connected : bool) then mret tt else
  f ← gets mp_forwarder;
  set_forwarder (on_connection_drop f (tk_conn_index task) (tk_is_local task)).

Definition stream_event (id : N) (ev : StreamEvent) : proc unit :=
  tasks ← gets mp_tasks;
  match tasks !! id with
  | None => mret tt
  | Some task =>
      match ev with
      | Received msg r1 r2 =>
          res ← handle_new_message (tk_conn_index task) (tk_is_local task) msg r1 r2;
          match res with
          | Ok _ => mret tt
          | Err e =>
              if tk_is_local task then send_error_to_local_app (tk_conn_index task) e else mret tt
          end
      | ReceiveError race | EndOfStream race => finish_stream id task true race
      | Drained | Cancelled => finish_stream id task false TokenCancelled
      end
  end.
End handlers.
Close Scope string_scope.
