(* ===== verification/MessageProcessingProofs.v ===== *)
(** * The message processor: invariant and message delivery

    The invariant ties the connection table to the channels and to the
    subscriptions. On top of it: what a send does, what a publication delivers
    and to whom, what a subscription changes, what the end of a stream and a
    reconnection do. *)
From stdpp Require Import base list gmap strings numbers option sets.
From S2P Require Import Prelude Proto Encoder Messages Pool ConnectionTable.
From S2P Require Import RemoteSubscriptions SubscriptionTable SubscriptionTableProofs SubscriptionTableSpec Forwarder MessageProcessing.

(** ** Messages on the way *)

(** The message keeps its kind, its payload and session header; [f] was applied
    to its SLIM header. *)
Definition rewritten (f : SlimHeader -> SlimHeader) (t t' : MessageType) : Prop :=
  match t, t' with
  | Subscribe a, Subscribe b =>
      su_header b = f <$> su_header a /\ su_organization b = su_organization a /\
      su_namespace b = su_namespace a /\ su_agent_type b = su_agent_type a
  | Unsubscribe a, Unsubscribe b => un_header b = f <$> un_header a
  | Publish a, Publish b =>
      pu_header b = f <$> pu_header a /\ pu_session b = pu_session a /\ pu_msg b = pu_msg a
  | _, _ => False
  end.

Lemma with_slim_header_mut_rewritten f m t h :
  pm_message_type m = Some t -> try_get_slim_header m = Some h ->
  exists t', with_slim_header_mut f m = Done (mkProtoMessage (pm_metadata m) (Some t')) /\
    rewritten f t t' /\ forall md, try_get_slim_header (mkProtoMessage md (Some t')) = Some (f h).
Proof.
  unfold with_slim_header_mut, try_get_slim_header. intros -> Hh.
  destruct t as [x|x|x]; simpl in *; rewrite Hh; simpl; eexists; (split; [done|]);
    simpl; by rewrite ?Hh.
Qed.

Lemma rewritten_header f t t' md :
  rewritten f t t' ->
  try_get_slim_header (mkProtoMessage md (Some t')) =
  f <$> try_get_slim_header (mkProtoMessage md (Some t)).
Proof. destruct t, t'; simpl; try done; by intros [? _]. Qed.

Lemma rewritten_compose f g t1 t2 t3 :
  rewritten f t1 t2 -> rewritten g t2 t3 -> rewritten (fun h => g (f h)) t1 t3.
Proof.
  destruct t1, t2, t3; simpl; try done.
  - intros (H1&->&->&->) (H2&->&->&->). rewrite H2, H1. by destruct (su_header s).
  - intros H1 H2. rewrite H2, H1. by destruct (un_header u).
  - intros (H1&->&->) (H2&->&->). rewrite H2, H1. by destruct (pu_header p).
Qed.

(** The name a message carries. *)
Definition named (m : ProtoMessage) (src dst : ProtoAgent) (h : SlimHeader) : Prop :=
  try_get_slim_header m = Some h /\ sh_source h = Some src /\ sh_destination h = Some dst.

Section messages.
Context `{Telemetry}.

(** Spans can be made of the message: it is valid and, when spans are
    recorded, its source has an id. *)
Definition traceable (m : ProtoMessage) : Prop :=
  valid_message m /\
  (span_enabled = true -> exists src, get_source m = Done src).

Lemma create_span_done fn k m : traceable m -> exists attrs, create_span fn k m = Done attrs.
Proof.
  intros [Hv Hsrc]. destruct (valid_accessors (H:=toy_hasher) m Hv) as (t&h&dst&Ht&Hh&Hd&Hn&_&Hp).
  assert (Hfields : exists a, (if span_enabled then
       source ← get_source m; destination ← get_name_as_agent m; t ← get_type m;
       Done [("function", fn); ("source", Agent_fmt source);
             ("destination", Agent_fmt destination); ("instance_id", instance_id);
             ("connection_id", fmt_dec k); ("message_type", MessageType_fmt t)]%string
     else Done []) = Done a).
  { destruct span_enabled; [|by eexists]. destruct (Hsrc eq_refl) as [src ->].
    rewrite Hn, Ht. by eexists. }
  unfold create_span. destruct Hfields as [a ->]. rewrite Ht. simpl.
  destruct t as [x|x|x]; [by eexists..|]. destruct (Hp x eq_refl) as [s Hs].
  unfold get_header_type. rewrite Hs. simpl. by eexists.
Qed.

(** A change of header that keeps the names keeps the message traceable. *)
Lemma traceable_rewritten f m md t t' h :
  traceable m -> pm_message_type m = Some t -> try_get_slim_header m = Some h ->
  rewritten f t t' -> sh_source (f h) = sh_source h -> sh_destination (f h) = sh_destination h ->
  traceable (mkProtoMessage md (Some t')).
Proof.
  intros [(h0&src&dst&Hh0&Hs&Hd&Hty) Hsrc] Ht Hh Hrw Hfs Hfd.
  assert (h0 = h) as -> by congruence.
  assert (Hh' : try_get_slim_header (mkProtoMessage md (Some t')) = Some (f h)).
  { rewrite (rewritten_header f t t' md Hrw). unfold try_get_slim_header in *.
    rewrite Ht in Hh. simpl. by rewrite Hh. }
  split.
  - exists (f h), src, dst. split; [done|]. split; [congruence|]. split; [congruence|]. simpl.
    rewrite Ht in Hty. destruct t, t'; simpl in *; try done. destruct Hrw as (_&->&_). done.
  - intros He. destruct (Hsrc He) as [a Ha]. exists a. rewrite <- Ha. unfold get_source.
    rewrite !get_slim_header_try, Hh', Hh. simpl. unfold SlimHeader_get_source. by rewrite Hfs.
Qed.

(** What [send_msg] puts on the channel of connection [k]. *)
Definition outgoing (msg : ProtoMessage) (k : N) : panics ProtoMessage :=
  msg ← clear_slim_header msg;
  span ← create_span "send_message" k msg;
  Done (inject_current_context span msg).

Lemma outgoing_done msg k t :
  traceable msg -> pm_message_type msg = Some t ->
  exists m' t', outgoing msg k = Done m' /\ pm_message_type m' = Some t' /\
    rewritten SlimHeader_clear t t'.
Proof.
  intros Htr Ht. destruct (Htr) as [(h&_&_&Hh&_) _].
  destruct (with_slim_header_mut_rewritten SlimHeader_clear msg t h Ht Hh) as (t'&Hw&Hrw&_).
  unfold outgoing, clear_slim_header. rewrite Hw. simpl.
  destruct (create_span_done "send_message" k (mkProtoMessage (pm_metadata msg) (Some t')))
    as [attrs ->]; [by apply (traceable_rewritten SlimHeader_clear msg _ t t' h)|].
  simpl. by eexists _, t'.
Qed.
End messages.

(** ** Sending *)

(** Run the monad's plumbing. *)
Ltac run_proc :=
  cbv beta iota zeta delta [mbind proc_bind panics_bind mret proc_ret lift gets
    set_channels set_forwarder set_tokens set_tasks fresh
    mp_forwarder mp_channels mp_tokens mp_tasks mp_next].
Definition chan_of (c : Connection) : option N :=
  match cn_channel c with
  | Server tx | Client tx => Some tx
  | UnknownChannel => None
  end.

Section sending.
Context `{Transport, Telemetry}.
Implicit Type s : MessageProcessor.

Lemma bind_Done {A B} (c : proc A) (f : A -> proc B) s s' a :
  c s = Done (s', a) -> (c ≫= f) s = f a s'.
Proof. intros Hc. unfold mbind, proc_bind. by rewrite Hc. Qed.
Lemma lift_Done {A} (c : panics A) s a : c = Done a -> lift c s = Done (s, a).
Proof. by intros ->. Qed.

Definition with_channels s (c : gmap N Chan) : MessageProcessor :=
  mkMessageProcessor (mp_forwarder s) c (mp_tokens s) (mp_tasks s) (mp_next s).

(** The channel of connection [k]. *)
Definition conn_chan s (k : N) : option N :=
  get_connection (mp_forwarder s) k ≫= chan_of.
(** What is queued for connection [k]; [None] when it cannot be sent to. *)
Definition queue s (k : N) : option (list Item) :=
  tx ← conn_chan s k;
  c ← mp_channels s !! tx;
  if (ch_open c : bool) then Some (ch_queue c) else None.

Lemma queue_Some s k q :
  queue s k = Some q <-> exists tx, conn_chan s k = Some tx /\ mp_channels s !! tx = Some (mkChan true q).
Proof.
  unfold queue. destruct (conn_chan s k) as [tx|]; simpl; [|split; [done|by intros (?&?&_)]].
  destruct (mp_channels s !! tx) as [[[] q0]|] eqn:E; simpl.
  - split; [intros [= ->]; by exists tx|]. intros (?&[= <-]&Hq). rewrite E in Hq. by simplify_eq.
  - split; [done|]. intros (?&[= <-]&Hq). by rewrite E in Hq.
  - split; [done|]. intros (?&[= <-]&Hq). by rewrite E in Hq.
Qed.

(** Push [i] on connection [k]'s channel. *)
Definition push s (k : N) (i : Item) : MessageProcessor :=
  match conn_chan s k with
  | Some tx =>
      with_channels s (alter (fun c => mkChan (ch_open c) (ch_queue c ++ [i])) tx (mp_channels s))
  | None => s
  end.

Lemma send_msg_open s k q msg m' :
  queue s k = Some q -> outgoing msg k = Done m' ->
  send_msg msg k s = Done (push s k (Delivered m'), Ok tt).
Proof.
  intros (tx&Htx&Hch)%queue_Some Hout. unfold send_msg, push. rewrite Htx.
  unfold conn_chan in Htx. destruct s as [f ch tok tk nx]. run_proc. simpl in Htx, Hch.
  destruct (get_connection f k) as [conn|]; simpl in Htx; [|done].
  unfold outgoing in Hout. destruct (clear_slim_header msg) as [m1|]; simpl in Hout; [|done].
  destruct (create_span "send_message" k m1) as [span|]; simpl in Hout; [|done].
  injection Hout as <-. unfold chan_of in Htx. unfold send. run_proc.
  destruct (cn_channel conn) as [tx'|tx'|]; simplify_eq; rewrite Hch; simpl;
    unfold with_channels; simpl; by rewrite (alter_alt_Some _ _ _ _ Hch).
Qed.

Lemma send_msg_closed s k msg m' :
  is_Some (conn_chan s k) -> queue s k = None -> outgoing msg k = Done m' ->
  send_msg msg k s = Done (s, Err (MessageSendError "channel closed")).
Proof.
  intros [tx Htx] Hq Hout. unfold queue in Hq. rewrite Htx in Hq. simpl in Hq.
  unfold send_msg. unfold conn_chan in Htx. destruct s as [f ch tok tk nx]. run_proc.
  simpl in Htx, Hq. destruct (get_connection f k) as [conn|]; simpl in Htx; [|done].
  unfold outgoing in Hout. destruct (clear_slim_header msg) as [m1|]; simpl in Hout; [|done].
  destruct (create_span "send_message" k m1) as [span|]; simpl in Hout; [|done].
  unfold chan_of in Htx. unfold send. run_proc.
  destruct (cn_channel conn) as [tx'|tx'|]; simplify_eq;
    destruct (ch !! tx) as [[[] q]|]; by simplify_eq/=.
Qed.

Lemma send_msg_no_conn s k msg :
  get_connection (mp_forwarder s) k = None ->
  send_msg msg k s =
  Done (s, Err (MessageSendError ("connection " +:+ fmt_dec k +:+ " not found"))).
Proof. intros Hn. unfold send_msg. run_proc. fold (mp_forwarder s). by rewrite Hn. Qed.

(** No two connections share a channel. *)
Definition wired s : Prop :=
  forall k k' tx, conn_chan s k = Some tx -> conn_chan s k' = Some tx -> k = k'.

Lemma push_forwarder s k i : mp_forwarder (push s k i) = mp_forwarder s.
Proof. unfold push. by destruct (conn_chan s k). Qed.
Lemma push_conn_chan s k i j : conn_chan (push s k i) j = conn_chan s j.
Proof. unfold conn_chan at 1. by rewrite push_forwarder. Qed.
Lemma push_wired s k i : wired s -> wired (push s k i).
Proof. intros Hw a b tx. rewrite !push_conn_chan. apply Hw. Qed.
Lemma push_rest s k i :
  mp_tokens (push s k i) = mp_tokens s /\ mp_tasks (push s k i) = mp_tasks s /\
  mp_next (push s k i) = mp_next s.
Proof. unfold push. by destruct (conn_chan s k). Qed.

Lemma queue_push s k i j :
  wired s ->
  queue (push s k i) j = if decide (j = k) then (fun q => q ++ [i]) <$> queue s k else queue s j.
Proof.
  intros Hw. unfold queue. rewrite push_conn_chan. unfold push.
  destruct (conn_chan s k) as [tx|] eqn:Hk; simpl.
  - destruct (decide (j = k)) as [->|Hne].
    + rewrite Hk. simpl. rewrite lookup_alter_eq. by destruct (mp_channels s !! tx) as [[[] q]|].
    + destruct (conn_chan s j) as [tx'|] eqn:Hj; simpl; [|done].
      rewrite lookup_alter_ne; [done|]. intros ->. apply Hne. by eapply Hw.
  - destruct (decide (j = k)) as [->|Hne]; [by rewrite Hk|done].
Qed.
End sending.

(** ** Forwarding to several connections *)
Section forwarding.
Context `{Transport, Telemetry}.
Implicit Type s : MessageProcessor.

(** The item a traceable message becomes on connection [k]. *)
Definition sent (msg : ProtoMessage) (k : N) : Item :=
  match outgoing msg k with
  | Done m => Delivered m
  | Panic _ => Delivered msg
  end.

Definition deliver s (msg : ProtoMessage) (out : list N) : MessageProcessor :=
  foldl (fun s k => push s k (sent msg k)) s out.

Lemma deliver_forwarder s msg out : mp_forwarder (deliver s msg out) = mp_forwarder s.
Proof.
  unfold deliver. revert s. induction out as [|k out IH]; intros s; simpl; [done|].
  by rewrite IH, push_forwarder.
Qed.
Lemma deliver_rest s msg out :
  mp_tokens (deliver s msg out) = mp_tokens s /\ mp_tasks (deliver s msg out) = mp_tasks s /\
  mp_next (deliver s msg out) = mp_next s.
Proof.
  unfold deliver. revert s. induction out as [|k out IH]; intros s; simpl; [done|].
  destruct (IH (push s k (sent msg k))) as (->&->&->). apply push_rest.
Qed.

Lemma queue_deliver s msg out j :
  wired s -> NoDup out ->
  queue (deliver s msg out) j =
  if decide (j ∈ out) then (fun q => q ++ [sent msg j]) <$> queue s j else queue s j.
Proof.
  unfold deliver. revert s. induction out as [|k out IH]; intros s Hw Hnd; cbn [foldl].
  { rewrite decide_False by apply not_elem_of_nil. done. }
  apply NoDup_cons in Hnd as [Hk Hnd]. rewrite IH by (done || by apply push_wired).
  rewrite queue_push by done.
  destruct (decide (j = k)) as [->|Hne].
  - rewrite decide_False by done. rewrite decide_True by (by left). done.
  - destruct (decide (j ∈ out)); [rewrite decide_True by (by right); done|].
    rewrite decide_False; [done|]. rewrite elem_of_cons. tauto.
Qed.

Lemma sent_done msg k : traceable msg -> exists m', outgoing msg k = Done m' /\ sent msg k = Delivered m'.
Proof.
  intros Htr. destruct (Htr) as [(h&_&_&_&_&_&Ht) _].
  destruct (pm_message_type msg) as [t|] eqn:E; [|done].
  destruct (outgoing_done msg k t Htr E) as (m'&_&Hm&_). exists m'. unfold sent. by rewrite Hm.
Qed.

Lemma forward_all_ok s msg out :
  traceable msg -> wired s -> NoDup out -> out <> [] ->
  (forall k, k ∈ out -> is_Some (queue s k)) ->
  forward_all msg out s = Done (deliver s msg out, Ok tt).
Proof.
  intros Htr. revert s. induction out as [|k out IH]; intros s Hw Hnd Hne Hopen; [done|].
  apply NoDup_cons in Hnd as [Hk Hnd].
  destruct (Hopen k) as [q Hq]; [by left|]. destruct (sent_done msg k Htr) as (m'&Hm&Hs).
  cbn [forward_all]. unfold mbind at 1, proc_bind at 1.
  rewrite (send_msg_open s k q msg m' Hq Hm). cbn iota beta.
  unfold deliver. cbn [foldl]. rewrite Hs. destruct out as [|k2 out]; [done|].
  apply IH; [by apply push_wired|done..|].
  intros j Hj. rewrite queue_push by done. rewrite decide_False by (by intros ->).
  apply Hopen. by right.
Qed.

(** The first connection that cannot be sent to ends the loop: those before it
    have their copy, those after it do not. *)
Lemma forward_all_stops s msg pre k post :
  traceable msg -> wired s -> NoDup (pre ++ k :: post) ->
  (forall j, j ∈ pre -> is_Some (queue s j)) ->
  is_Some (conn_chan s k) -> queue s k = None ->
  forward_all msg (pre ++ k :: post) s =
  Done (deliver s msg pre, Err (PublicationError "error sending message: channel closed")).
Proof.
  intros Htr. revert s. induction pre as [|j pre IH]; intros s Hw Hnd Hopen Hch Hq.
  - destruct (sent_done msg k Htr) as (m'&Hm&_). cbn [app forward_all].
    unfold mbind, proc_bind. by rewrite (send_msg_closed s k msg m' Hch Hq Hm).
  - cbn [app] in *. apply NoDup_cons in Hnd as [Hj Hnd].
    destruct (Hopen j) as [qj Hqj]; [by left|]. destruct (sent_done msg j Htr) as (m'&Hm&Hs).
    cbn [forward_all]. unfold mbind at 1, proc_bind at 1.
    rewrite (send_msg_open s j qj msg m' Hqj Hm). cbn iota beta.
    unfold deliver. cbn [foldl]. rewrite Hs.
    assert (Hne : forall i, i ∈ pre ++ k :: post -> i <> j) by (by intros i Hi ->).
    destruct (pre ++ k :: post) as [|x rest] eqn:E; [by destruct pre|].
    apply IH; [by apply push_wired|done| | |].
    + intros i Hi. rewrite queue_push by done. rewrite decide_False.
      * apply Hopen. by right.
      * apply Hne. rewrite <- E. apply elem_of_app. by left.
    + by rewrite push_conn_chan.
    + rewrite queue_push by done. rewrite decide_False; [done|].
      apply Hne. rewrite <- E. apply elem_of_app. right. by left.
Qed.
End forwarding.

(** ** The invariant *)
Section invariant.
Context `{Hasher, HashIter, Transport, Telemetry}.
Implicit Type s : MessageProcessor.

Record mp_inv s (S : Subs) : Prop := {
  mi_fw : Forwarder_wf (mp_forwarder s) S;
  mi_chan : forall k c, get_connection (mp_forwarder s) k = Some c ->
    exists tx, chan_of c = Some tx /\ is_Some (mp_channels s !! tx);
  mi_wired : wired s;
  mi_subs : forall ak b k, (ak, b, k) ∈ S ->
    exists c, get_connection (mp_forwarder s) k = Some c /\ is_local_connection c = b;
  mi_fresh : forall tx, is_Some (mp_channels s !! tx) -> (tx < mp_next s)%N;
}.

Lemma mp_inv_new : mp_inv MessageProcessor_new ∅.
Proof.
  assert (Hnone : forall k, get_connection (T:=Connection) Forwarder_new k = None).
  { intros k. apply Pool_get_with_capacity. }
  split; simpl; [apply Forwarder_new_wf|..].
  - intros k c. by rewrite Hnone.
  - intros k k' tx. unfold conn_chan; simpl. by rewrite Hnone.
  - set_solver.
  - intros tx. rewrite lookup_empty. by intros [? ?].
Qed.

(** Only channels' queues change. *)
Lemma mp_inv_push s S k i : mp_inv s S -> mp_inv (push s k i) S.
Proof.
  intros [Hfw Hch Hw Hsub Hfr]. destruct (push_rest s k i) as (_&_&Hnx). split.
  - by rewrite push_forwarder.
  - intros j c. rewrite push_forwarder. intros Hc. destruct (Hch j c Hc) as (tx&Htx&Hl).
    exists tx. split; [done|]. unfold push. destruct (conn_chan s k) as [tx'|]; [simpl|done].
    by rewrite lookup_alter_is_Some.
  - by apply push_wired.
  - intros ak b j. rewrite push_forwarder. apply Hsub.
  - intros tx. rewrite Hnx. unfold push. destruct (conn_chan s k) as [tx'|]; [simpl|apply Hfr].
    rewrite lookup_alter_is_Some. apply Hfr.
Qed.

Lemma mp_inv_deliver s S msg out : mp_inv s S -> mp_inv (deliver s msg out) S.
Proof.
  unfold deliver. revert s. induction out as [|k out IH]; intros s Hs; simpl; [done|].
  by apply IH, mp_inv_push.
Qed.

(** ** Entering the processor *)

(** The message after the incoming connection and the trace context have been
    written into it. *)
Definition entered (conn : N) (msg : ProtoMessage) : panics ProtoMessage :=
  msg ← set_incoming_conn (Some conn) msg;
  span ← create_span "process_local" conn msg;
  Done (inject_current_context span msg).

Lemma entered_done conn msg t h :
  traceable msg -> pm_message_type msg = Some t -> try_get_slim_header msg = Some h ->
  exists m t', entered conn msg = Done m /\ traceable m /\ pm_message_type m = Some t' /\
    rewritten (SlimHeader_set_incoming_conn (Some conn)) t t' /\
    try_get_slim_header m = Some (SlimHeader_set_incoming_conn (Some conn) h).
Proof.
  intros Htr Ht Hh.
  destruct (with_slim_header_mut_rewritten (SlimHeader_set_incoming_conn (Some conn)) msg t h Ht Hh)
    as (t'&Hw&Hrw&Hh').
  assert (Htr' : forall md, traceable (mkProtoMessage md (Some t'))).
  { intros md. by apply (traceable_rewritten (SlimHeader_set_incoming_conn (Some conn)) msg _ t t' h). }
  unfold entered, set_incoming_conn. rewrite Hw. simpl.
  destruct (create_span_done "process_local" conn (mkProtoMessage (pm_metadata msg) (Some t')))
    as [attrs ->]; [done|]. simpl. unfold inject_current_context; simpl.
  eexists _, t'. split; [done|]. split; [apply Htr'|]. split; [done|]. split; [done|]. apply Hh'.
Qed.

Lemma handle_new_message_valid conn is_local msg m r1 r2 s :
  traceable msg -> entered conn msg = Done m ->
  handle_new_message conn is_local msg r1 r2 s =
  (res ← process_message m conn r1 r2;
   mret (map_err (fun e => ProcessingError (DataPathError_fmt e)) res)) s.
Proof.
  intros [Hv _] Hent. unfold handle_new_message.
  destruct (validate_iff msg) as (r&Hr&Hiff). rewrite (proj2 Hiff Hv) in Hr. rewrite Hr.
  unfold entered in Hent. unfold mbind at 1, proc_bind at 1, lift at 1. cbn -[process_message].
  destruct (set_incoming_conn (Some conn) msg) as [m1|]; simpl in Hent; [|done].
  unfold mbind at 1, proc_bind at 1. cbn -[process_message].
  destruct (create_span "process_local" conn m1) as [span|]; simpl in Hent; [|done].
  injection Hent as <-. done.
Qed.

Lemma send_error_push s k c tx q e :
  get_connection (mp_forwarder s) k = Some c -> cn_channel c = Server tx -> queue s k = Some q ->
  send_error_to_local_app k e s =
  Done (push s k (InternalStatus ("error processing message: " +:+ DataPathError_debug e)), tt).
Proof.
  intros Hc Htx (tx'&Htx'&Hch)%queue_Some. unfold push. rewrite Htx'. unfold conn_chan in Htx'.
  rewrite Hc in Htx'. simpl in Htx'. unfold chan_of in Htx'. rewrite Htx in Htx'. injection Htx' as <-.
  unfold send_error_to_local_app, send. destruct s as [f ch tok tk nx]. simpl in Hc, Hch. run_proc.
  rewrite Hc, Htx, Hch. simpl. unfold with_channels; simpl. by rewrite (alter_alt_Some _ _ _ _ Hch).
Qed.

(** Reading the parts of a publication. *)
Lemma process_publish_parts m conn r1 r2 s p h dst :
  pm_message_type m = Some (Publish p) -> try_get_slim_header m = Some h ->
  sh_destination h = Some dst ->
  process_message m conn r1 r2 s =
  match_and_forward_msg m (AgentType_from_proto dst) conn (sh_fanout h) (pa_agent_id dst) r1 r2 s.
Proof.
  intros Ht Hh Hd. unfold process_message, get_type. rewrite Ht. run_proc.
  unfold process_publish, get_fanout. rewrite !get_slim_header_try, Hh. run_proc. cbn [fmap panics_fmap].
  unfold SlimHeader_get_dst. by rewrite Hd.
Qed.
End invariant.

(** What arrives: the message as published, with the incoming connection noted
    and the routing fields of the header cleared. *)
Definition arrival_header (conn : N) (h : SlimHeader) : SlimHeader :=
  SlimHeader_clear (SlimHeader_set_incoming_conn (Some conn) h).
Definition arrived (conn : N) (t : MessageType) (i : Item) : Prop :=
  exists m t', i = Delivered m /\ pm_message_type m = Some t' /\ rewritten (arrival_header conn) t t'.

Lemma sent_arrived `{Telemetry} conn m t t' k :
  traceable m -> pm_message_type m = Some t' ->
  rewritten (SlimHeader_set_incoming_conn (Some conn)) t t' -> arrived conn t (sent m k).
Proof.
  intros Htr Ht' Hrw. destruct (outgoing_done m k t' Htr Ht') as (m'&t''&Hout&Ht''&Hrw').
  exists m', t''. unfold sent. rewrite Hout. split; [done|]. split; [done|].
  exact (rewritten_compose _ _ _ _ _ Hrw Hrw').
Qed.

(** A publication, up to its matching. *)
Lemma publish_enters `{Hasher, HashIter, Transport, Telemetry} conn is_local msg p h dst r1 r2 (s : MessageProcessor) :
  traceable msg -> pm_message_type msg = Some (Publish p) -> pu_header p = Some h -> sh_destination h = Some dst ->
  exists m p', traceable m /\ pm_message_type m = Some (Publish p') /\
    rewritten (SlimHeader_set_incoming_conn (Some conn)) (Publish p) (Publish p') /\
    get_forward_to m = Done (sh_forward_to h) /\
    handle_new_message conn is_local msg r1 r2 s =
    (res ← match_and_forward_msg m (AgentType_from_proto dst) conn (sh_fanout h) (pa_agent_id dst) r1 r2;
     mret (map_err (fun e => ProcessingError (DataPathError_fmt e)) res)) s.
Proof.
  intros Htr Ht Hph Hd.
  assert (Hh : try_get_slim_header msg = Some h) by (unfold try_get_slim_header; by rewrite Ht).
  destruct (entered_done conn msg (Publish p) h Htr Ht Hh) as (m&t'&Hent&Htr'&Ht'&Hrw&Hh').
  destruct t' as [| |p']; [done..|]. exists m, p'. do 3 (split; [done|]).
  split; [unfold get_forward_to; by rewrite get_slim_header_try, Hh'|].
  rewrite (handle_new_message_valid conn is_local msg m r1 r2 s Htr Hent).
  unfold mbind at 1, proc_bind at 1. by rewrite (process_publish_parts m conn r1 r2 s p' _ dst Ht' Hh' Hd).
Qed.


(** ** Subscriptions *)
Section subscriptions.
Context `{Hasher, HashIter, Transport, Telemetry}.
Implicit Type s : MessageProcessor.

Definition with_forwarder s (f : Forwarder Connection) : MessageProcessor :=
  mkMessageProcessor f (mp_channels s) (mp_tokens s) (mp_tasks s) (mp_next s).

(** A change of the tables that keeps the connections. *)
Lemma mp_inv_with_forwarder s S f S' :
  mp_inv s S -> Forwarder_wf f S' ->
  connection_table f = connection_table (mp_forwarder s) ->
  (forall ak b k, (ak, b, k) ∈ S' ->
    exists c, get_connection (mp_forwarder s) k = Some c /\ is_local_connection c = b) ->
  mp_inv (with_forwarder s f) S'.
Proof.
  intros [Hfw Hch Hw Hsub Hfr] Hf Hct HS'.
  assert (Hget : forall k, get_connection f k = get_connection (mp_forwarder s) k).
  { intros k. unfold get_connection. by rewrite Hct. }
  split; simpl; [done|..|done].
  - intros k c. rewrite Hget. apply Hch.
  - intros k k' tx. unfold conn_chan; simpl. rewrite !Hget. apply Hw.
  - intros ak b k. rewrite Hget. apply HS'.
Qed.

Lemma inv_on_side s S k c :
  mp_inv s S -> get_connection (mp_forwarder s) k = Some c -> on_side k (is_local_connection c) S.
Proof.
  intros Hinv Hc [[ak b] k'] He Hk. simpl in *. subst k'.
  destruct (mi_subs s S Hinv ak b k He) as (c'&Hc'&Hb). by simplify_eq.
Qed.

(** The connection whose state a subscription updates, and where it goes. *)
Definition sub_conn (conn : N) (h : SlimHeader) : N := default conn (sh_recv_from h).
Definition sub_forward (h : SlimHeader) : option N :=
  match sh_recv_from h with Some _ => None | None => sh_forward_to h end.

Lemma in_out_connections conn h :
  get_in_out_connections (SlimHeader_set_incoming_conn (Some conn) h) =
  Done (sub_conn conn h, sub_forward h).
Proof.
  unfold get_in_out_connections, sub_conn, sub_forward; simpl.
  destruct (sh_recv_from h); [done|]. by destruct (sh_forward_to h).
Qed.

(** The name of the subscription, once in the processor. *)
Definition sub_name (t : MessageType) (dst : ProtoAgent) : AgentType * option N :=
  (match t with
   | Subscribe x => AgentType_from_strings (su_organization x) (su_namespace x) (su_agent_type x)
   | _ => AgentType_from_proto dst
   end, pa_agent_id dst).

Lemma get_name_rewritten f m t t' h dst :
  pm_message_type m = Some t' -> try_get_slim_header m = Some (f h) -> rewritten f t t' ->
  sh_destination (f h) = Some dst -> get_name m = Done (sub_name t dst).
Proof.
  intros Ht Hh Hrw Hd. unfold get_name. rewrite get_slim_header_try, Hh. simpl.
  unfold SlimHeader_get_dst. rewrite Hd, Ht. simpl.
  destruct t, t'; simpl in Hrw; try done. by destruct Hrw as (_&->&->&->).
Qed.

(** The table part of a subscription: the connection is registered for the
    name, and the rest of the handler runs in the new state. *)
Lemma process_subscription_registers s S m t t' conn h dst c :
  mp_inv s S -> traceable m -> pm_message_type m = Some t' ->
  rewritten (SlimHeader_set_incoming_conn (Some conn)) t t' ->
  try_get_slim_header m = Some (SlimHeader_set_incoming_conn (Some conn) h) ->
  sh_destination h = Some dst ->
  get_connection (mp_forwarder s) (sub_conn conn h) = Some c ->
  exists f', Forwarder_wf f'
      (S ∪ {[(op_key (sub_name t dst).1 (sub_name t dst).2, is_local_connection c, sub_conn conn h)]}) /\
    connection_table f' = connection_table (mp_forwarder s) /\
    remote_subscription_table f' = remote_subscription_table (mp_forwarder s) /\
    mp_inv (with_forwarder s f')
      (S ∪ {[(op_key (sub_name t dst).1 (sub_name t dst).2, is_local_connection c, sub_conn conn h)]}) /\
    process_subscription m conn true s =
    (match sub_forward h with
     | None => mret (Ok tt)
     | Some out_conn =>
         source_agent ← lift (get_source m);
         res ← send_msg m out_conn;
         match res with
         | Ok _ =>
             f ← gets mp_forwarder;
             _ ← set_forwarder (on_forwarded_subscription f source_agent (sub_name t dst).1
                                  (sub_name t dst).2 out_conn true);
             mret (Ok tt)
         | Err e => mret (Err (UnsubscriptionError (DataPathError_fmt e)))
         end
     end) (with_forwarder s f').
Proof.
  intros Hinv Htr Ht' Hrw Hh' Hd Hc.
  pose proof (get_name_rewritten _ m t t' h dst Ht' Hh' Hrw Hd) as Hname.
  destruct (sub_name t dst) as [ty id] eqn:Hsn. simpl.
  destruct (on_subscription_msg_add_wf (mp_forwarder s) S ty id (sub_conn conn h)
    (is_local_connection c) (mi_fw s S Hinv) (inv_on_side s S _ c Hinv Hc))
    as (f'&Hon&Hwf'&Hct&Hrem).
  exists f'. do 3 (split; [done|]). split.
  - apply (mp_inv_with_forwarder s S); [done..|]. intros ak b k.
    rewrite elem_of_union, elem_of_singleton, !pair_equal_spec.
    intros [Hin|[[-> ->] ->]]; [by eapply mi_subs|by exists c].
  - unfold process_subscription. rewrite Hname, get_slim_header_try, Hh'.
    destruct s as [f ch tok tk nx]. run_proc. rewrite in_out_connections.
    simpl in Hc, Hon |- *. rewrite Hc, Hon. done.
Qed.
End subscriptions.

Section subscribe_claims.
Context `{Hasher, HashIter, Transport, Telemetry}.
Implicit Type s : MessageProcessor.

Lemma conn_chan_with_forwarder s f k :
  connection_table f = connection_table (mp_forwarder s) ->
  conn_chan (with_forwarder s f) k = conn_chan s k.
Proof. intros Hct. unfold conn_chan, get_connection; simpl. by rewrite Hct. Qed.
Lemma queue_with_forwarder s f k :
  connection_table f = connection_table (mp_forwarder s) ->
  queue (with_forwarder s f) k = queue s k.
Proof. intros Hct. unfold queue. by rewrite conn_chan_with_forwarder. Qed.

(** A send that fails leaves the state as it is. *)
Lemma send_msg_fails s S msg k :
  mp_inv s S -> traceable msg -> queue s k = None ->
  exists e, send_msg msg k s = Done (s, Err e).
Proof.
  intros Hinv Htr Hq. destruct (get_connection (mp_forwarder s) k) as [c|] eqn:Hc.
  - destruct (mi_chan s S Hinv k c Hc) as (tx&Htx&_). destruct (sent_done msg k Htr) as (m'&Hm&_).
    rewrite (send_msg_closed s k msg m'); [by eexists| |done..].
    unfold conn_chan. rewrite Hc. simpl. by eexists.
  - rewrite send_msg_no_conn by done. by eexists.
Qed.

Lemma get_source_header m m' h h' :
  try_get_slim_header m = Some h -> try_get_slim_header m' = Some h' ->
  sh_source h' = sh_source h -> get_source m' = get_source m.
Proof.
  intros Hh Hh' Hs. unfold get_source. rewrite !get_slim_header_try, Hh, Hh'. simpl.
  unfold SlimHeader_get_source. by rewrite Hs.
Qed.
End subscribe_claims.

(** C26: A valid subscription received on [conn] registers the subscribing
    connection ([recv_from], else [conn] itself) for the name rebuilt from the
    message's strings, on the side that connection has. When it is to be
    forwarded and the output connection can be sent to, that connection gets
    one copy and the pair (source, name) is recorded for it; when it cannot,
    the handler fails, nothing is sent or recorded, but the registration
    stays. *)
Theorem subscribe_handled `{Hasher, HashIter, Transport, Telemetry}
    (s : MessageProcessor) S conn is_local msg sub h src dst c r1 r2 :
  mp_inv s S -> traceable msg ->
  pm_message_type msg = Some (Subscribe sub) -> su_header sub = Some h ->
  sh_destination h = Some dst -> get_source msg = Done src ->
  get_connection (mp_forwarder s) (sub_conn conn h) = Some c ->
  let ty := AgentType_from_strings (su_organization sub) (su_namespace sub) (su_agent_type sub) in
  let name := Agent_new ty (default DEFAULT_AGENT_ID (pa_agent_id dst)) in
  let S' := S ∪ {[(agent_key name, is_local_connection c, sub_conn conn h)]} in
  exists s' res, handle_new_message conn is_local msg r1 r2 s = Done (s', res) /\ mp_inv s' S' /\
    match sub_forward h with
    | None => res = Ok tt /\ forall k, queue s' k = queue s k
    | Some out =>
        match queue s out with
        | Some q => res = Ok tt /\ exists copy, arrived conn (Subscribe sub) copy /\
            (forall k, queue s' k = if decide (k = out) then Some (q ++ [copy]) else queue s k) /\
            forwarded (remote_subscription_table (mp_forwarder s')) out
              (info_key (mkSubscriptionInfo src name))
        | None => is_ok res = false /\ (forall k, queue s' k = queue s k) /\
            remote_subscription_table (mp_forwarder s') =
            remote_subscription_table (mp_forwarder s)
        end
    end.
Proof.
  intros Hinv Htr Ht Hsh Hd Hsrc Hc ty name S'.
  assert (Hh : try_get_slim_header msg = Some h) by (unfold try_get_slim_header; by rewrite Ht).
  destruct (entered_done conn msg (Subscribe sub) h Htr Ht Hh) as (m&t'&Hent&Htr'&Ht'&Hrw&Hh').
  rewrite (handle_new_message_valid conn is_local msg m r1 r2 s Htr Hent).
  destruct (process_subscription_registers s S m (Subscribe sub) t' conn h dst c
    Hinv Htr' Ht' Hrw Hh' Hd Hc) as (f'&Hwf'&Hct&Hrem&Hinv'&Hproc).
  assert (Hpm : process_message m conn r1 r2 s = process_subscription m conn true s).
  { unfold process_message, get_type. rewrite Ht'. destruct t'; [done| |]; by destruct Hrw. }
  unfold mbind at 1, proc_bind at 1. rewrite Hpm, Hproc.
  assert (Hsrc' : get_source m = Done src).
  { rewrite <- Hsrc. by apply (get_source_header msg m h (SlimHeader_set_incoming_conn (Some conn) h)). }
  change (op_key (sub_name (Subscribe sub) dst).1 (sub_name (Subscribe sub) dst).2)
    with (agent_key name) in *.
  destruct (sub_forward h) as [out|].
  2:{ eexists _, _. split; [done|]. split; [done|]. split; [done|].
      intros k. by apply queue_with_forwarder. }
  rewrite Hsrc'. unfold mbind at 1, proc_bind at 1, lift. cbn iota beta.
  unfold mbind at 1, panics_bind. unfold mbind at 1, proc_bind at 1.
  rewrite <- (queue_with_forwarder s f' out Hct). destruct (queue (with_forwarder s f') out) as [q|] eqn:Hq.
  - destruct (sent_done m out Htr') as (m'&Hm'&Hs').
    rewrite (send_msg_open _ out q m m' Hq Hm'). rewrite <- Hs'. run_proc.
    set (s1 := push (with_forwarder s f') out (sent m out)).
    eexists (with_forwarder s1 _), _. split; [done|].
    assert (Hinv1 : mp_inv s1 S') by (by apply mp_inv_push). split.
    { apply (mp_inv_with_forwarder s1 S'); [done| |done|].
      - destruct (mi_fw s1 S' Hinv1). split; done.
      - by apply (mi_subs s1 S'). }
    split; [done|]. exists (sent m out).
    split; [by apply (sent_arrived conn m (Subscribe sub) t')|]. split.
    + intros k. rewrite queue_with_forwarder by done. unfold s1.
      rewrite queue_push by (by apply (mi_wired _ S')). rewrite Hq, queue_with_forwarder by done. done.
    + simpl. apply forwarded_add. by left.
  - destruct (send_msg_fails (with_forwarder s f') S' m out Hinv' Htr' Hq) as [e He].
    rewrite He. run_proc. eexists _, _. split; [done|]. split; [done|]. split; [done|].
    split; [|done]. intros k. by apply queue_with_forwarder.
Qed.

(** A message that [validate] refuses changes nothing but the queue of the
    application that sent it: when the task serves a local application whose
    channel is open, exactly one error status naming the defect is put on it;
    for a remote connection nothing happens at all. *)
Theorem invalid_message_rejected `{Hasher, HashIter, Transport, Telemetry}
    (s : MessageProcessor) id task msg r1 r2 e c tx q :
  mp_tasks s !! id = Some task -> validate msg = Done (Err e) ->
  let k := tk_conn_index task in
  get_connection (mp_forwarder s) k = Some c -> cn_channel c = Server tx -> queue s k = Some q ->
  stream_event id (Received msg r1 r2) s =
  Done (if tk_is_local task
        then push s k (InternalStatus ("error processing message: " +:+
               DataPathError_debug (InvalidMessage (MessageError_fmt e))))
        else s, tt).
Proof.
  intros Ht Hv k Hc Htx Hq. unfold stream_event.
  rewrite (bind_Done _ _ _ _ _ (eq_refl : gets mp_tasks s = Done (s, _))). rewrite Ht.
  assert (Hh : handle_new_message (tk_conn_index task) (tk_is_local task) msg r1 r2 s =
    Done (s, Err (InvalidMessage (MessageError_fmt e)))).
  { unfold handle_new_message. by rewrite Hv. }
  rewrite (bind_Done _ _ _ _ _ Hh). destruct (tk_is_local task); [|done].
  by apply (send_error_push s _ c tx q).
Qed.

(** A publication that reaches a connection whose receiver is gone stops
    there: the connections before it in the matched list have their copy, those
    after it get none, the handler returns the send error, and the tables are
    unchanged. *)
Theorem publish_stops_at_closed_channel `{Hasher, HashIter, Transport, Telemetry}
    (s : MessageProcessor) S conn is_local msg p h dst r1 r2 pre k post :
  mp_inv s S -> traceable msg ->
  pm_message_type msg = Some (Publish p) -> pu_header p = Some h ->
  sh_destination h = Some dst -> sh_forward_to h = None ->
  on_publish_msg_match (mp_forwarder s) (AgentType_from_proto dst) (pa_agent_id dst) conn
    (sh_fanout h) r1 r2 = Done (Ok (pre ++ k :: post)) ->
  (forall j, j ∈ pre -> is_Some (queue s j)) ->
  is_Some (get_connection (mp_forwarder s) k) -> queue s k = None ->
  exists s' copy, handle_new_message conn is_local msg r1 r2 s =
      Done (s', Err (ProcessingError
        "error handling publish: error sending message: channel closed")) /\
    mp_forwarder s' = mp_forwarder s /\
    (forall j, arrived conn (Publish p) (copy j)) /\
    forall j, queue s' j =
      if decide (j ∈ pre) then (fun q => q ++ [copy j]) <$> queue s j else queue s j.
Proof.
  intros Hinv Htr Ht Hph Hd Hfwd Hmatch Hopen [c Hc] Hq.
  assert (Hh : try_get_slim_header msg = Some h) by (unfold try_get_slim_header; by rewrite Ht).
  destruct (entered_done conn msg (Publish p) h Htr Ht Hh) as (m&t'&Hent&Htr'&Ht'&Hrw&Hh').
  destruct t' as [| |p']; [done..|].
  rewrite (handle_new_message_valid conn is_local msg m r1 r2 s Htr Hent).
  destruct (on_publish_msg_match_sound (mp_forwarder s) S (AgentType_from_proto dst)
    (pa_agent_id dst) conn (sh_fanout h) r1 r2 (mi_fw s S Hinv)) as (res&Hm&Hres).
  rewrite Hmatch in Hm. injection Hm as <-. destruct Hres as (_&Hnd&_).
  assert (Hch : is_Some (conn_chan s k)).
  { destruct (mi_chan s S Hinv k c Hc) as (tx&Htx&_). exists tx. unfold conn_chan. by rewrite Hc. }
  pose proof (mi_wired s S Hinv) as Hw.
  exists (deliver s m pre), (sent m).
  assert (Hp : process_message m conn r1 r2 s = Done (deliver s m pre,
    Err (PublicationError "error sending message: channel closed"))).
  { rewrite (process_publish_parts m conn r1 r2 s p' _ dst Ht' Hh' Hd).
    unfold match_and_forward_msg, get_forward_to. rewrite get_slim_header_try, Hh'.
    cbn [fmap panics_fmap]. rewrite (bind_Done _ _ s s (sh_forward_to h) eq_refl). rewrite Hfwd.
    rewrite (bind_Done _ _ _ _ _ (eq_refl : gets mp_forwarder s = Done (s, _))).
    rewrite (bind_Done _ _ _ _ _ (lift_Done _ s _ Hmatch)). by apply forward_all_stops. }
  rewrite (bind_Done _ _ _ _ _ Hp). split; [done|]. split; [apply deliver_forwarder|].
  split; [intros j; by apply (sent_arrived conn m (Publish p) (Publish p'))|].
  intros j. apply queue_deliver; [done|]. by apply NoDup_app in Hnd as [? _].
Qed.

(** ** New connections *)
Section connections.
Context `{Hasher, HashIter, Transport, Telemetry}.
Implicit Type s : MessageProcessor.

(** What a step that leaves connections, channels and subscriptions alone keeps. *)
Definition same_core s s' : Prop :=
  mp_forwarder s' = mp_forwarder s /\ mp_channels s' = mp_channels s /\ (mp_next s <= mp_next s')%N.

Lemma mp_inv_core s s' S : same_core s s' -> mp_inv s S -> mp_inv s' S.
Proof.
  intros (Hf&Hc&Hn) [Hfw Hch Hw Hsub Hfr].
  split; rewrite ?Hf, ?Hc; [done|done| |done|].
  - intros k k' tx. unfold conn_chan. rewrite Hf. apply Hw.
  - intros tx Htx. specialize (Hfr tx Htx). lia.
Qed.
Lemma queue_core s s' k : same_core s s' -> queue s' k = queue s k.
Proof. intros (Hf&Hc&_). unfold queue, conn_chan. by rewrite Hf, Hc. Qed.

Lemma new_token_spec s : exists s' t, new_token s = Done (s', t) /\ same_core s s' /\
  mp_tasks s' = mp_tasks s /\ mp_tokens s' = <[t := false]> (mp_tokens s).
Proof.
  eexists _, _. split; [done|]. split; [|done]. split; [done|]. split; [done|]. simpl. lia.
Qed.

Lemma process_stream_spec k cfg tok b s :
  exists s' id, process_stream k cfg tok b s = Done (s', id) /\ same_core s s' /\
    mp_tasks s' = <[id := mkTask k cfg tok b]> (mp_tasks s) /\ mp_tokens s' = mp_tokens s.
Proof.
  eexists _, _. split; [done|]. split; [|done]. split; [done|]. split; [done|]. simpl. lia.
Qed.

(** A channel nobody uses yet. *)
Definition spare s (tx : N) : Prop :=
  mp_channels s !! tx = Some (mkChan true []) /\ forall k, conn_chan s k <> Some tx.

Lemma spare_core s s' tx : same_core s s' -> spare s tx -> spare s' tx.
Proof. intros (Hf&Hc&_) [Ha Hb]. split; [by rewrite Hc|]. intros k. unfold conn_chan. rewrite Hf. apply Hb. Qed.

Lemma new_channel_spec s S :
  mp_inv s S ->
  exists s' tx, new_channel s = Done (s', tx) /\ mp_inv s' S /\ spare s' tx /\
    mp_forwarder s' = mp_forwarder s /\ (forall k, queue s' k = queue s k) /\
    mp_tasks s' = mp_tasks s /\ mp_tokens s' = mp_tokens s /\
    (forall tx', spare s tx' -> spare s' tx').
Proof.
  intros [Hfw Hch Hw Hsub Hfr]. eexists _, (mp_next s). split; [done|].
  assert (Hnone : mp_channels s !! mp_next s = None).
  { apply eq_None_not_Some. intros Hx. apply Hfr in Hx. lia. }
  assert (Hno : forall k, conn_chan s k <> Some (mp_next s)).
  { intros k Hk. unfold conn_chan in Hk.
    destruct (get_connection (mp_forwarder s) k) as [c|] eqn:Hc; simpl in Hk; [|done].
    destruct (Hch k c Hc) as (tx&Htx&Hx). simplify_eq. apply Hfr in Hx. lia. }
  split; [split; simpl|].
  - done.
  - intros k c Hc. destruct (Hch k c Hc) as (tx&Htx&Hx). exists tx. split; [done|].
    rewrite lookup_insert_is_Some'. by right.
  - exact Hw.
  - exact Hsub.
  - intros tx. rewrite lookup_insert_is_Some'. intros [->|Hx]; [lia|]. apply Hfr in Hx. lia.
  - split; [split; simpl; [apply lookup_insert_eq|exact Hno]|].
    split; [done|]. split; [|split; [done|split; [done|]]].
    + intros k. unfold queue. simpl. change (conn_chan _ k) with (conn_chan s k).
      destruct (conn_chan s k) as [tx|] eqn:Hk; simpl; [|done].
      rewrite lookup_insert_ne; [done|]. intros <-. by apply (Hno k).
    + intros tx' [Hx Hx']. split; simpl; [|exact Hx'].
      rewrite lookup_insert_ne; [done|]. intros <-. by rewrite Hnone in Hx.
Qed.

(** Adding a connection on a spare channel, at a free index or in place of one
    of the same side. *)
Lemma mp_inv_add s S f k c tx :
  mp_inv s S -> spare s tx -> chan_of c = Some tx -> Forwarder_wf f S ->
  (forall j, get_connection f j = if decide (j = k) then Some c else get_connection (mp_forwarder s) j) ->
  (forall c0, get_connection (mp_forwarder s) k = Some c0 ->
     is_local_connection c0 = is_local_connection c) ->
  let s' := with_forwarder s f in
  mp_inv s' S /\ (forall j, queue s' j = if decide (j = k) then Some [] else queue s j).
Proof.
  intros [Hfw Hch Hw Hsub Hfr] [Htx Hspare] Hct Hf Hget Hside s'.
  assert (Hcc : forall j, conn_chan s' j = if decide (j = k) then Some tx else conn_chan s j).
  { intros j. unfold conn_chan, s'; simpl. rewrite Hget. by destruct (decide (j = k)). }
  split; [split; simpl; [done|..|done]|].
  - intros j c'. rewrite Hget. destruct (decide (j = k)) as [->|Hne]; [|apply Hch].
    intros [= <-]. exists tx. split; [done|]. by eexists.
  - intros j j' tx'. rewrite !Hcc.
    destruct (decide (j = k)) as [->|Ha]; destruct (decide (j' = k)) as [->|Hb]; [done| | |apply Hw].
    + intros [= <-] Hj'. by apply Hspare in Hj'.
    + intros Hj [= <-]. by apply Hspare in Hj.
  - intros ak b j Hs. destruct (Hsub ak b j Hs) as (c0&Hc0&Hb). rewrite Hget.
    destruct (decide (j = k)) as [->|Hne]; [|by exists c0].
    exists c. split; [done|]. rewrite <- Hb. symmetry. by apply Hside.
  - intros j. unfold queue. rewrite Hcc. simpl. destruct (decide (j = k)); simpl; [by rewrite Htx|done].
Qed.

Lemma establish_new s S c tx :
  mp_inv s S -> spare s tx -> chan_of c = Some tx ->
  exists s' k, establish c None s = Done (s', Some k) /\ mp_inv s' S /\
    get_connection (mp_forwarder s) k = None /\
    (forall j, get_connection (mp_forwarder s') j =
      if decide (j = k) then Some c else get_connection (mp_forwarder s) j) /\
    (forall j, queue s' j = if decide (j = k) then Some [] else queue s j) /\
    mp_tasks s' = mp_tasks s /\ subscription_table (mp_forwarder s') = subscription_table (mp_forwarder s).
Proof.
  intros Hinv Hsp Hc. unfold establish.
  destruct (on_connection_established_new (mp_forwarder s) S c (mi_fw s S Hinv))
    as (f'&k&Hest&Hwf'&Hfree&Hget&Hsubs&Hrem).
  destruct (mp_inv_add s S f' k c tx Hinv Hsp Hc Hwf' Hget) as [Hinv' Hq].
  { intros c0 Hc0. congruence. }
  exists (with_forwarder s f'), k. split; [|done].
  unfold mbind at 1, proc_bind at 1, gets. unfold mbind at 1, proc_bind at 1, lift.
  by rewrite Hest.
Qed.
End connections.
