(* ===== verification/DataPlane.v ===== *)
(** * The data plane as a transition system

    The steps of a running message processor: connections opened by a local
    application, by a remote peer or towards one, messages received on them,
    the end of a stream with or without reconnection. The invariant of
    [MessageProcessingProofs] holds in every reachable state; ending a
    connection removes its state; reconnecting keeps the connection's index and
    subscriptions and replays what had been forwarded on it. *)
From stdpp Require Import base list gmap strings numbers option sets.
From S2P Require Import Prelude Proto Encoder Messages Pool ConnectionTable.
From S2P Require Import RemoteSubscriptions SubscriptionTable SubscriptionTableProofs SubscriptionTableSpec Forwarder MessageProcessing.
From S2P Require Import MessageProcessingProofs.

Section entry.
Context `{Hasher, HashIter, Transport, Telemetry}.
Implicit Type s : MessageProcessor.

(** What the three ways to open a connection have in common. *)
Record opened s s' (S : Subs) (k : N) (c : Connection) (task : Task) : Prop := {
  op_inv : mp_inv s' S;
  op_free : get_connection (mp_forwarder s) k = None;
  op_conn : forall j, get_connection (mp_forwarder s') j =
    if decide (j = k) then Some c else get_connection (mp_forwarder s) j;
  op_queue : forall j, queue s' j = if decide (j = k) then Some [] else queue s j;
  op_task : exists id, mp_tasks s' = <[id := task]> (mp_tasks s);
  op_subs : subscription_table (mp_forwarder s') = subscription_table (mp_forwarder s);
}.

Lemma register_local_connection_opens s S :
  mp_inv s S ->
  exists s' k tx1 tx2 tok, register_local_connection s = Done (s', (k, tx1, tx2)) /\
    opened s s' S k (mkConnection None None (Server tx2) Local (Some tok)) (mkTask k None tok true).
Proof.
  intros Hinv. unfold register_local_connection.
  destruct (new_channel_spec s S Hinv) as (s1&tx1&Hc1&Hinv1&Hsp1&Hf1&Hq1&Ht1&_&Hk1).
  rewrite (bind_Done _ _ _ _ _ Hc1).
  destruct (new_channel_spec s1 S Hinv1) as (s2&tx2&Hc2&Hinv2&Hsp2&Hf2&Hq2&Ht2&_&_).
  rewrite (bind_Done _ _ _ _ _ Hc2).
  destruct (new_token_spec s2) as (s3&tok&Hc3&Hcore3&Ht3&_).
  rewrite (bind_Done _ _ _ _ _ Hc3). cbv zeta.
  set (c := with_cancellation_token _ _).
  destruct (establish_new s3 S c tx2 (mp_inv_core _ _ _ Hcore3 Hinv2) (spare_core _ _ _ Hcore3 Hsp2)
    eq_refl) as (s4&k&Hc4&Hinv4&Hfree&Hget&Hq4&Ht4&Hsub4).
  rewrite (bind_Done _ _ _ _ _ Hc4). cbn [unwrap]. rewrite (bind_Done _ _ _ _ k) by done.
  destruct (process_stream_spec k None tok true s4) as (s5&id&Hc5&Hcore5&Ht5&_).
  rewrite (bind_Done _ _ _ _ _ Hc5).
  exists s5, k, tx1, tx2, tok. split; [done|].
  assert (Hf3 : mp_forwarder s3 = mp_forwarder s).
  { destruct Hcore3 as (->&_&_). congruence. }
  destruct (Hcore5) as (Hf5&_&_). rewrite Hf3 in *. split.
  - by apply (mp_inv_core s4).
  - done.
  - intros j. by rewrite Hf5, Hget.
  - intros j. rewrite (queue_core s4 s5 j Hcore5), Hq4, (queue_core s2 s3 j Hcore3), Hq2, Hq1. done.
  - exists id. congruence.
  - by rewrite Hf5.
Qed.

Lemma open_channel_opens s S ra la :
  mp_inv s S ->
  exists s' k tx tok, open_channel ra la s = Done (s', tx) /\
    opened s s' S k (mkConnection ra la (Server tx) Remote None) (mkTask k None tok false).
Proof.
  intros Hinv. unfold open_channel.
  destruct (new_channel_spec s S Hinv) as (s1&tx&Hc1&Hinv1&Hsp1&Hf1&Hq1&Ht1&_&_).
  rewrite (bind_Done _ _ _ _ _ Hc1). cbv zeta. set (c := with_channel _ _).
  destruct (establish_new s1 S c tx Hinv1 Hsp1 eq_refl)
    as (s2&k&Hc2&Hinv2&Hfree&Hget&Hq2&Ht2&Hsub2).
  rewrite (bind_Done _ _ _ _ _ Hc2). cbn [unwrap]. rewrite (bind_Done _ _ _ _ k) by done.
  destruct (new_token_spec s2) as (s3&tok&Hc3&Hcore3&Ht3&_). rewrite (bind_Done _ _ _ _ _ Hc3).
  destruct (process_stream_spec k None tok false s3) as (s4&id&Hc4&Hcore4&Ht4&_).
  rewrite (bind_Done _ _ _ _ _ Hc4). exists s4, k, tx, tok. split; [done|].
  destruct (Hcore3) as (Hf3&_&_). destruct (Hcore4) as (Hf4&_&_). rewrite Hf1 in *. split.
  - apply (mp_inv_core s3); [done|]. by apply (mp_inv_core s2).
  - done.
  - intros j. by rewrite Hf4, Hf3, Hget.
  - intros j. by rewrite (queue_core s3 s4 j Hcore4), (queue_core s2 s3 j Hcore3), Hq2, Hq1.
  - exists id. congruence.
  - by rewrite Hf4, Hf3.
Qed.
End entry.

(** ** Connecting *)
Section connecting.
Context `{Hasher, HashIter, Transport, Telemetry}.
Implicit Type s : MessageProcessor.

(** The index a new remote connection may take: any free one, or that of a
    remote connection it replaces. *)
Definition index_ok s (existing : option N) : Prop :=
  match existing with
  | None => True
  | Some k => exists c, get_connection (mp_forwarder s) k = Some c /\ is_local_connection c = false
  end.

(** [c] stands at [k]; nothing else changed. *)
Record placed s s' (S : Subs) (k : N) (c : Connection) : Prop := {
  pl_inv : mp_inv s' S;
  pl_conn : forall j, get_connection (mp_forwarder s') j =
    if decide (j = k) then Some c else get_connection (mp_forwarder s) j;
  pl_queue : forall j, queue s' j = if decide (j = k) then Some [] else queue s j;
  pl_subs : subscription_table (mp_forwarder s') = subscription_table (mp_forwarder s);
  pl_remote : remote_subscription_table (mp_forwarder s') =
    remote_subscription_table (mp_forwarder s);
}.

Lemma establish_placed s S c tx existing :
  mp_inv s S -> spare s tx -> chan_of c = Some tx -> is_local_connection c = false ->
  index_ok s existing ->
  exists s' k, establish c existing s = Done (s', Some k) /\ placed s s' S k c /\
    match existing with
    | Some k0 => k = k0
    | None => get_connection (mp_forwarder s) k = None
    end /\ mp_tasks s' = mp_tasks s.
Proof.
  intros Hinv Hsp Hc Hloc Hidx.
  assert (Hest : exists f' k,
    on_connection_established (mp_forwarder s) c existing = Done (f', Some k) /\ Forwarder_wf f' S /\
    (forall j, get_connection f' j = if decide (j = k) then Some c
               else get_connection (mp_forwarder s) j) /\
    subscription_table f' = subscription_table (mp_forwarder s) /\
    remote_subscription_table f' = remote_subscription_table (mp_forwarder s) /\
    (forall c0, get_connection (mp_forwarder s) k = Some c0 -> is_local_connection c0 = false) /\
    match existing with Some k0 => k = k0 | None => get_connection (mp_forwarder s) k = None end).
  { destruct existing as [k0|].
    - destruct Hidx as (c0&Hc0&Hl0).
      destruct (on_connection_established_at (mp_forwarder s) S c k0 (mi_fw s S Hinv))
        as (f'&He&Hw&Hg&Hs&Hr); [by eexists|].
      exists f', k0. do 5 (split; [done|]). split; [|done]. intros c1 Hc1. by simplify_eq.
    - destruct (on_connection_established_new (mp_forwarder s) S c (mi_fw s S Hinv))
        as (f'&k&He&Hw&Hfree&Hg&Hs&Hr).
      exists f', k. do 5 (split; [done|]). split; [|done]. intros c1 Hc1. congruence. }
  destruct Hest as (f'&k&He&Hw&Hg&Hs&Hr&Hside&Hk).
  destruct (mp_inv_add s S f' k c tx Hinv Hsp Hc Hw Hg) as [Hinv' Hq].
  { intros c0 Hc0. rewrite Hloc. by apply Hside. }
  exists (with_forwarder s f'), k. split; [|split; [by constructor|done]].
  unfold establish. rewrite (bind_Done _ _ _ _ _ (eq_refl : gets mp_forwarder s = Done (s, _))).
  rewrite (bind_Done _ _ _ _ _ (lift_Done _ s _ He)). done.
Qed.

(** A receiver that goes away closes its channel and changes nothing else. *)
Lemma close_channel_inv s S tx :
  mp_inv s S ->
  exists s', close_channel tx s = Done (s', tt) /\ mp_inv s' S /\
    mp_forwarder s' = mp_forwarder s /\ mp_tasks s' = mp_tasks s.
Proof.
  intros [Hfw Hch Hw Hsub Hfr]. eexists. split; [done|]. split; [split; simpl|done].
  - done.
  - intros k c Hc. destruct (Hch k c Hc) as (tx'&Htx'&Hx). exists tx'. split; [done|].
    by rewrite lookup_alter_is_Some.
  - exact Hw.
  - exact Hsub.
  - intros tx'. rewrite lookup_alter_is_Some. apply Hfr.
Qed.

Lemma close_spare s S tx :
  mp_inv s S -> spare s tx ->
  exists s', close_channel tx s = Done (s', tt) /\ mp_inv s' S /\
    mp_forwarder s' = mp_forwarder s /\ (forall k, queue s' k = queue s k) /\
    mp_tasks s' = mp_tasks s.
Proof.
  intros Hinv [Htx Hno]. destruct (close_channel_inv s S tx Hinv) as (s'&Hc&Hi&Hf&Ht).
  exists s'. split; [done|]. split; [done|]. split; [done|]. split; [|done].
  injection Hc as <-. intros k. unfold queue; simpl.
  change (conn_chan _ k) with (conn_chan s k).
  destruct (conn_chan s k) as [tx'|] eqn:Hk; simpl; [|done].
  rewrite lookup_alter_ne; [done|]. intros <-. by apply (Hno k).
Qed.

(** The outcome of connecting: a success places the connection and starts its
    task, a failure changes nothing that can be seen. *)
Definition connect_outcome (cfg : option ClientConfig) (la ra : option SocketAddr)
    (existing : option N) (ok : bool) s (S : Subs)
    (r : panics (MessageProcessor * Result (N * N) DataPathError)) : Prop :=
  if ok then
    exists s' id k tx tok, r = Done (s', Ok (id, k)) /\
      placed s s' S k (mkConnection ra la (Client tx) Remote (Some tok)) /\
      match existing with
      | Some k0 => k = k0
      | None => get_connection (mp_forwarder s) k = None
      end /\ mp_tasks s' = <[id := mkTask k cfg tok false]> (mp_tasks s)
  else
    exists s', r = Done (s', Err (ConnectionError "reached max connection retries")) /\
      mp_inv s' S /\ mp_forwarder s' = mp_forwarder s /\
      (forall k, queue s' k = queue s k) /\ mp_tasks s' = mp_tasks s.

Lemma connect_outcome_from s s1 cfg la ra existing ok S r :
  mp_forwarder s1 = mp_forwarder s -> (forall k, queue s1 k = queue s k) ->
  mp_tasks s1 = mp_tasks s ->
  connect_outcome cfg la ra existing ok s1 S r -> connect_outcome cfg la ra existing ok s S r.
Proof.
  intros Hf Hq Ht. unfold connect_outcome. destruct ok.
  - intros (s'&id&k&tx&tok&Hr&[Hi Hc Hqq Hs Hrem]&Hk&Htk). exists s', id, k, tx, tok.
    rewrite Hf, Ht in *. split; [done|]. split; [|done].
    constructor; [done|done| |done|done]. intros j. by rewrite Hqq, Hq.
  - intros (s'&Hr&Hi&Hf'&Hq'&Ht'). exists s'. split; [done|]. split; [done|].
    split; [congruence|]. split; [|congruence]. intros k. by rewrite Hq', Hq.
Qed.

(** Up to [n] attempts are made; the first that succeeds decides. *)
Lemma try_to_connect_spec cfg la ra existing n : forall attempts s S,
  mp_inv s S -> index_ok s existing ->
  connect_outcome cfg la ra existing (existsb id (take n attempts)) s S
    (try_to_connect cfg la ra existing n attempts s).
Proof.
  induction n as [|n IH]; intros attempts s S Hinv Hidx; [by exists s|].
  cbn [try_to_connect].
  destruct (new_channel_spec s S Hinv) as (s1&tx&Hc1&Hinv1&Hsp1&Hf1&Hq1&Ht1&_&_).
  rewrite (bind_Done _ _ _ _ _ Hc1).
  assert (Hidx1 : index_ok s1 existing) by (unfold index_ok in *; by rewrite Hf1).
  apply (connect_outcome_from s s1); [done..|].
  destruct attempts as [|[] attempts]; cbn [take existsb tail orb id].
  1,3: destruct (close_spare s1 S tx Hinv1 Hsp1) as (s2&Hc2&Hinv2&Hf2&Hq2&Ht2);
    rewrite (bind_Done _ _ _ _ _ Hc2); apply (connect_outcome_from s1 s2); [done..|];
    (assert (Hidx2 : index_ok s2 existing) by (unfold index_ok in *; by rewrite Hf2)).
  - replace false with (existsb id (take n [])) by (by rewrite take_nil). by apply IH.
  - by apply IH.
  - destruct (new_token_spec s1) as (s2&tok&Hc2&Hcore&Ht2&_). rewrite (bind_Done _ _ _ _ _ Hc2).
    destruct (Hcore) as (Hf2&_&_). set (c := with_cancellation_token _ _).
    assert (Hidx2 : index_ok s2 existing) by (unfold index_ok in *; by rewrite Hf2).
    destruct (establish_placed s2 S c tx existing (mp_inv_core _ _ _ Hcore Hinv1)
      (spare_core _ _ _ Hcore Hsp1) eq_refl eq_refl Hidx2) as (s3&k&Hc3&Hpl&Hk&Ht3).
    rewrite (bind_Done _ _ _ _ _ Hc3).
    destruct (process_stream_spec k cfg tok false s3) as (s4&i&Hc4&Hcore4&Ht4&_).
    rewrite (bind_Done _ _ _ _ _ Hc4). exists s4, i, k, tx, tok. split; [done|].
    destruct (Hcore4) as (Hf4&_&_). destruct Hpl as [Hi Hg Hq Hs Hr]. rewrite <- Hf2.
    split; [constructor|split; [done|congruence]].
    + by apply (mp_inv_core s3).
    + intros j. by rewrite Hf4, Hg, Hf2.
    + intros j. by rewrite (queue_core s3 s4 j Hcore4), Hq, (queue_core s1 s2 j Hcore).
    + by rewrite Hf4, Hs, Hf2.
    + by rewrite Hf4, Hr, Hf2.
Qed.
End connecting.

(** ** The end of a stream *)
Section ending.
Context `{Hasher, HashIter, Transport, Telemetry}.
Implicit Type s : MessageProcessor.

(** Every running task serves a connection of the table, of the side it was
    started with, and no two serve the same one. *)
Record tasks_ok s : Prop := {
  to_conn : forall id t, mp_tasks s !! id = Some t ->
    exists c, get_connection (mp_forwarder s) (tk_conn_index t) = Some c /\
      is_local_connection c = tk_is_local t;
  to_one : forall id id' t t', mp_tasks s !! id = Some t -> mp_tasks s !! id' = Some t' ->
    tk_conn_index t = tk_conn_index t' -> id = id';
  to_config : forall id t, mp_tasks s !! id = Some t -> is_Some (tk_client_config t) ->
    tk_is_local t = false;
}.

Definition dp_inv s (S : Subs) : Prop := mp_inv s S /\ tasks_ok s.

Lemma mp_inv_no_conn s S k :
  mp_inv s S -> get_connection (mp_forwarder s) k = None -> forall ak b, (ak, b, k) ∉ S.
Proof.
  intros Hinv Hn ak b Hin. destruct (mi_subs s S Hinv ak b k Hin) as (c&Hc&_). congruence.
Qed.

Lemma mp_inv_drop s S k c b :
  mp_inv s S -> get_connection (mp_forwarder s) k = Some c -> is_local_connection c = b ->
  mp_inv (with_forwarder s (on_connection_drop (mp_forwarder s) k b)) (filter (fun e => e.2 <> k) S).
Proof.
  intros Hinv Hc <-. pose proof (inv_on_side s S k c Hinv Hc) as Hside.
  destruct Hinv as [Hfw Hch Hw Hsub Hfr].
  assert (Hget : forall j,
    get_connection (on_connection_drop (mp_forwarder s) k (is_local_connection c)) j =
    if decide (j = k) then None else get_connection (mp_forwarder s) j).
  { intros j. apply get_connection_drop. by apply (fw_conns _ S). }
  split; simpl; [by apply on_connection_drop_wf|..|done].
  - intros j c'. rewrite Hget. destruct (decide (j = k)); [done|apply Hch].
  - intros j j' tx. unfold conn_chan; simpl. rewrite !Hget.
    destruct (decide (j = k)); [done|]. destruct (decide (j' = k)); [done|]. apply Hw.
  - intros ak b j. rewrite elem_of_filter. intros [Hne Hin]. simpl in Hne.
    rewrite Hget, decide_False by done. by eapply Hsub.
Qed.

(** Ending a task without a new connection: its connection's state goes. *)
Definition dropped s (id : N) (task : Task) : MessageProcessor :=
  mkMessageProcessor
    (on_connection_drop (mp_forwarder s) (tk_conn_index task) (tk_is_local task))
    (mp_channels s) (mp_tokens s) (delete id (mp_tasks s)) (mp_next s).

Lemma dropped_inv s S id task :
  dp_inv s S -> mp_tasks s !! id = Some task ->
  dp_inv (dropped s id task) (filter (fun e => e.2 <> tk_conn_index task) S).
Proof.
  intros [Hinv [Htc Hto Hcfg]] Ht. destruct (Htc id task Ht) as (c&Hc&Hl). split.
  - eapply (mp_inv_core (with_forwarder s _)); [|by apply (mp_inv_drop s S _ c)].
    split; [done|]. split; [done|]. simpl. lia.
  - split; simpl.
    + intros id' t. rewrite lookup_delete_Some. intros [Hne Ht'].
      rewrite get_connection_drop by (by apply (fw_conns _ S), (mi_fw s S Hinv)).
      rewrite decide_False; [by apply (Htc id')|].
      intros Heq. by apply Hne, (Hto id id' task t).
    + intros i i' t t' [_ Hi]%lookup_delete_Some [_ Hi']%lookup_delete_Some. by apply (Hto i i').
    + intros i t [_ Hi]%lookup_delete_Some. by apply (Hcfg i).
Qed.

Lemma finish_stream_drops s id task retry race :
  retry = false \/ tk_client_config task = None ->
  finish_stream id task retry race s = Done (dropped s id task, tt).
Proof.
  intros Hcase. unfold finish_stream, dropped. destruct s as [f ch tok tk nx]. run_proc.
  assert (Hif : retry && bool_decide (is_Some (tk_client_config task)) = false).
  { destruct Hcase as [->|Hn]; [done|]. rewrite Hn. by destruct retry. }
  by rewrite Hif.
Qed.
End ending.

(** When the stream of a connection ends, is drained or is cancelled, and
    there is no client configuration to reconnect with (or reconnecting is not
    wanted), the task ends and the connection's state goes with it: the
    connection, its subscriptions and what was recorded as forwarded on it; the
    other connections and their queues are as before. *)
Theorem stream_end_drops `{Hasher, HashIter, Transport, Telemetry}
    (s : MessageProcessor) S id task ev :
  dp_inv s S -> mp_tasks s !! id = Some task ->
  (ev = Drained \/ ev = Cancelled \/
   (tk_client_config task = None /\ exists race, ev = ReceiveError race \/ ev = EndOfStream race)) ->
  exists s', stream_event id ev s = Done (s', tt) /\
    dp_inv s' (filter (fun e => e.2 <> tk_conn_index task) S) /\
    mp_tasks s' = delete id (mp_tasks s) /\
    get_connection (mp_forwarder s') (tk_conn_index task) = None /\
    (forall k, k <> tk_conn_index task ->
      get_connection (mp_forwarder s') k = get_connection (mp_forwarder s) k /\ queue s' k = queue s k) /\
    forall k, ~ forwarded (remote_subscription_table (mp_forwarder s')) (tk_conn_index task) k.
Proof.
  intros Hinv Ht Hev. exists (dropped s id task).
  assert (Hrun : stream_event id ev s = Done (dropped s id task, tt)).
  { unfold stream_event. rewrite (bind_Done _ _ _ _ _ (eq_refl : gets mp_tasks s = Done (s, _))).
    rewrite Ht. destruct Hev as [->|[->|(Hc&race&[->| ->])]]; apply finish_stream_drops; auto. }
  pose proof (fw_conns _ S (mi_fw s S (proj1 Hinv))) as Hwf.
  split; [done|]. split; [by apply dropped_inv|]. split; [done|].
  split; [simpl; by rewrite get_connection_drop, decide_True|]. split.
  - intros k Hne. assert (Hg : get_connection (mp_forwarder (dropped s id task)) k =
      get_connection (mp_forwarder s) k) by (simpl; by rewrite get_connection_drop, decide_False).
    split; [done|]. unfold queue, conn_chan. by rewrite Hg.
  - intros k. unfold forwarded. simpl. rewrite get_subscriptions_default.
    unfold Remote_remove_connection. rewrite lookup_delete_eq. simpl. rewrite lookup_empty. by intros [? ?].
Qed.

(** ** Reconnecting *)
Section reconnecting.
Context `{Hasher, HashIter, Transport, Telemetry}.
Implicit Type s : MessageProcessor.

(** A recorded pair that can be sent again: its name has the original strings
    and its source an id that is written to the wire. *)
Definition replayable (r : SubscriptionInfo) : Prop :=
  (exists o n t, ag_agent_type (si_name r) = AgentType_from_strings o n t) /\
  ag_agent_id (si_source r) <> DEFAULT_AGENT_ID.

(** The item subscribes for the name of [r] on behalf of its source. *)
Definition replays (r : SubscriptionInfo) (i : Item) : Prop :=
  exists m src, i = Delivered m /\ is_subscribe m = Done true /\
    get_name m = Done (ag_agent_type (si_name r), agent_id_option (si_name r)) /\
    get_source m = Done src /\ Agent_eq (si_source r) src = true.

Lemma replay_message r k :
  replayable r ->
  exists m m', new_subscribe (si_source r) (ag_agent_type (si_name r))
      (agent_id_option (si_name r)) None = Done m /\
    outgoing m k = Done m' /\ replays r (Delivered m').
Proof.
  intros [(o&n&t&Hty) Hid]. unfold replays. rewrite Hty.
  set (src := mkAgent (AgentType_from_proto (ProtoAgent_from_agent (si_source r)))
                (ag_agent_id (si_source r))).
  assert (Hpa : Agent_from_proto (ProtoAgent_from_agent (si_source r)) = Done src).
  { unfold src, Agent_from_proto, ProtoAgent_from_agent. by rewrite decide_False. }
  set (m := ProtoMessage_new ∅ (Subscribe (mkProtoSubscribe
    (Some (SlimHeader_new (si_source r) (AgentType_from_strings o n t)
             (agent_id_option (si_name r)) None)) o n t))).
  exists m.
  assert (Htr : traceable m).
  { split; [|intros _; exists src; exact Hpa].
    eexists _, _, _. split; [done|]. split; [done|]. by split. }
  destruct (outgoing_done m k _ Htr eq_refl) as (m'&t'&Hout&Ht'&Hrw).
  exists m'. split; [done|]. split; [done|]. exists m', src. split; [done|].
  destruct t' as [x| |]; [|done..]. destruct Hrw as (Hx&Ho&Hn&Ht).
  simpl in Hx, Ho, Hn, Ht.
  assert (Hh : try_get_slim_header m' = su_header x) by (unfold try_get_slim_header; by rewrite Ht').
  split; [unfold is_subscribe, get_type; by rewrite Ht'|].
  split; [unfold get_name; rewrite get_slim_header_try, Hh, Hx; simpl; rewrite Ht'; by rewrite Ho, Hn, Ht|].
  split; [unfold get_source; rewrite get_slim_header_try, Hh, Hx; exact Hpa|].
  by apply Agent_eq_key.
Qed.

Lemma restore_subscriptions_spec S k infos : forall s q,
  mp_inv s S -> Forall replayable infos -> queue s k = Some q ->
  exists s' items, restore_subscriptions infos k s = Done (s', tt) /\ mp_inv s' S /\
    Forall2 replays infos items /\ queue s' k = Some (q ++ items) /\
    (forall j, j <> k -> queue s' j = queue s j) /\
    mp_forwarder s' = mp_forwarder s /\ mp_tasks s' = mp_tasks s.
Proof.
  induction infos as [|r infos IH]; intros s q Hinv Hall Hq.
  { exists s, []. rewrite app_nil_r. split; [done|]. split; [done|]. split; [constructor|done]. }
  apply Forall_cons in Hall as [Hr Hall].
  destruct (replay_message r k Hr) as (m&m'&Hm&Hout&Hrep). cbn [restore_subscriptions].
  rewrite (bind_Done _ _ _ _ _ (lift_Done _ s _ Hm)).
  rewrite (bind_Done _ _ _ _ _ (send_msg_open s k q m m' Hq Hout)).
  set (s1 := push s k (Delivered m')). pose proof (mi_wired s S Hinv) as Hw.
  destruct (IH s1 (q ++ [Delivered m'])) as (s'&items&Hrun&Hinv'&Hf2&Hq'&Hother&Hf&Ht).
  { by apply mp_inv_push. }
  { done. }
  { unfold s1. rewrite queue_push, decide_True, Hq by done. done. }
  exists s', (Delivered m' :: items). split; [done|]. split; [done|]. split; [by constructor|].
  split; [by rewrite Hq', <- app_assoc|]. split; [|split].
  - intros j Hj. rewrite Hother by done. unfold s1. by rewrite queue_push, decide_False.
  - rewrite Hf. apply push_forwarder.
  - rewrite Ht. apply push_rest.
Qed.

Lemma reconnect_spec s S k c cfg attempts :
  mp_inv s S -> get_connection (mp_forwarder s) k = Some c -> is_local_connection c = false ->
  to_channel cfg = true ->
  (forall i r, get_subscriptions_forwarded_on_connection (mp_forwarder s) k !! i = Some r ->
     replayable r) ->
  if existsb id (take 120 attempts) then
    exists s' tid tx tok items, reconnect (Some cfg) k (Connecting attempts) s = Done (s', true) /\
      mp_inv s' S /\
      (forall j, get_connection (mp_forwarder s') j =
         if decide (j = k) then Some (mkConnection None None (Client tx) Remote (Some tok))
         else get_connection (mp_forwarder s) j) /\
      subscription_table (mp_forwarder s') = subscription_table (mp_forwarder s) /\
      remote_subscription_table (mp_forwarder s') = remote_subscription_table (mp_forwarder s) /\
      queue s' k = Some items /\
      Forall2 replays
        (hash_iter (get_subscriptions_forwarded_on_connection (mp_forwarder s) k)).*2 items /\
      (forall j, j <> k -> queue s' j = queue s j) /\
      mp_tasks s' = <[tid := mkTask k (Some cfg) tok false]> (mp_tasks s)
  else
    exists s', reconnect (Some cfg) k (Connecting attempts) s = Done (s', false) /\
      mp_inv s' S /\ mp_forwarder s' = mp_forwarder s /\
      (forall j, queue s' j = queue s j) /\ mp_tasks s' = mp_tasks s.
Proof.
  intros Hinv Hc Hl Hcfg Hall.
  pose proof (try_to_connect_spec (Some cfg) None None (Some k) 120 attempts s S Hinv) as Hspec.
  unfold connect_outcome in Hspec. specialize (Hspec ltac:(by exists c)).
  assert (Hrun : reconnect (Some cfg) k (Connecting attempts) s =
    (res ← try_to_connect (Some cfg) None None (Some k) 120 attempts;
     match res with
     | Ok _ =>
         _ ← restore_subscriptions
               (hash_iter (get_subscriptions_forwarded_on_connection (mp_forwarder s) k)).*2 k;
         mret true
     | Err _ => mret false
     end) s).
  { unfold reconnect. cbn [unwrap]. rewrite (bind_Done _ _ _ _ cfg) by done. rewrite Hcfg.
    rewrite (bind_Done _ _ _ _ _ (eq_refl : gets mp_forwarder s = Done (s, _))).
    cbv beta zeta iota. reflexivity. }
  rewrite Hrun. destruct (existsb id (take 120 attempts)).
  - destruct Hspec as (s1&tid&k'&tx&tok&Htry&[Hi Hg Hq Hsub Hrem]&->&Ht).
    rewrite (bind_Done _ _ _ _ _ Htry). specialize (Hq k) as Hqk. rewrite decide_True in Hqk by done.
    destruct (restore_subscriptions_spec S k
      (hash_iter (get_subscriptions_forwarded_on_connection (mp_forwarder s) k)).*2 s1 [] Hi)
      as (s'&items&Hres&Hi'&Hf2&Hq'&Hother&Hf&Ht'); [|done|].
    { apply list.Forall_forall. intros r Hr. apply list_elem_of_fmap in Hr as ([i r']&->&Hr).
      apply hash_iter_elem in Hr. by eapply Hall. }
    rewrite (bind_Done _ _ _ _ _ Hres). exists s', tid, tx, tok, items. rewrite Hf, Ht'.
    do 6 (split; [done|]). split; [done|]. split; [|done].
    intros j Hj. by rewrite Hother, Hq, decide_False.
  - destruct Hspec as (s1&Htry&Hi&Hf&Hq&Ht). rewrite (bind_Done _ _ _ _ _ Htry). exists s1.
    split; [reflexivity|]. exact (conj Hi (conj Hf (conj Hq Ht))).
Qed.
End reconnecting.

Section reconnect_inv.
Context `{Hasher, HashIter, Transport, Telemetry}.
Implicit Type s : MessageProcessor.

Definition without_task s (id : N) : MessageProcessor :=
  mkMessageProcessor (mp_forwarder s) (mp_channels s) (mp_tokens s) (delete id (mp_tasks s)) (mp_next s).

Lemma without_task_core s id : same_core s (without_task s id).
Proof. split; [done|]. split; [done|]. simpl. lia. Qed.

Lemma finish_stream_reconnects s id task cfg race s' connected :
  tk_client_config task = Some cfg ->
  reconnect (Some cfg) (tk_conn_index task) race (without_task s id) = Done (s', connected) ->
  finish_stream id task true race s =
  Done (if (connected : bool) then s'
        else with_forwarder s' (on_connection_drop (mp_forwarder s') (tk_conn_index task) (tk_is_local task)),
        tt).
Proof.
  intros Hcfg Hrec. unfold finish_stream.
  rewrite (bind_Done _ _ _ _ _ (eq_refl : gets mp_tasks s = Done (s, _))).
  rewrite (bind_Done _ _ _ _ _ (eq_refl : set_tasks _ s = Done (without_task s id, tt))).
  rewrite Hcfg. cbn [andb]. rewrite bool_decide_true by (by eexists).
  rewrite (bind_Done _ _ _ _ _ Hrec). by destruct connected.
Qed.

(** The other tasks, when one is gone or replaced by one for the same
    connection. *)
Lemma tasks_ok_replace s s' S id task tid cfg tok c :
  dp_inv s S -> mp_tasks s !! id = Some task -> is_Some (tk_client_config task) ->
  is_local_connection c = false ->
  (forall j, get_connection (mp_forwarder s') j =
     if decide (j = tk_conn_index task) then Some c else get_connection (mp_forwarder s) j) ->
  mp_tasks s' = <[tid := mkTask (tk_conn_index task) cfg tok false]> (delete id (mp_tasks s)) ->
  tasks_ok s'.
Proof.
  intros [_ [Htc Hto Hcf]] Ht Hsome Hl Hg Htasks.
  assert (Hother : forall i t, delete id (mp_tasks s) !! i = Some t ->
    mp_tasks s !! i = Some t /\ tk_conn_index t <> tk_conn_index task).
  { intros i t [Hne Hi]%lookup_delete_Some. split; [done|]. intros Heq.
    apply Hne. symmetry. by apply (Hto i id t task). }
  split; rewrite Htasks.
  - intros i t. rewrite lookup_insert_Some. intros [[<- <-]|[Hne Hi]]; simpl.
    + exists c. by rewrite Hg, decide_True.
    + apply Hother in Hi as [Hi Hne']. rewrite Hg, decide_False by done. by apply (Htc i).
  - intros i i' t t'. rewrite !lookup_insert_Some.
    intros [[<- <-]|[Hne Hi]] [[<- <-]|[Hne' Hi']]; simpl; intros Heq; [done|..].
    + apply Hother in Hi' as [_ Hd]. congruence.
    + apply Hother in Hi as [_ Hd]. congruence.
    + apply Hother in Hi as [Hi _], Hi' as [Hi' _]. by apply (Hto i i' t t').
  - intros i t. rewrite lookup_insert_Some. intros [[<- <-]|[Hne Hi]]; [done|].
    apply Hother in Hi as [Hi _]. by apply (Hcf i).
Qed.
End reconnect_inv.

(** C21: When the stream of a connection this side opened is lost, the
    processor tries up to 120 times to reconnect. If one attempt succeeds, the
    connection comes back under its index with a new channel, the subscription
    table is untouched, and every pair recorded as forwarded on the connection
    is sent again exactly once, as a subscription with the recorded name and
    source; the invariant holds with the same subscriptions. If none does, the
    connection is dropped with its subscriptions. *)
Theorem reconnect_restores `{Hasher, HashIter, Transport, Telemetry}
    (s : MessageProcessor) S id task cfg attempts :
  dp_inv s S -> mp_tasks s !! id = Some task -> tk_client_config task = Some cfg ->
  to_channel cfg = true ->
  let k := tk_conn_index task in
  let infos := get_subscriptions_forwarded_on_connection (mp_forwarder s) k in
  (forall i r, infos !! i = Some r -> replayable r) ->
  exists s', stream_event id (EndOfStream (Connecting attempts)) s = Done (s', tt) /\
    if existsb Datatypes.id (take 120 attempts) then
      dp_inv s' S /\
      subscription_table (mp_forwarder s') = subscription_table (mp_forwarder s) /\
      is_Some (get_connection (mp_forwarder s') k) /\
      (exists items, queue s' k = Some items /\ Forall2 replays (hash_iter infos).*2 items) /\
      forall j, j <> k -> queue s' j = queue s j
    else
      dp_inv s' (filter (fun e => e.2 <> k) S) /\ get_connection (mp_forwarder s') k = None.
Proof.
  intros Hinv Ht Hcfg Hch k infos Hall. destruct (Hinv) as [Hmp [Htc Hto Hcf]].
  destruct (Htc id task Ht) as (c&Hc&Hl).
  assert (Hlocal : tk_is_local task = false) by (apply (Hcf id); [done|by rewrite Hcfg]).
  assert (Hmp0 : mp_inv (without_task s id) S) by (by apply (mp_inv_core s), Hmp; apply without_task_core).
  pose proof (reconnect_spec (without_task s id) S k c cfg attempts Hmp0 Hc
    ltac:(congruence) Hch Hall) as Hrec.
  assert (Hev : stream_event id (EndOfStream (Connecting attempts)) s =
    finish_stream id task true (Connecting attempts) s).
  { unfold stream_event. rewrite (bind_Done _ _ _ _ _ (eq_refl : gets mp_tasks s = Done (s, _))).
    by rewrite Ht. }
  rewrite Hev. destruct (existsb Datatypes.id (take 120 attempts)).
  - destruct Hrec as (s'&tid&tx&tok&items&Hr&Hmp'&Hg&Hsub&Hrem&Hq&Hf2&Hother&Htk).
    exists s'. rewrite (finish_stream_reconnects s id task cfg _ s' true Hcfg Hr). split; [done|].
    split; [split; [done|]|].
    { eapply (tasks_ok_replace s s' S id task); [done|done|by rewrite Hcfg| |exact Hg|exact Htk]. done. }
    split; [done|]. split; [rewrite Hg, decide_True by done; by eexists|].
    split; [by exists items|]. done.
  - destruct Hrec as (s'&Hr&Hmp'&Hf&Hq&Htk).
    eexists. rewrite (finish_stream_reconnects s id task cfg _ s' false Hcfg Hr). split; [done|].
    assert (Hc' : get_connection (mp_forwarder s') k = Some c) by (by rewrite Hf).
    split; [split|].
    + apply (mp_inv_drop s' S k c); [done|done|congruence].
    + destruct (dropped_inv s S id task Hinv Ht) as [_ [Ha Hb Hd]].
      split; simpl; rewrite Htk; [|exact Hb|exact Hd]. rewrite Hf. exact Ha.
    + simpl. rewrite get_connection_drop by (by apply (fw_conns _ S), (mi_fw s' S)).
      by rewrite decide_True.
Qed.

(** ** Every step keeps the invariant *)
Section steps.
Context `{Hasher, HashIter, Transport, Telemetry}.
Implicit Type s : MessageProcessor.

(** What the handlers of messages leave alone. *)
Definition same_conns s s' : Prop :=
  connection_table (mp_forwarder s') = connection_table (mp_forwarder s) /\ mp_tasks s' = mp_tasks s.

Lemma tasks_ok_same s s' : same_conns s s' -> tasks_ok s -> tasks_ok s'.
Proof.
  intros [Hc Ht] [Htc Hto Hcf]. split; rewrite Ht; [|done..].
  intros id t Hi. unfold get_connection. rewrite Hc. by apply (Htc id).
Qed.

Lemma send_msg_total s S msg k :
  mp_inv s S -> traceable msg ->
  exists s' res, send_msg msg k s = Done (s', res) /\ mp_inv s' S /\
    mp_forwarder s' = mp_forwarder s /\ mp_tasks s' = mp_tasks s.
Proof.
  intros Hinv Htr. destruct (queue s k) as [q|] eqn:Hq.
  - destruct (sent_done msg k Htr) as (m'&Hm&_). rewrite (send_msg_open s k q msg m' Hq Hm).
    eexists _, _. split; [done|]. split; [by apply mp_inv_push|].
    split; [apply push_forwarder|apply push_rest].
  - destruct (send_msg_fails s S msg k Hinv Htr Hq) as [e ->]. by eexists _, _.
Qed.

Lemma forward_all_total S msg out : forall s,
  mp_inv s S -> traceable msg -> out <> [] ->
  exists s' res, forward_all msg out s = Done (s', res) /\ mp_inv s' S /\
    mp_forwarder s' = mp_forwarder s /\ mp_tasks s' = mp_tasks s.
Proof.
  induction out as [|k out IH]; intros s Hinv Htr Hne; [done|]. cbn [forward_all].
  destruct (send_msg_total s S msg k Hinv Htr) as (s1&res&Hs1&Hinv1&Hf1&Ht1).
  rewrite (bind_Done _ _ _ _ _ Hs1). destruct res as [u|e]; [|by eexists _, _].
  destruct out as [|k' out]; [by eexists _, _|].
  destruct (IH s1 Hinv1 Htr) as (s2&res&Hs2&Hinv2&Hf2&Ht2); [done|].
  rewrite Hs2. eexists _, _. split; [done|]. split; [done|]. split; congruence.
Qed.

Lemma publish_total s S m conn r1 r2 p h dst :
  mp_inv s S -> traceable m -> pm_message_type m = Some (Publish p) ->
  try_get_slim_header m = Some h -> sh_destination h = Some dst ->
  exists s' res, process_message m conn r1 r2 s = Done (s', res) /\ mp_inv s' S /\
    mp_forwarder s' = mp_forwarder s /\ mp_tasks s' = mp_tasks s.
Proof.
  intros Hinv Htr Ht Hh Hd. rewrite (process_publish_parts m conn r1 r2 s p h dst Ht Hh Hd).
  unfold match_and_forward_msg, get_forward_to. rewrite get_slim_header_try, Hh.
  cbn [fmap panics_fmap]. rewrite (bind_Done _ _ s s (sh_forward_to h) eq_refl).
  destruct (sh_forward_to h) as [val|].
  - destruct (send_msg_total s S m val Hinv Htr) as (s1&res&Hs1&Hinv1&Hf1&Ht1).
    rewrite (bind_Done _ _ _ _ _ Hs1). by eexists _, _.
  - rewrite (bind_Done _ _ _ _ _ (eq_refl : gets mp_forwarder s = Done (s, _))).
    destruct (on_publish_msg_match_sound (mp_forwarder s) S (AgentType_from_proto dst)
      (pa_agent_id dst) conn (sh_fanout h) r1 r2 (mi_fw s S Hinv)) as (res&Hm&Hres).
    rewrite (bind_Done _ _ _ _ _ (lift_Done _ s _ Hm)). destruct res as [out|e]; [|by eexists _, _].
    apply forward_all_total; [done|done|by destruct Hres].
Qed.

(** The operation on the subscription table a message asks for. *)
Definition sub_op_of (add : bool) (name : AgentType * option N) (k : N) (b : bool) : sub_op :=
  if add then OpSubscribe name.1 name.2 k b else OpUnsubscribe name.1 name.2 k b.

Lemma on_subscription_msg_total (f : Forwarder Connection) S name k b add :
  Forwarder_wf f S -> op_ok S (sub_op_of add name k b) ->
  exists f' res, on_subscription_msg f name.1 name.2 k b add = Done (f', res) /\
    Forwarder_wf f' (spec_op S (sub_op_of add name k b)).1 /\
    connection_table f' = connection_table f.
Proof.
  intros [Hs Hp Hc] Hok.
  destruct (run_op_refines _ S (sub_op_of add name k b) Hs Hok) as (t'&Hrun&Hrep).
  unfold on_subscription_msg, sub_op_of in *. destruct add; simpl in Hrun.
  - rewrite Hrun. simpl. eexists _, _. split; [done|]. by split.
  - injection Hrun as Hrun. rewrite Hrun. simpl. eexists _, _. split; [done|]. by split.
Qed.

Lemma spec_op_subs S add name k b ak b' j :
  (ak, b', j) ∈ (spec_op S (sub_op_of add name k b)).1 -> (ak, b', j) ∈ S \/ (j = k /\ b' = b).
Proof.
  destruct add; simpl; [rewrite elem_of_union, elem_of_singleton, !pair_equal_spec|
    rewrite elem_of_difference]; tauto.
Qed.

Lemma subscription_total s S m conn add t t' h dst src :
  mp_inv s S -> traceable m -> pm_message_type m = Some t' ->
  rewritten (SlimHeader_set_incoming_conn (Some conn)) t t' ->
  try_get_slim_header m = Some (SlimHeader_set_incoming_conn (Some conn) h) ->
  sh_destination h = Some dst -> get_source m = Done src ->
  (forall c, get_connection (mp_forwarder s) (sub_conn conn h) = Some c ->
    op_ok S (sub_op_of add (sub_name t dst) (sub_conn conn h) (is_local_connection c))) ->
  exists s' res S', process_subscription m conn add s = Done (s', res) /\ mp_inv s' S' /\
    same_conns s s'.
Proof.
  intros Hinv Htr Ht' Hrw Hh' Hd Hsrc Hok. unfold process_subscription.
  pose proof (get_name_rewritten _ m t t' h dst Ht' Hh' Hrw Hd) as Hname.
  rewrite (bind_Done _ _ _ _ _ (lift_Done _ s _ Hname)).
  destruct (sub_name t dst) as [ty id] eqn:Hsn. cbv beta iota.
  rewrite (bind_Done _ _ s s (SlimHeader_set_incoming_conn (Some conn) h))
    by (apply lift_Done; by rewrite get_slim_header_try, Hh').
  rewrite (bind_Done _ _ _ _ _ (lift_Done _ s _ (in_out_connections conn h))). cbv beta iota.
  rewrite (bind_Done _ _ _ _ _ (eq_refl : gets mp_forwarder s = Done (s, _))).
  destruct (get_connection (mp_forwarder s) (sub_conn conn h)) as [c|] eqn:Hc;
    [|eexists _, _, S; split; [done|]; by split].
  destruct (on_subscription_msg_total (mp_forwarder s) S (ty, id) (sub_conn conn h)
    (is_local_connection c) add (mi_fw s S Hinv) (Hok c eq_refl)) as (f'&res&Hon&Hwf'&Hct).
  cbn [fst snd] in Hon. rewrite (bind_Done _ _ _ _ _ (lift_Done _ s _ Hon)). cbv beta iota.
  rewrite (bind_Done _ _ _ _ _ (eq_refl : set_forwarder f' s = Done (with_forwarder s f', tt))).
  set (S' := (spec_op S (sub_op_of add (ty, id) (sub_conn conn h) (is_local_connection c))).1) in *.
  assert (Hinv' : mp_inv (with_forwarder s f') S').
  { apply (mp_inv_with_forwarder s S); [done..|]. intros ak b j [Hin|[-> ->]]%spec_op_subs.
    - by eapply mi_subs.
    - by exists c. }
  destruct res as [u|e]; [|eexists _, _, S'; split; [done|]; by split].
  destruct (sub_forward h) as [out|]; [|eexists _, _, S'; split; [done|]; by split].
  rewrite (bind_Done _ _ _ _ _ (lift_Done _ _ _ Hsrc)).
  destruct (send_msg_total _ S' m out Hinv' Htr) as (s2&res&Hs2&Hinv2&Hf2&Ht2).
  rewrite (bind_Done _ _ _ _ _ Hs2).
  assert (Hct2 : connection_table (mp_forwarder s2) = connection_table (mp_forwarder s)) by (by rewrite Hf2).
  destruct res as [u'|e]; [|eexists _, _, S'; split; [done|]; by split].
  rewrite (bind_Done _ _ _ _ _ (eq_refl : gets mp_forwarder s2 = Done (s2, _))).
  eexists (with_forwarder s2 _), _, S'. split; [done|]. split; [|done].
  apply (mp_inv_with_forwarder s2 S'); [done| |done|by apply (mi_subs s2 S')].
  destruct (mi_fw s2 S' Hinv2). by split.
Qed.
End steps.

Section reachability.
Context `{Hasher, HashIter, Transport, Telemetry}.
Implicit Type s : MessageProcessor.

Lemma send_error_total s S k e :
  mp_inv s S ->
  exists s', send_error_to_local_app k e s = Done (s', tt) /\ mp_inv s' S /\ same_conns s s'.
Proof.
  intros Hinv. destruct (get_connection (mp_forwarder s) k) as [c|] eqn:Hc.
  - destruct (cn_channel c) as [tx|tx|] eqn:Htx; [destruct (queue s k) as [q|] eqn:Hq|..].
    + rewrite (send_error_push s k c tx q e Hc Htx Hq). eexists. split; [done|].
      split; [by apply mp_inv_push|]. unfold same_conns. rewrite push_forwarder. split; [done|apply push_rest].
    + assert (Hch : forall q, mp_channels s !! tx <> Some (mkChan true q)).
      { intros q Hch. assert (Hqq : queue s k = Some q); [|congruence].
        apply queue_Some. exists tx. split; [|done]. unfold conn_chan. rewrite Hc. simpl.
        unfold chan_of. by rewrite Htx. }
      exists s. split; [|by split]. unfold send_error_to_local_app, send.
      destruct s as [f ch tok tk nx]. simpl in Hc, Hch. run_proc. rewrite Hc, Htx.
      destruct (ch !! tx) as [[[] q]|] eqn:E; [by destruct (Hch q)|done..].
    + exists s. split; [|by split]. unfold send_error_to_local_app. run_proc.
      fold (mp_forwarder s). by rewrite Hc, Htx.
    + exists s. split; [|by split]. unfold send_error_to_local_app. run_proc.
      fold (mp_forwarder s). by rewrite Hc, Htx.
  - exists s. split; [|by split]. unfold send_error_to_local_app. run_proc.
    fold (mp_forwarder s). by rewrite Hc.
Qed.

(** What is asked of the environment: a message that [validate] accepts has a
    source with an id, an unsubscription is for a subscription that exists (or
    a type the connection did not subscribe for), and what was forwarded on a
    lost connection can be replayed. *)
Definition event_ok s (S : Subs) (task : Task) (ev : StreamEvent) : Prop :=
  match ev with
  | Received msg _ _ =>
      valid_message msg ->
      (exists src, get_source msg = Done src) /\
      forall u h dst c, pm_message_type msg = Some (Unsubscribe u) -> un_header u = Some h ->
        sh_destination h = Some dst ->
        get_connection (mp_forwarder s) (sub_conn (tk_conn_index task) h) = Some c ->
        op_ok S (OpUnsubscribe (AgentType_from_proto dst) (pa_agent_id dst)
                   (sub_conn (tk_conn_index task) h) (is_local_connection c))
  | ReceiveError _ | EndOfStream _ =>
      forall i r, get_subscriptions_forwarded_on_connection (mp_forwarder s) (tk_conn_index task) !! i
        = Some r -> replayable r
  | Drained | Cancelled => True
  end.

Lemma handle_total s S task msg r1 r2 :
  dp_inv s S -> event_ok s S task (Received msg r1 r2) ->
  exists s' res S', handle_new_message (tk_conn_index task) (tk_is_local task) msg r1 r2 s =
      Done (s', res) /\ mp_inv s' S' /\ same_conns s s'.
Proof.
  intros [Hinv _] Hev. destruct (validate_iff msg) as (r&Hr&Hiff).
  destruct r as [[]|e].
  2:{ eexists s, _, S. split; [|by split]. unfold handle_new_message. by rewrite Hr. }
  pose proof (proj1 Hiff eq_refl) as Hv. destruct (Hev Hv) as [[src Hsrc] Hun].
  assert (Htr : traceable msg) by (split; [done|intros _; by exists src]).
  destruct Hv as (h&sp&dst&Hh&Hs&Hd&Hty). destruct (pm_message_type msg) as [t|] eqn:Ht; [|done].
  set (conn := tk_conn_index task) in *.
  destruct (entered_done conn msg t h Htr Ht Hh) as (m&t'&Hent&Htr'&Ht'&Hrw&Hh').
  rewrite (handle_new_message_valid conn _ msg m r1 r2 s Htr Hent).
  assert (Hsrc' : get_source m = Done src).
  { rewrite <- Hsrc. by apply (get_source_header msg m h (SlimHeader_set_incoming_conn (Some conn) h)). }
  assert (Hproc : exists s' res S', process_message m conn r1 r2 s = Done (s', res) /\
    mp_inv s' S' /\ same_conns s s').
  { destruct t as [x|x|x], t' as [y|y|y]; try done.
    - unfold process_message, get_type. rewrite Ht'.
      apply (subscription_total s S m conn true (Subscribe x) (Subscribe y) h dst src); try done.
      intros c Hc. simpl. by apply (inv_on_side s S).
    - unfold process_message, get_type. rewrite Ht'.
      apply (subscription_total s S m conn false (Unsubscribe x) (Unsubscribe y) h dst src); try done.
      intros c Hc. apply (Hun x h dst c); try done.
      unfold try_get_slim_header in Hh. by rewrite Ht in Hh.
    - destruct (publish_total s S m conn r1 r2 y _ dst Hinv Htr' Ht' Hh' Hd) as (s'&res&Hp&Hi&Hf&Htk).
      exists s', res, S. split; [done|]. split; [done|]. split; [by rewrite Hf|done]. }
  destruct Hproc as (s'&res&S'&Hp&Hi&Hsame). rewrite (bind_Done _ _ _ _ _ Hp). by eexists _, _, _.
Qed.

Lemma finish_total s S id task race :
  dp_inv s S -> mp_tasks s !! id = Some task ->
  (forall i r, get_subscriptions_forwarded_on_connection (mp_forwarder s) (tk_conn_index task) !! i
     = Some r -> replayable r) ->
  exists s' S', finish_stream id task true race s = Done (s', tt) /\ dp_inv s' S'.
Proof.
  intros Hinv Ht Hall. destruct (tk_client_config task) as [cfg|] eqn:Hcfg.
  2:{ rewrite finish_stream_drops by (by right). eexists _, _. split; [done|]. by apply dropped_inv. }
  destruct (Hinv) as [Hmp [Htc Hto Hcf]]. destruct (Htc id task Ht) as (c&Hc&Hl).
  assert (Hlocal : tk_is_local task = false) by (apply (Hcf id); [done|by rewrite Hcfg]).
  assert (Hmp0 : mp_inv (without_task s id) S) by (by apply (mp_inv_core s), Hmp; apply without_task_core).
  assert (Hfail : reconnect (Some cfg) (tk_conn_index task) race (without_task s id) =
      Done (without_task s id, false) ->
    exists s' S', finish_stream id task true race s = Done (s', tt) /\ dp_inv s' S').
  { intros Hr. rewrite (finish_stream_reconnects s id task cfg _ _ false Hcfg Hr).
    eexists _, _. split; [done|]. by apply (dropped_inv s S id task). }
  destruct (to_channel cfg) eqn:Hch.
  2:{ apply Hfail. unfold reconnect. rewrite (bind_Done _ _ _ _ cfg) by done. by rewrite Hch. }
  destruct race as [| |attempts];
    [apply Hfail; unfold reconnect; rewrite (bind_Done _ _ _ _ cfg) by done; by rewrite Hch..|].
  pose proof (reconnect_spec (without_task s id) S _ c cfg attempts Hmp0 Hc ltac:(congruence) Hch Hall)
    as Hrec.
  destruct (existsb Datatypes.id (take 120 attempts)).
  - destruct Hrec as (s'&tid&tx&tok&items&Hr&Hmp'&Hg&_&_&_&_&_&Htk).
    rewrite (finish_stream_reconnects s id task cfg _ s' true Hcfg Hr).
    exists s', S. split; [done|]. split; [done|].
    eapply (tasks_ok_replace s s' S id task); [done|done|by rewrite Hcfg| |exact Hg|exact Htk]. done.
  - destruct Hrec as (s'&Hr&Hmp'&Hf&Hq&Htk).
    rewrite (finish_stream_reconnects s id task cfg _ s' false Hcfg Hr).
    eexists _, _. split; [done|]. split.
    + apply (mp_inv_drop s' S _ c); [done|by rewrite Hf|congruence].
    + destruct (dropped_inv s S id task Hinv Ht) as [_ [Ha Hb Hd]].
      split; simpl; rewrite Htk; [|exact Hb|exact Hd]. rewrite Hf. exact Ha.
Qed.

Lemma stream_event_total s S id task ev :
  dp_inv s S -> mp_tasks s !! id = Some task -> event_ok s S task ev ->
  exists s' S', stream_event id ev s = Done (s', tt) /\ dp_inv s' S'.
Proof.
  intros Hinv Ht Hev. unfold stream_event.
  rewrite (bind_Done _ _ _ _ _ (eq_refl : gets mp_tasks s = Done (s, _))). rewrite Ht.
  destruct ev as [msg r1 r2|race|race| |].
  - destruct (handle_total s S task msg r1 r2 Hinv Hev) as (s1&res&S'&Hh&Hi&Hsame).
    rewrite (bind_Done _ _ _ _ _ Hh).
    assert (Hdp : dp_inv s1 S') by (split; [done|]; by apply (tasks_ok_same s), Hinv).
    destruct res as [u|e]; [by exists s1, S'|]. destruct (tk_is_local task); [|by exists s1, S'].
    destruct (send_error_total s1 S' (tk_conn_index task) e Hi) as (s2&He&Hi2&Hsame2).
    exists s2, S'. split; [done|]. split; [done|]. by apply (tasks_ok_same s1), Hdp.
  - by apply (finish_total s S).
  - by apply (finish_total s S).
  - rewrite finish_stream_drops by (by left). eexists _, _. split; [done|]. by apply dropped_inv.
  - rewrite finish_stream_drops by (by left). eexists _, _. split; [done|]. by apply dropped_inv.
Qed.
End reachability.

Section transition_system.
Context `{Hasher, HashIter, Transport, Telemetry}.
Implicit Type s : MessageProcessor.

Inductive dp_step : MessageProcessor -> MessageProcessor -> Prop :=
| StepLocal s s' r : register_local_connection s = Done (s', r) -> dp_step s s'
| StepAccept s s' ra la tx : open_channel ra la s = Done (s', tx) -> dp_step s s'
| StepConnect s s' cfg la ra attempts res :
    connect cfg la ra attempts s = Done (s', res) -> dp_step s s'
| StepDisconnect s s' k res : disconnect k s = Done (s', res) -> dp_step s s'
| StepReceiverGone s s' tx : close_channel tx s = Done (s', tt) -> dp_step s s'
| StepEvent s s' id task ev :
    mp_tasks s !! id = Some task -> (forall S, mp_inv s S -> event_ok s S task ev) ->
    stream_event id ev s = Done (s', tt) -> dp_step s s'.

(** The set of subscriptions is determined by the table. *)
Lemma mp_inv_unique s S S' : mp_inv s S -> mp_inv s S' -> S = S'.
Proof.
  intros Ha Hb. apply set_eq. intros [[ak b] k].
  pose proof (rs_mult _ S (fw_subs _ _ (mi_fw s S Ha)) ak b k) as Hm.
  pose proof (rs_mult _ S' (fw_subs _ _ (mi_fw s S' Hb)) ak b k) as Hm'.
  rewrite Hm in Hm'. repeat case_decide; tauto || done.
Qed.

Lemma tasks_ok_add s s' k c id task :
  tasks_ok s -> get_connection (mp_forwarder s) k = None ->
  (forall j, get_connection (mp_forwarder s') j =
     if decide (j = k) then Some c else get_connection (mp_forwarder s) j) ->
  mp_tasks s' = <[id := task]> (mp_tasks s) -> tk_conn_index task = k ->
  is_local_connection c = tk_is_local task ->
  (is_Some (tk_client_config task) -> tk_is_local task = false) -> tasks_ok s'.
Proof.
  intros [Htc Hto Hcf] Hfree Hg Ht Hk Hl Hcfg.
  assert (Hother : forall i t, mp_tasks s !! i = Some t -> tk_conn_index t <> k).
  { intros i t Hi Heq. destruct (Htc i t Hi) as (c'&Hc'&_). rewrite Heq in Hc'. congruence. }
  split; rewrite Ht.
  - intros i t. rewrite lookup_insert_Some. intros [[<- <-]|[Hne Hi]].
    + exists c. by rewrite Hg, decide_True.
    + rewrite Hg, decide_False by (by apply (Hother i)). by apply (Htc i).
  - intros i i' t t'. rewrite !lookup_insert_Some.
    intros [[<- <-]|[Hne Hi]] [[<- <-]|[Hne' Hi']] Heq; [done|..].
    + destruct (Hother i' t' Hi'). congruence.
    + destruct (Hother i t Hi). congruence.
    + by apply (Hto i i' t t').
  - intros i t. rewrite lookup_insert_Some. intros [[<- <-]|[Hne Hi]]; [done|by apply (Hcf i)].
Qed.

Lemma opened_inv s s' S k c task :
  dp_inv s S -> opened s s' S k c task -> tk_conn_index task = k ->
  is_local_connection c = tk_is_local task -> tk_client_config task = None -> dp_inv s' S.
Proof.
  intros [Hinv Htk] [Hi Hfree Hg _ [id Ht] _] Hk Hl Hcfg. split; [done|].
  apply (tasks_ok_add s s' k c id task); try done. rewrite Hcfg. by intros [? ?].
Qed.

Lemma connect_total s S cfg la ra attempts :
  dp_inv s S -> exists s' res, connect cfg la ra attempts s = Done (s', res) /\ dp_inv s' S.
Proof.
  intros [Hinv Htk]. pose proof (try_to_connect_spec cfg la ra None 10 attempts s S Hinv I) as Hspec.
  unfold connect_outcome in Hspec. unfold connect. destruct (existsb Datatypes.id (take 10 attempts)).
  - destruct Hspec as (s'&id&k&tx&tok&Hr&[Hi Hg _ _ _]&Hfree&Ht). exists s', (Ok (id, k)).
    split; [done|]. split; [done|].
    by apply (tasks_ok_add s s' k (mkConnection ra la (Client tx) Remote (Some tok)) id
      (mkTask k cfg tok false)).
  - destruct Hspec as (s'&Hr&Hi&Hf&_&Ht). eexists s', _. split; [exact Hr|]. split; [done|].
    apply (tasks_ok_same s); [|done]. split; [by rewrite Hf|done].
Qed.

Lemma disconnect_total s S k :
  dp_inv s S -> exists s' res, disconnect k s = Done (s', res) /\ dp_inv s' S.
Proof.
  intros [Hinv Htk]. unfold disconnect.
  rewrite (bind_Done _ _ _ _ _ (eq_refl : gets mp_forwarder s = Done (s, _))).
  destruct (get_connection (mp_forwarder s) k) as [c|]; [|by eexists _, _].
  destruct (cn_cancellation_token c) as [t|]; [|by eexists _, _].
  eexists (mkMessageProcessor (mp_forwarder s) (mp_channels s) _ (mp_tasks s) (mp_next s)), _.
  split; [done|]. split.
  - apply (mp_inv_core s); [|done]. split; [done|]. split; [done|]. simpl. lia.
  - by apply (tasks_ok_same s).
Qed.

Lemma dp_inv_new : dp_inv MessageProcessor_new ∅.
Proof.
  split; [apply mp_inv_new|]. split; simpl.
  - intros id t. by rewrite lookup_empty.
  - intros id id' t t'. by rewrite lookup_empty.
  - intros id t. by rewrite lookup_empty.
Qed.

Lemma dp_step_inv s s' S : dp_step s s' -> dp_inv s S -> exists S', dp_inv s' S'.
Proof.
  intros Hstep Hinv. destruct Hstep as [s s' r Hr|s s' ra la tx Hr|s s' cfg la ra att res Hr|
    s s' k res Hr|s s' tx Hr|s s' id task ev Ht Hev Hr].
  - destruct (register_local_connection_opens s S (proj1 Hinv)) as (s1&k&tx1&tx2&tok&Hr'&Ho).
    rewrite Hr in Hr'. injection Hr' as <- _. exists S. by eapply opened_inv.
  - destruct (open_channel_opens s S ra la (proj1 Hinv)) as (s1&k&tx'&tok&Hr'&Ho).
    rewrite Hr in Hr'. injection Hr' as <- _. exists S. by eapply opened_inv.
  - destruct (connect_total s S cfg la ra att Hinv) as (s1&res'&Hr'&Hi).
    rewrite Hr in Hr'. injection Hr' as <- _. by exists S.
  - destruct (disconnect_total s S k Hinv) as (s1&res'&Hr'&Hi).
    rewrite Hr in Hr'. injection Hr' as <- _. by exists S.
  - destruct (close_channel_inv s S tx (proj1 Hinv)) as (s1&Hr'&Hi&Hf&Ht).
    rewrite Hr in Hr'. injection Hr' as <-. exists S. split; [done|].
    apply (tasks_ok_same s); [|apply Hinv]. split; [by rewrite Hf|done].
  - destruct (stream_event_total s S id task ev Hinv Ht (Hev S (proj1 Hinv))) as (s1&S'&Hr'&Hi).
    rewrite Hr in Hr'. injection Hr' as <-. by exists S'.
Qed.

Lemma reachable_inv s : rtc dp_step MessageProcessor_new s -> exists S, dp_inv s S.
Proof.
  intros Hr. apply (rtc_ind_r (R:=dp_step) (fun s => exists S, dp_inv s S) MessageProcessor_new);
    [by exists ∅; apply dp_inv_new| |done].
  intros s1 s2 _ Hstep [S Hinv]. by eapply dp_step_inv.
Qed.
End transition_system.

(** C2: In every state the data plane can reach by events that are [event_ok], the
    tables agree with each other and with the channels ([dp_inv]): the
    subscription table represents a set of subscriptions of existing connections
    on their own side, no two connections share a channel, and every running task
    serves one connection of the table. In such a state every event that is
    [event_ok] is handled without a panic and leads to a reachable state again,
    and so does opening or closing a connection, unconditionally. An event is
    [event_ok] when a valid message names a source with an id, when it
    unsubscribes only from what its connection is subscribed for or from a type
    it has no subscription for, and, for the end of a connection, when the
    subscriptions forwarded on it can be sent again ([replayable]). These
    conditions matter: [anonymous_publication_ends_loop] and
    [foreign_unsubscribe_corrupts] are what happens without them. *)
Theorem data_plane_safe `{Hasher, HashIter, Transport, Telemetry} (s : MessageProcessor) :
  rtc dp_step MessageProcessor_new s ->
  exists S, dp_inv s S /\
    (forall id task ev, mp_tasks s !! id = Some task -> event_ok s S task ev ->
      exists s', stream_event id ev s = Done (s', tt) /\ rtc dp_step MessageProcessor_new s') /\
    (exists s' r, register_local_connection s = Done (s', r) /\ rtc dp_step MessageProcessor_new s') /\
    (forall ra la, exists s' tx, open_channel ra la s = Done (s', tx) /\
      rtc dp_step MessageProcessor_new s') /\
    (forall cfg la ra attempts, exists s' res, connect cfg la ra attempts s = Done (s', res) /\
      rtc dp_step MessageProcessor_new s') /\
    (forall k, exists s' res, disconnect k s = Done (s', res) /\ rtc dp_step MessageProcessor_new s').
Proof.
  intros Hreach. destruct (reachable_inv s Hreach) as [S Hinv]. exists S. split; [done|].
  assert (Hnext : forall s', dp_step s s' -> rtc dp_step MessageProcessor_new s').
  { intros s' Hstep. by eapply rtc_r. }
  split; [|split; [|split; [|split]]].
  - intros id task ev Ht Hev.
    destruct (stream_event_total s S id task ev Hinv Ht Hev) as (s'&S'&Hr&_).
    exists s'. split; [done|]. apply Hnext. apply (StepEvent s s' id task ev); [done| |done].
    intros S1 HS1. by rewrite (mp_inv_unique s S1 S HS1 (proj1 Hinv)).
  - destruct (register_local_connection_opens s S (proj1 Hinv)) as (s'&k&tx1&tx2&tok&Hr&_).
    exists s', (k, tx1, tx2). split; [done|]. by eapply Hnext, StepLocal.
  - intros ra la. destruct (open_channel_opens s S ra la (proj1 Hinv)) as (s'&k&tx&tok&Hr&_).
    exists s', tx. split; [done|]. by eapply Hnext, StepAccept.
  - intros cfg la ra att. destruct (connect_total s S cfg la ra att Hinv) as (s'&res&Hr&_).
    exists s', res. split; [done|]. by eapply Hnext, StepConnect.
  - intros k. destruct (disconnect_total s S k Hinv) as (s'&res&Hr&_).
    exists s', res. split; [done|]. by eapply Hnext, StepDisconnect.
Qed.

(** ** A concrete run

    Two local applications; the first subscribes for a name, the second
    publishes to it. *)
Definition demo_transport : Transport := {| ClientConfig := unit; to_channel := fun _ => true |}.
Definition demo_telemetry : Telemetry :=
  {| span_enabled := true; instance_id := "demo"; inject_context := fun _ md => md |}.

Module Demo.
#[local] Existing Instance toy_hasher.
#[local] Existing Instance hash_iter_sorted.
#[local] Existing Instance demo_transport.
#[local] Existing Instance demo_telemetry.

Definition cfg : ClientConfig := tt.
Definition app_type : AgentType := AgentType_from_strings "org" "ns" "app".
Definition sub_header (forward_to : option N) : SlimHeader :=
SlimHeader_new (mkAgent app_type 1) app_type (Some 5%N)
  (Some (mkSlimHeaderFlags 1 None forward_to None None)).
Definition sub_msg (forward_to : option N) : ProtoMessage :=
ProtoMessage_new ∅ (Subscribe (mkProtoSubscribe (Some (sub_header forward_to)) "org" "ns" "app")).
Definition pub_header : SlimHeader :=
SlimHeader_new (mkAgent app_type 2) app_type (Some 5%N)
  (Some (mkSlimHeaderFlags 3 None None None None)).
Definition pub_body : ProtoPublish :=
mkProtoPublish (Some pub_header) (Some (SessionHeader_new 1 7 9))
  (Some (mkContent "msg" [Byte.x01; Byte.x02])).
Definition pub_msg : ProtoMessage := ProtoMessage_new ∅ (Publish pub_body).

(** The state after two local registrations, a connection to a remote node made
  at the second attempt, and a subscription of the first application that is
  forwarded on that connection. *)
Definition after {A} (c : proc A) (s : MessageProcessor) : MessageProcessor :=
match c s with Done (s', _) => s' | Panic _ => s end.
Definition s1 : MessageProcessor := after register_local_connection MessageProcessor_new.
Definition s2 : MessageProcessor := after register_local_connection s1.
Definition s3 : MessageProcessor := after (connect (Some cfg) None None [false; true]) s2.
Definition state : MessageProcessor := after (stream_event 3 (Received (sub_msg (Some 2%N)) 0 0)) s3.

Lemma sub_event_ok s S task fwd r1 r2 : event_ok s S task (Received (sub_msg fwd) r1 r2).
Proof. intros _. split; [by eexists|]. intros u h dst c. done. Qed.

Definition panic_free {A} (r : panics A) : bool := match r with Done _ => true | Panic _ => false end.
Lemma after_done {A} (c : proc A) s :
panic_free (c s) = true -> exists r, c s = Done (after c s, r).
Proof. unfold after. destruct (c s) as [[s' r]|]; [by exists r|done]. Qed.

Lemma state_reachable : rtc dp_step MessageProcessor_new state.
Proof.
destruct (after_done register_local_connection MessageProcessor_new) as [r1 Hr1]; [by vm_compute|].
destruct (after_done register_local_connection s1) as [r2 Hr2]; [by vm_compute|].
destruct (after_done (connect (Some cfg) None None [false; true]) s2) as [r3 Hr3]; [by vm_compute|].
destruct (after_done (stream_event 3 (Received (sub_msg (Some 2%N)) 0 0)) s3) as [[] Hr4]; [by vm_compute|].
destruct (mp_tasks s3 !! 3%N) as [task|] eqn:Ht; [|by vm_compute in Ht].
apply (rtc_l dp_step _ s1); [exact (StepLocal _ _ _ Hr1)|].
apply (rtc_l dp_step _ s2); [exact (StepLocal _ _ _ Hr2)|].
apply (rtc_l dp_step _ s3); [exact (StepConnect _ _ _ _ _ _ _ Hr3)|]. apply rtc_once.
refine (StepEvent s3 state 3%N task (Received (sub_msg (Some 2%N)) 0 0) Ht _ Hr4).
intros S _. apply sub_event_ok.
Qed.
Lemma state_inv : exists S, dp_inv state S.
Proof. apply reachable_inv, state_reachable. Qed.

Lemma pub_traceable : traceable pub_msg.
Proof.
split; [|intros _; by eexists].
eexists _, _, _. split; [done|]. split; [done|]. split; [done|]. by eexists.
Qed.
Lemma sub_traceable fwd : traceable (sub_msg fwd).
Proof.
split; [|intros _; by eexists].
eexists _, _, _. split; [done|]. split; [done|]. by split.
Qed.
End Demo.

Lemma data_plane_safe_witness :
  exists S s' tx, dp_inv (H1:=demo_transport) Demo.state S /\
    @open_channel demo_transport None None Demo.state = Done (s', tx).
Proof.
  destruct (@data_plane_safe toy_hasher hash_iter_sorted demo_transport demo_telemetry Demo.state
    Demo.state_reachable) as (S&Hinv&_&_&Hopen&_).
  destruct (Hopen None None) as (s'&tx&Hs'&_). exists S, s', tx. exact (conj Hinv Hs').
Defined.


Lemma subscribe_handled_witness :
  exists S s' res, mp_inv (H1:=demo_transport) Demo.state S /\
    @handle_new_message toy_hasher hash_iter_sorted demo_transport demo_telemetry
      1 true (Demo.sub_msg None) 0 0 Demo.state = Done (s', res) /\ res = Ok tt.
Proof.
  destruct Demo.state_inv as [S [Hinv _]].
  assert (Hc : is_Some (get_connection (mp_forwarder Demo.state) 1)) by (vm_compute; by eexists).
  destruct Hc as [c Hc].
  destruct (@subscribe_handled toy_hasher hash_iter_sorted demo_transport demo_telemetry
    Demo.state S 1%N true (Demo.sub_msg None) _ (Demo.sub_header None) _
    (ProtoAgent_from_type Demo.app_type (Some 5%N)) c 0 0 Hinv (Demo.sub_traceable None)
    eq_refl eq_refl eq_refl eq_refl Hc) as (s'&res&Hh&_&Hres&_).
  exists S, s', res. exact (conj Hinv (conj Hh Hres)).
Defined.

Lemma stream_end_drops_witness :
  exists s', @stream_event toy_hasher hash_iter_sorted demo_transport demo_telemetry
      3 Cancelled Demo.state = Done (s', tt) /\
    get_connection (mp_forwarder s') 0 = None.
Proof.
  destruct Demo.state_inv as [S Hinv].
  destruct (@stream_end_drops toy_hasher hash_iter_sorted demo_transport demo_telemetry
    Demo.state S 3%N (@mkTask demo_transport 0 None 2 true) Cancelled Hinv) as (s'&Hs'&_&_&Hc&_).
  - vm_compute. reflexivity.
  - right. left. reflexivity.
  - exists s'. exact (conj Hs' Hc).
Defined.

Lemma reconnect_restores_witness :
  exists s' i, @stream_event toy_hasher hash_iter_sorted demo_transport demo_telemetry
      11 (EndOfStream (Connecting [false; false; true])) Demo.state = Done (s', tt) /\
    @queue demo_transport s' 2 = Some [i].
Proof.
  destruct Demo.state_inv as [S Hinv].
  destruct (@reconnect_restores toy_hasher hash_iter_sorted demo_transport demo_telemetry
    Demo.state S 11%N (@mkTask demo_transport 2 (Some Demo.cfg) 10 false) Demo.cfg
    [false; false; true] Hinv) as (s'&Hs'&_&_&_&(items&Hq&Hf2)&_).
  - vm_compute. reflexivity.
  - reflexivity.
  - reflexivity.
  - assert (Hinfos : (map_to_list (get_subscriptions_forwarded_on_connection
        (mp_forwarder Demo.state) 2)).*2 =
      [mkSubscriptionInfo (mkAgent (AgentType_from_proto (ProtoAgent_from_type Demo.app_type None)) 1)
         (mkAgent Demo.app_type 5)]) by (vm_compute; reflexivity).
    cbn [tk_conn_index]. intros i r Hr. apply elem_of_map_to_list in Hr.
    apply (list_elem_of_fmap_2 snd) in Hr. rewrite Hinfos in Hr.
    apply list_elem_of_singleton in Hr. cbn [snd] in Hr. subst r. split.
    + exists "org"%string, "ns"%string, "app"%string. reflexivity.
    + vm_compute. discriminate.
  - exists s'. destruct items as [|i [|]].
    + exfalso. apply Forall2_length in Hf2. vm_compute in Hf2. discriminate.
    + exists i. exact (conj Hs' Hq).
    + exfalso. apply Forall2_length in Hf2. vm_compute in Hf2. discriminate.
Defined.

Lemma invalid_message_rejected_witness :
  exists s', @stream_event toy_hasher hash_iter_sorted demo_transport demo_telemetry
      3 (Received (mkProtoMessage ∅ None) 0 0) Demo.state = Done (s', tt).
Proof.
  assert (Hc : exists c, get_connection (mp_forwarder Demo.state) 0 = Some c /\ cn_channel c = Server 1)
    by (vm_compute; eexists; split; reflexivity).
  destruct Hc as (c&Hc&Htx). eexists.
  apply (@invalid_message_rejected toy_hasher hash_iter_sorted demo_transport demo_telemetry
    Demo.state 3%N (@mkTask demo_transport 0 None 2 true) (mkProtoMessage ∅ None) 0 0
    MessageTypeNotFound c 1%N []); [vm_compute; reflexivity|reflexivity|exact Hc|exact Htx|].
  vm_compute. reflexivity.
Defined.

Lemma publish_stops_at_closed_channel_witness :
  exists s s', @close_channel demo_transport 1 Demo.state = Done (s, tt) /\
    @handle_new_message toy_hasher hash_iter_sorted demo_transport demo_telemetry
      1 true Demo.pub_msg 0 0 s = Done (s', Err (ProcessingError
        "error handling publish: error sending message: channel closed")).
Proof.
  destruct (Demo.after_done (@close_channel demo_transport 1) Demo.state eq_refl) as [[] Hc].
  destruct Demo.state_inv as [S [Hinv0 _]].
  destruct (@close_channel_inv demo_transport Demo.state S 1%N Hinv0) as (s&Hs&Hinv&Hf&_).
  assert (Hstate : s = Demo.after (@close_channel demo_transport 1) Demo.state) by congruence.
  destruct (@publish_stops_at_closed_channel toy_hasher hash_iter_sorted demo_transport demo_telemetry
    s S 1%N true Demo.pub_msg Demo.pub_body Demo.pub_header
    (ProtoAgent_from_type Demo.app_type (Some 5%N)) 0 0 [] 0%N [] Hinv Demo.pub_traceable
    eq_refl eq_refl eq_refl eq_refl) as (s'&copy&Hh&_).
  - rewrite Hf. vm_compute. reflexivity.
  - intros j Hj. apply elem_of_nil in Hj. destruct Hj.
  - rewrite Hf. vm_compute. eexists. reflexivity.
  - rewrite Hstate. vm_compute. reflexivity.
  - exists s, s'. exact (conj Hs Hh).
Defined.
