(* ===== verification/ReceiverBuffer.v ===== *)
(** * The receiver buffer of a streaming session

    [service/src/receiver_buffer.rs]: reorders the messages of a stream, detects
    losses and releases messages to the application in order of their ids.
    Message ids are [usize] values obtained from a [u32]; the initial value of
    [last_sent] is [usize::MAX], so that [last_sent + 1] overflows there: it
    panics when the crate is built with overflow checks and wraps to 0 without
    ([overflow_checks]). Everywhere else the ids stay far below that. *)
From stdpp Require Import base list gmap strings numbers option sets.
From S2P Require Import Prelude Proto Messages.

(** Whether arithmetic overflow is checked at run time (debug builds). *)
Class BuildProfile : Type := { overflow_checks : bool }.

Record ReceiverBuffer : Type := mkReceiverBuffer {
  last_sent : N;
  first_entry : nat;
  lost_msgs : gset N;
  buffer : list (option ProtoMessage);
}.

Definition ReceiverBuffer_default : ReceiverBuffer := mkReceiverBuffer usize_max 0 ∅ [].

(** The ids [from..to], as the [u32] values of an RTX list. *)
Definition id_range (from to : N) : list N :=
  (fun i => wrap_u32 (from + N.of_nat i)) <$> seq 0 (N.to_nat (to - from)).

Section model.
Context `{BuildProfile}.

(** [x + 1] on [usize]. *)
Definition incr_usize (x : N) : panics N :=
  if decide (x = usize_max) then
    if overflow_checks then Panic "attempt to add with overflow" else Done 0%N
  else Done (x + 1)%N.

(** The first loop of [release_msgs]: [i] runs from [first_entry] to the end of
    the buffer; [fuel] is the number of entries left. *)
Fixpoint release_loop (fuel i : nat) (b : ReceiverBuffer) (ret : list (option ProtoMessage))
    : panics (ReceiverBuffer * list (option ProtoMessage)) :=
  match fuel with
  | 0 => Done (b, ret)
  | S fuel =>
      match buffer b !! i with
      | Some (Some m) =>
          last ← incr_usize (last_sent b);
          release_loop fuel (i + 1)
            (mkReceiverBuffer last (first_entry b + 1) (lost_msgs b) (<[i := None]> (buffer b)))
            (ret ++ [Some m])
      | _ =>
          next ← incr_usize (last_sent b);
          if decide (next ∈ lost_msgs b) then
            release_loop fuel (i + 1)
              (mkReceiverBuffer next (first_entry b + 1) (lost_msgs b ∖ {[next]}) (buffer b))
              (ret ++ [None])
          else Done (b, ret)
      end
  end.

(** The last loop of [release_msgs]; every turn takes an id out of the set of
    lost messages, whose size is the fuel. *)
Fixpoint release_lost (fuel : nat) (b : ReceiverBuffer) (ret : list (option ProtoMessage))
    : panics (ReceiverBuffer * list (option ProtoMessage)) :=
  match fuel with
  | 0 => Done (b, ret)
  | S fuel =>
      next ← incr_usize (last_sent b);
      if decide (next ∈ lost_msgs b) then
        release_lost fuel
          (mkReceiverBuffer next (first_entry b) (lost_msgs b ∖ {[next]}) (buffer b)) (ret ++ [None])
      else Done (b, ret)
  end.

Definition release_msgs (b : ReceiverBuffer)
    : panics (ReceiverBuffer * list (option ProtoMessage)) :=
  '(b, ret) ← release_loop (length (buffer b) - first_entry b) (first_entry b) b [];
  let b := if decide (first_entry b = length (buffer b))
           then mkReceiverBuffer (last_sent b) 0 (lost_msgs b) [] else b in
  release_lost (S (size (lost_msgs b))) b ret.

Definition internal_on_received_message (b : ReceiverBuffer) (msg_id : N) (msg : option ProtoMessage)
    : panics (ReceiverBuffer * (list (option ProtoMessage) * list N)) :=
  if decide (last_sent b = usize_max \/ (msg_id = last_sent b + 1)%N /\ buffer b = []) then
    match msg with
    | Some m =>
        Done (mkReceiverBuffer msg_id (first_entry b) (lost_msgs b) (buffer b), ([Some m], []))
    | None => Done (b, ([], [wrap_u32 msg_id]))
    end
  else if decide (msg_id <= last_sent b)%N then Done (b, ([], []))
  else if decide (buffer b = []) then
    let missing := N.to_nat (msg_id - (last_sent b + 1)) in
    match msg with
    | Some m =>
        Done (mkReceiverBuffer (last_sent b) 0 (lost_msgs b) (replicate missing None ++ [Some m]),
              ([], id_range (last_sent b + 1) msg_id))
    | None =>
        Done (mkReceiverBuffer (last_sent b) 0 (lost_msgs b) (replicate (missing + 1) None),
              ([], id_range (last_sent b + 1) (msg_id + 1)))
    end
  else
    let len := N.of_nat (length (buffer b) - first_entry b) in
    if decide (msg_id <= last_sent b + len)%N then
      match msg with
      | None => Done (b, ([], []))
      | Some m =>
          let pos := N.to_nat (msg_id - (last_sent b + 1)) + first_entry b in
          match buffer b !! pos with
          | None => Panic "index out of bounds"
          | Some (Some _) => Done (b, ([], []))
          | Some None =>
              '(b, ret) ← release_msgs (mkReceiverBuffer (last_sent b) (first_entry b)
                                          (lost_msgs b) (<[pos := Some m]> (buffer b)));
              Done (b, (ret, []))
          end
      end
    else
      let next := (last_sent b + 1 + len)%N in
      let holes := replicate (N.to_nat (msg_id - next)) None in
      match msg with
      | Some m =>
          Done (mkReceiverBuffer (last_sent b) (first_entry b) (lost_msgs b)
                  (buffer b ++ holes ++ [Some m]), ([], id_range next msg_id))
      | None =>
          Done (mkReceiverBuffer (last_sent b) (first_entry b) (lost_msgs b) (buffer b ++ holes),
                ([], id_range next msg_id ++ [wrap_u32 msg_id]))
      end.

Definition on_received_message (b : ReceiverBuffer) (msg : ProtoMessage)
    : panics (ReceiverBuffer * (list (option ProtoMessage) * list N)) :=
  id ← get_id msg;
  internal_on_received_message b id (Some msg).

Definition on_lost_message (b : ReceiverBuffer) (msg_id : N)
    : panics (ReceiverBuffer * list (option ProtoMessage)) :=
  release_msgs (mkReceiverBuffer (last_sent b) (first_entry b) ({[msg_id]} ∪ lost_msgs b) (buffer b)).

Definition on_beacon_message (b : ReceiverBuffer) (msg_id : N)
    : panics (ReceiverBuffer * list N) :=
  '(b, (_, rtx)) ← internal_on_received_message b msg_id None;
  Done (b, rtx).
End model.

(** ** Invariant *)

(** The id of the message expected at position [i]. *)
Definition id_at (b : ReceiverBuffer) (i : nat) : N :=
  (last_sent b + 1 + N.of_nat (i - first_entry b))%N.

Record rb_inv (b : ReceiverBuffer) : Prop := {
  ri_first : first_entry b <= length (buffer b);
  ri_last : last_sent b = usize_max \/ is_u32 (last_sent b);
  ri_init : buffer b <> [] -> is_u32 (last_sent b);
  ri_ids : forall i m, buffer b !! i = Some (Some m) ->
    first_entry b <= i /\ get_id m = Done (id_at b i) /\ is_u32 (id_at b i);
  ri_lost : forall x, x ∈ lost_msgs b -> is_u32 x;
}.

Lemma ri_empty b : rb_inv b -> buffer b = [] -> first_entry b = 0.
Proof. intros Hinv He. pose proof (ri_first b Hinv) as Hf. rewrite He in Hf. simpl in Hf. lia. Qed.

Lemma rb_inv_default : rb_inv ReceiverBuffer_default.
Proof.
  split; simpl; [done|by left|done|..].
  - intros i m. by rewrite lookup_nil.
  - set_solver.
Qed.

(** [out] is what the application gets after [last]: one entry per id, in order,
    the message with that id or the notice that it is lost. *)
Definition in_order (last : N) (out : list (option ProtoMessage)) (lost : gset N) : Prop :=
  forall j o, out !! j = Some o ->
    let id := (last + 1 + N.of_nat j)%N in
    match o with
    | Some m => get_id m = Done id
    | None => id ∈ lost
    end.

Lemma in_order_nil last lost : in_order last [] lost.
Proof. intros j o. by rewrite lookup_nil. Qed.

Lemma in_order_cons last lost lost' o out :
  match o with Some m => get_id m = Done (last + 1)%N | None => (last + 1)%N ∈ lost end ->
  (forall x, x ∈ lost' -> x ∈ lost) ->
  in_order (last + 1) out lost' -> in_order last (o :: out) lost.
Proof.
  intros Ho Hsub Hout [|j] o' Hj; simpl in Hj.
  - injection Hj as <-. cbv zeta. by rewrite N.add_0_r.
  - specialize (Hout j o' Hj). cbv zeta in *.
    replace (last + 1 + N.of_nat (S j))%N with (last + 1 + 1 + N.of_nat j)%N by lia.
    destruct o'; [done|by apply Hsub].
Qed.

Lemma is_u32_not_max x : is_u32 x -> x <> usize_max.
Proof. unfold is_u32, u32_max, usize_max, u64_max. intros Hx ->. lia. Qed.

Section release.
Context `{BuildProfile}.

Lemma incr_usize_u32 x : is_u32 x -> incr_usize x = Done (x + 1)%N.
Proof. intros Hx. unfold incr_usize. by rewrite decide_False by (by apply is_u32_not_max). Qed.

(** Moving past the entry at [first_entry]. *)
Definition advance (b : ReceiverBuffer) (lost : gset N) : ReceiverBuffer :=
  mkReceiverBuffer (last_sent b + 1) (first_entry b + 1) lost (<[first_entry b := None]> (buffer b)).

Lemma advance_inv b lost :
  rb_inv b -> first_entry b < length (buffer b) -> is_u32 (last_sent b + 1)%N ->
  (forall x, x ∈ lost -> x ∈ lost_msgs b) -> rb_inv (advance b lost).
Proof.
  intros [Hf Hl Hi Hids Hlost] Hlt Hu Hsub. split; simpl.
  - rewrite length_insert. lia.
  - by right.
  - done.
  - intros i m Hm. destruct (decide (i = first_entry b)) as [->|Hne].
    { by rewrite list_lookup_insert_eq in Hm. }
    rewrite list_lookup_insert_ne in Hm by done.
    destruct (Hids i m Hm) as (Hle&Hid&Hiu). unfold id_at in *; simpl.
    replace (last_sent b + 1 + 1 + N.of_nat (i - (first_entry b + 1)))%N
      with (last_sent b + 1 + N.of_nat (i - first_entry b))%N by lia.
    split; [lia|done].
  - intros x Hx. by apply Hlost, Hsub.
Qed.

(** What a release gives: [out] in order, everything not yet released kept. *)
Record release_result (b b' : ReceiverBuffer) (out : list (option ProtoMessage)) : Prop := {
  rr_inv : rb_inv b';
  rr_u32 : is_u32 (last_sent b');
  rr_last : last_sent b' = (last_sent b + N.of_nat (length out))%N;
  rr_out : in_order (last_sent b) out (lost_msgs b);
  rr_lost_sub : forall x, x ∈ lost_msgs b' -> x ∈ lost_msgs b;
  rr_lost : forall x, (last_sent b' < x)%N -> x ∈ lost_msgs b -> x ∈ lost_msgs b';
}.

Lemma release_result_refl b : rb_inv b -> is_u32 (last_sent b) -> release_result b b [].
Proof.
  intros Hinv Hu. split; [done|done| |apply in_order_nil|done|done]. simpl. lia.
Qed.

Lemma release_result_step b b1 b' o out :
  last_sent b1 = (last_sent b + 1)%N ->
  match o with
  | Some m => get_id m = Done (last_sent b + 1)%N
  | None => (last_sent b + 1)%N ∈ lost_msgs b
  end ->
  (forall x, x ∈ lost_msgs b1 -> x ∈ lost_msgs b) ->
  (forall x, (last_sent b + 1 < x)%N -> x ∈ lost_msgs b -> x ∈ lost_msgs b1) ->
  release_result b1 b' out -> release_result b b' (o :: out).
Proof.
  intros Hl1 Ho Hsub Hkeep [Hinv Hu Hl Hout Hs Hk]. split; [done|done|..].
  - rewrite Hl, Hl1. simpl. lia.
  - apply (in_order_cons _ _ (lost_msgs b1)); [done|done|]. by rewrite <- Hl1.
  - intros x Hx. by apply Hsub, Hs.
  - intros x Hx Hin. apply Hk; [done|]. apply Hkeep; [|done]. rewrite Hl, Hl1 in Hx. lia.
Qed.

(** The first loop releases the longest prefix of messages that are there or
    lost. *)
Lemma release_loop_spec fuel : forall b ret,
  rb_inv b -> is_u32 (last_sent b) -> fuel = length (buffer b) - first_entry b ->
  exists b' out, release_loop fuel (first_entry b) b ret = Done (b', ret ++ out) /\
    release_result b b' out /\
    first_entry b' = first_entry b + length out /\ length (buffer b') = length (buffer b) /\
    (forall i, first_entry b' <= i -> buffer b' !! i = buffer b !! i) /\
    (first_entry b' = length (buffer b') \/
     buffer b' !! first_entry b' = Some None /\ (last_sent b' + 1)%N ∉ lost_msgs b').
Proof.
  induction fuel as [|fuel IH]; intros b ret Hinv Hu Hfuel.
  { exists b, []. rewrite app_nil_r. split; [done|]. split; [by apply release_result_refl|].
    simpl. pose proof (ri_first b Hinv). split; [lia|]. split; [done|]. split; [done|]. left. lia. }
  destruct (lookup_lt_is_Some_2 (buffer b) (first_entry b)) as [o Ho]; [lia|].
  cbn [release_loop]. rewrite Ho, (incr_usize_u32 _ Hu). cbn [mbind panics_bind].
  assert (Hstep : forall lost1 o',
    match o' with
    | Some m => get_id m = Done (last_sent b + 1)%N
    | None => (last_sent b + 1)%N ∈ lost_msgs b
    end ->
    is_u32 (last_sent b + 1)%N -> (forall x, x ∈ lost1 -> x ∈ lost_msgs b) ->
    (forall x, (last_sent b + 1 < x)%N -> x ∈ lost_msgs b -> x ∈ lost1) ->
    exists b' out, release_loop fuel (first_entry b + 1) (advance b lost1) (ret ++ [o']) =
        Done (b', ret ++ out) /\ release_result b b' out /\
      first_entry b' = first_entry b + length out /\ length (buffer b') = length (buffer b) /\
      (forall i, first_entry b' <= i -> buffer b' !! i = buffer b !! i) /\
      (first_entry b' = length (buffer b') \/
       buffer b' !! first_entry b' = Some None /\ (last_sent b' + 1)%N ∉ lost_msgs b')).
  { intros lost1 o' Ho' Hu1 Hsub Hkeep.
    destruct (IH (advance b lost1) (ret ++ [o'])) as (b'&out&Hrun&Hres&Hfe&Hlen&Hbuf&Hend).
    - apply advance_inv; [done|lia|done|done].
    - done.
    - simpl. rewrite length_insert. lia.
    - simpl in Hfe, Hlen, Hbuf. rewrite length_insert in Hlen.
      exists b', (o' :: out). rewrite <- app_assoc in Hrun. split; [exact Hrun|].
      split; [by apply (release_result_step b (advance b lost1))|].
      split; [simpl; lia|]. split; [done|]. split; [|done].
      intros i Hi. rewrite Hbuf by done. apply list_lookup_insert_ne. lia. }
  destruct o as [m|].
  - destruct (ri_ids b Hinv _ _ Ho) as (_&Hid&Hiu). unfold id_at in *.
    rewrite Nat.sub_diag, N.add_0_r in *. by apply (Hstep (lost_msgs b) (Some m)).
  - destruct (decide ((last_sent b + 1)%N ∈ lost_msgs b)) as [Hin|Hout].
    + assert (Hadv : mkReceiverBuffer (last_sent b + 1) (first_entry b + 1)
        (lost_msgs b ∖ {[(last_sent b + 1)%N]}) (buffer b) =
        advance b (lost_msgs b ∖ {[(last_sent b + 1)%N]})).
      { unfold advance. by rewrite list_insert_id. }
      rewrite Hadv. apply (Hstep _ None); [done|by apply (ri_lost b Hinv)|by intros x [? _]%elem_of_difference|].
      intros x Hx Hin'. apply elem_of_difference. rewrite elem_of_singleton. split; [done|lia].
    + exists b, []. rewrite app_nil_r. split; [done|]. split; [by apply release_result_refl|].
      simpl. split; [lia|]. split; [done|]. split; [done|]. by right.
Qed.

Lemma release_lost_spec fuel : forall b ret,
  rb_inv b -> is_u32 (last_sent b) -> buffer b = [] -> size (lost_msgs b) < fuel ->
  exists b' out, release_lost fuel b ret = Done (b', ret ++ out) /\ release_result b b' out /\
    buffer b' = [] /\ first_entry b' = first_entry b /\ (last_sent b' + 1)%N ∉ lost_msgs b'.
Proof.
  induction fuel as [|fuel IH]; intros b ret Hinv Hu Hemp Hfuel; [lia|].
  cbn [release_lost]. rewrite (incr_usize_u32 _ Hu). cbn [mbind panics_bind].
  case_decide as Hin.
  2:{ exists b, []. rewrite app_nil_r. split; [done|]. split; [by apply release_result_refl|done]. }
  set (b1 := mkReceiverBuffer (last_sent b + 1) (first_entry b)
               (lost_msgs b ∖ {[(last_sent b + 1)%N]}) (buffer b)).
  pose proof (ri_lost b Hinv _ Hin) as Hu1.
  destruct (IH b1 (ret ++ [None])) as (b'&out&Hrun&Hres&Hbuf&Hfe&Hno).
  - destruct Hinv as [Hf Hl Hi Hids Hlost]. split; simpl; [done|by right|done|..].
    + rewrite Hemp. intros i m. by rewrite lookup_nil.
    + intros x [Hx _]%elem_of_difference. by apply Hlost.
  - done.
  - done.
  - simpl. rewrite size_difference by (by apply singleton_subseteq_l). rewrite size_singleton.
    assert (size (lost_msgs b) <> 0) by (apply size_non_empty_iff; set_solver). lia.
  - exists b', (None :: out). rewrite <- app_assoc in Hrun. split; [exact Hrun|].
    split; [|done]. apply (release_result_step b b1); [done|done|by intros x [? _]%elem_of_difference| |done].
    intros x Hx Hin'. simpl. apply elem_of_difference. rewrite elem_of_singleton. split; [done|lia].
Qed.
Lemma release_result_app b b1 b' out1 out2 :
  release_result b b1 out1 -> release_result b1 b' out2 -> release_result b b' (out1 ++ out2).
Proof.
  intros [Hi1 Hu1 Hl1 Ho1 Hs1 Hk1] [Hi2 Hu2 Hl2 Ho2 Hs2 Hk2]. split; [done|done|..].
  - rewrite Hl2, Hl1, length_app. lia.
  - intros j o Hj. apply lookup_app_Some in Hj as [Hj|[Hge Hj]]; [by apply Ho1|].
    specialize (Ho2 _ _ Hj). cbv zeta in *. rewrite Hl1 in Ho2.
    replace (last_sent b + N.of_nat (length out1) + 1 + N.of_nat (j - length out1))%N
      with (last_sent b + 1 + N.of_nat j)%N in Ho2 by lia.
    destruct o; [done|by apply Hs1].
  - intros x Hx. by apply Hs1, Hs2.
  - intros x Hx Hin. apply Hk2; [done|]. apply Hk1; [|done]. lia.
Qed.

(** [release_msgs] returns; it hands out, in order, everything up to the first
    id that is neither there nor lost, and keeps the rest of the buffer. *)
Lemma release_msgs_spec b :
  rb_inv b -> is_u32 (last_sent b) ->
  exists b' out, release_msgs b = Done (b', out) /\ release_result b b' out /\
    ((last_sent b' + 1)%N ∉ lost_msgs b') /\
    (buffer b' = [] \/
     buffer b' !! first_entry b' = Some None /\
     first_entry b' = first_entry b + length out /\
     length (buffer b') = length (buffer b) /\
     forall i, first_entry b' <= i -> buffer b' !! i = buffer b !! i) /\
    (buffer b' = [] -> length (buffer b) - first_entry b <= length out).
Proof.
  intros Hinv Hu. unfold release_msgs.
  destruct (release_loop_spec _ b [] Hinv Hu eq_refl) as (b1&out1&Hrun&Hres&Hfe&Hlen&Hbuf&Hend).
  rewrite Hrun. cbn [mbind panics_bind app].
  destruct (decide (first_entry b1 = length (buffer b1))) as [Hall|Hpart].
  - set (b2 := mkReceiverBuffer (last_sent b1) 0 (lost_msgs b1) []).
    assert (Hinv2 : rb_inv b2).
    { destruct (rr_inv _ _ _ Hres) as [Hf Hl Hi Hids Hlost]. split; simpl; [done|done|done| |done].
      intros i m. by rewrite lookup_nil. }
    destruct (release_lost_spec (S (size (lost_msgs b2))) b2 out1 Hinv2 (rr_u32 _ _ _ Hres) eq_refl)
      as (b'&out2&Hrun2&Hres2&Hemp&_&Hno); [lia|].
    exists b', (out1 ++ out2). split; [done|].
    split; [apply (release_result_app b b1); [done|by destruct Hres2; split]|].
    split; [done|]. split; [by left|]. intros _. rewrite length_app. lia.
  - destruct Hend as [?|[Hhole Hno]]; [done|].
    cbn [release_lost]. rewrite (incr_usize_u32 _ (rr_u32 _ _ _ Hres)). cbn [mbind panics_bind].
    rewrite decide_False by done. exists b1, out1. split; [done|]. split; [done|]. split; [done|].
    split; [by right|]. intros He. rewrite He, lookup_nil in Hhole. done.
Qed.
End release.

(** ** Runs of the buffer *)
Inductive rb_op : Type :=
| OpReceived (msg : ProtoMessage)
| OpLost (msg_id : N)
| OpBeacon (msg_id : N).

Section runs.
Context `{BuildProfile}.

(** One call: what goes to the application and what is to be requested again. *)
Definition rb_exec (b : ReceiverBuffer) (o : rb_op)
    : panics (ReceiverBuffer * (list (option ProtoMessage) * list N)) :=
  match o with
  | OpReceived msg => on_received_message b msg
  | OpLost id => '(b, out) ← on_lost_message b id; Done (b, (out, []))
  | OpBeacon id => '(b, rtx) ← on_beacon_message b id; Done (b, ([], rtx))
  end.

(** Publications with [u32] ids; nothing is declared lost before the first
    message. *)
Definition op_valid (b : ReceiverBuffer) (o : rb_op) : Prop :=
  match o with
  | OpReceived msg => exists id, get_id msg = Done id /\ is_u32 id
  | OpLost id => is_u32 id /\ last_sent b <> usize_max
  | OpBeacon id => is_u32 id
  end.

Definition op_lost (o : rb_op) : gset N := match o with OpLost id => {[id]} | _ => ∅ end.

(** The last id the buffer has a place for. *)
Definition known_end (b : ReceiverBuffer) : N :=
  (last_sent b + N.of_nat (length (buffer b) - first_entry b))%N.

Lemma rb_inv_fill b pos m id :
  rb_inv b -> is_u32 (last_sent b) -> get_id m = Done id -> is_u32 id ->
  (last_sent b < id)%N -> pos = N.to_nat (id - (last_sent b + 1)) + first_entry b ->
  rb_inv (mkReceiverBuffer (last_sent b) (first_entry b) (lost_msgs b) (<[pos := Some m]> (buffer b))).
Proof.
  intros [Hf Hl Hi Hids Hlost] Hu Hid Hidu Hlt Hpos. split; simpl; [by rewrite length_insert|done..| |done].
  intros i m' Hm'. apply list_lookup_insert_Some in Hm' as [(Heq&[= <-]&_)|[Hne Hm']]; [|by apply Hids].
  unfold id_at; simpl. subst. split; [lia|].
  replace (last_sent b + 1 + N.of_nat (N.to_nat (id - (last_sent b + 1)) + first_entry b - first_entry b))%N
    with id by lia. done.
Qed.

(** Adding holes, and the message that revealed them, at the end. *)
Lemma rb_inv_extend b holes tl :
  rb_inv b -> is_u32 (last_sent b) ->
  (tl = [] \/ exists m, tl = [Some m] /\
    get_id m = Done (known_end b + 1 + N.of_nat holes)%N /\
    is_u32 (known_end b + 1 + N.of_nat holes)%N) ->
  rb_inv (mkReceiverBuffer (last_sent b) (first_entry b) (lost_msgs b)
            (buffer b ++ replicate holes None ++ tl)).
Proof.
  intros [Hf Hl Hi Hids Hlost] Hu Htl. split; simpl; [rewrite length_app; lia|done..| |done].
  intros i m Hm. apply lookup_app_Some in Hm as [Hm|[Hge Hm]]; [by apply Hids|].
  apply lookup_app_Some in Hm as [Hm|[Hge' Hm]]; [by apply lookup_replicate in Hm as [? _]|].
  rewrite length_replicate in *. destruct Htl as [->|(m'&->&Hid&Hidu)]; [by rewrite lookup_nil in Hm|].
  apply list_lookup_singleton_Some in Hm as [Hz [= <-]]. unfold id_at, known_end in *; simpl.
  split; [lia|].
  replace (last_sent b + 1 + N.of_nat (i - first_entry b))%N
    with (last_sent b + N.of_nat (length (buffer b) - first_entry b) + 1 + N.of_nat holes)%N by lia.
  done.
Qed.
(** [x] is missing: the buffer has a place for it and no message. *)
Definition hole (b : ReceiverBuffer) (x : N) : Prop :=
  exists i, first_entry b <= i /\ buffer b !! i = Some None /\ id_at b i = x.

(** A buffer that holds anything waits for its first message. *)
Definition head_missing (b : ReceiverBuffer) : Prop :=
  buffer b <> [] -> buffer b !! first_entry b = Some None.

Lemma hole_range b x : rb_inv b -> hole b x -> (last_sent b < x <= known_end b)%N.
Proof.
  intros Hinv (i&Hi&Hn&<-). apply lookup_lt_Some in Hn. unfold id_at, known_end. lia.
Qed.

(** What one call does to a buffer that has seen a message. *)
Record step_result (b : ReceiverBuffer) (o : rb_op) (b' : ReceiverBuffer)
    (out : list (option ProtoMessage)) (rtx : list N) : Prop := {
  sr_inv : rb_inv b';
  sr_u32 : is_u32 (last_sent b');
  sr_last : last_sent b' = (last_sent b + N.of_nat (length out))%N;
  sr_out : in_order (last_sent b) out (op_lost o ∪ lost_msgs b);
  sr_lost : forall x, x ∈ lost_msgs b' -> x ∈ op_lost o ∪ lost_msgs b;
  sr_end : (known_end b <= known_end b')%N;
  sr_rtx : match o with
           | OpReceived m => forall id, get_id m = Done id ->
               rtx = id_range (known_end b + 1) id /\ (id <= known_end b')%N
           | OpLost _ => rtx = []
           | OpBeacon id => rtx = id_range (known_end b + 1) (id + 1)
           end;
  sr_holes : forall x, hole b' x -> hole b x \/ x ∈ rtx;
  sr_head : head_missing b -> head_missing b';
  sr_filled : match o with
              | OpReceived m => forall id, get_id m = Done id -> ~ hole b' id
              | _ => True
              end;
}.

Lemma id_range_empty from to : (to <= from)%N -> id_range from to = [].
Proof. intros Hle. unfold id_range. by replace (N.to_nat (to - from)) with 0 by lia. Qed.
Lemma elem_of_id_range from to x :
  is_u32 (to - 1)%N -> x ∈ id_range from to <-> (from <= x < to)%N.
Proof.
  intros Hu. unfold id_range. rewrite list_elem_of_fmap. setoid_rewrite elem_of_seq. split.
  - intros (i&->&Hi). rewrite wrap_u32_small by (unfold is_u32 in Hu; lia). lia.
  - intros Hx. exists (N.to_nat (x - from)). split; [|lia].
    rewrite wrap_u32_small by (unfold is_u32 in Hu; lia). lia.
Qed.
Lemma id_range_snoc from to :
  (from <= to)%N -> id_range from (to + 1) = id_range from to ++ [wrap_u32 to].
Proof.
  intros Hle. unfold id_range.
  replace (N.to_nat (to + 1 - from)) with (N.to_nat (to - from) + 1) by lia.
  rewrite seq_app, fmap_app. simpl. do 3 f_equal. lia.
Qed.

(** A release, seen as the result of a call. *)
Lemma release_step b b0 o :
  rb_inv b0 -> is_u32 (last_sent b0) ->
  last_sent b0 = last_sent b -> first_entry b0 = first_entry b ->
  length (buffer b0) = length (buffer b) -> lost_msgs b0 = op_lost o ∪ lost_msgs b ->
  (forall i, buffer b0 !! i = Some None -> buffer b !! i = Some None) ->
  match o with
  | OpReceived m => exists id, get_id m = Done id /\ (id <= known_end b)%N /\ ~ hole b0 id
  | OpLost _ => True
  | OpBeacon _ => False
  end ->
  exists b' out, release_msgs b0 = Done (b', out) /\ step_result b o b' out [].
Proof.
  intros Hinv Hu Hl Hf Hlen Hlost Hh Ho.
  destruct (release_msgs_spec b0 Hinv Hu) as (b'&out&Hrun&[Hi' Hu' Hl' Ho' Hs' Hk']&_&Hbuf&Hemp).
  exists b', out. split; [done|].
  assert (Hend : (known_end b <= known_end b')%N).
  { unfold known_end. destruct Hbuf as [He|(Hhole&Hfe&Hlen'&_)].
    - specialize (Hemp He). rewrite He. simpl. lia.
    - apply lookup_lt_Some in Hhole. lia. }
  assert (Hsub : forall x, hole b' x -> hole b0 x).
  { intros x (i&Hi&Hn&Hx). destruct Hbuf as [He|(_&Hfe&_&Hsame)].
    { by rewrite He, lookup_nil in Hn. }
    exists i. rewrite Hsame in Hn by done. split; [lia|]. split; [done|].
    rewrite <- Hx. unfold id_at. lia. }
  split; [done|done|congruence|by rewrite <- Hl, <- Hlost|by rewrite <- Hlost|done|..].
  - destruct o as [m|x|x]; [|done..]. destruct Ho as (id0&Hid0&Hle&_).
    intros id Hid. rewrite Hid in Hid0. injection Hid0 as <-.
    split; [symmetry; apply id_range_empty|]; lia.
  - intros x (i&Hi&Hn&Hx)%Hsub. left. exists i. split; [lia|]. split; [by apply Hh|].
    rewrite <- Hx. unfold id_at. lia.
  - intros _ Hne. by destruct Hbuf as [?|[? _]].
  - destruct o as [m|x|x]; [|done..]. destruct Ho as (id0&Hid0&_&Hno).
    intros id Hid Hhole. rewrite Hid in Hid0. injection Hid0 as <-. by apply Hno, Hsub.
Qed.

(** Calls that leave the application alone. *)
Lemma quiet_step b b' o rtx :
  rb_inv b' -> is_u32 (last_sent b') -> last_sent b' = last_sent b ->
  first_entry b' = first_entry b \/ buffer b = [] /\ first_entry b' = 0 ->
  lost_msgs b' = lost_msgs b -> (known_end b <= known_end b')%N ->
  match o with
  | OpReceived m => forall id, get_id m = Done id ->
      rtx = id_range (known_end b + 1) id /\ (id <= known_end b')%N
  | OpLost _ => rtx = []
  | OpBeacon id => rtx = id_range (known_end b + 1) (id + 1)
  end ->
  (forall x, hole b' x -> hole b x \/ x ∈ rtx) ->
  (head_missing b -> head_missing b') ->
  match o with OpReceived m => forall id, get_id m = Done id -> ~ hole b' id | _ => True end ->
  step_result b o b' [] rtx.
Proof.
  intros Hi Hu Hl Hf Hlost Hend Hrtx Hh Hhead Hfill.
  split; [done|done| |apply in_order_nil| |done|done|done|done|done].
  - simpl. lia.
  - intros x. rewrite Hlost, elem_of_union. by right.
Qed.

(** Holes and possibly a message added behind the known end. *)
Lemma extend_step b o id tl holes rtx :
  rb_inv b -> is_u32 (last_sent b) -> is_u32 id -> (known_end b < id)%N ->
  (buffer b = [] -> 0 < holes) ->
  (holes = N.to_nat (id - (known_end b + 1)) /\
     (exists m, o = OpReceived m /\ tl = [Some m] /\ get_id m = Done id /\
        rtx = id_range (known_end b + 1) id) \/
   (holes = N.to_nat (id - known_end b) \/ holes = N.to_nat (id - (known_end b + 1))) /\
     tl = [] /\ o = OpBeacon id /\ rtx = id_range (known_end b + 1) (id + 1)) ->
  step_result b o (mkReceiverBuffer (last_sent b) (first_entry b) (lost_msgs b)
                     (buffer b ++ replicate holes None ++ tl)) [] rtx.
Proof.
  intros Hinv Hu Hid Hlt Hpos Hcase.
  pose proof (ri_first b Hinv) as Hf.
  assert (Hholes : holes <= N.to_nat (id - known_end b)) by lia.
  set (b' := mkReceiverBuffer _ _ _ _).
  assert (Hend : known_end b' = (known_end b + N.of_nat (holes + length tl))%N).
  { unfold known_end, b'; simpl. rewrite !length_app, length_replicate. lia. }
  apply quiet_step; simpl; [|done|done|by left|done|lia|..].
  - apply rb_inv_extend; [done|done|].
    destruct Hcase as [(Hh&m&_&->&Hm&_)|(_&->&_)]; [right|by left]. exists m. split; [done|].
    replace (known_end b + 1 + N.of_nat holes)%N with id by lia. done.
  - destruct Hcase as [(Hh&m&->&->&Hm&->)|(Hh&->&->&->)]; [|done].
    intros id' Hid'. rewrite Hm in Hid'. injection Hid' as <-. split; [done|].
    rewrite Hend. simpl. lia.
  - intros x (i&Hi&Hn&Hx). simpl in Hi, Hn. unfold id_at in Hx; simpl in Hx.
    apply lookup_app_Some in Hn as [Hn|[Hge Hn]].
    { left. exists i. done. }
    right. apply lookup_app_Some in Hn as [Hn|[Hge' Hn]].
    + apply lookup_replicate in Hn as [_ Hn]. unfold known_end in *.
      destruct Hcase as [(Hh&m&_&_&_&->)|(Hh&_&_&->)]; apply elem_of_id_range; unfold is_u32 in *; lia.
    + destruct Hcase as [(_&m&_&->&_)|(_&->&_)].
      * apply list_lookup_singleton_Some in Hn as [_ ?]. done.
      * by rewrite lookup_nil in Hn.
  - intros Hhead _. simpl. destruct (buffer b) as [|x l] eqn:E.
    + rewrite (ri_empty b Hinv E). specialize (Hpos eq_refl). by destruct holes; [lia|].
    + rewrite lookup_app_l; [by rewrite <- E; apply Hhead; rewrite E|].
      rewrite <- E. specialize (Hhead ltac:(by rewrite E)). by eapply lookup_lt_Some.
  - destruct Hcase as [(Hh&m&->&->&Hm&_)|(_&_&->&_)]; [|done]. intros id' Hid'.
    rewrite Hm in Hid'. injection Hid' as <-. intros (i&Hi&Hn&Hx).
    unfold id_at in Hx. simpl in Hi, Hn, Hx. unfold known_end in *.
    rewrite app_assoc, lookup_app_r in Hn by (rewrite length_app, length_replicate; lia).
    apply list_lookup_singleton_Some in Hn as [_ ?]. done.
Qed.
Lemma received_step b m id :
  rb_inv b -> is_u32 (last_sent b) ->
  get_id m = Done id -> is_u32 id ->
  exists b' out rtx, on_received_message b m = Done (b', (out, rtx)) /\
    step_result b (OpReceived m) b' out rtx.
Proof.
  intros Hinv Hu Hid Hidu. pose proof (ri_empty b Hinv) as Hfe. unfold on_received_message. rewrite Hid. cbn [mbind panics_bind].
  unfold internal_on_received_message. pose proof (is_u32_not_max _ Hu) as Hnm.
  pose proof (ri_first b Hinv) as Hf.
  assert (Hold : (id <= known_end b)%N -> ~ hole b id -> step_result b (OpReceived m) b [] []).
  { intros Hle Hno. apply quiet_step; [done|done|done|by left|done|lia| |by left|done|];
      intros id' Hid'; rewrite Hid in Hid'; injection Hid' as <-; [|done].
    split; [symmetry; apply id_range_empty|]; lia. }
  destruct (decide _) as [[?|[Hnext Hemp]]|Hnot]; [done|..].
  { eexists _, _, _. split; [done|].
    assert (Hke : known_end b = last_sent b) by (unfold known_end; rewrite Hemp; simpl; lia).
    split; simpl.
    - destruct Hinv as [_ _ _ Hids Hlost]. split; simpl; [exact Hf|by right|done| |done].
      rewrite Hemp. intros i m'. by rewrite lookup_nil.
    - done.
    - lia.
    - apply (in_order_cons _ _ ∅); [by rewrite <- Hnext|set_solver|apply in_order_nil].
    - intros x Hx. rewrite elem_of_union. by right.
    - rewrite Hke. unfold known_end; simpl. lia.
    - intros id' Hid'. rewrite Hid in Hid'. injection Hid' as <-. rewrite Hke.
      split; [symmetry; apply id_range_empty; lia|]. unfold known_end; simpl. lia.
    - intros x (i&_&Hn&_). simpl in Hn. by rewrite Hemp, lookup_nil in Hn.
    - intros _ Hne. done.
    - intros id' _ (i&_&Hn&_). simpl in Hn. by rewrite Hemp, lookup_nil in Hn. }
  destruct (decide (id <= last_sent b)%N) as [Hle|Hgt].
  { eexists _, _, _. split; [done|]. apply Hold; [unfold known_end; lia|].
    intros Hhole%hole_range; [lia|done]. }
  destruct (decide (buffer b = [])) as [Hemp|Hne].
  - eexists _, _, _. split; [done|].
    assert (Hke : known_end b = last_sent b) by (unfold known_end; rewrite Hemp; simpl; lia).
    replace (id_range (last_sent b + 1) id) with (id_range (known_end b + 1) id) by (by rewrite Hke).
    rewrite <- (Hfe Hemp).
    replace (replicate _ None ++ [Some m]) with
      (buffer b ++ replicate (N.to_nat (id - (known_end b + 1))) None ++ [Some m])
      by (by rewrite Hemp, Hke).
    assert (id <> last_sent b + 1)%N by (intros ->; apply Hnot; by right).
    apply (extend_step b _ id); [done..|lia|intros _; lia|]. left. split; [done|]. by exists m.
  - destruct (decide (id <= last_sent b + N.of_nat (length (buffer b) - first_entry b))%N) as [Hin|Hout].
    + set (pos := N.to_nat (id - (last_sent b + 1)) + first_entry b).
      destruct (lookup_lt_is_Some_2 (buffer b) pos) as [slot Hslot]; [unfold pos; lia|].
      rewrite Hslot. destruct slot as [m0|].
      { eexists _, _, _. split; [done|]. apply Hold; [done|]. intros (i&Hi&Hn&Hx).
        unfold id_at in Hx. assert (i = pos) as -> by (unfold pos; lia). congruence. }
      edestruct (release_step b (mkReceiverBuffer (last_sent b) (first_entry b) (lost_msgs b)
        (<[pos := Some m]> (buffer b))) (OpReceived m)) as (b'&out&Hrun&Hres).
      * by apply (rb_inv_fill b pos m id); [..|lia|].
      * done.
      * done.
      * done.
      * simpl. apply length_insert.
      * simpl. by rewrite (left_id_L ∅ (∪)).
      * simpl. intros i Hi. apply list_lookup_insert_Some in Hi as [(_&?&_)|[_ ?]]; done.
      * exists id. split; [done|]. split; [done|]. intros (i&Hi&Hn&Hx).
        unfold id_at in Hx. simpl in Hi, Hn, Hx. assert (i = pos) as -> by (unfold pos; lia).
        rewrite list_lookup_insert_eq in Hn by (by eapply lookup_lt_Some). done.
      * rewrite Hrun. cbn [mbind panics_bind]. by eexists _, _, _.
    + eexists _, _, _. split; [done|].
      replace (last_sent b + 1 + N.of_nat (length (buffer b) - first_entry b))%N
        with (known_end b + 1)%N by (unfold known_end; lia).
      apply (extend_step b _ id); [done..|unfold known_end; lia|done|].
      left. split; [done|]. by exists m.
Qed.
Lemma beacon_step b id :
  rb_inv b -> is_u32 (last_sent b) -> is_u32 id ->
  exists b' rtx, on_beacon_message b id = Done (b', rtx) /\ step_result b (OpBeacon id) b' [] rtx.
Proof.
  intros Hinv Hu Hidu. pose proof (ri_empty b Hinv) as Hfe. unfold on_beacon_message.
  unfold internal_on_received_message. pose proof (is_u32_not_max _ Hu) as Hnm.
  pose proof (ri_first b Hinv) as Hf.
  assert (Hkeep : forall rtx, rtx = id_range (known_end b + 1) (id + 1) ->
    step_result b (OpBeacon id) b [] rtx).
  { intros rtx ->. apply quiet_step; [done|done|done|by left|done|lia|done|by left|done|done]. }
  destruct (decide _) as [[?|[Hnext Hemp]]|Hnot]; [done|..].
  { eexists _, _. split; [done|]. apply Hkeep.
    replace (known_end b) with (last_sent b) by (unfold known_end; rewrite Hemp; simpl; lia).
    rewrite id_range_snoc by lia. rewrite id_range_empty by lia. done. }
  destruct (decide (id <= last_sent b)%N) as [Hle|Hgt].
  { eexists _, _. split; [done|]. apply Hkeep. symmetry. apply id_range_empty. unfold known_end. lia. }
  destruct (decide (buffer b = [])) as [Hemp|Hne].
  - eexists _, _. split; [done|].
    assert (Hke : known_end b = last_sent b) by (unfold known_end; rewrite Hemp; simpl; lia).
    replace (replicate (N.to_nat (id - (last_sent b + 1)) + 1) (None (A:=ProtoMessage))) with
      (buffer b ++ replicate (N.to_nat (id - known_end b)) None ++ []).
    2:{ rewrite Hemp, Hke, app_nil_r. cbn [app].
        by replace (N.to_nat (id - (last_sent b + 1)) + 1) with (N.to_nat (id - last_sent b)) by lia. }
    rewrite <- (Hfe Hemp).
    apply (extend_step b _ id); [done..|lia|intros _; lia|]. right. rewrite Hke. split; [by left|done].
  - destruct (decide (id <= last_sent b + N.of_nat (length (buffer b) - first_entry b))%N) as [Hin|Hout].
    + eexists _, _. split; [done|]. apply Hkeep. symmetry. apply id_range_empty. unfold known_end. lia.
    + eexists _, _. split; [done|].
      replace (last_sent b + 1 + N.of_nat (length (buffer b) - first_entry b))%N
        with (known_end b + 1)%N by (unfold known_end; lia).
      rewrite <- (app_nil_r (replicate _ _)).
      apply (extend_step b _ id); [done..|unfold known_end; lia|done|].
      right. split; [by right|]. split; [done|]. split; [done|]. symmetry. apply id_range_snoc.
      unfold known_end. lia.
Qed.

Lemma lost_step b id :
  rb_inv b -> is_u32 (last_sent b) -> is_u32 id ->
  exists b' out, on_lost_message b id = Done (b', out) /\ step_result b (OpLost id) b' out [].
Proof.
  intros Hinv Hu Hid. unfold on_lost_message.
  apply (release_step b _ (OpLost id)); try done.
  destruct Hinv as [Hf Hl Hi Hids Hlost]. split; simpl; [done..|].
  intros x [->%elem_of_singleton|Hx]%elem_of_union; [done|by apply Hlost].
Qed.

(** Every valid call on a buffer that has seen a message. *)
Lemma rb_exec_step b o :
  rb_inv b -> is_u32 (last_sent b) -> op_valid b o ->
  exists b' out rtx, rb_exec b o = Done (b', (out, rtx)) /\ step_result b o b' out rtx.
Proof.
  intros Hinv Hu Hv. destruct o as [m|id|id]; simpl in *.
  - destruct Hv as (id&Hid&Hidu). by apply (received_step b m id).
  - destruct Hv as [Hid _]. destruct (lost_step b id Hinv Hu Hid) as (b'&out&->&Hres).
    by eexists _, _, _.
  - destruct (beacon_step b id Hinv Hu Hv) as (b'&rtx&->&Hres). by eexists _, _, _.
Qed.

(** The calls on a buffer that has not. *)
Lemma rb_exec_first b o :
  rb_inv b -> last_sent b = usize_max -> op_valid b o ->
  match o with
  | OpReceived m => exists id, get_id m = Done id /\ is_u32 id /\
      rb_exec b o = Done (mkReceiverBuffer id 0 (lost_msgs b) [], ([Some m], []))
  | OpLost _ => False
  | OpBeacon id => rb_exec b o = Done (b, ([], [id]))
  end.
Proof.
  intros Hinv Hmax Hv.
  assert (Hemp : buffer b = []).
  { destruct (buffer b) as [|x l] eqn:E; [done|]. exfalso.
    apply (is_u32_not_max (last_sent b)); [|done]. apply (ri_init b Hinv). by rewrite E. }
  destruct o as [m|id|id]; simpl in *.
  - destruct Hv as (id&Hid&Hidu). exists id. split; [done|]. split; [done|].
    unfold on_received_message, internal_on_received_message. rewrite Hid. cbn [mbind panics_bind].
    rewrite decide_True by (by left). by rewrite Hemp, (ri_empty b Hinv Hemp).
  - by destruct Hv.
  - unfold on_beacon_message, internal_on_received_message. rewrite decide_True by (by left).
    cbn [mbind panics_bind]. by rewrite wrap_u32_small.
Qed.
End runs.

(** ** Whole streams *)
Section streams.
Context `{BuildProfile}.

(** The state, all that went to the application, all that was requested. *)
Fixpoint rb_run (b : ReceiverBuffer) (ops : list rb_op)
    : panics (ReceiverBuffer * list (option ProtoMessage) * list N) :=
  match ops with
  | [] => Done (b, [], [])
  | o :: ops =>
      '(b, (out, rtx)) ← rb_exec b o;
      '(b, outs, rtxs) ← rb_run b ops;
      Done (b, out ++ outs, rtx ++ rtxs)
  end.

(** Ids are [u32] values; [started]: a message has been received. *)
Fixpoint stream_ok (started : bool) (ops : list rb_op) : Prop :=
  match ops with
  | [] => True
  | OpReceived m :: ops => (exists id, get_id m = Done id /\ is_u32 id) /\ stream_ok true ops
  | OpLost id :: ops => is_u32 id /\ started = true /\ stream_ok started ops
  | OpBeacon id :: ops => is_u32 id /\ stream_ok started ops
  end.

Definition lost_ids (ops : list rb_op) : gset N := ⋃ (op_lost <$> ops).
Definition is_beacon (o : rb_op) : bool := match o with OpBeacon _ => true | _ => false end.
Definition received_id (x : N) (ops : list rb_op) : Prop :=
  exists m, OpReceived m ∈ ops /\ get_id m = Done x.

Lemma in_order_app last lost lost' out1 out2 :
  in_order last out1 lost -> (forall x, x ∈ lost' -> x ∈ lost) ->
  in_order (last + N.of_nat (length out1)) out2 lost' -> in_order last (out1 ++ out2) lost.
Proof.
  intros Ho1 Hsub Ho2 j o Hj. apply lookup_app_Some in Hj as [Hj|[Hge Hj]]; [by apply Ho1|].
  specialize (Ho2 _ _ Hj). cbv zeta in *.
  replace (last + N.of_nat (length out1) + 1 + N.of_nat (j - length out1))%N
    with (last + 1 + N.of_nat j)%N in Ho2 by lia.
  destruct o; [done|by apply Hsub].
Qed.

(** The result of a run of a buffer that has seen a message. *)
Record run_result (b : ReceiverBuffer) (ops : list rb_op) (b' : ReceiverBuffer)
    (outs : list (option ProtoMessage)) (rtxs : list N) : Prop := {
  ru_inv : rb_inv b';
  ru_last : last_sent b' = (last_sent b + N.of_nat (length outs))%N;
  ru_out : in_order (last_sent b) outs (lost_ids ops ∪ lost_msgs b);
  ru_end : (known_end b <= known_end b')%N;
  ru_holes : forall x, hole b' x -> hole b x \/ x ∈ rtxs;
  ru_head : head_missing b -> head_missing b';
  ru_above : forall x, x ∈ rtxs -> (known_end b < x)%N;
  ru_nodup : Forall (fun o => is_beacon o = false) ops -> NoDup rtxs;
  ru_received : forall x, received_id x ops -> (x <= known_end b')%N /\ ~ hole b' x;
}.

Lemma rtx_above b o b' out rtx :
  op_valid b o -> step_result b o b' out rtx ->
  forall x, x ∈ rtx -> (known_end b < x)%N /\ (is_beacon o = false -> x <= known_end b')%N.
Proof.
  intros Hv Hres x Hx. pose proof (sr_rtx _ _ _ _ _ Hres) as Hr. destruct o as [m|id|id]; simpl in *.
  - destruct Hv as (id&Hid&Hidu). destruct (Hr id Hid) as [-> Hle].
    apply elem_of_id_range in Hx; unfold is_u32 in *; lia.
  - subst rtx. by apply elem_of_nil in Hx.
  - subst rtx. apply elem_of_id_range in Hx; [|unfold is_u32 in *; lia]. split; [lia|done].
Qed.

Lemma id_range_nodup from to : is_u32 (to - 1)%N -> NoDup (id_range from to).
Proof.
  intros Hu. unfold id_range. apply NoDup_fmap_2_strong; [|apply NoDup_seq].
  intros i j Hi Hj. rewrite !elem_of_seq in *. unfold is_u32 in Hu.
  rewrite !wrap_u32_small by lia. lia.
Qed.

Lemma rtx_nodup b o b' out rtx : op_valid b o -> step_result b o b' out rtx -> NoDup rtx.
Proof.
  intros Hv Hres. pose proof (sr_rtx _ _ _ _ _ Hres) as Hr. destruct o as [m|id|id]; simpl in *.
  - destruct Hv as (id&Hid&Hidu). destruct (Hr id Hid) as [-> _]. apply id_range_nodup.
    unfold is_u32 in *. lia.
  - subst rtx. constructor.
  - subst rtx. apply id_range_nodup. unfold is_u32 in *. lia.
Qed.

Lemma rb_run_result ops : forall b,
  rb_inv b -> is_u32 (last_sent b) -> stream_ok true ops ->
  exists b' outs rtxs, rb_run b ops = Done (b', outs, rtxs) /\ run_result b ops b' outs rtxs.
Proof.
  induction ops as [|o ops IH]; intros b Hinv Hu Hok.
  { eexists _, _, _. split; [done|]. split; simpl; try done.
    - lia.
    - by left.
    - intros x Hx. by apply elem_of_nil in Hx.
    - intros _. constructor.
    - intros x (m&Hm&_). by apply elem_of_nil in Hm. }
  assert (Hv : op_valid b o /\ stream_ok true ops).
  { pose proof (is_u32_not_max _ Hu). destruct o as [m|id|id]; simpl in *; tauto. }
  destruct Hv as [Hv Hok'].
  destruct (rb_exec_step b o Hinv Hu Hv) as (b1&out&rtx&Hrun&Hres).
  destruct (IH b1 (sr_inv _ _ _ _ _ Hres) (sr_u32 _ _ _ _ _ Hres) Hok')
    as (b'&outs&rtxs&Hrun'&Hres').
  cbn [rb_run]. rewrite Hrun. cbn [mbind panics_bind]. rewrite Hrun'. cbn [mbind panics_bind].
  eexists _, _, _. split; [done|].
  pose proof (rtx_above b o b1 out rtx Hv Hres) as Habove.
  pose proof (sr_end _ _ _ _ _ Hres) as Hend. destruct Hres' as [Hi Hl Ho He Hh Hhd Hab Hnd Hrc].
  split; [done|..].
  - rewrite Hl, (sr_last _ _ _ _ _ Hres), length_app. lia.
  - apply (in_order_app _ _ (lost_ids ops ∪ lost_msgs b1)).
    + intros j o' Hj. pose proof (sr_out _ _ _ _ _ Hres j o' Hj) as Hin. cbv zeta in *.
      destruct o' as [m|]; [done|]. clear -Hin. unfold lost_ids. rewrite fmap_cons, union_list_cons. set_solver.
    + intros x [Hx|Hx]%elem_of_union.
      * clear -Hx. unfold lost_ids in *. rewrite fmap_cons, union_list_cons. set_solver.
      * apply (sr_lost _ _ _ _ _ Hres) in Hx. clear -Hx. unfold lost_ids.
        rewrite fmap_cons, union_list_cons. set_solver.
    + by rewrite <- (sr_last _ _ _ _ _ Hres).
  - lia.
  - intros x Hx. rewrite elem_of_app. destruct (Hh x Hx) as [Hx'|Hx']; [|by right; right].
    destruct (sr_holes _ _ _ _ _ Hres x Hx') as [?|?]; [by left|by right; left].
  - intros Hb. by apply Hhd, (sr_head _ _ _ _ _ Hres).
  - intros x [Hx|Hx]%elem_of_app; [by apply Habove|]. apply Hab in Hx. lia.
  - intros Hnb. apply Forall_cons in Hnb as [Hb Hnb]. apply NoDup_app.
    split; [by eapply rtx_nodup|]. split; [|by apply Hnd].
    intros x Hx Hx'. apply Habove in Hx as [_ Hx]. specialize (Hx Hb). apply Hab in Hx'. lia.
  - intros x (m&Hm&Hid). apply elem_of_cons in Hm as [<-|Hm]; [|apply Hrc; by exists m].
    destruct (sr_rtx _ _ _ _ _ Hres x Hid) as [_ Hle]. split; [lia|]. intros Hx.
    destruct (Hh x Hx) as [Hx'|Hx']; [by apply (sr_filled _ _ _ _ _ Hres x Hid)|].
    apply Hab in Hx'. lia.
Qed.
End streams.

Section stream_start.
Context `{BuildProfile}.

(** The first message starts the stream at its id. *)
Lemma rb_run_started m id ops :
  get_id m = Done id -> is_u32 id -> stream_ok true ops ->
  let b := mkReceiverBuffer id 0 ∅ [] in
  exists b' outs rtxs,
    rb_run ReceiverBuffer_default (OpReceived m :: ops) = Done (b', Some m :: outs, rtxs) /\
    run_result b ops b' outs rtxs.
Proof.
  intros Hid Hidu Hok b.
  assert (Hb : rb_inv b).
  { split; simpl; [done|by right|done| |set_solver]. intros i x. by rewrite lookup_nil. }
  destruct (rb_run_result ops b Hb Hidu Hok) as (b'&outs&rtxs&Hrun&Hres).
  exists b', outs, rtxs. split; [|done].
  destruct (rb_exec_first ReceiverBuffer_default (OpReceived m)) as (id'&Hid'&_&Hex);
    [apply rb_inv_default|done|by exists id|].
  cbn [rb_run]. rewrite Hex. cbn [mbind panics_bind].
  assert (id' = id) as -> by congruence. simpl lost_msgs. fold b. by rewrite Hrun.
Qed.

(** What was received without a gap has been released. *)
Lemma run_complete id ops b' outs rtxs n :
  run_result (mkReceiverBuffer id 0 ∅ []) ops b' outs rtxs ->
  (forall x, (id < x <= n)%N -> received_id x ops) -> (n <= last_sent b')%N.
Proof.
  intros Hres Hall. destruct (decide (n <= last_sent b')%N) as [Hle|Hgt]; [done|exfalso].
  pose proof (ru_last _ _ _ _ _ Hres) as Hl. simpl in Hl.
  destruct (ru_received _ _ _ _ _ Hres n) as [Hn _]; [apply Hall; lia|].
  destruct (ru_received _ _ _ _ _ Hres (last_sent b' + 1)%N) as [_ Hno]; [apply Hall; lia|].
  apply Hno. exists (first_entry b').
  assert (Hne : buffer b' <> []).
  { intros He. unfold known_end in Hn. rewrite He in Hn. simpl in Hn. lia. }
  split; [done|]. split; [|unfold id_at; lia].
  by apply (ru_head _ _ _ _ _ Hres); [intros Hx; destruct (Hx eq_refl)|].
Qed.

Lemma stream_ok_u32 m id ops : stream_ok false (OpReceived m :: ops) -> get_id m = Done id ->
  is_u32 id /\ stream_ok true ops.
Proof. intros [(id'&Hid'&Hu) Hok] Hid. assert (id' = id) as -> by congruence. done. Qed.
End stream_start.

(** *** Where messages come from *)
Section provenance.
Context `{BuildProfile} (P : ProtoMessage -> Prop).
Definition known (o : option ProtoMessage) : Prop := match o with Some m => P m | None => True end.

Lemma known_release_loop fuel : forall i b ret b' ret',
  Forall known (buffer b) -> Forall known ret -> release_loop fuel i b ret = Done (b', ret') ->
  Forall known (buffer b') /\ Forall known ret'.
Proof.
  induction fuel as [|fuel IH]; intros i b ret b' ret' Hb Hr; cbn [release_loop]; [by intros [= <- <-]|].
  assert (Hnone : (next ← incr_usize (last_sent b);
    if decide (next ∈ lost_msgs b)
    then release_loop fuel (i + 1) (mkReceiverBuffer next (first_entry b + 1) (lost_msgs b ∖ {[next]}) (buffer b)) (ret ++ [None])
    else Done (b, ret)) = Done (b', ret') -> Forall known (buffer b') /\ Forall known ret').
  { destruct (incr_usize _) as [next|]; [|done]. cbn. case_decide; [|by intros [= <- <-]].
    apply IH; [done|]. apply Forall_app. by repeat constructor. }
  destruct (buffer b !! i) as [[m|]|] eqn:Hm; [|exact Hnone..].
  destruct (incr_usize _) as [last|]; [|done]. apply IH; [by apply Forall_insert|].
  apply Forall_app. split; [done|]. constructor; [|done]. exact (Forall_lookup_1 _ _ _ _ Hb Hm).
Qed.
Lemma known_release_lost fuel : forall b ret b' ret',
  Forall known (buffer b) -> Forall known ret -> release_lost fuel b ret = Done (b', ret') ->
  Forall known (buffer b') /\ Forall known ret'.
Proof.
  induction fuel as [|fuel IH]; intros b ret b' ret' Hb Hr; cbn [release_lost]; [by intros [= <- <-]|].
  destruct (incr_usize _) as [next|]; [|done]. cbn. case_decide; [|by intros [= <- <-]].
  apply IH; [done|]. apply Forall_app. by repeat constructor.
Qed.
Lemma known_release b b' ret :
  Forall known (buffer b) -> release_msgs b = Done (b', ret) -> Forall known (buffer b') /\ Forall known ret.
Proof.
  intros Hb. unfold release_msgs. destruct (release_loop _ _ _ _) as [[b1 ret1]|] eqn:Hl; [|done]. cbn [mbind panics_bind].
  destruct (known_release_loop _ _ _ _ _ _ Hb ltac:(constructor) Hl) as [Hb1 Hr1].
  apply known_release_lost; [|done]. by case_decide.
Qed.
Lemma known_internal b id msg b' out rtx :
  Forall known (buffer b) -> known msg -> internal_on_received_message b id msg = Done (b', (out, rtx)) ->
  Forall known (buffer b') /\ Forall known out.
Proof.
  intros Hb Hm. unfold internal_on_received_message.
  assert (Hholes : forall n, Forall known (replicate n None)) by (intros n; by apply Forall_replicate).
  repeat case_decide; try (destruct msg as [m|]);
    try (intros [= <- <- _]; cbn; rewrite ?Forall_app, ?Forall_cons; auto; fail).
  destruct (buffer b !! _) as [[m'|]|]; [by intros [= <- <- _]| |done].
  destruct (release_msgs _) as [[b1 ret]|] eqn:Hr; [|done]. intros [= <- <- _].
  apply known_release in Hr; [done|]. by apply Forall_insert.
Qed.
Lemma known_run ops : forall b b' outs rtxs,
  Forall known (buffer b) -> (forall m, OpReceived m ∈ ops -> P m) -> rb_run b ops = Done (b', outs, rtxs) ->
  Forall known outs.
Proof.
  induction ops as [|o ops IH]; intros b b' outs rtxs Hb Hops; cbn [rb_run]; [by intros [= _ <- _]|].
  destruct (rb_exec b o) as [[b1 [out rtx]]|] eqn:He; [|done]. cbn.
  destruct (rb_run b1 ops) as [[[b2 outs'] rtxs']|] eqn:Hr; [|done]. intros [= _ <- _].
  assert (Hk : Forall known (buffer b1) /\ Forall known out).
  { destruct o as [m|id|id]; cbn [rb_exec] in He.
    - unfold on_received_message in He. destruct (get_id m) as [id|]; [|done].
      eapply known_internal, He; [done|]. apply Hops. by left.
    - unfold on_lost_message in He. destruct (release_msgs _) as [[b3 ret]|] eqn:Hl; [|done].
      injection He as <- <- _. by eapply known_release, Hl.
    - unfold on_beacon_message in He. destruct (internal_on_received_message _ _ _) as [[b3 [o r]]|] eqn:Hl; [|done].
      injection He as <- <- _. split; [|constructor]. by apply (known_internal _ _ None _ _ _ Hb I Hl). }
  apply Forall_app. split; [apply Hk|]. eapply (IH b1); [apply Hk| |done]. intros m Hm. apply Hops. by right.
Qed.
End provenance.

Lemma run_from_received `{BuildProfile} ops b' outs rtxs m :
  rb_run ReceiverBuffer_default ops = Done (b', outs, rtxs) -> Some m ∈ outs -> OpReceived m ∈ ops.
Proof.
  intros Hrun Hm.
  pose proof (known_run (fun m => OpReceived m ∈ ops) ops ReceiverBuffer_default _ _ _ (Forall_nil_2 _) (fun _ H => H) Hrun) as Hall.
  exact (proj1 (Forall_forall _ _) Hall _ Hm).
Qed.

(** *** Before the first message *)
Fixpoint first_received (ops : list rb_op) : option ProtoMessage :=
  match ops with
  | [] => None
  | OpReceived m :: _ => Some m
  | _ :: ops => first_received ops
  end.
(** Without a message before, only beacons can come in. *)
Lemma stream_starts ops : stream_ok false ops ->
  exists beacons, Forall (fun o => is_beacon o = true) beacons /\
    match first_received ops with
    | None => ops = beacons
    | Some m => exists rest, ops = beacons ++ OpReceived m :: rest /\ stream_ok false (OpReceived m :: rest)
    end.
Proof.
  induction ops as [|[m|id|id] ops IH]; intros Hok.
  - by exists [].
  - exists []. split; [done|]. by exists ops.
  - by destruct Hok as (_&?&_).
  - destruct Hok as [Hid Hok]. destruct (IH Hok) as (bs&Hbs&Hm). exists (OpBeacon id :: bs). split; [by constructor|].
    cbn. destruct (first_received ops) as [m|]; [|by subst]. destruct Hm as (rest&->&?). by exists rest.
Qed.
Lemma run_beacons `{BuildProfile} beacons ops :
  Forall (fun o => is_beacon o = true) beacons -> stream_ok false (beacons ++ ops) ->
  exists asked, forall b' outs rtxs, rb_run ReceiverBuffer_default ops = Done (b', outs, rtxs) ->
    rb_run ReceiverBuffer_default (beacons ++ ops) = Done (b', outs, asked ++ rtxs).
Proof.
  induction 1 as [|[| |id] bs Hb Hbs IH]; intros Hok; [by exists []|done..|].
  destruct Hok as [Hid Hok]. destruct (IH Hok) as [asked Hasked]. exists (id :: asked). intros b' outs rtxs Hrun.
  cbn [rb_run app]. rewrite (rb_exec_first ReceiverBuffer_default (OpBeacon id) rb_inv_default eq_refl Hid).
  cbn [mbind panics_bind]. by rewrite (Hasked _ _ _ Hrun).
Qed.
Lemma lost_ids_beacons beacons ops :
  Forall (fun o => is_beacon o = true) beacons -> lost_ids (beacons ++ ops) = lost_ids ops.
Proof.
  induction 1 as [|[| |id] bs Hb Hbs IH]; [done..|]. unfold lost_ids in *. cbn [app].
  rewrite fmap_cons, union_list_cons, IH. cbn [op_lost]. apply (left_id_L ∅ (∪)).
Qed.

(** What the application has been given after [ops], as entries per id. *)
Definition delivers (ops : list rb_op) (outs : list (option ProtoMessage)) : Prop :=
  (forall m, Some m ∈ outs -> OpReceived m ∈ ops) /\
  match first_received ops with
  | None => outs = []
  | Some m => exists id rest, get_id m = Done id /\ outs = Some m :: rest /\ in_order id rest (lost_ids ops) /\
      forall n, (forall x, (id < x <= n)%N -> received_id x ops) -> (n <= id + N.of_nat (length rest))%N
  end.
Definition last_after (ops : list rb_op) (outs : list (option ProtoMessage)) (b : ReceiverBuffer) : Prop :=
  forall m id, first_received ops = Some m -> get_id m = Done id ->
    (last_sent b + 1 = id + N.of_nat (length outs))%N.
Lemma received_after beacons m id rest x :
  Forall (fun o => is_beacon o = true) beacons -> get_id m = Done id -> (id < x)%N ->
  received_id x (beacons ++ OpReceived m :: rest) -> received_id x rest.
Proof.
  intros Hb Hid Hx (mx&Hin&Hmx). exists mx. split; [|done].
  apply elem_of_app in Hin as [Hin|Hin].
  - by apply (proj1 (Forall_forall _ _) Hb) in Hin.
  - apply elem_of_cons in Hin as [[= ->]|Hin]; [|done]. rewrite Hid in Hmx. injection Hmx as ->. lia.
Qed.
Lemma receiver_delivers `{BuildProfile} ops :
  stream_ok false ops ->
  exists b' outs rtxs, rb_run ReceiverBuffer_default ops = Done (b', outs, rtxs) /\
    delivers ops outs /\ last_after ops outs b'.
Proof.
  intros Hok. destruct (stream_starts ops Hok) as (bs&Hbs&Hfirst). unfold delivers, last_after.
  destruct (first_received ops) as [m|].
  - destruct Hfirst as (rest&->&Hok'). destruct (Hok') as [(id&Hid&Hu) Hok2].
    destruct (rb_run_started m id rest Hid Hu Hok2) as (b'&outs&rtxs&Hrun&Hres).
    destruct (run_beacons bs _ Hbs Hok) as [asked Hasked]. apply Hasked in Hrun.
    pose proof (ru_last _ _ _ _ _ Hres) as Hlast. cbn in Hlast.
    exists b', (Some m :: outs), (asked ++ rtxs). split; [done|].
    split; [|intros m' id' [= <-] Hid'; rewrite Hid in Hid'; injection Hid' as <-; cbn; lia].
    split; [intros m'; by apply (run_from_received _ _ _ _ m' Hrun)|].
    exists id, outs. do 2 (split; [done|]). split.
    + pose proof (ru_out _ _ _ _ _ Hres) as Ho. simpl in Ho. rewrite (right_id_L ∅ (∪)) in Ho.
      rewrite lost_ids_beacons by done. by replace (lost_ids (OpReceived m :: rest)) with (lost_ids rest)
        by (unfold lost_ids; rewrite fmap_cons, union_list_cons; cbn [op_lost]; by rewrite (left_id_L ∅ (∪))).
    + intros n Hn. rewrite <- Hlast. eapply run_complete; [exact Hres|]. intros x Hx.
      eapply received_after; [exact Hbs|exact Hid|lia|]. by apply Hn.
  - subst bs. destruct (run_beacons ops [] Hbs) as [asked Hasked]; [by rewrite app_nil_r|].
    rewrite app_nil_r in Hasked. eexists _, [], _. split; [by apply Hasked|]. split; [split; [|done]|done].
    intros m Hm. by apply elem_of_nil in Hm.
Qed.

(** C10: Whatever messages (in any order, duplicated or with gaps), beacons and
    loss notices come in, as long as no loss is notified before the first message
    ([stream_ok]; [lost_before_first_message] is what happens otherwise) and the
    ids are 32-bit values, the buffer does not panic. Until the first message the
    application gets nothing; then it gets that message and after it exactly one
    entry per id, in increasing order and without gap: a message that was received
    with that id, or an empty entry for an id that was declared lost. *)
Theorem receiver_in_order `{BuildProfile} ops :
  stream_ok false ops ->
  exists b' outs rtxs, rb_run ReceiverBuffer_default ops = Done (b', outs, rtxs) /\
    (forall m, Some m ∈ outs -> OpReceived m ∈ ops) /\
    match first_received ops with
    | None => outs = []
    | Some m => exists id rest, get_id m = Done id /\ outs = Some m :: rest /\
        last_sent b' = (id + N.of_nat (length rest))%N /\ in_order id rest (lost_ids ops)
    end.
Proof.
  intros Hok. destruct (receiver_delivers ops Hok) as (b'&outs&rtxs&Hrun&(Hrec&Hd)&Hlast).
  exists b', outs, rtxs. split; [done|]. split; [done|]. unfold last_after in Hlast.
  destruct (first_received ops) as [m|]; [|done]. destruct Hd as (id&rest&Hid&->&Hord&_).
  exists id, rest. do 2 (split; [done|]). split; [|done]. specialize (Hlast m id eq_refl Hid). cbn in Hlast. lia.
Qed.

(** C38: No message is held back without need. After the first message, with id
    [id], and when every id from there up to [n] has been received, in whatever
    order, everything up to [n] has been handed to the application: for each of
    those ids that was not declared lost as well, a received message with that id
    is at its place in what the application got. *)
Theorem receiver_complete `{BuildProfile} m id ops n :
  get_id m = Done id -> stream_ok false (OpReceived m :: ops) ->
  (forall x, (id < x <= n)%N -> received_id x ops) ->
  exists b' outs rtxs,
    rb_run ReceiverBuffer_default (OpReceived m :: ops) = Done (b', Some m :: outs, rtxs) /\
    (n <= id + N.of_nat (length outs))%N /\
    forall x, (id < x <= n)%N -> x ∉ lost_ids ops ->
      exists mx, outs !! N.to_nat (x - id - 1) = Some (Some mx) /\ get_id mx = Done x /\
        OpReceived mx ∈ OpReceived m :: ops.
Proof.
  intros Hid Hok Hall. destruct (stream_ok_u32 m id ops Hok Hid) as [Hu Hok'].
  destruct (rb_run_started m id ops Hid Hu Hok') as (b'&outs&rtxs&Hrun&Hres).
  exists b', outs, rtxs. split; [done|].
  pose proof (run_complete id ops b' outs rtxs n Hres Hall) as Hn. rewrite (ru_last _ _ _ _ _ Hres) in Hn.
  split; [exact Hn|]. intros x Hx Hnl. cbn in Hn.
  destruct (lookup_lt_is_Some_2 outs (N.to_nat (x - id - 1))) as [o Ho]; [lia|].
  pose proof (ru_out _ _ _ _ _ Hres _ _ Ho) as Hin. cbn in Hin.
  replace (id + 1 + N.of_nat (N.to_nat (x - id - 1)))%N with x in Hin by lia.
  destruct o as [mx|]; [|by rewrite (right_id_L ∅ (∪)) in Hin]. exists mx. do 2 (split; [done|]).
  eapply run_from_received; [done|]. right. by eapply list_elem_of_lookup_2.
Qed.

(** Without beacons, no id is requested twice, only ids after the first
    message are requested, and every message the buffer still waits for has
    been requested. *)
Theorem retransmission_exact `{BuildProfile} m id ops :
  get_id m = Done id -> stream_ok false (OpReceived m :: ops) ->
  Forall (fun o => is_beacon o = false) ops ->
  exists b' outs rtxs,
    rb_run ReceiverBuffer_default (OpReceived m :: ops) = Done (b', outs, rtxs) /\
    NoDup rtxs /\ (forall x, x ∈ rtxs -> (id < x)%N) /\ (forall x, hole b' x -> x ∈ rtxs).
Proof.
  intros Hid Hok Hnb. destruct (stream_ok_u32 m id ops Hok Hid) as [Hu Hok'].
  destruct (rb_run_started m id ops Hid Hu Hok') as (b'&outs&rtxs&Hrun&Hres).
  exists b', (Some m :: outs), rtxs. split; [done|].
  split; [by apply (ru_nodup _ _ _ _ _ Hres)|]. split.
  - intros x Hx. apply (ru_above _ _ _ _ _ Hres) in Hx. unfold known_end in Hx. simpl in Hx. lia.
  - intros x Hx. destruct (ru_holes _ _ _ _ _ Hres x Hx) as [(i&_&Hn&_)|?]; [|done].
    simpl in Hn. by rewrite lookup_nil in Hn.
Qed.

(** ** Examples and limits *)
Definition stream_msg (id : N) : ProtoMessage :=
  mkProtoMessage ∅ (Some (Publish (mkProtoPublish None (Some (mkSessionHeader 4 1 id)) None))).
Definition checked_build : BuildProfile := {| overflow_checks := true |}.
Definition release_build : BuildProfile := {| overflow_checks := false |}.

(** Messages 4, 6, 7, 5 and 9, a duplicate, and the loss of 8. *)
Definition demo_stream : list rb_op :=
  [OpReceived (stream_msg 6); OpReceived (stream_msg 7); OpReceived (stream_msg 6);
   OpReceived (stream_msg 5); OpReceived (stream_msg 9); OpLost 8].

Lemma demo_stream_ok : stream_ok false (OpReceived (stream_msg 4) :: demo_stream).
Proof.
  repeat (split; [by eexists|]). repeat split; vm_compute; discriminate.
Qed.

(** A beacon comes first. *)
Lemma receiver_in_order_witness :
  let ops := OpBeacon 3 :: OpReceived (stream_msg 4) :: demo_stream in
  exists b' outs rtxs, @rb_run checked_build ReceiverBuffer_default ops = Done (b', outs, rtxs) /\
    (forall m, Some m ∈ outs -> OpReceived m ∈ ops) /\
    exists id rest, get_id (stream_msg 4) = Done id /\ outs = Some (stream_msg 4) :: rest /\
      last_sent b' = (id + N.of_nat (length rest))%N /\ in_order id rest (lost_ids ops).
Proof.
  apply (@receiver_in_order checked_build (OpBeacon 3 :: OpReceived (stream_msg 4) :: demo_stream)).
  split; [by vm_compute|exact demo_stream_ok].
Defined.

Lemma receiver_complete_witness :
  exists b' outs rtxs,
    @rb_run checked_build ReceiverBuffer_default (OpReceived (stream_msg 4) :: demo_stream) =
      Done (b', Some (stream_msg 4) :: outs, rtxs) /\ (7 <= 4 + N.of_nat (length outs))%N /\
    forall x, (4 < x <= 7)%N -> x ∉ lost_ids demo_stream ->
      exists mx, outs !! N.to_nat (x - 4 - 1) = Some (Some mx) /\ get_id mx = Done x /\
        OpReceived mx ∈ OpReceived (stream_msg 4) :: demo_stream.
Proof.
  apply (@receiver_complete checked_build (stream_msg 4) 4%N demo_stream 7%N eq_refl demo_stream_ok).
  intros x Hx. assert (Hcase : x = 5%N \/ x = 6%N \/ x = 7%N) by lia. exists (stream_msg x).
  split; [|reflexivity]. unfold demo_stream. rewrite !elem_of_cons.
  destruct Hcase as [->|[->| ->]]; auto 10.
Defined.

Lemma retransmission_exact_witness :
  exists b' outs rtxs,
    @rb_run checked_build ReceiverBuffer_default (OpReceived (stream_msg 4) :: demo_stream) =
      Done (b', outs, rtxs) /\
    NoDup rtxs /\ (forall x, x ∈ rtxs -> (4 < x)%N) /\ (forall x, hole b' x -> x ∈ rtxs).
Proof.
  apply (@retransmission_exact checked_build (stream_msg 4) 4%N demo_stream eq_refl demo_stream_ok).
  repeat constructor.
Defined.

(** A beacon beyond the end of a non-empty buffer requests its id without
    making a place for it, so the same id is requested again by the next
    beacon. *)
Theorem beacon_requests_twice `{BuildProfile} :
  exists b outs, rb_run ReceiverBuffer_default
      [OpReceived (stream_msg 1); OpReceived (stream_msg 3); OpBeacon 5; OpBeacon 5] =
    Done (b, outs, [2; 4; 5; 5]%N).
Proof. eexists _, _. vm_compute. reflexivity. Qed.

(** A loss notice before any message computes [usize::MAX + 1]: a build
    with overflow checks panics, a release build wraps to id 0 and may even
    deliver it as lost. *)
Theorem lost_before_first_message :
  panicked (@on_lost_message checked_build ReceiverBuffer_default 7) /\
  (exists b, @on_lost_message release_build ReceiverBuffer_default 7 = Done (b, [])) /\
  exists b, @on_lost_message release_build ReceiverBuffer_default 0 = Done (b, [None]) /\
    last_sent b = 0%N.
Proof.
  split; [by eexists|]. split; [eexists; by vm_compute|]. eexists. split; by vm_compute.
Qed.
