(* ===== verification/ProducerBuffer.v ===== *)
(** * The producer buffer of a streaming session

    [service/src/producer_buffer.rs]: a ring of the last messages sent, from
    which retransmissions are served. It refines a window: the list of the last
    [capacity] messages with different ids. *)
From stdpp Require Import base list gmap strings numbers option sets.
From S2P Require Import Prelude Proto Encoder Messages.

Record ProducerBuffer : Type := mkProducerBuffer {
  pb_capacity : nat;
  pb_next : nat;
  pb_buffer : list (option ProtoMessage);
  pb_map : gmap N nat;
  pb_destination_name : AgentType;
  pb_destination_id : option N;
}.

Definition ProducerBuffer_with_capacity (capacity : nat) : ProducerBuffer :=
  mkProducerBuffer capacity 0 (replicate capacity None) ∅ AgentType_default None.

Definition ProducerBuffer_clear (b : ProducerBuffer) : ProducerBuffer :=
  mkProducerBuffer (pb_capacity b) 0 (replicate (pb_capacity b) None) ∅
    (pb_destination_name b) (pb_destination_id b).

Definition ProducerBuffer_get (b : ProducerBuffer) (id : N) : panics (option ProtoMessage) :=
  match pb_map b !! id with
  | None => Done None
  | Some index => expect (pb_buffer b !! index) "index out of bounds"
  end.

Section model.
Context `{Hasher}.

Definition ProducerBuffer_push (b : ProducerBuffer) (msg : ProtoMessage)
    : panics (ProducerBuffer * bool) :=
  '(name, dst) ← (if decide (pb_map b = ∅) then get_name msg
                  else Done (pb_destination_name b, pb_destination_id b));
  id ← get_id msg;
  if decide (is_Some (pb_map b !! id)) then
    Done (mkProducerBuffer (pb_capacity b) (pb_next b) (pb_buffer b) (pb_map b) name dst, true)
  else
    slot ← expect (pb_buffer b !! pb_next b) "index out of bounds";
    map ← match slot with
          | Some message => to_remove ← get_id message; Done (delete to_remove (pb_map b))
          | None => Done (pb_map b)
          end;
    Done (mkProducerBuffer (pb_capacity b) ((pb_next b + 1) mod pb_capacity b)
            (<[pb_next b := Some msg]> (pb_buffer b)) (<[id := pb_next b]> map) name dst, true).
End model.

(** ** The window *)

(** The messages, newest first. *)
Abbreviation Window := (list ProtoMessage).

(** The message with an id. *)
Definition window_get (w : Window) (id : N) : option ProtoMessage :=
  find (fun m => bool_decide (get_id m = Done id)) w.

Definition window_push (capacity : nat) (w : Window) (m : ProtoMessage) : Window :=
  match get_id m with
  | Done id => match window_get w id with
               | Some _ => w
               | None => take capacity (m :: w)
               end
  | Panic _ => w
  end.

(** The position of the [j]-th newest message. *)
Definition ring_pos (b : ProducerBuffer) (j : nat) : nat :=
  (pb_next b + pb_capacity b - 1 - j) mod pb_capacity b.

Record pb_rep (b : ProducerBuffer) (w : Window) : Prop := {
  pr_next : pb_next b < pb_capacity b;
  pr_length : length (pb_buffer b) = pb_capacity b;
  pr_window : length w <= pb_capacity b;
  pr_slots : forall j, j < pb_capacity b -> pb_buffer b !! ring_pos b j = Some (w !! j);
  pr_ids : forall m, m ∈ w -> exists id, get_id m = Done id;
  pr_nodup : forall i j m m', w !! i = Some m -> w !! j = Some m' -> get_id m = get_id m' -> i = j;
  pr_map : forall id pos, pb_map b !! id = Some pos <->
    exists j m, w !! j = Some m /\ get_id m = Done id /\ pos = ring_pos b j;
}.

Lemma window_get_Some w id m :
  (forall i j m m', w !! i = Some m -> w !! j = Some m' -> get_id m = get_id m' -> i = j) ->
  window_get w id = Some m <-> exists j, w !! j = Some m /\ get_id m = Done id.
Proof.
  unfold window_get. intros Hnd. split.
  - intros Hf. apply find_some in Hf as [Hin Hb]. apply bool_decide_eq_true in Hb.
    apply list_elem_of_In, list_elem_of_lookup in Hin as [j Hj]. by exists j.
  - intros (j&Hj&Hid). destruct (find _ w) as [m'|] eqn:Hf.
    + apply find_some in Hf as [Hin Hb]. apply bool_decide_eq_true in Hb.
      apply list_elem_of_In, list_elem_of_lookup in Hin as [j' Hj'].
      assert (j' = j) as -> by (eapply Hnd; [done|done|congruence]). congruence.
    + eapply find_none in Hf; [|apply list_elem_of_In, list_elem_of_lookup; by exists j].
      by rewrite bool_decide_true in Hf.
Qed.

Lemma ring_pos_lt b j : 0 < pb_capacity b -> ring_pos b j < pb_capacity b.
Proof. intros Hc. apply Nat.mod_upper_bound. lia. Qed.

(** Positions of different messages differ. *)
Lemma ring_pos_eq b j :
  pb_next b < pb_capacity b -> j < pb_capacity b ->
  ring_pos b j = if decide (j < pb_next b) then pb_next b - 1 - j
                 else pb_next b + pb_capacity b - 1 - j.
Proof.
  intros Hn Hj. unfold ring_pos. rewrite mod_wrap by lia.
  destruct (decide (j < pb_next b)).
  - rewrite decide_False by lia. lia.
  - rewrite decide_True by lia. lia.
Qed.

Lemma ring_pos_inj b i j :
  pb_next b < pb_capacity b -> i < pb_capacity b -> j < pb_capacity b ->
  ring_pos b i = ring_pos b j -> i = j.
Proof.
  intros Hn Hi Hj. rewrite !ring_pos_eq by done.
  destruct (decide (i < pb_next b)), (decide (j < pb_next b)); lia.
Qed.

(** The oldest place is the one written next. *)
Lemma ring_pos_oldest b : pb_next b < pb_capacity b -> ring_pos b (pb_capacity b - 1) = pb_next b.
Proof. intros Hn. rewrite ring_pos_eq by lia. destruct (decide _); lia. Qed.

(** [next] moves by one: the new message is the newest, the others age. *)
Lemma ring_pos_advance b b' :
  pb_next b < pb_capacity b -> pb_capacity b' = pb_capacity b ->
  pb_next b' = (pb_next b + 1) mod pb_capacity b ->
  pb_next b' < pb_capacity b' /\ ring_pos b' 0 = pb_next b /\
  forall j, S j < pb_capacity b -> ring_pos b' (S j) = ring_pos b j.
Proof.
  intros Hn Hc Hn'. assert (Hlt : pb_next b' < pb_capacity b').
  { rewrite Hn', Hc. apply Nat.mod_upper_bound. lia. }
  split; [done|]. rewrite mod_wrap in Hn' by lia. rewrite Hc in Hlt. split.
  - rewrite ring_pos_eq by lia. rewrite Hc.
    destruct (decide (pb_next b + 1 < pb_capacity b)), (decide (0 < pb_next b')); lia.
  - intros j Hj. rewrite !ring_pos_eq by lia. rewrite Hc.
    destruct (decide (pb_next b + 1 < pb_capacity b)), (decide (S j < pb_next b')),
      (decide (j < pb_next b)); lia.
Qed.

Lemma window_new_lookup capacity (m : ProtoMessage) w j :
  0 < capacity ->
  take capacity (m :: w) !! j =
  match j with 0 => Some m | S j => if decide (S j < capacity) then w !! j else None end.
Proof.
  intros Hc. destruct j as [|j].
  - by rewrite lookup_take_lt by lia.
  - destruct (decide (S j < capacity)).
    + by rewrite lookup_take_lt by lia.
    + by rewrite lookup_take_ge by lia.
Qed.

Section refinement.
Context `{Hasher}.

(** The lookup structure after the oldest entry has left. *)
Lemma pb_map_evict b w slot map :
  pb_rep b w -> pb_buffer b !! pb_next b = Some slot ->
  (match slot with
   | Some message => to_remove ← get_id message; Done (delete to_remove (pb_map b))
   | None => Done (pb_map b)
   end) = Done map ->
  forall id pos, map !! id = Some pos <->
    exists j m, S j < pb_capacity b /\ w !! j = Some m /\ get_id m = Done id /\ pos = ring_pos b j.
Proof.
  intros [Hn Hlen Hw Hslots Hids Hnd Hmap] Hslot Hmap' id pos.
  rewrite <- (ring_pos_oldest b Hn), Hslots in Hslot by lia. injection Hslot as <-.
  destruct (w !! (pb_capacity b - 1)) as [old|] eqn:Hold.
  - destruct (get_id old) as [oid|] eqn:Hoid; simpl in Hmap'; [|done]. injection Hmap' as <-.
    rewrite lookup_delete_Some, Hmap. split.
    + intros [Hne (j&m&Hj&Hid&->)]. exists j, m.
      assert (Hlt : j < length w) by (by eapply lookup_lt_Some).
      destruct (decide (j = pb_capacity b - 1)) as [->|]; [|split; [lia|done]].
      exfalso. apply Hne. congruence.
    + intros (j&m&Hlt&Hj&Hid&->). split; [|by exists j, m].
      intros <-. assert (j = pb_capacity b - 1); [|lia].
      eapply Hnd; [done|done|congruence].
  - injection Hmap' as <-. rewrite Hmap. apply lookup_ge_None in Hold. split.
    + intros (j&m&Hj&Hid&->). exists j, m.
      assert (Hlt : j < length w) by (by eapply lookup_lt_Some). split; [lia|done].
    + intros (j&m&_&Hj&Hid&->). by exists j, m.
Qed.

Lemma evict_total b w slot :
  pb_rep b w -> pb_buffer b !! pb_next b = Some slot ->
  exists map, (match slot with
   | Some message => to_remove ← get_id message; Done (delete to_remove (pb_map b))
   | None => Done (pb_map b)
   end) = Done map.
Proof.
  intros [Hn Hlen Hw Hslots Hids Hnd Hmap] Hslot.
  rewrite <- (ring_pos_oldest b Hn), Hslots in Hslot by lia. injection Hslot as <-.
  destruct (w !! (pb_capacity b - 1)) as [old|] eqn:Hold; [|by eexists].
  destruct (Hids old) as [oid Hoid]; [by eapply list_elem_of_lookup_2|]. rewrite Hoid. by eexists.
Qed.

Lemma ProducerBuffer_push_refines b w m :
  pb_rep b w -> (exists id, get_id m = Done id) -> (exists n, get_name m = Done n) ->
  exists b', ProducerBuffer_push b m = Done (b', true) /\
    pb_rep b' (window_push (pb_capacity b) w m) /\ pb_capacity b' = pb_capacity b.
Proof.
  intros Hrep [id Hid] [name Hname]. pose proof Hrep as [Hn Hlen Hw Hslots Hids Hnd Hmap].
  unfold ProducerBuffer_push, window_push. rewrite Hid, Hname.
  assert (Hdst : exists d, (if decide (pb_map b = ∅) then Done name
    else Done (pb_destination_name b, pb_destination_id b)) = Done d).
  { case_decide; by eexists. }
  destruct Hdst as [[nm dst] ->]. cbn [mbind panics_bind].
  assert (Hin : is_Some (pb_map b !! id) <-> is_Some (window_get w id)).
  { split.
    - intros [pos (j&m'&Hj&Hid'&_)%Hmap]. exists m'. apply window_get_Some; [done|]. by exists j.
    - intros [m' (j&Hj&Hid')%window_get_Some]; [|done]. exists (ring_pos b j). apply Hmap. by exists j, m'. }
  destruct (decide (is_Some (pb_map b !! id))) as [Hyes|Hno].
  { eexists. split; [done|]. split; [|done].
    destruct (proj1 Hin Hyes) as [m' ->]. by split. }
  destruct (window_get w id) as [m'|] eqn:Hwg; [destruct Hno; by apply Hin|].
  destruct (lookup_lt_is_Some_2 (pb_buffer b) (pb_next b)) as [slot Hslot]; [lia|].
  rewrite Hslot. cbn [expect mbind panics_bind].
  destruct (evict_total b w slot Hrep Hslot) as [map Hmap'].
  pose proof (pb_map_evict b w slot map Hrep Hslot Hmap') as Hev. rewrite Hmap'.
  eexists. split; [done|]. split; [|done].
  set (b' := mkProducerBuffer _ _ _ _ _ _).
  destruct (ring_pos_advance b b' Hn eq_refl eq_refl) as (Hn'&Hpos0&HposS).
  assert (Hfresh : forall j m', w !! j = Some m' -> get_id m' <> Done id).
  { intros j m' Hj Hid'. assert (window_get w id = Some m'); [|congruence].
    apply window_get_Some; [done|]. by exists j. }
  split; [done|simpl; by rewrite length_insert|rewrite length_take; simpl; lia|..].
  - intros j Hj. rewrite window_new_lookup by (simpl in *; lia). destruct j as [|j].
    + rewrite Hpos0. simpl. by rewrite list_lookup_insert_eq by lia.
    + simpl in Hj. rewrite HposS by done. rewrite decide_True by done. simpl.
      rewrite list_lookup_insert_ne; [by apply Hslots; lia|].
      rewrite <- (ring_pos_oldest b Hn). intros Heq. apply ring_pos_inj in Heq; lia.
  - intros m' Hm'. apply list_elem_of_lookup in Hm' as [j Hj].
    rewrite window_new_lookup in Hj by lia. destruct j as [|j]; [injection Hj as <-; by exists id|].
    case_decide; [|done]. apply Hids. by eapply list_elem_of_lookup_2.
  - intros i j x y. rewrite !window_new_lookup by lia.
    destruct i as [|i], j as [|j]; [done|..]; repeat case_decide; try done.
    + intros [= <-] Hy Heq. exfalso. apply (Hfresh j y Hy). congruence.
    + intros Hx [= <-] Heq. exfalso. apply (Hfresh i x Hx). congruence.
    + intros Hx Hy Heq. f_equal. by eapply Hnd.
  - intros x pos. simpl. rewrite lookup_insert_Some, Hev. split.
    + intros [[<- <-]|(Hne&j&m'&Hlt&Hj&Hid'&->)].
      * exists 0, m. rewrite window_new_lookup by lia. by rewrite Hpos0.
      * exists (S j), m'. rewrite window_new_lookup by lia. rewrite decide_True by done.
        by rewrite HposS.
    + intros (j&m'&Hj&Hid'&->). rewrite window_new_lookup in Hj by lia. destruct j as [|j].
      * injection Hj as <-. left. split; [congruence|]. by rewrite Hpos0.
      * case_decide; [|done]. right. split.
        { intros <-. by apply (Hfresh j m' Hj). }
        exists j, m'. by rewrite HposS.
Qed.

Lemma pb_rep_empty b :
  0 < pb_capacity b -> pb_next b = 0 -> pb_buffer b = replicate (pb_capacity b) None ->
  pb_map b = ∅ -> pb_rep b [].
Proof.
  intros Hc Hn Hb Hm. split; simpl; [lia|by rewrite Hb, length_replicate|lia|..].
  - intros j Hj. rewrite Hb. apply lookup_replicate_2. by apply ring_pos_lt.
  - intros m Hx. by apply elem_of_nil in Hx.
  - intros i j m m'. by rewrite lookup_nil.
  - intros id pos. rewrite Hm, lookup_empty. split; [done|]. intros (j&m&Hj&_). by rewrite lookup_nil in Hj.
Qed.

Lemma ProducerBuffer_get_refines b w id :
  pb_rep b w -> ProducerBuffer_get b id = Done (window_get w id).
Proof.
  intros [Hn Hlen Hw Hslots Hids Hnd Hmap]. unfold ProducerBuffer_get.
  destruct (pb_map b !! id) as [pos|] eqn:E.
  - apply Hmap in E as (j&m&Hj&Hid&->).
    assert (j < length w) by (by eapply lookup_lt_Some). rewrite Hslots, Hj by lia. simpl.
    f_equal. symmetry. apply window_get_Some; [done|]. by exists j.
  - destruct (window_get w id) as [m|] eqn:Hg; [|done].
    apply window_get_Some in Hg as (j&Hj&Hid); [|done].
    assert (Hx : pb_map b !! id = Some (ring_pos b j)); [|congruence]. apply Hmap. by exists j, m.
Qed.
End refinement.

(** ** Runs *)
Inductive pb_op : Type :=
| PbPush (msg : ProtoMessage)
| PbClear.

Section runs.
Context `{Hasher}.

Fixpoint pb_run (b : ProducerBuffer) (ops : list pb_op) : panics ProducerBuffer :=
  match ops with
  | [] => Done b
  | PbPush m :: ops => '(b, _) ← ProducerBuffer_push b m; pb_run b ops
  | PbClear :: ops => pb_run (ProducerBuffer_clear b) ops
  end.

Fixpoint window_run (capacity : nat) (w : Window) (ops : list pb_op) : Window :=
  match ops with
  | [] => w
  | PbPush m :: ops => window_run capacity (window_push capacity w m) ops
  | PbClear :: ops => window_run capacity [] ops
  end.

(** Publications, with a session header and a destination. *)
Definition pb_op_ok (o : pb_op) : Prop :=
  match o with
  | PbPush m => (exists id, get_id m = Done id) /\ exists n, get_name m = Done n
  | PbClear => True
  end.

Lemma pb_run_refines ops : forall b w,
  pb_rep b w -> Forall pb_op_ok ops ->
  exists b', pb_run b ops = Done b' /\ pb_rep b' (window_run (pb_capacity b) w ops).
Proof.
  induction ops as [|o ops IH]; intros b w Hrep Hok; [by exists b|].
  apply Forall_cons in Hok as [Ho Hok]. destruct o as [m|]; simpl.
  - destruct Ho as [Hid Hname].
    destruct (ProducerBuffer_push_refines b w m Hrep Hid Hname) as (b1&->&Hrep1&Hcap).
    rewrite <- Hcap. cbn [mbind panics_bind]. apply IH; [|done]. by rewrite Hcap.
  - assert (Hrep1 : pb_rep (ProducerBuffer_clear b) []).
    { apply pb_rep_empty; [|done..]. pose proof (pr_next b w Hrep). simpl. lia. }
    exact (IH (ProducerBuffer_clear b) [] Hrep1 Hok).
Qed.
End runs.

(** A producer buffer behaves as the window of the last [capacity]
    messages with different ids: after any pushes and clears, none of which
    panics, [get] returns the message with the given id when it is among them,
    and nothing otherwise. *)
Theorem producer_buffer_refines `{Hasher} capacity ops id :
  0 < capacity -> Forall pb_op_ok ops ->
  exists b, pb_run (ProducerBuffer_with_capacity capacity) ops = Done b /\
    ProducerBuffer_get b id = Done (window_get (window_run capacity [] ops) id).
Proof.
  intros Hc Hok.
  destruct (pb_run_refines ops (ProducerBuffer_with_capacity capacity) []) as (b&Hrun&Hrep);
    [by apply pb_rep_empty|done|].
  exists b. split; [done|]. by apply ProducerBuffer_get_refines.
Qed.

Definition buffered_msg (id : N) : ProtoMessage :=
  mkProtoMessage ∅ (Some (Publish (mkProtoPublish
    (Some (mkSlimHeader None (Some (mkProtoAgent 1 2 3 None)) 1 None None None None))
    (Some (mkSessionHeader 3 1 id)) None))).

Lemma producer_buffer_refines_witness :
  exists b, @pb_run toy_hasher (ProducerBuffer_with_capacity 2)
      [PbPush (buffered_msg 1); PbPush (buffered_msg 2); PbPush (buffered_msg 3)] = Done b /\
    ProducerBuffer_get b 1 = Done (window_get (window_run 2 []
      [PbPush (buffered_msg 1); PbPush (buffered_msg 2); PbPush (buffered_msg 3)]) 1).
Proof.
  apply (@producer_buffer_refines toy_hasher 2
    [PbPush (buffered_msg 1); PbPush (buffered_msg 2); PbPush (buffered_msg 3)] 1%N); [lia|].
  repeat (constructor; [split; eexists; reflexivity|]). constructor.
Defined.
