(* ===== verification/Timer.v ===== *)
(** * Timers

    [service/src/timer.rs]. A started timer is a task that sleeps, calls its
    observer and sleeps again, until its token is cancelled or the retries are
    used up. [timer_turn] is one turn of its loop on what the [select!] returned;
    the result lists the observer calls. Durations are in nanoseconds; a
    multiplication that leaves the range of [Duration] panics. *)
From stdpp Require Import base list gmap strings numbers option sets.
From S2P Require Import Prelude.

Inductive TimerType : Type :=
| Constant
| Exponential.

Record Timer : Type := mkTimer {
  timer_id : N;
  timer_type : TimerType;
  duration : N;
  max_duration : option N;
  max_retries : option N;
  cancellation_token : N;
}.

(** [Duration::MAX]: [u64::MAX] seconds and 999999999 nanoseconds. *)
Definition duration_max : N := (u64_max * 1000000000 + 999999999)%N.

(** The calls of [TimerObserver]. *)
Inductive ObserverCall : Type :=
| OnTimeout (timer_id timeouts : N)
| OnFailure (timer_id timeouts : N)
| OnStop (timer_id : N).

(** The variables of a running task. *)
Record TimerTask : Type := mkTimerTask {
  tt_timer : Timer;
  tt_token : N;
  tt_retry : N;
  tt_timeouts : N;
  tt_last_duration : N;
}.

(** The time to sleep in this turn, which is the new [last_duration] of an
    exponential timer. *)
Definition timer_duration (t : TimerTask) : panics (N * N) :=
  match timer_type (tt_timer t) with
  | Constant => Done (duration (tt_timer t), tt_last_duration t)
  | Exponential =>
      d ← (if decide (tt_timeouts t = 0%N) then Done (duration (tt_timer t))
           else if decide (tt_last_duration t * 2 <= duration_max)%N then Done (tt_last_duration t * 2)%N
           else Panic "overflow when multiplying duration by scalar");
      match max_duration (tt_timer t) with
      | None => Done (d, d)
      | Some max_d => if decide (max_d < d)%N then Done (max_d, max_d) else Done (d, d)
      end
  end.

Inductive TimerEvent : Type :=
| Elapsed
| TokenCancelled.

(** One turn: the task that goes on ([None] when the loop is left), the time it
    slept, and the calls. *)
Definition timer_turn (t : TimerTask) (ev : TimerEvent)
    : panics (option TimerTask * N * list ObserverCall) :=
  '(sleep, last) ← timer_duration t;
  match ev with
  | Elapsed =>
      let timeouts := wrap_u32 (tt_timeouts t + 1) in
      let id := timer_id (tt_timer t) in
      let go := Some (mkTimerTask (tt_timer t) (tt_token t) (wrap_u32 (tt_retry t + 1)) timeouts last) in
      match max_retries (tt_timer t) with
      | Some max =>
          if decide (tt_retry t < max)%N then Done (go, sleep, [OnTimeout id timeouts])
          else Done (None, sleep, [OnFailure id timeouts])
      | None => Done (go, sleep, [OnTimeout id timeouts])
      end
  | TokenCancelled => Done (None, sleep, [OnStop (timer_id (tt_timer t))])
  end.

(** ** Handles

    The tokens that were cancelled, and the running tasks. *)
Record TimerSystem : Type := mkTimerSystem {
  sys_cancelled : gset N;
  sys_next : N;
  sys_tasks : list TimerTask;
}.

(** [Timer::new]. *)
Definition Timer_new (sys : TimerSystem) (id : N) (ty : TimerType) (d : N) (max_d : option N)
    (retries : option N) : TimerSystem * Timer :=
  (mkTimerSystem (sys_cancelled sys) (sys_next sys + 1) (sys_tasks sys),
   mkTimer id ty d max_d retries (sys_next sys)).

(** [Timer::start]. *)
Definition Timer_start (sys : TimerSystem) (t : Timer) : TimerSystem :=
  mkTimerSystem (sys_cancelled sys) (sys_next sys)
    (sys_tasks sys ++ [mkTimerTask t (cancellation_token t) 0 0 (duration t)]).

(** [Timer::stop]: cancel, and take a new token for a later start. *)
Definition Timer_stop (sys : TimerSystem) (t : Timer) : TimerSystem * Timer :=
  (mkTimerSystem ({[cancellation_token t]} ∪ sys_cancelled sys) (sys_next sys + 1) (sys_tasks sys),
   mkTimer (timer_id t) (timer_type t) (duration t) (max_duration t) (max_retries t) (sys_next sys)).

(** [Timer::reset]. *)
Definition Timer_reset (sys : TimerSystem) (t : Timer) : TimerSystem * Timer :=
  let (sys, t) := Timer_stop sys t in (Timer_start sys t, t).

(** [Drop]. *)
Definition Timer_drop (sys : TimerSystem) (t : Timer) : TimerSystem :=
  mkTimerSystem ({[cancellation_token t]} ∪ sys_cancelled sys) (sys_next sys) (sys_tasks sys).

(** ** Properties *)

(** A run of a task on events: the sleeps, the calls, and the task if it goes
    on. Events after the end are not seen. *)
Fixpoint timer_run (t : TimerTask) (evs : list TimerEvent)
    : panics (option TimerTask * list N * list ObserverCall) :=
  match evs with
  | [] => Done (Some t, [], [])
  | ev :: evs =>
      '(next, sleep, calls) ← timer_turn t ev;
      match next with
      | None => Done (None, [sleep], calls)
      | Some t =>
          '(final, sleeps, calls') ← timer_run t evs;
          Done (final, sleep :: sleeps, calls ++ calls')
      end
  end.

(** The [k]-th sleep. *)
Fixpoint backoff (t : Timer) (k : nat) : N :=
  match timer_type t with
  | Constant => duration t
  | Exponential =>
      let d := match k with 0 => duration t | S k => (2 * backoff t k)%N end in
      match max_duration t with None => d | Some max_d => N.min max_d d end
  end.

(** The task has slept [n] times. *)
Definition after_turns (t : Timer) (tok : N) (n : nat) : TimerTask :=
  mkTimerTask t tok (N.of_nat n) (N.of_nat n)
    (match n with 0 => duration t | S k => match timer_type t with
                                           | Constant => duration t
                                           | Exponential => backoff t k end end).

Lemma timer_duration_backoff t tok n :
  (forall k, k <= n -> (backoff t k * 2 <= duration_max)%N) ->
  exists last, timer_duration (after_turns t tok n) = Done (backoff t n, last) /\
    last = match timer_type t with Constant => duration t | Exponential => backoff t n end.
Proof.
  intros Hmax. unfold timer_duration, after_turns; simpl. destruct (timer_type t) eqn:Hty.
  - exists (duration t). destruct n; simpl; by rewrite Hty.
  - exists (backoff t n). split; [|done].
    assert (Hd : (if decide (N.of_nat n = 0%N) then Done (duration t)
       else if decide (N.le (N.mul (match n with 0 => duration t | S k => backoff t k end) 2) duration_max)
            then Done (N.mul (match n with 0 => duration t | S k => backoff t k end) 2)
            else Panic "overflow when multiplying duration by scalar") =
      Done (match n with 0 => duration t | S k => N.mul 2 (backoff t k) end)).
    { destruct n as [|k]; [done|]. rewrite decide_False by lia.
      rewrite decide_True by (apply Hmax; lia). f_equal. lia. }
    rewrite Hd. cbn [mbind panics_bind]. destruct n as [|k]; cbn [backoff]; rewrite Hty;
      (destruct (max_duration t) as [max_d|]; [|done]);
      (destruct (decide (max_d < _)%N); [rewrite N.min_l by lia|rewrite N.min_r by lia]); done.
Qed.

Lemma timer_turn_elapsed t tok n :
  (forall k, k <= n -> (backoff t k * 2 <= duration_max)%N) -> is_u32 (N.of_nat n + 1)%N ->
  timer_turn (after_turns t tok n) Elapsed =
  Done (match max_retries t with
        | Some max => if decide (N.of_nat n < max)%N then Some (after_turns t tok (S n)) else None
        | None => Some (after_turns t tok (S n))
        end, backoff t n,
        [match max_retries t with
         | Some max => if decide (N.of_nat n < max)%N then OnTimeout (timer_id t) (N.of_nat n + 1)
                       else OnFailure (timer_id t) (N.of_nat n + 1)
         | None => OnTimeout (timer_id t) (N.of_nat n + 1)
         end]).
Proof.
  intros Hmax Hu. unfold timer_turn.
  destruct (timer_duration_backoff t tok n Hmax) as (last&->&->). cbn [mbind panics_bind].
  simpl. rewrite wrap_u32_small by done.
  replace (N.of_nat n + 1)%N with (N.of_nat (S n)) by lia.
  destruct (max_retries t); [case_decide|]; done.
Qed.

Lemma timer_run_from t tok max n k :
  max_retries t = Some max -> (forall j, backoff t j * 2 <= duration_max)%N ->
  is_u32 (max + 1)%N -> n + k = N.to_nat max ->
  timer_run (after_turns t tok n) (replicate (S k) Elapsed) =
  Done (None, backoff t <$> seq n (S k),
    ((fun j => OnTimeout (timer_id t) (N.of_nat j + 1)) <$> seq n k) ++
    [OnFailure (timer_id t) (max + 1)]).
Proof.
  intros Hret Hmax Hu. revert n. induction k as [|k IH]; intros n Hn.
  - simpl. rewrite timer_turn_elapsed by (unfold is_u32 in *; (auto || lia)). rewrite Hret.
    rewrite !decide_False by lia. simpl. repeat f_equal. lia.
  - change (replicate (S (S k)) Elapsed) with (Elapsed :: replicate (S k) Elapsed).
    cbn [timer_run]. rewrite timer_turn_elapsed by (unfold is_u32 in *; (auto || lia)). rewrite Hret.
    rewrite !decide_True by lia. cbn [mbind panics_bind]. rewrite IH by lia. done.
Qed.

(** A started timer with [max] retries whose token is not cancelled calls
    [on_timeout] exactly [max] times, numbered 1 to [max], then [on_failure]
    with [max + 1], and ends. It sleeps its duration each time if constant; an
    exponential timer doubles the sleep each time up to [max_duration]. *)
Theorem timer_fires t tok max :
  max_retries t = Some max -> is_u32 (max + 1)%N ->
  (forall j, backoff t j * 2 <= duration_max)%N ->
  timer_run (mkTimerTask t tok 0 0 (duration t)) (replicate (S (N.to_nat max)) Elapsed) =
  Done (None, backoff t <$> seq 0 (S (N.to_nat max)),
    ((fun j => OnTimeout (timer_id t) (N.of_nat j + 1)) <$> seq 0 (N.to_nat max)) ++
    [OnFailure (timer_id t) (max + 1)]).
Proof. intros Hret Hu Hmax. exact (timer_run_from t tok max 0 _ Hret Hmax Hu eq_refl). Qed.

Definition demo_timer : Timer := mkTimer 4 Exponential 100 (Some 500%N) (Some 3%N) 0.

Lemma demo_timer_backoff j : (backoff demo_timer j <= 500)%N.
Proof. destruct j; simpl; lia. Qed.

Lemma timer_fires_witness :
  timer_run (mkTimerTask demo_timer 0 0 0 100) (replicate 4 Elapsed) =
  Done (None, [100; 200; 400; 500]%N, [OnTimeout 4 1; OnTimeout 4 2; OnTimeout 4 3; OnFailure 4 4]).
Proof.
  refine (timer_fires demo_timer 0%N 3%N eq_refl _ _).
  - vm_compute. discriminate.
  - intros j. pose proof (demo_timer_backoff j). unfold duration_max, u64_max. lia.
Defined.

(** A task whose token is cancelled calls [on_stop] once and ends, whatever
    it had done before; its sleeps and earlier calls are those of the turns
    before the cancellation. *)
Theorem timer_stops t k evs :
  forall t' sleeps calls,
  timer_run t (replicate k Elapsed) = Done (Some t', sleeps, calls) ->
  (exists d, timer_duration t' = Done d) ->
  exists sleeps', timer_run t (replicate k Elapsed ++ TokenCancelled :: evs) =
    Done (None, sleeps ++ sleeps', calls ++ [OnStop (timer_id (tt_timer t))]).
Proof.
  revert t. induction k as [|k IH]; intros t t' sleeps calls Hrun Hd.
  - simpl in Hrun. injection Hrun as <- <- <-. simpl. unfold timer_turn. destruct Hd as [[d l] ->].
    by exists [d].
  - cbn [replicate timer_run app] in *. destruct (timer_turn t Elapsed) as [[[next sleep] cs]|] eqn:Ht;
      cbn [mbind panics_bind] in *; [|done].
    destruct next as [t1|]; [|done].
    assert (Htm : tt_timer t1 = tt_timer t).
    { unfold timer_turn in Ht. destruct (timer_duration t) as [[d l]|]; simpl in Ht; [|done].
      destruct (max_retries (tt_timer t)); [case_decide|]; by simplify_eq. }
    destruct (timer_run t1 (replicate k Elapsed)) as [[[final sl] cl]|] eqn:Hr;
      cbn [mbind panics_bind] in *; [|done].
    injection Hrun as -> <- <-.
    destruct (IH t1 t' sl cl Hr Hd) as [sleeps' ->]. cbn [mbind panics_bind].
    exists sleeps'. rewrite Htm. by rewrite <- app_assoc.
Qed.

Lemma timer_stops_witness :
  exists sleeps', timer_run (mkTimerTask demo_timer 0 0 0 100) (replicate 2 Elapsed ++ [TokenCancelled]) =
    Done (None, [100; 200]%N ++ sleeps', [OnTimeout 4 1; OnTimeout 4 2] ++ [OnStop 4]).
Proof.
  refine (timer_stops (mkTimerTask demo_timer 0 0 0 100) 2 []
    (mkTimerTask demo_timer 0 2 2 200) [100; 200]%N [OnTimeout 4 1; OnTimeout 4 2] _ _).
  - vm_compute. reflexivity.
  - eexists. vm_compute. reflexivity.
Defined.

(** Tokens in use are below the next fresh one. *)
Definition tokens_below (sys : TimerSystem) (t : Timer) : Prop :=
  (cancellation_token t < sys_next sys)%N /\
  set_Forall (fun tok => tok < sys_next sys)%N (sys_cancelled sys) /\
  Forall (fun task => tt_token task < sys_next sys)%N (sys_tasks sys).

(** Resetting a timer stops every task it had started (their token is
    cancelled) and starts one new task, with the timer's parameters, no retries
    used and a token that is not cancelled; tasks of other timers keep their
    tokens. *)
Theorem timer_reset_fresh sys t :
  tokens_below sys t ->
  let (sys', t') := Timer_reset sys t in
  (forall task, task ∈ sys_tasks sys -> tt_token task = cancellation_token t ->
     tt_token task ∈ sys_cancelled sys') /\
  (exists task, sys_tasks sys' = sys_tasks sys ++ [task] /\ tt_token task = cancellation_token t' /\
     tt_token task ∉ sys_cancelled sys' /\ (forall old, old ∈ sys_tasks sys -> tt_token old <> tt_token task) /\
     tt_retry task = 0%N /\ tt_timeouts task = 0%N /\ duration (tt_timer task) = duration t /\
     max_retries (tt_timer task) = max_retries t) /\
  (forall tok, tok <> cancellation_token t -> tok ∈ sys_cancelled sys' <-> tok ∈ sys_cancelled sys) /\
  tokens_below sys' t'.
Proof.
  intros (Ht&Hc&Hf). simpl. split; [|split; [|split]].
  - intros task _ ->. apply elem_of_union_l, elem_of_singleton. done.
  - eexists. split; [done|]. simpl. split; [done|]. split; [|split; [|done]].
    + rewrite elem_of_union, elem_of_singleton. intros [Heq|Hin]; [lia|].
      specialize (Hc _ Hin). simpl in Hc. lia.
    + intros old Hold. rewrite list.Forall_forall in Hf. specialize (Hf old Hold). simpl in Hf. lia.
  - intros tok Hne. rewrite elem_of_union, elem_of_singleton. tauto.
  - split; simpl; [lia|]. split.
    + intros tok [->%elem_of_singleton|Hin]%elem_of_union; [lia|]. specialize (Hc _ Hin). simpl in *. lia.
    + apply Forall_app. split; [|by repeat constructor; simpl; lia].
      eapply Forall_impl; [exact Hf|]. simpl. intros task. lia.
Qed.

Lemma timer_reset_fresh_witness :
  let sys := mkTimerSystem ∅ 1 [mkTimerTask demo_timer 0 1 1 100] in
  let (sys', t') := Timer_reset sys demo_timer in
  tokens_below sys' t' /\ 0%N ∈ sys_cancelled sys'.
Proof.
  assert (Hb : tokens_below (mkTimerSystem ∅ 1 [mkTimerTask demo_timer 0 1 1 100]) demo_timer).
  { split; [simpl; lia|]. split; [by intros x ?%elem_of_empty|]. repeat constructor; simpl; lia. }
  destruct (timer_reset_fresh _ _ Hb) as (Hold&_&_&Hbelow). split; [exact Hbelow|].
  apply (Hold (mkTimerTask demo_timer 0 1 1 100)); [by left|reflexivity].
Defined.
