(* ===== verification/Session.v ===== *)
(** * Sessions: common part

    [service/src/session.rs], the session errors of [service/src/errors.rs] and
    the configurations of the three kinds of session, with the interceptors and
    the data every session keeps ([Common]).

    A session sends on two channels it shares with the other sessions of its
    application: [tx_slim], to the message processor, and [tx_app], to the
    application. [SessionIo] is what a session changes outside its own state:
    the two channels, the timers and the position in the stream of random
    draws. [sess S] computes on such an environment and a session state [S]. *)
From stdpp Require Import base list gmap strings numbers option pretty.
From S2P Require Import Prelude Proto Encoder Messages Timer.

Definition SESSION_UNSPECIFIED : N := u32_max.
(** [SESSION_RANGE]: [0..(u32::MAX - 1000)]. *)
Definition SESSION_RANGE_end : N := (u32_max - 1000)%N.
Definition SESSION_RANGE_contains (id : N) : bool := bool_decide (id < SESSION_RANGE_end)%N.

(** ** Session info and messages *)
Record Info : Type := mkInfo {
  in_id : N;
  in_message_id : option N;
  in_session_header_type : SessionHeaderType;
  in_message_source : option Agent;
  in_input_connection : option N;
}.

Definition Info_new (id : N) : Info := mkInfo id None Unspecified None None.

Definition Info_set_message_id (message_id : N) (i : Info) : Info :=
  mkInfo (in_id i) (Some message_id) (in_session_header_type i) (in_message_source i)
    (in_input_connection i).
Definition Info_set_session_header_type (t : SessionHeaderType) (i : Info) : Info :=
  mkInfo (in_id i) (in_message_id i) t (in_message_source i) (in_input_connection i).
Definition Info_set_message_source (source : Agent) (i : Info) : Info :=
  mkInfo (in_id i) (in_message_id i) (in_session_header_type i) (Some source) (in_input_connection i).
Definition Info_set_input_connection (conn : N) (i : Info) : Info :=
  mkInfo (in_id i) (in_message_id i) (in_session_header_type i) (in_message_source i) (Some conn).
(** [message.info.id = id]. *)
Definition Info_set_id (id : N) (i : Info) : Info :=
  mkInfo id (in_message_id i) (in_session_header_type i) (in_message_source i) (in_input_connection i).

(** [impl From<&Message> for Info]. *)
Definition Info_from (message : ProtoMessage) : panics Info :=
  session_header ← get_session_header message;
  slim_header ← get_slim_header message;
  message_source ← get_source message;
  Done (mkInfo (se_session_id session_header) (Some (se_message_id session_header))
          (default Unspecified (SessionHeaderType_try_from (se_header_type session_header)))
          (Some message_source) (sh_incoming_conn slim_header)).

Record SessionMessage : Type := mkSessionMessage {
  sm_message : ProtoMessage;
  sm_info : Info;
}.

(** [impl From<Message> for SessionMessage]. *)
Definition SessionMessage_from (message : ProtoMessage) : panics SessionMessage :=
  info ← Info_from message; Done (mkSessionMessage message info).

(** ** Errors *)
Inductive SessionError : Type :=
| SlimReception (what : string)
| SlimTransmission (what : string)
| Forward (what : string)
| AppReception (what : string)
| AppTransmission (what : string)
| Processing (what : string)
| SessionIdAlreadyUsed (what : string)
| InvalidSessionId (what : string)
| MissingSlimHeader (what : string)
| MissingSessionHeader
| SessionUnknown (what : string)
| SessionNotFound (what : string)
| SessionDefaultNotSupported (what : string)
| MissingSessionId (what : string)
| ValidationError (what : string)
| Timeout (session_id message_id : N) (message : SessionMessage)
| ConfigurationError (what : string)
| MessageLost (what : string)
| SessionClosed (what : string)
| InterceptorError (what : string).

Open Scope string_scope.
(** [thiserror]'s [Display]. *)
Definition SessionError_fmt (e : SessionError) : string :=
  match e with
  | SlimReception w => "error receiving message from slim instance: " +:+ w
  | SlimTransmission w => "error sending message to slim instance: " +:+ w
  | Forward w => "error in message forwarding: " +:+ w
  | AppReception w => "error receiving message from app: " +:+ w
  | AppTransmission w => "error sending message to app: " +:+ w
  | Processing w => "error processing message: " +:+ w
  | SessionIdAlreadyUsed w => "session id already used: " +:+ w
  | InvalidSessionId w => "invalid session id: " +:+ w
  | MissingSlimHeader w => "missing SLIM header: " +:+ w
  | MissingSessionHeader => "missing session header"
  | SessionUnknown w => "session unknown: " +:+ w
  | SessionNotFound w => "session not found: " +:+ w
  | SessionDefaultNotSupported w => "default for session not supported: " +:+ w
  | MissingSessionId w => "missing session id: " +:+ w
  | ValidationError w => "error during message validation: " +:+ w
  | Timeout sid mid _ => "message=" +:+ fmt_dec mid +:+ " session=" +:+ fmt_dec sid +:+ ": timeout"
  | ConfigurationError w => "configuration error: " +:+ w
  | MessageLost w => "message lost: " +:+ w
  | SessionClosed w => "session closed: " +:+ w
  | InterceptorError w => "interceptor error: " +:+ w
  end.

(** ** Kinds of session *)
Inductive State : Type := Active | Inactive.
Inductive SessionDirection : Type := Sender | Receiver | Bidirectional.
Inductive MessageDirection : Type := North | South.
Inductive SessionType : Type :=
| SessionType_FireAndForget
| SessionType_RequestResponse
| SessionType_Streaming.

#[export] Instance SessionDirection_eq_dec : EqDecision SessionDirection.
Proof. solve_decision. Defined.

(** [impl Display for SessionType]. *)
Definition SessionType_fmt (t : SessionType) : string :=
  match t with
  | SessionType_FireAndForget => "FireAndForget"
  | SessionType_RequestResponse => "RequestResponse"
  | SessionType_Streaming => "Streaming"
  end.

(** ** Configurations

    Durations are in nanoseconds. *)
Definition from_millis (ms : N) : N := (ms * 1000000)%N.
Definition from_secs (s : N) : N := (s * 1000000000)%N.
Definition as_millis (d : N) : N := (d / 1000000)%N.

Record FireAndForgetConfiguration : Type := mkFireAndForgetConfiguration {
  ff_timeout : option N;
  ff_max_retries : option N;
  ff_sticky : bool;
}.
Record RequestResponseConfiguration : Type := mkRequestResponseConfiguration {
  rr_timeout : N;
}.
Record StreamingConfiguration : Type := mkStreamingConfiguration {
  sc_direction : SessionDirection;
  sc_topic : AgentType;
  sc_max_retries : N;
  sc_timeout : N;
}.

Inductive SessionConfig : Type :=
| SessionConfig_FireAndForget (c : FireAndForgetConfiguration)
| SessionConfig_RequestResponse (c : RequestResponseConfiguration)
| SessionConfig_Streaming (c : StreamingConfiguration).

(** [#[derive(Default)]]. *)
Definition FireAndForgetConfiguration_default : FireAndForgetConfiguration :=
  mkFireAndForgetConfiguration None None false.
Definition RequestResponseConfiguration_default : RequestResponseConfiguration :=
  mkRequestResponseConfiguration (from_millis 1000).
Definition StreamingConfiguration_default : StreamingConfiguration :=
  mkStreamingConfiguration Receiver AgentType_default 10 (from_millis 1000).
Definition StreamingConfiguration_new (direction : SessionDirection) (topic : option AgentType)
    (max_retries timeout : option N) : StreamingConfiguration :=
  mkStreamingConfiguration direction (default AgentType_default topic) (default 0%N max_retries)
    (default (from_millis 0) timeout).

Definition FireAndForgetConfiguration_fmt (c : FireAndForgetConfiguration) : string :=
  "FireAndForgetConfiguration: timeout: " +:+ fmt_dec (as_millis (default 0%N (ff_timeout c)))
    +:+ " ms, max retries: " +:+ fmt_dec (default 0%N (ff_max_retries c)).
Definition RequestResponseConfiguration_fmt (c : RequestResponseConfiguration) : string :=
  "RequestResponseConfiguration: timeout: " +:+ fmt_dec (as_millis (rr_timeout c)) +:+ " ms".
Definition StreamingConfiguration_fmt (c : StreamingConfiguration) : string :=
  "StreamingConfiguration: max_retries: " +:+ fmt_dec (sc_max_retries c) +:+ ", timeout: "
    +:+ fmt_dec (as_millis (sc_timeout c)) +:+ " ms".
(** [impl Display for SessionConfig]. *)
Definition SessionConfig_fmt (c : SessionConfig) : string :=
  match c with
  | SessionConfig_FireAndForget ff => FireAndForgetConfiguration_fmt ff
  | SessionConfig_RequestResponse rr => RequestResponseConfiguration_fmt rr
  | SessionConfig_Streaming s => StreamingConfiguration_fmt s
  end.

(** [{:?}] of a direction. *)
Definition SessionDirection_debug (d : SessionDirection) : string :=
  match d with Sender => "Sender" | Receiver => "Receiver" | Bidirectional => "Bidirectional" end.

(** [{:?}] of a configuration, and the text of prost's error for an integer
    that is no enumeration value: used in error texts only. *)
Class ErrorText : Type := {
  SessionConfig_debug : SessionConfig -> string;
  unknown_enum_value : Z -> string;
}.

Section replace.
Context `{ErrorText}.

(** [SessionConfigTrait::replace]: the new configuration, or why not. *)
Definition FireAndForgetConfiguration_replace (_ : FireAndForgetConfiguration) (c : SessionConfig)
    : Result FireAndForgetConfiguration SessionError :=
  match c with
  | SessionConfig_FireAndForget config => Ok config
  | _ => Err (ConfigurationError
           ("invalid session config type: expected FireAndForget, got " +:+ SessionConfig_debug c))
  end.
Definition RequestResponseConfiguration_replace (_ : RequestResponseConfiguration) (c : SessionConfig)
    : Result RequestResponseConfiguration SessionError :=
  match c with
  | SessionConfig_RequestResponse config => Ok config
  | _ => Err (ConfigurationError
           ("invalid session config type: expected RequestResponse, got " +:+ SessionConfig_debug c))
  end.
Definition StreamingConfiguration_replace (s : StreamingConfiguration) (c : SessionConfig)
    : Result StreamingConfiguration SessionError :=
  match c with
  | SessionConfig_Streaming config =>
      if decide (sc_direction s <> sc_direction config) then
        Err (ConfigurationError
          ("cannot change session direction from " +:+ SessionDirection_debug (sc_direction s)
             +:+ " to " +:+ SessionDirection_debug (sc_direction config)))
      else Ok config
  | _ => Err (ConfigurationError
           ("invalid session config type: expected Streaming, got " +:+ SessionConfig_debug c))
  end.
End replace.

(** ** Interceptors

    An interceptor may change the message and may refuse it. *)
Record SessionInterceptor : Type := mkSessionInterceptor {
  on_msg_from_app : ProtoMessage -> ProtoMessage * Result unit SessionError;
  on_msg_from_slim : ProtoMessage -> ProtoMessage * Result unit SessionError;
}.

Definition IdentitySessionInterceptor (identity : option string) : SessionInterceptor :=
  mkSessionInterceptor
    (fun msg => match identity with
                | Some i => (insert_metadata SLIM_IDENTITY i msg, Ok tt)
                | None => (msg, Ok tt)
                end)
    (fun msg => (msg, Ok tt)).

(** The loop over the interceptors, left at the first error. *)
Fixpoint run_interceptors (f : SessionInterceptor -> ProtoMessage -> ProtoMessage * Result unit SessionError)
    (l : list SessionInterceptor) (msg : ProtoMessage) : ProtoMessage * Result unit SessionError :=
  match l with
  | [] => (msg, Ok tt)
  | i :: l =>
      match f i msg with
      | (msg, Ok _) => run_interceptors f l msg
      | (msg, Err e) => (msg, Err e)
      end
  end.

(** ** Common session data

    The channels are those of the environment. *)
Record Common : Type := mkCommon {
  cm_id : N;
  cm_state : State;
  cm_session_config : SessionConfig;
  cm_session_direction : SessionDirection;
  cm_source : Agent;
  cm_identity : option string;
  cm_interceptors : list SessionInterceptor;
}.

Definition Common_new (id : N) (session_direction : SessionDirection) (session_config : SessionConfig)
    (source : Agent) (identity : option string) : Common :=
  mkCommon id Active session_config session_direction source identity
    [IdentitySessionInterceptor identity].

Definition add_interceptor (i : SessionInterceptor) (c : Common) : Common :=
  mkCommon (cm_id c) (cm_state c) (cm_session_config c) (cm_session_direction c) (cm_source c)
    (cm_identity c) (cm_interceptors c ++ [i]).

Definition on_message_from_app_interceptors (c : Common) : ProtoMessage -> ProtoMessage * Result unit SessionError :=
  run_interceptors on_msg_from_app (cm_interceptors c).
Definition on_message_from_slim_interceptors (c : Common) : ProtoMessage -> ProtoMessage * Result unit SessionError :=
  run_interceptors on_msg_from_slim (cm_interceptors c).

Definition Common_set_session_config `{ErrorText} (c : Common) (session_config : SessionConfig)
    : Common * Result unit SessionError :=
  let set config :=
    (mkCommon (cm_id c) (cm_state c) config (cm_session_direction c) (cm_source c)
       (cm_identity c) (cm_interceptors c), Ok tt) in
  match cm_session_config c with
  | SessionConfig_FireAndForget config =>
      match FireAndForgetConfiguration_replace config session_config with
      | Ok config => set (SessionConfig_FireAndForget config)
      | Err e => (c, Err e)
      end
  | SessionConfig_RequestResponse config =>
      match RequestResponseConfiguration_replace config session_config with
      | Ok config => set (SessionConfig_RequestResponse config)
      | Err e => (c, Err e)
      end
  | SessionConfig_Streaming config =>
      match StreamingConfiguration_replace config session_config with
      | Ok config => set (SessionConfig_Streaming config)
      | Err e => (c, Err e)
      end
  end.

(** ** Channels, timers and random draws *)

(** The sending side of a [tokio] channel: whether the receiver is there, and
    what was sent. A send to a full channel waits; it fails only when the
    receiver is gone. *)
Record Outbox (A : Type) : Type := mkOutbox {
  ob_open : bool;
  ob_sent : list A;
}.
Arguments mkOutbox {A} _ _.
Arguments ob_open {A} _.
Arguments ob_sent {A} _.

Definition ob_send {A} (x : A) (o : Outbox A) : Outbox A * Result unit string :=
  if ob_open o then (mkOutbox true (ob_sent o ++ [x]), Ok tt) else (o, Err "channel closed").

Record SessionIo : Type := mkSessionIo {
  io_slim : Outbox ProtoMessage;
  io_app : Outbox (Result SessionMessage SessionError);
  io_timers : TimerSystem;
  io_draws : nat;
}.

(** Whether the build has [debug_assert!] checks. *)
Class DebugAssertions : Type := { debug_assertions : bool }.

(** The random number generator: the [n]-th draw. *)
Class Rng : Type := { draw : nat -> N }.

Definition sess (S A : Type) : Type := SessionIo -> S -> panics (SessionIo * S * A).

#[export] Instance sess_ret {S} : MRet (sess S) := fun A a io s => Done (io, s, a).
#[export] Instance sess_bind {S} : MBind (sess S) := fun A B f c io s =>
  match c io s with
  | Done (io, s, a) => f a io s
  | Panic why => Panic why
  end.

(** The [?] operator. *)
Definition try_bind {S A B E} (c : sess S (Result A E)) (f : A -> sess S (Result B E))
    : sess S (Result B E) :=
  r ← c; match r with Ok a => f a | Err e => mret (Err e) end.
Notation "x '←?' c ; k" := (try_bind c (fun x => k))
  (at level 20, c at level 100, k at level 200) : slim_scope.
Open Scope slim_scope.

Section operations.
Context {S : Type}.

Definition lift {A} (c : panics A) : sess S A := fun io s =>
  match c with Done a => Done (io, s, a) | Panic why => Panic why end.
Definition get_state : sess S S := fun io s => Done (io, s, s).
Definition put_state (s : S) : sess S unit := fun io _ => Done (io, s, tt).
Definition modify (f : S -> S) : sess S unit := fun io s => Done (io, f s, tt).

Definition send_slim (msg : ProtoMessage) : sess S (Result unit string) := fun io s =>
  let (slim, res) := ob_send msg (io_slim io) in
  Done (mkSessionIo slim (io_app io) (io_timers io) (io_draws io), s, res).
Definition send_app (r : Result SessionMessage SessionError) : sess S (Result unit string) := fun io s =>
  let (app, res) := ob_send r (io_app io) in
  Done (mkSessionIo (io_slim io) app (io_timers io) (io_draws io), s, res).

Definition new_timer (id : N) (ty : TimerType) (d : N) (max_d retries : option N) : sess S Timer :=
  fun io s => let (sys, t) := Timer_new (io_timers io) id ty d max_d retries in
    Done (mkSessionIo (io_slim io) (io_app io) sys (io_draws io), s, t).
Definition start_timer (t : Timer) : sess S unit := fun io s =>
  Done (mkSessionIo (io_slim io) (io_app io) (Timer_start (io_timers io) t) (io_draws io), s, tt).
Definition stop_timer (t : Timer) : sess S Timer := fun io s =>
  let (sys, t) := Timer_stop (io_timers io) t in
  Done (mkSessionIo (io_slim io) (io_app io) sys (io_draws io), s, t).
Definition reset_timer (t : Timer) : sess S Timer := fun io s =>
  let (sys, t) := Timer_reset (io_timers io) t in
  Done (mkSessionIo (io_slim io) (io_app io) sys (io_draws io), s, t).
Definition drop_timer (t : Timer) : sess S unit := fun io s =>
  Done (mkSessionIo (io_slim io) (io_app io) (Timer_drop (io_timers io) t) (io_draws io), s, tt).

(** [random_range(0..n)] and [random::<u32>()]. *)
Definition random_below `{Rng} (n : N) : sess S N := fun io s =>
  Done (mkSessionIo (io_slim io) (io_app io) (io_timers io) (io_draws io + 1), s,
        (draw (io_draws io) `mod` n)%N).
Definition random_u32 `{Rng} : sess S N := random_below u32_modulus.

Definition debug_assert `{DebugAssertions} (b : bool) : sess S unit := fun io s =>
  if debug_assertions && negb b then Panic "assertion failed" else Done (io, s, tt).
End operations.

(** [{:?}] of a header type. *)
Definition SessionHeaderType_debug (t : SessionHeaderType) : string :=
  match t with
  | Unspecified => "Unspecified"
  | Fnf => "Fnf"
  | FnfReliable => "FnfReliable"
  | FnfAck => "FnfAck"
  | FnfDiscovery => "FnfDiscovery"
  | FnfDiscoveryReply => "FnfDiscoveryReply"
  | Request => "Request"
  | Reply => "Reply"
  | Stream => "Stream"
  | PubSub => "PubSub"
  | RtxRequest => "RtxRequest"
  | RtxReply => "RtxReply"
  | BeaconStream => "BeaconStream"
  | BeaconPubSub => "BeaconPubSub"
  end.
Close Scope string_scope.
Close Scope slim_scope.

(** ** Facts shared by the sessions *)

(** Runs the session operations, up to the next thing to be known. *)
Ltac run_sess :=
  cbv beta iota zeta delta [try_bind mbind sess_bind panics_bind mret sess_ret lift get_state put_state
    modify new_timer start_timer stop_timer reset_timer drop_timer send_slim send_app random_u32
    random_below debug_assert ob_send expect map_err Timer_new];
  cbn [io_slim io_app io_timers io_draws ob_open ob_sent sm_message sm_info in_id in_message_id
    in_session_header_type in_message_source in_input_connection Info_set_id Info_set_message_id
    Info_set_session_header_type fst snd].

Lemma sess_bind_Done {S A B} (c : sess S A) (f : A -> sess S B) io s io' s' a :
  c io s = Done (io', s', a) -> (c ≫= f) io s = f a io' s'.
Proof. intros Hc. unfold mbind, sess_bind. by rewrite Hc. Qed.
Lemma try_bind_Ok {S A B E} (c : sess S (Result A E)) (f : A -> sess S (Result B E)) io s io' s' a :
  c io s = Done (io', s', Ok a) -> try_bind c f io s = f a io' s'.
Proof. intros Hc. unfold try_bind. by rewrite (sess_bind_Done _ _ _ _ _ _ _ Hc). Qed.
Lemma try_bind_Err {S A B E} (c : sess S (Result A E)) (f : A -> sess S (Result B E)) io s io' s' e :
  c io s = Done (io', s', Err e) -> try_bind c f io s = Done (io', s', Err e).
Proof. intros Hc. unfold try_bind. by rewrite (sess_bind_Done _ _ _ _ _ _ _ Hc). Qed.
Lemma sess_lift_Done {S A} (c : panics A) (io : SessionIo) (s : S) a : c = Done a -> lift c io s = Done (io, s, a).
Proof. by intros ->. Qed.

(** The environment after messages to the processor and items to the
    application. *)
Definition io_sent (io : SessionIo) (msgs : list ProtoMessage)
    (items : list (Result SessionMessage SessionError)) : SessionIo :=
  mkSessionIo (mkOutbox (ob_open (io_slim io)) (ob_sent (io_slim io) ++ msgs))
    (mkOutbox (ob_open (io_app io)) (ob_sent (io_app io) ++ items)) (io_timers io) (io_draws io).
Definition io_with_timers (io : SessionIo) (sys : TimerSystem) : SessionIo :=
  mkSessionIo (io_slim io) (io_app io) sys (io_draws io).
Definition io_with_draws (io : SessionIo) (n : nat) : SessionIo :=
  mkSessionIo (io_slim io) (io_app io) (io_timers io) n.

(** Both receivers are there. *)
Definition io_open (io : SessionIo) : Prop :=
  ob_open (io_slim io) = true /\ ob_open (io_app io) = true.

Lemma send_slim_open {S} msg io (s : S) :
  ob_open (io_slim io) = true -> send_slim msg io s = Done (io_sent io [msg] [], s, Ok tt).
Proof.
  intros Ho. unfold send_slim, ob_send, io_sent. rewrite Ho. rewrite app_nil_r.
  destruct io as [? [] ? ?]; by simpl in *.
Qed.
Lemma send_app_open {S} r io (s : S) :
  ob_open (io_app io) = true -> send_app r io s = Done (io_sent io [] [r], s, Ok tt).
Proof.
  intros Ho. unfold send_app, ob_send, io_sent. rewrite Ho. rewrite app_nil_r.
  destruct io as [[] ? ? ?]; by simpl in *.
Qed.

Lemma io_sent_nil io : io_sent io [] [] = io.
Proof. unfold io_sent. rewrite !app_nil_r. by destruct io as [[] [] ? ?]. Qed.
Lemma io_sent_app io m1 m2 a1 a2 :
  io_sent (io_sent io m1 a1) m2 a2 = io_sent io (m1 ++ m2) (a1 ++ a2).
Proof. unfold io_sent; simpl. by rewrite <- !app_assoc. Qed.
Lemma io_open_sent io msgs items : io_open (io_sent io msgs items) <-> io_open io.
Proof. done. Qed.
#[export] Hint Rewrite io_sent_nil @io_sent_app : slim.

(** A change of the session header, on a message that has one. *)
Definition map_session (f : SessionHeader -> SessionHeader) (m : ProtoMessage) : ProtoMessage :=
  match pm_message_type m with
  | Some (Publish p) =>
      mkProtoMessage (pm_metadata m)
        (Some (Publish (mkProtoPublish (pu_header p) (f <$> pu_session p) (pu_msg p))))
  | _ => m
  end.

Lemma with_session_header_mut_map f m h :
  get_session_header m = Done h ->
  with_session_header_mut f m = Done (map_session f m) /\
  get_session_header (map_session f m) = Done (f h).
Proof.
  unfold get_session_header, with_session_header_mut, map_session.
  destruct (pm_message_type m) as [[s|u|p]|]; try done.
  destruct (pu_session p) as [h'|]; [|done]. intros [= ->]. done.
Qed.
Lemma map_session_compose f g m : map_session f (map_session g m) = map_session (fun h => f (g h)) m.
Proof.
  unfold map_session. destruct m as [md [[s|u|p]|]]; simpl; try done.
  by destruct (pu_session p).
Qed.

(** ** Timers of a session

    A session keeps a timer for each id that waits for something. [timers_ok]:
    every kept timer has a task that still runs, under a token of its own, and
    every task that still runs is that of a kept timer. *)
Record timers_ok {X} (sys : TimerSystem) (m : gmap N (Timer * X)) : Prop := {
  to_entry : forall id t x, m !! id = Some (t, x) ->
    timer_id t = id /\ cancellation_token t ∉ sys_cancelled sys /\
    exists task, task ∈ sys_tasks sys /\ tt_timer task = t /\ tt_token task = cancellation_token t;
  to_task : forall task, task ∈ sys_tasks sys ->
    tt_token task ∈ sys_cancelled sys \/
    exists id t x, m !! id = Some (t, x) /\ tt_timer task = t /\ tt_token task = cancellation_token t;
  to_inj : forall i j t t' x x', m !! i = Some (t, x) -> m !! j = Some (t', x') ->
    cancellation_token t = cancellation_token t' -> i = j;
  to_below : forall task, task ∈ sys_tasks sys -> (tt_token task < sys_next sys)%N;
  to_cancelled : forall tok, tok ∈ sys_cancelled sys -> (tok < sys_next sys)%N;
}.

Section timers.
Context {X : Type}.
Implicit Types (m : gmap N (Timer * X)) (sys : TimerSystem).

Lemma to_entry_below sys m id t x :
  timers_ok sys m -> m !! id = Some (t, x) -> (cancellation_token t < sys_next sys)%N.
Proof.
  intros Hok Hm. destruct (to_entry _ _ Hok _ _ _ Hm) as (_&_&task&Hin&_&<-).
  by apply (to_below _ _ Hok).
Qed.

(** No timer, no task left running. *)
Definition TimerSystem_empty : TimerSystem := mkTimerSystem ∅ 0 [].
Lemma timers_ok_empty : timers_ok TimerSystem_empty (∅ : gmap N (Timer * X)).
Proof.
  split; try (intros *; rewrite lookup_empty; done); simpl.
  - by intros task ?%elem_of_nil.
  - by intros task ?%elem_of_nil.
  - by intros tok ?%elem_of_empty.
Qed.

(** [Drop] and [stop] cancel the token. *)
Lemma timers_ok_cancel sys m id t x n :
  timers_ok sys m -> m !! id = Some (t, x) -> (sys_next sys <= n)%N ->
  timers_ok (mkTimerSystem ({[cancellation_token t]} ∪ sys_cancelled sys) n (sys_tasks sys)) (delete id m).
Proof.
  intros Hok Hm Hn. split; simpl.
  - intros id' t' x' [Hne Hm']%lookup_delete_Some.
    destruct (to_entry _ _ Hok _ _ _ Hm') as (Hid&Hnc&Htask). split; [done|]. split; [|done].
    rewrite not_elem_of_union, not_elem_of_singleton. split; [|done].
    intros Heq. apply Hne. by eapply (to_inj _ _ Hok).
  - intros task Hin. destruct (to_task _ _ Hok _ Hin) as [Hc|(id'&t'&x'&Hm'&Ht&Htok)].
    + left. set_solver.
    + destruct (decide (id' = id)) as [->|Hne].
      * left. rewrite Hm in Hm'. injection Hm' as <- <-. rewrite Htok. set_solver.
      * right. exists id', t', x'. by rewrite lookup_delete_ne.
  - intros i j t1 t2 x1 x2 [_ Hi]%lookup_delete_Some [_ Hj]%lookup_delete_Some.
    by apply (to_inj _ _ Hok i j t1 t2 x1 x2).
  - intros task Hin. pose proof (to_below _ _ Hok _ Hin). lia.
  - intros tok [->%elem_of_singleton|Hc]%elem_of_union.
    + pose proof (to_entry_below _ _ _ _ _ Hok Hm). lia.
    + pose proof (to_cancelled _ _ Hok _ Hc). lia.
Qed.

(** A token that was never given to a task. *)
Lemma timers_ok_cancel_fresh sys m tok n :
  timers_ok sys m -> (sys_next sys <= tok)%N -> (tok < n)%N ->
  timers_ok (mkTimerSystem ({[tok]} ∪ sys_cancelled sys) n (sys_tasks sys)) m.
Proof.
  intros Hok Hf Hn. split; simpl.
  - intros id t x Hm. destruct (to_entry _ _ Hok _ _ _ Hm) as (Hid&Hnc&Htask).
    split; [done|]. split; [|done]. rewrite not_elem_of_union, not_elem_of_singleton. split; [|done].
    pose proof (to_entry_below _ _ _ _ _ Hok Hm). lia.
  - intros task Hin. destruct (to_task _ _ Hok _ Hin) as [Hc|?]; [left; set_solver|by right].
  - apply (to_inj _ _ Hok).
  - intros task Hin. pose proof (to_below _ _ Hok _ Hin). lia.
  - intros tok' [->%elem_of_singleton|Hc]%elem_of_union; [done|].
    pose proof (to_cancelled _ _ Hok _ Hc). lia.
Qed.

(** A new timer, started and kept; the one kept under its id before, if any, is
    dropped. *)
Definition timers_keep sys m (id : N) (ty : TimerType) (d : N) (max_d retries : option N)
    : TimerSystem * Timer :=
  let (sys, t) := Timer_new sys id ty d max_d retries in
  let sys := Timer_start sys t in
  (match m !! id with Some (old, _) => Timer_drop sys old | None => sys end, t).

Lemma timers_ok_start sys m id ty d max_d retries x :
  timers_ok sys m -> m !! id = None ->
  let t := mkTimer id ty d max_d retries (sys_next sys) in
  timers_ok (mkTimerSystem (sys_cancelled sys) (sys_next sys + 1)
    (sys_tasks sys ++ [mkTimerTask t (sys_next sys) 0 0 d])) (<[id := (t, x)]> m).
Proof.
  intros Hok Hnone t. split; simpl.
  - intros id' t' x' [[<- [= <- <-]]|[Hne Hm']]%lookup_insert_Some.
    + split; [done|]. split.
      { intros Hc. pose proof (to_cancelled _ _ Hok _ Hc). simpl in *. lia. }
      eexists. split; [apply elem_of_app; right; by apply list_elem_of_singleton|done].
    + destruct (to_entry _ _ Hok _ _ _ Hm') as (Hid&Hnc&task&Hin&?&?).
      split; [done|]. split; [done|]. exists task. split; [|done]. apply elem_of_app. by left.
  - intros task [Hin| ->%list_elem_of_singleton]%elem_of_app.
    + destruct (to_task _ _ Hok _ Hin) as [Hc|(id'&t'&x'&Hm'&?&?)]; [by left|right].
      exists id', t', x'. rewrite lookup_insert_ne; [done|]. intros <-. by rewrite Hnone in Hm'.
    + right. exists id, t, x. by rewrite lookup_insert_eq.
  - intros i j t1 t2 x1 x2 [[<- [= <- <-]]|[Hne Hi]]%lookup_insert_Some
      [[<- [= <- <-]]|[Hne' Hj]]%lookup_insert_Some; simpl; try done; intros Htok.
    + pose proof (to_entry_below _ _ _ _ _ Hok Hj). lia.
    + pose proof (to_entry_below _ _ _ _ _ Hok Hi). lia.
    + by apply (to_inj _ _ Hok i j t1 t2 x1 x2).
  - intros task [Hin| ->%list_elem_of_singleton]%elem_of_app; simpl; [|lia].
    pose proof (to_below _ _ Hok _ Hin). lia.
  - intros tok Hc. pose proof (to_cancelled _ _ Hok _ Hc). lia.
Qed.

Lemma timers_ok_keep sys m id ty d max_d retries x :
  timers_ok sys m ->
  let (sys', t) := timers_keep sys m id ty d max_d retries in
  timers_ok sys' (<[id := (t, x)]> m) /\ timer_id t = id /\ timer_type t = ty /\ duration t = d /\
  max_retries t = retries.
Proof.
  intros Hok. unfold timers_keep, Timer_new, Timer_start; simpl. split; [|done].
  destruct (m !! id) as [[old y]|] eqn:Hm; [|by apply timers_ok_start].
  pose proof (timers_ok_cancel sys m id old y (sys_next sys) Hok Hm ltac:(lia)) as Hc.
  pose proof (timers_ok_start _ _ id ty d max_d retries x Hc ltac:(apply lookup_delete_eq)) as Hs.
  simpl in Hs. by rewrite insert_delete_eq in Hs.
Qed.

Lemma timers_ok_drop sys m id t x :
  timers_ok sys m -> m !! id = Some (t, x) -> timers_ok (Timer_drop sys t) (delete id m).
Proof. intros Hok Hm. apply (timers_ok_cancel _ _ _ _ x); [done|done|lia]. Qed.

Lemma timers_ok_stop sys m id t x :
  timers_ok sys m -> m !! id = Some (t, x) ->
  let (sys', t') := Timer_stop sys t in timers_ok (Timer_drop sys' t') (delete id m).
Proof.
  intros Hok Hm. unfold Timer_stop, Timer_drop; simpl.
  pose proof (timers_ok_cancel sys m id t x (sys_next sys) Hok Hm ltac:(lia)) as Hc.
  apply (timers_ok_cancel_fresh _ _ (sys_next sys) (sys_next sys + 1) Hc); simpl; lia.
Qed.
End timers.

(** ** Publications *)

(** A publication with both headers whose source has an id. *)
Definition proper (m : ProtoMessage) : Prop :=
  exists md p h sh src, m = mkProtoMessage md (Some (Publish p)) /\ pu_header p = Some h /\
    pu_session p = Some sh /\ get_source m = Done src.

(** A change of the SLIM header of a publication. *)
Definition map_slim (f : SlimHeader -> SlimHeader) (m : ProtoMessage) : ProtoMessage :=
  match pm_message_type m with
  | Some (Publish p) =>
      mkProtoMessage (pm_metadata m)
        (Some (Publish (mkProtoPublish (f <$> pu_header p) (pu_session p) (pu_msg p))))
  | _ => m
  end.

(** A change that leaves the source alone. *)
Definition keeps_source (f : SlimHeader -> SlimHeader) : Prop := forall h, sh_source (f h) = sh_source h.

Lemma proper_session f m :
  proper m -> with_session_header_mut f m = Done (map_session f m) /\ proper (map_session f m).
Proof.
  intros (md&p&h&sh&src&->&Hh&Hs&Hsrc). unfold with_session_header_mut, map_session; simpl.
  rewrite Hs; simpl. split; [done|]. eexists _, _, h, (f sh), src. split; [done|]. split; [done|].
  split; [done|]. unfold get_source, get_slim_header in *. simpl in *. by rewrite Hh in *.
Qed.
Lemma proper_slim f m :
  keeps_source f -> proper m ->
  with_slim_header_mut f m = Done (map_slim f m) /\ proper (map_slim f m).
Proof.
  intros Hf (md&p&h&sh&src&->&Hh&Hs&Hsrc). unfold with_slim_header_mut, map_slim; simpl.
  rewrite Hh; simpl. split; [done|]. eexists _, _, (f h), sh, src. split; [done|]. split; [done|].
  split; [done|]. unfold get_source, get_slim_header in *. simpl in *. rewrite Hh in Hsrc. simpl in *.
  unfold SlimHeader_get_source in *. by rewrite Hf.
Qed.
Lemma proper_source m : proper m -> exists src, get_source m = Done src.
Proof. intros (md&p&h&sh&src&_&_&_&?). by exists src. Qed.
Lemma proper_header m : proper m -> exists h, get_session_header m = Done h.
Proof. intros (md&p&h&sh&src&->&_&Hs&_). exists sh. unfold get_session_header; simpl. by rewrite Hs. Qed.
Lemma proper_slim_header m : proper m -> exists h, get_slim_header m = Done h.
Proof. intros (md&p&h&sh&src&->&Hh&_&_). exists h. unfold get_slim_header; simpl. by rewrite Hh. Qed.

Lemma proper_info m : proper m -> exists sm, SessionMessage_from m = Done sm /\ sm_message sm = m.
Proof.
  intros Hp. destruct (proper_header m Hp) as [sh Hs], (proper_slim_header m Hp) as [h Hh],
    (proper_source m Hp) as [src Hsrc].
  unfold SessionMessage_from, Info_from. rewrite Hs, Hh, Hsrc. by eexists.
Qed.

Lemma keeps_destination name : keeps_source (SlimHeader_set_destination name).
Proof. done. Qed.
Lemma keeps_forward_to c : keeps_source (SlimHeader_set_forward_to c).
Proof. done. Qed.
#[export] Hint Resolve keeps_destination keeps_forward_to : slim.

Lemma new_publish_proper a ty id flags ct blob :
  ag_agent_id a <> DEFAULT_AGENT_ID -> proper (new_publish a ty id flags ct blob).
Proof.
  intros Hid. do 4 eexists. exists (mkAgent (AgentType_from_proto (ProtoAgent_from_agent a)) (ag_agent_id a)).
  split; [done|]. split; [done|]. split; [done|].
  unfold get_source, SlimHeader_get_source, Agent_from_proto, ProtoAgent_from_agent; simpl.
  by rewrite decide_False.
Qed.

(** ** Values for evaluation *)
Definition demo_rng : Rng := {| draw := fun n => N.of_nat (n + 7) |}.
Definition demo_checks : DebugAssertions := {| debug_assertions := true |}.

(** A publication with the given session header, and the info made from it. *)
Definition demo_session_msg (t : SessionHeaderType) (id : N) : SessionMessage :=
  mkSessionMessage
    (mkProtoMessage ∅ (Some (Publish (mkProtoPublish
       (Some (mkSlimHeader (Some (mkProtoAgent 1 2 3 (Some 4%N))) (Some (mkProtoAgent 1 2 5 (Some 6%N)))
          1 None None (Some 9%N) None))
       (Some (mkSessionHeader (SessionHeaderType_to_i32 t) 3 id)) None))))
    (mkInfo 3 (Some id) t (Some (mkAgent (mkAgentType 1 2 3 None) 4)) (Some 9%N)).
Definition demo_agent : Agent := mkAgent (mkAgentType 1 2 5 None) 6.
