(* ===== verification/RequestResponse.v ===== *)
(** * Request/response sessions

    [service/src/request_response.rs]. A request gets a random id, is sent, and
    waits in [timers] for its reply or for its timer. The timer's observer is
    the session itself; its calls run in the timer's task. *)
From stdpp Require Import base list gmap strings numbers option.
From S2P Require Import Prelude Proto Encoder Messages Timer Session.
Open Scope slim_scope.
Open Scope string_scope.

Record RequestResponse : Type := mkRequestResponse {
  rr_common : Common;
  rr_timers : gmap N (Timer * SessionMessage);
}.

Definition RequestResponse_new (id : N) (session_config : RequestResponseConfiguration)
    (session_direction : SessionDirection) (source : Agent) (identity : option string)
    : RequestResponse :=
  mkRequestResponse
    (Common_new id session_direction (SessionConfig_RequestResponse session_config) source identity) ∅.

Definition rr_set_timers (timers : gmap N (Timer * SessionMessage)) : sess RequestResponse unit :=
  modify (fun s => mkRequestResponse (rr_common s) timers).

(** ** [TimerObserver] *)
Definition rr_on_timeout (_ _ : N) : sess RequestResponse unit :=
  lift (Panic "this should never happen").

Definition rr_on_failure `{DebugAssertions} (message_id timeouts : N) : sess RequestResponse unit :=
  _ ← debug_assert (bool_decide (timeouts = 1%N));
  s ← get_state;
  '(timer, message) ← lift (expect (rr_timers s !! message_id) "timer not found");
  _ ← rr_set_timers (delete message_id (rr_timers s));
  _ ← send_app (Err (Timeout (cm_id (rr_common s)) message_id message));
  drop_timer timer.

Definition rr_on_stop (_ : N) : sess RequestResponse unit := mret tt.

(** ** Sending and receiving *)
Definition send_message_with_timer (message : SessionMessage)
    : sess RequestResponse (Result unit SessionError) :=
  message_id ← lift (expect (in_message_id (sm_info message)) "message id not found");
  s ← get_state;
  match cm_session_config (rr_common s) with
  | SessionConfig_RequestResponse config =>
      timer ← new_timer message_id Constant (rr_timeout config) None (Some 0%N);
      res ← send_slim (sm_message message);
      match res with
      | Err e => _ ← drop_timer timer; mret (Err (SlimTransmission e))
      | Ok _ =>
          _ ← start_timer timer;
          _ ← rr_set_timers (<[message_id := (timer, message)]> (rr_timers s));
          _ ← match rr_timers s !! message_id with
              | Some (old, _) => drop_timer old
              | None => mret tt
              end;
          mret (Ok tt)
      end
  | _ => mret (Err (AppTransmission "invalid session config"))
  end.

Definition RequestResponse_on_message `{Rng} (message : SessionMessage) (direction : MessageDirection)
    : sess RequestResponse (Result unit SessionError) :=
  session_header ← lift (get_session_header (sm_message message));
  s ← get_state;
  match direction with
  | North =>
      message ←?
        (match in_session_header_type (sm_info message) with
         | Reply =>
             let message_id := se_message_id session_header in
             match rr_timers s !! message_id with
             | Some (timer, _) =>
                 _ ← rr_set_timers (delete message_id (rr_timers s));
                 timer ← stop_timer timer;
                 _ ← drop_timer timer;
                 mret (Ok message)
             | None =>
                 mret (Err (AppTransmission
                   ("timer not found for message id " +:+ fmt_dec message_id)))
             end
         | Request =>
             mret (Ok (mkSessionMessage (sm_message message)
                         (Info_set_session_header_type Reply (sm_info message))))
         | t =>
             mret (Err (AppTransmission
               ("request/reply session: unsupported session type: " +:+ SessionHeaderType_debug t)))
         end);
      res ← send_app (Ok message);
      mret (map_err AppTransmission res)
  | South =>
      let id := cm_id (rr_common s) in
      msg ← lift (with_session_header_mut (SessionHeader_set_session_id id) (sm_message message));
      let info := Info_set_id id (sm_info message) in
      match in_session_header_type info with
      | Reply =>
          match in_message_id info with
          | Some message_id =>
              msg ← lift (with_session_header_mut
                            (fun h => SessionHeader_set_header_type Reply
                                        (SessionHeader_set_message_id message_id h)) msg);
              res ← send_slim msg;
              mret (map_err SlimTransmission res)
          | None => mret (Err (SlimTransmission "missing message id for reply"))
          end
      | _ =>
          message_id ← random_u32;
          msg ← lift (with_session_header_mut
                        (fun h => SessionHeader_set_header_type Request
                                    (SessionHeader_set_message_id message_id h)) msg);
          send_message_with_timer (mkSessionMessage msg (Info_set_message_id message_id info))
      end
  end.
Close Scope string_scope.

(** ** Specification

    The pending requests by id, and how many draws were made. *)
Record RrSpec : Type := mkRrSpec {
  rs_pending : gmap N SessionMessage;
  rs_draws : nat;
}.

Inductive rr_event : Type :=
| RrSend (m : SessionMessage)          (* the application sends a request *)
| RrAnswer (m : SessionMessage)        (* the application sends a reply *)
| RrRequest (m : SessionMessage)       (* a request arrives *)
| RrReply (m : SessionMessage)         (* a reply arrives *)
| RrExpire (id : N).                   (* the timer of a request ends *)

Section spec.
Context `{Rng}.

(** The draw as a [u32]. *)
Definition drawn_u32 (n : nat) : N := (draw n `mod` u32_modulus)%N.

(** The message a request or a reply becomes. *)
Definition outgoing_msg (session_id message_id : N) (t : SessionHeaderType) : ProtoMessage -> ProtoMessage :=
  map_session (fun _ => mkSessionHeader (SessionHeaderType_to_i32 t) session_id message_id).
Definition outgoing_request (session_id message_id : N) (m : SessionMessage) : SessionMessage :=
  mkSessionMessage (outgoing_msg session_id message_id Request (sm_message m))
    (Info_set_message_id message_id (Info_set_id session_id (sm_info m))).

Definition header_id (m : SessionMessage) : N :=
  match try_get_session_header (sm_message m) with Some h => se_message_id h | None => 0 end.

(** What an event does: the new pending requests, the messages to the
    processor and the items to the application. *)
Definition rr_spec (session_id : N) (p : RrSpec) (ev : rr_event)
    : RrSpec * list ProtoMessage * list (Result SessionMessage SessionError) :=
  match ev with
  | RrSend m =>
      let id := drawn_u32 (rs_draws p) in
      let r := outgoing_request session_id id m in
      (mkRrSpec (<[id := r]> (rs_pending p)) (rs_draws p + 1), [sm_message r], [])
  | RrAnswer m =>
      (p, match in_message_id (sm_info m) with
          | Some id => [outgoing_msg session_id id Reply (sm_message m)]
          | None => []
          end, [])
  | RrRequest m =>
      (p, [], [Ok (mkSessionMessage (sm_message m) (Info_set_session_header_type Reply (sm_info m)))])
  | RrReply m =>
      match rs_pending p !! header_id m with
      | Some _ => (mkRrSpec (delete (header_id m) (rs_pending p)) (rs_draws p), [], [Ok m])
      | None => (p, [], [])
      end
  | RrExpire id =>
      match rs_pending p !! id with
      | Some r => (mkRrSpec (delete id (rs_pending p)) (rs_draws p), [],
                   [Err (Timeout session_id id r)])
      | None => (p, [], [])
      end
  end.

(** The session header of the message says [t], and so does the info, as it
    does when it is made from the message. *)
Definition arrives (t : SessionHeaderType) (m : SessionMessage) : Prop :=
  (se_header_type <$> try_get_session_header (sm_message m)) = Some (SessionHeaderType_to_i32 t) /\
  in_session_header_type (sm_info m) = t.

(** The events a session sees: publications with a session header, of the
    kind the event says; a timer that ends is that of a pending request. *)
Definition rr_event_ok (p : RrSpec) (ev : rr_event) : Prop :=
  match ev with
  | RrSend m => is_Some (try_get_session_header (sm_message m)) /\
      in_session_header_type (sm_info m) <> Reply
  | RrAnswer m => is_Some (try_get_session_header (sm_message m)) /\
      in_session_header_type (sm_info m) = Reply
  | RrRequest m => arrives Request m
  | RrReply m => arrives Reply m
  | RrExpire id => is_Some (rs_pending p !! id)
  end.
#[export] Instance rr_event_ok_dec p ev : Decision (rr_event_ok p ev).
Proof. destruct ev; unfold rr_event_ok, arrives; apply _. Defined.

Context `{DebugAssertions}.

Definition rr_step (ev : rr_event) : sess RequestResponse unit :=
  match ev with
  | RrSend m | RrAnswer m => _ ← RequestResponse_on_message m South; mret tt
  | RrRequest m | RrReply m => _ ← RequestResponse_on_message m North; mret tt
  | RrExpire id => rr_on_failure id 1
  end.
Fixpoint rr_run (evs : list rr_event) : sess RequestResponse unit :=
  match evs with
  | [] => mret tt
  | ev :: evs => _ ← rr_step ev; rr_run evs
  end.
End spec.

Section spec_runs.
Context `{Rng}.

Fixpoint rr_specs (session_id : N) (p : RrSpec) (evs : list rr_event)
    : RrSpec * list ProtoMessage * list (Result SessionMessage SessionError) :=
  match evs with
  | [] => (p, [], [])
  | ev :: evs =>
      let '(p, msgs, items) := rr_spec session_id p ev in
      let '(p, msgs', items') := rr_specs session_id p evs in
      (p, msgs ++ msgs', items ++ items')
  end.
Fixpoint rr_events_ok (session_id : N) (p : RrSpec) (evs : list rr_event) : Prop :=
  match evs with
  | [] => True
  | ev :: evs => rr_event_ok p ev /\ rr_events_ok session_id (rr_spec session_id p ev).1.1 evs
  end.
#[export] Instance rr_events_ok_dec sid p evs : Decision (rr_events_ok sid p evs).
Proof. revert p. induction evs; intros p; simpl; apply _. Defined.

(** No id is drawn for a request while another request waits under it. *)
Fixpoint rr_fresh (session_id : N) (p : RrSpec) (evs : list rr_event) : Prop :=
  match evs with
  | [] => True
  | ev :: evs =>
      match ev with RrSend _ => rs_pending p !! drawn_u32 (rs_draws p) = None | _ => True end /\
      rr_fresh session_id (rr_spec session_id p ev).1.1 evs
  end.
End spec_runs.

(** ** Refinement *)

(** The session [s] in the environment [io] is at the abstract state [p]: its
    kept messages are the pending requests, each with a running timer of the
    configured duration that ends at the first timeout. *)
Record rr_rep (sid timeout : N) (io : SessionIo) (s : RequestResponse) (p : RrSpec) : Prop := {
  rr_rep_id : cm_id (rr_common s) = sid;
  rr_rep_config : cm_session_config (rr_common s) =
    SessionConfig_RequestResponse (mkRequestResponseConfiguration timeout);
  rr_rep_pending : snd <$> rr_timers s = rs_pending p;
  rr_rep_draws : io_draws io = rs_draws p;
  rr_rep_open : io_open io;
  rr_rep_timers : timers_ok (io_timers io) (rr_timers s);
  rr_rep_each : forall id t m, rr_timers s !! id = Some (t, m) ->
    timer_type t = Constant /\ duration t = timeout /\ max_retries t = Some 0%N;
}.

(** What a step leads to. *)
Definition rr_reaches (sid timeout : N) (io : SessionIo) (c : panics (SessionIo * RequestResponse * unit))
    (r : RrSpec * list ProtoMessage * list (Result SessionMessage SessionError)) : Prop :=
  exists io' s', c = Done (io', s', tt) /\ rr_rep sid timeout io' s' r.1.1 /\
    ob_sent (io_slim io') = ob_sent (io_slim io) ++ r.1.2 /\
    ob_sent (io_app io') = ob_sent (io_app io) ++ r.2.

Section refinement.
Context `{Rng, DebugAssertions}.

Lemma rr_pending_lookup sid d io s p id :
  rr_rep sid d io s p -> rs_pending p !! id = snd <$> rr_timers s !! id.
Proof. intros Hr. rewrite <- (rr_rep_pending _ _ _ _ _ Hr). apply lookup_fmap. Qed.

Lemma get_session_header_try m h :
  try_get_session_header m = Some h -> get_session_header m = Done h.
Proof.
  unfold try_get_session_header, get_session_header.
  destruct (pm_message_type m) as [[| |p]|]; try done. by intros ->.
Qed.

Lemma outgoing_msg_done sid id t m h :
  get_session_header m = Done h ->
  exists m1, with_session_header_mut (SessionHeader_set_session_id sid) m = Done m1 /\
    with_session_header_mut (fun h => SessionHeader_set_header_type t
      (SessionHeader_set_message_id id h)) m1 = Done (outgoing_msg sid id t m).
Proof.
  intros Hh. destruct (with_session_header_mut_map (SessionHeader_set_session_id sid) m h Hh) as [H1 H2].
  eexists. split; [exact H1|].
  destruct (with_session_header_mut_map (fun h => SessionHeader_set_header_type t
    (SessionHeader_set_message_id id h)) _ _ H2) as [-> _]. by rewrite map_session_compose.
Qed.

Lemma rr_send_refines sid d io s p m :
  rr_rep sid d io s p -> rr_event_ok p (RrSend m) ->
  rr_reaches sid d io (rr_step (RrSend m) io s) (rr_spec sid p (RrSend m)).
Proof.
  intros Hr [[h Hh%get_session_header_try] Hty]. simpl in Hty.
  destruct (outgoing_msg_done sid (drawn_u32 (rs_draws p)) Request (sm_message m) h Hh) as (m1&Hm1&Hm2).
  destruct Hr as [Hid Hconf Hp Hdr [Ho1 Ho2] Ht He]. unfold drawn_u32 in *. rewrite <- Hdr in *.
  set (id := (draw (io_draws io) `mod` u32_modulus)%N) in *.
  set (r := outgoing_request sid id m).
  pose proof (timers_ok_keep (io_timers io) (rr_timers s) id Constant d None (Some 0%N) r Ht) as Hkeep.
  unfold timers_keep in Hkeep. cbn [Timer_new] in Hkeep.
  exists (mkSessionIo (io_slim (io_sent io [sm_message r] [])) (io_app io)
    (timers_keep (io_timers io) (rr_timers s) id Constant d None (Some 0%N)).1 (io_draws io + 1)),
    (mkRequestResponse (rr_common s)
      (<[id := ((Timer_new (io_timers io) id Constant d None (Some 0%N)).2, r)]> (rr_timers s))).
  split; [|split].
  - cbn [rr_step]. unfold RequestResponse_on_message, send_message_with_timer.
    unfold rr_set_timers; run_sess. rewrite Hh. run_sess. rewrite Hid, Hm1. run_sess.
    destruct (in_session_header_type (sm_info m)) eqn:Hty'; try done; run_sess; fold id;
      rewrite Hm2; run_sess; rewrite Hconf; run_sess; rewrite Ho1; run_sess;
      unfold timers_keep, io_sent; cbn [Timer_new fst snd io_slim]; rewrite Ho1;
      destruct (rr_timers s !! id) as [[old ?]|]; run_sess; done.
  - unfold timers_keep; cbn [Timer_new fst snd]. destruct Hkeep as (Hkeep&_).
    split; [done|done|..]; cbn [rr_timers rr_common io_draws io_timers].
    + rewrite fmap_insert, Hp. cbn. unfold drawn_u32. rewrite <- Hdr. reflexivity.
    + cbn. by rewrite Hdr.
    + by split.
    + exact Hkeep.
    + intros id' t' m' [[<- [= <- <-]]|[_ Hm']]%lookup_insert_Some; [done|]. by apply (He id' t' m').
  - cbn. unfold drawn_u32. by rewrite app_nil_r, <- Hdr.
Qed.

Lemma rr_answer_refines sid d io s p m :
  rr_rep sid d io s p -> rr_event_ok p (RrAnswer m) ->
  rr_reaches sid d io (rr_step (RrAnswer m) io s) (rr_spec sid p (RrAnswer m)).
Proof.
  intros Hr [[h Hh%get_session_header_try] Hty]. cbn [rr_step rr_spec].
  unfold RequestResponse_on_message. run_sess. rewrite Hh. run_sess. rewrite (rr_rep_id _ _ _ _ _ Hr).
  destruct (in_message_id (sm_info m)) as [id|] eqn:Hid.
  - destruct (outgoing_msg_done sid id Reply (sm_message m) h Hh) as (m1&Hm1&Hm2).
    rewrite Hm1. run_sess. rewrite Hty. run_sess. rewrite Hm2. run_sess.
    destruct Hr as [? ? ? ? [Ho1 Ho2] ? ?]. rewrite Ho1. run_sess.
    eexists _, _. split; [done|]. split; [by split|]. cbn. by rewrite app_nil_r.
  - destruct (with_session_header_mut_map (SessionHeader_set_session_id sid) _ h Hh) as [-> _].
    run_sess. rewrite Hty. run_sess.
    eexists _, _. split; [done|]. split; [done|]. cbn. by rewrite !app_nil_r.
Qed.

Lemma rr_request_refines sid d io s p m :
  rr_rep sid d io s p -> rr_event_ok p (RrRequest m) ->
  rr_reaches sid d io (rr_step (RrRequest m) io s) (rr_spec sid p (RrRequest m)).
Proof.
  intros Hr [Hh Hty]. cbn [rr_step rr_spec].
  destruct (try_get_session_header (sm_message m)) as [h|] eqn:Hh'; [|done].
  apply get_session_header_try in Hh'.
  unfold RequestResponse_on_message. run_sess. rewrite Hh'. run_sess. rewrite Hty. run_sess.
  destruct Hr as [? ? ? ? [Ho1 Ho2] ? ?]. rewrite Ho2. run_sess.
  eexists _, _. split; [done|]. split; [by split|]. cbn. by rewrite app_nil_r.
Qed.

Lemma rr_reply_refines sid d io s p m :
  rr_rep sid d io s p -> rr_event_ok p (RrReply m) ->
  rr_reaches sid d io (rr_step (RrReply m) io s) (rr_spec sid p (RrReply m)).
Proof.
  intros Hr [Hh Hty]. cbn [rr_step rr_spec]. unfold header_id.
  destruct (try_get_session_header (sm_message m)) as [h|] eqn:Hh'; [|done].
  apply get_session_header_try in Hh'. rewrite (rr_pending_lookup _ _ _ _ _ _ Hr).
  unfold RequestResponse_on_message, rr_set_timers. run_sess. rewrite Hh'. run_sess. rewrite Hty. run_sess.
  destruct (rr_timers s !! se_message_id h) as [[t r]|] eqn:Ht; run_sess.
  2:{ eexists _, _. split; [done|]. split; [done|]. cbn. by rewrite !app_nil_r. }
  destruct Hr as [Hid Hconf Hp Hdr [Ho1 Ho2] Hok He]. cbn [Timer_stop]. run_sess. rewrite Ho2. run_sess.
  eexists _, _. split; [done|]. split; [|cbn; by rewrite app_nil_r].
  split; cbn; [done|done| |done|done| |].
  - by rewrite fmap_delete, Hp.
  - exact (timers_ok_stop _ _ _ _ _ Hok Ht).
  - intros id' t' m' [_ Hm']%lookup_delete_Some. by apply (He id' t' m').
Qed.

Lemma rr_expire_refines sid d io s p id :
  rr_rep sid d io s p -> rr_event_ok p (RrExpire id) ->
  rr_reaches sid d io (rr_step (RrExpire id) io s) (rr_spec sid p (RrExpire id)).
Proof.
  intros Hr [r Hpend]. cbn [rr_step rr_spec]. rewrite Hpend.
  rewrite (rr_pending_lookup _ _ _ _ _ _ Hr) in Hpend.
  destruct (rr_timers s !! id) as [[t r']|] eqn:Ht; [|done]. injection Hpend as ->.
  unfold rr_on_failure, rr_set_timers. run_sess.
  rewrite bool_decide_eq_true_2 by done. cbn [negb]. rewrite andb_false_r. run_sess. rewrite Ht. run_sess.
  destruct Hr as [Hid Hconf Hp Hdr [Ho1 Ho2] Hok He]. rewrite Ho2, Hid. run_sess.
  eexists _, _. split; [done|]. split; [|cbn; by rewrite app_nil_r].
  split; cbn; [done|done| |done|done| |].
  - by rewrite fmap_delete, Hp.
  - exact (timers_ok_drop _ _ _ _ _ Hok Ht).
  - intros id' t' m' [_ Hm']%lookup_delete_Some. by apply (He id' t' m').
Qed.

Lemma rr_step_refines sid d io s p ev :
  rr_rep sid d io s p -> rr_event_ok p ev ->
  rr_reaches sid d io (rr_step ev io s) (rr_spec sid p ev).
Proof.
  intros Hr Hok. destruct ev.
  - by apply rr_send_refines.
  - by apply rr_answer_refines.
  - by apply rr_request_refines.
  - by apply rr_reply_refines.
  - by apply rr_expire_refines.
Qed.

Lemma rr_run_refines sid d evs : forall io s p,
  rr_rep sid d io s p -> rr_events_ok sid p evs ->
  rr_reaches sid d io (rr_run evs io s) (rr_specs sid p evs).
Proof.
  induction evs as [|ev evs IH]; intros io s p Hr Hok.
  - exists io, s. split; [done|]. split; [done|]. by rewrite !app_nil_r.
  - destruct Hok as [Hev Hok]. destruct (rr_step_refines _ _ _ _ _ _ Hr Hev) as (io1&s1&Hs1&Hr1&Hm1&Ha1).
    cbn [rr_run rr_specs]. rewrite (sess_bind_Done _ _ _ _ _ _ _ Hs1).
    destruct (rr_spec sid p ev) as [[p1 ms1] is1]. simpl in *.
    destruct (IH _ _ _ Hr1 Hok) as (io2&s2&Hs2&Hr2&Hm2&Ha2).
    destruct (rr_specs sid p1 evs) as [[p2 ms2] is2]. simpl in *.
    exists io2, s2. split; [done|]. split; [done|]. simpl. by rewrite Hm2, Ha2, Hm1, Ha1, <- !app_assoc.
Qed.
End refinement.

(** ** Accounting *)

(** The id of a message of kind [t]. *)
Definition kind_id (t : SessionHeaderType) (m : ProtoMessage) : option N :=
  match try_get_session_header m with
  | Some h => if decide (se_header_type h = SessionHeaderType_to_i32 t) then Some (se_message_id h) else None
  | None => None
  end.
(** The request an item to the application settles: a reply or a timeout. *)
Definition outcome_of (r : Result SessionMessage SessionError) : option N :=
  match r with
  | Ok m => kind_id Reply (sm_message m)
  | Err (Timeout _ id _) => Some id
  | Err _ => None
  end.

Definition requested (io : SessionIo) : list N := omap (kind_id Request) (ob_sent (io_slim io)).
Definition settled (io : SessionIo) : list N := omap outcome_of (ob_sent (io_app io)).
Definition waiting (s : RequestResponse) : list N := (map_to_list (rr_timers s)).*1.

Definition keys {A} (m : gmap N A) : list N := (map_to_list m).*1.

Lemma keys_insert {A} (m : gmap N A) i x : m !! i = None -> keys (<[i := x]> m) ≡ₚ i :: keys m.
Proof. intros Hm. unfold keys. by rewrite (map_to_list_insert m i x Hm). Qed.
Lemma keys_delete {A} (m : gmap N A) i x : m !! i = Some x -> keys m ≡ₚ i :: keys (delete i m).
Proof. intros Hm. unfold keys. by rewrite <- (map_to_list_delete m i x Hm). Qed.

Lemma kind_id_outgoing sid id t t' m :
  is_Some (try_get_session_header m) ->
  kind_id t (outgoing_msg sid id t' m) = if decide (t = t') then Some id else None.
Proof.
  intros [h Hh]. unfold kind_id, outgoing_msg, map_session, try_get_session_header in *.
  destruct (pm_message_type m) as [[| |p]|]; try done. simpl. rewrite Hh. simpl.
  destruct (decide (t = t')) as [->|Hne]; [by rewrite decide_True|].
  rewrite decide_False; [done|]. intros Heq.
  apply (f_equal SessionHeaderType_try_from) in Heq. rewrite !try_from_to_i32 in Heq. congruence.
Qed.

Lemma kind_id_arrives t t' m :
  arrives t' m -> kind_id t (sm_message m) = if decide (t = t') then Some (header_id m) else None.
Proof.
  unfold arrives, kind_id, header_id. intros [Hh _].
  destruct (try_get_session_header (sm_message m)) as [h|]; [|done]. injection Hh as ->.
  destruct (decide (t = t')) as [->|Hne]; [by rewrite decide_True|].
  rewrite decide_False; [done|]. intros Heq.
  apply (f_equal SessionHeaderType_try_from) in Heq. rewrite !try_from_to_i32 in Heq. congruence.
Qed.

Section accounting.
Context `{Rng}.

Lemma rr_spec_accounts sid p ev :
  rr_event_ok p ev -> rr_fresh sid p [ev] ->
  let '(p', msgs, items) := rr_spec sid p ev in
  keys (rs_pending p) ++ omap (kind_id Request) msgs ≡ₚ keys (rs_pending p') ++ omap outcome_of items.
Proof.
  intros Hok [Hf _]. destruct ev as [m|m|m|m|id]; cbn [rr_spec].
  - destruct Hok as [Hh _]. cbn [omap list_omap outgoing_request sm_message rs_pending].
    rewrite kind_id_outgoing by done. rewrite decide_True by done.
    rewrite keys_insert by done. rewrite app_nil_r. by rewrite Permutation_app_comm.
  - destruct Hok as [Hh _]. destruct (in_message_id (sm_info m)); [|done].
    cbn [omap list_omap]. by rewrite kind_id_outgoing, decide_False.
  - cbn [omap list_omap outcome_of sm_message]. by rewrite (kind_id_arrives _ _ _ Hok), decide_False.
  - destruct (rs_pending p !! header_id m) eqn:Hp; [|done].
    cbn [omap list_omap outcome_of rs_pending]. rewrite (kind_id_arrives _ _ _ Hok), decide_True by done.
    rewrite app_nil_r, (keys_delete _ _ _ Hp). by rewrite Permutation_app_comm.
  - destruct (rs_pending p !! id) eqn:Hp; [|done]. cbn [omap list_omap outcome_of rs_pending].
    rewrite app_nil_r, (keys_delete _ _ _ Hp). by rewrite Permutation_app_comm.
Qed.

Lemma rr_specs_account sid evs : forall p,
  rr_events_ok sid p evs -> rr_fresh sid p evs ->
  let '(p', msgs, items) := rr_specs sid p evs in
  keys (rs_pending p) ++ omap (kind_id Request) msgs ≡ₚ keys (rs_pending p') ++ omap outcome_of items.
Proof.
  induction evs as [|ev evs IH]; intros p Hok Hf; [simpl; reflexivity|].
  destruct Hok as [Hev Hok], Hf as [Hf1 Hf]. cbn [rr_specs].
  pose proof (rr_spec_accounts sid p ev Hev (conj Hf1 I)) as H1.
  destruct (rr_spec sid p ev) as [[p1 ms1] is1]. simpl in Hok, Hf.
  specialize (IH p1 Hok Hf). destruct (rr_specs sid p1 evs) as [[p2 ms2] is2].
  rewrite !omap_app. rewrite (assoc_L (++)), H1, <- (assoc_L (++)).
  rewrite (Permutation_app_comm (omap outcome_of is1)), (assoc_L (++)), IH, <- (assoc_L (++)).
  by rewrite (Permutation_app_comm (omap outcome_of is2)).
Qed.
End accounting.

Definition io_new (draws : nat) : SessionIo :=
  mkSessionIo (mkOutbox true []) (mkOutbox true []) TimerSystem_empty draws.

Lemma rr_rep_new sid conf dir src ident n :
  rr_rep sid (rr_timeout conf) (io_new n) (RequestResponse_new sid conf dir src ident) (mkRrSpec ∅ n).
Proof.
  split; try done; simpl.
  - by destruct conf.
  - apply timers_ok_empty.
Qed.

(** C19: A request/response session whose channels are open does what its
    specification says, without panicking, on every sequence of events in which the
    messages have a session header of the kind the event says and a timer ends only
    while its request waits, not after the reply has come in ([rr_events_ok];
    otherwise [late_timeout_panics]): a request is sent once, under the
    drawn id and the session's id; a reply for a waiting request is delivered
    and settles it; a reply for any other id is not delivered; an incoming
    request is delivered as something to reply to, and the reply goes out under
    the request's id; the end of a timer reports the request. Every waiting
    request has one running timer, of the configured duration and for one
    timeout, and no other timer runs. *)
Theorem request_response_refines `{Rng, DebugAssertions} sid conf dir src ident n evs :
  rr_events_ok sid (mkRrSpec ∅ n) evs ->
  let '(p, msgs, items) := rr_specs sid (mkRrSpec ∅ n) evs in
  exists io s, rr_run evs (io_new n) (RequestResponse_new sid conf dir src ident) = Done (io, s, tt) /\
    rr_rep sid (rr_timeout conf) io s p /\
    ob_sent (io_slim io) = msgs /\ ob_sent (io_app io) = items.
Proof.
  intros Hok.
  pose proof (rr_run_refines _ _ evs _ _ _ (rr_rep_new sid conf dir src ident n) Hok) as Hrun.
  destruct (rr_specs sid (mkRrSpec ∅ n) evs) as [[p msgs] items].
  destruct Hrun as (io&s&Hrun&Hrep&Hm&Ha). by exists io, s.
Qed.

(** C27: Every request has exactly one outcome: the requests sent are those
    that still wait and those settled by a delivered reply or a reported
    timeout, each counted once. This holds for the sequences of events of the
    refinement above ([rr_events_ok]: in particular no timer ends after its reply)
    in which no id is drawn for a request while another one waits under it
    ([rr_fresh]); such a draw would overwrite the waiting request, which then has no
    outcome. *)
Theorem request_has_one_outcome `{Rng, DebugAssertions} sid conf dir src ident n evs :
  rr_events_ok sid (mkRrSpec ∅ n) evs -> rr_fresh sid (mkRrSpec ∅ n) evs ->
  exists io s, rr_run evs (io_new n) (RequestResponse_new sid conf dir src ident) = Done (io, s, tt) /\
    requested io ≡ₚ waiting s ++ settled io.
Proof.
  intros Hok Hf.
  pose proof (rr_run_refines _ _ evs _ _ _ (rr_rep_new sid conf dir src ident n) Hok) as Hrun.
  pose proof (rr_specs_account sid evs _ Hok Hf) as Hacc.
  destruct (rr_specs sid (mkRrSpec ∅ n) evs) as [[p msgs] items].
  destruct Hrun as (io&s&Hrun&Hrep&Hm&Ha). exists io, s. split; [done|].
  unfold requested, settled, waiting. rewrite Hm, Ha. simpl in *.
  rewrite <- (rr_rep_pending _ _ _ _ _ Hrep) in Hacc. unfold keys in Hacc.
  rewrite map_to_list_empty in Hacc. rewrite map_to_list_fmap in Hacc. simpl in Hacc.
  rewrite Hacc. f_equiv. rewrite <- list_fmap_compose. apply (reflexive_eq _ _).
  by apply list_fmap_ext.
Qed.

(** ** A concrete run *)

(** Two requests, answered and timed out; a late reply; a request that waits. *)
Definition demo_rr_events : list rr_event :=
  [RrSend (demo_session_msg Unspecified 0); RrSend (demo_session_msg Unspecified 0);
   RrReply (demo_session_msg Reply 7); RrExpire 8; RrReply (demo_session_msg Reply 8);
   RrRequest (demo_session_msg Request 40); RrAnswer (demo_session_msg Reply 40);
   RrSend (demo_session_msg Unspecified 0)].

Lemma demo_rr_events_ok : @rr_events_ok demo_rng 3 (mkRrSpec ∅ 0) demo_rr_events.
Proof. apply (bool_decide_unpack _). by vm_compute. Qed.
Lemma demo_rr_fresh : @rr_fresh demo_rng 3 (mkRrSpec ∅ 0) demo_rr_events.
Proof. repeat split; by vm_compute. Qed.

Lemma request_response_refines_witness :
  exists io s, @rr_run demo_rng demo_checks demo_rr_events (io_new 0)
      (RequestResponse_new 3 RequestResponseConfiguration_default Bidirectional demo_agent None) =
      Done (io, s, tt) /\
    length (ob_sent (io_slim io)) = 4 /\ length (ob_sent (io_app io)) = 3.
Proof.
  pose proof (@request_response_refines demo_rng demo_checks 3 RequestResponseConfiguration_default
    Bidirectional demo_agent None 0 demo_rr_events demo_rr_events_ok) as Hr.
  assert (Hlen : length (@rr_specs demo_rng 3 (mkRrSpec ∅ 0) demo_rr_events).1.2 = 4 /\
    length (@rr_specs demo_rng 3 (mkRrSpec ∅ 0) demo_rr_events).2 = 3).
  { split; vm_compute; reflexivity. }
  destruct (@rr_specs demo_rng 3 (mkRrSpec ∅ 0) demo_rr_events) as [[p msgs] items].
  destruct Hr as (io&s&Hrun&_&Hm&Ha). exists io, s. rewrite Hm, Ha. exact (conj Hrun Hlen).
Defined.

Lemma request_has_one_outcome_witness :
  exists io s, @rr_run demo_rng demo_checks demo_rr_events (io_new 0)
      (RequestResponse_new 3 RequestResponseConfiguration_default Bidirectional demo_agent None) =
      Done (io, s, tt) /\
    requested io ≡ₚ waiting s ++ settled io.
Proof.
  exact (@request_has_one_outcome demo_rng demo_checks 3 RequestResponseConfiguration_default
    Bidirectional demo_agent None 0 demo_rr_events demo_rr_events_ok demo_rr_fresh).
Defined.

(** A timer that has elapsed when the reply arrives calls [on_failure]
    after the reply took the request out of the map: the call finds no timer
    and panics. The same happens when the timer elapses between its start and
    the insertion of the request. *)
Theorem late_timeout_panics `{Rng, DebugAssertions} sid conf dir src ident n m m' :
  let s0 := RequestResponse_new sid conf dir src ident in
  is_Some (try_get_session_header (sm_message m)) -> in_session_header_type (sm_info m) <> Reply ->
  arrives Reply m' -> header_id m' = drawn_u32 n ->
  rr_on_failure (drawn_u32 n) 1 (io_new n) s0 = Panic "timer not found" /\
  (_ ← rr_run [RrSend m; RrReply m']; rr_on_failure (drawn_u32 n) 1) (io_new n) s0 =
    Panic "timer not found".
Proof.
  intros s0 Hm Hty Hm' Hid.
  assert (Hnone : forall io s, rr_timers s !! drawn_u32 n = None ->
    rr_on_failure (drawn_u32 n) 1 io s = Panic "timer not found").
  { intros io s Hn. unfold rr_on_failure. run_sess. rewrite bool_decide_eq_true_2 by done.
    cbn [negb]. rewrite andb_false_r. run_sess. by rewrite Hn. }
  split; [apply Hnone; apply lookup_empty|].
  destruct (rr_run_refines sid (rr_timeout conf) [RrSend m; RrReply m'] (io_new n) s0 (mkRrSpec ∅ n))
    as (io&s&Hrun&Hrep&_); [apply rr_rep_new|done|].
  rewrite (sess_bind_Done _ _ _ _ _ _ _ Hrun). apply Hnone.
  pose proof (rr_pending_lookup _ _ _ _ _ (drawn_u32 n) Hrep) as Hl.
  cbn [rr_specs rr_spec rs_pending rs_draws] in Hl. rewrite Hid, lookup_insert_eq in Hl. cbn in Hl.
  rewrite lookup_delete_eq in Hl. by destruct (rr_timers s !! drawn_u32 n).
Qed.

Lemma late_timeout_panics_witness :
  @rr_on_failure demo_checks 7 1 (io_new 0)
    (RequestResponse_new 3 RequestResponseConfiguration_default Bidirectional demo_agent None) =
    Panic "timer not found".
Proof.
  refine (proj1 (@late_timeout_panics demo_rng demo_checks 3 RequestResponseConfiguration_default
    Bidirectional demo_agent None 0 (demo_session_msg Unspecified 0) (demo_session_msg Reply 7) _ _ _ _)).
  - eexists. reflexivity.
  - discriminate.
  - split; reflexivity.
  - reflexivity.
Defined.
