(* ===== verification/FireAndForget.v ===== *)
(** * Fire-and-forget sessions

    [service/src/fire_and_forget.rs]. The processor of a session reads its inbox
    one message at a time: messages from and to the application, new
    configurations and timer calls. A reliable session keeps every message
    until it is acknowledged or its retries are used up. A sticky session looks
    for a peer with its first message and then talks to that peer only. *)
From stdpp Require Import base list gmap strings numbers option.
From S2P Require Import Prelude Proto Encoder Messages Timer Session.
Open Scope slim_scope.
Open Scope string_scope.

Inductive StickySessionStatus : Type :=
| Uninitialized
| Discovering
| Established.
#[export] Instance StickySessionStatus_eq_dec : EqDecision StickySessionStatus.
Proof. solve_decision. Defined.

Inductive InternalMessage : Type :=
| OnMessage (message : SessionMessage) (direction : MessageDirection)
| SetConfig (config : FireAndForgetConfiguration)
| TimerTimeout (message_id timeouts : N)
| TimerFailure (message_id timeouts : N).

(** The channels of the state are those of the environment. *)
Record FireAndForgetState : Type := mkFireAndForgetState {
  ffs_session_id : N;
  ffs_source : Agent;
  ffs_config : FireAndForgetConfiguration;
  ffs_timers : gmap N (Timer * ProtoMessage);
  sticky_name : option Agent;
  sticky_connection : option N;
  sticky_session_status : StickySessionStatus;
  sticky_buffer : list ProtoMessage;
}.

Definition set_config (c : FireAndForgetConfiguration) (s : FireAndForgetState) : FireAndForgetState :=
  mkFireAndForgetState (ffs_session_id s) (ffs_source s) c (ffs_timers s) (sticky_name s) (sticky_connection s)
    (sticky_session_status s) (sticky_buffer s).
Definition set_timers (t : gmap N (Timer * ProtoMessage)) (s : FireAndForgetState) : FireAndForgetState :=
  mkFireAndForgetState (ffs_session_id s) (ffs_source s) (ffs_config s) t (sticky_name s) (sticky_connection s)
    (sticky_session_status s) (sticky_buffer s).
Definition set_status (st : StickySessionStatus) (s : FireAndForgetState) : FireAndForgetState :=
  mkFireAndForgetState (ffs_session_id s) (ffs_source s) (ffs_config s) (ffs_timers s) (sticky_name s)
    (sticky_connection s) st (sticky_buffer s).
Definition set_buffer (b : list ProtoMessage) (s : FireAndForgetState) : FireAndForgetState :=
  mkFireAndForgetState (ffs_session_id s) (ffs_source s) (ffs_config s) (ffs_timers s) (sticky_name s)
    (sticky_connection s) (sticky_session_status s) b.
(** The three assignments that establish a sticky session. *)
Definition set_peer (name : Agent) (conn : N) (s : FireAndForgetState) : FireAndForgetState :=
  mkFireAndForgetState (ffs_session_id s) (ffs_source s) (ffs_config s) (ffs_timers s) (Some name) (Some conn)
    Established (sticky_buffer s).

(** Whether [debug!] is recorded: only then are its arguments evaluated. *)
Class Logging : Type := { debug_enabled : bool }.
Definition debug_arg `{Logging} {S A} (c : panics A) : sess S unit :=
  if debug_enabled then (_ ← lift c; mret tt) else mret tt.

Section handlers.
Context `{Rng, Logging}.
Abbreviation ff A := (sess FireAndForgetState A).

Definition handle_timer_timeout (message_id : N) : ff unit :=
  s ← get_state;
  match ffs_timers s !! message_id with
  | Some (_, message) => _ ← send_slim message; mret tt
  | None => mret tt
  end.

Definition handle_timer_failure (message_id : N) : ff unit :=
  s ← get_state;
  match ffs_timers s !! message_id with
  | Some (timer, message) =>
      _ ← modify (set_timers (delete message_id (ffs_timers s)));
      message ← lift (SessionMessage_from message);
      _ ← send_app (Err (Timeout (ffs_session_id s) message_id message));
      drop_timer timer
  | None => mret tt
  end.

Definition start_sticky_session_discovery (agent_type : AgentType) : ff (Result unit SessionError) :=
  s ← get_state;
  let probe_message :=
    new_publish (ffs_source s) agent_type None None "sticky_session_discovery" [] in
  probe_message ← lift (with_session_header_mut
    (fun h => SessionHeader_set_session_id (ffs_session_id s)
                (SessionHeader_set_header_type FnfDiscovery h)) probe_message);
  _ ← modify (set_status Discovering);
  res ← send_slim probe_message;
  mret (map_err SlimTransmission res).

Definition send_message (message : ProtoMessage) : ff (Result unit SessionError) :=
  message_id ← random_below u32_max;
  s ← get_state;
  message ← lift (with_session_header_mut
    (fun h => SessionHeader_set_session_id (ffs_session_id s) (SessionHeader_set_message_id message_id h))
    message);
  message ← match sticky_name s with
            | Some name =>
                message ← lift (with_slim_header_mut (SlimHeader_set_destination name) message);
                lift (with_slim_header_mut (SlimHeader_set_forward_to (sticky_connection s)) message)
            | None => mret message
            end;
  _ ← match ff_timeout (ffs_config s) with
      | Some timeout_duration =>
          message_id ← lift (get_id message);
          timer ← new_timer message_id Constant timeout_duration None (ff_max_retries (ffs_config s));
          _ ← start_timer timer;
          _ ← modify (set_timers (<[message_id := (timer, message)]> (ffs_timers s)));
          match ffs_timers s !! message_id with
          | Some (old, _) => drop_timer old
          | None => mret tt
          end
      | None => mret tt
      end;
  _ ← debug_arg (get_source message);
  res ← send_slim message;
  mret (map_err SlimTransmission res).

(** The loop over the buffered messages. *)
Fixpoint send_all (messages : list ProtoMessage) : ff (Result unit SessionError) :=
  match messages with
  | [] => mret (Ok tt)
  | msg :: messages => _ ←? send_message msg; send_all messages
  end.

Definition handle_sticky_session_discovery (message : SessionMessage) : ff (Result unit SessionError) :=
  let msg := sm_message message in
  source' ← lift (get_source msg);
  _ ← debug_arg (get_incoming_conn msg);
  incoming ← lift (get_incoming_conn msg);
  s ← get_state;
  let sticky_session_reply :=
    new_publish (ffs_source s) (ag_agent_type source') (Some (ag_agent_id source'))
      (Some (with_forward_to SlimHeaderFlags_default incoming)) "sticky_session_discovery_reply" [] in
  sticky_session_reply ← lift (with_session_header_mut
    (SessionHeader_set_header_type FnfDiscoveryReply) sticky_session_reply);
  _ ← modify (set_peer source' incoming);
  _ ←? send_message sticky_session_reply;
  mret (Ok tt).

Definition handle_sticky_session_discovery_reply (message : SessionMessage) : ff (Result unit SessionError) :=
  let msg := sm_message message in
  source' ← lift (get_source msg);
  s ← get_state;
  _ ← debug_arg (get_incoming_conn msg);
  match sticky_session_status s with
  | Discovering =>
      incoming ← lift (get_incoming_conn msg);
      _ ← modify (set_peer source' incoming);
      let messages := sticky_buffer s in
      _ ← modify (set_buffer []);
      send_all messages
  | _ =>
      match sticky_name s with
      | Some name =>
          mret (Err (AppTransmission
            (if Agent_eq name source' then "sticky session already established"
             else "sticky session already established with a different name: " +:+ Agent_fmt name
                    +:+ ", received: " +:+ Agent_fmt source')))
      | None => mret (Ok tt)
      end
  end.

Definition handle_message_to_slim (message : SessionMessage) : ff (Result unit SessionError) :=
  s ← get_state;
  let header_type := if decide (is_Some (ff_timeout (ffs_config s))) then FnfReliable else Fnf in
  msg ← lift (with_session_header_mut (SessionHeader_set_header_type header_type) (sm_message message));
  if ff_sticky (ffs_config s) then
    match sticky_name s with
    | Some name =>
        msg ← lift (with_slim_header_mut (SlimHeader_set_destination name) msg);
        msg ← lift (with_slim_header_mut (SlimHeader_set_forward_to (sticky_connection s)) msg);
        send_message msg
    | None =>
        match sticky_session_status s with
        | Uninitialized =>
            header ← lift (get_slim_header msg);
            '(dst, _) ← lift (SlimHeader_get_dst header);
            _ ←? start_sticky_session_discovery dst;
            _ ← modify (fun s => set_buffer (sticky_buffer s ++ [msg]) s);
            mret (Ok tt)
        | Established => mret (Err (AppTransmission "sticky session already established"))
        | Discovering =>
            _ ← modify (fun s => set_buffer (sticky_buffer s ++ [msg]) s);
            mret (Ok tt)
        end
    end
  else send_message msg.

Definition send_message_to_app (message : SessionMessage) : ff (Result unit SessionError) :=
  res ← send_app (Ok message);
  mret (map_err SlimTransmission res).

Definition stop_and_remove_timer (message_id : N) : ff (Result unit SessionError) :=
  s ← get_state;
  match ffs_timers s !! message_id with
  | Some (timer, _) =>
      _ ← modify (set_timers (delete message_id (ffs_timers s)));
      timer ← stop_timer timer;
      _ ← drop_timer timer;
      mret (Ok tt)
  | None =>
      mret (Err (AppTransmission ("timer not found for message id " +:+ fmt_dec message_id)))
  end.

Definition handle_message_to_app (message : SessionMessage) : ff (Result unit SessionError) :=
  message_id ← lift (expect (in_message_id (sm_info message)) "message id not found");
  let msg := sm_message message in
  _ ← debug_arg (get_source msg);
  s ← get_state;
  _ ←? (if ff_sticky (ffs_config s) then
          match sticky_name s with
          | Some name =>
              source' ← lift (get_source msg);
              if Agent_eq name source' then mret (Ok tt)
              else mret (Err (AppTransmission ("message source " +:+ Agent_fmt source'
                     +:+ " does not match sticky name " +:+ Agent_fmt name)))
          | None => mret (Ok tt)
          end
        else mret (Ok tt));
  header_type ← lift (get_header_type msg);
  match header_type with
  | Fnf => send_message_to_app message
  | FnfReliable =>
      src ← lift (get_source msg);
      incoming ← lift (get_incoming_conn msg);
      let slim_header :=
        Some (SlimHeader_new (ffs_source s) (ag_agent_type src) (Some (ag_agent_id src))
                (Some (with_forward_to SlimHeaderFlags_default incoming))) in
      let session_header :=
        Some (SessionHeader_new (SessionHeaderType_to_i32 FnfAck) (in_id (sm_info message)) message_id) in
      res ← send_slim (new_publish_with_headers slim_header session_header "" []);
      match res with
      | Err e => mret (Err (SlimTransmission e))
      | Ok _ => send_message_to_app message
      end
  | FnfAck => stop_and_remove_timer message_id
  | FnfDiscovery => handle_sticky_session_discovery message
  | FnfDiscoveryReply => handle_sticky_session_discovery_reply message
  | t => mret (Err (AppTransmission ("invalid session header " +:+ fmt_dec (Z.to_N (SessionHeaderType_to_i32 t)))))
  end.

(** One message of the inbox; errors are only logged. *)
Definition process_internal (m : InternalMessage) : ff unit :=
  match m with
  | OnMessage message North => _ ← handle_message_to_app message; mret tt
  | OnMessage message South => _ ← handle_message_to_slim message; mret tt
  | SetConfig c => modify (set_config c)
  | TimerTimeout message_id _ => handle_timer_timeout message_id
  | TimerFailure message_id _ => handle_timer_failure message_id
  end.
End handlers.

(** After the loop: every timer is stopped. *)
Fixpoint drain_timers (l : list (N * (Timer * ProtoMessage))) : sess FireAndForgetState unit :=
  match l with
  | [] => mret tt
  | (_, (timer, _)) :: l => timer ← stop_timer timer; _ ← drop_timer timer; drain_timers l
  end.
Definition leave_loop `{HashIter} : sess FireAndForgetState unit :=
  s ← get_state;
  _ ← modify (set_timers ∅);
  drain_timers (hash_iter (ffs_timers s)).

(** ** The session and its inbox

    [ff_loop] is the state of the processor task, absent once its loop is left:
    the inbox has no receiver then. *)
Record FireAndForget : Type := mkFireAndForget {
  ff_common : Common;
  ff_inbox : list InternalMessage;
  ff_cancelled : bool;
  ff_loop : option FireAndForgetState;
}.

Definition FireAndForgetState_new (id : N) (source : Agent) (c : FireAndForgetConfiguration)
    : FireAndForgetState :=
  mkFireAndForgetState id source c ∅ None None Uninitialized [].

Definition FireAndForget_new (id : N) (session_config : FireAndForgetConfiguration)
    (session_direction : SessionDirection) (agent : Agent) (identity : option string) : FireAndForget :=
  let common := Common_new id session_direction (SessionConfig_FireAndForget session_config) agent identity in
  mkFireAndForget common [] false (Some (FireAndForgetState_new id (cm_source common) session_config)).

Definition ff_push (m : InternalMessage) (f : FireAndForget) : FireAndForget * Result unit string :=
  match ff_loop f with
  | Some _ => (mkFireAndForget (ff_common f) (ff_inbox f ++ [m]) (ff_cancelled f) (ff_loop f), Ok tt)
  | None => (f, Err "channel closed")
  end.

(** [Session::on_message]. *)
Definition FireAndForget_on_message (f : FireAndForget) (message : SessionMessage)
    (direction : MessageDirection) : FireAndForget * Result unit SessionError :=
  let (f, res) := ff_push (OnMessage message direction) f in (f, map_err SessionClosed res).

(** [set_session_config]: the task that sends the new configuration to the
    processor only logs a failure. *)
Definition FireAndForget_set_session_config `{ErrorText} (f : FireAndForget) (session_config : SessionConfig)
    : FireAndForget * Result unit SessionError :=
  match Common_set_session_config (ff_common f) session_config with
  | (_, Err e) => (f, Err e)
  | (common, Ok _) =>
      let f := mkFireAndForget common (ff_inbox f) (ff_cancelled f) (ff_loop f) in
      match session_config with
      | SessionConfig_FireAndForget config => ((ff_push (SetConfig config) f).1, Ok tt)
      | _ => (f, Err (ConfigurationError "invalid session config type"))
      end
  end.

(** [Drop]. *)
Definition FireAndForget_drop (f : FireAndForget) : FireAndForget :=
  mkFireAndForget (ff_common f) (ff_inbox f) true (ff_loop f).

(** [RtxTimerObserver]. *)
Definition ff_observer (call : ObserverCall) (f : FireAndForget) : panics FireAndForget :=
  match call with
  | OnTimeout id n =>
      match ff_push (TimerTimeout id n) f with
      | (f, Ok _) => Done f
      | (_, Err _) => Panic "failed to send timer timeout"
      end
  | OnFailure id n =>
      match ff_push (TimerFailure id n) f with
      | (f, Ok _) => Done f
      | (_, Err _) => Panic "failed to send timer failure"
      end
  | OnStop _ => Done f
  end.

(** One turn of [process_loop]: [recv] takes the next message of the inbox, or
    the token is found cancelled. *)
Inductive LoopTurn : Type := TurnRecv | TurnCancelled.
Definition ff_turn `{Rng, Logging, HashIter} (t : LoopTurn) : sess FireAndForget unit := fun io f =>
  match ff_loop f with
  | None => Done (io, f, tt)
  | Some st =>
      match t with
      | TurnRecv =>
          match ff_inbox f with
          | [] => Done (io, f, tt)
          | m :: inbox =>
              '(io, st, _) ← process_internal m io st;
              Done (io, mkFireAndForget (ff_common f) inbox (ff_cancelled f) (Some st), tt)
          end
      | TurnCancelled =>
          if ff_cancelled f then
            '(io, _, _) ← leave_loop io st;
            Done (io, mkFireAndForget (ff_common f) [] true None, tt)
          else Done (io, f, tt)
      end
  end.
Close Scope string_scope.
