(* ===== verification/FireAndForgetProofs.v ===== *)
(** * Fire-and-forget sessions: properties

    The effect of sending, the invariant of the processor, retransmission
    together with the timer's own run, sticky sessions, and closing. *)
From stdpp Require Import base list gmap strings numbers option.
From S2P Require Import Prelude Proto Encoder Messages Timer Session.
From S2P Require Import FireAndForget.
Open Scope slim_scope.

(** ** Sending *)

(** The message as it goes out under [id]. *)
Definition redirected (s : FireAndForgetState) (m : ProtoMessage) : ProtoMessage :=
  match sticky_name s with
  | Some name => map_slim (SlimHeader_set_forward_to (sticky_connection s))
                   (map_slim (SlimHeader_set_destination name) m)
  | None => m
  end.
Definition numbered (s : FireAndForgetState) (id : N) (m : ProtoMessage) : ProtoMessage :=
  map_session (fun h => SessionHeader_set_session_id (ffs_session_id s) (SessionHeader_set_message_id id h)) m.
Definition sent_as (s : FireAndForgetState) (id : N) (m : ProtoMessage) : ProtoMessage :=
  redirected s (numbered s id m).

(** The state after a message was sent: a reliable session keeps it. *)
Definition after_send (io : SessionIo) (s : FireAndForgetState) (id : N) (m : ProtoMessage)
    : SessionIo * FireAndForgetState :=
  let msg := sent_as s id m in
  let slim := mkOutbox (ob_open (io_slim io)) (ob_sent (io_slim io) ++ [msg]) in
  match ff_timeout (ffs_config s) with
  | Some d =>
      let (sys, t) := timers_keep (io_timers io) (ffs_timers s) id Constant d None
                        (ff_max_retries (ffs_config s)) in
      (mkSessionIo slim (io_app io) sys (io_draws io + 1),
       set_timers (<[id := (t, msg)]> (ffs_timers s)) s)
  | None => (mkSessionIo slim (io_app io) (io_timers io) (io_draws io + 1), s)
  end.

Section sending.
Context `{Rng, Logging}.

Definition drawn_id (io : SessionIo) : N := (draw (io_draws io) `mod` u32_max)%N.

Lemma debug_arg_done {S A} (c : panics A) a io (s : S) : c = Done a -> debug_arg c io s = Done (io, s, tt).
Proof. intros ->. unfold debug_arg. by destruct debug_enabled. Qed.

Lemma redirected_done (s : FireAndForgetState) m io :
  proper m ->
  match sticky_name s with
  | Some name =>
      message ← lift (with_slim_header_mut (SlimHeader_set_destination name) m);
      lift (with_slim_header_mut (SlimHeader_set_forward_to (sticky_connection s)) message)
  | None => mret m
  end io s = Done (io, s, redirected s m) /\ proper (redirected s m).
Proof.
  intros Hp. unfold redirected. destruct (sticky_name s) as [name|]; [|done].
  destruct (proper_slim _ m (keeps_destination name) Hp) as [H1 Hp1].
  destruct (proper_slim _ _ (keeps_forward_to (sticky_connection s)) Hp1) as [H2 Hp2].
  run_sess. rewrite H1. run_sess. by rewrite H2.
Qed.

Lemma get_id_sent s id m : proper m -> get_id (sent_as s id m) = Done id /\
  exists h, get_session_header (sent_as s id m) = Done h /\ se_session_id h = ffs_session_id s.
Proof.
  intros (md&p&h&sh&src&->&Hh&Hs&Hsrc). unfold sent_as, redirected, numbered, get_id.
  unfold map_session; simpl. rewrite Hs; simpl.
  destruct (sticky_name s); unfold map_slim, get_session_header; simpl; eauto.
Qed.

Lemma sent_as_proper s id m : proper m -> proper (sent_as s id m).
Proof.
  intros Hp. unfold sent_as. destruct (proper_session (fun h => SessionHeader_set_session_id
    (ffs_session_id s) (SessionHeader_set_message_id id h)) m Hp) as [_ Hp1].
  unfold numbered. by apply (redirected_done s _ (mkSessionIo (mkOutbox true []) (mkOutbox true [])
    TimerSystem_empty 0)) in Hp1 as [_ ?].
Qed.

Lemma send_message_done io s m :
  proper m -> ob_open (io_slim io) = true ->
  send_message m io s =
    Done (after_send io s (drawn_id io) m, Ok tt).
Proof.
  intros Hp Ho. unfold send_message.
  destruct (proper_session (fun h => SessionHeader_set_session_id (ffs_session_id s)
    (SessionHeader_set_message_id (drawn_id io) h)) m Hp) as [H1 Hp1].
  fold (numbered s (drawn_id io) m) in H1, Hp1.
  destruct (proper_source _ (sent_as_proper s (drawn_id io) m Hp)) as [src Hsrc].
  destruct (get_id_sent s (drawn_id io) m Hp) as [Hid _].
  rewrite (sess_bind_Done _ _ _ _ _ _ _ (eq_refl : random_below u32_max io s = Done (_, s, drawn_id io))).
  rewrite (sess_bind_Done _ _ _ _ _ _ _ (eq_refl : get_state _ s = Done (_, s, s))).
  rewrite (sess_bind_Done _ _ _ _ _ _ _ (sess_lift_Done _ _ _ _ H1)).
  rewrite (sess_bind_Done _ _ _ _ _ _ _ (proj1 (redirected_done s _ _ Hp1))).
  fold (sent_as s (drawn_id io) m).
  unfold after_send, timers_keep. destruct (ff_timeout (ffs_config s)) as [d|].
  - run_sess. rewrite Hid. run_sess.
    destruct (ffs_timers s !! drawn_id io) as [[old ?]|]; run_sess;
      unfold debug_arg; destruct debug_enabled; run_sess; rewrite ?Hsrc; run_sess;
      rewrite Ho; run_sess; done.
  - run_sess. unfold debug_arg; destruct debug_enabled; run_sess; rewrite ?Hsrc; run_sess;
      rewrite Ho; run_sess; done.
Qed.
End sending.

(** ** The invariant of the processor *)
Record ff_inv (io : SessionIo) (s : FireAndForgetState) : Prop := {
  fi_open : io_open io;
  fi_timers : timers_ok (io_timers io) (ffs_timers s);
  fi_kept : forall id t m, ffs_timers s !! id = Some (t, m) -> proper m /\ get_id m = Done id;
  fi_sticky : sticky_session_status s = Established <-> is_Some (sticky_name s);
  fi_conn : is_Some (sticky_name s) <-> is_Some (sticky_connection s);
  fi_buffer : sticky_session_status s = Uninitialized -> sticky_buffer s = [];
  fi_proper : Forall proper (sticky_buffer s);
  fi_source : ag_agent_id (ffs_source s) <> DEFAULT_AGENT_ID;
}.

(** What sending does not touch. *)
Definition same_peer (s s' : FireAndForgetState) : Prop :=
  s' = set_timers (ffs_timers s') s.

Lemma same_peer_refl s : same_peer s s.
Proof. by destruct s. Qed.
Lemma same_peer_trans s1 s2 s3 : same_peer s1 s2 -> same_peer s2 s3 -> same_peer s1 s3.
Proof. unfold same_peer. intros -> ->. done. Qed.
Lemma same_peer_set_timers s t : same_peer s (set_timers t s).
Proof. done. Qed.
Lemma sent_as_peer s s' id m : same_peer s s' -> sent_as s' id m = sent_as s id m.
Proof. unfold same_peer. by intros ->. Qed.
#[export] Hint Resolve same_peer_refl same_peer_set_timers : slim.

(** The invariant follows the timers when nothing else changes. *)
Lemma ff_inv_timers io s io' t :
  ff_inv io s -> io_open io' -> timers_ok (io_timers io') t ->
  (forall id tm m, t !! id = Some (tm, m) -> proper m /\ get_id m = Done id) ->
  ff_inv io' (set_timers t s).
Proof. intros [] ? ? ?. by split. Qed.

Lemma ff_inv_io io s io' :
  ff_inv io s -> io_open io' -> io_timers io' = io_timers io -> ff_inv io' s.
Proof. intros [] Ho Ht. split; try done. by rewrite Ht. Qed.

(** ... and a peer found, with its buffer emptied or not. *)
Lemma ff_inv_peer io s name conn b :
  ff_inv io s -> Forall proper b -> ff_inv io (set_buffer b (set_peer name conn s)).
Proof. intros [] ?. split; simpl; try done; by split. Qed.

Section invariant.
Context `{Rng, Logging}.

Lemma after_send_inv io s id m :
  ff_inv io s -> proper m ->
  let (io', s') := after_send io s id m in
  ff_inv io' s' /\ same_peer s s' /\
  ob_sent (io_slim io') = ob_sent (io_slim io) ++ [sent_as s id m] /\
  ob_sent (io_app io') = ob_sent (io_app io) /\ io_draws io' = io_draws io + 1.
Proof.
  intros Hinv Hp. unfold after_send. destruct (ff_timeout (ffs_config s)) as [d|].
  - pose proof (timers_ok_keep (io_timers io) (ffs_timers s) id Constant d None
      (ff_max_retries (ffs_config s)) (sent_as s id m) (fi_timers _ _ Hinv)) as Hk.
    destruct (timers_keep _ _ _ _ _ _ _) as [sys t]. destruct Hk as [Hk _].
    split; [|by auto with slim].
    apply (ff_inv_timers io s); [done|exact (fi_open _ _ Hinv)|done|].
    intros id' t' m' [[<- [= <- <-]]|[_ Hm]]%lookup_insert_Some; [|by apply (fi_kept _ _ Hinv id' t')].
    split; [by apply sent_as_proper|by apply get_id_sent].
  - split; [|by auto with slim]. destruct Hinv. by split.
Qed.

Lemma send_message_inv io s m :
  ff_inv io s -> proper m ->
  exists io' s', send_message m io s = Done (io', s', Ok tt) /\ ff_inv io' s' /\ same_peer s s' /\
    ob_sent (io_slim io') = ob_sent (io_slim io) ++ [sent_as s (drawn_id io) m] /\
    ob_sent (io_app io') = ob_sent (io_app io) /\ io_draws io' = io_draws io + 1.
Proof.
  intros Hinv Hp. pose proof (after_send_inv io s (drawn_id io) m Hinv Hp) as Ha.
  rewrite send_message_done by (done || apply (fi_open _ _ Hinv)).
  destruct (after_send io s (drawn_id io) m) as [io' s']. by exists io', s'.
Qed.

(** The messages as they go out with the draws from the [n]-th on. *)
Fixpoint sent_batch (s : FireAndForgetState) (n : nat) (ms : list ProtoMessage) : list ProtoMessage :=
  match ms with
  | [] => []
  | m :: ms => sent_as s (draw n `mod` u32_max)%N m :: sent_batch s (n + 1) ms
  end.
Lemma sent_batch_ext s s' n ms :
  (forall id m, sent_as s' id m = sent_as s id m) -> sent_batch s' n ms = sent_batch s n ms.
Proof.
  intros Hs. revert n. induction ms as [|m ms IH]; intros n; simpl; [done|]. by rewrite IH, Hs.
Qed.
Lemma sent_batch_peer s s' n ms : same_peer s s' -> sent_batch s' n ms = sent_batch s n ms.
Proof. intros Hp. apply sent_batch_ext. intros. by apply sent_as_peer. Qed.

Lemma send_all_inv ms : forall io s,
  ff_inv io s -> Forall proper ms ->
  exists io' s', send_all ms io s = Done (io', s', Ok tt) /\ ff_inv io' s' /\ same_peer s s' /\
    ob_sent (io_slim io') = ob_sent (io_slim io) ++ sent_batch s (io_draws io) ms /\
    ob_sent (io_app io') = ob_sent (io_app io) /\ io_draws io' = io_draws io + length ms.
Proof.
  induction ms as [|m ms IH]; intros io s Hinv Hp.
  - exists io, s. split; [done|]. split; [done|]. split; [apply same_peer_refl|].
    simpl. rewrite app_nil_r. split; [done|]. split; [done|lia].
  - inversion Hp as [|? ? Hm Hms]; subst.
    destruct (send_message_inv io s m Hinv Hm) as (io1&s1&Hs1&Hinv1&Hp1&Hsl1&Hap1&Hd1).
    destruct (IH io1 s1 Hinv1 Hms) as (io2&s2&Hs2&Hinv2&Hp2&Hsl2&Hap2&Hd2).
    exists io2, s2. cbn [send_all]. rewrite (try_bind_Ok _ _ _ _ _ _ _ Hs1).
    split; [done|]. split; [done|]. split; [by eapply same_peer_trans|].
    split; [|split; [congruence|simpl; lia]].
    rewrite Hsl2, Hsl1, <- app_assoc. rewrite (sent_batch_peer s s1 _ _ Hp1), Hd1. done.
Qed.

(** What the inbox holds. *)
Definition internal_ok (m : InternalMessage) : Prop :=
  match m with
  | OnMessage message South => proper (sm_message message) /\
      exists h dst, get_slim_header (sm_message message) = Done h /\ sh_destination h = Some dst
  | OnMessage message North => proper (sm_message message) /\
      is_Some (in_message_id (sm_info message)) /\ (exists c, get_incoming_conn (sm_message message) = Done c)
  | SetConfig _ | TimerTimeout _ _ | TimerFailure _ _ => True
  end.

Lemma timer_timeout_inv io s id :
  ff_inv io s -> exists io', handle_timer_timeout id io s = Done (io', s, tt) /\ ff_inv io' s /\
    ob_sent (io_slim io') = ob_sent (io_slim io) ++
      (match ffs_timers s !! id with Some (_, m) => [m] | None => [] end) /\
    ob_sent (io_app io') = ob_sent (io_app io) /\ io_timers io' = io_timers io.
Proof.
  intros Hinv. unfold handle_timer_timeout. run_sess.
  destruct (ffs_timers s !! id) as [[t m]|]; run_sess.
  - rewrite (proj1 (fi_open _ _ Hinv)). run_sess. eexists. split; [done|]. split; [|done].
    apply (ff_inv_io io); [done|by destruct (fi_open _ _ Hinv)|done].
  - exists io. split; [done|]. by rewrite app_nil_r.
Qed.

Lemma timer_failure_inv io s id :
  ff_inv io s -> exists io' s', handle_timer_failure id io s = Done (io', s', tt) /\ ff_inv io' s' /\
    s' = set_timers (delete id (ffs_timers s)) s /\
    ob_sent (io_slim io') = ob_sent (io_slim io) /\
    match ffs_timers s !! id with
    | Some (_, m) => exists sm, SessionMessage_from m = Done sm /\ sm_message sm = m /\
        ob_sent (io_app io') = ob_sent (io_app io) ++ [Err (Timeout (ffs_session_id s) id sm)]
    | None => ob_sent (io_app io') = ob_sent (io_app io)
    end.
Proof.
  intros Hinv. unfold handle_timer_failure. run_sess.
  destruct (ffs_timers s !! id) as [[t m]|] eqn:Hid; run_sess.
  - destruct (fi_kept _ _ Hinv id t m Hid) as [Hp _]. destruct (proper_info m Hp) as (sm&Hsm&Hm).
    rewrite Hsm. run_sess. rewrite (proj2 (fi_open _ _ Hinv)). run_sess.
    eexists _, _. split; [done|]. split; [|split; [done|split; [done|by exists sm]]].
    apply (ff_inv_timers io s); [done|by destruct (fi_open _ _ Hinv)|..]; simpl.
    + exact (timers_ok_drop _ _ _ _ _ (fi_timers _ _ Hinv) Hid).
    + intros id' t' m' [_ Hm']%lookup_delete_Some. by apply (fi_kept _ _ Hinv id' t').
  - exists io, s. split; [done|]. split; [done|]. split; [|done].
    rewrite delete_id by done. by destruct s.
Qed.

(** The header type of what the application sends. *)
Definition typed (s : FireAndForgetState) : ProtoMessage -> ProtoMessage :=
  map_session (SessionHeader_set_header_type
    (if decide (is_Some (ff_timeout (ffs_config s))) then FnfReliable else Fnf)).

(** A sticky session without a peer holds messages back; otherwise a message
    goes out at once. *)
Definition holds_back (s : FireAndForgetState) : Prop :=
  ff_sticky (ffs_config s) = true /\ sticky_name s = None.

Lemma redirected_twice s id m :
  sticky_name s <> None ->
  sent_as s id (redirected s m) = sent_as s id m.
Proof.
  intros Hn. unfold sent_as, redirected, numbered. destruct (sticky_name s); [|done].
  unfold map_slim, map_session. destruct m as [md [[| |p]|]]; simpl; try done.
  by destruct (pu_header p).
Qed.

(** A message that goes out at once, up to a redirection done twice. *)
Lemma to_slim_after io s message :
  ff_inv io s -> proper (sm_message message) -> ~ holds_back s ->
  exists m, proper m /\
    sent_as s (drawn_id io) m = sent_as s (drawn_id io) (typed s (sm_message message)) /\
    handle_message_to_slim message io s = Done (after_send io s (drawn_id io) m, Ok tt).
Proof.
  intros Hinv Hp Hhold. unfold handle_message_to_slim.
  rewrite (sess_bind_Done _ _ _ _ _ _ _ (eq_refl : get_state io s = Done (io, s, s))).
  destruct (proper_session (SessionHeader_set_header_type
    (if decide (is_Some (ff_timeout (ffs_config s))) then FnfReliable else Fnf)) _ Hp) as [H1 Hp1].
  rewrite (sess_bind_Done _ _ _ _ _ _ _ (sess_lift_Done _ _ _ _ H1)). fold (typed s (sm_message message)) in *.
  pose proof (proj1 (fi_open _ _ Hinv)) as Ho.
  destruct (ff_sticky (ffs_config s)) eqn:Hst;
    [|exists (typed s (sm_message message)); by rewrite send_message_done].
  destruct (sticky_name s) as [name|] eqn:Hname; [|by destruct Hhold].
  destruct (proper_slim _ _ (keeps_destination name) Hp1) as [H2 Hp2].
  destruct (proper_slim _ _ (keeps_forward_to (sticky_connection s)) Hp2) as [H3 Hp3].
  rewrite (sess_bind_Done _ _ _ _ _ _ _ (sess_lift_Done _ _ _ _ H2)).
  rewrite (sess_bind_Done _ _ _ _ _ _ _ (sess_lift_Done _ _ _ _ H3)).
  eexists. split; [exact Hp3|]. split; [|by apply send_message_done].
  pose proof (redirected_twice s (drawn_id io) (typed s (sm_message message)) ltac:(congruence)) as Hr.
  unfold redirected in Hr at 1. by rewrite Hname in Hr.
Qed.

Lemma to_slim_sends io s message :
  ff_inv io s -> proper (sm_message message) -> ~ holds_back s ->
  exists io' s', handle_message_to_slim message io s = Done (io', s', Ok tt) /\
    ff_inv io' s' /\ same_peer s s' /\
    ob_sent (io_slim io') = ob_sent (io_slim io) ++
      [sent_as s (drawn_id io) (typed s (sm_message message))] /\
    ob_sent (io_app io') = ob_sent (io_app io) /\ io_draws io' = io_draws io + 1.
Proof.
  intros Hinv Hp Hhold. destruct (to_slim_after io s message Hinv Hp Hhold) as (m&Hm&Hsent&Hs).
  pose proof (after_send_inv io s (drawn_id io) m Hinv Hm) as Ha. rewrite Hsent in Ha.
  destruct (after_send io s (drawn_id io) m) as [io' s']. by exists io', s'.
Qed.

(** The probe of a sticky session. *)
Definition probe (s : FireAndForgetState) (ty : AgentType) : ProtoMessage :=
  map_session (fun h => SessionHeader_set_session_id (ffs_session_id s)
    (SessionHeader_set_header_type FnfDiscovery h))
    (new_publish (ffs_source s) ty None None "sticky_session_discovery" []).

Lemma to_slim_holds io s message :
  ff_inv io s -> proper (sm_message message) -> holds_back s ->
  (exists h dst, get_slim_header (sm_message message) = Done h /\ sh_destination h = Some dst) ->
  exists io' s' probes, handle_message_to_slim message io s = Done (io', s', Ok tt) /\
    ff_inv io' s' /\
    s' = set_buffer (sticky_buffer s ++ [typed s (sm_message message)]) (set_status Discovering s) /\
    ob_sent (io_slim io') = ob_sent (io_slim io) ++ probes /\
    ob_sent (io_app io') = ob_sent (io_app io) /\ io_draws io' = io_draws io /\
    match sticky_session_status s with
    | Uninitialized => exists ty, probes = [probe s ty]
    | _ => probes = []
    end.
Proof.
  intros Hinv Hp [Hst Hname] (h&dst&Hh&Hd). unfold handle_message_to_slim.
  rewrite (sess_bind_Done _ _ _ _ _ _ _ (eq_refl : get_state io s = Done (io, s, s))).
  destruct (proper_session (SessionHeader_set_header_type
    (if decide (is_Some (ff_timeout (ffs_config s))) then FnfReliable else Fnf)) _ Hp) as [H1 Hp1].
  rewrite (sess_bind_Done _ _ _ _ _ _ _ (sess_lift_Done _ _ _ _ H1)). fold (typed s (sm_message message)) in *.
  rewrite Hst, Hname.
  assert (Hbuf : Forall proper (sticky_buffer s ++ [typed s (sm_message message)])).
  { apply Forall_app. split; [apply (fi_proper _ _ Hinv)|by constructor]. }
  assert (Hnew : forall io', io_open io' -> io_timers io' = io_timers io ->
    ff_inv io' (set_buffer (sticky_buffer s ++ [typed s (sm_message message)]) (set_status Discovering s))).
  { intros io' Ho Ht. destruct Hinv as [? ? ? Hs1 ? ? ? ?]. split; simpl; try done; [by rewrite Ht|].
    rewrite Hname. split; [done|]. intros [? [=]]. }
  assert (Hh1 : get_slim_header (typed s (sm_message message)) = Done h).
  { clear -Hp Hh. destruct Hp as (md&p&h'&sh&src&Hm&_). unfold typed, map_session, get_slim_header in *.
    rewrite Hm in *. exact Hh. }
  destruct (sticky_session_status s) eqn:Hss.
  - rewrite (sess_bind_Done _ _ _ _ _ _ _ (sess_lift_Done _ _ _ _ Hh1)).
    unfold SlimHeader_get_dst, start_sticky_session_discovery. rewrite Hd. run_sess.
    destruct (proper_session (fun h => SessionHeader_set_session_id (ffs_session_id s)
      (SessionHeader_set_header_type FnfDiscovery h)) (new_publish (ffs_source s)
        (AgentType_from_proto dst) None None "sticky_session_discovery" [])) as [Hpr _];
      [by apply new_publish_proper, Hinv|].
    rewrite Hpr. run_sess. rewrite (proj1 (fi_open _ _ Hinv)). run_sess.
    eexists _, _, _. split; [done|]. split; [|split; [done|split; [done|split; [done|split; [done|]]]]].
    + apply (Hnew (mkSessionIo _ _ _ _)); [by destruct (fi_open _ _ Hinv)|done].
    + eexists. reflexivity.
  - run_sess. eexists _, _, []. split; [done|]. rewrite app_nil_r.
    split; [|split; [|done]].
    + pose proof (Hnew io (fi_open _ _ Hinv) eq_refl) as Hn. unfold set_status in Hn.
      rewrite <- Hss in Hn. by destruct s.
    + rewrite <- Hss. by destruct s.
  - exfalso. destruct (proj1 (fi_sticky _ _ Hinv) Hss) as [? Hx]. congruence.
Qed.
End invariant.

Section receiving.
Context `{Rng, Logging}.

(** A sticky session with a peer takes messages from that peer only. *)
Definition accepts (s : FireAndForgetState) (src : Agent) : bool :=
  if ff_sticky (ffs_config s) then
    match sticky_name s with Some name => Agent_eq name src | None => true end
  else true.

(** The branches of [handle_message_to_app], after the checks. *)
Definition dispatch (message : SessionMessage) (message_id : N) (t : SessionHeaderType)
    : sess FireAndForgetState (Result unit SessionError) :=
  match t with
  | Fnf => send_message_to_app message
  | FnfReliable =>
      s ← get_state;
      src ← lift (get_source (sm_message message));
      incoming ← lift (get_incoming_conn (sm_message message));
      res ← send_slim (new_publish_with_headers
        (Some (SlimHeader_new (ffs_source s) (ag_agent_type src) (Some (ag_agent_id src))
                 (Some (with_forward_to SlimHeaderFlags_default incoming))))
        (Some (SessionHeader_new (SessionHeaderType_to_i32 FnfAck) (in_id (sm_info message)) message_id))
        "" []);
      match res with
      | Err e => mret (Err (SlimTransmission e))
      | Ok _ => send_message_to_app message
      end
  | FnfAck => stop_and_remove_timer message_id
  | FnfDiscovery => handle_sticky_session_discovery message
  | FnfDiscoveryReply => handle_sticky_session_discovery_reply message
  | t => mret (Err (AppTransmission
           ("invalid session header " +:+ fmt_dec (Z.to_N (SessionHeaderType_to_i32 t)))))
  end.

Lemma to_app_dispatch io s message id src t :
  in_message_id (sm_info message) = Some id -> get_source (sm_message message) = Done src ->
  get_header_type (sm_message message) = Done t ->
  exists e, handle_message_to_app message io s =
    if accepts s src then dispatch message id t io s else Done (io, s, Err e).
Proof.
  intros Hid Hsrc Ht. unfold handle_message_to_app, accepts.
  destruct (ff_sticky (ffs_config s)) eqn:Hst.
  - destruct (sticky_name s) as [name|] eqn:Hname.
    + destruct (Agent_eq name src) eqn:Heq.
      * eexists (AppTransmission ""). run_sess. rewrite Hid. run_sess.
        unfold debug_arg. destruct debug_enabled; run_sess; rewrite ?Hsrc; run_sess;
          rewrite Hst, Hname; run_sess; rewrite ?Hsrc; run_sess; rewrite Heq; run_sess;
          rewrite Ht; run_sess;
          (destruct t; cbn [dispatch]; run_sess; rewrite ?Hsrc; run_sess; done).
      * eexists. run_sess. rewrite Hid. run_sess.
        unfold debug_arg. destruct debug_enabled; run_sess; rewrite ?Hsrc; run_sess;
          rewrite Hst, Hname; run_sess; rewrite ?Hsrc; run_sess; rewrite Heq; run_sess; done.
    + eexists (AppTransmission ""). run_sess. rewrite Hid. run_sess.
      unfold debug_arg. destruct debug_enabled; run_sess; rewrite ?Hsrc; run_sess;
        rewrite Hst, Hname; run_sess; rewrite Ht; run_sess;
          (destruct t; cbn [dispatch]; run_sess; rewrite ?Hsrc; run_sess; done).
  - eexists (AppTransmission ""). run_sess. rewrite Hid. run_sess.
    unfold debug_arg. destruct debug_enabled; run_sess; rewrite ?Hsrc; run_sess;
      rewrite Hst; run_sess; rewrite Ht; run_sess;
          (destruct t; cbn [dispatch]; run_sess; rewrite ?Hsrc; run_sess; done).
Qed.

Lemma ack_inv io s id :
  ff_inv io s -> exists io' s' res, stop_and_remove_timer id io s = Done (io', s', res) /\ ff_inv io' s' /\
    s' = set_timers (delete id (ffs_timers s)) s /\
    ob_sent (io_slim io') = ob_sent (io_slim io) /\ ob_sent (io_app io') = ob_sent (io_app io) /\
    forall t m, ffs_timers s !! id = Some (t, m) ->
      res = Ok tt /\ cancellation_token t ∈ sys_cancelled (io_timers io').
Proof.
  intros Hinv. unfold stop_and_remove_timer. run_sess.
  destruct (ffs_timers s !! id) as [[t m]|] eqn:Hid; run_sess.
  - cbn [Timer_stop]. run_sess. eexists _, _, _. split; [done|].
    split; [|split; [done|split; [done|split; [done|]]]].
    + apply (ff_inv_timers io s); [done|by destruct (fi_open _ _ Hinv)|..].
      * exact (timers_ok_stop _ _ _ _ _ (fi_timers _ _ Hinv) Hid).
      * intros id' t' m' [_ Hm']%lookup_delete_Some. by apply (fi_kept _ _ Hinv id' t').
    + intros t' m' [= <- <-]. split; [done|]. simpl. set_solver.
  - exists io, s. eexists. split; [done|]. split; [done|].
    split; [rewrite delete_id by done; by destruct s|]. by repeat split.
Qed.

Lemma discovery_inv io s message src c :
  ff_inv io s -> get_source (sm_message message) = Done src ->
  get_incoming_conn (sm_message message) = Done c ->
  let reply := map_session (SessionHeader_set_header_type FnfDiscoveryReply)
    (new_publish (ffs_source s) (ag_agent_type src) (Some (ag_agent_id src))
       (Some (with_forward_to SlimHeaderFlags_default c)) "sticky_session_discovery_reply" []) in
  exists io' s', handle_sticky_session_discovery message io s = Done (io', s', Ok tt) /\ ff_inv io' s' /\
    same_peer (set_peer src c s) s' /\
    (io', s') = after_send io (set_peer src c s) (drawn_id io) reply.
Proof.
  intros Hinv Hsrc Hc reply. unfold handle_sticky_session_discovery.
  rewrite (sess_bind_Done _ _ _ _ _ _ _ (sess_lift_Done _ _ _ _ Hsrc)).
  rewrite (sess_bind_Done _ _ _ _ _ _ _ (debug_arg_done _ _ _ _ Hc)).
  rewrite (sess_bind_Done _ _ _ _ _ _ _ (sess_lift_Done _ _ _ _ Hc)).
  rewrite (sess_bind_Done _ _ _ _ _ _ _ (eq_refl : get_state io s = Done (io, s, s))).
  destruct (proper_session (SessionHeader_set_header_type FnfDiscoveryReply)
    (new_publish (ffs_source s) (ag_agent_type src) (Some (ag_agent_id src))
       (Some (with_forward_to SlimHeaderFlags_default c)) "sticky_session_discovery_reply" []))
    as [H1 Hp1]; [by apply new_publish_proper, Hinv|].
  rewrite (sess_bind_Done _ _ _ _ _ _ _ (sess_lift_Done _ _ _ _ H1)).
  rewrite (sess_bind_Done _ _ _ _ _ _ _ (eq_refl : modify (set_peer src c) io s = Done (io, _, tt))).
  pose proof (ff_inv_peer io s src c (sticky_buffer s) Hinv (fi_proper _ _ Hinv)) as Hpeer.
  change (set_buffer (sticky_buffer s) (set_peer src c s)) with (set_peer src c s) in Hpeer.
  pose proof (send_message_done io (set_peer src c s) _ Hp1 (proj1 (fi_open _ _ Hinv))) as Hsend.
  pose proof (after_send_inv io (set_peer src c s) (drawn_id io) _ Hpeer Hp1) as Ha.
  fold reply in Hsend, Ha |- *.
  destruct (after_send io (set_peer src c s) (drawn_id io) reply) as [io' s'].
  rewrite (try_bind_Ok _ _ _ _ _ _ _ Hsend). exists io', s'. by destruct Ha as (?&?&_).
Qed.

Lemma reply_inv io s message src c :
  ff_inv io s -> get_source (sm_message message) = Done src ->
  get_incoming_conn (sm_message message) = Done c ->
  exists io' s' res, handle_sticky_session_discovery_reply message io s = Done (io', s', res) /\
    ff_inv io' s' /\
    match sticky_session_status s with
    | Discovering =>
        res = Ok tt /\ same_peer (set_buffer [] (set_peer src c s)) s' /\
        ob_sent (io_slim io') = ob_sent (io_slim io) ++
          sent_batch (set_peer src c s) (io_draws io) (sticky_buffer s) /\
        ob_sent (io_app io') = ob_sent (io_app io) /\
        io_draws io' = io_draws io + length (sticky_buffer s)
    | _ => io' = io /\ s' = s
    end.
Proof.
  intros Hinv Hsrc Hc. unfold handle_sticky_session_discovery_reply.
  rewrite (sess_bind_Done _ _ _ _ _ _ _ (sess_lift_Done _ _ _ _ Hsrc)).
  rewrite (sess_bind_Done _ _ _ _ _ _ _ (eq_refl : get_state io s = Done (io, s, s))).
  rewrite (sess_bind_Done _ _ _ _ _ _ _ (debug_arg_done _ _ _ _ Hc)).
  destruct (sticky_session_status s);
    [destruct (sticky_name s) as [name|]; run_sess; by eexists io, s, _| |
     destruct (sticky_name s) as [name|]; run_sess; by eexists io, s, _].
  rewrite (sess_bind_Done _ _ _ _ _ _ _ (sess_lift_Done _ _ _ _ Hc)).
  rewrite (sess_bind_Done _ _ _ _ _ _ _ (eq_refl : modify (set_peer src c) io s = Done (io, _, tt))).
  rewrite (sess_bind_Done _ _ _ _ _ _ _ (eq_refl : modify (set_buffer []) io _ = Done (io, _, tt))).
  pose proof (ff_inv_peer io s src c [] Hinv (Forall_nil_2 _)) as Hpeer.
  destruct (send_all_inv (sticky_buffer s) _ _ Hpeer (fi_proper _ _ Hinv))
    as (io'&s'&Hs&Hi&Hsame&Hsl&Hap&Hd).
  exists io', s', (Ok tt). split; [done|]. split; [done|]. split; [done|]. split; [done|]. split; [|done].
  rewrite Hsl. f_equal. by apply sent_batch_ext.
Qed.

Lemma to_app_inv io s message :
  ff_inv io s -> internal_ok (OnMessage message North) ->
  exists io' s' res, handle_message_to_app message io s = Done (io', s', res) /\ ff_inv io' s'.
Proof.
  intros Hinv (Hp&[id Hid]&[c Hc]). destruct (proper_source _ Hp) as [src Hsrc].
  destruct (proper_header _ Hp) as [sh Hsh].
  assert (Ht : get_header_type (sm_message message) =
    Done (SessionHeaderType_from_i32 (se_header_type sh))) by (unfold get_header_type; by rewrite Hsh).
  destruct (to_app_dispatch io s message id src _ Hid Hsrc Ht) as [e ->].
  destruct (accepts s src); [|by eexists _, _, _].
  assert (Happ : exists io' s' res, send_message_to_app message io s = Done (io', s', res) /\ ff_inv io' s').
  { unfold send_message_to_app. rewrite (sess_bind_Done _ _ _ _ _ _ _
      (send_app_open _ _ _ (proj2 (fi_open _ _ Hinv)))).
    eexists _, _, _. split; [done|]. by apply (ff_inv_io io); [|apply Hinv|]. }
  destruct (SessionHeaderType_from_i32 (se_header_type sh)); cbn [dispatch];
    try (by eexists _, _, _); [done|..].
  - rewrite (sess_bind_Done _ _ _ _ _ _ _ (eq_refl : get_state io s = Done (io, s, s))).
    rewrite (sess_bind_Done _ _ _ _ _ _ _ (sess_lift_Done _ _ _ _ Hsrc)).
    rewrite (sess_bind_Done _ _ _ _ _ _ _ (sess_lift_Done _ _ _ _ Hc)).
    rewrite (sess_bind_Done _ _ _ _ _ _ _ (send_slim_open _ _ _ (proj1 (fi_open _ _ Hinv)))).
    unfold send_message_to_app. rewrite (sess_bind_Done _ _ _ _ _ _ _
      (send_app_open _ (io_sent io _ _) _ (proj2 (fi_open _ _ Hinv)))).
    eexists _, _, _. split; [done|]. by apply (ff_inv_io io); [|apply Hinv|].
  - destruct (ack_inv io s id Hinv) as (io'&s'&res&?&?&_). by exists io', s', res.
  - destruct (discovery_inv io s message src c Hinv Hsrc Hc) as (io'&s'&?&?&_). by exists io', s', (Ok tt).
  - destruct (reply_inv io s message src c Hinv Hsrc Hc) as (io'&s'&res&?&?&_). by exists io', s', res.
Qed.
End receiving.

(** ** Runs *)
Section runs.
Context `{Rng, Logging}.

Fixpoint process_all (ms : list InternalMessage) : sess FireAndForgetState unit :=
  match ms with
  | [] => mret tt
  | m :: ms => _ ← process_internal m; process_all ms
  end.

Lemma process_north message io s io' s' r :
  handle_message_to_app message io s = Done (io', s', r) ->
  process_internal (OnMessage message North) io s = Done (io', s', tt).
Proof. intros Hs. cbn [process_internal]. by rewrite (sess_bind_Done _ _ _ _ _ _ _ Hs). Qed.

Lemma process_all_app ms ms' io s io' s' :
  process_all ms io s = Done (io', s', tt) -> process_all (ms ++ ms') io s = process_all ms' io' s'.
Proof.
  revert io s. induction ms as [|m ms IH]; intros io s Hrun; [by injection Hrun as -> ->|].
  cbn [process_all app] in *. unfold mbind, sess_bind in *.
  destruct (process_internal m io s) as [[[io1 s1] []]|]; [|done]. by apply IH.
Qed.

Lemma process_internal_inv io s m :
  ff_inv io s -> internal_ok m ->
  exists io' s', process_internal m io s = Done (io', s', tt) /\ ff_inv io' s'.
Proof.
  intros Hinv Hok. destruct m as [message []|c|id n|id n]; cbn [process_internal].
  - destruct (to_app_inv io s message Hinv Hok) as (io'&s'&res&Hs&Hi).
    exists io', s'. by rewrite (sess_bind_Done _ _ _ _ _ _ _ Hs).
  - destruct Hok as [Hp Hdst].
    assert (Hd : holds_back s \/ ~ holds_back s).
    { unfold holds_back. destruct (ff_sticky (ffs_config s)), (sticky_name s); intuition congruence. }
    destruct Hd as [Hh|Hh].
    + destruct (to_slim_holds io s message Hinv Hp Hh Hdst) as (io'&s'&probes&Hs&Hi&_).
      exists io', s'. by rewrite (sess_bind_Done _ _ _ _ _ _ _ Hs).
    + destruct (to_slim_sends io s message Hinv Hp Hh) as (io'&s'&Hs&Hi&_).
      exists io', s'. by rewrite (sess_bind_Done _ _ _ _ _ _ _ Hs).
  - exists io, (set_config c s). split; [done|]. destruct Hinv. by split.
  - destruct (timer_timeout_inv io s id Hinv) as (io'&?&?&_). by exists io', s.
  - destruct (timer_failure_inv io s id Hinv) as (io'&s'&?&?&_). by exists io', s'.
Qed.

Lemma process_all_inv ms : forall io s,
  ff_inv io s -> Forall internal_ok ms ->
  exists io' s', process_all ms io s = Done (io', s', tt) /\ ff_inv io' s'.
Proof.
  induction ms as [|m ms IH]; intros io s Hinv Hok; [by exists io, s|].
  inversion Hok as [|? ? Hm Hms]; subst.
  destruct (process_internal_inv io s m Hinv Hm) as (io1&s1&Hs1&Hi1).
  cbn [process_all]. rewrite (sess_bind_Done _ _ _ _ _ _ _ Hs1). by apply IH.
Qed.
End runs.

Definition ff_io (n : nat) : SessionIo :=
  mkSessionIo (mkOutbox true []) (mkOutbox true []) TimerSystem_empty n.

Lemma ff_inv_new n id src c :
  ag_agent_id src <> DEFAULT_AGENT_ID -> ff_inv (ff_io n) (FireAndForgetState_new id src c).
Proof.
  intros Hid. split; simpl; try done.
  - apply timers_ok_empty.
Qed.

(** C20: Whatever messages of the application and of the network, new
    configurations and timer calls a fire-and-forget session processes, in any
    order, no handler panics; the messages kept for retransmission are those
    with a running timer, each under its own id, and no other timer runs; a
    session has a peer and a connection to it exactly when it is established,
    and holds nothing back before its first message. *)
Theorem fire_and_forget_safe `{Rng, Logging} n id src c ms :
  ag_agent_id src <> DEFAULT_AGENT_ID -> Forall internal_ok ms ->
  exists io s, process_all ms (ff_io n) (FireAndForgetState_new id src c) = Done (io, s, tt) /\ ff_inv io s.
Proof. intros Hsrc Hok. by apply process_all_inv; [apply ff_inv_new|]. Qed.

(** *** Retransmission *)

(** The observer's messages to the processor. *)
Definition call_message (call : ObserverCall) : list InternalMessage :=
  match call with
  | OnTimeout id n => [TimerTimeout id n]
  | OnFailure id n => [TimerFailure id n]
  | OnStop _ => []
  end.
Definition calls_inbox (calls : list ObserverCall) : list InternalMessage := mjoin (call_message <$> calls).

Section retries.
Context `{Rng, Logging}.

Lemma timeouts_resend io s id t m k : forall base,
  ff_inv io s -> ffs_timers s !! id = Some (t, m) ->
  exists io', process_all (calls_inbox ((fun j => OnTimeout id (N.of_nat j + 1)) <$> seq base k)) io s =
      Done (io', s, tt) /\
    ff_inv io' s /\ ob_sent (io_slim io') = ob_sent (io_slim io) ++ replicate k m /\
    ob_sent (io_app io') = ob_sent (io_app io) /\ io_timers io' = io_timers io.
Proof.
  revert io. induction k as [|k IH]; intros io base Hinv Hm.
  - exists io. by rewrite app_nil_r.
  - destruct (timer_timeout_inv io s id Hinv) as (io1&Hs1&Hi1&Hsl1&Hap1&Ht1). rewrite Hm in Hsl1.
    destruct (IH io1 (S base) Hi1 Hm) as (io2&Hs2&Hi2&Hsl2&Hap2&Ht2).
    exists io2. unfold calls_inbox. cbn [seq fmap list_fmap mjoin list_join call_message app process_all].
    cbn [process_internal]. rewrite (sess_bind_Done _ _ _ _ _ _ _ Hs1).
    split; [exact Hs2|]. split; [done|]. rewrite Hsl2, Hsl1, <- app_assoc. split; [done|].
    split; congruence.
Qed.

(** A reliable message that goes out at once is kept under its id. *)
Lemma to_slim_kept io s message d :
  ff_inv io s -> proper (sm_message message) -> ~ holds_back s -> ff_timeout (ffs_config s) = Some d ->
  let id := drawn_id io in
  let M := sent_as s id (typed s (sm_message message)) in
  exists io' s' t, process_internal (OnMessage message South) io s = Done (io', s', tt) /\
    ff_inv io' s' /\ same_peer s s' /\ ffs_timers s' !! id = Some (t, M) /\
    t = mkTimer id Constant d None (ff_max_retries (ffs_config s)) (sys_next (io_timers io)) /\
    mkTimerTask t (cancellation_token t) 0 0 d ∈ sys_tasks (io_timers io') /\
    ob_sent (io_slim io') = ob_sent (io_slim io) ++ [M] /\
    ob_sent (io_app io') = ob_sent (io_app io).
Proof.
  intros Hinv Hp Hh Hd id M.
  destruct (to_slim_after io s message Hinv Hp Hh) as (m&Hm&Hsent&Hs). fold id in Hsent, Hs. fold M in Hsent.
  pose proof (after_send_inv io s id m Hinv Hm) as Ha. revert Hs Ha.
  unfold after_send, timers_keep. rewrite Hd, Hsent. cbn [Timer_new]. intros Hs (Hi&Hpeer&Hsl&Hap&_).
  eexists _, _, _. cbn [process_internal]. rewrite (sess_bind_Done _ _ _ _ _ _ _ Hs).
  split; [reflexivity|]. split; [done|]. split; [done|].
  split; [cbn; apply lookup_insert_eq|]. split; [reflexivity|]. split; [|done].
  cbn. destruct (ffs_timers s !! id) as [[old ?]|]; cbn; apply elem_of_app; right;
    by apply list_elem_of_singleton.
Qed.
End retries.

Lemma calls_inbox_app c1 c2 : calls_inbox (c1 ++ c2) = calls_inbox c1 ++ calls_inbox c2.
Proof. unfold calls_inbox. by rewrite fmap_app, join_app. Qed.

(** A reliable message that is never acknowledged is sent once and then
    once more per retry, and is finally reported to the application as timed
    out, once, and forgotten. The timer that does it is started with the
    message: its run sleeps the configured time before each retry and before
    giving up, and its calls, processed in order, have this effect. *)
Theorem unacknowledged_message `{Rng, Logging} io s message d r :
  ff_inv io s -> proper (sm_message message) -> ~ holds_back s ->
  ff_timeout (ffs_config s) = Some d -> ff_max_retries (ffs_config s) = Some r ->
  is_u32 (r + 1)%N -> (d * 2 <= duration_max)%N ->
  let id := drawn_id io in
  let M := sent_as s id (typed s (sm_message message)) in
  let tries := S (N.to_nat r) in
  exists io1 s1 task calls io2 s2 sm,
    process_internal (OnMessage message South) io s = Done (io1, s1, tt) /\
    task ∈ sys_tasks (io_timers io1) /\ tt_token task ∉ sys_cancelled (io_timers io1) /\
    timer_run task (replicate tries Elapsed) = Done (None, replicate tries d, calls) /\
    process_all (calls_inbox calls) io1 s1 = Done (io2, s2, tt) /\ ff_inv io2 s2 /\
    ob_sent (io_slim io2) = ob_sent (io_slim io) ++ replicate tries M /\
    ob_sent (io_app io2) = ob_sent (io_app io) ++ [Err (Timeout (ffs_session_id s) id sm)] /\
    sm_message sm = M /\ ffs_timers s2 !! id = None.
Proof.
  intros Hinv Hp Hh Hd Hr Hu Hmax id M tries.
  destruct (to_slim_kept io s message d Hinv Hp Hh Hd) as (io1&s1&t&Hs1&Hi1&Hpe&Hk&Ht&Htask&Hsl1&Hap1).
  fold id in Hk, Ht. fold M in Hk, Hsl1. rewrite Hr in Ht.
  destruct (to_entry _ _ (fi_timers _ _ Hi1) _ _ _ Hk) as (Hid&Hnc&_).
  assert (Hback : forall j, backoff t j = d) by (intros j; rewrite Ht; by destruct j).
  assert (Hrun : timer_run (mkTimerTask t (cancellation_token t) 0 0 d) (replicate tries Elapsed) =
    Done (None, replicate tries d, ((fun j => OnTimeout id (N.of_nat j + 1)) <$> seq 0 (N.to_nat r)) ++
      [OnFailure id (r + 1)])).
  { pose proof (timer_run_from t (cancellation_token t) r 0 (N.to_nat r)) as Hrun.
    unfold after_turns in Hrun. rewrite Ht in Hrun |- *. cbn [max_retries duration timer_id] in Hrun.
    change (N.of_nat 0) with 0%N in Hrun. unfold tries.
    rewrite Hrun; [|done|intros j; by rewrite <- Ht, Hback|done|lia].
    rewrite <- Ht. rewrite (const_fmap _ _ d) by (intros; apply Hback). by rewrite length_seq. }
  destruct (timeouts_resend io1 s1 id t M (N.to_nat r) 0 Hi1 Hk) as (io2&Hs2&Hi2&Hsl2&Hap2&_).
  destruct (timer_failure_inv io2 s1 id Hi2) as (io3&s3&Hs3&Hi3&Hst3&Hsl3&Hres). rewrite Hk in Hres.
  destruct Hres as (sm&_&Hsm&Hap3).
  eexists io1, s1, (mkTimerTask t (cancellation_token t) 0 0 d), _, io3, s3, sm.
  split; [done|]. split; [done|]. split; [done|]. split; [exact Hrun|].
  split; [|split; [done|split; [|split; [|split; [done|]]]]].
  - rewrite calls_inbox_app. rewrite (process_all_app _ _ _ _ _ _ Hs2).
    cbn [calls_inbox fmap list_fmap mjoin list_join call_message app process_all process_internal].
    by rewrite (sess_bind_Done _ _ _ _ _ _ _ Hs3).
  - rewrite Hsl3, Hsl2, Hsl1, <- app_assoc. done.
  - rewrite Hap3, Hap2, Hap1. by rewrite Hpe.
  - rewrite Hst3. cbn. apply lookup_delete_eq.
Qed.

(** An acknowledgement after [k] retries stops them: the message was sent
    [k + 1] times, the application hears nothing, the message is forgotten and
    the token of its timer is cancelled. *)
Theorem acknowledged_message `{Rng, Logging} io s message d k ack src :
  ff_inv io s -> proper (sm_message message) -> ~ holds_back s ->
  ff_timeout (ffs_config s) = Some d ->
  in_message_id (sm_info ack) = Some (drawn_id io) -> get_source (sm_message ack) = Done src ->
  get_header_type (sm_message ack) = Done FnfAck -> accepts s src = true ->
  let id := drawn_id io in
  let M := sent_as s id (typed s (sm_message message)) in
  exists io1 s1 task io2 s2,
    process_internal (OnMessage message South) io s = Done (io1, s1, tt) /\
    task ∈ sys_tasks (io_timers io1) /\ timer_id (tt_timer task) = id /\
    tt_token task ∉ sys_cancelled (io_timers io1) /\
    process_all (((fun j => TimerTimeout id (N.of_nat j + 1)) <$> seq 0 k) ++ [OnMessage ack North]) io1 s1 =
      Done (io2, s2, tt) /\ ff_inv io2 s2 /\
    ob_sent (io_slim io2) = ob_sent (io_slim io) ++ replicate (S k) M /\
    ob_sent (io_app io2) = ob_sent (io_app io) /\
    ffs_timers s2 !! id = None /\ tt_token task ∈ sys_cancelled (io_timers io2).
Proof.
  intros Hinv Hp Hh Hd Hid Hsrc Hty Hacc id M.
  destruct (to_slim_kept io s message d Hinv Hp Hh Hd) as (io1&s1&t&Hs1&Hi1&Hpe&Hk&Ht&Htask&Hsl1&Hap1).
  fold id in Hk, Ht, Hid. fold M in Hk, Hsl1.
  destruct (to_entry _ _ (fi_timers _ _ Hi1) _ _ _ Hk) as (Htid&Hnc&_).
  destruct (timeouts_resend io1 s1 id t M k 0 Hi1 Hk) as (io2&Hs2&Hi2&Hsl2&Hap2&Htm2).
  destruct (ack_inv io2 s1 id Hi2) as (io3&s3&res&Hs3&Hi3&Hst3&Hsl3&Hap3&Hres).
  destruct (Hres t M Hk) as [-> Hcan].
  exists io1, s1, (mkTimerTask t (cancellation_token t) 0 0 d), io3, s3.
  split; [done|]. split; [done|]. split; [done|]. split; [done|].
  split; [|split; [done|split; [|split; [congruence|split; [|done]]]]].
  - assert (Hmsgs : (fun j => TimerTimeout id (N.of_nat j + 1)) <$> seq 0 k =
      calls_inbox ((fun j => OnTimeout id (N.of_nat j + 1)) <$> seq 0 k)).
    { unfold calls_inbox. generalize (seq 0 k). induction l as [|j l IHl]; [done|].
      cbn. f_equal. exact IHl. }
    rewrite Hmsgs, (process_all_app _ _ _ _ _ _ Hs2). cbn [process_all process_internal].
    destruct (to_app_dispatch io2 s1 ack id src _ Hid Hsrc Hty) as [e He].
    assert (Hacc1 : accepts s1 src = true) by (by rewrite Hpe). rewrite Hacc1 in He.
    cbn [dispatch] in He. rewrite Hs3 in He. unfold mbind, sess_bind. by rewrite He.
  - rewrite Hsl3, Hsl2, Hsl1, <- app_assoc. done.
  - rewrite Hst3. cbn. apply lookup_delete_eq.
Qed.

(** *** Sticky sessions *)

(** How a message of the application arrives at the peer. *)
Definition reaches (sid : N) (peer : Agent) (conn : N) (message : SessionMessage) (x : ProtoMessage) : Prop :=
  get_payload x = get_payload (sm_message message) /\
  (exists h, get_session_header x = Done h /\ se_session_id h = sid) /\
  exists h, get_slim_header x = Done h /\ sh_destination h = Some (ProtoAgent_from_agent peer) /\
    sh_forward_to h = Some conn.

Definition from_app (ms : list SessionMessage) : list InternalMessage := (fun m => OnMessage m South) <$> ms.

Section sticky.
Context `{Rng, Logging}.

Lemma sent_as_reaches s id m peer conn :
  proper (sm_message m) -> sticky_name s = Some peer -> sticky_connection s = Some conn ->
  reaches (ffs_session_id s) peer conn m (sent_as s id (typed s (sm_message m))).
Proof.
  intros (md&p&h&sh&src&Hm&Hh&Hs&_) Hn Hc. unfold reaches, sent_as, redirected, numbered, typed.
  rewrite Hn, Hc, Hm. unfold map_slim, map_session, get_payload, get_session_header, get_slim_header; simpl.
  rewrite Hh, Hs; simpl. eauto 10.
Qed.

Lemma holding_run ms : forall io s,
  ff_inv io s -> holds_back s -> sticky_session_status s = Discovering ->
  Forall (fun m => internal_ok (OnMessage m South)) ms ->
  exists io' s', process_all (from_app ms) io s = Done (io', s', tt) /\ ff_inv io' s' /\
    s' = set_buffer (sticky_buffer s ++ ((fun m => typed s (sm_message m)) <$> ms)) s /\
    ob_sent (io_slim io') = ob_sent (io_slim io) /\
    ob_sent (io_app io') = ob_sent (io_app io) /\ io_draws io' = io_draws io.
Proof.
  induction ms as [|m ms IH]; intros io s Hinv Hh Hst Hok.
  - exists io, s. split; [done|]. split; [done|]. rewrite app_nil_r. split; [by destruct s|done].
  - inversion Hok as [|? ? [Hp Hd] Hms]; subst.
    destruct (to_slim_holds io s m Hinv Hp Hh Hd) as (io1&s1&pr&Hs1&Hi1&Heq1&Hsl1&Hap1&Hd1&Hpr).
    rewrite Hst in Hpr. subst pr. rewrite app_nil_r in Hsl1.
    assert (Hsame : s1 = set_buffer (sticky_buffer s ++ [typed s (sm_message m)]) s).
    { rewrite Heq1, <- Hst. by destruct s. }
    destruct (IH io1 s1 Hi1) as (io2&s2&Hs2&Hi2&Heq2&Hsl2&Hap2&Hd2);
      [by rewrite Hsame|by rewrite Hsame|done|].
    exists io2, s2. cbn [from_app fmap list_fmap process_all process_internal].
    split; [|split; [done|split; [|split; [congruence|split; congruence]]]].
    + unfold mbind, sess_bind. rewrite Hs1. exact Hs2.
    + rewrite Heq2, Hsame. cbn. by rewrite <- app_assoc.
Qed.

Lemma sending_run ms peer conn : forall io s,
  ff_inv io s -> sticky_name s = Some peer -> sticky_connection s = Some conn ->
  Forall (fun m => internal_ok (OnMessage m South)) ms ->
  exists io' s' out, process_all (from_app ms) io s = Done (io', s', tt) /\ ff_inv io' s' /\
    same_peer s s' /\ ob_sent (io_slim io') = ob_sent (io_slim io) ++ out /\
    Forall2 (reaches (ffs_session_id s) peer conn) ms out /\ ob_sent (io_app io') = ob_sent (io_app io).
Proof.
  induction ms as [|m ms IH]; intros io s Hinv Hn Hc Hok.
  - exists io, s, []. rewrite app_nil_r. by repeat (split; [done|]); split; [apply same_peer_refl|repeat constructor].
  - inversion Hok as [|? ? [Hp Hd] Hms]; subst.
    destruct (to_slim_sends io s m Hinv Hp) as (io1&s1&Hs1&Hi1&Hp1&Hsl1&Hap1&_);
      [intros [_ Hx]; congruence|].
    destruct (IH io1 s1 Hi1) as (io2&s2&out&Hs2&Hi2&Hp2&Hsl2&Hout&Hap2);
      [by rewrite Hp1|by rewrite Hp1|done|].
    eexists io2, s2, (_ :: out). cbn [from_app fmap list_fmap process_all process_internal].
    split; [|split; [done|split; [by eapply same_peer_trans|split; [|split; [|congruence]]]]].
    + unfold mbind, sess_bind. rewrite Hs1. exact Hs2.
    + rewrite Hsl2, Hsl1, <- app_assoc. done.
    + constructor; [by apply sent_as_reaches|]. by rewrite Hp1 in Hout.
Qed.

Lemma sent_batch_reaches s n ms peer conn :
  sticky_name s = Some peer -> sticky_connection s = Some conn ->
  Forall (fun m => internal_ok (OnMessage m South)) ms ->
  Forall2 (reaches (ffs_session_id s) peer conn) ms
    (sent_batch s n ((fun m => typed s (sm_message m)) <$> ms)).
Proof.
  intros Hn Hc Hok. revert n. induction Hok as [|m ms [Hp _] _ IH]; intros n; simpl; constructor; [|done].
  by apply sent_as_reaches.
Qed.
End sticky.


(** C34: An established sticky session belongs to its peer: a message from any
    other source is refused and changes nothing, neither the session nor what
    was sent. *)
Theorem sticky_exclusive `{Rng, Logging} io s message id peer src t :
  ff_sticky (ffs_config s) = true -> sticky_name s = Some peer -> agent_key src <> agent_key peer ->
  in_message_id (sm_info message) = Some id -> get_source (sm_message message) = Done src ->
  get_header_type (sm_message message) = Done t ->
  process_internal (OnMessage message North) io s = Done (io, s, tt).
Proof.
  intros Hst Hn Hne Hid Hsrc Ht.
  destruct (to_app_dispatch io s message id src t Hid Hsrc Ht) as [e He].
  assert (Hacc : accepts s src = false).
  { unfold accepts. rewrite Hst, Hn. destruct (Agent_eq peer src) eqn:Heq; [|done].
    apply Agent_eq_key in Heq. congruence. }
  rewrite Hacc in He. cbn [process_internal]. by rewrite (sess_bind_Done _ _ _ _ _ _ _ He).
Qed.

(** *** Closing *)
Lemma drain_timers_spec l : forall io s,
  exists io', drain_timers l io s = Done (io', s, tt) /\
    sys_tasks (io_timers io') = sys_tasks (io_timers io) /\
    sys_cancelled (io_timers io) ⊆ sys_cancelled (io_timers io') /\
    (forall id t m, (id, (t, m)) ∈ l -> cancellation_token t ∈ sys_cancelled (io_timers io')) /\
    io_slim io' = io_slim io /\ io_app io' = io_app io.
Proof.
  induction l as [|[id [t m]] l IH]; intros io s.
  - exists io. split; [done|]. split; [done|]. split; [done|]. split; [|done]. by intros ? ? ? ?%elem_of_nil.
  - cbn [drain_timers]. run_sess. cbn [Timer_stop]. run_sess.
    match goal with |- context [drain_timers l ?io1 s] =>
      destruct (IH io1 s) as (io'&Hs&Ht&Hc&Hl&Hsl&Hap) end.
    exists io'. split; [exact Hs|]. split; [exact Ht|]. cbn in Hc.
    split; [set_solver|]. split; [|done].
    intros id' t' m' [[= -> -> ->]|Hin]%elem_of_cons; [|by apply (Hl id' t' m')]. set_solver.
Qed.

(** When a session is dropped, its processor leaves its loop: every timer
    it had started is cancelled, nothing more is sent, and later messages for
    the session are refused as sent to a closed session. *)
Theorem closed_session_stops `{Rng, Logging, HashIter} io f s message dir :
  ff_loop f = Some s -> ff_inv io s ->
  exists io' f', ff_turn TurnCancelled io (FireAndForget_drop f) = Done (io', f', tt) /\
    ff_loop f' = None /\ ff_inbox f' = [] /\
    (forall task, task ∈ sys_tasks (io_timers io') -> tt_token task ∈ sys_cancelled (io_timers io')) /\
    io_slim io' = io_slim io /\ io_app io' = io_app io /\
    FireAndForget_on_message f' message dir = (f', Err (SessionClosed "channel closed")).
Proof.
  intros Hl Hinv. unfold ff_turn. cbn [ff_loop FireAndForget_drop ff_cancelled]. rewrite Hl.
  unfold leave_loop. run_sess.
  destruct (drain_timers_spec (hash_iter (ffs_timers s)) io (set_timers ∅ s))
    as (io'&Hs&Ht&Hc&Hin&Hsl&Hap). rewrite Hs. run_sess.
  eexists io', _. split; [done|]. split; [done|]. split; [done|]. split; [|done].
  rewrite Ht. intros task Htask.
  destruct (to_task _ _ (fi_timers _ _ Hinv) task Htask) as [?|(id&t&m&Hm&_&->)]; [by apply Hc|].
  apply (Hin id t m). rewrite hash_iter_perm. by apply elem_of_map_to_list.
Qed.

(** *** Discovery: two defects *)
Section crossing.
Context `{Rng, Logging}.

(** When two sticky sessions discover each other, each gets the other's
    probe while it waits for a reply. Answering the probe establishes the
    session without sending what it held back, and the reply that follows is
    refused: the messages stay in the buffer. *)
Theorem crossed_discovery_strands io s probe' reply peer conn id id' :
  ff_inv io s -> sticky_session_status s = Discovering ->
  internal_ok (OnMessage probe' North) -> internal_ok (OnMessage reply North) ->
  in_message_id (sm_info probe') = Some id -> in_message_id (sm_info reply) = Some id' ->
  get_source (sm_message probe') = Done peer -> get_source (sm_message reply) = Done peer ->
  get_incoming_conn (sm_message probe') = Done conn ->
  get_header_type (sm_message probe') = Done FnfDiscovery ->
  get_header_type (sm_message reply) = Done FnfDiscoveryReply ->
  exists io' s' answer,
    process_all [OnMessage probe' North; OnMessage reply North] io s = Done (io', s', tt) /\
    sticky_session_status s' = Established /\ sticky_buffer s' = sticky_buffer s /\
    ob_sent (io_slim io') = ob_sent (io_slim io) ++ [answer] /\
    get_header_type answer = Done FnfDiscoveryReply.
Proof.
  intros Hinv Hst (Hp1&_&_) (Hp2&_&c2&Hc2) Hid Hid' Hsrc Hsrc' Hc Ht Ht'.
  assert (Hname : sticky_name s = None).
  { destruct (sticky_name s) eqn:Hn; [|done].
    pose proof (proj2 (fi_sticky _ _ Hinv) ltac:(by rewrite Hn)). congruence. }
  destruct (discovery_inv io s probe' peer conn Hinv Hsrc Hc) as (io1&s1&Hs1&Hi1&Hp&Hafter).
  destruct (reply_inv io1 s1 reply peer c2 Hi1 Hsrc' Hc2) as (io2&s2&res&Hs2&Hi2&Hsame).
  rewrite Hp in Hsame. cbn in Hsame. destruct Hsame as [-> ->].
  assert (Hacc : forall st, ff_sticky (ffs_config st) = ff_sticky (ffs_config s) ->
    (sticky_name st = None \/ sticky_name st = Some peer) -> accepts st peer = true).
  { intros st _ [Hn|Hn]; unfold accepts; rewrite Hn; [by destruct (ff_sticky _)|].
    assert (Agent_eq peer peer = true) by (by apply Agent_eq_key). by destruct (ff_sticky _). }
  destruct (to_app_dispatch io s probe' id peer _ Hid Hsrc Ht) as [e He].
  rewrite (Hacc s eq_refl (or_introl Hname)) in He. cbn [dispatch] in He. rewrite Hs1 in He.
  destruct (to_app_dispatch io1 s1 reply id' peer _ Hid' Hsrc' Ht') as [e' He'].
  rewrite (Hacc s1) in He' by (rewrite Hp; auto). cbn [dispatch] in He'. rewrite Hs2 in He'.
  assert (Hx : exists m, io_slim io1 = mkOutbox (ob_open (io_slim io)) (ob_sent (io_slim io) ++ [m]) /\
    get_header_type m = Done FnfDiscoveryReply).
  { unfold after_send in Hafter. destruct (ff_timeout _).
    - destruct (timers_keep _ _ _ _ _ _ _). injection Hafter as -> ->. eexists. split; reflexivity.
    - injection Hafter as -> ->. eexists. split; reflexivity. }
  destruct Hx as (m&Hm&Hmt). exists io1, s1, m.
  split; [|split; [by rewrite Hp|split; [by rewrite Hp|split; [by rewrite Hm|done]]]].
  cbn [process_all]. rewrite (sess_bind_Done _ _ _ _ _ _ _ (process_north _ _ _ _ _ _ He)).
  rewrite (sess_bind_Done _ _ _ _ _ _ _ (process_north _ _ _ _ _ _ He')). by rewrite <- Hp.
Qed.

(** The reply to a discovery is kept for retransmission like any message
    of a reliable session, but nothing acknowledges it: a peer that holds
    nothing back answers it with nothing. When the retries are used up, the
    application is told that a message it never sent timed out. *)
Theorem discovery_reply_unacknowledged io s probe' src conn id d :
  ff_inv io s -> ff_timeout (ffs_config s) = Some d -> accepts s src = true ->
  in_message_id (sm_info probe') = Some id -> get_source (sm_message probe') = Done src ->
  get_incoming_conn (sm_message probe') = Done conn ->
  get_header_type (sm_message probe') = Done FnfDiscovery ->
  exists io' s' t M, process_internal (OnMessage probe' North) io s = Done (io', s', tt) /\
    ffs_timers s' !! drawn_id io = Some (t, M) /\ get_header_type M = Done FnfDiscoveryReply /\
    (exists io2 s2 sm, process_internal (TimerFailure (drawn_id io) 1) io' s' = Done (io2, s2, tt) /\
       ob_sent (io_app io2) = ob_sent (io_app io') ++
         [Err (Timeout (ffs_session_id s) (drawn_id io) sm)] /\ sm_message sm = M) /\
    forall io3 s3 message c3, ff_inv io3 s3 -> sticky_buffer s3 = [] -> proper (sm_message message) ->
      is_Some (in_message_id (sm_info message)) -> get_incoming_conn (sm_message message) = Done c3 ->
      get_header_type (sm_message message) = Done FnfDiscoveryReply ->
      exists io4 s4, process_internal (OnMessage message North) io3 s3 = Done (io4, s4, tt) /\
        ob_sent (io_slim io4) = ob_sent (io_slim io3).
Proof.
  intros Hinv Hd Hacc Hid Hsrc Hc Ht.
  destruct (discovery_inv io s probe' src conn Hinv Hsrc Hc) as (io1&s1&Hs1&Hi1&Hp&Hafter).
  unfold after_send, timers_keep in Hafter. cbn [ffs_config set_peer] in Hafter. rewrite Hd in Hafter.
  cbn [Timer_new] in Hafter. injection Hafter as Hio Hs.
  destruct (to_app_dispatch io s probe' id src _ Hid Hsrc Ht) as [e He].
  rewrite Hacc in He. cbn [dispatch] in He. rewrite Hs1 in He.
  assert (Hk : exists t M, ffs_timers s1 !! drawn_id io = Some (t, M) /\
    get_header_type M = Done FnfDiscoveryReply).
  { rewrite Hs. eexists _, _. split; [cbn; apply lookup_insert_eq|reflexivity]. }
  destruct Hk as (t&M&Hk&HM). exists io1, s1, t, M.
  split; [cbn [process_internal]; by rewrite (sess_bind_Done _ _ _ _ _ _ _ He)|].
  split; [done|]. split; [done|]. split.
  - destruct (timer_failure_inv io1 s1 (drawn_id io) Hi1) as (io2&s2&Hs2&_&_&_&Hres). rewrite Hk in Hres.
    destruct Hres as (sm&_&Hsm&Hap). exists io2, s2, sm. split; [done|]. split; [|done].
    rewrite Hap. by rewrite Hp.
  - intros io3 s3 message c3 Hi3 Hb Hpm [id3 Hid3] Hc3 Ht3. destruct (proper_source _ Hpm) as [src3 Hsrc3].
    destruct (to_app_dispatch io3 s3 message id3 src3 _ Hid3 Hsrc3 Ht3) as [e3 He3].
    cbn [process_internal dispatch] in *. destruct (accepts s3 src3).
    + destruct (reply_inv io3 s3 message src3 c3 Hi3 Hsrc3 Hc3) as (io4&s4&res&Hs4&_&Hspec).
      rewrite Hs4 in He3. exists io4, s4. rewrite (sess_bind_Done _ _ _ _ _ _ _ He3). split; [done|].
      destruct (sticky_session_status s3); [by destruct Hspec as [-> _]| |by destruct Hspec as [-> _]].
      destruct Hspec as (_&_&Hsl&_). by rewrite Hsl, Hb, app_nil_r.
    + exists io3, s3. by rewrite (sess_bind_Done _ _ _ _ _ _ _ He3).
Qed.
End crossing.

(** ** Concrete runs *)
Definition demo_logging : Logging := {| debug_enabled := true |}.
Definition demo_peer : Agent := mkAgent (mkAgentType 1 2 3 None) 4.

Lemma demo_proper t id : proper (sm_message (demo_session_msg t id)).
Proof. do 4 eexists. exists demo_peer. split; [reflexivity|]. by split. Qed.
Lemma demo_internal_ok t id dir : internal_ok (OnMessage (demo_session_msg t id) dir).
Proof.
  destruct dir; (split; [apply demo_proper|]).
  - split; [by eexists|]. exists 9%N. reflexivity.
  - eexists _, _. split; reflexivity.
Qed.

(** A reliable session, and a reliable sticky one. *)
Definition demo_ff : FireAndForgetState :=
  FireAndForgetState_new 3 demo_agent (mkFireAndForgetConfiguration (Some 100%N) (Some 2%N) false).
Definition demo_sticky : FireAndForgetState :=
  FireAndForgetState_new 3 demo_agent (mkFireAndForgetConfiguration (Some 100%N) (Some 2%N) true).
(** The sticky session while it looks for a peer, with a message held back. *)
Definition demo_discovering : FireAndForgetState :=
  set_buffer [typed demo_sticky (sm_message (demo_session_msg Unspecified 0))]
    (set_status Discovering demo_sticky).

Lemma demo_ff_inv : ff_inv (ff_io 0) demo_ff.
Proof. by apply ff_inv_new. Qed.
Lemma demo_discovering_inv : ff_inv (ff_io 0) demo_discovering.
Proof.
  assert (Hp : Forall proper (sticky_buffer demo_discovering)).
  { constructor; [|constructor]. by apply (proper_session _ _ (demo_proper Unspecified 0)). }
  split; cbn; try done; apply timers_ok_empty.
Qed.

Lemma fire_and_forget_safe_witness :
  exists io s, @process_all demo_rng demo_logging
      [OnMessage (demo_session_msg Unspecified 0) South; TimerTimeout 7 1;
       OnMessage (demo_session_msg FnfReliable 5) North; OnMessage (demo_session_msg FnfAck 7) North;
       OnMessage (demo_session_msg FnfDiscovery 8) North; TimerFailure 8 3; TimerFailure 7 3]
      (ff_io 0) demo_ff = Done (io, s, tt) /\ ff_inv io s.
Proof.
  apply (@fire_and_forget_safe demo_rng demo_logging 0 3 demo_agent
    (mkFireAndForgetConfiguration (Some 100%N) (Some 2%N) false)); [done|].
  repeat (apply Forall_cons_2; [first [exact I|apply demo_internal_ok]|]). apply Forall_nil_2.
Defined.

Lemma unacknowledged_message_witness :
  exists io2 s2 sm, ffs_timers s2 !! 7%N = None /\
    ob_sent (io_app io2) = [Err (Timeout 3 7 sm)] /\ length (ob_sent (io_slim io2)) = 3.
Proof.
  destruct (@unacknowledged_message demo_rng demo_logging (ff_io 0) demo_ff
    (demo_session_msg Unspecified 0) 100 2 demo_ff_inv (demo_proper _ _))
    as (io1&s1&task&calls&io2&s2&sm&_&_&_&_&_&_&Hsl&Hap&_&Ht);
    [intros [? _]; discriminate|reflexivity|reflexivity|vm_compute; discriminate|
     vm_compute; discriminate|].
  exists io2, s2, sm. split; [exact Ht|]. split; [exact Hap|]. rewrite Hsl. reflexivity.
Defined.

Lemma acknowledged_message_witness :
  exists io2 s2, ffs_timers s2 !! 7%N = None /\ ob_sent (io_app io2) = [] /\
    length (ob_sent (io_slim io2)) = 2 /\ ff_inv io2 s2.
Proof.
  destruct (@acknowledged_message demo_rng demo_logging (ff_io 0) demo_ff
    (demo_session_msg Unspecified 0) 100 1 (demo_session_msg FnfAck 7) demo_peer demo_ff_inv (demo_proper _ _))
    as (io1&s1&task&io2&s2&_&_&_&_&_&Hi&Hsl&Hap&Ht&_);
    [intros [? _]; discriminate|reflexivity..|].
  exists io2, s2. split; [exact Ht|]. split; [exact Hap|]. split; [|exact Hi]. rewrite Hsl. reflexivity.
Defined.


Lemma sticky_exclusive_witness :
  @process_internal demo_rng demo_logging (OnMessage (demo_session_msg FnfReliable 5) North) (ff_io 0)
    (set_peer demo_agent 1 demo_sticky) = Done (ff_io 0, set_peer demo_agent 1 demo_sticky, tt).
Proof.
  apply (@sticky_exclusive demo_rng demo_logging (ff_io 0) (set_peer demo_agent 1 demo_sticky)
    (demo_session_msg FnfReliable 5) 5 demo_agent demo_peer FnfReliable);
    [reflexivity|reflexivity|discriminate|reflexivity..].
Defined.

Lemma closed_session_stops_witness :
  exists io' f', @ff_turn demo_rng demo_logging hash_iter_sorted TurnCancelled (ff_io 0)
      (FireAndForget_drop (FireAndForget_new 3 (ffs_config demo_ff) Bidirectional demo_agent None)) =
      Done (io', f', tt) /\ ff_loop f' = None.
Proof.
  destruct (@closed_session_stops demo_rng demo_logging hash_iter_sorted (ff_io 0)
    (FireAndForget_new 3 (ffs_config demo_ff) Bidirectional demo_agent None) demo_ff
    (demo_session_msg Fnf 1) North eq_refl demo_ff_inv) as (io'&f'&Ht&Hl&_).
  exists io', f'. exact (conj Ht Hl).
Defined.

Lemma crossed_discovery_strands_witness :
  exists io s answer, @process_all demo_rng demo_logging
      [OnMessage (demo_session_msg FnfDiscovery 1) North; OnMessage (demo_session_msg FnfDiscoveryReply 2) North]
      (ff_io 0) demo_discovering = Done (io, s, tt) /\
    length (sticky_buffer s) = 1 /\ ob_sent (io_slim io) = [answer].
Proof.
  destruct (@crossed_discovery_strands demo_rng demo_logging (ff_io 0) demo_discovering
    (demo_session_msg FnfDiscovery 1) (demo_session_msg FnfDiscoveryReply 2) demo_peer 9 1 2
    demo_discovering_inv eq_refl (demo_internal_ok _ _ North) (demo_internal_ok _ _ North)
    eq_refl eq_refl eq_refl eq_refl eq_refl eq_refl eq_refl) as (io&s&answer&Hs&_&Hb&Hsl&_).
  exists io, s, answer. split; [exact Hs|]. rewrite Hb. split; [reflexivity|exact Hsl].
Defined.

Lemma discovery_reply_unacknowledged_witness :
  exists io' s' t M, @process_internal demo_rng demo_logging
      (OnMessage (demo_session_msg FnfDiscovery 1) North) (ff_io 0) demo_ff = Done (io', s', tt) /\
    ffs_timers s' !! 7%N = Some (t, M).
Proof.
  destruct (@discovery_reply_unacknowledged demo_rng demo_logging (ff_io 0) demo_ff
    (demo_session_msg FnfDiscovery 1) demo_peer 9 1 100 demo_ff_inv
    eq_refl eq_refl eq_refl eq_refl eq_refl eq_refl) as (io'&s'&t&M&Hs&Ht&_).
  exists io', s', t, M. exact (conj Hs Ht).
Defined.
