(* ===== verification/Streaming.v ===== *)
(** * Streaming sessions

    [service/src/streaming.rs]. A producer numbers the application's messages,
    keeps the last 500 and answers requests for retransmission from them; while
    it is silent a timer makes it send beacons with its last id. A receiver
    keeps a buffer per producer, asks for what it finds missing, one timer per
    request, and hands the messages to the application in order. A
    bidirectional session is both. [stream_turn] is one turn of the loop of the
    session's task. *)
From stdpp Require Import base list gmap strings numbers option.
From S2P Require Import Prelude Proto Encoder Messages Timer Session.
From S2P Require Import ReceiverBuffer ProducerBuffer.
Open Scope slim_scope.
Open Scope string_scope.

Definition STREAM_BROADCAST : N := 50.

(** The observer of the producer's timer is the loop's channel. *)
Record ProducerState : Type := mkProducerState {
  ps_buffer : ProducerBuffer;
  ps_next_id : N;
  ps_timer : Timer;
}.

(** [Receiver]; its timer observer carries the producer's name, its key in the
    map of buffers. *)
Record StreamReceiver : Type := mkStreamReceiver {
  rc_buffer : ReceiverBuffer;
  rc_rtx_map : gmap N ProtoMessage;
  rc_timers_map : gmap N Timer;
}.
Definition StreamReceiver_new : StreamReceiver := mkStreamReceiver ReceiverBuffer_default ∅ ∅.

(** [ReceiverState]: the buffers by producer name. *)
Abbreviation ReceiverState := (gmap ((N * N * N) * N) (Agent * StreamReceiver)).

Inductive Endpoint : Type :=
| Endpoint_Producer (producer : ProducerState)
| Endpoint_Receiver (receiver : ReceiverState)
| Endpoint_Bidirectional (receiver : ReceiverState) (producer : ProducerState).

(** The variables of the task. *)
Record StreamTask : Type := mkStreamTask {
  st_session_id : N;
  st_source : Agent;
  st_max_retries : N;
  st_timeout : N;
  st_endpoint : Endpoint;
  st_rtx_timer_rx_closed : bool;
  st_prod_timer_rx_closed : bool;
}.
Definition set_endpoint (e : Endpoint) (t : StreamTask) : StreamTask :=
  mkStreamTask (st_session_id t) (st_source t) (st_max_retries t) (st_timeout t) e
    (st_rtx_timer_rx_closed t) (st_prod_timer_rx_closed t).

(** Arithmetic on [u32]. *)
Definition incr_u32 `{BuildProfile} (x : N) : panics N :=
  if decide (x = u32_max) then
    if overflow_checks then Panic "attempt to add with overflow" else Done 0%N
  else Done (x + 1)%N.
Definition decr_u32 `{BuildProfile} (x : N) : panics N :=
  if decide (x = 0%N) then
    if overflow_checks then Panic "attempt to subtract with overflow" else Done u32_max
  else Done (x - 1)%N.

Section handlers.
Context {S : Type}.

(** ** The producer's side *)
Definition process_incoming_rtx_request (msg : ProtoMessage) (session_id : N) (producer : ProducerState)
    (source : Agent) : sess S unit :=
  msg_rtx_id ← lift (get_id msg);
  pkt_src ← lift (get_source msg);
  incoming_conn ← lift (get_incoming_conn msg);
  found ← lift (ProducerBuffer_get (ps_buffer producer) msg_rtx_id);
  let session_header :=
    Some (SessionHeader_new (SessionHeaderType_to_i32 RtxReply) session_id msg_rtx_id) in
  let slim_header flags :=
    Some (SlimHeader_new source (ag_agent_type pkt_src) (Some (ag_agent_id pkt_src)) (Some flags)) in
  match found with
  | Some packet =>
      payload ← lift (get_payload packet);
      match payload with
      | None => mret tt
      | Some p =>
          _ ← send_slim (new_publish_with_headers
            (slim_header (with_fanout (with_forward_to SlimHeaderFlags_default incoming_conn) 1))
            session_header "" (co_blob p));
          mret tt
      end
  | None =>
      _ ← send_slim (new_publish_with_headers
        (slim_header (with_error (with_forward_to SlimHeaderFlags_default incoming_conn) true))
        session_header "" []);
      mret tt
  end.

Definition process_message_from_app `{Hasher, BuildProfile} (msg : ProtoMessage) (session_id : N)
    (producer : ProducerState) (is_bidirectional : bool) : sess S ProducerState :=
  msg ← lift (set_header_type (if is_bidirectional then PubSub else Stream) msg);
  msg ← lift (set_message_id (ps_next_id producer) msg);
  msg ← lift (set_fanout STREAM_BROADCAST msg);
  '(buffer, _) ← lift (ProducerBuffer_push (ps_buffer producer) msg);
  next_id ← lift (incr_u32 (ps_next_id producer));
  res ← send_slim msg;
  _ ← match res with
      | Ok _ => mret tt
      | Err _ =>
          res ← send_app (Err (Processing "error sending message to local slim instance"));
          match res with
          | Ok _ => mret tt
          | Err _ => lift (Panic "error notifying app")
          end
      end;
  timer ← reset_timer (ps_timer producer);
  mret (mkProducerState buffer next_id timer).

Definition send_beacon_msg (source : Agent) (topic : AgentType) (beacon_type : SessionHeaderType)
    (last_msg_id session_id : N) : sess S unit :=
  _ ← send_slim (new_publish_with_headers
    (Some (SlimHeader_new source topic None
             (Some (with_fanout SlimHeaderFlags_default STREAM_BROADCAST))))
    (Some (SessionHeader_new (SessionHeaderType_to_i32 beacon_type) session_id last_msg_id)) "" []);
  mret tt.

(** ** The receiver's side *)
Fixpoint send_message_to_app (messages : list (option ProtoMessage)) (session_id : N) : sess S unit :=
  match messages with
  | [] => mret tt
  | opt :: messages =>
      _ ← match opt with
          | Some m =>
              info ← lift (Info_from m);
              _ ← send_app (Ok (mkSessionMessage m info)); mret tt
          | None => _ ← send_app (Err (MessageLost (fmt_dec session_id))); mret tt
          end;
      send_message_to_app messages session_id
  end.

(** The request for the retransmission of [r]. *)
Definition rtx_request (source producer_name : Agent) (producer_conn session_id r : N) : ProtoMessage :=
  new_publish_with_headers
    (Some (SlimHeader_new source (ag_agent_type producer_name) (Some (ag_agent_id producer_name))
             (Some (with_forward_to SlimHeaderFlags_default producer_conn))))
    (Some (SessionHeader_new (SessionHeaderType_to_i32 RtxRequest) session_id r)) "" [].

(** The loop over the ids to request. *)
Fixpoint send_rtx (source producer_name : Agent) (producer_conn session_id timeout max_retries : N)
    (rtx : list N) (receiver : StreamReceiver) : sess S StreamReceiver :=
  match rtx with
  | [] => mret receiver
  | r :: rtx =>
      let msg := rtx_request source producer_name producer_conn session_id r in
      timer ← new_timer r Constant timeout None (Some max_retries);
      _ ← start_timer timer;
      let rtx_map := <[r := msg]> (rc_rtx_map receiver) in
      _ ← match rc_timers_map receiver !! r with
          | Some old => drop_timer old
          | None => mret tt
          end;
      let timers_map := <[r := timer]> (rc_timers_map receiver) in
      _ ← send_slim msg;
      send_rtx source producer_name producer_conn session_id timeout max_retries rtx
        (mkStreamReceiver (rc_buffer receiver) rtx_map timers_map)
  end.

(** The request for [msg_id] is answered. *)
Definition clean_rtx (msg_id : N) (receiver : StreamReceiver) : sess S StreamReceiver :=
  let rtx_map := delete msg_id (rc_rtx_map receiver) in
  match rc_timers_map receiver !! msg_id with
  | Some timer =>
      timer ← stop_timer timer;
      _ ← drop_timer timer;
      mret (mkStreamReceiver (rc_buffer receiver) rtx_map (delete msg_id (rc_timers_map receiver)))
  | None => mret (mkStreamReceiver (rc_buffer receiver) rtx_map (rc_timers_map receiver))
  end.

Definition set_buffer (b : ReceiverBuffer) (r : StreamReceiver) : StreamReceiver :=
  mkStreamReceiver b (rc_rtx_map r) (rc_timers_map r).

Definition process_message_from_slim `{BuildProfile} (msg : ProtoMessage) (session_id : N)
    (receiver_state : ReceiverState) (source : Agent) (max_retries timeout : N) : sess S ReceiverState :=
  producer_name ← lift (get_source msg);
  producer_conn ← lift (get_incoming_conn msg);
  let receiver := default StreamReceiver_new (hm_get agent_key producer_name receiver_state) in
  let receiver_state := hm_insert agent_key producer_name receiver receiver_state in
  header_type ← lift (get_header_type msg);
  msg_id ← lift (get_id msg);
  result ← match header_type with
    | Stream | PubSub =>
        '(b, (recv, rtx)) ← lift (on_received_message (rc_buffer receiver) msg);
        mret (Some (set_buffer b receiver, recv, rtx))
    | RtxReply =>
        error ← lift (get_error msg);
        '(b, (recv, rtx)) ←
          (match error with
           | Some true =>
               '(b, recv) ← lift (on_lost_message (rc_buffer receiver) msg_id); mret (b, (recv, []))
           | _ => lift (on_received_message (rc_buffer receiver) msg)
           end);
        receiver ← clean_rtx msg_id (set_buffer b receiver);
        mret (Some (receiver, recv, rtx))
    | BeaconStream | BeaconPubSub =>
        '(b, rtx) ← lift (on_beacon_message (rc_buffer receiver) msg_id);
        mret (Some (set_buffer b receiver, [], rtx))
    | _ => mret None
    end;
  match result with
  | None => mret receiver_state
  | Some (receiver, recv, rtx) =>
      _ ← send_message_to_app recv session_id;
      receiver ← send_rtx source producer_name producer_conn session_id timeout max_retries rtx receiver;
      mret (hm_insert agent_key producer_name receiver receiver_state)
  end.

Definition handle_rtx_timeout (receiver_state : ReceiverState) (producer_name : Agent) (msg_id : N)
    : sess S ReceiverState :=
  match hm_get agent_key producer_name receiver_state with
  | None => mret receiver_state
  | Some receiver =>
      match rc_rtx_map receiver !! msg_id with
      | Some rtx => _ ← send_slim rtx; mret receiver_state
      | None =>
          match rc_timers_map receiver !! msg_id with
          | None => mret receiver_state
          | Some timer =>
              timer ← stop_timer timer;
              mret (hm_insert agent_key producer_name
                      (mkStreamReceiver (rc_buffer receiver) (rc_rtx_map receiver)
                         (<[msg_id := timer]> (rc_timers_map receiver))) receiver_state)
          end
      end
  end.

Definition handle_rtx_failure `{BuildProfile} (receiver_state : ReceiverState) (producer_name : Agent)
    (msg_id session_id : N) : sess S ReceiverState :=
  match hm_get agent_key producer_name receiver_state with
  | None => mret receiver_state
  | Some receiver =>
      _ ← match rc_timers_map receiver !! msg_id with
          | Some timer => drop_timer timer
          | None => mret tt
          end;
      '(b, lost) ← lift (on_lost_message (rc_buffer receiver) msg_id);
      _ ← send_message_to_app lost session_id;
      mret (hm_insert agent_key producer_name
              (mkStreamReceiver b (delete msg_id (rc_rtx_map receiver))
                 (delete msg_id (rc_timers_map receiver))) receiver_state)
  end.
End handlers.

(** ** The loop *)

(** What the [select!] of a turn gives. *)
Inductive StreamEvent : Type :=
| StreamMsg (msg : ProtoMessage) (direction : MessageDirection)
| StreamMsgError
| RtxTimer (msg_id : N) (retry : bool) (producer_name : Agent)
| RtxTimerError
| RtxTimerClosed
| ProdTimer
| ProdTimerError
| ProdTimerClosed.

Section loop.
Context `{Hasher, BuildProfile}.
Abbreviation task A := (sess StreamTask A).

Definition put_endpoint (e : Endpoint) : task unit := modify (set_endpoint e).

Definition rtx_turn (t : StreamTask) (receiver : ReceiverState) (msg_id : N) (retry : bool)
    (producer_name : Agent) : task ReceiverState :=
  if retry then handle_rtx_timeout receiver producer_name msg_id
  else handle_rtx_failure receiver producer_name msg_id (st_session_id t).

Definition stream_turn (ev : StreamEvent) : task unit :=
  t ← get_state;
  match ev with
  | StreamMsg msg direction =>
      match st_endpoint t, direction with
      | Endpoint_Producer producer, North =>
          header_type ← lift (get_header_type msg);
          match header_type with
          | RtxRequest => process_incoming_rtx_request msg (st_session_id t) producer (st_source t)
          | _ => mret tt
          end
      | Endpoint_Producer producer, South =>
          producer ← process_message_from_app msg (st_session_id t) producer false;
          put_endpoint (Endpoint_Producer producer)
      | Endpoint_Receiver receiver, _ =>
          receiver ← process_message_from_slim msg (st_session_id t) receiver (st_source t)
                       (st_max_retries t) (st_timeout t);
          put_endpoint (Endpoint_Receiver receiver)
      | Endpoint_Bidirectional receiver producer, North =>
          header_type ← lift (get_header_type msg);
          match header_type with
          | RtxRequest => process_incoming_rtx_request msg (st_session_id t) producer (st_source t)
          | _ =>
              receiver ← process_message_from_slim msg (st_session_id t) receiver (st_source t)
                           (st_max_retries t) (st_timeout t);
              put_endpoint (Endpoint_Bidirectional receiver producer)
          end
      | Endpoint_Bidirectional receiver producer, South =>
          producer ← process_message_from_app msg (st_session_id t) producer true;
          put_endpoint (Endpoint_Bidirectional receiver producer)
      end
  | RtxTimer msg_id retry producer_name =>
      match st_endpoint t with
      | Endpoint_Receiver receiver =>
          receiver ← rtx_turn t receiver msg_id retry producer_name;
          put_endpoint (Endpoint_Receiver receiver)
      | Endpoint_Producer _ => mret tt
      | Endpoint_Bidirectional receiver producer =>
          receiver ← rtx_turn t receiver msg_id retry producer_name;
          put_endpoint (Endpoint_Bidirectional receiver producer)
      end
  | ProdTimer =>
      match st_endpoint t with
      | Endpoint_Producer producer =>
          last_msg_id ← lift (decr_u32 (ps_next_id producer));
          send_beacon_msg (st_source t) (pb_destination_name (ps_buffer producer)) BeaconStream
            last_msg_id (st_session_id t)
      | Endpoint_Bidirectional _ producer =>
          last_msg_id ← lift (decr_u32 (ps_next_id producer));
          send_beacon_msg (st_source t) (pb_destination_name (ps_buffer producer)) BeaconPubSub
            last_msg_id (st_session_id t)
      | Endpoint_Receiver _ => mret tt
      end
  | RtxTimerClosed =>
      modify (fun t => mkStreamTask (st_session_id t) (st_source t) (st_max_retries t) (st_timeout t)
                         (st_endpoint t) true (st_prod_timer_rx_closed t))
  | ProdTimerClosed =>
      modify (fun t => mkStreamTask (st_session_id t) (st_source t) (st_max_retries t) (st_timeout t)
                         (st_endpoint t) (st_rtx_timer_rx_closed t) true)
  | StreamMsgError | RtxTimerError | ProdTimerError => mret tt
  end.

Fixpoint stream_run (evs : list StreamEvent) : task unit :=
  match evs with
  | [] => mret tt
  | ev :: evs => _ ← stream_turn ev; stream_run evs
  end.
End loop.

(** ** The session *)
Definition producer_timer (direction : SessionDirection) (sys : TimerSystem) : TimerSystem * Timer :=
  Timer_new sys 1 Exponential
    (match direction with Bidirectional => from_millis 500 | _ => from_millis 1000 end)
    (Some (from_secs 30)) None.

Definition Endpoint_new (direction : SessionDirection) (sys : TimerSystem) : TimerSystem * Endpoint :=
  let buffer := ProducerBuffer_with_capacity 500 in
  match direction with
  | Sender =>
      let (sys, timer) := producer_timer Sender sys in
      (sys, Endpoint_Producer (mkProducerState buffer 0 timer))
  | Receiver => (sys, Endpoint_Receiver ∅)
  | Bidirectional =>
      let (sys, timer) := producer_timer Bidirectional sys in
      (sys, Endpoint_Bidirectional ∅ (mkProducerState buffer 0 timer))
  end.

(** [process_message]: the task before its first turn. *)
Definition StreamTask_new (common : Common) (direction : SessionDirection) (sys : TimerSystem)
    : panics (TimerSystem * StreamTask) :=
  match cm_session_config common with
  | SessionConfig_Streaming c =>
      let (sys, endpoint) := Endpoint_new direction sys in
      Done (sys, mkStreamTask (cm_id common) (cm_source common) (sc_max_retries c) (sc_timeout c)
                   endpoint false false)
  | _ => Panic "unable to parse streaming configuration"
  end.

Record Streaming : Type := mkStreaming {
  sg_common : Common;
  sg_inbox : list (ProtoMessage * MessageDirection);
  sg_task : StreamTask;
}.

Definition Streaming_new (id : N) (session_config : StreamingConfiguration)
    (session_direction : SessionDirection) (agent : Agent) (identity : option string) (sys : TimerSystem)
    : panics (TimerSystem * Streaming) :=
  let common := Common_new id session_direction (SessionConfig_Streaming session_config) agent identity in
  '(sys, task) ← StreamTask_new common session_direction sys;
  Done (sys, mkStreaming common [] task).

(** [Session::on_message]: the task is there as long as the session is. *)
Definition Streaming_on_message (s : Streaming) (message : SessionMessage) (direction : MessageDirection)
    : Streaming * Result unit SessionError :=
  (mkStreaming (sg_common s) (sg_inbox s ++ [(sm_message message, direction)]) (sg_task s), Ok tt).

(** [RtxTimerObserver] and [ProducerTimerObserver]: the events their calls
    become. *)
Definition rtx_observer (producer_name : Agent) (call : ObserverCall) : list StreamEvent :=
  match call with
  | OnTimeout id _ => [RtxTimer id true producer_name]
  | OnFailure id _ => [RtxTimer id false producer_name]
  | OnStop _ => []
  end.
Definition producer_observer (call : ObserverCall) : panics (list StreamEvent) :=
  match call with
  | OnTimeout _ _ => Done [ProdTimer]
  | OnFailure _ _ => Panic "received on failure event on producer timer"
  | OnStop _ => Done []
  end.
Close Scope string_scope.
