(* ===== verification/StreamingProofs.v ===== *)
(** * Streaming sessions: properties

    A receiving session against the buffers of its producers, a producing
    session against the window of its last messages, and the two together over
    a network that loses messages. *)
From stdpp Require Import base list gmap strings numbers option sets.
From S2P Require Import Prelude Proto Encoder Messages Timer Session.
From S2P Require Import ReceiverBuffer ProducerBuffer Streaming.
Open Scope slim_scope.

(** ** What a buffer delivers, it has received *)
Section delivered.
Context `{BuildProfile} (P : ProtoMessage -> Prop).

Definition entry_ok (o : option ProtoMessage) : Prop := match o with Some m => P m | None => True end.
Definition op_from (o : rb_op) : Prop := match o with OpReceived m => P m | _ => True end.

Lemma release_loop_from fuel : forall i b ret b' out,
  Forall entry_ok (buffer b) -> Forall entry_ok ret ->
  release_loop fuel i b ret = Done (b', out) -> Forall entry_ok (buffer b') /\ Forall entry_ok out.
Proof.
  induction fuel as [|fuel IH]; intros i b ret b' out Hb Hret; cbn [release_loop].
  { by intros [= <- <-]. }
  destruct (buffer b !! i) as [[m|]|] eqn:Hi;
    (destruct (incr_usize (last_sent b)) as [last|]; cbn [mbind panics_bind]; [|done]).
  - apply IH; simpl.
    + apply Forall_insert; [done|done].
    + apply Forall_app. split; [done|]. constructor; [|done].
      apply (Forall_lookup_1 _ _ _ _ Hb Hi).
  - destruct (decide _); [|by intros [= <- <-]]. apply IH; [done|]. apply Forall_app. by repeat constructor.
  - destruct (decide _); [|by intros [= <- <-]]. apply IH; [done|]. apply Forall_app. by repeat constructor.
Qed.

Lemma release_lost_from fuel : forall b ret b' out,
  Forall entry_ok (buffer b) -> Forall entry_ok ret ->
  release_lost fuel b ret = Done (b', out) -> Forall entry_ok (buffer b') /\ Forall entry_ok out.
Proof.
  induction fuel as [|fuel IH]; intros b ret b' out Hb Hret; cbn [release_lost].
  { by intros [= <- <-]. }
  destruct (incr_usize (last_sent b)) as [last|]; cbn [mbind panics_bind]; [|done].
  destruct (decide _); [|by intros [= <- <-]]. apply IH; [done|]. apply Forall_app. by repeat constructor.
Qed.

Lemma release_msgs_from b b' out :
  Forall entry_ok (buffer b) -> release_msgs b = Done (b', out) ->
  Forall entry_ok (buffer b') /\ Forall entry_ok out.
Proof.
  intros Hb. unfold release_msgs.
  destruct (release_loop _ _ b []) as [[b1 ret]|] eqn:Hl; cbn [mbind panics_bind]; [|done].
  destruct (release_loop_from _ _ _ _ _ _ Hb (Forall_nil_2 _) Hl) as [Hb1 Hr].
  apply release_lost_from; [|done]. by destruct (decide _).
Qed.

Lemma internal_from b id msg b' out rtx :
  Forall entry_ok (buffer b) -> entry_ok msg ->
  internal_on_received_message b id msg = Done (b', (out, rtx)) ->
  Forall entry_ok (buffer b') /\ Forall entry_ok out.
Proof.
  intros Hb Hm. unfold internal_on_received_message.
  assert (Hn : forall k, Forall entry_ok (replicate k (None : option ProtoMessage))).
  { intros k. by apply Forall_replicate. }
  destruct (decide _); [destruct msg; intros [= <- <- <-]; simpl; by repeat constructor|].
  destruct (decide _); [by intros [= <- <- <-]|].
  destruct (decide _).
  { destruct msg; intros [= <- <- <-]; simpl; (split; [|done]); [|done].
    apply Forall_app. split; [done|by repeat constructor]. }
  destruct (decide _).
  - destruct msg as [m|]; [|by intros [= <- <- <-]].
    destruct (buffer b !! _) as [[]|] eqn:Hi; [by intros [= <- <- <-]| |done].
    destruct (release_msgs _) as [[b1 ret]|] eqn:Hr; cbn [mbind panics_bind]; [|done].
    intros [= <- <- <-]. apply release_msgs_from in Hr; [done|]. simpl. by apply Forall_insert.
  - destruct msg as [m|]; intros [= <- <- <-]; simpl; (split; [|done]).
    + apply Forall_app. split; [done|]. apply Forall_app. split; [done|by repeat constructor].
    + apply Forall_app. by split.
Qed.

Lemma rb_exec_from b o b' out rtx :
  Forall entry_ok (buffer b) -> op_from o -> rb_exec b o = Done (b', (out, rtx)) ->
  Forall entry_ok (buffer b') /\ Forall entry_ok out.
Proof.
  intros Hb Ho. destruct o as [m|id|id]; simpl in *.
  - unfold on_received_message. destruct (get_id m) as [id|]; cbn [mbind panics_bind]; [|done].
    by apply internal_from.
  - unfold on_lost_message. destruct (release_msgs _) as [[b1 ret]|] eqn:Hr; cbn [mbind panics_bind]; [|done].
    intros [= <- <- <-]. by apply release_msgs_from in Hr.
  - unfold on_beacon_message. destruct (internal_on_received_message _ _ _) as [[b1 [out1 rtx1]]|] eqn:Hr;
      cbn [mbind panics_bind]; [|done]. intros [= <- <- <-].
    apply internal_from in Hr as [? ?]; [|done|done]. split; [done|constructor].
Qed.

Lemma rb_run_from ops : forall b b' outs rtxs,
  Forall entry_ok (buffer b) -> Forall op_from ops -> rb_run b ops = Done (b', outs, rtxs) ->
  Forall entry_ok (buffer b') /\ Forall entry_ok outs.
Proof.
  induction ops as [|o ops IH]; intros b b' outs rtxs Hb Hops; cbn [rb_run].
  { by intros [= <- <- <-]. }
  inversion Hops as [|? ? Ho Hrest]; subst.
  destruct (rb_exec b o) as [[b1 [out rtx]]|] eqn:He; cbn [mbind panics_bind]; [|done].
  destruct (rb_run b1 ops) as [[[b2 outs2] rtxs2]|] eqn:Hr; cbn [mbind panics_bind]; [|done].
  intros [= <- <- <-]. destruct (rb_exec_from _ _ _ _ _ Hb Ho He) as [Hb1 Hout].
  destruct (IH _ _ _ _ Hb1 Hrest Hr) as [Hb2 Houts]. split; [done|]. by apply Forall_app.
Qed.
End delivered.

(** ** The receiving side *)

(** The buffer of a producer; a producer not heard of has an empty one. *)
Definition receiver_of (R : ReceiverState) (k : (N * N * N) * N) : StreamReceiver :=
  default StreamReceiver_new (snd <$> R !! k).
Definition buffer_of (R : ReceiverState) (k : (N * N * N) * N) : ReceiverBuffer := rc_buffer (receiver_of R k).

Lemma receiver_of_insert (R : ReceiverState) p r k :
  receiver_of (hm_insert agent_key p r R) k = if decide (k = agent_key p) then r else receiver_of R k.
Proof.
  unfold receiver_of, hm_insert. destruct (decide (k = agent_key p)) as [->|Hne].
  - destruct (R !! agent_key p) as [[a0 ?]|]; by rewrite lookup_insert_eq.
  - destruct (R !! agent_key p) as [[a0 ?]|]; by rewrite lookup_insert_ne.
Qed.
Lemma known_insert (R : ReceiverState) p r k :
  is_Some (hm_insert agent_key p r R !! k) <-> k = agent_key p \/ is_Some (R !! k).
Proof.
  unfold hm_insert. destruct (decide (k = agent_key p)) as [->|Hne].
  - destruct (R !! agent_key p) as [[a0 ?]|]; rewrite lookup_insert_eq; split; eauto.
  - destruct (R !! agent_key p) as [[a0 ?]|]; rewrite lookup_insert_ne by done; tauto.
Qed.
Lemma receiver_of_get (R : ReceiverState) p :
  default StreamReceiver_new (hm_get agent_key p R) = receiver_of R (agent_key p).
Proof. done. Qed.

(** The environment gets messages and items, and keeps its receivers. *)
Definition io_adds (io io' : SessionIo) (msgs : list ProtoMessage)
    (items : list (Result SessionMessage SessionError)) : Prop :=
  io_slim io' = mkOutbox (ob_open (io_slim io)) (ob_sent (io_slim io) ++ msgs) /\
  io_app io' = mkOutbox (ob_open (io_app io)) (ob_sent (io_app io) ++ items).

Lemma io_adds_refl io : io_adds io io [] [].
Proof. split; rewrite app_nil_r; by destruct io as [[] []]. Qed.
Lemma io_adds_trans io1 io2 io3 m1 m2 i1 i2 :
  io_adds io1 io2 m1 i1 -> io_adds io2 io3 m2 i2 -> io_adds io1 io3 (m1 ++ m2) (i1 ++ i2).
Proof. intros [H1 H2] [H3 H4]. split; [rewrite H3, H1|rewrite H4, H2]; simpl; by rewrite <- app_assoc. Qed.
Lemma io_adds_open io io' msgs items : io_adds io io' msgs items -> io_open io -> io_open io'.
Proof. intros [H1 H2] [? ?]. unfold io_open. rewrite H1, H2. done. Qed.
Lemma io_adds_sent io msgs items : io_adds io (io_sent io msgs items) msgs items.
Proof. done. Qed.
Lemma io_adds_timers io io' sys msgs items :
  io_adds io io' msgs items -> io_adds io (mkSessionIo (io_slim io') (io_app io') sys (io_draws io')) msgs items.
Proof. done. Qed.

Definition deliverable (m : ProtoMessage) : Prop := exists info, Info_from m = Done info.

(** What the application gets for an entry. *)
Definition app_item (session_id : N) (o : option ProtoMessage) : Result SessionMessage SessionError :=
  match o with
  | Some m => match Info_from m with
              | Done info => Ok (mkSessionMessage m info)
              | Panic why => Err (Processing why)
              end
  | None => Err (MessageLost (fmt_dec session_id))
  end.

Section receiving.
Context {S : Type}.
Implicit Type s : S.

Lemma send_to_app_done outs sid : forall io s,
  Forall (entry_ok deliverable) outs -> io_open io ->
  exists io', send_message_to_app outs sid io s = Done (io', s, tt) /\
    io_adds io io' [] (app_item sid <$> outs).
Proof.
  induction outs as [|o outs IH]; intros io s Hok Ho.
  { exists io. split; [done|apply io_adds_refl]. }
  inversion Hok as [|? ? He Hrest]; subst.
  destruct (IH (io_sent io [] [app_item sid o]) s Hrest Ho) as (io'&Hs&Ha).
  exists io'. split; [|apply (io_adds_trans _ _ _ [] [] _ _ (io_adds_sent io [] [app_item sid o]) Ha)].
  cbn [send_message_to_app]. erewrite sess_bind_Done; [exact Hs|].
  destruct o as [m|].
  - destruct He as [info Hi]. rewrite (sess_bind_Done _ _ _ _ _ _ _ (sess_lift_Done _ _ _ _ Hi)).
    rewrite (sess_bind_Done _ _ _ _ _ _ _ (send_app_open _ _ _ (proj2 Ho))). cbn [app_item]. by rewrite Hi.
  - by rewrite (sess_bind_Done _ _ _ _ _ _ _ (send_app_open _ _ _ (proj2 Ho))).
Qed.

Lemma send_rtx_done src p conn sid to mr rtx : forall r io s,
  io_open io ->
  exists io' r', send_rtx src p conn sid to mr rtx r io s = Done (io', s, r') /\
    rc_buffer r' = rc_buffer r /\ io_adds io io' (rtx_request src p conn sid <$> rtx) [] /\
    forall x, rc_rtx_map r' !! x =
      if decide (x ∈ rtx) then Some (rtx_request src p conn sid x) else rc_rtx_map r !! x.
Proof.
  induction rtx as [|x rtx IH]; intros r io s Ho.
  { exists io, r. split; [done|]. split; [done|]. split; [apply io_adds_refl|].
    intros y. by rewrite decide_False by apply not_elem_of_nil. }
  cbn [send_rtx].
  assert (Hstep : exists sys t, forall r1, (timer ← new_timer x Constant to None (Some mr);
      _ ← start_timer timer;
      _ ← match rc_timers_map r !! x with Some old => drop_timer old | None => mret tt end;
      _ ← send_slim (rtx_request src p conn sid x);
      send_rtx src p conn sid to mr rtx (r1 timer)) io s =
    send_rtx src p conn sid to mr rtx (r1 t)
      (io_with_timers (io_sent io [rtx_request src p conn sid x] []) sys) s).
  { destruct (rc_timers_map r !! x) as [old|]; eexists _, _; intros r1; run_sess;
      rewrite (proj1 Ho); run_sess; unfold io_sent, io_with_timers; simpl; rewrite (proj1 Ho);
      rewrite app_nil_r; by destruct io as [? [] ? ?]. }
  destruct Hstep as (sys&t&Hstep).
  rewrite (Hstep (fun t => mkStreamReceiver (rc_buffer r)
    (<[x := rtx_request src p conn sid x]> (rc_rtx_map r)) (<[x := t]> (rc_timers_map r)))).
  edestruct (IH (mkStreamReceiver (rc_buffer r) (<[x := rtx_request src p conn sid x]> (rc_rtx_map r))
    (<[x := t]> (rc_timers_map r))) (io_with_timers (io_sent io [rtx_request src p conn sid x] []) sys) s)
    as (io'&r'&Hs&Hb&Ha&Hm); [done|].
  exists io', r'. split; [exact Hs|]. split; [done|]. split.
  - apply (io_adds_trans io (io_with_timers (io_sent io [rtx_request src p conn sid x] []) sys) io'
      [_] _ [] []); [done|exact Ha].
  - intros y. rewrite Hm. simpl. destruct (decide (y ∈ rtx)) as [Hin|Hout].
    + by rewrite decide_True by (by right).
    + destruct (decide (y = x)) as [->|Hne].
      * rewrite lookup_insert_eq. by rewrite decide_True by (by left).
      * rewrite lookup_insert_ne by done. rewrite decide_False; [done|].
        by intros [?|?]%elem_of_cons.
Qed.

Lemma clean_rtx_done id r io s :
  exists io' r', clean_rtx id r io s = Done (io', s, r') /\ rc_buffer r' = rc_buffer r /\
    io_adds io io' [] [].
Proof.
  unfold clean_rtx. destruct (rc_timers_map r !! id) as [t|]; run_sess.
  - cbn [Timer_stop]. run_sess. eexists _, _. split; [done|]. split; [done|].
    by apply io_adds_timers, io_adds_refl.
  - eexists _, _. split; [done|]. split; [done|apply io_adds_refl].
Qed.
End receiving.

(** The call on the producer's buffer a message stands for. *)
Definition msg_op (m : ProtoMessage) : option rb_op :=
  match get_header_type m, get_id m, get_error m with
  | Done t, Done id, Done err =>
      match t with
      | Stream | PubSub => Some (OpReceived m)
      | RtxReply => Some (if decide (err = Some true) then OpLost id else OpReceived m)
      | BeaconStream | BeaconPubSub => Some (OpBeacon id)
      | _ => None
      end
  | _, _, _ => None
  end.

(** A message of producer [p], come in on [conn]. *)
Record incoming (p : Agent) (conn : N) (m : ProtoMessage) : Prop := {
  ic_source : get_source m = Done p;
  ic_conn : get_incoming_conn m = Done conn;
  ic_type : exists t, get_header_type m = Done t;
  ic_id : exists id, get_id m = Done id;
  ic_error : exists e, get_error m = Done e;
}.

Section receiver_steps.
Context `{BuildProfile} {S : Type}.
Implicit Type s : S.

(** A message that stands for the call [o]: the producer's buffer makes it, the
    entries go to the application and the requests to the producer. *)
Lemma from_slim_done m sid R src mr to p conn o b' out rtx io s :
  incoming p conn m -> msg_op m = Some o -> io_open io ->
  rb_exec (buffer_of R (agent_key p)) o = Done (b', (out, rtx)) -> Forall (entry_ok deliverable) out ->
  exists io' R', process_message_from_slim m sid R src mr to io s = Done (io', s, R') /\
    io_adds io io' (rtx_request src p conn sid <$> rtx) (app_item sid <$> out) /\
    (forall k, is_Some (R' !! k) <-> k = agent_key p \/ is_Some (R !! k)) /\
    forall k, buffer_of R' k = if decide (k = agent_key p) then b' else buffer_of R k.
Proof.
  intros [Hsrc Hconn [t Ht] [id Hid] [err Herr]] Hop Ho Hex Hout.
  unfold process_message_from_slim.
  rewrite (sess_bind_Done _ _ _ _ _ _ _ (sess_lift_Done _ _ _ _ Hsrc)).
  rewrite (sess_bind_Done _ _ _ _ _ _ _ (sess_lift_Done _ _ _ _ Hconn)).
  rewrite receiver_of_get.
  rewrite (sess_bind_Done _ _ _ _ _ _ _ (sess_lift_Done _ _ _ _ Ht)).
  rewrite (sess_bind_Done _ _ _ _ _ _ _ (sess_lift_Done _ _ _ _ Hid)).
  set (r := receiver_of R (agent_key p)) in *. set (R0 := hm_insert agent_key p r R).
  change (buffer_of R (agent_key p)) with (rc_buffer r) in Hex.
  match goal with |- context [(?c ≫= _) io s] =>
    assert (Hres : exists io1 r1, c io s = Done (io1, s, Some (r1, out, rtx)) /\ rc_buffer r1 = b' /\
      io_adds io io1 [] []) end.
  { unfold msg_op in Hop. rewrite Ht, Hid, Herr in Hop.
    destruct t; simplify_eq; cbn [rb_exec] in Hex.
    - rewrite (sess_bind_Done _ _ _ _ _ _ _ (sess_lift_Done _ _ _ _ Hex)).
      eexists _, _. split; [done|]. split; [done|apply io_adds_refl].
    - rewrite (sess_bind_Done _ _ _ _ _ _ _ (sess_lift_Done _ _ _ _ Hex)).
      eexists _, _. split; [done|]. split; [done|apply io_adds_refl].
    - rewrite (sess_bind_Done _ _ _ _ _ _ _ (sess_lift_Done _ _ _ _ Herr)).
      destruct (clean_rtx_done id (set_buffer b' r) io s) as (io1&r1&Hc&Hb&Ha).
      destruct err as [[]|]; [rewrite decide_True in Hex by done|rewrite decide_False in Hex by done..];
        cbn [rb_exec] in Hex.
      + destruct (on_lost_message (rc_buffer r) id) as [[b1 out1]|] eqn:Hl; cbn [mbind panics_bind] in Hex;
          [|done]. injection Hex as -> -> <-.
        erewrite sess_bind_Done; [|rewrite (sess_bind_Done _ _ _ _ _ _ _ (sess_lift_Done _ _ _ _ eq_refl)); done].
        cbv beta iota. rewrite (sess_bind_Done _ _ _ _ _ _ _ Hc). by eexists _, _.
      + rewrite (sess_bind_Done _ _ _ _ _ _ _ (sess_lift_Done _ _ _ _ Hex)). cbv beta iota.
        rewrite (sess_bind_Done _ _ _ _ _ _ _ Hc). by eexists _, _.
      + rewrite (sess_bind_Done _ _ _ _ _ _ _ (sess_lift_Done _ _ _ _ Hex)). cbv beta iota.
        rewrite (sess_bind_Done _ _ _ _ _ _ _ Hc). by eexists _, _.
    - destruct (on_beacon_message (rc_buffer r) id) as [[b1 rtx1]|] eqn:Hl; cbn [mbind panics_bind] in Hex;
        [|done]. injection Hex as -> <- ->.
      rewrite (sess_bind_Done _ _ _ _ _ _ _ (sess_lift_Done _ _ _ _ eq_refl)).
      eexists _, _. split; [done|]. split; [done|apply io_adds_refl].
    - destruct (on_beacon_message (rc_buffer r) id) as [[b1 rtx1]|] eqn:Hl; cbn [mbind panics_bind] in Hex;
        [|done]. injection Hex as -> <- ->.
      rewrite (sess_bind_Done _ _ _ _ _ _ _ (sess_lift_Done _ _ _ _ eq_refl)).
      eexists _, _. split; [done|]. split; [done|apply io_adds_refl]. }
  destruct Hres as (io1&r1&Hres&Hb1&Ha1). rewrite (sess_bind_Done _ _ _ _ _ _ _ Hres). cbv beta iota.
  pose proof (io_adds_open _ _ _ _ Ha1 Ho) as Ho1.
  destruct (send_to_app_done out sid io1 s Hout Ho1) as (io2&Hs2&Ha2).
  rewrite (sess_bind_Done _ _ _ _ _ _ _ Hs2). pose proof (io_adds_open _ _ _ _ Ha2 Ho1) as Ho2.
  destruct (send_rtx_done src p conn sid to mr rtx r1 io2 s Ho2) as (io3&r3&Hs3&Hb3&Ha3&_).
  rewrite (sess_bind_Done _ _ _ _ _ _ _ Hs3).
  eexists io3, _. split; [done|]. split.
  - pose proof (io_adds_trans _ _ _ _ _ _ _ (io_adds_trans _ _ _ _ _ _ _ Ha1 Ha2) Ha3) as Ha.
    simpl in Ha. by rewrite app_nil_r in Ha.
  - split; [intros k; unfold R0; rewrite !known_insert; tauto|]. intros k. unfold buffer_of. rewrite receiver_of_insert. destruct (decide (k = agent_key p)) as [->|Hne].
    + by rewrite Hb3.
    + unfold R0. rewrite receiver_of_insert. by rewrite decide_False.
Qed.

(** Any other message only makes the producer known. *)
Lemma from_slim_other m sid R src mr to p conn io s :
  incoming p conn m -> msg_op m = None ->
  exists R', process_message_from_slim m sid R src mr to io s = Done (io, s, R') /\
    (forall k, is_Some (R' !! k) <-> k = agent_key p \/ is_Some (R !! k)) /\
    forall k, buffer_of R' k = buffer_of R k.
Proof.
  intros [Hsrc Hconn [t Ht] [id Hid] [err Herr]] Hop. unfold process_message_from_slim.
  rewrite (sess_bind_Done _ _ _ _ _ _ _ (sess_lift_Done _ _ _ _ Hsrc)).
  rewrite (sess_bind_Done _ _ _ _ _ _ _ (sess_lift_Done _ _ _ _ Hconn)).
  rewrite receiver_of_get.
  rewrite (sess_bind_Done _ _ _ _ _ _ _ (sess_lift_Done _ _ _ _ Ht)).
  rewrite (sess_bind_Done _ _ _ _ _ _ _ (sess_lift_Done _ _ _ _ Hid)).
  unfold msg_op in Hop. rewrite Ht, Hid, Herr in Hop.
  destruct t; try done; (eexists; split; [done|]; split; [intros k; apply known_insert|];
    intros k; unfold buffer_of; rewrite receiver_of_insert;
    by destruct (decide (k = agent_key p)) as [->|]).
Qed.

Lemma rtx_timeout_done R p id io s :
  io_open io -> exists io' R' msgs, handle_rtx_timeout R p id io s = Done (io', s, R') /\
    io_adds io io' msgs [] /\ (forall k, is_Some (R' !! k) <-> is_Some (R !! k)) /\
    (forall k, buffer_of R' k = buffer_of R k) /\
    msgs = match rc_rtx_map (receiver_of R (agent_key p)) !! id with Some m => [m] | None => [] end.
Proof.
  intros Ho. unfold handle_rtx_timeout, receiver_of, hm_get. destruct (R !! agent_key p) as [[a r]|] eqn:Hr; simpl.
  2:{ exists io, R, []. split; [done|]. split; [apply io_adds_refl|done]. }
  destruct (rc_rtx_map r !! id) as [m|].
  - rewrite (sess_bind_Done _ _ _ _ _ _ _ (send_slim_open _ _ _ (proj1 Ho))).
    eexists _, R, [m]. split; [done|]. split; [apply io_adds_sent|done].
  - destruct (rc_timers_map r !! id) as [t|].
    + run_sess. cbn [Timer_stop]. eexists _, _, []. split; [done|].
      split; [by apply io_adds_timers, io_adds_refl|].
      split; [intros k; rewrite known_insert; split; [by intros [->|?]; [rewrite Hr|]|by right]|]. split; [|done].
      intros k. unfold buffer_of. rewrite receiver_of_insert. destruct (decide (k = agent_key p)) as [->|]; [|done].
      unfold receiver_of. by rewrite Hr.
    + exists io, R, []. split; [done|]. split; [apply io_adds_refl|done].
Qed.

(** The retries for [id] are used up: it is lost. *)
Lemma rtx_failure_done R p id sid b' out rtx io s :
  io_open io -> is_Some (R !! agent_key p) ->
  rb_exec (buffer_of R (agent_key p)) (OpLost id) = Done (b', (out, rtx)) ->
  Forall (entry_ok deliverable) out ->
  exists io' R', handle_rtx_failure R p id sid io s = Done (io', s, R') /\
    io_adds io io' [] (app_item sid <$> out) /\
    (forall k, is_Some (R' !! k) <-> is_Some (R !! k)) /\
    forall k, buffer_of R' k = if decide (k = agent_key p) then b' else buffer_of R k.
Proof.
  intros Ho [[a r] Hr] Hex Hout. unfold handle_rtx_failure, hm_get. rewrite Hr; simpl.
  assert (Hb : buffer_of R (agent_key p) = rc_buffer r) by (unfold buffer_of, receiver_of; by rewrite Hr).
  rewrite Hb in Hex. cbn [rb_exec] in Hex.
  destruct (on_lost_message (rc_buffer r) id) as [[b1 out1]|] eqn:Hl; cbn [mbind panics_bind] in Hex; [|done].
  injection Hex as -> -> <-.
  assert (Hd : exists io1, (match rc_timers_map r !! id with Some timer => drop_timer timer | None => mret tt end)
      io s = Done (io1, s, tt) /\ io_adds io io1 [] []).
  { destruct (rc_timers_map r !! id); eexists; (split; [done|]); [|apply io_adds_refl].
    by apply io_adds_timers, io_adds_refl. }
  destruct Hd as (io1&Hd&Ha1). rewrite (sess_bind_Done _ _ _ _ _ _ _ Hd).
  rewrite (sess_bind_Done _ _ _ _ _ _ _ (sess_lift_Done _ _ _ _ eq_refl)). cbv beta iota.
  destruct (send_to_app_done out sid io1 s Hout (io_adds_open _ _ _ _ Ha1 Ho)) as (io2&Hs2&Ha2).
  rewrite (sess_bind_Done _ _ _ _ _ _ _ Hs2). eexists io2, _. split; [done|].
  split; [exact (io_adds_trans _ _ _ _ _ _ _ Ha1 Ha2)|].
  split; [intros k; rewrite known_insert; split; [by intros [->|?]; [rewrite Hr|]|by right]|].
  intros k. unfold buffer_of. rewrite receiver_of_insert. by destruct (decide (k = agent_key p)).
Qed.
End receiver_steps.

(** ** Several producers *)

(** The call on producer [k]'s buffer an event stands for. *)
Definition event_op (k : (N * N * N) * N) (ev : StreamEvent) : option rb_op :=
  match ev with
  | StreamMsg m _ =>
      match get_source m with
      | Done p => if decide (agent_key p = k) then msg_op m else None
      | Panic _ => None
      end
  | RtxTimer id false p => if decide (agent_key p = k) then Some (OpLost id) else None
  | _ => None
  end.
Definition event_ok (ev : StreamEvent) : Prop :=
  match ev with
  | StreamMsg m _ => exists p conn, incoming p conn m
  | _ => True
  end.

(** A message of producer [k] among the items the application gets. *)
Definition from_key (k : (N * N * N) * N) (m : ProtoMessage) : Prop :=
  deliverable m /\ exists p, get_source m = Done p /\ agent_key p = k.
Definition delivered (k : (N * N * N) * N) (item : Result SessionMessage SessionError)
    : option ProtoMessage :=
  match item with
  | Ok sm =>
      match get_source (sm_message sm) with
      | Done p => if decide (agent_key p = k) then Some (sm_message sm) else None
      | Panic _ => None
      end
  | Err _ => None
  end.

Lemma delivered_items sid k k0 out :
  Forall (entry_ok (from_key k0)) out ->
  omap (delivered k) (app_item sid <$> out) = if decide (k = k0) then omap (fun o => o) out else [].
Proof.
  induction 1 as [|o out Ho _ IH]; [by destruct (decide _)|].
  destruct o as [m|]; cbn [fmap list_fmap omap list_omap app_item]; [|exact IH].
  destruct Ho as [[info Hi] (p&Hp&Hk)]. rewrite Hi. cbn [delivered sm_message]. rewrite Hp, Hk.
  destruct (decide (k = k0)) as [->|Hne].
  - rewrite decide_True by done. by rewrite IH.
  - rewrite decide_False by done. exact IH.
Qed.

Lemma entries_deliverable k out :
  Forall (entry_ok (from_key k)) out -> Forall (entry_ok deliverable) out.
Proof. intros Hf. eapply Forall_impl; [exact Hf|]. intros [m|]; [by intros [? _]|done]. Qed.

Lemma incoming_from_key p conn m : incoming p conn m -> from_key (agent_key p) m.
Proof.
  intros [Hsrc Hconn _ [id Hid] _]. split; [|by exists p].
  unfold deliverable, Info_from. unfold get_id in Hid.
  destruct (get_session_header m) as [sh|]; [|done]. cbn [mbind panics_bind].
  pose proof Hsrc as Hsrc'. unfold get_source in Hsrc. destruct (get_slim_header m) as [h|]; [|done].
  cbn [mbind panics_bind]. rewrite Hsrc'. by eexists.
Qed.

Section producers.
Context `{Hasher, BuildProfile}.

(** The buffers before the events [evs]: what [evs] will do to each of them is
    in order. *)
Definition ready (R : ReceiverState) (evs : list StreamEvent) (k : (N * N * N) * N) : Prop :=
  exists started, stream_ok started (omap (event_op k) evs) /\ rb_inv (buffer_of R k) /\
    Forall (entry_ok (from_key k)) (buffer (buffer_of R k)) /\
    if (started : bool) then is_u32 (last_sent (buffer_of R k)) /\ is_Some (R !! k)
    else last_sent (buffer_of R k) = usize_max.

(** One call on one buffer. *)
Lemma ready_exec R ev evs k o :
  ready R (ev :: evs) k -> event_op k ev = Some o -> op_from (from_key k) o ->
  exists b' out rtx, rb_exec (buffer_of R k) o = Done (b', (out, rtx)) /\
    Forall (entry_ok (from_key k)) out /\ Forall (entry_ok (from_key k)) (buffer b') /\
    (forall id, o = OpLost id -> is_Some (R !! k)) /\
    exists started, stream_ok started (omap (event_op k) evs) /\ rb_inv b' /\
      if (started : bool) then is_u32 (last_sent b') else last_sent b' = usize_max.
Proof.
  intros (started&Hok&Hinv&Hall&Hst) Hev Hfrom. cbn [omap list_omap] in Hok. rewrite Hev in Hok.
  destruct started.
  - destruct Hst as [Hu Hsome].
    assert (Hv : op_valid (buffer_of R k) o /\ stream_ok true (omap (event_op k) evs)).
    { pose proof (is_u32_not_max _ Hu). destruct o; cbn [stream_ok op_valid] in *; tauto. }
    destruct Hv as [Hv Hok']. destruct (rb_exec_step _ o Hinv Hu Hv) as (b'&out&rtx&Hex&Hres).
    destruct (rb_exec_from _ _ _ _ _ _ Hall Hfrom Hex) as [Hb' Hout].
    exists b', out, rtx. split; [done|]. split; [done|]. split; [done|]. split; [done|].
    exists true. split; [done|]. exact (conj (sr_inv _ _ _ _ _ Hres) (sr_u32 _ _ _ _ _ Hres)).
  - assert (Hv : op_valid (buffer_of R k) o).
    { destruct o; cbn [stream_ok op_valid] in *; [tauto| |tauto]. by destruct Hok as (_&?&_). }
    pose proof (rb_exec_first _ o Hinv Hst Hv) as Hfirst. destruct o as [m|id|id].
    + destruct Hfirst as (id&Hid&Hu&Hex). destruct (rb_exec_from _ _ _ _ _ _ Hall Hfrom Hex) as [Hb' Hout].
      eexists _, _, _. split; [exact Hex|]. split; [done|]. split; [done|]. split; [done|].
      exists true. split; [by destruct Hok|]. split; [|done].
      split; simpl; [done|by right|done| |apply (ri_lost _ Hinv)]. intros i x. by rewrite lookup_nil.
    + by destruct Hfirst.
    + eexists _, _, _. split; [exact Hfirst|]. split; [done|]. split; [done|]. split; [done|].
      exists false. split; [by destruct Hok|done].
Qed.

(** The call, if there is one. *)
Definition exec_opt (b : ReceiverBuffer) (o : option rb_op)
    : panics (ReceiverBuffer * (list (option ProtoMessage) * list N)) :=
  match o with Some o => rb_exec b o | None => Done (b, ([], [])) end.

(** What a turn does to the buffers and to the application. *)
Definition turn_result (R R' : ReceiverState) (ev : StreamEvent)
    (items : list (Result SessionMessage SessionError)) (k : (N * N * N) * N) : Prop :=
  exists out rtx, exec_opt (buffer_of R k) (event_op k ev) = Done (buffer_of R' k, (out, rtx)) /\
    omap (delivered k) items = omap (fun o => o) out.

Lemma ready_skip R R' ev evs k :
  ready R (ev :: evs) k -> event_op k ev = None -> buffer_of R' k = buffer_of R k ->
  (is_Some (R !! k) -> is_Some (R' !! k)) -> ready R' evs k.
Proof.
  intros (started&Hok&Hinv&Hall&Hst) Hev Hb Hknown. exists started. rewrite Hb.
  cbn [omap list_omap] in Hok. rewrite Hev in Hok. split; [done|]. split; [done|]. split; [done|].
  destruct started; [|done]. destruct Hst as [Hu Hs]. auto.
Qed.

(** An event with one call, on the buffer of [k0]. *)
Lemma turn_one R R' ev evs sid k0 o b' out rtx :
  (forall k, ready R (ev :: evs) k) -> event_op k0 ev = Some o -> (forall k, k <> k0 -> event_op k ev = None) ->
  rb_exec (buffer_of R k0) o = Done (b', (out, rtx)) ->
  Forall (entry_ok (from_key k0)) out -> Forall (entry_ok (from_key k0)) (buffer b') ->
  (exists started, stream_ok started (omap (event_op k0) evs) /\ rb_inv b' /\
      if (started : bool) then is_u32 (last_sent b') else last_sent b' = usize_max) ->
  (forall k, is_Some (R !! k) -> is_Some (R' !! k)) -> is_Some (R' !! k0) ->
  (forall k, buffer_of R' k = if decide (k = k0) then b' else buffer_of R k) ->
  (forall k, ready R' evs k) /\ (forall k, turn_result R R' ev (app_item sid <$> out) k).
Proof.
  intros Hready Hev Hother Hex Hout Hb' (started&Hok&Hinv&Hst) Hknown Hsome Hbuf.
  split; intros k; (destruct (decide (k = k0)) as [->|Hne]).
  - exists started. rewrite Hbuf, decide_True by done. split; [done|]. split; [done|]. split; [done|].
    by destruct started.
  - apply (ready_skip R R' ev); [done|by apply Hother| |by apply Hknown]. by rewrite Hbuf, decide_False.
  - exists out, rtx. unfold exec_opt. rewrite Hev, Hex, Hbuf, decide_True by done. split; [done|].
    by rewrite (delivered_items sid k0 k0) by done; rewrite decide_True.
  - exists [], []. unfold exec_opt. rewrite (Hother k Hne), Hbuf, decide_False by done. split; [done|].
    by rewrite (delivered_items sid k k0) by done; rewrite decide_False.
Qed.

(** An event without a call. *)
Lemma turn_none R R' ev evs :
  (forall k, ready R (ev :: evs) k) -> (forall k, event_op k ev = None) ->
  (forall k, is_Some (R !! k) -> is_Some (R' !! k)) -> (forall k, buffer_of R' k = buffer_of R k) ->
  (forall k, ready R' evs k) /\ (forall k, turn_result R R' ev [] k).
Proof.
  intros Hready Hev Hknown Hbuf. split; intros k.
  - by apply (ready_skip R R' ev); auto.
  - exists [], []. unfold exec_opt. by rewrite Hev, Hbuf.
Qed.

Definition same_session (t t' : StreamTask) : Prop :=
  st_session_id t' = st_session_id t /\ st_source t' = st_source t /\
  st_max_retries t' = st_max_retries t /\ st_timeout t' = st_timeout t.

Lemma msg_op_from m p conn o : incoming p conn m -> msg_op m = Some o -> op_from (from_key (agent_key p)) o.
Proof.
  intros Hin Hop. pose proof (incoming_from_key _ _ _ Hin) as Hk. unfold msg_op in Hop.
  destruct (get_header_type m) as [t|], (get_id m), (get_error m); try done.
  destruct t; simplify_eq; try done. by destruct (decide _).
Qed.

Lemma receiver_turn R ev evs t io :
  st_endpoint t = Endpoint_Receiver R -> io_open io -> event_ok ev -> (forall k, ready R (ev :: evs) k) ->
  exists io' t' R' msgs items, stream_turn ev io t = Done (io', t', tt) /\
    st_endpoint t' = Endpoint_Receiver R' /\ same_session t t' /\ io_adds io io' msgs items /\
    (forall k, ready R' evs k) /\ (forall k, turn_result R R' ev items k).
Proof.
  intros Hep Ho Hev Hready. unfold stream_turn.
  rewrite (sess_bind_Done _ _ _ _ _ _ _ (eq_refl : get_state io t = Done (io, t, t))).
  assert (Hquiet : forall t', st_endpoint t' = Endpoint_Receiver R -> same_session t t' ->
    (forall k, event_op k ev = None) ->
    exists io' t'' R' msgs items, Done (io, t', tt) = Done (io', t'', tt) /\
      st_endpoint t'' = Endpoint_Receiver R' /\ same_session t t'' /\ io_adds io io' msgs items /\
      (forall k, ready R' evs k) /\ (forall k, turn_result R R' ev items k)).
  { intros t' Ht' Hs Hno. exists io, t', R, [], []. split; [done|]. split; [done|]. split; [done|].
    split; [apply io_adds_refl|]. by apply turn_none. }
  destruct ev as [m dir| |id retry p| | | | |]; rewrite ?Hep; try (by apply Hquiet); try (by apply (Hquiet t)).
  - destruct Hev as (p&conn&Hin). pose proof (ic_source _ _ _ Hin) as Hsrc.
    assert (Hevop : forall k, event_op k (StreamMsg m dir) = if decide (agent_key p = k) then msg_op m else None).
    { intros k. simpl. by rewrite Hsrc. }
    destruct (msg_op m) as [o|] eqn:Hop.
    + destruct (ready_exec R (StreamMsg m dir) evs (agent_key p) o (Hready _)) as
        (b'&out&rtx&Hex&Hout&Hb'&_&Hst);
        [by rewrite Hevop, decide_True|by eapply msg_op_from|].
      destruct (from_slim_done m (st_session_id t) R (st_source t) (st_max_retries t) (st_timeout t) p conn o
        b' out rtx io t Hin Hop Ho Hex (entries_deliverable _ _ Hout)) as (io'&R'&Hs&Ha&Hk&Hb).
      destruct (turn_one R R' (StreamMsg m dir) evs (st_session_id t) (agent_key p) o b' out rtx Hready)
        as [Hr Ht]; [by rewrite Hevop, decide_True|intros k Hk'; rewrite Hevop; by rewrite decide_False|
          done|done|done|done|intros k Hx; apply Hk; by right|apply Hk; by left|done|].
      eexists io', (set_endpoint (Endpoint_Receiver R') t), R', _, _.
      split; [by destruct dir; rewrite (sess_bind_Done _ _ _ _ _ _ _ Hs)|].
      split; [done|]. split; [done|]. split; [exact Ha|]. done.
    + destruct (from_slim_other m (st_session_id t) R (st_source t) (st_max_retries t) (st_timeout t) p conn
        io t Hin Hop) as (R'&Hs&Hk&Hb).
      destruct (turn_none R R' (StreamMsg m dir) evs Hready) as [Hr Ht];
        [intros k; rewrite Hevop; by destruct (decide _)|intros k Hx; apply Hk; by right|done|].
      exists io, (set_endpoint (Endpoint_Receiver R') t), R', [], [].
      split; [by destruct dir; rewrite (sess_bind_Done _ _ _ _ _ _ _ Hs)|].
      split; [done|]. split; [done|]. split; [apply io_adds_refl|done].
  - unfold rtx_turn. destruct retry.
    + destruct (rtx_timeout_done R p id io t Ho) as (io'&R'&msgs&Hs&Ha&Hk&Hb&_).
      destruct (turn_none R R' (RtxTimer id true p) evs Hready) as [Hr Ht]; [done|intros k; apply Hk|done|].
      exists io', (set_endpoint (Endpoint_Receiver R') t), R', msgs, [].
      rewrite (sess_bind_Done _ _ _ _ _ _ _ Hs).
      split; [done|]. split; [done|]. split; [done|]. split; [exact Ha|]. exact (conj Hr Ht).
    + assert (Hevop : forall k, event_op k (RtxTimer id false p) =
        if decide (agent_key p = k) then Some (OpLost id) else None) by done.
      destruct (ready_exec R (RtxTimer id false p) evs (agent_key p) (OpLost id) (Hready _)) as
        (b'&out&rtx&Hex&Hout&Hb'&Hsome&Hst); [by rewrite Hevop, decide_True|done|].
      destruct (rtx_failure_done R p id (st_session_id t) b' out rtx io t Ho (Hsome id eq_refl) Hex
        (entries_deliverable _ _ Hout)) as (io'&R'&Hs&Ha&Hk&Hb).
      destruct (turn_one R R' (RtxTimer id false p) evs (st_session_id t) (agent_key p) (OpLost id)
        b' out rtx Hready) as [Hr Ht]; [by rewrite Hevop, decide_True|intros k Hk'; rewrite Hevop; by rewrite decide_False|
          done|done|done|done|intros k Hx; by apply Hk|apply Hk, (Hsome id eq_refl)|done|].
      exists io', (set_endpoint (Endpoint_Receiver R') t), R', [], (app_item (st_session_id t) <$> out).
      rewrite (sess_bind_Done _ _ _ _ _ _ _ Hs).
      split; [done|]. split; [done|]. split; [done|]. split; [exact Ha|]. exact (conj Hr Ht).
Qed.
End producers.

Section receiver_runs.
Context `{Hasher, BuildProfile}.

Lemma receiver_run evs : forall R t io,
  st_endpoint t = Endpoint_Receiver R -> io_open io -> Forall event_ok evs -> (forall k, ready R evs k) ->
  exists io' t' R' msgs items, stream_run evs io t = Done (io', t', tt) /\
    st_endpoint t' = Endpoint_Receiver R' /\ same_session t t' /\ io_adds io io' msgs items /\
    forall k, exists outs rtxs,
      rb_run (buffer_of R k) (omap (event_op k) evs) = Done (buffer_of R' k, outs, rtxs) /\
      omap (delivered k) items = omap (fun o => o) outs.
Proof.
  induction evs as [|ev evs IH]; intros R t io Hep Ho Hok Hready.
  { exists io, t, R, [], []. split; [done|]. split; [done|]. split; [done|]. split; [apply io_adds_refl|].
    intros k. by exists [], []. }
  inversion Hok as [|? ? Hev Hevs]; subst.
  destruct (receiver_turn R ev evs t io Hep Ho Hev Hready) as
    (io1&t1&R1&msgs1&items1&Hs1&Hep1&Hsame1&Ha1&Hready1&Hres1).
  destruct (IH R1 t1 io1 Hep1 (io_adds_open _ _ _ _ Ha1 Ho) Hevs Hready1) as
    (io2&t2&R2&msgs2&items2&Hs2&Hep2&Hsame2&Ha2&Hres2).
  exists io2, t2, R2, (msgs1 ++ msgs2), (items1 ++ items2).
  split; [cbn [stream_run]; by rewrite (sess_bind_Done _ _ _ _ _ _ _ Hs1)|]. split; [done|].
  split; [destruct Hsame1 as (?&?&?&?), Hsame2 as (?&?&?&?); repeat split; congruence|].
  split; [by eapply io_adds_trans|].
  intros k. destruct (Hres1 k) as (out&rtx&Hex&Hout), (Hres2 k) as (outs&rtxs&Hrun&Houts).
  rewrite omap_app, Hout, Houts. cbn [omap list_omap]. unfold exec_opt in Hex.
  destruct (event_op k ev) as [o|].
  - exists (out ++ outs), (rtx ++ rtxs). cbn [rb_run]. rewrite Hex. cbn [mbind panics_bind]. rewrite Hrun.
    by rewrite omap_app.
  - injection Hex as Hb <- <-. exists outs, rtxs. by rewrite Hb.
Qed.

Lemma ready_new evs : (forall k, stream_ok false (omap (event_op k) evs)) -> forall k, ready ∅ evs k.
Proof.
  intros Hok k. exists false. split; [done|].
  assert (Hb : buffer_of (∅ : ReceiverState) k = ReceiverBuffer_default).
  { unfold buffer_of, receiver_of. by rewrite lookup_empty. }
  rewrite Hb. split; [apply rb_inv_default|]. split; [constructor|done].
Qed.
End receiver_runs.

(** C25: A receiving session with open channels handles any interleaving of the
    messages of any number of producers, in any order, duplicated, lost,
    retransmitted or announced by beacons, and of its own retransmission timers
    without panicking, as long as for no producer a loss is reported, by the
    network or by a timer that has used up its retries, before its first message
    ([stream_ok]; [beacon_then_failure_panics] is what happens otherwise), and the
    messages have a source with an agent id, an incoming connection and a session
    header ([event_ok]) with a 32-bit id. It serves each producer as if it were
    alone: before the first message of a producer the application gets nothing
    of it; then it gets that message, and after it messages of the producer in
    the order of their ids, each at most once, without gap but for the ids
    declared lost, and as soon as nothing before them is missing ([delivers]). *)
Theorem streams_delivered_in_order `{Hasher, BuildProfile} evs t io :
  st_endpoint t = Endpoint_Receiver ∅ -> io_open io -> ob_sent (io_app io) = [] ->
  Forall event_ok evs -> (forall k, stream_ok false (omap (event_op k) evs)) ->
  exists io' t', stream_run evs io t = Done (io', t', tt) /\
    forall k, exists outs, omap (delivered k) (ob_sent (io_app io')) = omap (fun o => o) outs /\
      delivers (omap (event_op k) evs) outs.
Proof.
  intros Hep Ho Hemp Hok Hstream.
  destruct (receiver_run evs ∅ t io Hep Ho Hok (ready_new evs Hstream)) as
    (io'&t'&R'&msgs&items&Hs&_&_&[_ Ha]&Hres).
  exists io', t'. split; [done|]. intros k. destruct (Hres k) as (outs&rtxs&Hrun&Houts).
  destruct (receiver_delivers _ (Hstream k)) as (b'&outs'&rtxs'&Hrun'&Hdel&_).
  assert (Hb : buffer_of (∅ : ReceiverState) k = ReceiverBuffer_default).
  { unfold buffer_of, receiver_of. by rewrite lookup_empty. }
  rewrite Hb, Hrun' in Hrun. injection Hrun as _ <- _.
  exists outs'. rewrite Ha, Hemp. cbn [ob_sent app]. by rewrite Houts.
Qed.

(** ** Examples and limits *)
Definition stream_config : StreamingConfiguration := mkStreamingConfiguration Receiver (mkAgentType 1 2 5 None) 10 1000.
Definition stream_common (a : Agent) : Common :=
  Common_new 3 Receiver (SessionConfig_Streaming stream_config) a None.
Definition receiver_task : StreamTask := mkStreamTask 3 demo_agent 10 1000 (Endpoint_Receiver ∅) false false.
Definition stream_io : SessionIo := mkSessionIo (mkOutbox true []) (mkOutbox true []) TimerSystem_empty 0.
Definition arriving (t : SessionHeaderType) (id : N) : StreamEvent :=
  StreamMsg (sm_message (demo_session_msg t id)) North.
Definition stream_producer : Agent := mkAgent (mkAgentType 1 2 3 None) 4.

(** Message 4, message 6, a retry for 5, its retransmission. *)
Definition stream_events : list StreamEvent :=
  [arriving Stream 4; arriving Stream 6; RtxTimer 5 true stream_producer; arriving RtxReply 5].

Lemma streams_delivered_in_order_witness :
  exists io' t', @stream_run toy_hasher checked_build stream_events stream_io receiver_task = Done (io', t', tt) /\
    exists outs, omap (delivered (agent_key stream_producer)) (ob_sent (io_app io')) =
      sm_message (demo_session_msg Stream 4) :: omap (fun o => o) outs /\ in_order 4 outs ∅ /\ 2 <= length outs.
Proof.
  set (ops := [OpReceived (sm_message (demo_session_msg Stream 6)); OpReceived (sm_message (demo_session_msg RtxReply 5))]).
  assert (Hops : omap (event_op (agent_key stream_producer)) stream_events =
    OpReceived (sm_message (demo_session_msg Stream 4)) :: ops) by reflexivity.
  destruct (@streams_delivered_in_order toy_hasher checked_build stream_events receiver_task stream_io)
    as (io'&t'&Hrun&Hres); [reflexivity|split; reflexivity|reflexivity| | |].
  - repeat constructor; eexists stream_producer, 9%N; (split; [reflexivity|reflexivity|by eexists..]).
  - intros k. destruct (decide (agent_key stream_producer = k)) as [<-|Hne].
    + rewrite Hops. repeat split; (eexists; split; [reflexivity|]); by vm_compute.
    + assert (Hk : agent_key (mkAgent (mkAgentType 1 2 3 None) 4) <> k) by exact Hne.
      assert (He : omap (event_op k) stream_events = []); [|by rewrite He].
      unfold stream_events, arriving. cbn -[agent_key].
      by repeat rewrite (decide_False (P := agent_key (mkAgent (mkAgentType 1 2 3 None) 4) = k) _ _ Hk).
  - exists io', t'. split; [exact Hrun|].
    destruct (Hres (agent_key stream_producer)) as (outs&Hout&Hdel). rewrite Hops in Hdel.
    destruct Hdel as [_ (id&rest&Hid&->&Hord&Hall)]. vm_compute in Hid. injection Hid as <-.
    exists rest. split; [exact Hout|]. split; [exact Hord|].
    specialize (Hall 6%N). assert (6 <= 4 + N.of_nat (length rest))%N; [|lia].
    apply Hall. intros x Hx. assert (x = 5%N \/ x = 6%N) as [-> | ->] by lia.
    + exists (sm_message (demo_session_msg RtxReply 5)). split; [right; right; left|reflexivity].
    + exists (sm_message (demo_session_msg Stream 6)). split; [right; left|reflexivity].
Defined.

(** A receiver that hears of a stream by a beacon asks for the message the
    beacon names; when the retries for it are used up before any message of the
    stream came in, the receiver's task panics in a build with overflow
    checks. *)
Theorem beacon_then_failure_panics `{Hasher} :
  exists io t, @stream_run _ checked_build [arriving BeaconStream 3] stream_io receiver_task = Done (io, t, tt) /\
    (get_id <$> ob_sent (io_slim io)) = [Done 3%N] /\
    @stream_run _ checked_build [RtxTimer 3 false stream_producer] io t =
      Panic "attempt to add with overflow"%string.
Proof. eexists _, _. split; [vm_compute; reflexivity|]. split; vm_compute; reflexivity. Qed.
