(* ===== verification/StreamingRecovery.v ===== *)
(** * Streaming sessions: the producer, and recovery from losses

    A producing session against the list of the messages it was given, and a
    producer and a receiver together over a network that loses messages. *)
From stdpp Require Import base list gmap strings numbers option sets.
From S2P Require Import Prelude Proto Encoder Messages Timer Session.
From S2P Require Import ReceiverBuffer ProducerBuffer Streaming StreamingProofs.
Open Scope slim_scope.

(** ** The producing side *)

(** What the application gives to a stream: a publication with a payload and a
    destination, from the session's agent. *)
Definition app_ok (source : Agent) (m : ProtoMessage) : Prop :=
  proper m /\ (exists c, get_payload m = Done (Some c)) /\
  (exists a, get_source m = Done a /\ agent_key a = agent_key source) /\
  exists h dst, get_slim_header m = Done h /\ sh_destination h = Some dst.

(** The message with number [n]. *)
Definition stamped (n : N) (m : ProtoMessage) : ProtoMessage :=
  map_slim (SlimHeader_set_fanout STREAM_BROADCAST)
    (map_session (SessionHeader_set_message_id n) (map_session (SessionHeader_set_header_type Stream) m)).
Definition numbered_from (base : nat) (ms : list ProtoMessage) : list ProtoMessage :=
  imap (fun i m => stamped (N.of_nat (base + i)) m) ms.
Definition sent (ms : list ProtoMessage) : list ProtoMessage := numbered_from 0 ms.

Lemma stamped_facts n m source :
  app_ok source m ->
  get_id (stamped n m) = Done n /\ get_header_type (stamped n m) = Done Stream /\
  get_payload (stamped n m) = get_payload m /\ get_source (stamped n m) = get_source m /\
  get_error (stamped n m) = get_error m.
Proof.
  intros ((md&p&h&sh&src&->&Hh&Hs&_)&_). unfold stamped, map_slim, map_session; simpl. rewrite Hs; simpl.
  unfold get_id, get_header_type, get_session_header, get_payload, get_source, get_error, get_slim_header; simpl.
  rewrite Hh. done.
Qed.

Lemma stamped_done n m source :
  app_ok source m ->
  exists m1 m2, set_header_type Stream m = Done m1 /\ set_message_id n m1 = Done m2 /\
    set_fanout STREAM_BROADCAST m2 = Done (stamped n m).
Proof.
  intros [Hp _]. unfold set_header_type, set_message_id, set_fanout.
  destruct (proper_session (SessionHeader_set_header_type Stream) m Hp) as [H1 Hp1].
  destruct (proper_session (SessionHeader_set_message_id n) _ Hp1) as [H2 Hp2].
  destruct (proper_slim (SlimHeader_set_fanout STREAM_BROADCAST) _ (fun h => eq_refl) Hp2) as [H3 _].
  by eexists _, _.
Qed.

Lemma stamped_name `{Hasher} n m source : app_ok source m -> exists name, get_name (stamped n m) = Done name.
Proof.
  intros ((md&p&h&sh&src&->&Hh&Hs&_)&_&_&h'&dst&Hh'&Hd).
  unfold get_slim_header in Hh'; simpl in Hh'. rewrite Hh in Hh'. injection Hh' as <-.
  unfold stamped, map_slim, map_session; simpl. rewrite Hh; simpl.
  unfold get_name, get_slim_header, SlimHeader_get_dst; simpl. rewrite Hd. by eexists.
Qed.

(** The last messages, newest first. *)
Definition window_of (ms : list ProtoMessage) : list ProtoMessage := take 500 (reverse (sent ms)).

Lemma sent_snoc ms m : sent (ms ++ [m]) = sent ms ++ [stamped (N.of_nat (length ms)) m].
Proof. unfold sent, numbered_from. rewrite imap_app. simpl. by rewrite Nat.add_0_r. Qed.

Lemma sent_lookup ms i : sent ms !! i = (fun m => stamped (N.of_nat i) m) <$> ms !! i.
Proof. unfold sent, numbered_from. rewrite list_lookup_imap. done. Qed.
Lemma length_sent ms : length (sent ms) = length ms.
Proof. apply length_imap. Qed.

Lemma window_of_lookup source ms x m :
  Forall (app_ok source) ms -> x ∈ window_of ms -> get_id x = Done m -> (m < N.of_nat (length ms))%N.
Proof.
  intros Hok Hx Hid. unfold window_of in Hx. apply elem_of_take in Hx as (i&Hi&_).
  apply list_elem_of_lookup_2 in Hi. rewrite elem_of_reverse in Hi. apply list_elem_of_lookup in Hi as [j Hj].
  rewrite sent_lookup in Hj. destruct (ms !! j) as [m0|] eqn:Hm0; [|done]. injection Hj as <-.
  pose proof (Forall_lookup_1 _ _ _ _ Hok Hm0) as Ho.
  rewrite (proj1 (stamped_facts _ _ _ Ho)) in Hid. injection Hid as <-.
  apply lookup_lt_Some in Hm0. lia.
Qed.

Lemma window_of_push source ms m :
  Forall (app_ok source) ms -> app_ok source m ->
  window_push 500 (window_of ms) (stamped (N.of_nat (length ms)) m) = window_of (ms ++ [m]).
Proof.
  intros Hok Hm. unfold window_push. rewrite (proj1 (stamped_facts _ _ _ Hm)).
  destruct (window_get (window_of ms) (N.of_nat (length ms))) as [x|] eqn:Hg.
  - unfold window_get in Hg. apply find_some in Hg as [Hin Hb]. apply bool_decide_eq_true in Hb.
    apply list_elem_of_In in Hin. pose proof (window_of_lookup _ _ _ _ Hok Hin Hb). lia.
  - unfold window_of. rewrite sent_snoc, reverse_app. simpl. by rewrite take_take.
Qed.

(** The message of number [i], if it is among the last 500. *)
Lemma window_of_get source ms i :
  Forall (app_ok source) ms -> window_get (window_of ms) (N.of_nat i) =
    if decide (length ms <= i + 500) then (fun m => stamped (N.of_nat i) m) <$> ms !! i else None.
Proof.
  intros Hok.
  assert (Hlook : forall j x, window_of ms !! j = Some x ->
    j < 500 /\ j < length ms /\ exists m, ms !! (length ms - 1 - j) = Some m /\
      x = stamped (N.of_nat (length ms - 1 - j)) m).
  { intros j x Hj. unfold window_of in Hj. apply lookup_take_Some in Hj as [Hj Hlt].
    pose proof (lookup_lt_Some _ _ _ Hj) as Hl. rewrite length_reverse, length_sent in Hl.
    rewrite reverse_lookup in Hj by (by rewrite length_sent). rewrite length_sent in Hj.
    replace (length ms - S j) with (length ms - 1 - j) in Hj by lia. rewrite sent_lookup in Hj.
    destruct (ms !! (length ms - 1 - j)) as [m|]; [|done]. injection Hj as <-. eauto. }
  assert (Hids : forall j x id, window_of ms !! j = Some x -> get_id x = Done id ->
    id = N.of_nat (length ms - 1 - j)).
  { intros j x id Hj Hid. destruct (Hlook j x Hj) as (_&_&m&Hm&->).
    rewrite (proj1 (stamped_facts _ _ _ (Forall_lookup_1 _ _ _ _ Hok Hm))) in Hid. by injection Hid. }
  assert (Hnd : forall i j m m', window_of ms !! i = Some m -> window_of ms !! j = Some m' ->
    get_id m = get_id m' -> i = j).
  { intros i' j m m' Hi Hj Heq. destruct (Hlook i' m Hi) as (_&?&m0&Hm0&->).
    rewrite (proj1 (stamped_facts _ _ _ (Forall_lookup_1 _ _ _ _ Hok Hm0))) in Heq. symmetry in Heq.
    pose proof (Hids _ _ _ Hj Heq). destruct (Hlook j m' Hj) as (_&?&_). lia. }
  destruct (decide (length ms <= i + 500)) as [Hle|Hgt].
  - destruct (ms !! i) as [m|] eqn:Hm; simpl.
    + apply (window_get_Some _ _ _ Hnd). pose proof (lookup_lt_Some _ _ _ Hm) as Hlt.
      exists (length ms - 1 - i).
      split; [|by apply (stamped_facts _ _ source), (Forall_lookup_1 _ _ _ _ Hok Hm)].
      unfold window_of. rewrite lookup_take_lt by lia.
      rewrite reverse_lookup by (rewrite length_sent; lia). rewrite length_sent.
      replace (length ms - S (length ms - 1 - i)) with i by lia. by rewrite sent_lookup, Hm.
    + destruct (window_get _ _) as [x|] eqn:Hg; [|done].
      apply (window_get_Some _ _ _ Hnd) in Hg as (j&Hj&Hid). pose proof (Hids _ _ _ Hj Hid).
      destruct (Hlook j x Hj) as (_&?&_). apply lookup_ge_None in Hm. lia.
  - destruct (window_get _ _) as [x|] eqn:Hg; [|done].
    apply (window_get_Some _ _ _ Hnd) in Hg as (j&Hj&Hid). pose proof (Hids _ _ _ Hj Hid).
    destruct (Hlook j x Hj) as (?&?&_). lia.
Qed.

(** ** What a producer sends *)
Definition blob_of (m : ProtoMessage) : list Byte.byte :=
  match get_payload m with Done (Some c) => co_blob c | _ => [] end.

(** The message of number [i], if the producer still has it. *)
Definition recent (ms : list ProtoMessage) (i : N) : option ProtoMessage :=
  if decide (length ms <= N.to_nat i + 500) then ms !! N.to_nat i else None.

(** The answer to the request for [i] of [to], come in on [conn]. *)
Definition rtx_answer (source : Agent) (sid : N) (ms : list ProtoMessage) (to : Agent) (conn i : N)
    : ProtoMessage :=
  let flags := with_forward_to SlimHeaderFlags_default conn in
  new_publish_with_headers
    (Some (SlimHeader_new source (ag_agent_type to) (Some (ag_agent_id to))
       (Some (match recent ms i with Some _ => with_fanout flags 1 | None => with_error flags true end))))
    (Some (SessionHeader_new (SessionHeaderType_to_i32 RtxReply) sid i)) ""
    (match recent ms i with Some m => blob_of m | None => [] end).

Section producing.
Context `{Hasher, BuildProfile}.

(** Where the stream goes: the destination of its first message. *)
Definition topic_of (ms : list ProtoMessage) : AgentType :=
  match ms with
  | [] => AgentType_default
  | m :: _ => match get_name m with Done (name, _) => name | Panic _ => AgentType_default end
  end.
Definition beacon_of (source : Agent) (sid : N) (ms : list ProtoMessage) : ProtoMessage :=
  new_publish_with_headers
    (Some (SlimHeader_new source (topic_of ms) None
             (Some (with_fanout SlimHeaderFlags_default STREAM_BROADCAST))))
    (Some (SessionHeader_new (SessionHeaderType_to_i32 BeaconStream) sid (N.of_nat (length ms) - 1))) "" [].

(** What a producer that has been given [ms] sends for the events [evs]. *)
Fixpoint produced (source : Agent) (sid : N) (ms : list ProtoMessage) (evs : list StreamEvent)
    : list ProtoMessage :=
  match evs with
  | [] => []
  | StreamMsg m South :: evs =>
      stamped (N.of_nat (length ms)) m :: produced source sid (ms ++ [m]) evs
  | StreamMsg q North :: evs =>
      match get_header_type q, get_id q, get_source q, get_incoming_conn q with
      | Done RtxRequest, Done i, Done to, Done conn => [rtx_answer source sid ms to conn i]
      | _, _, _, _ => []
      end ++ produced source sid ms evs
  | ProdTimer :: evs => beacon_of source sid ms :: produced source sid ms evs
  | _ :: evs => produced source sid ms evs
  end.

(** The events a producer meets: its application's messages, messages from the
    network, and its timer, which is started by the first message. *)
Fixpoint producer_events (source : Agent) (ms : list ProtoMessage) (evs : list StreamEvent) : Prop :=
  match evs with
  | [] => True
  | StreamMsg m South :: evs => app_ok source m /\ producer_events source (ms ++ [m]) evs
  | StreamMsg q North :: evs => (exists to conn, incoming to conn q) /\ producer_events source ms evs
  | ProdTimer :: evs => ms <> [] /\ producer_events source ms evs
  | _ :: evs => producer_events source ms evs
  end.

Definition app_messages (evs : list StreamEvent) : list ProtoMessage :=
  omap (fun ev => match ev with StreamMsg m South => Some m | _ => None end) evs.

(** The task of a producer that has been given [ms]. *)
Record producing (ms : list ProtoMessage) (t : StreamTask) : Prop := {
  pd_ok : Forall (app_ok (st_source t)) ms;
  pd_state : exists ps, st_endpoint t = Endpoint_Producer ps /\ pb_rep (ps_buffer ps) (window_of ms) /\
    pb_capacity (ps_buffer ps) = 500 /\ ps_next_id ps = N.of_nat (length ms) /\
    pb_destination_name (ps_buffer ps) = topic_of ms /\ (ms <> [] -> pb_map (ps_buffer ps) <> ∅);
}.

Lemma recent_get source ms i :
  Forall (app_ok source) ms -> window_get (window_of ms) i = stamped i <$> recent ms i.
Proof.
  intros Hok. rewrite <- (N2Nat.id i) at 1. rewrite (window_of_get source) by done. unfold recent.
  destruct (decide _); [|done]. by rewrite N2Nat.id.
Qed.

(** A push keeps the stream's destination. *)
Lemma push_topic b m id n b' :
  ProducerBuffer_push b m = Done (b', true) -> get_id m = Done id -> get_name m = Done n ->
  pb_destination_name b' = (if decide (pb_map b = ∅) then n.1 else pb_destination_name b) /\
  is_Some (pb_map b' !! id).
Proof.
  intros Hp Hid Hn. unfold ProducerBuffer_push in Hp. rewrite Hid, Hn in Hp. destruct n as [name dst].
  destruct (decide (pb_map b = ∅)) as [He|He]; cbn [mbind panics_bind] in Hp.
  - rewrite He, lookup_empty in Hp. rewrite decide_False in Hp by (by intros []).
    destruct (pb_buffer b !! pb_next b) as [slot|]; [|done]. cbn [expect mbind panics_bind] in Hp.
    destruct (match slot with Some _ => _ | None => _ end) as [map|]; [|done]. cbn [mbind panics_bind] in Hp.
    injection Hp as <-. split; [done|]. simpl. rewrite lookup_insert_eq. by eexists.
  - destruct (decide (is_Some (pb_map b !! id))) as [Hs|Hs]; [by injection Hp as <-|].
    destruct (pb_buffer b !! pb_next b) as [slot|]; [|done]. cbn [expect mbind panics_bind] in Hp.
    destruct (match slot with Some _ => _ | None => _ end) as [map|]; [|done]. cbn [mbind panics_bind] in Hp.
    injection Hp as <-. split; [done|]. simpl. rewrite lookup_insert_eq. by eexists.
Qed.

Lemma stamped_get_name n m : get_name (stamped n m) = get_name m.
Proof.
  unfold stamped, get_name, get_slim_header, try_get_slim_header, map_slim, map_session.
  destruct m as [md [[| |p]|]]; [done|done| |done]. simpl. destruct p as [[h|] sh c]; done.
Qed.

(** The application's next message. *)
Lemma producer_app_turn ms m t io :
  producing ms t -> app_ok (st_source t) m -> (N.of_nat (length ms) < u32_max)%N -> io_open io ->
  exists io' t', stream_turn (StreamMsg m South) io t = Done (io', t', tt) /\
    io_adds io io' [stamped (N.of_nat (length ms)) m] [] /\ producing (ms ++ [m]) t' /\ same_session t t'.
Proof.
  intros [Hok (ps&Hep&Hrep&Hcap&Hnext&Htopic&Hmap)] Hm Hlt Ho.
  set (x := stamped (N.of_nat (length ms)) m).
  destruct (stamped_done (N.of_nat (length ms)) m _ Hm) as (m1&m2&H1&H2&H3).
  destruct (stamped_facts (N.of_nat (length ms)) m _ Hm) as (Hid&_).
  destruct (stamped_name (N.of_nat (length ms)) m _ Hm) as [name Hname].
  destruct (ProducerBuffer_push_refines (ps_buffer ps) (window_of ms) x Hrep) as (b'&Hpush&Hrep'&Hcap');
    [by eexists|by eexists|].
  destruct (push_topic _ _ _ _ _ Hpush Hid Hname) as [Hdst Hin].
  assert (Hincr : incr_u32 (ps_next_id ps) = Done (ps_next_id ps + 1)%N).
  { unfold incr_u32. rewrite decide_False; [done|]. rewrite Hnext. lia. }
  destruct (Timer_reset (io_timers io) (ps_timer ps)) as [sys tm] eqn:Htm.
  exists (io_with_timers (io_sent io [x] []) sys),
    (set_endpoint (Endpoint_Producer (mkProducerState b' (ps_next_id ps + 1) tm)) t).
  split; [|split; [done|split; [|done]]].
  - unfold stream_turn. rewrite (sess_bind_Done _ _ _ _ _ _ _ (eq_refl : get_state io t = Done (io, t, t))).
    rewrite Hep. unfold process_message_from_app. erewrite sess_bind_Done; [done|].
    rewrite (sess_bind_Done _ _ _ _ _ _ _ (sess_lift_Done _ _ _ _ H1)). rewrite Hnext.
    rewrite (sess_bind_Done _ _ _ _ _ _ _ (sess_lift_Done _ _ _ _ H2)).
    rewrite (sess_bind_Done _ _ _ _ _ _ _ (sess_lift_Done _ _ _ _ H3)).
    rewrite (sess_bind_Done _ _ _ _ _ _ _ (sess_lift_Done _ _ _ _ Hpush)). rewrite <- Hnext.
    rewrite (sess_bind_Done _ _ _ _ _ _ _ (sess_lift_Done _ _ _ _ Hincr)).
    rewrite (sess_bind_Done _ _ _ _ _ _ _ (send_slim_open _ _ _ (proj1 Ho))). cbv beta iota.
    erewrite (sess_bind_Done (mret tt)) by done.
    erewrite sess_bind_Done; [done|]. unfold reset_timer. cbn [io_timers io_sent]. by rewrite Htm, Hnext.
  - split; [apply Forall_app; split; [done|by apply Forall_singleton]|].
    eexists. split; [done|]. simpl. rewrite Hcap in Hrep'.
    unfold x in Hrep'. rewrite (window_of_push (st_source t)) in Hrep' by done.
    split; [done|]. split; [by rewrite Hcap'|]. split; [rewrite length_app; simpl; lia|].
    split; [|intros _ He; rewrite He, lookup_empty in Hin; by destruct Hin].
    rewrite Hdst. destruct (decide (pb_map (ps_buffer ps) = ∅)) as [He|Hne].
    + destruct ms as [|m0 ms]; [|by destruct Hmap].
      simpl. rewrite stamped_get_name in Hname. rewrite Hname. by destruct name.
    + destruct ms as [|m0 ms]; [|by rewrite Htopic].
      destruct Hne. apply map_empty. intros i. apply eq_None_not_Some. intros [pos Hpos].
      apply (pr_map _ _ Hrep) in Hpos as (j&m'&Hj&_). done.
Qed.

(** A request for a retransmission. *)
Lemma producer_request_turn ms q to conn i t io :
  producing ms t -> incoming to conn q -> get_header_type q = Done RtxRequest -> get_id q = Done i ->
  io_open io ->
  stream_turn (StreamMsg q North) io t =
    Done (io_sent io [rtx_answer (st_source t) (st_session_id t) ms to conn i] [], t, tt).
Proof.
  intros [Hok (ps&Hep&Hrep&_)] [Hsrc Hconn _ _ _] Ht Hid Ho. unfold stream_turn.
  rewrite (sess_bind_Done _ _ _ _ _ _ _ (eq_refl : get_state io t = Done (io, t, t))). rewrite Hep.
  rewrite (sess_bind_Done _ _ _ _ _ _ _ (sess_lift_Done _ _ _ _ Ht)). unfold process_incoming_rtx_request.
  rewrite (sess_bind_Done _ _ _ _ _ _ _ (sess_lift_Done _ _ _ _ Hid)).
  rewrite (sess_bind_Done _ _ _ _ _ _ _ (sess_lift_Done _ _ _ _ Hsrc)).
  rewrite (sess_bind_Done _ _ _ _ _ _ _ (sess_lift_Done _ _ _ _ Hconn)).
  rewrite (sess_bind_Done _ _ _ _ _ _ _ (sess_lift_Done _ _ _ _ (ProducerBuffer_get_refines _ _ i Hrep))).
  rewrite (recent_get (st_source t)) by done. unfold rtx_answer.
  destruct (recent ms i) as [m|] eqn:Hm; cbn [fmap option_fmap option_map].
  - assert (Happ : app_ok (st_source t) m).
    { unfold recent in Hm. destruct (decide _); [|done]. by apply (Forall_lookup_1 _ _ _ _ Hok Hm). }
    destruct (stamped_facts i m _ Happ) as (_&_&Hp&_). pose proof Happ as (_&[c Hc]&_).
    rewrite Hc in Hp. rewrite (sess_bind_Done _ _ _ _ _ _ _ (sess_lift_Done _ _ _ _ Hp)).
    unfold blob_of. rewrite Hc. by rewrite (sess_bind_Done _ _ _ _ _ _ _ (send_slim_open _ _ _ (proj1 Ho))).
  - by rewrite (sess_bind_Done _ _ _ _ _ _ _ (send_slim_open _ _ _ (proj1 Ho))).
Qed.

(** The producer's timer. *)
Lemma producer_beacon_turn ms t io :
  producing ms t -> ms <> [] -> io_open io ->
  stream_turn ProdTimer io t = Done (io_sent io [beacon_of (st_source t) (st_session_id t) ms] [], t, tt).
Proof.
  intros [Hok (ps&Hep&_&_&Hnext&Htopic&_)] Hne Ho. unfold stream_turn.
  rewrite (sess_bind_Done _ _ _ _ _ _ _ (eq_refl : get_state io t = Done (io, t, t))). rewrite Hep.
  assert (Hd : decr_u32 (ps_next_id ps) = Done (N.of_nat (length ms) - 1)%N).
  { unfold decr_u32. rewrite Hnext, decide_False; [done|]. destruct ms; [done|]. simpl. lia. }
  rewrite (sess_bind_Done _ _ _ _ _ _ _ (sess_lift_Done _ _ _ _ Hd)). unfold send_beacon_msg.
  rewrite (sess_bind_Done _ _ _ _ _ _ _ (send_slim_open _ _ _ (proj1 Ho))). unfold beacon_of.
  by rewrite Htopic.
Qed.

Lemma producing_new common sys sys' t :
  StreamTask_new common Sender sys = Done (sys', t) -> producing [] t.
Proof.
  unfold StreamTask_new. destruct (cm_session_config common); try done. cbn [Endpoint_new].
  destruct (producer_timer Sender sys) as [sys1 tm]. intros [= <- <-]. split; [done|].
  eexists. split; [done|]. split; [|done]. apply (pb_rep_empty (ProducerBuffer_with_capacity 500)); [simpl; lia|done..].
Qed.

(** One event. *)
Lemma producer_turn ms ev evs t io :
  producing ms t -> producer_events (st_source t) ms (ev :: evs) ->
  (N.of_nat (length (ms ++ app_messages (ev :: evs))) <= u32_max)%N -> io_open io ->
  exists io' t' msgs, stream_turn ev io t = Done (io', t', tt) /\ io_adds io io' msgs [] /\
    producing (ms ++ app_messages [ev]) t' /\ same_session t t' /\
    producer_events (st_source t) (ms ++ app_messages [ev]) evs /\
    produced (st_source t) (st_session_id t) ms (ev :: evs) =
      msgs ++ produced (st_source t) (st_session_id t) (ms ++ app_messages [ev]) evs.
Proof.
  intros Hp Hev Hlen Ho. pose proof Hp as [Hok (ps&Hep&Hrest)].
  assert (Hquiet : forall t', stream_turn ev io t = Done (io, t', tt) -> st_endpoint t' = st_endpoint t ->
    same_session t t' -> app_messages [ev] = [] -> producer_events (st_source t) ms evs ->
    produced (st_source t) (st_session_id t) ms (ev :: evs) = produced (st_source t) (st_session_id t) ms evs ->
    exists io' t' msgs, stream_turn ev io t = Done (io', t', tt) /\ io_adds io io' msgs [] /\
      producing (ms ++ app_messages [ev]) t' /\ same_session t t' /\
      producer_events (st_source t) (ms ++ app_messages [ev]) evs /\
      produced (st_source t) (st_session_id t) ms (ev :: evs) =
        msgs ++ produced (st_source t) (st_session_id t) (ms ++ app_messages [ev]) evs).
  { intros t' Hs Ht' Hsame Happ Hevs Hpr. exists io, t', []. rewrite Happ, app_nil_r.
    split; [done|]. split; [apply io_adds_refl|].
    split; [split; [by rewrite (proj1 (proj2 Hsame))|exists ps; by rewrite Ht']|].
    by split. }
  destruct ev as [m [|]| |id retry p| | | | |]; cbn [producer_events] in Hev.
  all: try (eapply Hquiet; [unfold stream_turn;
    rewrite (sess_bind_Done _ _ _ _ _ _ _ (eq_refl : get_state io t = Done (io, t, t))), ?Hep; done|done..]).
  - destruct Hev as [(to&conn&Hin) Hevs]. pose proof Hin as [Hsrc Hconn [ty Hty] [i Hid] _].
    cbn [produced]. rewrite Hty, Hid, Hsrc, Hconn. cbn [app_messages omap list_omap]. rewrite app_nil_r.
    assert (Hq : ty <> RtxRequest -> stream_turn (StreamMsg m North) io t = Done (io, t, tt)).
    { intros Hne. unfold stream_turn.
      rewrite (sess_bind_Done _ _ _ _ _ _ _ (eq_refl : get_state io t = Done (io, t, t))), Hep.
      rewrite (sess_bind_Done _ _ _ _ _ _ _ (sess_lift_Done _ _ _ _ Hty)). by destruct ty. }
    destruct ty; try (exists io, t, []; split; [by apply Hq|]; split; [apply io_adds_refl|done]).
    eexists _, t, _. split; [by apply (producer_request_turn ms m to conn i)|].
    split; [apply io_adds_sent|]. done.
  - destruct Hev as [Hm Hevs].
    destruct (producer_app_turn ms m t io Hp Hm) as (io'&t'&Hs&Ha&Hp'&Hsame);
      [cbn [app_messages omap list_omap] in Hlen; rewrite length_app in Hlen; simpl in Hlen; lia|done|].
    exists io', t', [stamped (N.of_nat (length ms)) m]. done.
  - destruct Hev as [Hne Hevs]. eexists _, t, _. split; [by apply (producer_beacon_turn ms)|].
    split; [apply io_adds_sent|]. cbn [app_messages omap list_omap]. rewrite app_nil_r. done.
Qed.

Lemma producer_run evs : forall ms t io,
  producing ms t -> producer_events (st_source t) ms evs ->
  (N.of_nat (length (ms ++ app_messages evs)) <= u32_max)%N -> io_open io ->
  exists io' t', stream_run evs io t = Done (io', t', tt) /\
    io_adds io io' (produced (st_source t) (st_session_id t) ms evs) [] /\
    producing (ms ++ app_messages evs) t' /\ same_session t t'.
Proof.
  induction evs as [|ev evs IH]; intros ms t io Hp Hev Hlen Ho.
  { exists io, t. split; [done|]. split; [apply io_adds_refl|]. simpl. by rewrite app_nil_r. }
  destruct (producer_turn ms ev evs t io Hp Hev Hlen Ho) as (io1&t1&msgs&Hs1&Ha1&Hp1&Hsame1&Hev1&Heq).
  pose proof Hsame1 as (Hsid&Hsrc&_).
  assert (Happ : ms ++ app_messages (ev :: evs) = (ms ++ app_messages [ev]) ++ app_messages evs).
  { unfold app_messages. rewrite <- app_assoc, <- omap_app. done. }
  rewrite Happ in Hlen. rewrite <- Hsrc in Hev1.
  destruct (IH _ t1 io1 Hp1 Hev1 Hlen (io_adds_open _ _ _ _ Ha1 Ho)) as (io2&t2&Hs2&Ha2&Hp2&Hsame2).
  exists io2, t2. split; [cbn [stream_run]; by rewrite (sess_bind_Done _ _ _ _ _ _ _ Hs1)|].
  rewrite Heq, <- Hsrc, <- Hsid, Happ. split; [exact (io_adds_trans _ _ _ _ _ _ _ Ha1 Ha2)|]. split; [done|].
  destruct Hsame1 as (?&?&?&?), Hsame2 as (?&?&?&?); repeat split; congruence.
Qed.
End producing.

(** C22: A producing session sends, for any interleaving of its application's
    messages, requests for retransmission, other messages and expiries of its
    timer, exactly what the list of the messages it was given says: each
    message numbered by its position and addressed to all subscribers; for a
    request the message of that number if it is among the last 500, and an
    error otherwise; a beacon with the last number for each expiry of its
    timer. *)
Theorem producer_refines `{Hasher, BuildProfile} common sys sys' t io evs :
  StreamTask_new common Sender sys = Done (sys', t) -> io_open io ->
  producer_events (cm_source common) [] evs -> (N.of_nat (length (app_messages evs)) <= u32_max)%N ->
  exists io' t', stream_run evs io t = Done (io', t', tt) /\
    ob_sent (io_slim io') =
      ob_sent (io_slim io) ++ produced (cm_source common) (cm_id common) [] evs /\
    ob_sent (io_app io') = ob_sent (io_app io).
Proof.
  intros Hnew Ho Hev Hlen. pose proof (producing_new common sys sys' t Hnew) as Hp.
  assert (Ht : st_source t = cm_source common /\ st_session_id t = cm_id common).
  { unfold StreamTask_new in Hnew. destruct (cm_session_config common); try done.
    destruct (Endpoint_new Sender sys) as [? ?]. by injection Hnew as _ <-. }
  destruct Ht as [Hsrc Hsid]. rewrite <- Hsrc in Hev.
  destruct (producer_run evs [] t io Hp Hev Hlen Ho) as (io'&t'&Hs&[H1 H2]&_).
  exists io', t'. split; [done|]. rewrite H1, H2, <- Hsrc, <- Hsid. split; [done|]. simpl. by rewrite app_nil_r.
Qed.

(** ** Recovery *)

(** A message as the network hands it over: come in on [conn]; what the network
    uses for its own routing may have changed. *)
Record carried (conn : N) (x y : ProtoMessage) : Prop := {
  ca_session : get_session_header y = get_session_header x;
  ca_payload : get_payload y = get_payload x;
  ca_source : get_source y = get_source x;
  ca_error : get_error y = get_error x;
  ca_conn : get_incoming_conn y = Done conn;
}.

Lemma carried_id conn x y : carried conn x y -> get_id y = get_id x.
Proof. intros Hc. unfold get_id. by rewrite (ca_session _ _ _ Hc). Qed.
Lemma carried_type conn x y : carried conn x y -> get_header_type y = get_header_type x.
Proof. intros Hc. unfold get_header_type. by rewrite (ca_session _ _ _ Hc). Qed.
Lemma carried_blob conn x y : carried conn x y -> blob_of y = blob_of x.
Proof. intros Hc. unfold blob_of. by rewrite (ca_payload _ _ _ Hc). Qed.

(** An agent read back from a header. *)
Definition wire_agent (a : Agent) : Agent :=
  mkAgent (AgentType_from_proto (ProtoAgent_from_agent a)) (ag_agent_id a).

Lemma get_source_wire m a b : get_source m = Done a -> agent_key a = agent_key b -> a = wire_agent b.
Proof.
  unfold get_source. destruct (get_slim_header m) as [h|]; [|done]. cbn [mbind panics_bind].
  unfold SlimHeader_get_source. destruct (sh_source h) as [p|]; [|done].
  unfold Agent_from_proto. destruct (pa_agent_id p) as [id|]; [|done]. cbn [expect mbind panics_bind].
  intros [= <-] Hk. destruct b as [[o n t s] bid]. unfold agent_key, type_key, wire_agent in *. simpl in *.
  injection Hk as ? ? ? ?. unfold AgentType_from_proto. simpl. congruence.
Qed.

Lemma wire_key a : agent_key (wire_agent a) = agent_key a.
Proof. by destruct a as [[? ? ? ?] ?]. Qed.

(** *** The buffer *)
Section recovery.
Context `{BuildProfile}.
Abbreviation recv ys := (OpReceived <$> (ys : list ProtoMessage)).
Definition id_below (n : N) (y : ProtoMessage) : Prop := exists id, get_id y = Done id /\ (id < n)%N.

Lemma rb_run_app ops1 ops2 : forall b b1 outs1 rtxs1,
  rb_run b ops1 = Done (b1, outs1, rtxs1) ->
  rb_run b (ops1 ++ ops2) =
    ('(b2, outs2, rtxs2) ← rb_run b1 ops2; Done (b2, outs1 ++ outs2, rtxs1 ++ rtxs2)).
Proof.
  induction ops1 as [|o ops1 IH]; intros b b1 outs1 rtxs1; cbn [rb_run app].
  { intros [= <- <- <-]. by destruct (rb_run b ops2) as [[[? ?] ?]|]. }
  destruct (rb_exec b o) as [[b' [out rtx]]|]; cbn [mbind panics_bind]; [|done].
  destruct (rb_run b' ops1) as [[[b'' outs] rtxs]|] eqn:Hr; cbn [mbind panics_bind]; [|done].
  intros [= <- <- <-]. rewrite (IH _ _ _ _ Hr).
  destruct (rb_run b'' ops2) as [[[? ?] ?]|]; cbn [mbind panics_bind]; [|done]. by rewrite !app_assoc.
Qed.

Lemma recv_ok n ys started : (n <= 500)%N -> Forall (id_below n) ys -> stream_ok started (recv ys).
Proof.
  intros Hn Hf. revert started. induction Hf as [|y ys (id&Hid&Hlt) _ IH]; intros started; [done|].
  cbn [fmap list_fmap stream_ok]. split; [|apply IH]. exists id. split; [done|]. unfold is_u32, u32_max. lia.
Qed.

Lemma recv_rtx_below n ys : (n <= 500)%N -> Forall (id_below n) ys -> forall b b' outs rtxs,
  rb_inv b -> is_u32 (last_sent b) -> rb_run b (recv ys) = Done (b', outs, rtxs) ->
  Forall (fun x => (x < n)%N) rtxs.
Proof.
  intros Hn Hf. induction Hf as [|y ys (id&Hid&Hlt) _ IH]; intros b b' outs rtxs Hinv Hu; cbn [rb_run fmap list_fmap].
  { intros [= <- <- <-]. constructor. }
  assert (Hv : op_valid b (OpReceived y)).
  { exists id. split; [done|]. unfold is_u32, u32_max. lia. }
  destruct (rb_exec_step b (OpReceived y) Hinv Hu Hv) as (b1&out&rtx&Hex&Hres).
  rewrite Hex. cbn [mbind panics_bind].
  destruct (rb_run b1 _) as [[[b2 outs2] rtxs2]|] eqn:Hr; cbn [mbind panics_bind]; [|done].
  intros [= <- <- <-]. apply Forall_app. split.
  - destruct (sr_rtx _ _ _ _ _ Hres id Hid) as [-> _]. apply Forall_forall. intros x Hx.
    apply elem_of_id_range in Hx; unfold is_u32, u32_max in *; lia.
  - apply (IH _ _ _ _ (sr_inv _ _ _ _ _ Hres) (sr_u32 _ _ _ _ _ Hres) Hr).
Qed.

(** A buffer that has the last message and then gets all it asked for has
    everything. *)
Lemma requested_complete id ops1 ops2 b1 b2 outs1 outs2 outs rtxs1 rtxs2 n :
  let b := mkReceiverBuffer id 0 ∅ [] in
  run_result b ops1 b1 outs1 rtxs1 -> run_result b1 ops2 b2 outs2 rtxs2 ->
  run_result b (ops1 ++ ops2) b2 outs (rtxs1 ++ rtxs2) ->
  (id < n -> received_id n ops1)%N -> (forall x, x ∈ rtxs1 -> received_id x ops2) -> (n <= last_sent b2)%N.
Proof.
  intros b H1 H2 H3 Hn Hall. destruct (decide (n <= last_sent b2)%N) as [|Hgt]; [done|exfalso].
  pose proof (ru_last _ _ _ _ _ H3) as Hl. simpl in Hl.
  destruct (ru_received _ _ _ _ _ H1 n) as [Hend _]; [apply Hn; lia|].
  pose proof (ru_end _ _ _ _ _ H2) as Hend2.
  set (x := (last_sent b2 + 1)%N).
  assert (Hx : hole b2 x).
  { exists (first_entry b2). split; [done|]. split; [|unfold id_at, x; lia].
    apply (ru_head _ _ _ _ _ H3); [by intros Hx|].
    intros He. unfold known_end in Hend2 at 2. rewrite He in Hend2. simpl in Hend2. lia. }
  destruct (ru_holes _ _ _ _ _ H3 x Hx) as [Hb|Hb]; [by destruct Hb as (?&_&?&_)|].
  apply elem_of_app in Hb as [Hb|Hb].
  - by apply (ru_received _ _ _ _ _ H2 x (Hall x Hb)).
  - apply (ru_above _ _ _ _ _ H2) in Hb. unfold x in Hb. lia.
Qed.
End recovery.

(** *** The sessions *)
Abbreviation from_app ms := ((fun m => StreamMsg m South) <$> (ms : list ProtoMessage)).
Abbreviation from_net ys := ((fun y => StreamMsg y North) <$> (ys : list ProtoMessage)).

(** [ys] are messages of [l], in any order and any number of times. *)
Definition comes_from (conn : N) (l ys : list ProtoMessage) : Prop :=
  Forall (fun y => exists x, x ∈ l /\ carried conn x y) ys.
(** Each message of [l] is among [ys]. *)
Definition reaches (conn : N) (l ys : list ProtoMessage) : Prop :=
  forall x, x ∈ l -> exists y, y ∈ ys /\ carried conn x y.

(** [y] is, or carries again, a message of the stream [ms] of [p]. *)
Record of_stream (p : Agent) (conn : N) (ms : list ProtoMessage) (y : ProtoMessage) : Prop := {
  os_incoming : incoming p conn y;
  os_op : msg_op y = Some (OpReceived y);
  os_item : exists i x, ms !! i = Some x /\ get_id y = Done (N.of_nat i) /\ blob_of y = blob_of x;
}.

Lemma of_stream_below p conn ms y : of_stream p conn ms y -> id_below (N.of_nat (length ms)) y.
Proof.
  intros [_ _ (i&x&Hx&Hid&_)]. exists (N.of_nat i). split; [done|]. apply lookup_lt_Some in Hx. lia.
Qed.
Lemma of_stream_deliverable p conn ms y : of_stream p conn ms y -> deliverable y.
Proof. intros [Hin _ _]. by apply (incoming_from_key _ _ _ Hin). Qed.

(** A published message that comes in. *)
Lemma sent_of_stream source ms conn i x y :
  Forall (app_ok source) ms -> sent ms !! i = Some x -> carried conn x y ->
  of_stream (wire_agent source) conn ms y /\ get_id y = Done (N.of_nat i).
Proof.
  intros Hok Hx Hc. rewrite sent_lookup in Hx. destruct (ms !! i) as [m|] eqn:Hm; [|done].
  injection Hx as <-. pose proof (Forall_lookup_1 _ _ _ _ Hok Hm) as Happ.
  destruct (stamped_facts (N.of_nat i) m _ Happ) as (Hid&Hty&Hpl&Hsrc&Herr).
  pose proof (carried_id _ _ _ Hc) as Hid'. pose proof (carried_type _ _ _ Hc) as Hty'.
  rewrite Hid in Hid'. rewrite Hty in Hty'. split; [|done].
  assert (He : exists e, get_error y = Done e).
  { rewrite (ca_error _ _ _ Hc), Herr. destruct Happ as (_&_&_&h&_&Hh&_). unfold get_error. rewrite Hh. by eexists. }
  destruct Happ as (_&_&(a&Ha&Hk)&_). split.
  - split; [|apply Hc|by eexists|by eexists|done].
    rewrite (ca_source _ _ _ Hc), Hsrc, Ha. f_equal. by apply (get_source_wire m).
  - unfold msg_op. destruct He as [e He]. by rewrite Hid', Hty', He.
  - exists i, m. split; [done|]. split; [done|]. rewrite (carried_blob _ _ _ Hc). unfold blob_of. by rewrite Hpl.
Qed.

(** The answer to a request that comes in. *)
Lemma answer_of_stream source sid ms to conn' conn i m y :
  ag_agent_id source <> DEFAULT_AGENT_ID -> recent ms i = Some m ->
  carried conn (rtx_answer source sid ms to conn' i) y ->
  of_stream (wire_agent source) conn ms y /\ get_id y = Done i.
Proof.
  intros Hsrc Hm Hc. pose proof (carried_id _ _ _ Hc) as Hid. pose proof (carried_type _ _ _ Hc) as Hty.
  pose proof (ca_error _ _ _ Hc) as He. pose proof (ca_source _ _ _ Hc) as Hs.
  pose proof (carried_blob _ _ _ Hc) as Hb. unfold rtx_answer in *. rewrite Hm in *.
  change (get_id y = Done i) in Hid. change (get_header_type y = Done RtxReply) in Hty.
  change (get_error y = Done None) in He. change (blob_of y = blob_of m) in Hb.
  assert (Hs' : get_source y = Done (wire_agent source)).
  { rewrite Hs. unfold get_source, SlimHeader_get_source, Agent_from_proto, ProtoAgent_from_agent; simpl.
    by rewrite decide_False. }
  split; [|done]. split.
  - split; [done|apply Hc|by eexists|by eexists|by eexists].
  - unfold msg_op. by rewrite Hid, Hty, He.
  - exists (N.to_nat i), m. unfold recent in Hm. destruct (decide _); [|done].
    split; [done|]. by rewrite N2Nat.id.
Qed.

(** A request that comes in. *)
Lemma request_incoming src p conn sid r conn' q :
  ag_agent_id src <> DEFAULT_AGENT_ID -> carried conn' (rtx_request src p conn sid r) q ->
  incoming (wire_agent src) conn' q /\ get_header_type q = Done RtxRequest /\ get_id q = Done r.
Proof.
  intros Hsrc Hc. pose proof (carried_id _ _ _ Hc) as Hid. pose proof (carried_type _ _ _ Hc) as Hty.
  pose proof (ca_error _ _ _ Hc) as He. pose proof (ca_source _ _ _ Hc) as Hs. unfold rtx_request in *.
  change (get_id q = Done r) in Hid. change (get_header_type q = Done RtxRequest) in Hty.
  change (get_error q = Done None) in He. split; [|done].
  split; [|apply Hc|by eexists|by eexists|by eexists]. rewrite Hs.
  unfold get_source, SlimHeader_get_source, Agent_from_proto, ProtoAgent_from_agent; simpl.
  by rewrite decide_False.
Qed.

Section one_stream.
Context `{Hasher, BuildProfile}.

(** A receiver of one stream. *)
Lemma single_run p conn ms ys : forall R t io b' outs rtxs,
  Forall (of_stream p conn ms) ys -> st_endpoint t = Endpoint_Receiver R -> io_open io ->
  Forall (entry_ok (of_stream p conn ms)) (buffer (buffer_of R (agent_key p))) ->
  rb_run (buffer_of R (agent_key p)) (OpReceived <$> ys) = Done (b', outs, rtxs) ->
  exists io' t' R', stream_run (from_net ys) io t = Done (io', t', tt) /\
    st_endpoint t' = Endpoint_Receiver R' /\ same_session t t' /\ buffer_of R' (agent_key p) = b' /\
    Forall (entry_ok (of_stream p conn ms)) (buffer b') /\ Forall (entry_ok (of_stream p conn ms)) outs /\
    io_adds io io' (rtx_request (st_source t) p conn (st_session_id t) <$> rtxs)
      (app_item (st_session_id t) <$> outs).
Proof.
  induction ys as [|y ys IH]; intros R t io b' outs rtxs Hys Hep Ho Hbuf; cbn [rb_run fmap list_fmap].
  { intros [= <- <- <-]. exists io, t, R. split; [done|]. split; [done|]. split; [done|]. split; [done|].
    split; [done|]. split; [constructor|apply io_adds_refl]. }
  inversion Hys as [|? ? Hy Hys']; subst.
  destruct (rb_exec _ (OpReceived y)) as [[b1 [out rtx]]|] eqn:Hex; cbn [mbind panics_bind]; [|done].
  destruct (rb_run b1 _) as [[[b2 outs2] rtxs2]|] eqn:Hr; cbn [mbind panics_bind]; [|done].
  intros [= <- <- <-].
  destruct (rb_exec_from _ _ (OpReceived y) _ _ _ Hbuf Hy Hex) as [Hb1 Hout].
  assert (Hdel : Forall (entry_ok deliverable) out).
  { eapply Forall_impl; [exact Hout|]. intros [m|]; [apply of_stream_deliverable|done]. }
  destruct (from_slim_done y (st_session_id t) R (st_source t) (st_max_retries t) (st_timeout t) p conn
    (OpReceived y) b1 out rtx io t (os_incoming _ _ _ _ Hy) (os_op _ _ _ _ Hy) Ho Hex Hdel)
    as (io1&R1&Hs1&Ha1&_&Hb).
  pose proof (Hb (agent_key p)) as Hbp. rewrite decide_True in Hbp by done.
  assert (Hturn : stream_turn (StreamMsg y North) io t =
    Done (io1, set_endpoint (Endpoint_Receiver R1) t, tt)).
  { unfold stream_turn.
    rewrite (sess_bind_Done _ _ _ _ _ _ _ (eq_refl : get_state io t = Done (io, t, t))), Hep.
    by rewrite (sess_bind_Done _ _ _ _ _ _ _ Hs1). }
  destruct (IH R1 (set_endpoint (Endpoint_Receiver R1) t) io1 b2 outs2 rtxs2) as
    (io2&t2&R2&Hs2&Hep2&Hsame&Hb2&Hbuf2&Houts2&Ha2); [done|done|by eapply io_adds_open|by rewrite Hbp|by rewrite Hbp|].
  exists io2, t2, R2. split; [cbn [stream_run]; by rewrite (sess_bind_Done _ _ _ _ _ _ _ Hturn)|].
  split; [done|]. split; [done|]. split; [done|]. split; [done|]. split; [by apply Forall_app|].
  rewrite !fmap_app. exact (io_adds_trans _ _ _ _ _ _ _ Ha1 Ha2).
Qed.

Lemma produced_from_app source sid ms : forall base,
  produced source sid base (from_app ms) = numbered_from (length base) ms.
Proof.
  induction ms as [|m ms IH]; intros base; [done|]. cbn [fmap list_fmap produced]. rewrite IH.
  unfold numbered_from. cbn [imap]. rewrite Nat.add_0_r, length_app. f_equal. apply imap_ext.
  intros i x _. simpl. do 2 f_equal. lia.
Qed.
Lemma events_from_app source ms : forall base,
  Forall (app_ok source) ms -> producer_events source base (from_app ms).
Proof.
  induction ms as [|m ms IH]; intros base Hok; [done|]. inversion Hok; subst. split; [done|by apply IH].
Qed.
Lemma app_messages_from_app ms : app_messages (from_app ms) = ms.
Proof. induction ms as [|m ms IH]; [done|]. cbn. unfold app_messages in IH. by rewrite IH. Qed.

(** A producer that gets requests. *)
Lemma produced_requests source sid ms to conn qs ids :
  Forall2 (fun q i => incoming to conn q /\ get_header_type q = Done RtxRequest /\ get_id q = Done i) qs ids ->
  produced source sid ms (from_net qs) = rtx_answer source sid ms to conn <$> ids /\
  producer_events source ms (from_net qs) /\ app_messages (from_net qs) = [].
Proof.
  induction 1 as [|q i qs ids (Hin&Hty&Hid) _ (IH1&IH2&IH3)]; [done|].
  cbn [fmap list_fmap produced producer_events]. rewrite Hty, Hid, (ic_source _ _ _ Hin), (ic_conn _ _ _ Hin), IH1.
  split; [done|]. split; [|done]. split; [by eexists _, _|done].
Qed.
End one_stream.

Section buffer_recovery.
Context `{BuildProfile}.

Lemma lost_ids_recv ys : lost_ids (OpReceived <$> ys) = ∅.
Proof.
  induction ys as [|y ys IH]; [done|]. unfold lost_ids in *. rewrite !fmap_cons, union_list_cons. simpl.
  by rewrite IH, (left_id_L ∅ (∪)).
Qed.

Lemma received_id_recv y x ys : y ∈ ys -> get_id y = Done x -> received_id x (OpReceived <$> ys).
Proof. intros Hin Hid. exists y. split; [|done]. apply list_elem_of_fmap. by exists y. Qed.

(** A buffer that starts with message 0. *)
Definition buffer_0 : ReceiverBuffer := mkReceiverBuffer 0 0 ∅ [].

Lemma outs_below n outs :
  (0 < n)%N -> Forall (entry_ok (id_below n)) outs -> in_order 0 outs ∅ -> (N.of_nat (length outs) < n)%N.
Proof.
  intros Hn Hf Ho. destruct (length outs) as [|j] eqn:Hl; [done|].
  destruct (lookup_lt_is_Some_2 outs j) as [o Hj]; [lia|].
  pose proof (Forall_lookup_1 _ _ _ _ Hf Hj) as He. specialize (Ho j o Hj). cbv zeta in Ho.
  destruct o as [m|]; [|set_solver]. destruct He as (id&Hid&Hlt). rewrite Ho in Hid. injection Hid as <-. lia.
Qed.

Lemma recv_run n ys :
  (0 < n <= 500)%N -> Forall (id_below n) ys ->
  exists b outs rtxs, rb_run buffer_0 (OpReceived <$> ys) = Done (b, outs, rtxs) /\
    run_result buffer_0 (OpReceived <$> ys) b outs rtxs /\ is_u32 (last_sent b) /\
    Forall (fun x => (x < n)%N) rtxs /\
    forall m0, get_id m0 = Done 0%N ->
      rb_run ReceiverBuffer_default (OpReceived <$> m0 :: ys) = Done (b, Some m0 :: outs, rtxs).
Proof.
  intros Hn Hys. pose proof (recv_ok n ys true (proj2 Hn) Hys) as Hok.
  assert (Hb0 : rb_inv buffer_0).
  { split; simpl; [done|by right|done| |set_solver]. intros i x. by rewrite lookup_nil. }
  assert (Hu0 : is_u32 0) by (unfold is_u32, u32_max; lia).
  destruct (rb_run_result (OpReceived <$> ys) buffer_0 Hb0 Hu0 Hok) as (b&outs&rtxs&Hrun&Hres).
  exists b, outs, rtxs. split; [done|]. split; [done|].
  split; [|split; [by apply (recv_rtx_below n ys (proj2 Hn) Hys buffer_0 b outs)|]].
  - pose proof (ru_last _ _ _ _ _ Hres) as Hl. pose proof (ru_out _ _ _ _ _ Hres) as Ho. simpl in Hl, Ho.
    rewrite lost_ids_recv, (left_id_L ∅ (∪)) in Ho.
    destruct (rb_run_from (id_below n) (OpReceived <$> ys) buffer_0 b outs rtxs) as [_ Hf];
      [constructor|by apply Forall_fmap|done|].
    pose proof (outs_below n outs (proj1 Hn) Hf Ho). unfold is_u32, u32_max. lia.
  - intros m0 H0. destruct (rb_exec_first ReceiverBuffer_default (OpReceived m0)) as (id&Hid&_&Hex);
      [apply rb_inv_default|done|by exists 0%N|].
    assert (id = 0%N) as -> by congruence.
    rewrite fmap_cons. cbn [rb_run]. rewrite Hex. cbn [mbind panics_bind].
    change (mkReceiverBuffer 0 0 (lost_msgs ReceiverBuffer_default) []) with buffer_0. by rewrite Hrun.
Qed.

(** A buffer that starts with message 0, gets the last of [n] messages and then
    all it asked for, releases [n] messages. *)
Lemma buffer_recovers n m0 ys1 :
  (0 < n <= 500)%N -> get_id m0 = Done 0%N -> Forall (id_below n) ys1 ->
  (exists y, y ∈ m0 :: ys1 /\ get_id y = Done (n - 1)%N) ->
  exists b1 outs1 rtxs1,
    rb_run ReceiverBuffer_default (OpReceived <$> m0 :: ys1) = Done (b1, Some m0 :: outs1, rtxs1) /\
    Forall (fun x => (x < n)%N) rtxs1 /\
    forall ys2, Forall (id_below n) ys2 -> (forall x, x ∈ rtxs1 -> exists y, y ∈ ys2 /\ get_id y = Done x) ->
      exists b2 outs2 rtxs2, rb_run b1 (OpReceived <$> ys2) = Done (b2, outs2, rtxs2) /\
        N.to_nat n <= length (Some m0 :: outs1 ++ outs2) /\
        forall j o, (Some m0 :: outs1 ++ outs2) !! j = Some o ->
          exists m, o = Some m /\ get_id m = Done (N.of_nat j).
Proof.
  intros Hn H0 Hys1 Hlast.
  destruct (recv_run n ys1 Hn Hys1) as (b1&outs1&rtxs1&Hrun1&Hres1&Hu1&Hlt1&Hfirst).
  exists b1, outs1, rtxs1. split; [by apply Hfirst|]. split; [done|]. intros ys2 Hys2 Hans.
  destruct (rb_run_result (OpReceived <$> ys2) b1 (ru_inv _ _ _ _ _ Hres1) Hu1
    (recv_ok n ys2 true (proj2 Hn) Hys2)) as (b2&outs2&rtxs2&Hrun2&Hres2).
  exists b2, outs2, rtxs2. split; [done|].
  destruct (recv_run n (ys1 ++ ys2) Hn) as (b3&outs3&rtxs3&Hrun3&Hres3&_); [by apply Forall_app|].
  rewrite fmap_app in Hrun3, Hres3. rewrite (rb_run_app _ _ _ _ _ _ Hrun1), Hrun2 in Hrun3.
  injection Hrun3 as <- <- <-.
  assert (Hdone : (n - 1 <= last_sent b2)%N).
  { apply (requested_complete 0 _ _ _ _ _ _ _ _ _ (n - 1) Hres1 Hres2 Hres3).
    - intros Hlt. destruct Hlast as (y&Hy&Hid). apply elem_of_cons in Hy as [->|Hy]; [|by eapply received_id_recv].
      rewrite H0 in Hid. injection Hid as Hid. lia.
    - intros x Hx. destruct (Hans x Hx) as (y&Hy&Hid). by eapply received_id_recv. }
  pose proof (ru_last _ _ _ _ _ Hres3) as Hl. simpl in Hl. split; [simpl; lia|].
  intros [|j] o Hj; [injection Hj as <-; by exists m0|]. simpl in Hj.
  pose proof (ru_out _ _ _ _ _ Hres3 j o Hj) as Hout. cbv zeta in Hout.
  rewrite <- fmap_app, lost_ids_recv in Hout. simpl in Hout. destruct o as [m|]; [|set_solver].
  exists m. split; [done|]. rewrite Hout. f_equal. lia.
Qed.
End buffer_recovery.

Section streams_recover.
Context `{Hasher, BuildProfile}.

Lemma StreamTask_new_facts common direction sys sys' t :
  StreamTask_new common direction sys = Done (sys', t) ->
  st_source t = cm_source common /\ st_session_id t = cm_id common /\
  (direction = Receiver -> st_endpoint t = Endpoint_Receiver ∅).
Proof.
  unfold StreamTask_new. destruct (cm_session_config common); try done.
  destruct (Endpoint_new direction sys) as [? e] eqn:He. intros [= _ <-].
  split; [done|]. split; [done|]. intros ->. by injection He as _ <-.
Qed.

(** The requests that come in, with their ids. *)
Lemma requests_ids src p conn sid conn' ids qs :
  ag_agent_id src <> DEFAULT_AGENT_ID -> comes_from conn' (rtx_request src p conn sid <$> ids) qs ->
  exists ids', Forall2 (fun q i => incoming (wire_agent src) conn' q /\
      get_header_type q = Done RtxRequest /\ get_id q = Done i) qs ids' /\
    (forall i, i ∈ ids' -> i ∈ ids) /\
    (reaches conn' (rtx_request src p conn sid <$> ids) qs -> forall i, i ∈ ids -> i ∈ ids').
Proof.
  intros Hsrc Hc.
  assert (Hex : exists ids', Forall2 (fun q i => incoming (wire_agent src) conn' q /\
      get_header_type q = Done RtxRequest /\ get_id q = Done i) qs ids' /\ (forall i, i ∈ ids' -> i ∈ ids)).
  { induction Hc as [|q qs (x&Hx&Hq) _ (ids'&IH1&IH2)]; [exists []; split; [done|set_solver]|].
    apply list_elem_of_fmap in Hx as (i&->&Hi). exists (i :: ids').
    split; [constructor; [by eapply request_incoming|done]|].
    intros j [->|Hj]%elem_of_cons; [done|by apply IH2]. }
  destruct Hex as (ids'&H1&H2). exists ids'. split; [done|]. split; [done|].
  intros Hr i Hi. destruct (Hr (rtx_request src p conn sid i)) as (q&Hq&Hcq).
  { apply list_elem_of_fmap. by exists i. }
  apply list_elem_of_lookup in Hq as [j Hj].
  destruct (Forall2_lookup_l _ _ _ _ _ H1 Hj) as (i'&Hi'&_&_&Hid').
  destruct (request_incoming _ _ _ _ _ _ _ Hsrc Hcq) as (_&_&Hid). rewrite Hid in Hid'. injection Hid' as <-.
  by eapply list_elem_of_lookup_2.
Qed.

(** The answers that come in. *)
Lemma answers_of_stream source sid ms to conn' conn ids ys :
  ag_agent_id source <> DEFAULT_AGENT_ID -> length ms <= 500 ->
  Forall (fun i => (i < N.of_nat (length ms))%N) ids ->
  comes_from conn (rtx_answer source sid ms to conn' <$> ids) ys ->
  Forall (of_stream (wire_agent source) conn ms) ys /\
  (reaches conn (rtx_answer source sid ms to conn' <$> ids) ys ->
    forall i, i ∈ ids -> exists y, y ∈ ys /\ get_id y = Done i).
Proof.
  intros Hsrc Hlen Hids Hc.
  assert (Hrec : forall i, i ∈ ids -> exists m, recent ms i = Some m).
  { intros i Hi. rewrite Forall_forall in Hids. specialize (Hids i Hi). unfold recent.
    rewrite decide_True by lia. destruct (lookup_lt_is_Some_2 ms (N.to_nat i)) as [m Hm]; [lia|by exists m]. }
  split.
  - eapply Forall_impl; [exact Hc|]. intros y (x&Hx&Hy). apply list_elem_of_fmap in Hx as (i&->&Hi).
    destruct (Hrec i Hi) as [m Hm]. by eapply answer_of_stream.
  - intros Hr i Hi. destruct (Hr (rtx_answer source sid ms to conn' i)) as (y&Hy&Hcy).
    { apply list_elem_of_fmap. by exists i. }
    destruct (Hrec i Hi) as [m Hm]. exists y. split; [done|]. by eapply answer_of_stream.
Qed.

(** All of a stream's messages, as the application gets them. *)
Definition got_all (ms : list ProtoMessage) (items : list (Result SessionMessage SessionError)) : Prop :=
  Forall2 (fun m item => exists sm, item = Ok sm /\ blob_of (sm_message sm) = blob_of m) ms items.

Lemma got_all_intro p conn sid ms outs :
  Forall (entry_ok (of_stream p conn ms)) outs -> length ms <= length outs ->
  (forall j o, outs !! j = Some o -> exists m, o = Some m /\ get_id m = Done (N.of_nat j)) ->
  got_all ms (app_item sid <$> outs).
Proof.
  intros Hf Hlen Hids.
  assert (Hitem : forall j o, outs !! j = Some o -> exists x sm, ms !! j = Some x /\
    app_item sid o = Ok sm /\ blob_of (sm_message sm) = blob_of x).
  { intros j o Hj. destruct (Hids j o Hj) as (m&->&Hid). pose proof (Forall_lookup_1 _ _ _ _ Hf Hj) as Hm.
    simpl in Hm. destruct (of_stream_deliverable _ _ _ _ Hm) as [info Hi].
    destruct Hm as [_ _ (i&x&Hx&Hid'&Hb)]. rewrite Hid in Hid'. injection Hid' as Hij.
    assert (i = j) as -> by lia. exists x. simpl. rewrite Hi. by eexists. }
  apply Forall2_same_length_lookup. split.
  - rewrite length_fmap. destruct (decide (length ms < length outs)) as [Hlt|]; [|lia].
    destruct (lookup_lt_is_Some_2 outs (length ms)) as [o Ho]; [done|].
    destruct (Hitem _ _ Ho) as (x&_&Hx&_). apply lookup_lt_Some in Hx. lia.
  - intros j x item Hx Hitem'. rewrite list_lookup_fmap in Hitem'.
    destruct (outs !! j) as [o|] eqn:Ho; [|done]. injection Hitem' as <-.
    destruct (Hitem j o Ho) as (x'&sm&Hx'&Hsm&Hb). exists sm. split; [done|]. congruence.
Qed.

(** The messages are published. *)
Lemma publish_run ms t io :
  producing [] t -> io_open io -> Forall (app_ok (st_source t)) ms -> length ms <= 500 ->
  exists io1 t1, stream_run (from_app ms) io t = Done (io1, t1, tt) /\ io_adds io io1 (sent ms) [] /\
    producing ms t1 /\ same_session t t1.
Proof.
  intros Hp Ho Hok Hlen.
  destruct (producer_run (from_app ms) [] t io Hp) as (io1&t1&Hrun&Ha&Hp1&Hsame);
    [by apply events_from_app| |done|].
  { rewrite app_messages_from_app. simpl. unfold u32_max. lia. }
  rewrite produced_from_app in Ha. rewrite app_messages_from_app in Hp1. by exists io1, t1.
Qed.

(** The requests for [rtxs] are served. *)
Lemma serve_run ms t io src p conn sid conn' rtxs requests :
  producing ms t -> io_open io -> length ms <= 500 -> ag_agent_id src <> DEFAULT_AGENT_ID ->
  comes_from conn' (rtx_request src p conn sid <$> rtxs) requests ->
  reaches conn' (rtx_request src p conn sid <$> rtxs) requests ->
  exists io' t' ids, stream_run (from_net requests) io t = Done (io', t', tt) /\
    (forall i, i ∈ ids <-> i ∈ rtxs) /\
    io_adds io io' (rtx_answer (st_source t) (st_session_id t) ms (wire_agent src) conn' <$> ids) [].
Proof.
  intros Hp Ho Hlen Hid Hcr Hrr.
  destruct (requests_ids _ _ _ _ _ _ _ Hid Hcr) as (ids&Hids&Hsub&Hsup). specialize (Hsup Hrr).
  destruct (produced_requests (st_source t) (st_session_id t) ms _ _ _ _ Hids) as (Hprod&Hevs&Happ).
  destruct (producer_run (from_net requests) ms t io Hp Hevs) as (io'&t'&Hrun&Ha&_);
    [rewrite Happ, app_nil_r; unfold u32_max; lia|done|].
  rewrite Hprod in Ha. exists io', t', ids. split; [done|]. split; [|done]. intros i. split; auto.
Qed.

(** A new receiver gets the first messages, and then what it asked for. *)
Lemma receive_run p conn ms t io m0 arrived :
  0 < length ms <= 500 -> st_endpoint t = Endpoint_Receiver ∅ -> io_open io ->
  of_stream p conn ms m0 -> get_id m0 = Done 0%N -> Forall (of_stream p conn ms) arrived ->
  (exists y, y ∈ m0 :: arrived /\ get_id y = Done (N.of_nat (length ms) - 1)%N) ->
  exists io1 t1 rtxs items1, stream_run (from_net (m0 :: arrived)) io t = Done (io1, t1, tt) /\
    Forall (fun i => (i < N.of_nat (length ms))%N) rtxs /\
    io_adds io io1 (rtx_request (st_source t) p conn (st_session_id t) <$> rtxs) items1 /\
    forall replies, Forall (of_stream p conn ms) replies ->
      (forall i, i ∈ rtxs -> exists y, y ∈ replies /\ get_id y = Done i) ->
      exists io2 t2 msgs items2, stream_run (from_net replies) io1 t1 = Done (io2, t2, tt) /\
        io_adds io1 io2 msgs items2 /\ got_all ms (items1 ++ items2).
Proof.
  intros Hlen Hep Ho Hm0 Hid Harr Hend.
  assert (Hbelow : forall ys, Forall (of_stream p conn ms) ys -> Forall (id_below (N.of_nat (length ms))) ys).
  { intros ys Hys. eapply Forall_impl; [exact Hys|]. apply of_stream_below. }
  destruct (buffer_recovers (N.of_nat (length ms)) m0 arrived) as (b1&outs1&rtxs&Hrb1&Hlt&Hrest);
    [lia|done|by apply Hbelow|done|].
  destruct (single_run p conn ms (m0 :: arrived) ∅ t io b1 (Some m0 :: outs1) rtxs) as
    (io1&t1&R1&Hrun1&Hep1&Hsame&Hb1&Hbuf1&Houts1&Ha1); [by constructor|done|done|constructor|done|].
  eexists io1, t1, rtxs, _. split; [done|]. split; [done|]. split; [exact Ha1|]. intros replies Hreps Hall.
  destruct (Hrest replies (Hbelow _ Hreps) Hall) as (b2&outs2&rtxs2&Hrb2&Hcount&Hinorder).
  rewrite <- Hb1 in Hrb2, Hbuf1.
  destruct (single_run p conn ms replies R1 t1 io1 b2 outs2 rtxs2 Hreps Hep1
    (io_adds_open _ _ _ _ Ha1 Ho) Hbuf1 Hrb2) as (io2&t2&R2&Hrun2&_&_&_&_&Houts2&Ha2).
  eexists io2, t2, _, _. split; [done|]. split; [exact Ha2|].
  assert (Hsid : st_session_id t1 = st_session_id t) by apply Hsame. rewrite Hsid, <- fmap_app.
  apply (got_all_intro p conn); [by apply Forall_app| |done]. by rewrite Nat2N.id in Hcount.
Qed.
End streams_recover.

(** C6: A producer publishes up to 500 messages to a receiver over a network
    that loses, reorders and duplicates them at will, as long as the first one
    arrives first and the last one arrives. The receiver asks for what is
    missing; once its requests and the answers to them have come in, in any
    order and any number of times, its application has got every message
    exactly once, in the order in which they were published, with the payload
    they were published with, and no loss is reported. *)
Theorem stream_recovers_losses `{Hasher, BuildProfile} cp cr sysp sysp' sysr sysr' tp tr iop ior conn conn' ms :
  StreamTask_new cp Sender sysp = Done (sysp', tp) -> StreamTask_new cr Receiver sysr = Done (sysr', tr) ->
  ag_agent_id (cm_source cp) <> DEFAULT_AGENT_ID -> ag_agent_id (cm_source cr) <> DEFAULT_AGENT_ID ->
  io_open iop -> io_open ior -> ob_sent (io_slim iop) = [] -> ob_sent (io_slim ior) = [] ->
  ob_sent (io_app ior) = [] -> Forall (app_ok (cm_source cp)) ms -> 0 < length ms <= 500 ->
  exists iop1 tp1, stream_run (from_app ms) iop tp = Done (iop1, tp1, tt) /\
  forall first last arrived m0, let published := ob_sent (io_slim iop1) in
  published !! 0 = Some first -> published !! (length ms - 1) = Some last ->
  carried conn first m0 -> comes_from conn published arrived ->
  (exists y, y ∈ m0 :: arrived /\ carried conn last y) ->
  exists ior1 tr1, stream_run (from_net (m0 :: arrived)) ior tr = Done (ior1, tr1, tt) /\
  forall requests, comes_from conn' (ob_sent (io_slim ior1)) requests ->
  reaches conn' (ob_sent (io_slim ior1)) requests ->
  exists iop2 tp2, stream_run (from_net requests) iop1 tp1 = Done (iop2, tp2, tt) /\
  forall replies, let answers := drop (length ms) (ob_sent (io_slim iop2)) in
  comes_from conn answers replies -> reaches conn answers replies ->
  exists ior2 tr2, stream_run (from_net replies) ior1 tr1 = Done (ior2, tr2, tt) /\
    got_all ms (ob_sent (io_app ior2)).
Proof.
  intros Hnewp Hnewr Hidp Hidr Hop Hor Hsp Hsr Har Hok Hlen.
  destruct (StreamTask_new_facts _ _ _ _ _ Hnewp) as (Hsrcp&_&_).
  destruct (StreamTask_new_facts _ _ _ _ _ Hnewr) as (Hsrcr&_&Hepr). specialize (Hepr eq_refl).
  rewrite <- Hsrcp in Hok, Hidp. rewrite <- Hsrcr in Hidr.
  destruct (publish_run ms tp iop (producing_new _ _ _ _ Hnewp) Hop Hok (proj2 Hlen)) as
    (iop1&tp1&Hrunp1&Hap1&Hp1&Hsame1).
  assert (Hpub : ob_sent (io_slim iop1) = sent ms) by (destruct Hap1 as [-> _]; by rewrite Hsp).
  exists iop1, tp1. split; [done|]. intros first last arrived m0 published Hfirst Hlast Hm0 Harr Hend.
  unfold published in *. rewrite Hpub in *. set (p := wire_agent (st_source tp)).
  destruct (sent_of_stream _ ms conn 0 first m0 Hok Hfirst Hm0) as [Hm0s Hm0id].
  destruct (receive_run p conn ms tr ior m0 arrived Hlen Hepr Hor Hm0s Hm0id) as
    (ior1&tr1&rtxs&items1&Hrunr1&Hlt&Har1&Hrest).
  { eapply Forall_impl; [exact Harr|]. intros y (x&Hx&Hy). apply list_elem_of_lookup in Hx as [i Hi].
    by eapply sent_of_stream. }
  { destruct Hend as (y&Hy&Hc). exists y. split; [done|].
    rewrite (proj2 (sent_of_stream _ ms conn _ last y Hok Hlast Hc)). f_equal. lia. }
  exists ior1, tr1. split; [done|]. intros requests Hcr Hrr.
  rewrite (proj1 Har1), Hsr in Hcr, Hrr.
  destruct (serve_run ms tp1 iop1 _ _ _ _ conn' rtxs requests Hp1 (io_adds_open _ _ _ _ Hap1 Hop) (proj2 Hlen)
    Hidr Hcr Hrr) as (iop2&tp2&ids&Hrunp2&Hids&Hap2).
  exists iop2, tp2. split; [done|]. intros replies.
  rewrite (proj1 Hap2). cbn [ob_sent]. rewrite Hpub, drop_app_length' by (by rewrite length_sent).
  intros Hca Hra. assert (Hsrc1 : st_source tp1 = st_source tp) by apply Hsame1. rewrite Hsrc1 in Hca, Hra.
  assert (Hlt' : Forall (fun i => (i < N.of_nat (length ms))%N) ids).
  { apply Forall_forall. intros i Hi. rewrite Forall_forall in Hlt. by apply Hlt, Hids. }
  destruct (answers_of_stream _ _ ms _ _ conn ids replies Hidp (proj2 Hlen) Hlt' Hca) as [Hreps Hall].
  destruct (Hrest replies Hreps) as (ior2&tr2&msgs&items2&Hrunr2&Har2&Hgot).
  { intros i Hi. by apply (Hall Hra), Hids. }
  exists ior2, tr2. split; [done|]. by rewrite (proj2 Har2), (proj2 Har1), Har.
Qed.

(** ** Examples *)
Definition demo_published (b : Byte.byte) : ProtoMessage :=
  new_publish stream_producer (mkAgentType 1 2 5 None) None None "text"%string [b].
Definition demo_ms : list ProtoMessage :=
  [demo_published Byte.x01; demo_published Byte.x02; demo_published Byte.x03].

Lemma demo_published_ok b : app_ok stream_producer (demo_published b).
Proof.
  split; [by apply new_publish_proper|]. split; [by eexists|]. split; [by eexists|]. by eexists _, _.
Qed.

(** The message as it comes in on a connection. *)
Definition carry (conn : N) (m : ProtoMessage) : ProtoMessage :=
  map_slim (SlimHeader_set_incoming_conn (Some conn)) m.

Definition request_msg (i : N) : ProtoMessage :=
  carry 8 (rtx_request demo_agent stream_producer 9 3 i).

Lemma producer_refines_witness :
  exists sys' t io' t', StreamTask_new (stream_common stream_producer) Sender TimerSystem_empty = Done (sys', t) /\
    @stream_run toy_hasher checked_build
      (from_app demo_ms ++ [ProdTimer; StreamMsg (request_msg 1) North; StreamMsg (request_msg 7) North])
      stream_io t = Done (io', t', tt) /\
    (get_id <$> ob_sent (io_slim io')) = [Done 0; Done 1; Done 2; Done 2; Done 1; Done 7]%N /\
    (get_error <$> drop 4 (ob_sent (io_slim io'))) = [Done None; Done (Some true)].
Proof.
  destruct (StreamTask_new (stream_common stream_producer) Sender TimerSystem_empty) as [[sys' t]|] eqn:Ht; [|done].
  destruct (@producer_refines toy_hasher checked_build (stream_common stream_producer) TimerSystem_empty sys' t
    stream_io (from_app demo_ms ++ [ProdTimer; StreamMsg (request_msg 1) North; StreamMsg (request_msg 7) North]))
    as (io'&t'&Hrun&Hsent&_); [exact Ht|split; reflexivity| |vm_compute; discriminate|].
  - repeat (split; [apply demo_published_ok|]). split; [discriminate|].
    repeat (split; [eexists _, 8%N; split; [reflexivity|reflexivity|by eexists..]|]). exact I.
  - exists sys', t, io', t'. split; [reflexivity|]. split; [exact Hrun|]. rewrite Hsent.
    split; vm_compute; reflexivity.
Defined.

Lemma demo_carried conn m : proper m -> carried conn m (carry conn m).
Proof.
  intros (md&p&h&sh&src&->&Hh&Hs&_). unfold carry, map_slim; simpl.
  split; unfold get_session_header, get_payload, get_source, get_error, get_incoming_conn, get_slim_header;
    simpl; rewrite ?Hh, ?Hs; done.
Qed.

(** Three messages are published, the second one is lost. *)
Definition slim_of (r : panics (SessionIo * StreamTask * unit)) : list ProtoMessage :=
  match r with Done (io, _, _) => ob_sent (io_slim io) | Panic _ => [] end.
Definition fresh_task (a : Agent) (direction : SessionDirection) : TimerSystem * StreamTask :=
  match StreamTask_new (stream_common a) direction TimerSystem_empty with
  | Done x => x
  | Panic _ => (TimerSystem_empty, receiver_task)
  end.
Definition demo_sent (i : nat) : ProtoMessage := default (demo_published Byte.x00) (sent demo_ms !! i).

Lemma stream_recovers_losses_witness :
  exists ior1 tr1 iop2 reply ior2 tr2,
    @stream_run toy_hasher checked_build (from_net [carry 9 (demo_sent 0); carry 9 (demo_sent 2)]) stream_io
      (fresh_task demo_agent Receiver).2 = Done (ior1, tr1, tt) /\
    last (ob_sent (io_slim iop2)) = Some reply /\
    @stream_run toy_hasher checked_build (from_net [carry 9 reply]) ior1 tr1 = Done (ior2, tr2, tt) /\
    got_all demo_ms (ob_sent (io_app ior2)).
Proof.
  destruct (@stream_recovers_losses toy_hasher checked_build (stream_common stream_producer)
    (stream_common demo_agent) TimerSystem_empty (fresh_task stream_producer Sender).1
    TimerSystem_empty (fresh_task demo_agent Receiver).1 (fresh_task stream_producer Sender).2
    (fresh_task demo_agent Receiver).2 stream_io stream_io 9 8 demo_ms) as (iop1&tp1&Hr1&H1);
    [reflexivity|reflexivity|discriminate|discriminate|split; reflexivity|split; reflexivity|reflexivity..| | |].
  { repeat (constructor; [apply demo_published_ok|]). constructor. }
  { simpl. lia. }
  assert (Hs1 : ob_sent (io_slim iop1) = sent demo_ms).
  { change (slim_of (Done (iop1, tp1, tt)) = sent demo_ms). rewrite <- Hr1. vm_compute. reflexivity. }
  rewrite Hs1 in H1.
  assert (Hc : forall i, carried 9 (demo_sent i) (carry 9 (demo_sent i))).
  { intros i. apply demo_carried. unfold demo_sent. destruct (sent demo_ms !! i) as [x|] eqn:Hx.
    - simpl. rewrite sent_lookup in Hx. destruct (demo_ms !! i) as [m|] eqn:Hm; [|done]. injection Hx as <-.
      assert (Happ : app_ok stream_producer m).
      { apply (Forall_lookup_1 (app_ok stream_producer) demo_ms i m); [|done].
        repeat (constructor; [apply demo_published_ok|]). constructor. }
      apply proper_slim; [done|]. apply proper_session, proper_session. apply Happ.
    - by apply new_publish_proper. }
  destruct (H1 (demo_sent 0) (demo_sent 2) [carry 9 (demo_sent 2)] (carry 9 (demo_sent 0))) as
    (ior1&tr1&Hr2&H2); [reflexivity|reflexivity|apply Hc| | |].
  { constructor; [|constructor]. exists (demo_sent 2). split; [right; right; left|apply Hc]. }
  { exists (carry 9 (demo_sent 2)). split; [right; left|apply Hc]. }
  set (q := rtx_request demo_agent (wire_agent stream_producer) 9 3 1).
  assert (Hs2 : ob_sent (io_slim ior1) = [q]).
  { change (slim_of (Done (ior1, tr1, tt)) = [q]). rewrite <- Hr2. vm_compute. reflexivity. }
  rewrite Hs2 in H2.
  assert (Hq : carried 8 q (carry 8 q)) by (split; reflexivity).
  destruct (H2 [carry 8 q]) as (iop2&tp2&Hr3&H3).
  { constructor; [|constructor]. exists q. split; [left|exact Hq]. }
  { intros x Hx. apply list_elem_of_singleton in Hx as ->. exists (carry 8 q). split; [left|exact Hq]. }
  set (a := rtx_answer stream_producer 3 demo_ms (wire_agent demo_agent) 8 1).
  assert (Hs3 : ob_sent (io_slim iop2) = sent demo_ms ++ [a]).
  { assert (Hboth : slim_of (match @stream_run toy_hasher checked_build (from_app demo_ms) stream_io
        (fresh_task stream_producer Sender).2 with
      | Done (io, t, _) => @stream_run toy_hasher checked_build (from_net [carry 8 q]) io t
      | Panic why => Panic why
      end) = sent demo_ms ++ [a]) by (vm_compute; reflexivity).
    rewrite Hr1 in Hboth. cbv beta iota in Hboth. rewrite Hr3 in Hboth. exact Hboth. }
  rewrite Hs3 in H3.
  assert (Ha : carried 9 a (carry 9 a)) by (split; reflexivity).
  destruct (H3 [carry 9 a]) as (ior2&tr2&Hr4&H4).
  { constructor; [|constructor]. exists a. split; [left|exact Ha]. }
  { intros x Hx. apply list_elem_of_singleton in Hx as ->. exists (carry 9 a). split; [left|exact Ha]. }
  exists ior1, tr1, iop2, a, ior2, tr2. split; [exact Hr2|]. split; [by rewrite Hs3|]. exact (conj Hr4 H4).
Defined.
