(* ===== verification/SessionLayer.v ===== *)
(** * The session layer

    [service/src/session_layer.rs]: the sessions of one application, by id.
    Messages of the application go to the session it names; messages of the
    network go to the session of their id, which is created when the message
    opens one.

    A [Box<dyn Session>] is one of the three kinds of session; the traits
    [CommonSession] and [Session] are a class with an instance for each. The
    channels and the random draws are shared by the sessions of a layer (they
    are the environment's); every session keeps its timers. *)
From stdpp Require Import base list gmap strings numbers option.
From S2P Require Import Prelude Proto Encoder Messages Timer Session.
From S2P Require Import RequestResponse FireAndForget Streaming.
Open Scope slim_scope.
Open Scope string_scope.

(** ** The traits *)

(** [Interceptor], [CommonSession] and [Session]. *)
Class SessionOps (S : Type) : Type := {
  common_of : S -> Common;
  set_common : Common -> S -> S;
  set_session_config : S -> SessionConfig -> S * Result unit SessionError;
  on_message : SessionMessage -> MessageDirection -> sess S (Result unit SessionError);
}.

Section instances.
Context `{ErrorText, Rng}.

(** [delegate_common_behavior!]: the configuration is set in the common data. *)
Definition delegate_set_session_config {S} (get : S -> Common) (set : Common -> S -> S) (s : S)
    (c : SessionConfig) : S * Result unit SessionError :=
  let (common, res) := Common_set_session_config (get s) c in (set common s, res).

Definition rr_set_common (c : Common) (r : RequestResponse) : RequestResponse :=
  mkRequestResponse c (rr_timers r).
#[export] Instance RequestResponse_ops : SessionOps RequestResponse := {|
  common_of := rr_common;
  set_common := rr_set_common;
  set_session_config := delegate_set_session_config rr_common rr_set_common;
  on_message := RequestResponse_on_message;
|}.

Definition sg_set_common (c : Common) (s : Streaming) : Streaming :=
  mkStreaming c (sg_inbox s) (sg_task s).
#[export] Instance Streaming_ops : SessionOps Streaming := {|
  common_of := sg_common;
  set_common := sg_set_common;
  set_session_config := delegate_set_session_config sg_common sg_set_common;
  on_message m d := fun io s => let (s, res) := Streaming_on_message s m d in Done (io, s, res);
|}.

Definition ff_set_common (c : Common) (f : FireAndForget) : FireAndForget :=
  mkFireAndForget c (ff_inbox f) (ff_cancelled f) (ff_loop f).
#[export] Instance FireAndForget_ops : SessionOps FireAndForget := {|
  common_of := ff_common;
  set_common := ff_set_common;
  set_session_config := FireAndForget_set_session_config;
  on_message m d := fun io f => let (f, res) := FireAndForget_on_message f m d in Done (io, f, res);
|}.

(** [Box<dyn Session>]. *)
Inductive Session : Type :=
| Session_FireAndForget (f : FireAndForget)
| Session_RequestResponse (r : RequestResponse)
| Session_Streaming (s : Streaming).

(** Runs a computation on the session in a box. *)
Definition in_box {S A} (box : S -> Session) (c : sess S A) (s : S) : sess Session A := fun io _ =>
  '(io, s, a) ← c io s; Done (io, box s, a).

#[export] Instance Session_ops : SessionOps Session := {|
  common_of s :=
    match s with
    | Session_FireAndForget f => common_of f
    | Session_RequestResponse r => common_of r
    | Session_Streaming s => common_of s
    end;
  set_common c s :=
    match s with
    | Session_FireAndForget f => Session_FireAndForget (set_common c f)
    | Session_RequestResponse r => Session_RequestResponse (set_common c r)
    | Session_Streaming s => Session_Streaming (set_common c s)
    end;
  set_session_config s c :=
    match s with
    | Session_FireAndForget f => let (f, r) := set_session_config f c in (Session_FireAndForget f, r)
    | Session_RequestResponse f => let (f, r) := set_session_config f c in (Session_RequestResponse f, r)
    | Session_Streaming f => let (f, r) := set_session_config f c in (Session_Streaming f, r)
    end;
  on_message m d :=
    s ← get_state;
    match s with
    | Session_FireAndForget f => in_box Session_FireAndForget (on_message m d) f
    | Session_RequestResponse r => in_box Session_RequestResponse (on_message m d) r
    | Session_Streaming s => in_box Session_Streaming (on_message m d) s
    end;
|}.
End instances.

(** ** The layer *)

(** [sl_detached]: what is left of the sessions that were removed. The task of
    a fire-and-forget session runs until it sees that its token is cancelled;
    pending requests keep their session until their timers end. *)
Record SessionLayer : Type := mkSessionLayer {
  sl_pool : gmap N (Session * TimerSystem);
  sl_agent_name : Agent;
  sl_identity : option string;
  sl_conn_id : N;
  default_ff_conf : FireAndForgetConfiguration;
  default_rr_conf : RequestResponseConfiguration;
  default_stream_conf : StreamingConfiguration;
  sl_detached : list (Session * TimerSystem);
}.

Definition SessionLayer_new (agent_name : Agent) (identity : option string) (conn_id : N) : SessionLayer :=
  mkSessionLayer ∅ agent_name identity conn_id FireAndForgetConfiguration_default
    RequestResponseConfiguration_default StreamingConfiguration_default [].

Definition set_pool (pool : gmap N (Session * TimerSystem)) (l : SessionLayer) : SessionLayer :=
  mkSessionLayer pool (sl_agent_name l) (sl_identity l) (sl_conn_id l) (default_ff_conf l)
    (default_rr_conf l) (default_stream_conf l) (sl_detached l).
Definition set_defaults (ff : FireAndForgetConfiguration) (rr : RequestResponseConfiguration)
    (stream : StreamingConfiguration) (l : SessionLayer) : SessionLayer :=
  mkSessionLayer (sl_pool l) (sl_agent_name l) (sl_identity l) (sl_conn_id l) ff rr stream (sl_detached l).

(** A session as it is when its box is dropped. *)
Definition Session_drop (s : Session) : Session :=
  match s with Session_FireAndForget f => Session_FireAndForget (FireAndForget_drop f) | s => s end.

Section layer.
Context `{Hasher, ErrorText, Rng, DebugAssertions}.
Abbreviation layer A := (sess SessionLayer A).

(** [pool.get(&id)] and a computation on the session found, with its timers. *)
Definition with_session {A} (id : N) (c : sess Session A) : layer (option A) := fun io l =>
  match sl_pool l !! id with
  | None => Done (io, l, None)
  | Some (s, sys) =>
      '(io', s, a) ← c (io_with_timers io sys) s;
      Done (io_with_timers io' (io_timers io), set_pool (<[id := (s, io_timers io')]> (sl_pool l)) l, Some a)
  end.

(** The loop that draws a session id. [fuel] bounds the draws; running out of it
    stands for a loop that goes on. *)
Fixpoint draw_session_id (fuel : nat) (pool : gmap N (Session * TimerSystem)) : layer N :=
  match fuel with
  | 0 => lift (Panic "still drawing a session id")
  | S fuel =>
      id ← random_below SESSION_RANGE_end;
      match pool !! id with
      | None => mret id
      | Some _ => draw_session_id fuel pool
      end
  end.

(** [calculate_hash(&conf.topic)]. *)
Definition AgentType_hash (t : AgentType) : N := calculate_hash_words (type_key t).

(** The session a configuration makes, with its id and its timers. *)
Definition new_session (l : SessionLayer) (session_config : SessionConfig) (id : N)
    : panics (N * (Session * TimerSystem)) :=
  match session_config with
  | SessionConfig_FireAndForget conf =>
      Done (id, (Session_FireAndForget (FireAndForget_new id conf Bidirectional (sl_agent_name l) (sl_identity l)),
                 TimerSystem_empty))
  | SessionConfig_RequestResponse conf =>
      Done (id, (Session_RequestResponse
                   (RequestResponse_new id conf Bidirectional (sl_agent_name l) (sl_identity l)),
                 TimerSystem_empty))
  | SessionConfig_Streaming conf =>
      let direction := sc_direction conf in
      let id := if decide (direction = Bidirectional)
                then wrap_u32 (AgentType_hash (sc_topic conf) `mod` u32_max) else id in
      '(sys, s) ← Streaming_new id conf direction (sl_agent_name l) (sl_identity l) TimerSystem_empty;
      Done (id, (Session_Streaming s, sys))
  end.

Definition create_session (fuel : nat) (session_config : SessionConfig) (id : option N)
    : layer (Result Info SessionError) :=
  l ← get_state;
  id ←? (match id with
         | Some id =>
             if negb (SESSION_RANGE_contains id) then mret (Err (InvalidSessionId (fmt_dec id)))
             else if decide (is_Some (sl_pool l !! id)) then mret (Err (SessionIdAlreadyUsed (fmt_dec id)))
             else mret (Ok id)
         | None => id ← draw_session_id fuel (sl_pool l); mret (Ok id)
         end);
  '(id, s) ← lift (new_session l session_config id);
  if decide (is_Some (sl_pool l !! id)) then lift (Panic "session already exists: true")
  else
    _ ← put_state (set_pool (<[id := s]> (sl_pool l)) l);
    mret (Ok (Info_new id)).

Definition remove_session (id : N) : layer bool :=
  l ← get_state;
  match sl_pool l !! id with
  | None => mret false
  | Some (s, sys) =>
      _ ← put_state (mkSessionLayer (delete id (sl_pool l)) (sl_agent_name l) (sl_identity l) (sl_conn_id l)
            (default_ff_conf l) (default_rr_conf l) (default_stream_conf l)
            (sl_detached l ++ [(Session_drop s, sys)]));
      mret true
  end.

(** ** Messages *)

(** The interceptors, then the session. *)
Definition pass_to_session (interceptors : Common -> ProtoMessage -> ProtoMessage * Result unit SessionError)
    (message : SessionMessage) (direction : MessageDirection) : sess Session (Result unit SessionError) :=
  s ← get_state;
  match interceptors (common_of s) (sm_message message) with
  | (_, Err e) => mret (Err e)
  | (msg, Ok _) => on_message (mkSessionMessage msg (sm_info message)) direction
  end.

Definition handle_message_from_app (message : SessionMessage) (direction : MessageDirection)
    : layer (Result unit SessionError) :=
  let id := in_id (sm_info message) in
  res ← with_session id
    (msg ← lift (with_session_header_mut (SessionHeader_set_session_id id) (sm_message message));
     pass_to_session on_message_from_app_interceptors (mkSessionMessage msg (sm_info message)) direction);
  match res with
  | Some res => mret res
  | None => mret (Err (SessionNotFound (fmt_dec id)))
  end.

(** The configuration of the session a message opens, if it opens one. *)
Definition opens_session (l : SessionLayer) (t : SessionHeaderType) : option SessionConfig :=
  match t with
  | Fnf | FnfReliable | FnfDiscovery => Some (SessionConfig_FireAndForget (default_ff_conf l))
  | Request => Some (SessionConfig_RequestResponse (default_rr_conf l))
  | Stream | BeaconStream => Some (SessionConfig_Streaming (default_stream_conf l))
  | _ => None
  end.

Definition handle_message_from_slim (fuel : nat) (message : SessionMessage) (direction : MessageDirection)
    : layer (Result unit SessionError) :=
  header ← lift (get_session_header (sm_message message));
  match SessionHeaderType_try_from (se_header_type header) with
  | None => mret (Err (ValidationError
              ("session type is not valid: " +:+ unknown_enum_value (se_header_type header))))
  | Some session_type =>
      let id := se_session_id header in
      res ← with_session id (pass_to_session on_message_from_slim_interceptors message direction);
      match res with
      | Some res => mret res
      | None =>
          l ← get_state;
          match opens_session l session_type with
          | None => mret (Err (SessionUnknown (as_str_name session_type)))
          | Some conf =>
              new_session_id ←? create_session fuel conf (Some id);
              _ ← debug_assert (bool_decide (in_id new_session_id = id));
              res ← with_session (in_id new_session_id)
                (pass_to_session on_message_from_slim_interceptors message direction);
              match res with
              | Some res => mret res
              | None => lift (Panic "session not found: test")
              end
          end
      end
  end.

Definition handle_message (fuel : nat) (message : SessionMessage) (direction : MessageDirection)
    : layer (Result unit SessionError) :=
  valid ← lift (validate (sm_message message));
  match valid with
  | Err e => mret (Err (ValidationError (MessageError_fmt e)))
  | Ok _ =>
      publish ← lift (is_publish (sm_message message));
      if negb publish then mret (Err (ValidationError "message is not a publish")) else
      match direction with
      | North => handle_message_from_slim fuel message direction
      | South => handle_message_from_app message direction
      end
  end.

(** ** Configurations and interceptors *)
Definition layer_set_session_config (session_config : SessionConfig) (session_id : option N)
    : layer (Result unit SessionError) :=
  l ← get_state;
  match session_id with
  | None =>
      let ff := default_ff_conf l in
      let rr := default_rr_conf l in
      let stream := default_stream_conf l in
      match session_config with
      | SessionConfig_FireAndForget _ =>
          match FireAndForgetConfiguration_replace ff session_config with
          | Ok ff => _ ← put_state (set_defaults ff rr stream l); mret (Ok tt)
          | Err e => mret (Err e)
          end
      | SessionConfig_RequestResponse _ =>
          match RequestResponseConfiguration_replace rr session_config with
          | Ok rr => _ ← put_state (set_defaults ff rr stream l); mret (Ok tt)
          | Err e => mret (Err e)
          end
      | SessionConfig_Streaming _ =>
          match StreamingConfiguration_replace stream session_config with
          | Ok stream => _ ← put_state (set_defaults ff rr stream l); mret (Ok tt)
          | Err e => mret (Err e)
          end
      end
  | Some id =>
      res ← with_session id (fun io s => let (s, res) := set_session_config s session_config in Done (io, s, res));
      match res with
      | Some res => mret res
      | None => mret (Err (SessionNotFound (fmt_dec id)))
      end
  end.

Definition get_session_config (session_id : N) : layer (Result SessionConfig SessionError) :=
  l ← get_state;
  match sl_pool l !! session_id with
  | Some (s, _) => mret (Ok (cm_session_config (common_of s)))
  | None => mret (Err (SessionNotFound (fmt_dec session_id)))
  end.

Definition get_default_session_config (session_type : SessionType) : layer (Result SessionConfig SessionError) :=
  l ← get_state;
  mret (Ok (match session_type with
            | SessionType_FireAndForget => SessionConfig_FireAndForget (default_ff_conf l)
            | SessionType_RequestResponse => SessionConfig_RequestResponse (default_rr_conf l)
            | SessionType_Streaming => SessionConfig_Streaming (default_stream_conf l)
            end)).

Definition add_session_interceptor (session_id : N) (interceptor : SessionInterceptor)
    : layer (Result unit SessionError) :=
  res ← with_session session_id
    (modify (fun s => set_common (add_interceptor interceptor (common_of s)) s));
  match res with
  | Some _ => mret (Ok tt)
  | None => mret (Err (SessionNotFound (fmt_dec session_id)))
  end.
End layer.
Close Scope string_scope.
