(* ===== verification/SessionLayerProofs.v ===== *)
(** * The session layer: properties

    The pool of a layer is consistent under every operation, messages reach the
    session of their id and no other, and ids are given once. *)
From stdpp Require Import base list gmap strings numbers option.
From S2P Require Import Prelude Proto Encoder Messages Timer Session.
From S2P Require Import ReceiverBuffer RequestResponse FireAndForget Streaming SessionLayer.
Open Scope slim_scope.
Open Scope string_scope.

(** ** The invariant *)
Definition publication (m : ProtoMessage) : Prop := exists h, get_session_header m = Done h.

(** An interceptor that leaves a publication a publication. *)
Definition interceptor_ok (i : SessionInterceptor) : Prop :=
  forall m, publication m -> publication (on_msg_from_app i m).1 /\ publication (on_msg_from_slim i m).1.

(** The configuration is one for sessions of this kind. *)
Definition config_fits (s : Session) (c : SessionConfig) : Prop :=
  match s, c with
  | Session_FireAndForget _, SessionConfig_FireAndForget _ => True
  | Session_RequestResponse _, SessionConfig_RequestResponse _ => True
  | Session_Streaming _, SessionConfig_Streaming _ => True
  | _, _ => False
  end.

Section invariant.
Context `{ErrorText, Rng}.

Record session_ok (id : N) (s : Session) : Prop := {
  so_id : cm_id (common_of s) = id;
  so_interceptors : Forall interceptor_ok (cm_interceptors (common_of s));
  so_config : config_fits s (cm_session_config (common_of s));
}.

Record layer_ok (l : SessionLayer) : Prop := {
  lo_pool : forall id s sys, sl_pool l !! id = Some (s, sys) -> session_ok id s;
  lo_stream : sc_direction (default_stream_conf l) = Receiver;
}.


Lemma run_interceptors_ok f l m :
  (forall i m, i ∈ l -> publication m -> publication (f i m).1) -> publication m ->
  publication (run_interceptors f l m).1.
Proof.
  revert m. induction l as [|i l IH]; intros m Hf Hm; [done|]. cbn [run_interceptors].
  pose proof (Hf i m ltac:(left) Hm) as Hi. destruct (f i m) as [m' [u|e]]; [|done].
  apply IH; [|done]. intros j m0 Hj. apply Hf. by right.
Qed.

Lemma identity_ok identity : interceptor_ok (IdentitySessionInterceptor identity).
Proof. intros m [h Hh]. split; [|by exists h]. destruct identity; by exists h. Qed.

Lemma Common_new_ok id d c src ident : Forall interceptor_ok (cm_interceptors (Common_new id d c src ident)).
Proof. constructor; [apply identity_ok|constructor]. Qed.

Lemma publication_set f m : publication m ->
  exists m', with_session_header_mut f m = Done m' /\ publication m'.
Proof.
  intros [h Hh]. destruct (with_session_header_mut_map f m h Hh) as [H1 H2]. eexists. split; [exact H1|by eexists].
Qed.

(** ** One session *)
Lemma rr_send_total m io r id :
  in_message_id (sm_info m) = Some id ->
  exists io' r' res, send_message_with_timer m io r = Done (io', r', res) /\ rr_common r' = rr_common r.
Proof.
  intros Hid. unfold send_message_with_timer, rr_set_timers. run_sess. rewrite Hid. run_sess.
  destruct (cm_session_config (rr_common r)); run_sess; [by eexists _, _, _| |by eexists _, _, _].
  destruct (ob_open (io_slim io)); run_sess; [|by eexists _, _, _].
  destruct (rr_timers r !! id) as [[old ?]|]; run_sess; by eexists _, _, _.
Qed.

Lemma rr_on_message_total m d io r :
  publication (sm_message m) ->
  exists io' r' res, RequestResponse_on_message m d io r = Done (io', r', res) /\ rr_common r' = rr_common r.
Proof.
  intros Hp. pose proof Hp as [h Hh]. unfold RequestResponse_on_message.
  rewrite (sess_bind_Done _ _ _ _ _ _ _ (sess_lift_Done _ _ _ _ Hh)).
  rewrite (sess_bind_Done _ _ _ _ _ _ _ (eq_refl : get_state io r = Done (io, r, r))).
  destruct d.
  - unfold rr_set_timers. run_sess.
    destruct (in_session_header_type (sm_info m)); run_sess; try (by eexists _, _, _);
      [by destruct (ob_open (io_app io)); run_sess; eexists _, _, _|].
    destruct (rr_timers r !! se_message_id h) as [[t ?]|]; run_sess; [|by eexists _, _, _].
    cbn [Timer_stop]. run_sess. destruct (ob_open (io_app io)); run_sess; by eexists _, _, _.
  - destruct (publication_set (SessionHeader_set_session_id (cm_id (rr_common r))) _ Hp) as (m1&Hm1&Hp1).
    rewrite (sess_bind_Done _ _ _ _ _ _ _ (sess_lift_Done _ _ _ _ Hm1)).
    set (t := in_session_header_type (Info_set_id (cm_id (rr_common r)) (sm_info m))).
    assert (Hsend : exists io' r' res, (message_id ← random_u32;
      msg ← lift (with_session_header_mut (fun h => SessionHeader_set_header_type Request
                    (SessionHeader_set_message_id message_id h)) m1);
      send_message_with_timer (mkSessionMessage msg (Info_set_message_id message_id
        (Info_set_id (cm_id (rr_common r)) (sm_info m))))) io r = Done (io', r', res) /\
      rr_common r' = rr_common r).
    { erewrite sess_bind_Done; [|unfold random_u32, random_below; reflexivity].
      match goal with |- context [SessionHeader_set_message_id ?i] => set (id := i) end.
      destruct (publication_set (fun h => SessionHeader_set_header_type Request
        (SessionHeader_set_message_id id h)) _ Hp1) as (m2&Hm2&_).
      rewrite (sess_bind_Done _ _ _ _ _ _ _ (sess_lift_Done _ _ _ _ Hm2)).
      by eapply rr_send_total. }
    destruct t; try exact Hsend. cbn [in_message_id Info_set_id].
    destruct (in_message_id (sm_info m)) as [id|]; [|by eexists _, _, _].
    destruct (publication_set (fun h => SessionHeader_set_header_type Reply
        (SessionHeader_set_message_id id h)) _ Hp1) as (m2&Hm2&_).
    rewrite (sess_bind_Done _ _ _ _ _ _ _ (sess_lift_Done _ _ _ _ Hm2)).
    run_sess. destruct (ob_open (io_slim io)); run_sess; by eexists _, _, _.
Qed.

Lemma on_message_total id m d io s :
  session_ok id s -> publication (sm_message m) ->
  exists io' s' res, on_message m d io s = Done (io', s', res) /\ session_ok id s'.
Proof.
  intros [Hid Hi Hc] Hp. destruct s as [f|r|s]; cbn [on_message Session_ops].
  - rewrite (sess_bind_Done _ _ _ _ _ _ _ (eq_refl : get_state io (Session_FireAndForget f) = Done (io, _, _))).
    unfold in_box. cbn [on_message FireAndForget_ops]. unfold FireAndForget_on_message, ff_push.
    destruct (ff_loop f); cbn [mbind panics_bind]; (eexists _, _, _; split; [reflexivity|]; by split).
  - rewrite (sess_bind_Done _ _ _ _ _ _ _ (eq_refl : get_state io (Session_RequestResponse r) = Done (io, _, _))).
    unfold in_box. cbn [on_message RequestResponse_ops].
    destruct (rr_on_message_total m d io r Hp) as (io'&r'&res&Hrun&Hcom). rewrite Hrun. cbn [mbind panics_bind].
    eexists _, _, _. split; [reflexivity|]. split; cbn [common_of Session_ops RequestResponse_ops] in *;
      by rewrite Hcom.
  - rewrite (sess_bind_Done _ _ _ _ _ _ _ (eq_refl : get_state io (Session_Streaming s) = Done (io, _, _))).
    unfold in_box. cbn [on_message Streaming_ops mbind panics_bind].
    eexists _, _, _; split; [reflexivity|]; by split.
Qed.
End invariant.

(** ** The layer *)
Section layer_proofs.
Context `{Hasher, ErrorText, Rng, DebugAssertions}.

(** Only the session [id] may have changed. *)
Definition only_session (id : N) (l l' : SessionLayer) : Prop :=
  (forall k, k <> id -> sl_pool l' !! k = sl_pool l !! k) /\
  sl_agent_name l' = sl_agent_name l /\ sl_identity l' = sl_identity l /\ sl_conn_id l' = sl_conn_id l /\
  default_ff_conf l' = default_ff_conf l /\ default_rr_conf l' = default_rr_conf l /\
  default_stream_conf l' = default_stream_conf l /\ sl_detached l' = sl_detached l.

Lemma only_session_refl id l : only_session id l l.
Proof. by repeat split. Qed.
Lemma only_session_set id s l : only_session id l (set_pool (<[id := s]> (sl_pool l)) l).
Proof. split; [|done]. intros k Hk. simpl. by rewrite lookup_insert_ne. Qed.
Lemma only_session_trans id l1 l2 l3 : only_session id l1 l2 -> only_session id l2 l3 -> only_session id l1 l3.
Proof.
  intros (Ha&?&?&?&?&?&?&?) (Hb&?&?&?&?&?&?&?). split; [intros k Hk; by rewrite Hb, Ha|].
  repeat split; congruence.
Qed.

Lemma layer_ok_set l id s sys :
  layer_ok l -> session_ok id s -> layer_ok (set_pool (<[id := (s, sys)]> (sl_pool l)) l).
Proof.
  intros [Hp Hs] Hok. split; [|done]. simpl.
  intros k s' sys' [[<- [= <- <-]]|[_ Hk]]%lookup_insert_Some; [done|by eapply Hp].
Qed.

(** A computation on a session that is there. *)
Lemma with_session_some {A} id (c : sess Session A) io l s sys io' s' a :
  sl_pool l !! id = Some (s, sys) -> c (io_with_timers io sys) s = Done (io', s', a) ->
  with_session id c io l = Done (io_with_timers io' (io_timers io),
    set_pool (<[id := (s', io_timers io')]> (sl_pool l)) l, Some a).
Proof. intros Hl Hc. unfold with_session. rewrite Hl, Hc. done. Qed.

Lemma with_session_none {A} id (c : sess Session A) io l :
  sl_pool l !! id = None -> with_session id c io l = Done (io, l, None).
Proof. intros Hl. unfold with_session. by rewrite Hl. Qed.

Lemma io_with_timers_id io : io_with_timers io (io_timers io) = io.
Proof. by destruct io. Qed.

Lemma pass_total f id m d io s :
  (forall c m, Forall interceptor_ok (cm_interceptors c) -> publication m -> publication (f c m).1) ->
  session_ok id s -> publication (sm_message m) ->
  exists io' s' res, pass_to_session f m d io s = Done (io', s', res) /\ session_ok id s'.
Proof.
  intros Hf Hok Hp. unfold pass_to_session.
  rewrite (sess_bind_Done _ _ _ _ _ _ _ (eq_refl : get_state io s = Done (io, s, s))).
  pose proof (Hf (common_of s) _ (so_interceptors _ _ Hok) Hp) as Hp'.
  destruct (f (common_of s) (sm_message m)) as [m' [u|e]]; [|by eexists _, _, _].
  by apply on_message_total.
Qed.

Lemma app_interceptors_ok c m :
  Forall interceptor_ok (cm_interceptors c) -> publication m ->
  publication (on_message_from_app_interceptors c m).1.
Proof.
  intros Hi. apply run_interceptors_ok. intros i m0 Hin Hm. rewrite Forall_forall in Hi.
  exact (proj1 (Hi i (proj1 (list_elem_of_In _ _) Hin) m0 Hm)).
Qed.
Lemma slim_interceptors_ok c m :
  Forall interceptor_ok (cm_interceptors c) -> publication m ->
  publication (on_message_from_slim_interceptors c m).1.
Proof.
  intros Hi. apply run_interceptors_ok. intros i m0 Hin Hm. rewrite Forall_forall in Hi.
  exact (proj2 (Hi i (proj1 (list_elem_of_In _ _) Hin) m0 Hm)).
Qed.

(** A session computation that cannot panic, on whatever is at [id]. *)
Lemma with_session_total {A} id (c : sess Session A) io l :
  layer_ok l ->
  (forall io s, session_ok id s -> exists io' s' a, c io s = Done (io', s', a) /\ session_ok id s') ->
  exists io' l' r, with_session id c io l = Done (io', l', r) /\ layer_ok l' /\ only_session id l l' /\
    (r = None <-> sl_pool l !! id = None) /\ (r = None -> l' = l /\ io' = io).
Proof.
  intros Hok Hc. destruct (sl_pool l !! id) as [[s sys]|] eqn:Hl.
  - pose proof (lo_pool _ Hok _ _ _ Hl) as Hs.
    destruct (Hc (io_with_timers io sys) s Hs) as (io'&s'&a&Hrun&Hs').
    rewrite (with_session_some _ _ _ _ _ _ _ _ _ Hl Hrun). eexists _, _, _. split; [reflexivity|].
    split; [by apply layer_ok_set|]. split; [apply only_session_set|]. by split.
  - rewrite (with_session_none _ _ _ _ Hl). eexists _, _, _. split; [reflexivity|].
    split; [done|]. split; [apply only_session_refl|]. by split.
Qed.

(** *** Creation *)
Lemma new_session_ok l conf id :
  exists id' s sys, new_session l conf id = Done (id', (s, sys)) /\ session_ok id' s /\
    config_fits s conf /\ cm_session_config (common_of s) = conf /\
    id' = match conf with
          | SessionConfig_Streaming c =>
              if decide (sc_direction c = Bidirectional)
              then wrap_u32 (AgentType_hash (sc_topic c) `mod` u32_max) else id
          | _ => id
          end.
Proof.
  destruct conf as [c|c|c]; cbn [new_session].
  - eexists _, _, _. split; [reflexivity|]. split; [|done]. split; [done|apply Common_new_ok|done].
  - eexists _, _, _. split; [reflexivity|]. split; [|done]. split; [done|apply Common_new_ok|done].
  - unfold Streaming_new, StreamTask_new. cbn [cm_session_config Common_new].
    destruct (Endpoint_new (sc_direction c) TimerSystem_empty) as [sys e]. cbn [mbind panics_bind].
    eexists _, _, _. split; [reflexivity|]. split; [|done]. split; [done|apply Common_new_ok|done].
Qed.

(** The id a new session gets. *)
Definition final_id (conf : SessionConfig) (id : N) : N :=
  match conf with
  | SessionConfig_Streaming c =>
      if decide (sc_direction c = Bidirectional)
      then wrap_u32 (AgentType_hash (sc_topic c) `mod` u32_max) else id
  | _ => id
  end.

(** A session created under an id that is there. *)
Lemma create_given l fuel conf id io :
  layer_ok l ->
  create_session fuel conf (Some id) io l =
    if negb (SESSION_RANGE_contains id) then Done (io, l, Err (InvalidSessionId (fmt_dec id)))
    else if decide (is_Some (sl_pool l !! id)) then Done (io, l, Err (SessionIdAlreadyUsed (fmt_dec id)))
    else if decide (is_Some (sl_pool l !! final_id conf id)) then Panic "session already exists: true"
    else match new_session l conf id with
         | Done (id', s) => Done (io, set_pool (<[final_id conf id := s]> (sl_pool l)) l, Ok (Info_new (final_id conf id)))
         | Panic why => Panic why
         end.
Proof.
  intros Hok. unfold create_session. run_sess.
  destruct (SESSION_RANGE_contains id); cbn [negb]; run_sess; [|done].
  destruct (decide (is_Some (sl_pool l !! id))); run_sess; [done|].
  destruct (new_session_ok l conf id) as (id'&s&sys&Hn&_&_&_&Hid). rewrite Hn. run_sess.
  fold (final_id conf id) in Hid. rewrite Hid. destruct (decide _); run_sess; done.
Qed.

(** *** Messages *)
Lemma from_app_total m io l :
  layer_ok l -> publication (sm_message m) ->
  exists io' l' res, handle_message_from_app m South io l = Done (io', l', res) /\ layer_ok l' /\
    only_session (in_id (sm_info m)) l l'.
Proof.
  intros Hok Hp. unfold handle_message_from_app.
  destruct (publication_set (SessionHeader_set_session_id (in_id (sm_info m))) _ Hp) as (m1&Hm1&Hp1).
  edestruct (with_session_total (in_id (sm_info m))
    (msg ← lift (with_session_header_mut (SessionHeader_set_session_id (in_id (sm_info m))) (sm_message m));
     pass_to_session on_message_from_app_interceptors (mkSessionMessage msg (sm_info m)) South) io l Hok)
    as (io'&l'&r&Hrun&Hok'&Honly&_&_).
  { intros io0 s Hs. rewrite (sess_bind_Done _ _ _ _ _ _ _ (sess_lift_Done _ _ _ _ Hm1)).
    apply pass_total; [apply app_interceptors_ok|done|done]. }
  rewrite (sess_bind_Done _ _ _ _ _ _ _ Hrun). destruct r as [res|]; eexists _, _, _; by split.
Qed.

(** A message for a session that is not there. *)
Lemma from_slim_opens fuel conf id m io l :
  layer_ok l -> publication (sm_message m) -> sl_pool l !! id = None -> final_id conf id = id ->
  exists io' l' res,
    (new_session_id ←? create_session fuel conf (Some id);
     _ ← debug_assert (bool_decide (in_id new_session_id = id));
     res ← with_session (in_id new_session_id)
       (pass_to_session on_message_from_slim_interceptors m North);
     match res with Some res => mret res | None => lift (Panic "session not found: test") end) io l =
      Done (io', l', res) /\ layer_ok l' /\ only_session id l l'.
Proof.
  intros Hok Hp Hnone Hid. unfold try_bind.
  destruct (new_session_ok l conf id) as (id'&s&sys&Hn&Hs&_&_&Hid'). fold (final_id conf id) in Hid'.
  rewrite Hid in Hid'. subst id'.
  pose proof (create_given l fuel conf id io Hok) as Hc. rewrite Hid, Hnone, Hn in Hc.
  rewrite !decide_False in Hc by (by intros []).
  destruct (SESSION_RANGE_contains id); cbn [negb] in Hc.
  2:{ rewrite (sess_bind_Done _ _ _ _ _ _ _ Hc). eexists _, _, _. split; [reflexivity|].
      split; [done|apply only_session_refl]. }
  rewrite (sess_bind_Done _ _ _ _ _ _ _ Hc). cbn [in_id Info_new].
  rewrite bool_decide_eq_true_2 by done.
  erewrite sess_bind_Done; [|unfold debug_assert; cbn [negb]; rewrite andb_false_r; reflexivity].
  destruct (pass_total on_message_from_slim_interceptors id m North (io_with_timers io sys) s
    slim_interceptors_ok Hs Hp) as (io'&s'&res&Hrun&Hs').
  erewrite sess_bind_Done; [|eapply with_session_some; [apply lookup_insert_eq|exact Hrun]].
  eexists _, _, _. split; [reflexivity|]. split; [apply layer_ok_set; [by apply layer_ok_set|done]|].
  eapply only_session_trans; [apply only_session_set|]. apply only_session_set.
Qed.

Lemma opens_keeps_id l t conf id : layer_ok l -> opens_session l t = Some conf -> final_id conf id = id.
Proof.
  intros Hok Ho. destruct t; simplify_eq/=; try done; by rewrite (lo_stream _ Hok).
Qed.

Definition header_session (m : ProtoMessage) : N :=
  match get_session_header m with Done h => se_session_id h | Panic _ => 0 end.

Lemma from_slim_total fuel m io l :
  layer_ok l -> publication (sm_message m) ->
  exists io' l' res, handle_message_from_slim fuel m North io l = Done (io', l', res) /\ layer_ok l' /\
    only_session (header_session (sm_message m)) l l'.
Proof.
  intros Hok Hp. pose proof Hp as [h Hh]. unfold handle_message_from_slim, header_session. rewrite Hh.
  rewrite (sess_bind_Done _ _ _ _ _ _ _ (sess_lift_Done _ _ _ _ eq_refl)).
  destruct (SessionHeaderType_try_from (se_header_type h)) as [t|].
  2:{ eexists _, _, _. split; [reflexivity|]. split; [done|apply only_session_refl]. }
  set (id := se_session_id h).
  destruct (with_session_total id (pass_to_session on_message_from_slim_interceptors m North) io l Hok)
    as (io'&l'&r&Hrun&Hok'&Honly&Hr&Hsame).
  { intros io0 s Hs. apply pass_total; [apply slim_interceptors_ok|done|done]. }
  rewrite (sess_bind_Done _ _ _ _ _ _ _ Hrun). destruct r as [res|]; [eexists _, _, _; by split|].
  destruct (Hsame eq_refl) as [-> ->].
  rewrite (sess_bind_Done _ _ _ _ _ _ _ (eq_refl : get_state io l = Done (io, l, l))).
  destruct (opens_session l t) as [conf|] eqn:Hopens.
  - apply from_slim_opens; [done|done|by apply Hr|by eapply opens_keeps_id].
  - eexists _, _, _. split; [reflexivity|]. split; [done|apply only_session_refl].
Qed.

Definition target_session (m : SessionMessage) (d : MessageDirection) : N :=
  match d with North => header_session (sm_message m) | South => in_id (sm_info m) end.

Lemma layer_handle_total fuel m d io l :
  layer_ok l ->
  exists io' l' res, handle_message fuel m d io l = Done (io', l', res) /\ layer_ok l' /\
    only_session (target_session m d) l l'.
Proof.
  intros Hok. unfold handle_message.
  destruct (validate_iff (sm_message m)) as (r&Hr&Hiff).
  rewrite (sess_bind_Done _ _ _ _ _ _ _ (sess_lift_Done _ _ _ _ Hr)).
  assert (Hquiet : forall res : Result unit SessionError, exists io' l' res',
    Done (io, l, res) = Done (io', l', res') /\ layer_ok l' /\ only_session (target_session m d) l l').
  { intros res. eexists _, _, _. split; [reflexivity|]. split; [done|apply only_session_refl]. }
  destruct r as [[]|e]; [|apply Hquiet].
  destruct (valid_accessors (sm_message m) (proj1 Hiff eq_refl)) as (t&h&dst&Ht&_&_&_&_&Hpub).
  assert (His : is_publish (sm_message m) = Done (match t with Publish _ => true | _ => false end)).
  { unfold is_publish. by rewrite Ht. }
  rewrite (sess_bind_Done _ _ _ _ _ _ _ (sess_lift_Done _ _ _ _ His)).
  destruct t as [| |p]; cbn [negb]; [apply Hquiet..|].
  assert (Hp : publication (sm_message m)) by (destruct (Hpub p eq_refl) as [sh Hsh]; by exists sh).
  destruct d; [by apply from_slim_total|by apply from_app_total].
Qed.
End layer_proofs.

(** *** The other operations *)

(** What the tasks of a session do: the loop of a fire-and-forget session, the
    end of a request's timer, the loop of a streaming session, which takes the
    next message of its inbox or an event of its timers. *)
Inductive SessionTask : Type :=
| TaskLoop (turn : LoopTurn)
| TaskExpire (message_id : N)
| TaskRecv
| TaskTimer (ev : StreamEvent).

Section tasks.
Context `{Hasher, BuildProfile, Rng, DebugAssertions, Logging, HashIter}.

Definition stream_task (s : Streaming) (inbox : list (ProtoMessage * MessageDirection)) (ev : StreamEvent)
    : sess Session unit := fun io _ =>
  '(io, t, _) ← stream_turn ev io (sg_task s);
  Done (io, Session_Streaming (mkStreaming (sg_common s) inbox t), tt).

Definition run_task (task : SessionTask) : sess Session unit := fun io s =>
  match task, s with
  | TaskLoop turn, Session_FireAndForget f => in_box Session_FireAndForget (ff_turn turn) f io s
  | TaskExpire id, Session_RequestResponse r => in_box Session_RequestResponse (rr_on_failure id 1) r io s
  | TaskRecv, Session_Streaming st =>
      match sg_inbox st with
      | [] => Done (io, s, tt)
      | (msg, d) :: inbox => stream_task st inbox (StreamMsg msg d) io s
      end
  | TaskTimer ev, Session_Streaming st => stream_task st (sg_inbox st) ev io s
  | _, _ => Done (io, s, tt)
  end.
End tasks.

Section steps.
Context `{Hasher, BuildProfile, ErrorText, Rng, DebugAssertions, Logging, HashIter}.

(** What a layer does: any operation that returns, on any arguments, and what
    its sessions' tasks do. An interceptor added keeps publications
    publications. *)
Inductive layer_step : SessionIo * SessionLayer -> SessionIo * SessionLayer -> Prop :=
| step_create fuel conf id io l io' l' res :
    create_session fuel conf id io l = Done (io', l', res) -> layer_step (io, l) (io', l')
| step_remove id io l io' l' res :
    remove_session id io l = Done (io', l', res) -> layer_step (io, l) (io', l')
| step_message fuel m d io l io' l' res :
    handle_message fuel m d io l = Done (io', l', res) -> layer_step (io, l) (io', l')
| step_config conf id io l io' l' res :
    layer_set_session_config conf id io l = Done (io', l', res) -> layer_step (io, l) (io', l')
| step_interceptor id i io l io' l' res :
    interceptor_ok i -> add_session_interceptor id i io l = Done (io', l', res) -> layer_step (io, l) (io', l')
| step_task id task io l io' l' res :
    with_session id (run_task task) io l = Done (io', l', res) -> layer_step (io, l) (io', l').

Lemma draw_done fuel pool : forall io l io' l' id,
  draw_session_id fuel pool io l = Done (io', l', id) ->
  l' = l /\ pool !! id = None /\ SESSION_RANGE_contains id = true /\
  io_slim io' = io_slim io /\ io_app io' = io_app io.
Proof.
  induction fuel as [|fuel IH]; intros io l io' l' id; cbn [draw_session_id]; [done|]. run_sess.
  destruct (pool !! (draw (io_draws io) `mod` SESSION_RANGE_end)%N) eqn:Hp; run_sess.
  - intros Hd. apply IH in Hd. done.
  - intros [= <- <- <-]. split; [done|]. split; [done|]. split; [|done].
    apply bool_decide_eq_true_2. by apply N.mod_lt.
Qed.

(** With a free id among the next draws, the loop ends. *)
Lemma draw_total fuel pool : forall io (l : SessionLayer),
  (exists k, k < fuel /\ pool !! (draw (io_draws io + k) `mod` SESSION_RANGE_end)%N = None) ->
  exists io' id, draw_session_id fuel pool io l = Done (io', l, id).
Proof.
  induction fuel as [|fuel IH]; intros io l (k&Hk&Hfree); [lia|]. cbn [draw_session_id]. run_sess.
  destruct (pool !! (draw (io_draws io) `mod` SESSION_RANGE_end)%N) eqn:Hp; run_sess; [|by eexists _, _].
  destruct k as [|k]; [rewrite Nat.add_0_r in Hfree; congruence|].
  apply IH. exists k. split; [lia|]. cbn [io_draws]. by replace (io_draws io + 1 + k) with (io_draws io + S k) by lia.
Qed.

(** Creating a session adds the new session to the pool, or nothing. *)
Lemma create_session_cases fuel conf id io l io' l' res :
  create_session fuel conf id io l = Done (io', l', res) ->
  io_slim io' = io_slim io /\ io_app io' = io_app io /\
  (l' = l \/ exists id0 id1 s, new_session l conf id0 = Done (id1, s) /\ sl_pool l !! id1 = None /\
     l' = set_pool (<[id1 := s]> (sl_pool l)) l /\ res = Ok (Info_new id1)).
Proof.
  unfold create_session, try_bind.
  rewrite (sess_bind_Done _ _ _ _ _ _ _ (eq_refl : get_state io l = Done (io, l, l))).
  match goal with |- context [((?c ≫= _) io l)] =>
    assert (Hc : forall io1 l1 r, c io l = Done (io1, l1, r) ->
      l1 = l /\ io_slim io1 = io_slim io /\ io_app io1 = io_app io); [|destruct (c io l) as [[[io1 l1] r]|] eqn:Hc1] end.
  { intros io1 l1 r. destruct id as [id|].
    - destruct (negb _); run_sess; [by intros [= <- <- _]|]. destruct (decide _); run_sess; by intros [= <- <- _].
    - unfold mbind, sess_bind. destruct (draw_session_id fuel (sl_pool l) io l) as [[[io2 l2] id2]|] eqn:Hd; [|done].
      intros [= <- <- _]. by apply draw_done in Hd as (->&_&_&?&?). }
  2:{ unfold mbind, sess_bind in *. by rewrite Hc1. }
  rewrite (sess_bind_Done _ _ _ _ _ _ _ Hc1). destruct (Hc _ _ _ eq_refl) as (->&Hs&Ha).
  destruct r as [id1|e]; [|run_sess; intros [= <- <- _]; auto].
  destruct (new_session l conf id1) as [[id' s]|] eqn:Hn; [|unfold lift, mbind, sess_bind; done].
  rewrite (sess_bind_Done _ _ _ _ _ _ _ (sess_lift_Done _ _ _ _ eq_refl)). cbv beta iota.
  destruct (decide _) as [|Hfree]; [done|]. run_sess. intros [= <- <- <-]. split; [done|]. split; [done|]. right.
  exists id1, id', s. split; [done|]. split; [by apply eq_None_not_Some|done].
Qed.

Lemma create_inv fuel conf id io l io' l' res :
  layer_ok l -> create_session fuel conf id io l = Done (io', l', res) -> layer_ok l'.
Proof.
  intros Hok (_&_&[->|(id0&id1&s&Hn&_&->&_)])%create_session_cases; [done|].
  destruct (new_session_ok l conf id0) as (id'&s'&sys&Hn'&Hs&_). rewrite Hn in Hn'. injection Hn' as -> ->.
  by apply layer_ok_set.
Qed.

Lemma with_session_inv {A} id (c : sess Session A) io l io' l' r :
  layer_ok l -> with_session id c io l = Done (io', l', r) ->
  (forall io s io' s' a, session_ok id s -> c io s = Done (io', s', a) -> session_ok id s') -> layer_ok l'.
Proof.
  intros Hok Hrun Hc. unfold with_session in Hrun. destruct (sl_pool l !! id) as [[s sys]|] eqn:Hl; [|congruence].
  destruct (c (io_with_timers io sys) s) as [[[io1 s1] a]|] eqn:Hc1; cbn [mbind panics_bind] in Hrun; [|done].
  injection Hrun as <- <- <-. apply layer_ok_set; [done|].
  eapply Hc; [|exact Hc1]. by eapply lo_pool.
Qed.

Lemma remove_inv id io l io' l' res :
  layer_ok l -> remove_session id io l = Done (io', l', res) -> layer_ok l'.
Proof.
  intros Hok. unfold remove_session. run_sess. destruct (sl_pool l !! id) as [[s sys]|]; run_sess; [|congruence].
  intros [= <- <- <-]. destruct Hok as [Hp Hs]. split; [|done]. cbn [sl_pool]. intros k s' sys' [_ Hk]%lookup_delete_Some. by eapply Hp.
Qed.

(** A configuration of another kind is refused. *)
Lemma Common_config_fits s c c' r :
  config_fits s (cm_session_config c) -> Common_set_session_config c r.1 = (c', r.2) ->
  cm_id c' = cm_id c /\ cm_interceptors c' = cm_interceptors c /\ config_fits s (cm_session_config c').
Proof.
  intros Hf. unfold Common_set_session_config.
  destruct (cm_session_config c) as [d|d|d] eqn:Hd;
    [destruct (FireAndForgetConfiguration_replace d r.1)|destruct (RequestResponseConfiguration_replace d r.1)|
     destruct (StreamingConfiguration_replace d r.1)]; intros [= <- _]; cbn; rewrite ?Hd; done.
Qed.

Lemma set_config_ok id s c s' res :
  session_ok id s -> set_session_config s c = (s', res) -> session_ok id s'.
Proof.
  intros [Hid Hi Hc]. destruct s as [f|r|st]; cbn [set_session_config Session_ops FireAndForget_ops
    RequestResponse_ops Streaming_ops common_of] in *.
  - unfold FireAndForget_set_session_config.
    destruct (Common_set_session_config (ff_common f) c) as [c' r'] eqn:Hset.
    destruct (Common_config_fits (Session_FireAndForget f) (ff_common f) c' (c, r') Hc Hset) as (H1'&H2'&H3').
    destruct r' as [u|e]; [|intros [= <- <-]; by split].
    destruct c as [cf|?|?]; [|intros [= <- <-]; split; cbn; congruence || (by rewrite H2') || done..].
    unfold ff_push. destruct (ff_loop f); intros [= <- <-]; split; cbn; congruence || (by rewrite H2') || done.
  - unfold delegate_set_session_config. destruct (Common_set_session_config (rr_common r) c) as [c' r'] eqn:Hset.
    destruct (Common_config_fits (Session_RequestResponse r) (rr_common r) c' (c, r') Hc Hset) as (H1'&H2'&H3').
    intros [= <- <-]; split; cbn; congruence || (by rewrite H2') || done.
  - unfold delegate_set_session_config. destruct (Common_set_session_config (sg_common st) c) as [c' r'] eqn:Hset.
    destruct (Common_config_fits (Session_Streaming st) (sg_common st) c' (c, r') Hc Hset) as (H1'&H2'&H3').
    intros [= <- <-]; split; cbn; congruence || (by rewrite H2') || done.
Qed.

Lemma config_inv conf id io l io' l' res :
  layer_ok l -> layer_set_session_config conf id io l = Done (io', l', res) -> layer_ok l'.
Proof.
  intros Hok. unfold layer_set_session_config.
  rewrite (sess_bind_Done _ _ _ _ _ _ _ (eq_refl : get_state io l = Done (io, l, l))).
  destruct id as [id|].
  - unfold mbind at 1, sess_bind at 1.
    destruct (with_session _ _ io l) as [[[io1 l1] r]|] eqn:Hw; [|done].
    apply with_session_inv in Hw; [|done|].
    + destruct r; run_sess; congruence.
    + intros io0 s io2 s' a Hs. destruct (set_session_config s conf) as [s2 r2] eqn:Hset.
      intros [= <- <- <-]. by eapply set_config_ok.
  - destruct Hok as [Hp Hs]. destruct conf as [c|c|c]; cbn [FireAndForgetConfiguration_replace
      RequestResponseConfiguration_replace].
    + run_sess. intros [= <- <- <-]. by split.
    + run_sess. intros [= <- <- <-]. by split.
    + unfold StreamingConfiguration_replace. destruct (decide _) as [Hne|Heq]; run_sess.
      * intros [= <- <- <-]. by split.
      * intros [= <- <- <-]. split; [done|]. cbn. destruct (decide (sc_direction (default_stream_conf l) = sc_direction c)); [congruence|done].
Qed.

Lemma interceptor_inv id i io l io' l' res :
  layer_ok l -> interceptor_ok i -> add_session_interceptor id i io l = Done (io', l', res) -> layer_ok l'.
Proof.
  intros Hok Hi. unfold add_session_interceptor, mbind, sess_bind.
  destruct (with_session _ _ io l) as [[[io1 l1] r]|] eqn:Hw; [|done].
  apply with_session_inv in Hw; [|done|].
  - destruct r; run_sess; congruence.
  - intros io0 s io2 s' a [Hid Hf Hc] [= <- <- <-].
    assert (Hnew : Forall interceptor_ok (cm_interceptors (common_of s) ++ [i])).
    { apply Forall_app. split; [done|]. constructor; [done|constructor]. }
    destruct s; split; done.
Qed.

Lemma ff_turn_common turn io f io' f' :
  ff_turn turn io f = Done (io', f', tt) -> ff_common f' = ff_common f.
Proof.
  unfold ff_turn. destruct (ff_loop f) as [st|]; [|congruence]. destruct turn.
  - destruct (ff_inbox f) as [|m inbox]; [congruence|].
    destruct (process_internal m io st) as [[[io1 st1] u]|]; [|done]. by intros [= _ <-].
  - destruct (ff_cancelled f); [|congruence].
    destruct (leave_loop io st) as [[[io1 st1] u]|]; [|done]. by intros [= _ <-].
Qed.

Lemma rr_on_failure_common id n io r io' r' :
  rr_on_failure id n io r = Done (io', r', tt) -> rr_common r' = rr_common r.
Proof.
  unfold rr_on_failure, rr_set_timers. run_sess. destruct (_ && _); [done|].
  destruct (rr_timers r !! id) as [[t m]|]; run_sess; [|done].
  destruct (ob_open (io_app io)); run_sess; by intros [= _ <-].
Qed.

Lemma task_inv id task io l io' l' res :
  layer_ok l -> with_session id (run_task task) io l = Done (io', l', res) -> layer_ok l'.
Proof.
  intros Hok Hw. apply with_session_inv in Hw; [done|done|].
  intros io0 s io2 s' [] Hs Hrun. pose proof Hs as [Hid Hf Hc].
  assert (Hst : forall st inbox ev, s = Session_Streaming st ->
    stream_task st inbox ev io0 s = Done (io2, s', tt) -> session_ok id s').
  { intros st inbox ev -> Ht. unfold stream_task in Ht.
    destruct (stream_turn ev io0 (sg_task st)) as [[[io3 t] u]|]; [|done]. injection Ht as _ <-. by split. }
  destruct task as [turn|mid| |ev], s as [f|r|st]; cbn [run_task] in Hrun; try (by injection Hrun as _ <-).
  - unfold in_box in Hrun. destruct (ff_turn turn io0 f) as [[[io3 f'] []]|] eqn:Hf'; [|done].
    injection Hrun as _ <-. apply ff_turn_common in Hf'. split; cbn in *; by rewrite Hf'.
  - unfold in_box in Hrun. destruct (rr_on_failure mid 1 io0 r) as [[[io3 r'] []]|] eqn:Hr'; [|done].
    injection Hrun as _ <-. apply rr_on_failure_common in Hr'. split; cbn in *; by rewrite Hr'.
  - destruct (sg_inbox st) as [|[m d] inbox]; [by injection Hrun as _ <-|]. by eapply Hst.
  - by eapply Hst.
Qed.

Lemma layer_step_ok x y : layer_step x y -> layer_ok x.2 -> layer_ok y.2.
Proof.
  destruct 1; cbn [snd]; intros Hok.
  - by eapply create_inv.
  - by eapply remove_inv.
  - match goal with Hrun : handle_message ?f ?m ?d ?io ?l = _ |- _ =>
      destruct (layer_handle_total f m d io l Hok) as (io1&l1&r1&Hrun1&Hok1&_); rewrite Hrun1 in Hrun;
      by injection Hrun as _ <- _ end.
  - by eapply config_inv.
  - by eapply interceptor_inv.
  - by eapply task_inv.
Qed.

Lemma layer_ok_new name identity conn : layer_ok (SessionLayer_new name identity conn).
Proof. split; [|done]. intros id s sys Hl. cbn [sl_pool SessionLayer_new] in Hl. by rewrite lookup_empty in Hl. Qed.

Lemma layer_reachable_ok io name identity conn x :
  rtc layer_step (io, SessionLayer_new name identity conn) x -> layer_ok x.2.
Proof.
  intros Hr. remember (io, SessionLayer_new name identity conn) as x0 eqn:Hx0.
  assert (Hok : layer_ok x0.2) by (subst; apply layer_ok_new). clear Hx0.
  induction Hr as [|x0 x1 x2 Hstep _ IH]; [done|]. apply IH. by eapply layer_step_ok.
Qed.
End steps.

(** ** Properties *)

(** C8: In every state a session layer can reach, through any operations on any
    arguments and any activity of its sessions, the pool holds under each id a
    session of that id with a configuration of its kind, and the layer takes any
    message at all, valid or not, from the network or from the application,
    without panicking; the message changes the session it names and no other
    session. *)
Theorem session_layer_safe `{Hasher, BuildProfile, ErrorText, Rng, DebugAssertions, Logging, HashIter}
    io0 name identity conn io l :
  rtc layer_step (io0, SessionLayer_new name identity conn) (io, l) ->
  layer_ok l /\
  forall fuel m d, exists io' l' res, handle_message fuel m d io l = Done (io', l', res) /\ layer_ok l' /\
    only_session (target_session m d) l l'.
Proof.
  intros Hr. pose proof (layer_reachable_ok _ _ _ _ _ Hr) as Hok. split; [exact Hok|].
  intros fuel m d. by apply layer_handle_total.
Qed.

(** The session a message of the network reaches: the one of its id, or a new
    one of the default configuration when the message opens one and the id is
    in the range of session ids. *)
Definition route `{Hasher, ErrorText} (l : SessionLayer) (t : SessionHeaderType) (id : N)
    : Result (Session * TimerSystem) SessionError :=
  match sl_pool l !! id with
  | Some s => Ok s
  | None =>
      match opens_session l t with
      | None => Err (SessionUnknown (as_str_name t))
      | Some conf =>
          if SESSION_RANGE_contains id then
            match new_session l conf id with
            | Done (_, s) => Ok s
            | Panic why => Err (Processing why)
            end
          else Err (InvalidSessionId (fmt_dec id))
      end
  end.

(** A publication of the network, in terms of [route]. *)
Lemma network_routed `{Hasher, ErrorText, Rng, DebugAssertions} fuel m h t io l :
  layer_ok l -> valid_message (sm_message m) -> is_publish (sm_message m) = Done true ->
  get_session_header (sm_message m) = Done h -> SessionHeaderType_try_from (se_header_type h) = Some t ->
  handle_message fuel m North io l =
    match route l t (se_session_id h) with
    | Err e => Done (io, l, Err e)
    | Ok (s, sys) =>
        '(io', s', res) ← pass_to_session on_message_from_slim_interceptors m North (io_with_timers io sys) s;
        Done (io_with_timers io' (io_timers io),
              set_pool (<[se_session_id h := (s', io_timers io')]> (sl_pool l)) l, res)
    end.
Proof.
  intros Hok Hv Hpub Hh Ht. unfold handle_message.
  destruct (validate_iff (sm_message m)) as (r&Hr&Hiff). rewrite (proj2 Hiff Hv) in Hr.
  rewrite (sess_bind_Done _ _ _ _ _ _ _ (sess_lift_Done _ _ _ _ Hr)).
  rewrite (sess_bind_Done _ _ _ _ _ _ _ (sess_lift_Done _ _ _ _ Hpub)). cbn [negb].
  unfold handle_message_from_slim.
  rewrite (sess_bind_Done _ _ _ _ _ _ _ (sess_lift_Done _ _ _ _ Hh)). rewrite Ht.
  set (id := se_session_id h). unfold route. destruct (sl_pool l !! id) as [[s sys]|] eqn:Hl.
  - assert (Hp : publication (sm_message m)) by (by exists h).
    destruct (pass_total on_message_from_slim_interceptors id m North (io_with_timers io sys) s
      slim_interceptors_ok (lo_pool _ Hok _ _ _ Hl) Hp) as (io'&s'&res&Hrun&_).
    rewrite Hrun. cbn [mbind panics_bind].
    by rewrite (sess_bind_Done _ _ _ _ _ _ _ (with_session_some _ _ _ _ _ _ _ _ _ Hl Hrun)).
  - rewrite (sess_bind_Done _ _ _ _ _ _ _ (with_session_none _ _ _ _ Hl)).
    rewrite (sess_bind_Done _ _ _ _ _ _ _ (eq_refl : get_state io l = Done (io, l, l))).
    destruct (opens_session l t) as [conf|] eqn:Hopens; [|done].
    pose proof (create_given l fuel conf id io Hok) as Hc.
    destruct (new_session_ok l conf id) as (id'&s&sys&Hn&Hs&_&_&Hid').
    fold (final_id conf id) in Hid'. rewrite (opens_keeps_id l t conf id Hok Hopens) in *. subst id'.
    rewrite Hl, Hn in Hc. rewrite !decide_False in Hc by (by intros []). unfold try_bind.
    destruct (SESSION_RANGE_contains id); cbn [negb] in Hc; rewrite (sess_bind_Done _ _ _ _ _ _ _ Hc); [|done].
    cbn [in_id Info_new]. rewrite bool_decide_eq_true_2 by done. rewrite Hn.
    erewrite sess_bind_Done; [|unfold debug_assert; cbn [negb]; rewrite andb_false_r; reflexivity].
    assert (Hp : publication (sm_message m)) by (by exists h).
    destruct (pass_total on_message_from_slim_interceptors id m North (io_with_timers io sys) s
      slim_interceptors_ok Hs Hp) as (io'&s'&res&Hrun&_).
    rewrite Hrun. cbn [mbind panics_bind].
    erewrite sess_bind_Done; [|eapply with_session_some; [apply lookup_insert_eq|exact Hrun]].
    cbn. unfold set_pool. cbn. by rewrite insert_insert_eq.
Qed.

(** *** The reference: what a publication of the network is for *)

(** The messages that open a session, and the session each opens: an empty one of
    the kind, with the id of the message, the defaults of the layer, and the
    interceptor that checks identities. *)
Definition openers : list SessionHeaderType := [Fnf; FnfReliable; FnfDiscovery; Request; Stream; BeaconStream].
Inductive opened `{Hasher} (l : SessionLayer) (id : N) : SessionHeaderType -> Session -> TimerSystem -> Prop :=
| opened_fire_and_forget t :
    t ∈ [Fnf; FnfReliable; FnfDiscovery] ->
    opened l id t (Session_FireAndForget
      (FireAndForget_new id (default_ff_conf l) Bidirectional (sl_agent_name l) (sl_identity l))) TimerSystem_empty
| opened_request :
    opened l id Request (Session_RequestResponse
      (RequestResponse_new id (default_rr_conf l) Bidirectional (sl_agent_name l) (sl_identity l))) TimerSystem_empty
| opened_stream t sys g :
    t ∈ [Stream; BeaconStream] ->
    Streaming_new id (default_stream_conf l) (sc_direction (default_stream_conf l)) (sl_agent_name l) (sl_identity l)
      TimerSystem_empty = Done (sys, g) ->
    opened l id t (Session_Streaming g) sys.

(** What the interceptors make of a message, the first to refuse ends it. *)
Inductive passes : list SessionInterceptor -> ProtoMessage -> Result ProtoMessage SessionError -> Prop :=
| passes_all msg : passes [] msg (Ok msg)
| passes_next i l msg msg' r : on_msg_from_slim i msg = (msg', Ok tt) -> passes l msg' r -> passes (i :: l) msg r
| passes_refused i l msg msg' e : on_msg_from_slim i msg = (msg', Err e) -> passes (i :: l) msg (Err e).
Lemma passes_run l : forall msg,
  passes l msg (match run_interceptors on_msg_from_slim l msg with (msg', Ok _) => Ok msg' | (_, Err e) => Err e end).
Proof.
  induction l as [|i l IH]; intros msg; cbn; [constructor|].
  destruct (on_msg_from_slim i msg) as [msg' [[]|e]] eqn:Hi; [by econstructor|by econstructor].
Qed.

(** How a session takes a message: the tasks of two kinds find it at the end of
    their queue, if they still run; a request/response session handles it. *)
Definition takes `{Rng} (m : SessionMessage) (s : Session) (io : SessionIo) (s' : Session) (io' : SessionIo)
    (res : Result unit SessionError) : Prop :=
  match s with
  | Session_FireAndForget f => io' = io /\
      match ff_loop f with
      | Some _ => s' = Session_FireAndForget (mkFireAndForget (ff_common f) (ff_inbox f ++ [OnMessage m North])
                         (ff_cancelled f) (ff_loop f)) /\ res = Ok tt
      | None => s' = s /\ res = Err (SessionClosed "channel closed")
      end
  | Session_Streaming g => io' = io /\
      s' = Session_Streaming (mkStreaming (sg_common g) (sg_inbox g ++ [(sm_message m, North)]) (sg_task g)) /\ res = Ok tt
  | Session_RequestResponse r => exists r',
      RequestResponse_on_message m North io r = Done (io', r', res) /\ s' = Session_RequestResponse r'
  end.
Definition delivered_to `{ErrorText, Rng} (m : SessionMessage) (s : Session) (io : SessionIo) (s' : Session) (io' : SessionIo)
    (res : Result unit SessionError) : Prop :=
  exists r, passes (cm_interceptors (common_of s)) (sm_message m) r /\
    match r with
    | Err e => s' = s /\ io' = io /\ res = Err e
    | Ok msg => takes (mkSessionMessage msg (sm_info m)) s io s' io' res
    end.

Lemma pass_delivers `{ErrorText, Rng} m s io io' s' res :
  pass_to_session on_message_from_slim_interceptors m North io s = Done (io', s', res) ->
  delivered_to m s io s' io' res.
Proof.
  intros Hrun. eexists. split; [apply passes_run|]. revert Hrun. unfold pass_to_session.
  rewrite (sess_bind_Done _ _ _ _ _ _ _ (eq_refl : get_state io s = Done (io, s, s))).
  unfold on_message_from_slim_interceptors.
  destruct (run_interceptors on_msg_from_slim (cm_interceptors (common_of s)) (sm_message m)) as [msg [[]|e]];
    [|by intros [= <- <- <-]].
  cbn [on_message Session_ops]. rewrite (sess_bind_Done _ _ _ _ _ _ _ (eq_refl : get_state io s = Done (io, s, s))).
  destruct s as [f|r|g].
  - unfold in_box. cbn. unfold FireAndForget_on_message, ff_push. destruct (ff_loop f); cbn; by intros [= <- <- <-].
  - unfold in_box. cbn.
    destruct (RequestResponse_on_message _ North io r) as [[[io1 r1] res1]|] eqn:Hr; [|done].
    intros [= <- <- <-]. by exists r1.
  - unfold in_box. cbn. by intros [= <- <- <-].
Qed.
Lemma opens_opened `{Hasher, ErrorText, Rng} l t id s sys :
  layer_ok l -> opened l id t s sys ->
  exists conf, opens_session l t = Some conf /\ new_session l conf id = Done (id, (s, sys)).
Proof.
  intros Hok. destruct 1 as [t Ht| |t sys g Ht Hg].
  - exists (SessionConfig_FireAndForget (default_ff_conf l)). split; [|done].
    rewrite !elem_of_cons, elem_of_nil in Ht. by destruct Ht as [->|[->|[->|[]]]].
  - by exists (SessionConfig_RequestResponse (default_rr_conf l)).
  - assert (Ho : opens_session l t = Some (SessionConfig_Streaming (default_stream_conf l))).
    { rewrite !elem_of_cons, elem_of_nil in Ht. by destruct Ht as [->|[->|[]]]. }
    eexists. split; [exact Ho|]. pose proof (opens_keeps_id l t _ id Hok Ho) as Hid. cbn [final_id] in Hid.
    cbn [new_session]. rewrite Hid, Hg. done.
Qed.
Lemma openers_open `{Hasher, ErrorText, Rng} l t id :
  layer_ok l -> t ∈ openers -> exists s sys, opened l id t s sys.
Proof.
  intros Hok Ht. unfold openers in Ht. rewrite !elem_of_cons, elem_of_nil in Ht.
  assert (Hst : exists sys g, Streaming_new id (default_stream_conf l) (sc_direction (default_stream_conf l))
    (sl_agent_name l) (sl_identity l) TimerSystem_empty = Done (sys, g)).
  { destruct (new_session_ok l (SessionConfig_Streaming (default_stream_conf l)) id) as (id'&s&sys&Hn&_).
    pose proof (opens_keeps_id l Stream _ id Hok eq_refl) as Hid. cbn [final_id] in Hid. cbn [new_session] in Hn.
    rewrite Hid in Hn. destruct (Streaming_new _ _ _ _ _ _) as [[sys' g]|]; [by exists sys', g|done]. }
  destruct Hst as (sys&g&Hst).
  destruct Ht as [->|[->|[->|[->|[->|[->|[]]]]]]]; eexists _, _;
    first [by apply opened_fire_and_forget; set_solver|by apply opened_request|eapply opened_stream; [set_solver|exact Hst]].
Qed.

(** C24: What the layer does with a valid publication of the network whose header
    type is known, by cases on the pool. With a session under the id of the
    message, or when the message opens one ([opened]: which types do, and exactly
    which session they open), the message goes through the interceptors of that
    session in their order ([passes]) and is taken by it as its kind takes messages
    ([takes]); a refusal ends it and leaves the session as it was; the session is in
    the pool under that id afterwards and nothing else has changed. Without a
    session, a message that opens none is refused as unknown, and one with an id
    out of range as invalid, and nothing changes. *)
Theorem network_message_routed `{Hasher, ErrorText, Rng, DebugAssertions} fuel m h t io l :
  layer_ok l -> valid_message (sm_message m) -> is_publish (sm_message m) = Done true ->
  get_session_header (sm_message m) = Done h -> SessionHeaderType_try_from (se_header_type h) = Some t ->
  let id := se_session_id h in
  (forall s sys, sl_pool l !! id = Some (s, sys) \/
     sl_pool l !! id = None /\ SESSION_RANGE_contains id = true /\ opened l id t s sys ->
   exists s' io' res, delivered_to m s (io_with_timers io sys) s' io' res /\
     handle_message fuel m North io l =
       Done (io_with_timers io' (io_timers io), set_pool (<[id := (s', io_timers io')]> (sl_pool l)) l, res)) /\
  (sl_pool l !! id = None -> t ∈ openers ->
     if SESSION_RANGE_contains id then exists s sys, opened l id t s sys
     else handle_message fuel m North io l = Done (io, l, Err (InvalidSessionId (fmt_dec id)))) /\
  (sl_pool l !! id = None -> t ∉ openers ->
     handle_message fuel m North io l = Done (io, l, Err (SessionUnknown (as_str_name t)))).
Proof.
  intros Hok Hv Hpub Hh Ht id. pose proof (network_routed fuel m h t io l Hok Hv Hpub Hh Ht) as Hr.
  fold id in Hr. split; [|split].
  - intros s sys Hs. assert (Hroute : route l t id = Ok (s, sys) /\ session_ok id s).
    { unfold route. destruct Hs as [Hl|(Hl&Hc&Ho)]; rewrite Hl.
      - split; [done|]. by eapply lo_pool.
      - destruct (opens_opened l t id s sys Hok Ho) as (conf&->&Hn). rewrite Hc, Hn. split; [done|].
        destruct (new_session_ok l conf id) as (id'&s'&sys'&Hn'&Hs'&_). rewrite Hn in Hn'. by injection Hn' as <- <- <-. }
    destruct Hroute as [Hroute Hsok]. rewrite Hroute in Hr.
    destruct (pass_total on_message_from_slim_interceptors id m North (io_with_timers io sys) s
      slim_interceptors_ok Hsok) as (io'&s'&res&Hrun&_); [by exists h|].
    rewrite Hrun in Hr. exists s', io', res. split; [by apply pass_delivers|exact Hr].
  - intros Hl Ho. destruct (openers_open l t id Hok Ho) as (s&sys&Hop). unfold route in Hr. rewrite Hl in Hr.
    destruct (opens_opened l t id s sys Hok Hop) as (conf&Hconf&_). rewrite Hconf in Hr.
    destruct (SESSION_RANGE_contains id); [by exists s, sys|exact Hr].
  - intros Hl Ho. unfold route in Hr. rewrite Hl in Hr.
    destruct (opens_session l t) as [conf|] eqn:Hop; [|exact Hr].
    exfalso. apply Ho. unfold openers. destruct t; (discriminate Hop || set_solver).
Qed.

(** A session without an id, when one of the next draws is free. *)
Lemma create_session_any `{Hasher, ErrorText, Rng, DebugAssertions} fuel conf io l :
  layer_ok l -> (exists k, k < fuel /\ sl_pool l !! (draw (io_draws io + k) `mod` SESSION_RANGE_end)%N = None) ->
  exists io' drawn s sys, SESSION_RANGE_contains drawn = true /\ sl_pool l !! drawn = None /\
    io_slim io' = io_slim io /\ io_app io' = io_app io /\
    session_ok (final_id conf drawn) s /\ cm_session_config (common_of s) = conf /\
    create_session fuel conf None io l =
      if decide (is_Some (sl_pool l !! final_id conf drawn)) then Panic "session already exists: true"
      else Done (io', set_pool (<[final_id conf drawn := (s, sys)]> (sl_pool l)) l, Ok (Info_new (final_id conf drawn))).
Proof.
  intros Hok Hfree. destruct (draw_total fuel (sl_pool l) io l Hfree) as (io'&drawn&Hd).
  pose proof (draw_done _ _ _ _ _ _ _ Hd) as (_&Hnone&Hrange&Hslim&Happ).
  destruct (new_session_ok l conf drawn) as (id'&s&sys&Hn&Hs&_&Hc&Hid'). fold (final_id conf drawn) in Hid'. subst id'.
  exists io', drawn, s, sys. do 6 (split; [done|]). unfold create_session, try_bind.
  rewrite (sess_bind_Done _ _ _ _ _ _ _ (eq_refl : get_state io l = Done (io, l, l))).
  erewrite sess_bind_Done; [|by rewrite (sess_bind_Done _ _ _ _ _ _ _ Hd)]. cbv beta iota.
  rewrite (sess_bind_Done _ _ _ _ _ _ _ (sess_lift_Done _ _ _ _ Hn)). cbv beta iota. by case_decide.
Qed.
Lemma create_session_free `{Hasher, ErrorText, Rng, DebugAssertions} fuel conf io l :
  layer_ok l -> (forall c, conf = SessionConfig_Streaming c -> sc_direction c <> Bidirectional) ->
  (exists k, k < fuel /\ sl_pool l !! (draw (io_draws io + k) `mod` SESSION_RANGE_end)%N = None) ->
  exists io' id s sys,
    create_session fuel conf None io l = Done (io', set_pool (<[id := (s, sys)]> (sl_pool l)) l, Ok (Info_new id)) /\
    SESSION_RANGE_contains id = true /\ sl_pool l !! id = None /\ session_ok id s /\
    cm_session_config (common_of s) = conf /\ io_slim io' = io_slim io /\ io_app io' = io_app io.
Proof.
  intros Hok Hconf Hfree. destruct (create_session_any fuel conf io l Hok Hfree) as (io'&id&s&sys&?&Hn&?&?&Hs&?&Hc).
  assert (Hid : final_id conf id = id).
  { unfold final_id. destruct conf as [c|c|c]; [done|done|]. by rewrite decide_False by (by apply Hconf). }
  rewrite Hid, Hn, decide_False in Hc by (by intros []). rewrite Hid in Hs. by exists io', id, s, sys.
Qed.

(** The id of the session of a bidirectional stream. *)
Definition topic_id `{Hasher} (conf : SessionConfig) : option N :=
  match conf with
  | SessionConfig_Streaming c =>
      if decide (sc_direction c = Bidirectional) then Some (wrap_u32 (AgentType_hash (sc_topic c) `mod` u32_max)) else None
  | _ => None
  end.

(** C29: Asked for a session without an id, the layer draws until it finds a
    free one, which happens when one of the next [fuel] draws is free; that id is in
    the range of session ids. The session is then created with the given
    configuration, under that id and with every other session as before, unless
    it is a bidirectional stream: that one is created under the hash of its topic,
    which is not checked against the range, and when that id is in use the layer
    panics. *)
Theorem create_session_draws `{Hasher, ErrorText, Rng, DebugAssertions} fuel conf io l :
  layer_ok l ->
  (exists k, k < fuel /\ sl_pool l !! (draw (io_draws io + k) `mod` SESSION_RANGE_end)%N = None) ->
  exists io' drawn s sys, SESSION_RANGE_contains drawn = true /\ sl_pool l !! drawn = None /\
    io_slim io' = io_slim io /\ io_app io' = io_app io /\ cm_session_config (common_of s) = conf /\
    let created id := session_ok id s /\
      create_session fuel conf None io l = Done (io', set_pool (<[id := (s, sys)]> (sl_pool l)) l, Ok (Info_new id)) in
    match topic_id conf with
    | None => created drawn
    | Some id =>
        match sl_pool l !! id with
        | None => created id
        | Some _ => create_session fuel conf None io l = Panic "session already exists: true"
        end
    end.
Proof.
  intros Hok Hfree. destruct (create_session_any fuel conf io l Hok Hfree) as (io'&id&s&sys&Hr&Hn&Hs&Ha&Hsok&Hconf&Hc).
  exists io', id, s, sys. do 5 (split; [done|]). cbv zeta.
  assert (Hfinal : final_id conf id = default id (topic_id conf)).
  { unfold final_id, topic_id. destruct conf as [c|c|c]; [done|done|]. cbn. by repeat case_decide. }
  rewrite Hfinal in Hc, Hsok. destruct (topic_id conf) as [tid|]; cbn in Hc, Hsok; [revert Hc|].
  - destruct (sl_pool l !! tid); intros Hc; [by rewrite decide_True in Hc by eauto|].
    by rewrite decide_False in Hc by (by intros []).
  - by rewrite Hn, decide_False in Hc by (by intros []).
Qed.

(** The session of a bidirectional stream is named by its topic: two
    applications that open one for the same topic get the same id, whatever
    else they have open. The id is neither checked against the range of session
    ids nor against the pool: an application that opens a second session for the
    topic, or has a session with that id, panics. *)
Theorem bidirectional_session_id `{Hasher, ErrorText, Rng, DebugAssertions} fuel c io l id :
  layer_ok l -> sc_direction c = Bidirectional -> SESSION_RANGE_contains id = true -> sl_pool l !! id = None ->
  let topic_id := wrap_u32 (AgentType_hash (sc_topic c) `mod` u32_max) in
  if decide (is_Some (sl_pool l !! topic_id))
  then create_session fuel (SessionConfig_Streaming c) (Some id) io l = Panic "session already exists: true"
  else exists l', create_session fuel (SessionConfig_Streaming c) (Some id) io l =
    Done (io, l', Ok (Info_new topic_id)) /\ is_Some (sl_pool l' !! topic_id).
Proof.
  intros Hok Hd Hr Hnone topic_id.
  pose proof (create_given l fuel (SessionConfig_Streaming c) id io Hok) as Hc.
  assert (Hf : final_id (SessionConfig_Streaming c) id = topic_id).
  { cbn [final_id]. by rewrite decide_True. }
  rewrite Hr, Hnone, Hf in Hc. cbn [negb] in Hc. rewrite (decide_False (P := is_Some None)) in Hc by (by intros []).
  destruct (new_session_ok l (SessionConfig_Streaming c) id) as (id'&s&sys&Hn&_).
  rewrite Hn in Hc. destruct (decide (is_Some (sl_pool l !! topic_id))); [done|].
  eexists. split; [exact Hc|]. cbn. rewrite lookup_insert_eq. by eexists.
Qed.

(** The message an application's message becomes: it carries the session's id
    and the application's identity. *)
Definition tagged (id : N) (identity : option string) (m : ProtoMessage) : ProtoMessage :=
  let m := map_session (SessionHeader_set_session_id id) m in
  match identity with Some i => insert_metadata SLIM_IDENTITY i m | None => m end.

(** A message of the application for a fire-and-forget session without
    further interceptors is queued for the session's task, with the session's id
    in its header and the application's identity in its metadata; the
    application learns at once when there is no such session. *)
Theorem app_message_tagged `{Hasher, ErrorText, Rng, DebugAssertions} fuel m io l :
  layer_ok l -> valid_message (sm_message m) -> is_publish (sm_message m) = Done true ->
  let id := in_id (sm_info m) in
  match sl_pool l !! id with
  | None => handle_message fuel m South io l = Done (io, l, Err (SessionNotFound (fmt_dec id)))
  | Some (Session_FireAndForget f, sys) =>
      cm_interceptors (ff_common f) = [IdentitySessionInterceptor (cm_identity (ff_common f))] ->
      is_Some (ff_loop f) ->
      handle_message fuel m South io l =
        Done (io, set_pool (<[id := (Session_FireAndForget (mkFireAndForget (ff_common f)
                (ff_inbox f ++ [OnMessage (mkSessionMessage
                   (tagged id (cm_identity (ff_common f)) (sm_message m)) (sm_info m)) South])
                (ff_cancelled f) (ff_loop f)), sys)]> (sl_pool l)) l, Ok tt)
  | Some _ => True
  end.
Proof.
  intros Hok Hv Hpub id.
  destruct (validate_iff (sm_message m)) as (r&Hr&Hiff). rewrite (proj2 Hiff Hv) in Hr.
  assert (Hh : publication (sm_message m)).
  { destruct (valid_accessors (sm_message m) Hv) as (t&_&_&Ht&_&_&_&_&Hp). unfold is_publish in Hpub.
    rewrite Ht in Hpub. destruct t as [| |p]; [done|done|]. destruct (Hp p eq_refl) as [h Hh]. by exists h. }
  assert (Hstart : handle_message fuel m South io l = handle_message_from_app m South io l).
  { unfold handle_message. rewrite (sess_bind_Done _ _ _ _ _ _ _ (sess_lift_Done _ _ _ _ Hr)).
    by rewrite (sess_bind_Done _ _ _ _ _ _ _ (sess_lift_Done _ _ _ _ Hpub)). }
  destruct (sl_pool l !! id) as [[[f|r0|s0] sys]|] eqn:Hl; [|done|done|].
  - intros Hi [st Hloop]. rewrite Hstart. unfold handle_message_from_app. fold id.
    destruct Hh as [h Hh].
    destruct (with_session_header_mut_map (SessionHeader_set_session_id id) _ h Hh) as [Hm1 _].
    erewrite sess_bind_Done; [|eapply with_session_some; [exact Hl|]].
    2:{ rewrite (sess_bind_Done _ _ _ _ _ _ _ (sess_lift_Done _ _ _ _ Hm1)). unfold pass_to_session.
        rewrite (sess_bind_Done _ _ _ _ _ _ _ (eq_refl : get_state _ (Session_FireAndForget f) = Done (_, _, _))).
        cbn [common_of Session_ops FireAndForget_ops sm_message]. unfold on_message_from_app_interceptors.
        rewrite Hi. cbn [run_interceptors on_msg_from_app IdentitySessionInterceptor].
        assert (Htag : forall A (k : ProtoMessage -> A) (k' : ProtoMessage -> SessionError -> A),
          (match (match cm_identity (ff_common f) with
                  | Some i => (insert_metadata SLIM_IDENTITY i (map_session (SessionHeader_set_session_id id) (sm_message m)),
                      Ok tt)
                  | None => (map_session (SessionHeader_set_session_id id) (sm_message m), Ok tt)
                  end) with
           | (msg, Ok _) => k msg
           | (msg, Err e) => k' msg e
           end) = k (tagged id (cm_identity (ff_common f)) (sm_message m))).
        { intros A k k'. unfold tagged. by destruct (cm_identity (ff_common f)). }
        rewrite Htag. cbn [on_message Session_ops].
        rewrite (sess_bind_Done _ _ _ _ _ _ _ (eq_refl : get_state _ (Session_FireAndForget f) = Done (_, _, _))).
        unfold in_box. cbn [on_message FireAndForget_ops]. unfold FireAndForget_on_message, ff_push.
        rewrite Hloop. cbn [mbind panics_bind map_err sm_info]. reflexivity. }
    cbn. rewrite Hloop. by destruct io.
  - rewrite Hstart. unfold handle_message_from_app. fold id.
    by rewrite (sess_bind_Done _ _ _ _ _ _ _ (with_session_none _ _ _ _ Hl)).
Qed.

(** ** Examples *)
Definition demo_errors : ErrorText :=
  {| SessionConfig_debug := SessionConfig_fmt; unknown_enum_value := fun _ => "unknown enumeration value" |}.
Definition layer_io : SessionIo := mkSessionIo (mkOutbox true []) (mkOutbox true []) TimerSystem_empty 0.
Definition empty_layer : SessionLayer := SessionLayer_new demo_agent (Some "me") 2.
Definition ff_conf : SessionConfig := SessionConfig_FireAndForget FireAndForgetConfiguration_default.
Definition topic_conf : StreamingConfiguration :=
  mkStreamingConfiguration Bidirectional (mkAgentType 1 2 5 None) 10 1000.

(** A layer with the session 3, and one with the topic's session as well. *)
Definition after_op {A} (c : sess SessionLayer A) (x : SessionIo * SessionLayer) : SessionIo * SessionLayer :=
  match c x.1 x.2 with Done (io, l, _) => (io, l) | Panic _ => x end.
Definition demo_create (conf : SessionConfig) (id : option N) : sess SessionLayer (Result Info SessionError) :=
  @create_session toy_hasher demo_rng 5 conf id.
Definition layer_1 : SessionIo * SessionLayer := after_op (demo_create ff_conf (Some 3%N)) (layer_io, empty_layer).
Definition layer_2 : SessionIo * SessionLayer :=
  after_op (demo_create (SessionConfig_Streaming topic_conf) (Some 4%N)) layer_1.

Abbreviation demo_step := (@layer_step toy_hasher checked_build demo_errors demo_rng demo_checks
  {| debug_enabled := false |} hash_iter_sorted).

(** A session created under a free id. *)
Lemma demo_create_step conf id x :
  @layer_ok demo_errors demo_rng x.2 -> sl_pool x.2 !! @final_id toy_hasher conf id = None ->
  demo_step x (after_op (demo_create conf (Some id)) x).
Proof.
  destruct x as [io l]. cbn [fst snd]. intros Hok Hnone. unfold after_op. cbn [fst snd].
  destruct (demo_create conf (Some id) io l) as [[[io' l'] r]|] eqn:Hc; [by eapply step_create|exfalso].
  unfold demo_create in Hc.
  rewrite (@create_given toy_hasher demo_errors demo_rng l 5 conf id io Hok) in Hc.
  destruct (negb _); [done|]. destruct (decide _); [done|]. rewrite Hnone in Hc.
  destruct (decide _) as [[]|]; [done|].
  destruct (@new_session_ok toy_hasher demo_errors demo_rng l conf id) as (?&?&?&Hn&_). by rewrite Hn in Hc.
Qed.

Lemma layer_1_step : demo_step (layer_io, empty_layer) layer_1.
Proof. apply demo_create_step; [apply layer_ok_new|apply lookup_empty]. Qed.
Lemma layer_2_reachable : rtc demo_step (layer_io, empty_layer) layer_2.
Proof.
  eapply rtc_l; [exact layer_1_step|]. eapply rtc_l; [apply demo_create_step|apply rtc_refl].
  - exact (layer_step_ok _ _ layer_1_step (layer_ok_new _ _ _)).
  - vm_compute. reflexivity.
Qed.

Lemma session_layer_safe_witness :
  @layer_ok demo_errors demo_rng layer_2.2 /\
  exists io' l' res, @handle_message toy_hasher demo_errors demo_rng demo_checks 0 (demo_session_msg Fnf 5) North
    layer_2.1 layer_2.2 = Done (io', l', res) /\ @layer_ok demo_errors demo_rng l' /\ only_session 3 layer_2.2 l'.
Proof.
  destruct (@session_layer_safe toy_hasher checked_build demo_errors demo_rng demo_checks
    {| debug_enabled := false |} hash_iter_sorted layer_io demo_agent (Some "me") 2 layer_2.1 layer_2.2)
    as [Hok Hall].
  { rewrite <- surjective_pairing. exact layer_2_reachable. }
  split; [exact Hok|]. exact (Hall 0 (demo_session_msg Fnf 5) North).
Defined.

Lemma demo_msg_valid t id : valid_message (sm_message (demo_session_msg t id)).
Proof. by eexists _, _, _; repeat split; eexists. Qed.
Lemma layer_2_ok : @layer_ok demo_errors demo_rng layer_2.2.
Proof. exact (layer_reachable_ok _ _ _ _ _ layer_2_reachable). Qed.

Lemma network_message_routed_witness :
  @handle_message toy_hasher demo_errors demo_rng demo_checks 0 (demo_session_msg Reply 5) North
    layer_io empty_layer = Done (layer_io, empty_layer, Err (SessionUnknown "REPLY")).
Proof.
  destruct (@network_message_routed toy_hasher demo_errors demo_rng demo_checks 0 (demo_session_msg Reply 5)
    (mkSessionHeader (SessionHeaderType_to_i32 Reply) 3 5) Reply layer_io empty_layer) as (_&_&Hr);
    [apply layer_ok_new|apply demo_msg_valid|reflexivity..|].
  apply Hr; [reflexivity|]. unfold openers. rewrite !elem_of_cons, elem_of_nil. intuition discriminate.
Defined.

Lemma create_session_draws_witness :
  exists io' id s sys, demo_create ff_conf None layer_2.1 layer_2.2 =
    Done (io', set_pool (<[id := (s, sys)]> (sl_pool layer_2.2)) layer_2.2, Ok (Info_new id)).
Proof.
  destruct (@create_session_draws toy_hasher demo_errors demo_rng demo_checks 5 ff_conf layer_2.1 layer_2.2)
    as (io'&id&s&sys&_&_&_&_&_&_&Hc).
  - exact layer_2_ok.
  - exists 0. split; [lia|]. vm_compute. reflexivity.
  - exists io', id, s, sys. exact Hc.
Defined.

Lemma bidirectional_session_id_witness :
  demo_create (SessionConfig_Streaming topic_conf) (Some 5%N) layer_2.1 layer_2.2 =
    Panic "session already exists: true".
Proof.
  assert (Htopic : is_Some (sl_pool layer_2.2 !! wrap_u32 (@AgentType_hash toy_hasher (sc_topic topic_conf) `mod` u32_max))).
  { vm_compute. by eexists. }
  pose proof (@bidirectional_session_id toy_hasher demo_errors demo_rng demo_checks 5 topic_conf layer_2.1 layer_2.2 5%N
    layer_2_ok eq_refl eq_refl eq_refl) as Hb. cbv zeta in Hb. rewrite decide_True in Hb by exact Htopic. exact Hb.
Defined.

Lemma app_message_tagged_witness :
  exists f sys, sl_pool layer_2.2 !! 3%N = Some (Session_FireAndForget f, sys) /\
    @handle_message toy_hasher demo_errors demo_rng demo_checks 0 (demo_session_msg Unspecified 0) South
      layer_2.1 layer_2.2 = Done (layer_2.1, set_pool (<[3%N := (Session_FireAndForget (mkFireAndForget (ff_common f)
          [OnMessage (mkSessionMessage (tagged 3 (Some "me") (sm_message (demo_session_msg Unspecified 0)))
             (sm_info (demo_session_msg Unspecified 0))) South] false (ff_loop f)), sys)]> (sl_pool layer_2.2)) layer_2.2, Ok tt).
Proof.
  pose proof (@app_message_tagged toy_hasher demo_errors demo_rng demo_checks 0 (demo_session_msg Unspecified 0)
    layer_2.1 layer_2.2 layer_2_ok (demo_msg_valid Unspecified 0) eq_refl) as Ha. cbv zeta in Ha.
  assert (Hl : sl_pool layer_2.2 !! 3%N = Some (Session_FireAndForget (FireAndForget_new 3
    FireAndForgetConfiguration_default Bidirectional demo_agent (Some "me")), TimerSystem_empty))
    by (vm_compute; reflexivity).
  change (in_id (sm_info (demo_session_msg Unspecified 0))) with 3%N in Ha. rewrite Hl in Ha.
  eexists _, _. split; [exact Hl|]. apply Ha; [reflexivity|by eexists].
Defined.
