(* ===== verification/Text.v ===== *)
(** * Text

    The operations of [str] and of [u64::from_str] the configuration code uses.
    A Rust string is the list of its bytes. *)
From Stdlib Require Import Ascii.
From stdpp Require Import base list strings numbers option pretty.
From S2P Require Import Prelude.
Open Scope string_scope.

(** [s.split_once(sep)], for a one-byte separator. *)
Fixpoint split_once (sep : Ascii.ascii) (s : string) : option (string * string) :=
  match s with
  | EmptyString => None
  | String c s =>
      if decide (c = sep) then Some (EmptyString, s)
      else '(a, b) ← split_once sep s; Some (String c a, b)
  end.

(** [s.split(sep)]: the pieces between the separators, at least one. *)
Fixpoint split (sep : Ascii.ascii) (s : string) : list string :=
  match s with
  | EmptyString => [EmptyString]
  | String c s =>
      if decide (c = sep) then EmptyString :: split sep s
      else match split sep s with
           | [] => [String c EmptyString]
           | p :: ps => String c p :: ps
           end
  end.

(** [s.strip_prefix(p)]. *)
Fixpoint strip_prefix (p s : string) : option string :=
  match p, s with
  | EmptyString, s => Some s
  | String c p, String d s => if decide (c = d) then strip_prefix p s else None
  | String _ _, EmptyString => None
  end.

(** [s.strip_suffix(c)], for a one-byte suffix. *)
Fixpoint strip_suffix (c : Ascii.ascii) (s : string) : option string :=
  match s with
  | EmptyString => None
  | String d EmptyString => if decide (c = d) then Some EmptyString else None
  | String d s => String d <$> strip_suffix c s
  end.

(** [s.splitn(2, sep)]: its first and second item. *)
Definition splitn2 (sep : Ascii.ascii) (s : string) : string * option string :=
  match split_once sep s with
  | Some (a, b) => (a, Some b)
  | None => (s, None)
  end.

Fixpoint string_forallb (p : Ascii.ascii -> bool) (s : string) : bool :=
  match s with
  | EmptyString => true
  | String c s => p c && string_forallb p s
  end.

(** [["*".repeat(n)]]. *)
Fixpoint repeat_char (c : Ascii.ascii) (n : nat) : string :=
  match n with
  | 0 => EmptyString
  | S n => String c (repeat_char c n)
  end.

(** ** Integers *)
Inductive ParseIntError : Type :=
| EmptyInt
| InvalidDigit
| PosOverflow.

Definition ParseIntError_fmt (e : ParseIntError) : string :=
  match e with
  | EmptyInt => "cannot parse integer from empty string"
  | InvalidDigit => "invalid digit found in string"
  | PosOverflow => "number too large to fit in target type"
  end.

Definition to_digit (c : Ascii.ascii) : option N :=
  let n := Ascii.N_of_ascii c in
  if decide (48 <= n <= 57)%N then Some (n - 48)%N else None.

(** The digits, left to right; at every one the digit is checked before the
    multiplication and the addition. *)
Fixpoint parse_digits (result : N) (s : string) : Result N ParseIntError :=
  match s with
  | EmptyString => Ok result
  | String c s =>
      match to_digit c with
      | None => Err InvalidDigit
      | Some d =>
          if decide (result * 10 + d <= u64_max)%N then parse_digits (result * 10 + d) s
          else Err PosOverflow
      end
  end.

(** [u64::from_str]: an optional [+], then digits. *)
Definition parse_u64 (s : string) : Result N ParseIntError :=
  match s with
  | EmptyString => Err EmptyInt
  | String "+"%char EmptyString | String "-"%char EmptyString => Err InvalidDigit
  | String "+"%char s => parse_digits 0 s
  | s => parse_digits 0 s
  end.

(** ** Facts *)
Fixpoint string_in (c : Ascii.ascii) (s : string) : bool :=
  match s with
  | EmptyString => false
  | String d s => bool_decide (c = d) || string_in c s
  end.

Lemma string_in_app c s t : string_in c (s +:+ t) = string_in c s || string_in c t.
Proof. induction s as [|d s IH]; simpl; [done|]. by rewrite IH, orb_assoc. Qed.

Lemma split_once_sep sep a b :
  string_in sep a = false -> split_once sep (a +:+ String sep b) = Some (a, b).
Proof.
  induction a as [|c a IH]; simpl; intros Ha; [by rewrite decide_True|].
  apply orb_false_iff in Ha as [Hc Ha]. apply bool_decide_eq_false in Hc.
  rewrite decide_False by congruence. rewrite (IH Ha). done.
Qed.

Lemma split_once_none sep s : split_once sep s = None <-> string_in sep s = false.
Proof.
  induction s as [|c s IH]; simpl; [done|]. case_decide as Hc.
  - subst. rewrite bool_decide_true by done. split; discriminate.
  - rewrite bool_decide_false by congruence. simpl. rewrite <- IH.
    destruct (split_once sep s) as [[a b]|]; simpl; split; done || discriminate.
Qed.

Lemma split_once_Some sep s a b :
  split_once sep s = Some (a, b) -> s = a +:+ String sep b /\ string_in sep a = false.
Proof.
  revert a b. induction s as [|c s IH]; simpl; intros a b; [done|]. case_decide as Hc.
  - intros [= <- <-]. by subst.
  - destruct (split_once sep s) as [[a' b']|]; simpl; [|done]. intros [= <- <-].
    destruct (IH a' b' eq_refl) as [-> Ha]. simpl. split; [done|].
    by rewrite bool_decide_false by congruence.
Qed.

Lemma split_none sep s : string_in sep s = false -> split sep s = [s].
Proof.
  induction s as [|c s IH]; simpl; [done|]. intros [Hc Hs]%orb_false_iff.
  apply bool_decide_eq_false in Hc. rewrite decide_False by congruence. by rewrite IH.
Qed.

Lemma split_sep sep a b :
  string_in sep a = false -> split sep (a +:+ String sep b) = a :: split sep b.
Proof.
  induction a as [|c a IH]; simpl; intros Ha; [by rewrite decide_True|].
  apply orb_false_iff in Ha as [Hc Ha]. apply bool_decide_eq_false in Hc.
  rewrite decide_False by congruence. by rewrite (IH Ha).
Qed.

Lemma split_nonempty sep s : split sep s <> [].
Proof. destruct s; simpl; [done|]. case_decide; [done|]. by destruct (split _ _). Qed.

Lemma split_one sep s b : split sep s = [b] -> s = b /\ string_in sep s = false.
Proof.
  revert b. induction s as [|d s IH]; simpl; intros b; [by intros [= <-]|].
  case_decide as Hd; [intros [= _ Hs]; by apply split_nonempty in Hs|].
  destruct (split sep s) as [|p [|]] eqn:Hs; [by apply split_nonempty in Hs| |done].
  intros [= <-]. destruct (IH p eq_refl) as [-> ->]. split; [done|].
  by rewrite bool_decide_false by congruence.
Qed.

Lemma split_two sep s a b :
  split sep s = [a; b] <->
  s = a +:+ String sep b /\ string_in sep a = false /\ string_in sep b = false.
Proof.
  split.
  - revert a b. induction s as [|c s IH]; simpl; intros a b; [done|]. case_decide as Hc.
    + subst. intros [= <- Hs]. by destruct (split_one _ _ _ Hs) as [-> ?].
    + destruct (split sep s) as [|p ps] eqn:Hs; [by apply split_nonempty in Hs|]. intros [= <- ->].
      destruct (IH p b eq_refl) as (->&Hp&Hb). split; [done|]. split; [|done].
      simpl. by rewrite bool_decide_false by congruence.
  - intros (->&Ha&Hb). rewrite split_sep by done. by rewrite split_none.
Qed.

Lemma strip_prefix_Some p s r : strip_prefix p s = Some r <-> s = p +:+ r.
Proof.
  revert s. induction p as [|c p IH]; intros s; simpl; [split; [by intros [= ->]|by intros ->]|].
  destruct s as [|d s]; [split; done|]. case_decide as Hc.
  - subst. rewrite IH. split; [by intros ->|by intros [= ->]].
  - split; [done|]. intros [= -> ->]. done.
Qed.

Lemma strip_suffix_Some c s r : strip_suffix c s = Some r <-> s = r +:+ String c "".
Proof.
  revert r. induction s as [|d s IH]; intros r; [split; [done|by destruct r]|].
  destruct s as [|e s].
  - simpl. case_decide as Hc.
    + subst. split; [by intros [= <-]|]. destruct r as [|x r]; [done|]. intros [= -> Hr].
      by destruct r.
    + split; [done|]. destruct r as [|x r]; [by intros [= ->]|]. intros [= -> Hr]. by destruct r.
  - change (strip_suffix c (String d (String e s))) with (String d <$> strip_suffix c (String e s)).
    rewrite fmap_Some. setoid_rewrite IH. split; [by intros (r'&->&->)|].
    destruct r as [|x r]; [done|]. intros [= -> Hr]. by exists r.
Qed.

(** ** Printing and parsing an integer *)
Lemma parse_digits_app n a b m :
  parse_digits n a = Ok m -> parse_digits n (a +:+ b) = parse_digits m b.
Proof.
  revert n. induction a as [|c a IH]; intros n; simpl; [by intros [= ->]|].
  destruct (to_digit c) as [d|]; [|done]. case_decide; [|done]. apply IH.
Qed.

Definition is_digit (c : Ascii.ascii) : bool := bool_decide (is_Some (to_digit c)).

Lemma to_digit_char d : (d < 10)%N -> to_digit (pretty_N_char d) = Some d.
Proof.
  intros Hd.
  assert (d = 0 \/ d = 1 \/ d = 2 \/ d = 3 \/ d = 4 \/ d = 5 \/ d = 6 \/ d = 7 \/ d = 8 \/ d = 9)%N
    as Hcases by lia.
  by repeat (destruct Hcases as [->|Hcases]); subst.
Qed.

Lemma parse_digits_go n s :
  (n <= u64_max)%N -> parse_digits 0 (pretty_N_go n s) = parse_digits n s.
Proof.
  revert s. induction n as [n IH] using (well_founded_induction N.lt_wf_0). intros s Hn.
  destruct (decide (n = 0)%N) as [->|H0]; [by rewrite pretty_N_go_0|].
  rewrite pretty_N_go_step by lia.
  pose proof (N.div_mod n 10 ltac:(lia)). pose proof (N.mod_lt n 10 ltac:(lia)).
  assert (n `div` 10 < n)%N by (apply N.div_lt; lia).
  rewrite IH by lia. simpl. rewrite to_digit_char by lia.
  replace (n `div` 10 * 10 + n `mod` 10)%N with n by lia. by rewrite decide_True.
Qed.

Lemma digits_go n s : string_forallb is_digit s = true ->
  string_forallb is_digit (pretty_N_go n s) = true.
Proof.
  revert s. induction n as [n IH] using (well_founded_induction N.lt_wf_0). intros s Hs.
  destruct (decide (n = 0)%N) as [->|H0]; [by rewrite pretty_N_go_0|].
  rewrite pretty_N_go_step by lia. apply IH; [apply N.div_lt; lia|]. simpl. rewrite Hs, andb_true_r.
  unfold is_digit. rewrite to_digit_char by (apply N.mod_lt; lia). done.
Qed.

Lemma fmt_dec_digits n : string_forallb is_digit (fmt_dec n) = true.
Proof. unfold fmt_dec, pretty, pretty_N. case_decide; [done|]. by apply digits_go. Qed.

Lemma digits_in c s : string_forallb is_digit s = true -> is_digit c = false -> string_in c s = false.
Proof.
  intros Hs Hc. induction s as [|d s IH]; simpl in *; [done|].
  apply andb_true_iff in Hs as [Hd Hs]. rewrite IH by done. rewrite bool_decide_false; [done|].
  intros ->. congruence.
Qed.

Lemma parse_digits_fmt n : (n <= u64_max)%N -> parse_digits 0 (fmt_dec n) = Ok n.
Proof.
  intros Hn. unfold fmt_dec, pretty, pretty_N. case_decide; [by subst|]. by rewrite parse_digits_go.
Qed.

Lemma pretty_N_go_nonempty n s : s <> "" -> pretty_N_go n s <> "".
Proof.
  revert s. induction n as [n IH] using (well_founded_induction N.lt_wf_0). intros s Hs.
  destruct (decide (n = 0)%N) as [->|H0]; [by rewrite pretty_N_go_0|].
  rewrite pretty_N_go_step by lia. apply IH; [apply N.div_lt; lia|done].
Qed.

Lemma parse_u64_fmt n : (n <= u64_max)%N -> parse_u64 (fmt_dec n) = Ok n.
Proof.
  intros Hn. pose proof (parse_digits_fmt n Hn) as Hp. pose proof (fmt_dec_digits n) as Hd.
  destruct (fmt_dec n) as [|c s] eqn:Hs.
  { exfalso. revert Hs. unfold fmt_dec, pretty, pretty_N. case_decide; [done|].
    rewrite pretty_N_go_step by lia. by apply pretty_N_go_nonempty. }
  simpl in Hd. apply andb_true_iff in Hd as [Hc _].
  unfold parse_u64. revert Hc.
  destruct c as [[|] [|] [|] [|] [|] [|] [|] [|]]; try exact (fun _ => Hp); intros Hc; discriminate Hc.
Qed.

Close Scope string_scope.
