(* ===== verification/ComponentId.v ===== *)
(** * Component identifiers

    [config/src/component/id.rs]: kinds, and identifiers of the form [kind] or
    [kind/name].

    The pattern of a kind is over ASCII. The pattern of a name excludes the
    Unicode categories Z, C and S: on ASCII the excluded characters are listed
    here, beyond ASCII the tables of the regex crate are a parameter. *)
From Stdlib Require Import Ascii.
From stdpp Require Import base list strings numbers option.
From S2P Require Import Prelude Text.
Open Scope string_scope.

Inductive IdError : Type :=
| IdEmpty
| InvalidCharacter (what : string)
| NameTooLong (what : string)
| IdUnknown.

Definition IdError_fmt (e : IdError) : string :=
  match e with
  | IdEmpty => "id cannot be emapty"
  | InvalidCharacter w => "kind contains invalid character(s): " +:+ w
  | NameTooLong w => "name part is too long: " +:+ w
  | IdUnknown => "unknown error"
  end.

Definition KIND_AND_NAME_SEPARATOR : ascii := "/".

(** [[a-zA-Z]] and [[0-9a-zA-Z_]]. *)
Definition is_letter (c : ascii) : bool :=
  let n := N_of_ascii c in
  bool_decide (65 <= n <= 90)%N || bool_decide (97 <= n <= 122)%N.
Definition is_word (c : ascii) : bool := is_digit c || is_letter c || bool_decide (c = "_"%char).

(** [^[a-zA-Z][0-9a-zA-Z_]{0,62}$]. *)
Definition KIND_REGEX (s : string) : bool :=
  match s with
  | EmptyString => false
  | String c s => is_letter c && string_forallb is_word s && bool_decide (String.length s <= 62)
  end.

(** The ASCII characters of the categories Z (the space), C (control) and S
    (the symbols [$+<=>^`|~]). *)
Definition ascii_excluded (c : ascii) : bool :=
  let n := N_of_ascii c in
  bool_decide (n <= 32)%N || bool_decide (n = 127)%N
  || bool_decide (n ∈ [36; 43; 60; 61; 62; 94; 96; 124; 126]%N).
Definition is_ascii (c : ascii) : bool := bool_decide (N_of_ascii c < 128)%N.

(** Whether the pattern of a name matches a string with characters beyond
    ASCII. *)
Class UnicodeTables : Type := { unicode_name : string -> bool }.

(** [^[^\p{Z}\p{C}\p{S}]+$]. *)
Definition NAME_REGEX `{UnicodeTables} (s : string) : bool :=
  if string_forallb is_ascii s
  then negb (bool_decide (s = "")) && string_forallb (fun c => negb (ascii_excluded c)) s
  else unicode_name s.

(** ** Kinds and identifiers *)
Record Kind : Type := mkKind { kind_name : string }.

#[export] Instance Kind_eq_dec : EqDecision Kind.
Proof. solve_decision. Defined.

Definition Kind_new (ty : string) : Result Kind IdError :=
  if decide (ty = "") then Err IdEmpty
  else if negb (KIND_REGEX ty) then Err (InvalidCharacter ty)
  else Ok (mkKind ty).

Definition Kind_fmt (k : Kind) : string := kind_name k.

Record ID : Type := mkID {
  kind_val : Kind;
  name_val : string;
}.

#[export] Instance ID_eq_dec : EqDecision ID.
Proof. solve_decision. Defined.

Definition ID_new (kind_val : Kind) : ID := mkID kind_val "".

Section names.
Context `{UnicodeTables}.

Definition validate_name (name_str : string) : Result unit IdError :=
  if decide (name_str = "") then Ok tt
  else if decide (1024 < String.length name_str) then Err (NameTooLong name_str)
  else if negb (NAME_REGEX name_str) then Err (InvalidCharacter name_str)
  else Ok tt.

Definition ID_new_with_name (kind_val : Kind) (name_val : string) : Result ID IdError :=
  match validate_name name_val with
  | Err e => Err e
  | Ok _ => Ok (mkID kind_val name_val)
  end.

Definition ID_new_with_str (kind_and_name : string) : Result ID IdError :=
  let (kind, name) := default ("", "") (split_once KIND_AND_NAME_SEPARATOR kind_and_name) in
  if decide (kind = "") then Err IdEmpty
  else match Kind_new kind with
       | Err e => Err e
       | Ok kind_val => ID_new_with_name kind_val name
       end.
End names.

(** [Display], and [marshal_text]. *)
Definition ID_fmt (id : ID) : string :=
  if decide (name_val id = "") then Kind_fmt (kind_val id)
  else Kind_fmt (kind_val id) +:+ String KIND_AND_NAME_SEPARATOR (name_val id).
Definition marshal_text (id : ID) : string := ID_fmt id.

(** ** Properties *)

(** Kinds and identifiers the constructors accept. *)
Definition kind_ok (k : Kind) : Prop := KIND_REGEX (kind_name k) = true.
Definition id_ok `{UnicodeTables} (id : ID) : Prop :=
  kind_ok (kind_val id) /\ validate_name (name_val id) = Ok tt.

Lemma Kind_new_ok s k : Kind_new s = Ok k <-> k = mkKind s /\ kind_ok k.
Proof.
  unfold Kind_new, kind_ok. case_decide as Hs.
  - subst. split; [done|]. intros [-> Hk]. done.
  - destruct (KIND_REGEX s) eqn:Hk; simpl.
    + split; [by intros [= <-]|by intros [-> _]].
    + split; [done|]. intros [-> Hk']. simpl in Hk'. congruence.
Qed.

Lemma is_word_separator : is_word KIND_AND_NAME_SEPARATOR = false.
Proof. by vm_compute. Qed.

Lemma string_forallb_in (p : ascii -> bool) c s :
  string_forallb p s = true -> p c = false -> string_in c s = false.
Proof.
  intros Hs Hc. induction s as [|d s IH]; simpl in *; [done|].
  apply andb_true_iff in Hs as [Hd Hs]. rewrite IH by done.
  rewrite bool_decide_false; [done|]. intros ->. congruence.
Qed.

Lemma kind_no_separator k : kind_ok k -> string_in KIND_AND_NAME_SEPARATOR (kind_name k) = false.
Proof.
  unfold kind_ok, KIND_REGEX. destruct (kind_name k) as [|c s]; [done|].
  rewrite !andb_true_iff. intros [[Hc Hs] _]. simpl.
  rewrite (string_forallb_in _ _ _ Hs is_word_separator), orb_false_r.
  apply bool_decide_eq_false. intros <-. revert Hc. by vm_compute.
Qed.

Lemma kind_nonempty k : kind_ok k -> kind_name k <> "".
Proof. unfold kind_ok. by destruct (kind_name k). Qed.

(** The identifiers the code builds are exactly the well-formed ones (a
    kind of 1 to 63 word characters starting with a letter; a name that is empty
    or has at most 1024 bytes, none of an excluded category), and one with a
    name is read back from its text, kind and name unchanged. *)
Theorem id_roundtrip `{UnicodeTables} :
  (forall s id, ID_new_with_str s = Ok id -> id_ok id /\ (name_val id <> "" -> ID_fmt id = s)) /\
  (forall s k, Kind_new s = Ok k -> forall name id, ID_new_with_name k name = Ok id -> id_ok id) /\
  (forall id, id_ok id -> name_val id <> "" -> ID_new_with_str (ID_fmt id) = Ok id) /\
  (forall id, id_ok id -> name_val id = "" -> ID_new_with_str (ID_fmt id) = Err IdEmpty).
Proof.
  assert (Hname : forall k name id, kind_ok k -> ID_new_with_name k name = Ok id ->
            id = mkID k name /\ id_ok id).
  { intros k name id Hk. unfold ID_new_with_name. destruct (validate_name name) as [[]|] eqn:Hv; [|done].
    by intros [= <-]. }
  split; [|split; [|split]].
  - intros s id. unfold ID_new_with_str.
    destruct (split_once KIND_AND_NAME_SEPARATOR s) as [[k n]|] eqn:Hs; simpl; [|done].
    apply split_once_Some in Hs as [-> Hk]. case_decide; [done|].
    destruct (Kind_new k) as [kd|] eqn:Hkd; [|done]. apply Kind_new_ok in Hkd as [-> Hok].
    intros [-> Hid]%Hname; [|done]. split; [done|]. simpl. intros Hn. unfold ID_fmt; simpl.
    by rewrite decide_False.
  - intros s k [-> Hk]%Kind_new_ok name id Hid. by apply Hname in Hid as [_ ?].
  - intros [k n] [Hk Hn] Hne; simpl in *. unfold ID_new_with_str, ID_fmt; simpl.
    rewrite (decide_False (P := n = "")) by done. unfold Kind_fmt.
    rewrite split_once_sep by by apply kind_no_separator. simpl.
    rewrite decide_False by by apply kind_nonempty.
    rewrite (proj2 (Kind_new_ok (kind_name k) k)) by by destruct k.
    unfold ID_new_with_name. by rewrite Hn.
  - intros [k n] [Hk Hn]; simpl. intros ->. unfold ID_new_with_str, ID_fmt; simpl. unfold Kind_fmt.
    by rewrite (proj2 (split_once_none _ _)) by by apply kind_no_separator.
Qed.

Definition ascii_tables : UnicodeTables := {| unicode_name := fun _ => false |}.
Lemma id_roundtrip_witness :
  let id := mkID (mkKind "slim") "node-0" in
  @ID_new_with_str ascii_tables (ID_fmt id) = Ok id.
Proof.
  intros id. apply (proj1 (proj2 (proj2 (@id_roundtrip ascii_tables)))); [by vm_compute|discriminate].
Defined.
Close Scope string_scope.
