(* ===== verification/Provider.v ===== *)
(** * Configuration values

    [config/src/provider.rs], [provider/env.rs] and [provider/file.rs]: the
    references [${provider:var}] of a YAML document are replaced by what the
    named provider loads. The document is changed in place: after an error the
    references before the failing one are replaced already.

    A serde_yaml [Value] is a tree; numbers are kept as their text. A mapping
    keeps the order of its entries. The environment variables and the files are
    the class [Environment]. *)
From Stdlib Require Import Ascii.
From stdpp Require Import base list gmap strings numbers option.
From S2P Require Import Prelude Text.
Open Scope string_scope.

Inductive ProviderError : Type :=
| NotFound
| ProviderUnknown.

Definition ProviderError_fmt (e : ProviderError) : string :=
  match e with NotFound => "not found" | ProviderUnknown => "unknown error" end.

(** [trait ConfigProvider]. *)
Record ConfigProvider : Type := mkConfigProvider {
  load : string -> Result string ProviderError;
}.

Class Environment : Type := {
  env_var : string -> option string;
  read_to_string : string -> option string;
}.

Definition EnvConfigProvider `{Environment} : ConfigProvider :=
  mkConfigProvider (fun v => match env_var v with Some s => Ok s | None => Err NotFound end).
Definition FileConfigProvider `{Environment} : ConfigProvider :=
  mkConfigProvider (fun p => match read_to_string p with Some s => Ok s | None => Err NotFound end).

(** [serde_yaml::Value]. *)
Inductive Value : Type :=
| Null
| Bool (b : bool)
| Number (text : string)
| Str (s : string)
| Sequence (seq : list Value)
| Mapping (map : list (Value * Value))
| Tagged (tag : string) (v : Value).

Record ConfigResolver : Type := mkConfigResolver {
  providers : gmap string ConfigProvider;
}.

Definition ConfigResolver_default : ConfigResolver := mkConfigResolver ∅.
Definition ConfigResolver_new `{Environment} : ConfigResolver :=
  mkConfigResolver (<["file" := FileConfigProvider]> (<["env" := EnvConfigProvider]> ∅)).
Definition register (r : ConfigResolver) (name : string) (provider : ConfigProvider) : ConfigResolver :=
  mkConfigResolver (<[name := provider]> (providers r)).

(** The text between [${] and the closing brace. *)
Definition provider_and_ref (s : string) : option string :=
  s' ← strip_prefix "${" s; strip_suffix "}" s'.

(** The string case of [resolve]. *)
Definition resolve_string (r : ConfigResolver) (s : string) : string * Result unit ProviderError :=
  match provider_and_ref s with
  | None => (s, Ok tt)
  | Some p =>
      match splitn2 ":" p with
      | (provider, Some var) =>
          match providers r !! provider with
          | Some provider =>
              match load provider var with
              | Ok s' => (s', Ok tt)
              | Err e => (s, Err e)
              end
          | None => (s, Err NotFound)
          end
      | (_, None) => (s, Err NotFound)
      end
  end.

(** A [for] loop that changes the items in place and is left at the first
    error. *)
Definition resolve_all {A} (f : A -> A * Result unit ProviderError)
    : list A -> list A * Result unit ProviderError :=
  fix go l :=
  match l with
  | [] => ([], Ok tt)
  | x :: l =>
      match f x with
      | (x, Ok _) => let (l, res) := go l in (x :: l, res)
      | (x, Err e) => (x :: l, Err e)
      end
  end.

Fixpoint resolve (r : ConfigResolver) (value : Value) : Value * Result unit ProviderError :=
  match value with
  | Str s => let (s, res) := resolve_string r s in (Str s, res)
  | Sequence seq => let (seq, res) := resolve_all (resolve r) seq in (Sequence seq, res)
  | Mapping map =>
      let (map, res) := resolve_all (fun kv => let (v, res) := resolve r kv.2 in ((kv.1, v), res)) map in
      (Mapping map, res)
  | v => (v, Ok tt)
  end.

(** [value.as_str()]; tags are looked through. *)
Fixpoint as_str (v : Value) : option string :=
  match v with
  | Str s => Some s
  | Tagged _ v => as_str v
  | _ => None
  end.

Definition resolve_str (r : ConfigResolver) (value : string) : panics (Result string ProviderError) :=
  match resolve r (Str value) with
  | (_, Err e) => Done (Err e)
  | (v, Ok _) => s ← expect (as_str v) "called `Option::unwrap()` on a `None` value"; Done (Ok s)
  end.

(** ** Specification *)

(** Induction on a value, through the sequences and mappings. *)
Lemma Value_deep_ind (P : Value -> Prop) :
  P Null -> (forall b, P (Bool b)) -> (forall t, P (Number t)) -> (forall s, P (Str s)) ->
  (forall seq, Forall P seq -> P (Sequence seq)) ->
  (forall map, Forall (fun kv => P kv.2) map -> P (Mapping map)) ->
  (forall t v, P v -> P (Tagged t v)) ->
  forall v, P v.
Proof.
  intros Hn Hb Hnum Hs Hseq Hmap Htag. fix IH 1. intros [|b|t|s|seq|map|t v]; [done|done|done|done| | |].
  - apply Hseq. induction seq as [|x seq IHseq]; constructor; [apply IH|apply IHseq].
  - apply Hmap. induction map as [|[k x] map IHmap]; constructor; [apply IH|apply IHmap].
  - apply Htag, IH.
Qed.

(** What the text [${provider:var}] stands for. *)
Definition reference (r : ConfigResolver) (provider var : string) : Result string ProviderError :=
  match providers r !! provider with
  | Some p => load p var
  | None => Err NotFound
  end.

(** [references v]: the strings of a document that are looked at, in order.
    Keys, tagged values and scalars other than strings are left alone. *)
Fixpoint strings_of (v : Value) : list string :=
  match v with
  | Str s => [s]
  | Sequence seq => flat_map strings_of seq
  | Mapping map => flat_map (fun kv => strings_of kv.2) map
  | _ => []
  end.

(** The document with a function applied to those strings. *)
Fixpoint map_strings (f : string -> string) (v : Value) : Value :=
  match v with
  | Str s => Str (f s)
  | Sequence seq => Sequence (map_strings f <$> seq)
  | Mapping map => Mapping ((fun kv => (kv.1, map_strings f kv.2)) <$> map)
  | v => v
  end.

(** The text a string is replaced by, if it can be. *)
Definition meaning (r : ConfigResolver) (s : string) : Result string ProviderError :=
  match provider_and_ref s with
  | None => Ok s
  | Some p =>
      match split_once ":" p with
      | Some (provider, var) => reference r provider var
      | None => Err NotFound
      end
  end.
Definition substitute (r : ConfigResolver) (s : string) : string :=
  match meaning r s with Ok s' => s' | Err _ => s end.

(** The first error among the strings. *)
Fixpoint first_error (r : ConfigResolver) (l : list string) : Result unit ProviderError :=
  match l with
  | [] => Ok tt
  | s :: l => match meaning r s with Ok _ => first_error r l | Err e => Err e end
  end.

Lemma resolve_string_meaning r s :
  resolve_string r s = (substitute r s, match meaning r s with Ok _ => Ok tt | Err e => Err e end).
Proof.
  unfold resolve_string, substitute, meaning, reference, splitn2.
  destruct (provider_and_ref s) as [p|]; [|done].
  destruct (split_once ":" p) as [[provider var]|]; [|done].
  destruct (providers r !! provider) as [pr|]; [|done]. by destruct (load pr var).
Qed.

Lemma first_error_app r l k :
  first_error r (l ++ k) = match first_error r l with Ok _ => first_error r k | Err e => Err e end.
Proof.
  induction l as [|s l IH]; simpl; [done|]. destruct (meaning r s); [apply IH|done].
Qed.

(** The loop over items, against the strings of each item. *)
Lemma resolve_all_spec {A} r (f : A -> A * Result unit ProviderError) (strs : A -> list string) (g : A -> A) l :
  Forall (fun x => (f x).2 = first_error r (strs x) /\ ((f x).2 = Ok tt -> (f x).1 = g x)) l ->
  (resolve_all f l).2 = first_error r (flat_map strs l) /\
  ((resolve_all f l).2 = Ok tt -> (resolve_all f l).1 = g <$> l).
Proof.
  induction 1 as [|x l [He Hg] _ [IHe IHg]]; simpl; [done|].
  rewrite first_error_app, <- He. destruct (f x) as [x' [[]|e]]; simpl in *; [|done].
  destruct (resolve_all f l) as [l' res]; simpl in *. split; [done|].
  intros Hres. by rewrite (Hg eq_refl), (IHg Hres).
Qed.

Lemma resolve_spec r v :
  (resolve r v).2 = first_error r (strings_of v) /\
  ((resolve r v).2 = Ok tt -> (resolve r v).1 = map_strings (substitute r) v).
Proof.
  induction v as [|b|t|s|seq IH|map IH|t v IH] using Value_deep_ind; simpl; [done|done|done| | | |done].
  - rewrite resolve_string_meaning; simpl. by destruct (meaning r s).
  - destruct (resolve_all_spec r (resolve r) strings_of (map_strings (substitute r)) seq IH) as [He Hg].
    destruct (resolve_all (resolve r) seq) as [seq' res]; simpl in *. split; [done|].
    intros Hres. by rewrite (Hg Hres).
  - destruct (resolve_all_spec r (fun kv => let (v, res) := resolve r kv.2 in ((kv.1, v), res))
                (fun kv => strings_of kv.2) (fun kv => (kv.1, map_strings (substitute r) kv.2)) map) as [He Hg].
    { eapply Forall_impl; [|exact IH]. intros [k v]; simpl. destruct (resolve r v) as [v' res]; simpl.
      intros [? Hv]. split; [done|]. intros Hres. by rewrite (Hv Hres). }
    destruct (resolve_all _ map) as [map' res]; simpl in *. split; [done|].
    intros Hres. by rewrite (Hg Hres).
Qed.

(** A document with the same shape: only strings differ. *)
Inductive same_shape : Value -> Value -> Prop :=
| shape_refl v : same_shape v v
| shape_str s s' : same_shape (Str s) (Str s')
| shape_seq l l' : Forall2 same_shape l l' -> same_shape (Sequence l) (Sequence l')
| shape_map l l' : Forall2 (fun a b => a.1 = b.1 /\ same_shape a.2 b.2) l l' ->
    same_shape (Mapping l) (Mapping l').

Lemma resolve_all_shape {A} (f : A -> A * Result unit ProviderError) (R : A -> A -> Prop) l :
  (forall x, R x x) -> Forall (fun x => R x (f x).1) l -> Forall2 R l (resolve_all f l).1.
Proof.
  intros Hrefl. induction 1 as [|x l Hx _ IH]; simpl; [constructor|].
  destruct (f x) as [x' [[]|e]]; simpl in *.
  - destruct (resolve_all f l) as [l' res]; simpl in *. by constructor.
  - constructor; [done|]. clear IH. by induction l; constructor.
Qed.

Lemma resolve_shape r v : same_shape v (resolve r v).1.
Proof.
  induction v as [|b|t|s|seq IH|map IH|t v IH] using Value_deep_ind; simpl; try apply shape_refl.
  - destruct (resolve_string r s). apply shape_str.
  - pose proof (resolve_all_shape (resolve r) same_shape seq shape_refl IH) as Hall.
    destruct (resolve_all (resolve r) seq). by apply shape_seq.
  - pose proof (resolve_all_shape (fun kv => let (v, res) := resolve r kv.2 in ((kv.1, v), res))
      (fun a b => a.1 = b.1 /\ same_shape a.2 b.2) map) as Hall.
    destruct (resolve_all _ map). apply shape_map, Hall; [by split; [|apply shape_refl]|].
    eapply Forall_impl; [|exact IH]. intros [k v]; simpl. by destruct (resolve r v).
Qed.

(** C39: Resolving a document is the same as looking up the meaning of its
    strings one after the other: it succeeds exactly when each of them has one
    (every reference names a registered provider that can load its variable),
    and then exactly those strings are replaced by their meanings; otherwise it
    returns the first error. In both cases the shape of the document and its keys
    are unchanged, and [resolve_str] does the same for one string without
    panicking. *)
Theorem resolve_equiv (r : ConfigResolver) :
  (forall v, (resolve r v).2 = first_error r (strings_of v)) /\
  (forall v, first_error r (strings_of v) = Ok tt <->
     Forall (fun s => is_ok (meaning r s) = true) (strings_of v)) /\
  (forall v, (resolve r v).2 = Ok tt -> (resolve r v).1 = map_strings (substitute r) v) /\
  (forall v, same_shape v (resolve r v).1) /\
  (forall s, resolve_str r s = Done (meaning r s)) /\
  (forall provider var, string_in ":" provider = false ->
     meaning r ("${" +:+ (provider +:+ String ":" var) +:+ "}") = reference r provider var).
Proof.
  split; [intros v; apply resolve_spec|]. split.
  { intros v. induction (strings_of v) as [|s l IH]; simpl; [by split; [constructor|]|].
    rewrite Forall_cons_iff, <- IH. destruct (meaning r s); simpl; [|split; [done|by intros [? _]]].
    split; [by split|by intros [_ ?]]. }
  split; [intros v; apply resolve_spec|]. split; [apply resolve_shape|]. split.
  - intros s. unfold resolve_str; simpl. rewrite resolve_string_meaning. unfold substitute.
    by destruct (meaning r s).
  - intros provider var Hp. unfold meaning, provider_and_ref.
    assert (Hpre : strip_prefix "${" ("${" +:+ (provider +:+ String ":" var) +:+ "}") =
                   Some ((provider +:+ String ":" var) +:+ "}")) by by apply strip_prefix_Some.
    rewrite Hpre. simpl. rewrite (proj2 (strip_suffix_Some "}" _ _) eq_refl).
    by rewrite split_once_sep.
Qed.

Definition demo_env : Environment :=
  {| env_var v := if decide (v = "HOME") then Some "/home/user" else None;
     read_to_string _ := None |}.
Lemma resolve_equiv_witness :
  let r := @ConfigResolver_new demo_env in
  let v := Sequence [Str "${env:HOME}"; Mapping [(Str "${env:KEY}", Str "plain")]] in
  (resolve r v).1 = map_strings (substitute r) v /\
  as_str (Str (substitute r "${env:HOME}")) = Some "/home/user" /\
  (resolve r (Sequence [Str "${env:HOME}"; Str "${env:HOME}${env:HOME}"])).2 = Err NotFound.
Proof.
  intros r v. split; [|split].
  - apply (resolve_equiv r). by vm_compute.
  - by vm_compute.
  - rewrite (proj1 (resolve_equiv r)). by vm_compute.
Defined.
Close Scope string_scope.
