(* ===== verification/Service.v ===== *)
(** * The service

    [service/src/lib.rs]: the facade an application uses. A service owns a
    message processor; every agent created on it has a local connection to the
    processor, a session layer, and a task that passes what the processor sends
    on that connection to the session layer. [ServiceError] is of
    [service/src/errors.rs].

    An [App] is what [create_agent] sets up. Its two channels to the processor
    join the two models: what the layer and the service put on [tx_slim] (the
    [io_slim] of the layer's environment) is received by the processor's task of
    the local connection, and what the processor puts on the connection's channel
    is received by the app's loop. [ap_taken] and [ap_read] count what was
    received. A spawned task is a sequence of turns; a [Panic] of a turn ends
    that task.

    [GrpcConfig] is the interface to the gRPC configurations; the controller
    service is outside the model, its connection outcome is an argument. *)
From stdpp Require Import base list gmap strings numbers option.
From S2P Require Import Prelude Proto Encoder Messages ConnectionTable Forwarder MessageProcessing.
From S2P Require Import Timer Session SessionLayer ComponentId.
Open Scope slim_scope.
Open Scope string_scope.

Module ServiceError.
Inductive ServiceError : Type :=
| ConfigError (what : string)
| AgentAlreadyRegistered
| AgentNotFound (what : string)
| ConnectionError (what : string)
| DisconnectError (what : string)
| SubscriptionError (what : string)
| UnsubscriptionError (what : string)
| SetRouteError (what : string)
| RemoveRouteError (what : string)
| PublishError (what : string)
| ReceiveError (what : string)
| SessionNotFound (what : string)
| SessionError (what : string)
| ClientAlreadyConnected (what : string)
| ServerNotFound (what : string)
| MessageSendingError (what : string)
| Unknown.

(** [thiserror]'s [Display]. *)
Definition fmt (e : ServiceError) : string :=
  match e with
  | ConfigError w => "configuration error " +:+ w
  | AgentAlreadyRegistered => "agent already registered"
  | AgentNotFound w => "agent not found: " +:+ w
  | ConnectionError w => "connection error: " +:+ w
  | DisconnectError w => "disconnect error: " +:+ w
  | SubscriptionError w => "error sending subscription: " +:+ w
  | UnsubscriptionError w => "error sending unsubscription: " +:+ w
  | SetRouteError w => "error on set route: " +:+ w
  | RemoveRouteError w => "error on remove route: " +:+ w
  | PublishError w => "error publishing message: " +:+ w
  | ReceiveError w => "error receiving message: " +:+ w
  | SessionNotFound w => "session not found: " +:+ w
  | SessionError w => "error in session: " +:+ w
  | ClientAlreadyConnected w => "client already connected: " +:+ w
  | ServerNotFound w => "server not found: " +:+ w
  | MessageSendingError w => "error sendinfg message: " +:+ w
  | Unknown => "unknown error"
  end.
End ServiceError.
Import ServiceError (ServiceError).

(** ** Components

    [config/src/component.rs] and [component/configuration.rs]. *)
Inductive ComponentError : Type :=
| ComponentError_ConfigError (what : string)
| ComponentError_RuntimeError (what : string)
| ComponentError_Unknown.

Inductive ConfigurationError : Type :=
| ConfigurationError_ConfigError (what : string)
| ConfigurationError_Unknown.

(** ** Configuration *)

(** What the service uses of the gRPC configurations: endpoints, validation,
    the error of a client configuration [to_channel] refuses, and whether a
    server can be made of a configuration ([bound]: whether its address could be
    bound). *)
Class GrpcConfig `{Transport} : Type := {
  client_endpoint : ClientConfig -> string;
  client_validate : ClientConfig -> Result unit ConfigurationError;
  to_channel_error : ClientConfig -> string;
  ServerConfig : Type;
  server_endpoint : ServerConfig -> string;
  server_validate : ServerConfig -> Result unit ConfigurationError;
  to_server_future : ServerConfig -> bool -> Result unit string;
}.

(** [Display] of the status the processor puts on a channel. *)
Class StatusText : Type := { Status_fmt : string -> string }.

Section service.
Context `{Hasher, HashIter, Transport, Telemetry, ErrorText, Rng, DebugAssertions, UnicodeTables, StatusText}.
Context {G : GrpcConfig}.

Record PubsubConfig : Type := mkPubsubConfig {
  servers : list ServerConfig;
  clients : list ClientConfig;
}.
Record ControllerConfig : Type := mkControllerConfig {
  controller_server : option ServerConfig;
  controller_client : option ClientConfig;
}.
Record ServiceConfiguration : Type := mkServiceConfiguration {
  pubsub : PubsubConfig;
  controller : ControllerConfig;
}.

(** [Default] and [new]. *)
Definition ServiceConfiguration_new : ServiceConfiguration :=
  mkServiceConfiguration (mkPubsubConfig [] []) (mkControllerConfig None None).
Definition with_server (c : ServiceConfiguration) (server : list ServerConfig) : ServiceConfiguration :=
  mkServiceConfiguration (mkPubsubConfig server (clients (pubsub c))) (controller c).
Definition with_client (c : ServiceConfiguration) (clients : list ClientConfig) : ServiceConfiguration :=
  mkServiceConfiguration (mkPubsubConfig (servers (pubsub c)) clients) (controller c).

(** [for x in l { x.validate()?; }]. *)
Fixpoint validate_all {A} (validate : A -> Result unit ConfigurationError) (l : list A)
    : Result unit ConfigurationError :=
  match l with
  | [] => Ok tt
  | x :: l => match validate x with Ok _ => validate_all validate l | Err e => Err e end
  end.

(** [Configuration::validate]. *)
Definition ServiceConfiguration_validate (c : ServiceConfiguration) : Result unit ConfigurationError :=
  match validate_all server_validate (servers (pubsub c)) with
  | Err e => Err e
  | Ok _ =>
      match validate_all client_validate (clients (pubsub c)) with
      | Err e => Err e
      | Ok _ =>
          match validate_all server_validate (option_list (controller_server (controller c))) with
          | Err e => Err e
          | Ok _ => validate_all client_validate (option_list (controller_client (controller c)))
          end
      end
  end.

(** ** State *)
Inductive LoopState : Type := NotStarted | Looping | LoopEnded.

Record App : Type := mkApp {
  ap_layer : SessionLayer;
  ap_io : SessionIo;
  ap_rx : N;
  ap_task : N;
  ap_loop : LoopState;
  ap_taken : nat;
  ap_read : nat;
}.

Definition set_layer (io : SessionIo) (l : SessionLayer) (a : App) : App :=
  mkApp l io (ap_rx a) (ap_task a) (ap_loop a) (ap_taken a) (ap_read a).
Definition set_loop (s : LoopState) (a : App) : App :=
  mkApp (ap_layer a) (ap_io a) (ap_rx a) (ap_task a) s (ap_taken a) (ap_read a).
Definition take_one (a : App) : App :=
  mkApp (ap_layer a) (ap_io a) (ap_rx a) (ap_task a) (ap_loop a) (S (ap_taken a)) (ap_read a).
Definition read_one (a : App) : App :=
  mkApp (ap_layer a) (ap_io a) (ap_rx a) (ap_task a) (ap_loop a) (ap_taken a) (S (ap_read a)).

(** [sv_session_layers] holds the number of the app of every registered agent;
    an app that was deleted stays in [sv_apps], as its task and its sessions
    keep the layer. [sv_servers]: the servers started, by the number of their
    cancellation token, with their endpoint and whether they run. *)
Record Service : Type := mkService {
  sv_id : ID;
  sv_message_processor : MessageProcessor;
  sv_config : ServiceConfiguration;
  sv_session_layers : gmap ((N * N * N) * N) (Agent * N);
  sv_apps : gmap N App;
  sv_cancellation_tokens : gmap string N;
  sv_servers : gmap N (string * bool);
  sv_clients : gmap string N;
  sv_next : N;
}.

Definition Service_new (id : ID) : Service :=
  mkService id MessageProcessor_new ServiceConfiguration_new ∅ ∅ ∅ ∅ ∅ 0.
Definition with_config (s : Service) (config : ServiceConfiguration) : Service :=
  mkService (sv_id s) (sv_message_processor s) config (sv_session_layers s) (sv_apps s)
    (sv_cancellation_tokens s) (sv_servers s) (sv_clients s) (sv_next s).
Definition with_message_processor (s : Service) (message_processor : MessageProcessor) : Service :=
  mkService (sv_id s) message_processor (sv_config s) (sv_session_layers s) (sv_apps s)
    (sv_cancellation_tokens s) (sv_servers s) (sv_clients s) (sv_next s).
Definition with_apps (s : Service) (apps : gmap N App) : Service :=
  mkService (sv_id s) (sv_message_processor s) (sv_config s) (sv_session_layers s) apps
    (sv_cancellation_tokens s) (sv_servers s) (sv_clients s) (sv_next s).
Definition with_session_layers (s : Service) (m : gmap ((N * N * N) * N) (Agent * N)) : Service :=
  mkService (sv_id s) (sv_message_processor s) (sv_config s) m (sv_apps s)
    (sv_cancellation_tokens s) (sv_servers s) (sv_clients s) (sv_next s).
Definition with_servers (s : Service) (tokens : gmap string N) (servers : gmap N (string * bool)) : Service :=
  mkService (sv_id s) (sv_message_processor s) (sv_config s) (sv_session_layers s) (sv_apps s)
    tokens servers (sv_clients s) (sv_next s).
Definition with_clients (s : Service) (clients : gmap string N) : Service :=
  mkService (sv_id s) (sv_message_processor s) (sv_config s) (sv_session_layers s) (sv_apps s)
    (sv_cancellation_tokens s) (sv_servers s) clients (sv_next s).
Definition with_next (s : Service) (next : N) : Service :=
  mkService (sv_id s) (sv_message_processor s) (sv_config s) (sv_session_layers s) (sv_apps s)
    (sv_cancellation_tokens s) (sv_servers s) (sv_clients s) next.

Definition build_server (c : ServiceConfiguration) (id : ID) : Result Service ServiceError :=
  Ok (with_config (Service_new id) c).

(** ** Computations *)
Definition svc (A : Type) : Type := Service -> panics (Service * A).
#[export] Instance svc_ret : MRet svc := fun A a s => Done (s, a).
#[export] Instance svc_bind : MBind svc := fun A B f c s =>
  match c s with
  | Done (s, a) => f a s
  | Panic why => Panic why
  end.
Definition service : svc Service := fun s => Done (s, s).
Definition update (f : Service -> Service) : svc unit := fun s => Done (f s, tt).
Definition may_panic {A} (c : panics A) : svc A := fun s => a ← c; Done (s, a).

(** The [?] operator. *)
Definition svc_try {A B} (c : svc (Result A ServiceError)) (f : A -> svc (Result B ServiceError))
    : svc (Result B ServiceError) :=
  r ← c; match r with Ok a => f a | Err e => mret (Err e) end.

(** A channel whose receiver was the stream of a processor's task is closed
    when that task has ended. *)
Definition close_outbox (io : SessionIo) : SessionIo :=
  mkSessionIo (mkOutbox false (ob_sent (io_slim io))) (io_app io) (io_timers io) (io_draws io).
Definition close_ended (mp : MessageProcessor) (a : App) : App :=
  match mp_tasks mp !! ap_task a with
  | Some _ => a
  | None => set_layer (close_outbox (ap_io a)) (ap_layer a) a
  end.

(** A call on the message processor. *)
Definition on_processor {A} (c : proc A) : svc A := fun s =>
  '(mp, r) ← c (sv_message_processor s);
  Done (with_apps (with_message_processor s mp) (close_ended mp <$> sv_apps s), r).

(** A call on the session layer of an app. *)
Definition on_layer {A} (i : N) (c : sess SessionLayer A) : svc A := fun s =>
  match sv_apps s !! i with
  | None => Panic "no such app"
  | Some a =>
      '(io, l, r) ← c (ap_io a) (ap_layer a);
      Done (with_apps s (<[i := set_layer io l a]> (sv_apps s)), r)
  end.

(** ** Agents *)

(** The message [process_messages] sends first. *)
Definition agent_subscription (agent : Agent) : panics ProtoMessage :=
  new_subscribe agent (ag_agent_type agent) (Some (ag_agent_id agent)) None.

(** [create_agent]: the number of the app stands for the receiver returned. The
    task of the local connection is the one [register_local_connection] spawns
    last. *)
Definition create_agent (agent_name : Agent) : svc (Result N ServiceError) :=
  s ← service;
  if decide (is_Some (hm_get agent_key agent_name (sv_session_layers s))) then
    mret (Err ServiceError.AgentAlreadyRegistered)
  else
    '(conn_id, _, rx) ← on_processor register_local_connection;
    s ← service;
    let session_layer := SessionLayer_new agent_name (Some (Agent_fmt agent_name)) conn_id in
    let io := mkSessionIo (mkOutbox true []) (mkOutbox true []) TimerSystem_empty 0 in
    let i := sv_next s in
    let app := mkApp session_layer io rx (mp_next (sv_message_processor s) - 1) NotStarted 0 0 in
    _ ← update (fun s => with_next (with_session_layers (with_apps s (<[i := app]> (sv_apps s)))
          (hm_insert agent_key agent_name i (sv_session_layers s))) (i + 1));
    mret (Ok i).

(** [delete_agent]. *)
Definition delete_agent (agent_name : Agent) : svc (Result unit ServiceError) :=
  s ← service;
  match hm_get agent_key agent_name (sv_session_layers s) with
  | None => mret (Err (ServiceError.AgentNotFound (Agent_fmt agent_name)))
  | Some i =>
      _ ← update (fun s => with_session_layers s (hm_remove agent_key agent_name (sv_session_layers s)));
      app ← may_panic (expect (sv_apps s !! i) "no such app");
      res ← on_processor (disconnect (sl_conn_id (ap_layer app)));
      mret (map_err (fun e => ServiceError.DisconnectError (DataPathError_fmt e)) res)
  end.

(** The number of an agent's app, or the error of [with_session_layer]. *)
Definition with_session_layer {A} (agent : Agent) (f : N -> svc (Result A ServiceError))
    : svc (Result A ServiceError) :=
  s ← service;
  match hm_get agent_key agent (sv_session_layers s) with
  | None => mret (Err (ServiceError.AgentNotFound (Agent_fmt agent)))
  | Some i => f i
  end.

(** ** Servers and clients *)
Definition run_server (config : ServerConfig) (bound : bool) : svc (Result unit ServiceError) :=
  match to_server_future config bound with
  | Err e => mret (Err (ServiceError.ConfigError e))
  | Ok _ =>
      s ← service;
      let token := sv_next s in
      _ ← update (fun s => with_next (with_servers s
            (<[server_endpoint config := token]> (sv_cancellation_tokens s))
            (<[token := (server_endpoint config, true)]> (sv_servers s))) (token + 1));
      mret (Ok tt)
  end.

(** [token.cancel()] ends the server's task. *)
Definition stop_server (endpoint : string) : svc (Result unit ServiceError) :=
  s ← service;
  match sv_cancellation_tokens s !! endpoint with
  | Some token =>
      _ ← update (fun s => with_servers s (delete endpoint (sv_cancellation_tokens s))
            (alter (fun e => (e.1, false)) token (sv_servers s)));
      mret (Ok tt)
  | None => mret (Err (ServiceError.ServerNotFound endpoint))
  end.

(** [attempts]: the outcomes of opening a channel, as in [connect] of the
    message processor. *)
Definition Service_connect (config : ClientConfig) (attempts : list bool) : svc (Result N ServiceError) :=
  s ← service;
  if decide (is_Some (sv_clients s !! client_endpoint config)) then
    mret (Err (ServiceError.ClientAlreadyConnected (client_endpoint config)))
  else if to_channel config then
    res ← on_processor (connect (Some config) None None attempts);
    match res with
    | Err e =>
        let e := ServiceError.ConnectionError (DataPathError_fmt e) in
        mret (Err (ServiceError.ConnectionError (ServiceError.fmt e)))
    | Ok (_, conn_id) =>
        _ ← update (fun s => with_clients s (<[client_endpoint config := conn_id]> (sv_clients s)));
        mret (Ok conn_id)
    end
  else mret (Err (ServiceError.ConfigError (to_channel_error config))).

Definition Service_disconnect (conn : N) : svc (Result unit ServiceError) :=
  res ← on_processor (disconnect conn);
  mret (map_err (fun e => ServiceError.DisconnectError (DataPathError_fmt e)) res).

Definition get_connection_id (endpoint : string) : svc (option N) :=
  s ← service; mret (sv_clients s !! endpoint).

(** ** Sending *)
Section sending.
(** The draws of a session id allowed for. *)
Variable fuel : nat.

Definition send_message (agent : Agent) (msg : ProtoMessage) (info : option Info)
    : svc (Result unit ServiceError) :=
  with_session_layer agent (fun i =>
    match info with
    | Some info =>
        res ← on_layer i (handle_message fuel (mkSessionMessage msg info) South);
        mret (map_err (fun e => ServiceError.SessionError (SessionError_fmt e)) res)
    | None =>
        res ← on_layer i (send_slim msg);
        mret (map_err ServiceError.MessageSendingError res)
    end).

Definition forward_flags (conn : option N) : SlimHeaderFlags :=
  match conn with
  | Some c => with_forward_to SlimHeaderFlags_default c
  | None => SlimHeaderFlags_default
  end.

Definition subscribe (local_agent : Agent) (agent_type : AgentType) (agent_id conn : option N)
    : svc (Result unit ServiceError) :=
  msg ← may_panic (new_subscribe local_agent agent_type agent_id (Some (forward_flags conn)));
  send_message local_agent msg None.

(** As in the source, the message built is a subscription. *)
Definition unsubscribe (local_agent : Agent) (agent_type : AgentType) (agent_id conn : option N)
    : svc (Result unit ServiceError) :=
  msg ← may_panic (new_subscribe local_agent agent_type agent_id (Some (forward_flags conn)));
  send_message local_agent msg None.

Definition set_route (local_agent : Agent) (agent_type : AgentType) (agent_id : option N) (conn : N)
    : svc (Result unit ServiceError) :=
  msg ← may_panic (new_subscribe local_agent agent_type agent_id
                     (Some (with_recv_from SlimHeaderFlags_default conn)));
  send_message local_agent msg None.

Definition remove_route (local_agent : Agent) (agent_type : AgentType) (agent_id : option N) (conn : N)
    : svc (Result unit ServiceError) :=
  send_message local_agent
    (new_unsubscribe local_agent agent_type agent_id (Some (with_recv_from SlimHeaderFlags_default conn)))
    None.

Definition publish_with_flags (source : Agent) (session_info : Info) (agent_type : AgentType)
    (agent_id : option N) (flags : SlimHeaderFlags) (blob : list Byte.byte) : svc (Result unit ServiceError) :=
  send_message source (new_publish source agent_type agent_id (Some flags) "msg" blob) (Some session_info).
Definition publish (source : Agent) (session_info : Info) (agent_type : AgentType)
    (agent_id : option N) (blob : list Byte.byte) : svc (Result unit ServiceError) :=
  publish_with_flags source session_info agent_type agent_id SlimHeaderFlags_default blob.
Definition publish_to (source : Agent) (session_info : Info) (agent_type : AgentType)
    (agent_id : option N) (forward_to : N) (blob : list Byte.byte) : svc (Result unit ServiceError) :=
  publish_with_flags source session_info agent_type agent_id
    (with_forward_to SlimHeaderFlags_default forward_to) blob.

(** ** Sessions *)
Definition session_err {A} (r : Result A SessionError) : Result A ServiceError :=
  map_err (fun e => ServiceError.SessionError (SessionError_fmt e)) r.

Definition Service_create_session (agent : Agent) (session_config : SessionConfig)
    : svc (Result Info ServiceError) :=
  with_session_layer agent (fun i =>
    res ← on_layer i (create_session fuel session_config None); mret (session_err res)).
Definition Service_set_session_config (agent : Agent) (session_config : SessionConfig)
    (session_id : option N) : svc (Result unit ServiceError) :=
  with_session_layer agent (fun i =>
    res ← on_layer i (layer_set_session_config session_config session_id); mret (session_err res)).
Definition Service_get_session_config (agent : Agent) (session_id : N)
    : svc (Result SessionConfig ServiceError) :=
  with_session_layer agent (fun i =>
    res ← on_layer i (get_session_config session_id); mret (session_err res)).
Definition Service_get_default_session_config (agent : Agent) (session_type : SessionType)
    : svc (Result SessionConfig ServiceError) :=
  with_session_layer agent (fun i =>
    res ← on_layer i (get_default_session_config session_type); mret (session_err res)).
Definition Service_add_session_interceptor (agent : Agent) (session_id : N)
    (interceptor : SessionInterceptor) : svc (Result unit ServiceError) :=
  with_session_layer agent (fun i =>
    res ← on_layer i (add_session_interceptor session_id interceptor); mret (session_err res)).
Definition delete_session (agent : Agent) (session_id : N) : svc (Result unit ServiceError) :=
  with_session_layer agent (fun i =>
    res ← on_layer i (remove_session session_id);
    if (res : bool) then mret (Ok tt)
    else mret (Err (ServiceError.SessionError "session not found"))).

(** ** The task of an app

    [process_messages]: a first turn that sends the subscription of the agent,
    then one turn per event of the [select!]. *)
Definition update_app (i : N) (f : App -> App) : svc unit :=
  update (fun s => with_apps s (alter f i (sv_apps s))).

Definition loop_start (i : N) : svc unit :=
  s ← service;
  match sv_apps s !! i with
  | Some app =>
      match ap_loop app with
      | NotStarted =>
          _ ← update_app i (set_loop Looping);
          msg ← may_panic (agent_subscription (sl_agent_name (ap_layer app)));
          res ← on_layer i (send_slim msg);
          match res with
          | Ok _ => mret tt
          | Err _ => may_panic (Panic "error sending subscription")
          end
      | _ => mret tt
      end
  | None => mret tt
  end.

Inductive LoopEvent : Type :=
| LoopRecv
| LoopDrained.

(** The loop is left: its receiver is dropped. *)
Definition end_loop (i : N) (app : App) : svc unit :=
  _ ← update_app i (set_loop LoopEnded);
  on_processor (close_channel (ap_rx app)).

(** Whether the processor still holds the sender of the app's channel. *)
Definition sender_alive (mp : MessageProcessor) (app : App) : bool :=
  match get_connection (mp_forwarder mp) (sl_conn_id (ap_layer app)) with
  | Some c => match cn_channel c with Server tx => bool_decide (tx = ap_rx app) | _ => false end
  | None => false
  end.

(** [rx.recv()]: the next item; [None] when there is none and none can come. *)
Definition process_turn (i : N) (ev : LoopEvent) : svc unit :=
  s ← service;
  match sv_apps s !! i with
  | Some app =>
      match ap_loop app with
      | Looping =>
          match ev with
          | LoopDrained => end_loop i app
          | LoopRecv =>
              match (ch ← mp_channels (sv_message_processor s) !! ap_rx app; ch_queue ch !! ap_read app) with
              | None => if sender_alive (sv_message_processor s) app then mret tt else end_loop i app
              | Some (Delivered msg) =>
                  _ ← update_app i read_one;
                  match pm_message_type msg with
                  | Some (Publish _) =>
                      m ← may_panic (SessionMessage_from msg);
                      _ ← on_layer i (handle_message fuel m North);
                      mret tt
                  | _ => mret tt
                  end
              | Some (InternalStatus e) =>
                  _ ← update_app i read_one;
                  res ← on_layer i (send_app (Err (Forward (Status_fmt e))));
                  match res with
                  | Ok _ => mret tt
                  | Err _ => may_panic (Panic "error sending error to application")
                  end
              end
          end
      | _ => mret tt
      end
  | None => mret tt
  end.

(** The processor's task of the app's connection receives the next message of
    [tx_slim]; [r1] and [r2] are the draws of its matching. *)
Definition processor_turn (i : N) (r1 r2 : nat) : svc unit :=
  s ← service;
  match sv_apps s !! i with
  | Some app =>
      match ob_sent (io_slim (ap_io app)) !! ap_taken app with
      | Some msg =>
          _ ← update_app i take_one;
          on_processor (stream_event (ap_task app) (Received msg r1 r2))
      | None => mret tt
      end
  | None => mret tt
  end.
End sending.

(** ** Running *)
Fixpoint run_servers (l : list (ServerConfig * bool)) : svc (Result unit ServiceError) :=
  match l with
  | [] => mret (Ok tt)
  | (c, bound) :: l => svc_try (run_server c bound) (fun _ => run_servers l)
  end.
Fixpoint connect_clients (l : list (ClientConfig * list bool)) : svc (Result unit ServiceError) :=
  match l with
  | [] => mret (Ok tt)
  | (c, attempts) :: l => svc_try (Service_connect c attempts) (fun _ => connect_clients l)
  end.

Definition serve_controller (bound : bool) : svc (Result unit ServiceError) :=
  s ← service;
  match controller_server (controller (sv_config s)) with
  | None => mret (Err (ServiceError.ConfigError "no controller server configured"))
  | Some c => mret (map_err ServiceError.ConfigError (to_server_future c bound))
  end.

(** The items of a list with their outcomes. *)
Definition with_outcomes {A B} (l : list A) (outcomes : list B) (otherwise : B) : list (A * B) :=
  imap (fun i x => (x, default otherwise (outcomes !! i))) l.

(** [bound]: which addresses can be bound, for the servers in order;
    [controller_bound]: that of the controller's server; [attempts]: the outcomes
    of opening the clients' channels; [controller_connected]: that of the
    controller's client. What has no outcome fails. *)
Definition run (bound : list bool) (controller_bound : bool) (attempts : list (list bool))
    (controller_connected : bool) : svc (Result unit ServiceError) :=
  s ← service;
  let config := sv_config s in
  match servers (pubsub config), clients (pubsub config) with
  | [], [] => mret (Err (ServiceError.ConfigError "no pubsub server or clients configured"))
  | srv, cli =>
      svc_try (run_servers (with_outcomes srv bound false)) (fun _ =>
      svc_try (connect_clients (with_outcomes cli attempts [])) (fun _ =>
      svc_try (match controller_server (controller config) with
               | Some _ => serve_controller controller_bound
               | None => mret (Ok tt)
               end) (fun _ =>
      match controller_client (controller config) with
      | None => mret (Ok tt)
      | Some c =>
          if to_channel c then
            if controller_connected then mret (Ok tt)
            else may_panic (Panic "error connecting controller client")
          else mret (Err (ServiceError.ConfigError (to_channel_error c)))
      end)))
  end.

(** [Component::start]. *)
Definition start (bound : list bool) (controller_bound : bool) (attempts : list (list bool))
    (controller_connected : bool) : svc (Result unit ComponentError) :=
  res ← run bound controller_bound attempts controller_connected;
  mret (map_err (fun e => ComponentError_RuntimeError (ServiceError.fmt e)) res).

(** ** The builder *)
Definition KIND : string := "slim".
Definition ServiceBuilder_kind : panics Kind :=
  match Kind_new KIND with
  | Ok k => Done k
  | Err _ => Panic "called `Result::unwrap()` on an `Err` value"
  end.

Definition ServiceBuilder_build (name : string) : panics (Result Service ComponentError) :=
  kind ← ServiceBuilder_kind;
  match ID_new_with_name kind name with
  | Err e => Done (Err (ComponentError_ConfigError (IdError_fmt e)))
  | Ok id => Done (Ok (Service_new id))
  end.

Definition ServiceBuilder_build_with_config (name : string) (config : ServiceConfiguration)
    : panics (Result Service ComponentError) :=
  kind ← ServiceBuilder_kind;
  match ID_new_with_name kind name with
  | Err e => Done (Err (ComponentError_ConfigError (IdError_fmt e)))
  | Ok id => Done (map_err (fun e => ComponentError_ConfigError (ServiceError.fmt e)) (build_server config id))
  end.
End service.
Close Scope string_scope.
