(* ===== verification/ProcessorFrame.v ===== *)
(** * What a step of the message processor leaves alone

    The tasks and connections of the other users of a processor: a running task
    never changes, new tasks get new numbers ([grows], for every handler and
    without conditions), and a local connection, once made, stays what it is until
    it is dropped ([locals], under the invariant). With both, a local connection
    and its task belong together for as long as the task runs ([linked]). *)
From stdpp Require Import base list gmap strings numbers option sets.
From S2P Require Import Prelude Proto Encoder Messages Pool ConnectionTable.
From S2P Require Import RemoteSubscriptions SubscriptionTable SubscriptionTableSpec Forwarder MessageProcessing.
From S2P Require Import MessageProcessingProofs DataPlane.

Section grows.
Context `{Hasher, HashIter, Transport, Telemetry}.
Implicit Type s : MessageProcessor.

Definition grows s s' : Prop :=
  (mp_next s <= mp_next s')%N /\
  forall id t, mp_tasks s' !! id = Some t ->
    mp_tasks s !! id = Some t \/ (mp_next s <= id < mp_next s')%N.

#[export] Instance grows_preorder : PreOrder grows.
Proof.
  split; [by split; [lia|auto]|].
  intros s1 s2 s3 [Hn1 Ht1] [Hn2 Ht2]. split; [lia|]. intros id t Hid.
  destruct (Ht2 id t Hid) as [Hid2|Hr]; [|right; lia].
  destruct (Ht1 id t Hid2) as [Hid1|Hr]; [by left|right; lia].
Qed.

(** A computation only adds tasks under new numbers. *)
Definition growing {A} (c : proc A) : Prop := forall s s' a, c s = Done (s', a) -> grows s s'.

Lemma growing_ret {A} (a : A) : growing (mret a).
Proof. intros s s' a' [= <- _]. done. Qed.
Lemma growing_bind {A B} (c : proc A) (f : A -> proc B) :
  growing c -> (forall a, growing (f a)) -> growing (c ≫= f).
Proof.
  intros Hc Hf s s' b. unfold mbind, proc_bind. destruct (c s) as [[s1 a]|] eqn:Hs; [|done].
  intros Hfs. transitivity s1; [by eapply Hc|by eapply Hf].
Qed.
Lemma growing_lift {A} (c : panics A) : growing (lift c).
Proof. intros s s' a. unfold lift. destruct c; simpl; [|done]. by intros [= <- _]. Qed.
Lemma growing_gets {A} (f : MessageProcessor -> A) : growing (gets f).
Proof. intros s s' a [= <- _]. done. Qed.
Lemma growing_same {A} (c : proc A) :
  (forall s s' a, c s = Done (s', a) -> mp_tasks s' = mp_tasks s /\ (mp_next s <= mp_next s')%N) -> growing c.
Proof. intros Hc s s' a [Ht Hn]%Hc. split; [done|]. rewrite Ht. by left. Qed.

Ltac same_tasks := apply growing_same; intros s s' a [= <- _]; simpl; split; [done|lia].
Lemma growing_set_forwarder f : growing (set_forwarder f).
Proof. same_tasks. Qed.
Lemma growing_set_channels c : growing (set_channels c).
Proof. same_tasks. Qed.
Lemma growing_set_tokens t : growing (set_tokens t).
Proof. same_tasks. Qed.
Lemma growing_fresh : growing fresh.
Proof. same_tasks. Qed.

Lemma growing_process_stream k cfg tok b : growing (process_stream k cfg tok b).
Proof.
  intros [f ch tok' tk nx] s' id. unfold process_stream. run_proc. intros [= <- <-]. split; simpl; [lia|].
  intros i t. rewrite lookup_insert_Some. intros [[<- _]|[_ Hi]]; [right; lia|by left].
Qed.

Lemma growing_end id : growing (tasks ← gets mp_tasks; set_tasks (delete id tasks)).
Proof.
  intros [f ch tok tk nx] s' u. run_proc. intros [= <- _]. split; simpl; [lia|].
  intros i t [_ Hi]%lookup_delete_Some. by left.
Qed.
End grows.

(** Walks through a handler; [known] is tried first at every call. *)
Ltac grow_with known :=
  repeat first
    [ known
    | apply growing_ret
    | apply growing_lift
    | apply growing_gets
    | apply growing_set_forwarder
    | apply growing_set_channels
    | apply growing_set_tokens
    | apply growing_fresh
    | apply growing_process_stream
    | apply growing_bind; [|intros ?]
    | progress cbn beta iota zeta
    | match goal with |- growing (match ?x with _ => _ end) => destruct x end ].
Ltac grow := grow_with fail.

Section handlers_grow.
Context `{Hasher, HashIter, Transport, Telemetry}.

Lemma growing_send tx i : growing (send tx i).
Proof. unfold send. grow. Qed.
Lemma growing_send_msg msg k : growing (send_msg msg k).
Proof. unfold send_msg. grow_with ltac:(apply growing_send). Qed.
Lemma growing_forward_all msg out : growing (forward_all msg out).
Proof.
  induction out as [|k out IH]; cbn [forward_all]; [grow|].
  apply growing_bind; [apply growing_send_msg|]. intros [u|e]; [|grow]. destruct out; [grow|exact IH].
Qed.
Lemma growing_establish c ex : growing (establish c ex).
Proof. unfold establish. grow. Qed.
Lemma growing_try_to_connect cfg la ra ex n att : growing (try_to_connect cfg la ra ex n att).
Proof.
  revert att. induction n as [|n IH]; intros att; cbn [try_to_connect]; [grow|].
  unfold new_channel, new_token, close_channel. grow_with ltac:(first [apply growing_establish|apply IH]).
Qed.
Lemma growing_connect cfg la ra att : growing (connect cfg la ra att).
Proof. apply growing_try_to_connect. Qed.
Lemma growing_disconnect k : growing (disconnect k).
Proof. unfold disconnect, cancel. grow. Qed.
Lemma growing_close_channel tx : growing (close_channel tx).
Proof. unfold close_channel. grow. Qed.
Lemma growing_register : growing register_local_connection.
Proof. unfold register_local_connection, new_channel, new_token. grow_with ltac:(apply growing_establish). Qed.
Lemma growing_open_channel ra la : growing (open_channel ra la).
Proof. unfold open_channel, new_channel, new_token. grow_with ltac:(apply growing_establish). Qed.
Lemma growing_handle conn b msg r1 r2 : growing (handle_new_message conn b msg r1 r2).
Proof.
  unfold handle_new_message, process_message, process_subscription, process_publish, match_and_forward_msg.
  grow_with ltac:(first [apply growing_send_msg|apply growing_forward_all]).
Qed.
Lemma growing_send_error k e : growing (send_error_to_local_app k e).
Proof. unfold send_error_to_local_app. grow_with ltac:(apply growing_send). Qed.
Lemma growing_restore infos k : growing (restore_subscriptions infos k).
Proof.
  induction infos as [|r infos IH]; cbn [restore_subscriptions]; grow_with ltac:(first [apply growing_send_msg|apply IH]).
Qed.
Lemma growing_reconnect cfg k race : growing (reconnect cfg k race).
Proof. unfold reconnect. grow_with ltac:(first [apply growing_try_to_connect|apply growing_restore]). Qed.
Lemma growing_finish id task b race : growing (finish_stream id task b race).
Proof.
  unfold finish_stream. intros s s' u Hrun.
  assert (Hsplit : ((tasks ← gets mp_tasks; set_tasks (delete id tasks)) ≫= (fun _ : unit =>
    connected ←
      (if b && bool_decide (is_Some (tk_client_config task))
       then reconnect (tk_client_config task) (tk_conn_index task) race else mret false);
    if (connected : bool) then mret tt else
    f ← gets mp_forwarder;
    set_forwarder (on_connection_drop f (tk_conn_index task) (tk_is_local task)))) s = Done (s', u)) by done.
  clear Hrun. revert Hsplit. apply growing_bind; [apply growing_end|]. intros ?. grow_with ltac:(apply growing_reconnect).
Qed.
Lemma growing_event id ev : growing (stream_event id ev).
Proof.
  unfold stream_event. grow_with ltac:(first [apply growing_handle|apply growing_send_error|apply growing_finish]).
Qed.
End handlers_grow.

(** ** Local connections *)
Section locals.
Context `{Hasher, HashIter, Transport, Telemetry}.
Implicit Type s : MessageProcessor.

(** No local connection appears or changes. *)
Definition locals s s' : Prop :=
  forall k c, get_connection (mp_forwarder s') k = Some c -> is_local_connection c = true ->
    get_connection (mp_forwarder s) k = Some c.

#[export] Instance locals_preorder : PreOrder locals.
Proof. split; [by intros s k c|]. intros s1 s2 s3 H12 H23 k c Hc Hl. by apply H12, Hl; apply H23. Qed.

Lemma locals_same s s' :
  connection_table (mp_forwarder s') = connection_table (mp_forwarder s) -> locals s s'.
Proof. intros Ht k c. unfold get_connection. by rewrite Ht. Qed.

Lemma locals_replace s s' k c :
  is_local_connection c = false ->
  (forall j, get_connection (mp_forwarder s') j =
     if decide (j = k) then Some c else get_connection (mp_forwarder s) j) -> locals s s'.
Proof. intros Hl Hg j c'. rewrite Hg. case_decide; [|done]. intros [= <-]. by rewrite Hl. Qed.

Lemma locals_dropped s S id task : dp_inv s S -> locals s (dropped s id task).
Proof.
  intros [Hinv _] k c. simpl. rewrite get_connection_drop by (by apply (fw_conns _ S), (mi_fw s S Hinv)).
  by case_decide.
Qed.

Lemma open_channel_locals s S ra la s' tx :
  dp_inv s S -> open_channel ra la s = Done (s', tx) -> locals s s'.
Proof.
  intros [Hinv _] Hr. destruct (open_channel_opens s S ra la Hinv) as (s1&k&tx'&tok&Hr'&[_ _ Hc _ _ _]).
  rewrite Hr in Hr'. injection Hr' as <- _. by eapply locals_replace; [|exact Hc].
Qed.

Lemma connect_locals s S cfg la ra att s' res :
  dp_inv s S -> connect cfg la ra att s = Done (s', res) -> locals s s'.
Proof.
  intros [Hinv _] Hr. pose proof (try_to_connect_spec cfg la ra None 10 att s S Hinv I) as Hspec.
  unfold connect_outcome in Hspec. unfold connect in Hr. destruct (existsb id (take 10 att)).
  - destruct Hspec as (s1&i&k&tx&tok&Hr'&[_ Hg _ _ _]&_). rewrite Hr in Hr'. injection Hr' as <- _.
    by eapply locals_replace; [|exact Hg].
  - destruct Hspec as (s1&Hr'&_&Hf&_). rewrite Hr in Hr'. injection Hr' as <- _.
    apply locals_same. by rewrite Hf.
Qed.

Lemma disconnect_locals s k s' res : disconnect k s = Done (s', res) -> locals s s'.
Proof.
  unfold disconnect, cancel. destruct s as [f ch tok tk nx]. run_proc.
  destruct (get_connection f k) as [c|]; [|by intros [= <- _]].
  destruct (cn_cancellation_token c); intros [= <- _]; by apply locals_same.
Qed.

Lemma close_channel_locals s tx s' u : close_channel tx s = Done (s', u) -> locals s s'.
Proof. intros [= <- _]. by apply locals_same. Qed.

Lemma finish_locals s S id task race s' :
  dp_inv s S -> mp_tasks s !! id = Some task ->
  (forall i r, get_subscriptions_forwarded_on_connection (mp_forwarder s) (tk_conn_index task) !! i
     = Some r -> replayable r) ->
  finish_stream id task true race s = Done (s', tt) -> locals s s'.
Proof.
  intros Hinv Ht Hall Hrun. destruct (tk_client_config task) as [cfg|] eqn:Hcfg.
  2:{ rewrite finish_stream_drops in Hrun by (by right). injection Hrun as <-. by eapply locals_dropped. }
  destruct (Hinv) as [Hmp [Htc Hto Hcf]]. destruct (Htc id task Ht) as (c&Hc&Hl).
  assert (Hlocal : tk_is_local task = false) by (apply (Hcf id); [done|by rewrite Hcfg]).
  assert (Hmp0 : mp_inv (without_task s id) S) by (by apply (mp_inv_core s), Hmp; apply without_task_core).
  assert (Hfail : forall s1, reconnect (Some cfg) (tk_conn_index task) race (without_task s id) = Done (s1, false) ->
    mp_inv s1 S -> mp_forwarder s1 = mp_forwarder s -> locals s s').
  { intros s1 Hr Hi1 Hf. rewrite (finish_stream_reconnects s id task cfg _ s1 false Hcfg Hr) in Hrun.
    injection Hrun as <-. intros k c'. simpl.
    rewrite get_connection_drop by (by apply (fw_conns _ S), (mi_fw s1 S Hi1)). rewrite Hf. by case_decide. }
  destruct (to_channel cfg) eqn:Hch.
  2:{ apply (Hfail (without_task s id)); [|done|done]. unfold reconnect.
      rewrite (bind_Done _ _ _ _ cfg) by done. by rewrite Hch. }
  destruct race as [| |attempts];
    [apply (Hfail (without_task s id)); [|done|done]; unfold reconnect;
     rewrite (bind_Done _ _ _ _ cfg) by done; by rewrite Hch..|].
  pose proof (reconnect_spec (without_task s id) S _ c cfg attempts Hmp0 Hc ltac:(congruence) Hch Hall) as Hrec.
  destruct (existsb Datatypes.id (take 120 attempts)).
  - destruct Hrec as (s1&tid&tx&tok&items&Hr&_&Hg&_).
    rewrite (finish_stream_reconnects s id task cfg _ s1 true Hcfg Hr) in Hrun. injection Hrun as <-.
    by eapply locals_replace; [|exact Hg].
  - destruct Hrec as (s1&Hr&Hi1&Hf&_). by apply (Hfail s1).
Qed.

Lemma event_locals s S id task ev s' :
  dp_inv s S -> mp_tasks s !! id = Some task -> event_ok s S task ev ->
  stream_event id ev s = Done (s', tt) -> locals s s'.
Proof.
  intros Hinv Ht Hev. unfold stream_event.
  rewrite (bind_Done _ _ _ _ _ (eq_refl : gets mp_tasks s = Done (s, _))). rewrite Ht.
  destruct ev as [msg r1 r2|race|race| |].
  - destruct (handle_total s S task msg r1 r2 Hinv Hev) as (s1&res&S'&Hh&Hi&Hsame).
    rewrite (bind_Done _ _ _ _ _ Hh). assert (Hl1 : locals s s1) by apply locals_same, Hsame.
    destruct res as [u|e]; [by intros [= <-]|]. destruct (tk_is_local task); [|by intros [= <-]].
    destruct (send_error_total s1 S' (tk_conn_index task) e Hi) as (s2&He&Hi2&Hsame2). rewrite He.
    intros [= <-]. transitivity s1; [done|]. apply locals_same, Hsame2.
  - by apply finish_locals with S.
  - by apply finish_locals with S.
  - rewrite finish_stream_drops by (by left). intros [= <-]. by eapply locals_dropped.
  - rewrite finish_stream_drops by (by left). intros [= <-]. by eapply locals_dropped.
Qed.
End locals.

(** ** A local connection and its task *)
Section linked.
Context `{Hasher, HashIter, Transport, Telemetry}.
Implicit Type s : MessageProcessor.

(** Task [id] serves the local connection [k], whose messages are read from
    channel [rx]. *)
Definition linked s (id k rx tok : N) : Prop :=
  mp_tasks s !! id = Some (mkTask k None tok true) /\
  get_connection (mp_forwarder s) k = Some (mkConnection None None (Server rx) Local (Some tok)).

Definition tasks_fresh s : Prop := forall id, is_Some (mp_tasks s !! id) -> (id < mp_next s)%N.

Lemma grows_fresh s s' : grows s s' -> tasks_fresh s -> tasks_fresh s'.
Proof.
  intros [Hn Ht] Hf id [t Hid]. destruct (Ht id t Hid) as [Hs|Hr]; [|lia].
  assert (id < mp_next s)%N by (apply Hf; by eexists). lia.
Qed.

Lemma linked_step s s' S' id k rx tok :
  dp_inv s' S' -> grows s s' -> locals s s' -> (id < mp_next s)%N -> linked s id k rx tok ->
  linked s' id k rx tok \/ mp_tasks s' !! id = None.
Proof.
  intros [_ Hok] [_ Hg] Hl Hid [Ht Hc]. destruct (mp_tasks s' !! id) as [t|] eqn:Ht'; [left|by right].
  destruct (Hg id t Ht') as [Hs|Hr]; [|lia]. rewrite Ht in Hs. injection Hs as <-.
  split; [done|]. destruct (to_conn s' Hok id _ Ht') as (c&Hc'&Hloc). simpl in *.
  rewrite Hc'. rewrite (Hl k c Hc' Hloc) in Hc. done.
Qed.

Lemma register_run s s' k tx1 rx :
  register_local_connection s = Done (s', (k, tx1, rx)) ->
  exists t, mp_tasks s' !! (mp_next s + 3)%N = Some t /\ mp_next s' = (mp_next s + 4)%N /\
    rx = (mp_next s + 1)%N /\
    (forall tx, (tx < mp_next s)%N -> mp_channels s' !! tx = mp_channels s !! tx).
Proof.
  unfold register_local_connection, establish, new_channel, new_token, process_stream.
  destruct s as [f ch tk ts nx]. run_proc.
  match goal with |- context [on_connection_established ?a ?b ?c] =>
    destruct (on_connection_established a b c) as [[f' [k'|]]|]; [|done..] end.
  cbn. intros [= <- <- <- <-]. cbn. eexists. replace (nx + 1 + 1 + 1)%N with (nx + 3)%N by lia.
  rewrite lookup_insert_eq. split; [done|]. split; [lia|]. split; [lia|].
  intros tx Htx. by rewrite !lookup_insert_ne by lia.
Qed.

(** What a registration makes. *)
Lemma register_linked s S s' k tx1 rx :
  dp_inv s S -> tasks_fresh s -> register_local_connection s = Done (s', (k, tx1, rx)) ->
  exists tok, linked s' (mp_next s' - 1) k rx tok /\ (mp_next s <= mp_next s' - 1 < mp_next s')%N /\
    dp_inv s' S /\ mp_channels s' !! rx = Some (mkChan true []) /\
    get_connection (mp_forwarder s) k = None /\
    (mp_next s <= rx < mp_next s')%N /\
    (forall id k' rx' tok', (id < mp_next s)%N -> linked s id k' rx' tok' -> linked s' id k' rx' tok') /\
    (forall id, (id < mp_next s)%N -> mp_tasks s' !! id = mp_tasks s !! id) /\
    (forall tx, (tx < mp_next s)%N -> mp_channels s' !! tx = mp_channels s !! tx).
Proof.
  intros Hinv Hfresh Hr.
  destruct (register_local_connection_opens s S (proj1 Hinv)) as (s1&k1&t1&t2&tok&Hr'&Ho).
  rewrite Hr in Hr'. injection Hr' as <- <- <- <-. exists tok.
  assert (Hi' : dp_inv s' S) by (by eapply opened_inv).
  destruct Ho as [_ Hfree Hc Hq [i Ht] _].
  assert (Hid : i = (mp_next s' - 1)%N /\ (mp_next s <= i < mp_next s')%N /\ (mp_next s <= rx < mp_next s')%N /\
    (forall tx, (tx < mp_next s)%N -> mp_channels s' !! tx = mp_channels s !! tx)).
  { pose proof (register_run s s' k tx1 rx Hr) as Hnew.
    destruct Hnew as (t&Htn&Hnx&->&Hch). rewrite Ht, lookup_insert_Some in Htn.
    destruct Htn as [[-> _]|[_ Hold]]; [split; [lia|split; [lia|split; [lia|done]]]|].
    assert (mp_next s + 3 < mp_next s)%N by (apply Hfresh; by eexists). lia. }
  destruct Hid as (->&Hrange&Hrx&Hch).
  assert (Hlinked : linked s' (mp_next s' - 1) k rx tok).
  { split; [by rewrite Ht, lookup_insert_eq|]. by rewrite Hc, decide_True. }
  split; [done|]. split; [done|]. split; [done|]. split.
  { assert (Hqk : queue s' k = Some []) by (by rewrite Hq, decide_True).
    apply queue_Some in Hqk as (tx&Htx&Hchan). unfold conn_chan in Htx. rewrite (proj2 Hlinked) in Htx.
    by injection Htx as <-. }
  split; [done|]. split; [done|].
  assert (Htasks : forall id, (id < mp_next s)%N -> mp_tasks s' !! id = mp_tasks s !! id).
  { intros id Hid. rewrite Ht, lookup_insert_ne by lia. done. }
  split; [|done]. intros id k' rx' tok' Hid [Hta Hco]. split; [by rewrite Htasks|].
  rewrite Hc, decide_False; [done|]. intros ->. congruence.
Qed.
End linked.
