(* ===== verification/ServiceProofs.v ===== *)
(** * The service: properties

    The apps of a service stay wired to the message processor, each to a
    connection of its own, whatever the service, its peers and its applications
    do; the operations do not panic; an agent is subscribed for its name once its
    first message has been handled. *)
From stdpp Require Import base list gmap strings numbers option sets.
From S2P Require Import Prelude Proto Encoder Messages ConnectionTable Forwarder MessageProcessing.
From S2P Require Import SubscriptionTableSpec MessageProcessingProofs DataPlane ProcessorFrame.
From S2P Require Import ReceiverBuffer Timer Session RequestResponse FireAndForget Streaming SessionLayer SessionLayerProofs.
From S2P Require Import ComponentId Service.
Open Scope slim_scope.

Section layer_frame.
Context `{Hasher, BuildProfile, ErrorText, Rng, DebugAssertions, Logging, HashIter}.

(** Whose layer it is, and on which connection. *)
Definition layer_frame (l l' : SessionLayer) : Prop :=
  sl_agent_name l' = sl_agent_name l /\ sl_identity l' = sl_identity l /\ sl_conn_id l' = sl_conn_id l.

Lemma with_session_frame {A} id (c : sess Session A) io l io' l' r :
  with_session id c io l = Done (io', l', r) -> layer_frame l l'.
Proof.
  unfold with_session. destruct (sl_pool l !! id) as [[s sys]|]; [|by intros [= _ <- _]].
  destruct (c _ s) as [[[io1 s1] a]|]; [|done]. by intros [= _ <- _].
Qed.

Lemma create_frame fuel conf id io l io' l' res :
  create_session fuel conf id io l = Done (io', l', res) -> layer_frame l l'.
Proof. by intros (_&_&[->|(?&?&?&_&_&->&_)])%create_session_cases. Qed.

Lemma layer_step_frame x y : layer_step x y -> layer_ok x.2 -> layer_frame x.2 y.2.
Proof.
  destruct 1 as [fuel conf id io l io' l' res Hr|id io l io' l' res Hr|fuel m d io l io' l' res Hr|
    conf id io l io' l' res Hr|id i io l io' l' res _ Hr|id task io l io' l' res Hr]; cbn [snd]; intros Hok.
  - by eapply create_frame.
  - revert Hr. unfold remove_session. run_sess. destruct (sl_pool l !! id) as [[s sys]|]; run_sess; by intros [= _ <- _].
  - destruct (layer_handle_total fuel m d io l Hok) as (io1&l1&r1&Hrun1&_&_&Hn&Hi&Hc&_).
    rewrite Hrun1 in Hr. by injection Hr as _ <- _.
  - revert Hr. unfold layer_set_session_config. run_sess. destruct id as [id|].
    + destruct (with_session id _ io l) as [[[io1 l1] r]|] eqn:Hw; [|done]. apply with_session_frame in Hw.
      destruct r; run_sess; by intros [= _ <- _].
    + destruct conf; [destruct (FireAndForgetConfiguration_replace _ _)|
        destruct (RequestResponseConfiguration_replace _ _)|destruct (StreamingConfiguration_replace _ _)];
        run_sess; by intros [= _ <- _].
  - revert Hr. unfold add_session_interceptor. run_sess.
    destruct (with_session id _ io l) as [[[io1 l1] r]|] eqn:Hw; [|done]. apply with_session_frame in Hw.
    destruct r; run_sess; by intros [= _ <- _].
  - by eapply with_session_frame.
Qed.
End layer_frame.

(** ** The invariant *)
Section invariant.
Context `{Hasher, BuildProfile, HashIter, Transport, Telemetry, ErrorText, Rng, DebugAssertions, Logging,
  UnicodeTables, StatusText}.
Context {G : GrpcConfig}.
Implicit Types (s : Service) (mp : MessageProcessor) (a : App).

(** An app is wired to the processor as long as its task there runs. *)
Record app_ok mp a : Prop := {
  ao_layer : layer_ok (ap_layer a);
  ao_task : (ap_task a < mp_next mp)%N;
  ao_link : mp_tasks mp !! ap_task a = None \/
    exists tok, linked mp (ap_task a) (sl_conn_id (ap_layer a)) (ap_rx a) tok;
}.

Record svc_ok s : Prop := {
  so_mp : exists S, dp_inv (sv_message_processor s) S;
  so_fresh : tasks_fresh (sv_message_processor s);
  so_apps : forall i a, sv_apps s !! i = Some a -> app_ok (sv_message_processor s) a;
  so_tasks : forall i j a b, sv_apps s !! i = Some a -> sv_apps s !! j = Some b ->
    ap_task a = ap_task b -> i = j;
  so_next : forall i, is_Some (sv_apps s !! i) -> (i < sv_next s)%N;
  so_registered : forall key ag i, sv_session_layers s !! key = Some (ag, i) ->
    agent_key ag = key /\ exists a, sv_apps s !! i = Some a /\ sl_agent_name (ap_layer a) = ag;
}.

Lemma svc_ok_ext s s' :
  sv_message_processor s' = sv_message_processor s -> sv_apps s' = sv_apps s ->
  sv_session_layers s' = sv_session_layers s -> (sv_next s <= sv_next s')%N -> svc_ok s -> svc_ok s'.
Proof.
  intros Hm Ha Hl Hn [Hmp Hf Happs Ht Hnx Hr]. split; rewrite ?Hm, ?Ha, ?Hl; try done.
  intros i Hi. apply Hnx in Hi. lia.
Qed.

Lemma svc_ok_new id : svc_ok (Service_new id).
Proof.
  split; simpl.
  - exists ∅. apply dp_inv_new.
  - intros i [t Hi]. cbn [mp_tasks MessageProcessor_new] in Hi. by rewrite lookup_empty in Hi.
  - intros i a. by rewrite lookup_empty.
  - intros i j a b. by rewrite lookup_empty.
  - intros i [a Hi]. by rewrite lookup_empty in Hi.
  - intros key ag i. by rewrite lookup_empty.
Qed.

(** Changing one app without touching its wiring. *)
Lemma svc_ok_app s i f :
  svc_ok s ->
  (forall a, sv_apps s !! i = Some a -> layer_ok (ap_layer a) ->
     layer_ok (ap_layer (f a)) /\ layer_frame (ap_layer a) (ap_layer (f a)) /\
     ap_task (f a) = ap_task a /\ ap_rx (f a) = ap_rx a) ->
  svc_ok (with_apps s (alter f i (sv_apps s))).
Proof.
  intros [Hmp Hf Happs Ht Hnx Hr] Hfa. split; simpl; [done|done|..].
  - intros j a. rewrite lookup_alter_Some. intros [(<-&a0&Ha0&->)|[Hne Hj]]; [|by apply (Happs j)].
    destruct (Happs i a0 Ha0) as [Hl Hb Hlink].
    destruct (Hfa a0 Ha0 Hl) as (Hl'&(_&_&Hc)&Hta&Hrx). split; rewrite ?Hta, ?Hrx, ?Hc; done.
  - assert (Hold : forall j a, alter f i (sv_apps s) !! j = Some a ->
      exists a0, sv_apps s !! j = Some a0 /\ ap_task a = ap_task a0).
    { intros j a. rewrite lookup_alter_Some. intros [(<-&a0&Ha0&->)|[Hne Hj]]; [|by exists a].
      exists a0. split; [done|]. by apply (Hfa a0 Ha0), (Happs i a0 Ha0). }
    intros j k a b (a0&Ha0&->)%Hold (b0&Hb0&->)%Hold. by apply Ht.
  - intros j. rewrite lookup_alter_is_Some. apply Hnx.
  - intros key ag j Hj. destruct (Hr key ag j Hj) as (Hk&a&Ha&Hn). split; [done|].
    destruct (decide (i = j)) as [<-|Hne].
    + exists (f a). rewrite lookup_alter_eq, Ha. split; [done|].
      destruct (Hfa a Ha (ao_layer _ _ (Happs i a Ha))) as (_&(Hnm&_&_)&_&_). by rewrite Hnm.
    + exists a. by rewrite lookup_alter_ne.
Qed.

Lemma close_ended_parts mp a :
  ap_layer (close_ended mp a) = ap_layer a /\ ap_task (close_ended mp a) = ap_task a /\
  ap_rx (close_ended mp a) = ap_rx a /\ ap_loop (close_ended mp a) = ap_loop a.
Proof. unfold close_ended. by destruct (mp_tasks mp !! ap_task a). Qed.

(** A step of the processor that adds no local connection. *)
Lemma on_processor_ok {A} (c : proc A) s s' r S' :
  svc_ok s -> on_processor c s = Done (s', r) ->
  (forall mp', c (sv_message_processor s) = Done (mp', r) ->
     dp_inv mp' S' /\ grows (sv_message_processor s) mp' /\ locals (sv_message_processor s) mp') ->
  svc_ok s'.
Proof.
  intros [Hmp Hf Happs Ht Hnx Hr] Hrun Hc. unfold on_processor in Hrun.
  destruct (c (sv_message_processor s)) as [[mp' r']|] eqn:Hcm; [|done].
  injection Hrun as <- <-. destruct (Hc mp' eq_refl) as (Hdp&Hg&Hl).
  assert (Hold : forall i a, (close_ended mp' <$> sv_apps s) !! i = Some a ->
    exists a0, sv_apps s !! i = Some a0 /\ a = close_ended mp' a0).
  { intros i a. rewrite lookup_fmap. destruct (sv_apps s !! i) as [a0|]; [|done].
    intros [= <-]. by exists a0. }
  split; simpl.
  - by exists S'.
  - by eapply grows_fresh.
  - intros i a (a0&Ha0&->)%Hold. destruct (Happs i a0 Ha0) as [Hlay Hb Hlink].
    destruct (close_ended_parts mp' a0) as (Hlo&Hta&Hrx&_). split; rewrite ?Hlo, ?Hta, ?Hrx; [done| |].
    + destruct Hg as [Hn _]. lia.
    + destruct Hlink as [Hnone|[tok Hlink]].
      * left. destruct (mp_tasks mp' !! ap_task a0) as [t|] eqn:E; [|done].
        destruct (proj2 Hg _ _ E) as [Hs|Hr']; [congruence|lia].
      * destruct (linked_step _ _ S' _ _ _ _ Hdp Hg Hl Hb Hlink) as [Hk|Hk]; [right; by exists tok|by left].
  - intros i j a b (a0&Ha0&->)%Hold (b0&Hb0&->)%Hold. unfold close_ended.
    destruct (close_ended_parts mp' a0) as (_&Hta&_), (close_ended_parts mp' b0) as (_&Htb&_).
    fold (close_ended mp' a0) (close_ended mp' b0). rewrite Hta, Htb. by apply Ht.
  - intros i [a Ha]. apply Hold in Ha as (a0&Ha0&_). apply Hnx. by eexists.
  - intros key ag i Hi. destruct (Hr key ag i Hi) as (Hk&a&Ha&Hn). split; [done|].
    exists (close_ended mp' a). rewrite lookup_fmap, Ha. split; [done|].
    destruct (close_ended_parts mp' a) as (-> & _). done.
Qed.

(** ** Operations

    [safe P c]: from a state of the invariant with [P], [c] returns to the
    invariant. [keeps c]: if [c] returns, it returns to the invariant. *)
Definition safe {A} (P : Service -> Prop) (c : svc A) : Prop :=
  forall s, svc_ok s -> P s -> exists s' r, c s = Done (s', r) /\ svc_ok s'.
Definition keeps {A} (c : svc A) : Prop :=
  forall s s' r, svc_ok s -> c s = Done (s', r) -> svc_ok s'.

Lemma svc_bind_Done {A B} (c : svc A) (f : A -> svc B) s s' x :
  c s = Done (s', x) -> (c ≫= f) s = f x s'.
Proof. intros Hc. unfold mbind, svc_bind. by rewrite Hc. Qed.

Lemma safe_keeps {A} (c : svc A) : safe (fun _ => True) c -> keeps c.
Proof. intros Hc s s' r Hs Hr. destruct (Hc s Hs I) as (s1&r1&Hr1&Hs1). congruence. Qed.
Lemma safe_ret {A} P (x : A) : safe P (mret x).
Proof. intros s Hs _. by eexists _, _. Qed.
Lemma safe_bind {A B} P (c : svc A) (f : A -> svc B) :
  safe P c -> (forall x, safe (fun _ => True) (f x)) -> safe P (c ≫= f).
Proof.
  intros Hc Hf s Hs HP. destruct (Hc s Hs HP) as (s1&x&Hr&Hs1). rewrite (svc_bind_Done _ _ _ _ _ Hr).
  by apply Hf.
Qed.
Lemma safe_service {A} P (f : Service -> svc A) :
  (forall s, svc_ok s -> P s -> safe (eq s) (f s)) -> safe P (service ≫= f).
Proof. intros Hf s Hs HP. rewrite (svc_bind_Done _ _ _ _ _ (eq_refl : service s = Done (s, s))). by apply (Hf s). Qed.

Lemma keeps_ret {A} (x : A) : keeps (mret x).
Proof. intros s s' r Hs [= <- _]. done. Qed.
Lemma keeps_bind {A B} (c : svc A) (f : A -> svc B) : keeps c -> (forall x, keeps (f x)) -> keeps (c ≫= f).
Proof.
  intros Hc Hf s s' r Hs. unfold mbind, svc_bind. destruct (c s) as [[s1 x]|] eqn:Hr; [|done].
  intros Hr'. eapply Hf; [|exact Hr']. by eapply Hc.
Qed.
Lemma keeps_service : keeps service.
Proof. intros s s' r Hs [= <- _]. done. Qed.
Lemma keeps_may_panic {A} (c : panics A) : keeps (may_panic c).
Proof. intros s s' r Hs. unfold may_panic. destruct c; [|done]. intros [= <- _]. done. Qed.

(** A layer operation. *)
Definition layer_keeps {A} (c : sess SessionLayer A) : Prop :=
  forall io l io' l' r, layer_ok l -> c io l = Done (io', l', r) -> layer_ok l' /\ layer_frame l l'.

Lemma on_layer_run {A} (c : sess SessionLayer A) i s s' r :
  svc_ok s -> layer_keeps c -> on_layer i c s = Done (s', r) -> svc_ok s'.
Proof.
  intros Hs Hc. unfold on_layer. destruct (sv_apps s !! i) as [a|] eqn:Ha; [|done].
  destruct (c (ap_io a) (ap_layer a)) as [[[io l] r']|] eqn:Hr; [|done]. intros [= <- _].
  rewrite <- (alter_alt_Some (fun _ => set_layer io l a) (sv_apps s) i a Ha).
  apply svc_ok_app; [done|]. intros a' Ha' Hl. rewrite Ha in Ha'. injection Ha' as <-.
  destruct (Hc _ _ _ _ _ Hl Hr) as [Hl' Hf]. by split.
Qed.
Lemma keeps_on_layer {A} (c : sess SessionLayer A) i : layer_keeps c -> keeps (on_layer i c).
Proof. intros Hc s s' r Hs. by apply on_layer_run. Qed.

Lemma safe_on_layer {A} (c : sess SessionLayer A) i :
  layer_keeps c -> (forall io l, layer_ok l -> exists io' l' r, c io l = Done (io', l', r)) ->
  safe (fun s => is_Some (sv_apps s !! i)) (on_layer i c).
Proof.
  intros Hc Ht s Hs [a Ha].
  destruct (Ht (ap_io a) (ap_layer a)) as (io&l&r&Hr); [by eapply ao_layer, so_apps|].
  assert (Hrun : exists s', on_layer i c s = Done (s', r)).
  { unfold on_layer. rewrite Ha, Hr. by eexists. }
  destruct Hrun as [s' Hrun]. exists s', r. split; [done|]. by eapply on_layer_run.
Qed.

Lemma layer_keeps_step {A} (c : sess SessionLayer A) :
  (forall io l io' l' r, c io l = Done (io', l', r) -> layer_step (io, l) (io', l')) -> layer_keeps c.
Proof.
  intros Hc io l io' l' r Hl Hr. apply Hc in Hr. split; [by apply (layer_step_ok _ _ Hr)|].
  by apply (layer_step_frame _ _ Hr).
Qed.
Lemma layer_keeps_same {A} (c : sess SessionLayer A) :
  (forall io l io' l' r, c io l = Done (io', l', r) -> l' = l) -> layer_keeps c.
Proof. intros Hc io l io' l' r Hl Hr. apply Hc in Hr as ->. by split. Qed.

Lemma layer_keeps_send_slim m : layer_keeps (send_slim m).
Proof. apply layer_keeps_same. intros io l io' l' r. run_sess. destruct (ob_open _); by intros [= _ <- _]. Qed.
Lemma layer_keeps_send_app m : layer_keeps (send_app m).
Proof. apply layer_keeps_same. intros io l io' l' r. run_sess. destruct (ob_open _); by intros [= _ <- _]. Qed.
Lemma layer_keeps_handle fuel m d : layer_keeps (handle_message fuel m d).
Proof. apply layer_keeps_step. intros io l io' l' r. apply step_message. Qed.

Lemma safe_with_layer {A} agent (f : N -> svc (Result A ServiceError.ServiceError)) :
  (forall i, safe (fun s => is_Some (sv_apps s !! i)) (f i)) -> safe (fun _ => True) (with_session_layer agent f).
Proof.
  intros Hf. apply safe_service. intros s Hs _.
  destruct (hm_get agent_key agent (sv_session_layers s)) as [i|] eqn:Hg; [|apply safe_ret].
  intros s0 Hs0 <-. apply Hf; [done|]. unfold hm_get in Hg.
  destruct (sv_session_layers s !! agent_key agent) as [[ag j]|] eqn:Hl; [|done]. injection Hg as ->.
  destruct (so_registered s Hs _ _ _ Hl) as (_&a&Ha&_). by eexists.
Qed.
Lemma keeps_with_layer {A} agent (f : N -> svc (Result A ServiceError.ServiceError)) :
  (forall i, keeps (f i)) -> keeps (with_session_layer agent f).
Proof.
  intros Hf. apply keeps_bind; [apply keeps_service|]. intros s.
  destruct (hm_get _ _ _); [apply Hf|apply keeps_ret].
Qed.

(** A processor operation that always returns and adds no local connection. *)
Lemma safe_on_processor {A} P (c : proc A) :
  (forall s S, svc_ok s -> P s -> dp_inv (sv_message_processor s) S ->
     exists mp' r S', c (sv_message_processor s) = Done (mp', r) /\ dp_inv mp' S' /\
       grows (sv_message_processor s) mp' /\ locals (sv_message_processor s) mp') ->
  safe P (on_processor c).
Proof.
  intros Hc s Hs HP. destruct (so_mp s Hs) as [S Hdp].
  destruct (Hc s S Hs HP Hdp) as (mp'&r&S'&Hr&Hdp'&Hg&Hl).
  assert (Hrun : exists s', on_processor c s = Done (s', r)) by (unfold on_processor; rewrite Hr; by eexists).
  destruct Hrun as [s' Hrun]. exists s', r. split; [done|].
  eapply (on_processor_ok c s s' r S'); [done|done|]. intros mp1 Hmp1. rewrite Hr in Hmp1.
  by injection Hmp1 as <-.
Qed.

Lemma safe_disconnect k : safe (fun _ => True) (on_processor (disconnect k)).
Proof.
  apply safe_on_processor. intros s S _ _ Hdp.
  destruct (disconnect_total _ S k Hdp) as (mp'&r&Hr&Hdp'). exists mp', r, S.
  split; [done|]. split; [done|]. split; [by eapply growing_disconnect|by eapply disconnect_locals].
Qed.
Lemma safe_connect cfg la ra att : safe (fun _ => True) (on_processor (connect cfg la ra att)).
Proof.
  apply safe_on_processor. intros s S _ _ Hdp.
  destruct (connect_total _ S cfg la ra att Hdp) as (mp'&r&Hr&Hdp'). exists mp', r, S.
  split; [done|]. split; [done|]. split; [by eapply growing_connect|by eapply connect_locals].
Qed.
Lemma safe_open_channel ra la : safe (fun _ => True) (on_processor (open_channel ra la)).
Proof.
  apply safe_on_processor. intros s S _ _ Hdp.
  destruct (open_channel_opens _ S ra la (proj1 Hdp)) as (mp'&k&tx&tok&Hr&Ho). exists mp', tx, S.
  split; [done|]. split; [by eapply opened_inv|]. split; [by eapply growing_open_channel|by eapply open_channel_locals].
Qed.
Lemma safe_close_channel tx : safe (fun _ => True) (on_processor (close_channel tx)).
Proof.
  apply safe_on_processor. intros s S _ _ [Hinv Htk].
  destruct (close_channel_inv _ S tx Hinv) as (mp'&Hr&Hi&Hf&Ht). exists mp', tt, S.
  split; [done|]. split; [split; [done|]|split; [by eapply growing_close_channel|by eapply close_channel_locals]].
  apply (tasks_ok_same (sv_message_processor s)); [|done]. split; [by rewrite Hf|done].
Qed.
Lemma safe_event id ev :
  safe (fun s => exists task, mp_tasks (sv_message_processor s) !! id = Some task /\
          forall S, mp_inv (sv_message_processor s) S -> event_ok (sv_message_processor s) S task ev)
    (on_processor (stream_event id ev)).
Proof.
  apply safe_on_processor. intros s S _ (task&Ht&Hev) Hdp. specialize (Hev S (proj1 Hdp)).
  destruct (stream_event_total _ S id task ev Hdp Ht Hev) as (mp'&S'&Hr&Hdp'). exists mp', tt, S'.
  split; [done|]. split; [done|]. split; [by eapply growing_event|by eapply event_locals].
Qed.

Lemma safe_update P f :
  (forall s, svc_ok s -> P s -> svc_ok (f s)) -> safe P (update f).
Proof. intros Hf s Hs HP. eexists _, _. split; [done|]. by apply Hf. Qed.

Lemma safe_update_app P i f :
  (forall a, ap_layer (f a) = ap_layer a /\ ap_task (f a) = ap_task a /\ ap_rx (f a) = ap_rx a) ->
  safe P (update_app i f).
Proof.
  intros Hf. apply safe_update. intros s Hs _. apply svc_ok_app; [done|]. intros a _ Hl.
  destruct (Hf a) as (->&->&->). by split.
Qed.

(** *** Creating an agent *)

(** The app [create_agent] makes. *)
Definition new_app (ag : Agent) (conn rx task : N) : App :=
  mkApp (SessionLayer_new ag (Some (Agent_fmt ag)) conn)
    (mkSessionIo (mkOutbox true []) (mkOutbox true []) TimerSystem_empty 0) rx task NotStarted 0 0.

Lemma close_ended_old mp mp' a :
  app_ok mp a -> (forall id, (id < mp_next mp)%N -> mp_tasks mp' !! id = mp_tasks mp !! id) ->
  (mp_next mp <= mp_next mp')%N ->
  (forall id k rx tok, (id < mp_next mp)%N -> linked mp id k rx tok -> linked mp' id k rx tok) ->
  app_ok mp' (close_ended mp' a).
Proof.
  intros [Hl Hb Hlink] Ht Hn Hk. destruct (close_ended_parts mp' a) as (Hlo&Hta&Hrx&_).
  split; rewrite ?Hlo, ?Hta, ?Hrx; [done|lia|]. destruct Hlink as [Hnone|[tok Hlink]].
  - left. by rewrite Ht.
  - right. exists tok. by apply Hk.
Qed.

Lemma create_agent_spec s ag :
  svc_ok s -> hm_get agent_key ag (sv_session_layers s) = None ->
  exists s' conn rx task tok S, create_agent ag s = Done (s', Ok (sv_next s)) /\ svc_ok s' /\
    sv_apps s' !! sv_next s = Some (new_app ag conn rx task) /\
    linked (sv_message_processor s') task conn rx tok /\
    sv_session_layers s' = <[agent_key ag := (ag, sv_next s)]> (sv_session_layers s) /\
    dp_inv (sv_message_processor s) S /\ dp_inv (sv_message_processor s') S /\
    get_connection (mp_forwarder (sv_message_processor s)) conn = None /\
    mp_channels (sv_message_processor s') !! rx = Some (mkChan true []).
Proof.
  intros Hs Hnone. pose proof Hs as [[S Hdp] Hf Happs Ht Hnx Hr]. set (mp := sv_message_processor s) in *.
  destruct (register_local_connection_opens mp S (proj1 Hdp)) as (mp'&k&tx1&rx&_&Hrun&_).
  destruct (register_linked mp S mp' k tx1 rx Hdp Hf Hrun)
    as (tok&Hlink&Hrange&Hdp'&Hch&Hfree&Hrx&Hkeep&Htasks&_).
  assert (Hlay : sv_session_layers s !! agent_key ag = None).
  { unfold hm_get in Hnone. by destruct (sv_session_layers s !! agent_key ag). }
  unfold create_agent. rewrite (svc_bind_Done _ _ _ _ _ (eq_refl : service s = Done (s, s))).
  rewrite decide_False by (rewrite Hnone; by intros [? ?]).
  assert (Hreg : on_processor register_local_connection s =
    Done (with_apps (with_message_processor s mp') (close_ended mp' <$> sv_apps s), (k, tx1, rx))).
  { unfold on_processor. fold mp. by rewrite Hrun. }
  rewrite (svc_bind_Done _ _ _ _ _ Hreg). cbv beta iota.
  set (s1 := with_apps _ _). rewrite (svc_bind_Done _ _ _ _ _ (eq_refl : service s1 = Done (s1, s1))).
  eexists _, k, rx, (mp_next mp' - 1)%N, tok, S. split; [reflexivity|].
  assert (Hl' : hm_insert agent_key ag (sv_next s) (sv_session_layers s) =
                <[agent_key ag := (ag, sv_next s)]> (sv_session_layers s)).
  { unfold hm_insert. by rewrite Hlay. }
  assert (Hnew : sv_apps s !! sv_next s = None).
  { apply eq_None_not_Some. intros Hi. apply Hnx in Hi. lia. }
  assert (Hold : forall i a, (close_ended mp' <$> sv_apps s) !! i = Some a ->
    exists a0, sv_apps s !! i = Some a0 /\ a = close_ended mp' a0).
  { intros i a. rewrite lookup_fmap. destruct (sv_apps s !! i) as [a0|]; [|done].
    intros [= <-]. by exists a0. }
  cbn. rewrite Hl'. split; [|split; [by rewrite lookup_insert_eq|done]].
  split; simpl.
  - by exists S.
  - eapply grows_fresh; [by eapply growing_register|done].
  - intros i a. rewrite lookup_insert_Some. intros [[<- <-]|[_ Hi]].
    + split; simpl; [apply layer_ok_new|lia|]. right. by exists tok.
    + apply Hold in Hi as (a0&Ha0&->). apply (close_ended_old mp); [by apply (Happs i)|done|lia|].
      intros id k' rx' tok'. apply Hkeep.
  - assert (Hne : forall i a, sv_apps s !! i = Some a -> ap_task a <> (mp_next mp' - 1)%N).
    { intros i a Ha. pose proof (ao_task _ _ (Happs i a Ha)). lia. }
    intros i j a b. rewrite !lookup_insert_Some.
    intros [[<- <-]|[_ Hi]] [[<- <-]|[_ Hj]]; [done|..].
    + apply Hold in Hj as (b0&Hb0&->). destruct (close_ended_parts mp' b0) as (_&->&_).
      simpl. intros Heq. by destruct (Hne j b0 Hb0).
    + apply Hold in Hi as (a0&Ha0&->). destruct (close_ended_parts mp' a0) as (_&->&_).
      simpl. intros Heq. by destruct (Hne i a0 Ha0).
    + apply Hold in Hi as (a0&Ha0&->), Hj as (b0&Hb0&->).
      destruct (close_ended_parts mp' a0) as (_&->&_), (close_ended_parts mp' b0) as (_&->&_). by apply Ht.
  - intros i. rewrite lookup_insert_is_Some'. intros [<-|[a Hi]]; [lia|].
    apply Hold in Hi as (a0&Ha0&_). assert (i < sv_next s)%N by (apply Hnx; by eexists). lia.
  - intros key ag' i. rewrite lookup_insert_Some. intros [[<- [= <- <-]]|[Hne Hi]].
    + split; [done|]. eexists. by rewrite lookup_insert_eq.
    + destruct (Hr key ag' i Hi) as (Hk&a&Ha&Hn). split; [done|]. exists (close_ended mp' a).
      rewrite lookup_insert_ne by congruence. rewrite lookup_fmap, Ha. split; [done|].
      destruct (close_ended_parts mp' a) as (->&_). done.
Qed.

Lemma safe_create_agent ag : safe (fun _ => True) (create_agent ag).
Proof.
  intros s Hs _. destruct (hm_get agent_key ag (sv_session_layers s)) as [i|] eqn:Hg.
  - unfold create_agent. rewrite (svc_bind_Done _ _ _ _ _ (eq_refl : service s = Done (s, s))).
    rewrite decide_True by (rewrite Hg; by eexists). by eexists _, _.
  - destruct (create_agent_spec s ag Hs Hg) as (s'&conn&rx&task&tok&S&Hr&Hs'&_). by eexists _, _.
Qed.

(** *** The other operations *)
Lemma svc_ok_forget s key :
  svc_ok s -> svc_ok (with_session_layers s (delete key (sv_session_layers s))).
Proof.
  intros [Hmp Hf Happs Ht Hnx Hr]. split; simpl; try done.
  intros k ag i [_ Hi]%lookup_delete_Some. by apply Hr.
Qed.

Lemma safe_delete_agent ag : safe (fun _ => True) (delete_agent ag).
Proof.
  apply safe_service. intros s Hs _.
  destruct (hm_get agent_key ag (sv_session_layers s)) as [i|] eqn:Hg; [|apply safe_ret].
  assert (Ha : exists a, sv_apps s !! i = Some a).
  { unfold hm_get in Hg. destruct (sv_session_layers s !! agent_key ag) as [[ag' j]|] eqn:Hl; [|done].
    injection Hg as ->. destruct (so_registered s Hs _ _ _ Hl) as (_&a&Ha&_). by exists a. }
  destruct Ha as [a Ha]. apply safe_bind.
  - apply safe_update. intros s0 Hs0 _. by apply svc_ok_forget.
  - intros _. rewrite Ha. apply safe_bind; [intros s0 Hs0 _; by eexists _, _|]. intros app.
    apply safe_bind; [apply safe_disconnect|]. intros r. apply safe_ret.
Qed.

Lemma safe_run_server c bound : safe (fun _ => True) (run_server c bound).
Proof.
  unfold run_server. destruct (to_server_future c bound); [|apply safe_ret].
  apply safe_service. intros s Hs _. apply safe_bind; [|intros _; apply safe_ret].
  apply safe_update. intros s0 Hs0 <-. apply (svc_ok_ext s); [done|done|done| |done]. simpl. lia.
Qed.

Lemma safe_stop_server e : safe (fun _ => True) (stop_server e).
Proof.
  apply safe_service. intros s Hs _. destruct (sv_cancellation_tokens s !! e) as [tok|]; [|apply safe_ret].
  apply safe_bind; [|intros _; apply safe_ret]. apply safe_update. intros s0 Hs0 <-.
  apply (svc_ok_ext s); [done|done|done| |done]. simpl. lia.
Qed.

Lemma safe_service_connect cfg att : safe (fun _ => True) (Service_connect cfg att).
Proof.
  apply safe_service. intros s Hs _. case_decide; [apply safe_ret|].
  destruct (to_channel cfg); [|apply safe_ret].
  apply safe_bind; [intros s0 Hs0 _; by apply safe_connect|].
  intros [[x conn]|e]; [|apply safe_ret]. apply safe_bind; [|intros _; apply safe_ret].
  apply safe_update. intros s0 Hs0 _. apply (svc_ok_ext s0); [done|done|done| |done]. simpl. lia.
Qed.

Lemma safe_service_disconnect k : safe (fun _ => True) (Service_disconnect k).
Proof. apply safe_bind; [apply safe_disconnect|]. intros r. apply safe_ret. Qed.

Lemma safe_send_message fuel ag msg info : safe (fun _ => True) (send_message fuel ag msg info).
Proof.
  apply safe_with_layer. intros i. destruct info as [info|]; (apply safe_bind; [|intros r; apply safe_ret]).
  - apply safe_on_layer; [apply layer_keeps_handle|]. intros io l Hl.
    destruct (layer_handle_total fuel (mkSessionMessage msg info) South io l Hl) as (io'&l'&r&Hr&_).
    by eexists _, _, _.
  - apply safe_on_layer; [apply layer_keeps_send_slim|]. intros io l _. run_sess.
    destruct (ob_open (io_slim io)); by eexists _, _, _.
Qed.

Lemma safe_end_loop i a : safe (fun _ => True) (end_loop i a).
Proof. apply safe_bind; [by apply safe_update_app|]. intros _. apply safe_close_channel. Qed.

(** The turns of an app's task. A publication without an agent id in its source
    is the message that ends the task; an error status needs an application that
    still listens. *)
Definition next_item s a : option Item :=
  ch ← mp_channels (sv_message_processor s) !! ap_rx a; ch_queue ch !! ap_read a.
Definition turn_ok s (i : N) : Prop :=
  forall a, sv_apps s !! i = Some a ->
    match next_item s a with
    | Some (Delivered msg) =>
        forall p, pm_message_type msg = Some (Publish p) -> exists m, SessionMessage_from msg = Done m
    | Some (InternalStatus _) => ob_open (io_app (ap_io a)) = true
    | None => True
    end.

Lemma safe_process_turn fuel i ev : safe (fun s => turn_ok s i) (process_turn fuel i ev).
Proof.
  apply safe_service. intros s Hs Hok. destruct (sv_apps s !! i) as [a|] eqn:Ha; [|apply safe_ret].
  specialize (Hok a Ha). unfold next_item in Hok.
  destruct (ap_loop a); [apply safe_ret| |apply safe_ret].
  destruct ev; [|intros s0 Hs0 _; by apply safe_end_loop].
  match goal with |- safe _ (match ?x with _ => _ end) => destruct x as [[msg|e]|] end.
  - intros s0 Hs0 <-. destruct (safe_update_app (fun _ => True) i read_one) with s as (s1&[]&Hr1&Hs1); [done|done|done|].
    rewrite (svc_bind_Done _ _ _ _ _ Hr1). injection Hr1 as <-.
    destruct (pm_message_type msg) as [[x|x|p]|]; try (by eexists _, _).
    destruct (Hok p eq_refl) as [m Hm]. rewrite Hm.
    rewrite (svc_bind_Done _ _ (with_apps s _) _ m) by done.
    apply (safe_bind (fun s => is_Some (sv_apps s !! i))); [|intros ?; apply safe_ret|done|simpl; by rewrite lookup_alter_is_Some].
    apply safe_on_layer; [apply layer_keeps_handle|]. intros io l Hl.
    destruct (layer_handle_total fuel m North io l Hl) as (io'&l'&r&Hr&_). by eexists _, _, _.
  - intros s0 Hs0 <-. destruct (safe_update_app (fun _ => True) i read_one) with s as (s1&[]&Hr1&Hs1); [done|done|done|].
    rewrite (svc_bind_Done _ _ _ _ _ Hr1). injection Hr1 as <-.
    assert (Hrun : exists s2, on_layer i (send_app (Err (Forward (Status_fmt e))))
      (with_apps s (alter read_one i (sv_apps s))) = Done (s2, Ok tt)).
    { unfold on_layer. simpl. rewrite lookup_alter_eq, Ha. simpl. run_sess. cbn [ap_io read_one].
      rewrite Hok. by eexists. }
    destruct Hrun as [s2 Hrun]. rewrite (svc_bind_Done _ _ _ _ _ Hrun). eexists _, _. split; [done|].
    eapply on_layer_run; [exact Hs1| |exact Hrun]. apply layer_keeps_send_app.
  - destruct (sender_alive _ a); [apply safe_ret|]. intros s0 Hs0 _. by apply safe_end_loop.
Qed.

(** The processor's turn for an app. *)
Lemma safe_processor_turn i r1 r2 :
  safe (fun s => forall a msg task S, sv_apps s !! i = Some a ->
          ob_sent (io_slim (ap_io a)) !! ap_taken a = Some msg ->
          mp_tasks (sv_message_processor s) !! ap_task a = Some task ->
          mp_inv (sv_message_processor s) S -> event_ok (sv_message_processor s) S task (Received msg r1 r2))
    (processor_turn i r1 r2).
Proof.
  apply safe_service. intros s Hs Hev. destruct (sv_apps s !! i) as [a|] eqn:Ha; [|apply safe_ret].
  destruct (ob_sent (io_slim (ap_io a)) !! ap_taken a) as [msg|] eqn:Hm; [|apply safe_ret].
  intros s0 Hs0 <-. destruct (safe_update_app (fun _ => True) i take_one) with s as (s1&[]&Hr1&Hs1); [done|done|done|].
  rewrite (svc_bind_Done _ _ _ _ _ Hr1). injection Hr1 as <-.
  destruct (mp_tasks (sv_message_processor s) !! ap_task a) as [task|] eqn:Ht.
  - apply safe_event; [done|]. exists task. split; [done|]. intros S HS. by apply (Hev a msg task S).
  - assert (Hnop : stream_event (ap_task a) (Received msg r1 r2) (sv_message_processor s) =
      Done (sv_message_processor s, tt)).
    { unfold stream_event. rewrite (bind_Done _ _ _ _ _ (eq_refl : gets mp_tasks _ = Done (_, _))).
      by rewrite Ht. }
    destruct (so_mp s Hs) as [S Hdp].
    apply (safe_on_processor (fun s' => sv_message_processor s' = sv_message_processor s)); [|done|done].
    intros s' S' _ Heq HS'. rewrite Heq in *. exists (sv_message_processor s), tt, S. by split.
Qed.

(** What only has to keep the invariant when it returns: creating a session may
    panic or go on drawing, the first turn of an app needs the strings of the
    agent's name. *)
Lemma keeps_layer_op {A B} agent (c : sess SessionLayer A) (k : A -> Result B ServiceError.ServiceError) :
  layer_keeps c -> keeps (with_session_layer agent (fun i => r ← on_layer i c; mret (k r))).
Proof.
  intros Hc. apply keeps_with_layer. intros i. apply keeps_bind; [by apply keeps_on_layer|].
  intros r. apply keeps_ret.
Qed.

(** Operations on a session. *)
Lemma safe_layer_op {A B} agent (c : sess SessionLayer A) (k : A -> Result B ServiceError.ServiceError) :
  layer_keeps c -> (forall io l, layer_ok l -> exists io' l' r, c io l = Done (io', l', r)) ->
  safe (fun _ => True) (with_session_layer agent (fun i => r ← on_layer i c; mret (k r))).
Proof.
  intros Hc Ht. apply safe_with_layer. intros i. apply safe_bind; [by apply safe_on_layer|]. intros r. apply safe_ret.
Qed.
Lemma with_session_returns {A} id (c : sess Session A) io l :
  (forall io (x : Session), exists io' x' b, c io x = Done (io', x', b)) ->
  exists io' l' r, with_session id c io l = Done (io', l', r).
Proof.
  intros Hc. unfold with_session. destruct (sl_pool l !! id) as [[s sys]|]; [|by eexists _, _, _].
  destruct (Hc (io_with_timers io sys) s) as (io'&s'&a&->). by eexists _, _, _.
Qed.
Lemma safe_set_session_config agent conf id : safe (fun _ => True) (Service_set_session_config agent conf id).
Proof.
  apply safe_layer_op.
  - apply layer_keeps_step. intros io l io' l' x. apply step_config.
  - intros io l _. unfold layer_set_session_config.
    rewrite (sess_bind_Done _ _ _ _ _ _ _ (eq_refl : get_state io l = Done (io, l, l))). destruct id as [id|].
    + match goal with |- context [with_session id ?c] =>
        destruct (with_session_returns id c io l) as (io'&l'&r&Hr)
      end.
      { intros io' s. destruct (set_session_config s conf). by eexists _, _, _. }
      rewrite (sess_bind_Done _ _ _ _ _ _ _ Hr). destruct r; by eexists _, _, _.
    + destruct conf as [c|c|c].
      * destruct (FireAndForgetConfiguration_replace _ _); by eexists _, _, _.
      * destruct (RequestResponseConfiguration_replace _ _); by eexists _, _, _.
      * destruct (StreamingConfiguration_replace _ _); by eexists _, _, _.
Qed.
Lemma safe_add_interceptor agent id i :
  interceptor_ok i -> safe (fun _ => True) (Service_add_session_interceptor agent id i).
Proof.
  intros Hi. apply safe_layer_op.
  - apply layer_keeps_step. intros io l io' l' x. by apply step_interceptor.
  - intros io l _. unfold add_session_interceptor.
    match goal with |- context [with_session id ?c] => destruct (with_session_returns id c io l) as (io'&l'&r&Hr) end.
    { intros io' s. by eexists _, _, _. }
    rewrite (sess_bind_Done _ _ _ _ _ _ _ Hr). destruct r; by eexists _, _, _.
Qed.
Lemma safe_delete_session agent id : safe (fun _ => True) (delete_session agent id).
Proof.
  apply safe_with_layer. intros i. apply safe_bind; [|intros []; apply safe_ret].
  apply safe_on_layer; [apply layer_keeps_step; intros io l io' l' r; apply step_remove|].
  intros io l _. unfold remove_session. run_sess. destruct (sl_pool l !! id) as [[]|]; by eexists _, _, _.
Qed.
(** One of the draws allowed is free, and the id of a bidirectional stream too. *)
Definition creatable s (agent : Agent) (fuel : nat) (conf : SessionConfig) : Prop :=
  forall i a, hm_get agent_key agent (sv_session_layers s) = Some i -> sv_apps s !! i = Some a ->
    (exists k, k < fuel /\ sl_pool (ap_layer a) !! (draw (io_draws (ap_io a) + k) `mod` SESSION_RANGE_end)%N = None) /\
    forall id, topic_id conf = Some id -> sl_pool (ap_layer a) !! id = None.
Lemma safe_create_session fuel agent conf :
  safe (fun s => creatable s agent fuel conf) (Service_create_session fuel agent conf).
Proof.
  intros s Hs Hok. unfold Service_create_session, with_session_layer.
  rewrite (svc_bind_Done _ _ _ _ _ (eq_refl : service s = Done (s, s))).
  destruct (hm_get agent_key agent (sv_session_layers s)) as [i|] eqn:Hg; [|by eexists _, _].
  assert (Happ : exists a, sv_apps s !! i = Some a).
  { unfold hm_get in Hg. destruct (sv_session_layers s !! agent_key agent) as [[ag j]|] eqn:Hl; [|done].
    injection Hg as ->. destruct (so_registered s Hs _ _ _ Hl) as (_&a&Ha&_). by exists a. }
  destruct Happ as [a Ha]. destruct (Hok i a Hg Ha) as [Hfree Htopic].
  assert (Hl : layer_ok (ap_layer a)) by (by eapply ao_layer, so_apps).
  destruct (create_session_any fuel conf (ap_io a) (ap_layer a) Hl Hfree) as (io'&drawn&ses&sys&_&Hn&_&_&_&_&Hc).
  assert (Hfinal : sl_pool (ap_layer a) !! final_id conf drawn = None).
  { unfold final_id, topic_id in *. destruct conf as [c|c|c]; [done|done|].
    destruct (decide (sc_direction c = Bidirectional)); [by apply Htopic|done]. }
  rewrite Hfinal, decide_False in Hc by (by intros []).
  assert (Hrun : exists s' r, on_layer i (create_session fuel conf None) s = Done (s', r)).
  { unfold on_layer. rewrite Ha, Hc. by eexists _, _. }
  destruct Hrun as (s'&r&Hrun). rewrite (svc_bind_Done _ _ _ _ _ Hrun). eexists _, _. split; [done|].
  eapply on_layer_run; [exact Hs| |exact Hrun]. apply layer_keeps_step. intros io l io1 l1 x. apply step_create.
Qed.

Lemma keeps_delete_session agent id : keeps (delete_session agent id).
Proof.
  apply keeps_with_layer. intros i. apply keeps_bind; [|intros []; apply keeps_ret].
  apply keeps_on_layer, layer_keeps_step. intros io l io' l' r. apply step_remove.
Qed.

Lemma keeps_loop_start i : keeps (loop_start i).
Proof.
  apply keeps_bind; [apply keeps_service|]. intros s. destruct (sv_apps s !! i) as [a|]; [|apply keeps_ret].
  destruct (ap_loop a); [|apply keeps_ret..].
  apply keeps_bind; [by apply safe_keeps, safe_update_app|]. intros _.
  apply keeps_bind; [apply keeps_may_panic|]. intros msg.
  apply keeps_bind; [apply keeps_on_layer, layer_keeps_send_slim|].
  intros []; [apply keeps_ret|apply keeps_may_panic].
Qed.

(** ** Runs of a service

    Every operation of the facade, the turns of the apps' tasks and of the tasks
    of their sessions, and whatever the processor's other connections do. *)
Inductive svc_step : Service -> Service -> Prop :=
| SvcCreate ag s s' r : create_agent ag s = Done (s', r) -> svc_step s s'
| SvcDelete ag s s' r : delete_agent ag s = Done (s', r) -> svc_step s s'
| SvcRunServer c b s s' r : run_server c b s = Done (s', r) -> svc_step s s'
| SvcStopServer e s s' r : stop_server e s = Done (s', r) -> svc_step s s'
| SvcConnect c att s s' r : Service_connect c att s = Done (s', r) -> svc_step s s'
| SvcDisconnect k s s' r : Service_disconnect k s = Done (s', r) -> svc_step s s'
| SvcSend fuel ag msg info s s' r : send_message fuel ag msg info s = Done (s', r) -> svc_step s s'
| SvcCreateSession fuel ag conf s s' r : Service_create_session fuel ag conf s = Done (s', r) -> svc_step s s'
| SvcSetConfig ag conf id s s' r : Service_set_session_config ag conf id s = Done (s', r) -> svc_step s s'
| SvcInterceptor ag id i s s' r :
    interceptor_ok i -> Service_add_session_interceptor ag id i s = Done (s', r) -> svc_step s s'
| SvcDeleteSession ag id s s' r : delete_session ag id s = Done (s', r) -> svc_step s s'
| SvcTask i id task s s' r : on_layer i (with_session id (run_task task)) s = Done (s', r) -> svc_step s s'
| SvcLoopStart i s s' r : loop_start i s = Done (s', r) -> svc_step s s'
| SvcTurn fuel i ev s s' r : turn_ok s i -> process_turn fuel i ev s = Done (s', r) -> svc_step s s'
| SvcProcessorTurn i r1 r2 s s' r :
    (forall a msg task S, sv_apps s !! i = Some a ->
       ob_sent (io_slim (ap_io a)) !! ap_taken a = Some msg ->
       mp_tasks (sv_message_processor s) !! ap_task a = Some task ->
       mp_inv (sv_message_processor s) S -> event_ok (sv_message_processor s) S task (Received msg r1 r2)) ->
    processor_turn i r1 r2 s = Done (s', r) -> svc_step s s'
| SvcEvent id task ev s s' r :
    mp_tasks (sv_message_processor s) !! id = Some task ->
    (forall S, mp_inv (sv_message_processor s) S -> event_ok (sv_message_processor s) S task ev) ->
    on_processor (stream_event id ev) s = Done (s', r) -> svc_step s s'
| SvcAccept ra la s s' r : on_processor (open_channel ra la) s = Done (s', r) -> svc_step s s'
| SvcReceiverGone tx s s' r : on_processor (close_channel tx) s = Done (s', r) -> svc_step s s'
| SvcAppGone i s :
    svc_step s (with_apps s (alter (fun a => set_layer (mkSessionIo (io_slim (ap_io a))
      (mkOutbox false (ob_sent (io_app (ap_io a)))) (io_timers (ap_io a)) (io_draws (ap_io a)))
      (ap_layer a) a) i (sv_apps s))).

Lemma svc_step_ok s s' : svc_step s s' -> svc_ok s -> svc_ok s'.
Proof.
  assert (Hsafe : forall A P (c : svc A) s s' r, safe P c -> P s -> svc_ok s -> c s = Done (s', r) -> svc_ok s').
  { intros A P c s0 s1 r Hc HP Hs Hr. destruct (Hc s0 Hs HP) as (s2&r2&Hr2&Hs2). congruence. }
  destruct 1 as [ag s s' r Hr|ag s s' r Hr|c b s s' r Hr|e s s' r Hr|c att s s' r Hr|k s s' r Hr|
    fuel ag msg info s s' r Hr|fuel ag conf s s' r Hr|ag conf id s s' r Hr|ag id i s s' r Hi Hr|ag id s s' r Hr|
    i id task s s' r Hr|i s s' r Hr|fuel i ev s s' r Hok Hr|i r1 r2 s s' r Hok Hr|id task ev s s' r Ht Hev Hr|
    ra la s s' r Hr|tx s s' r Hr|i s]; intros Hs.
  - exact (Hsafe _ _ _ _ _ _ (safe_create_agent _) I Hs Hr).
  - exact (Hsafe _ _ _ _ _ _ (safe_delete_agent _) I Hs Hr).
  - exact (Hsafe _ _ _ _ _ _ (safe_run_server _ _) I Hs Hr).
  - exact (Hsafe _ _ _ _ _ _ (safe_stop_server _) I Hs Hr).
  - exact (Hsafe _ _ _ _ _ _ (safe_service_connect _ _) I Hs Hr).
  - exact (Hsafe _ _ _ _ _ _ (safe_service_disconnect _) I Hs Hr).
  - exact (Hsafe _ _ _ _ _ _ (safe_send_message _ _ _ _) I Hs Hr).
  - eapply keeps_layer_op; [|exact Hs|exact Hr]. apply layer_keeps_step. intros io l io' l' x. apply step_create.
  - eapply keeps_layer_op; [|exact Hs|exact Hr]. apply layer_keeps_step. intros io l io' l' x. apply step_config.
  - eapply keeps_layer_op; [|exact Hs|exact Hr]. apply layer_keeps_step. intros io l io' l' x. by apply step_interceptor.
  - by eapply keeps_delete_session.
  - eapply keeps_on_layer; [|exact Hs|exact Hr]. apply layer_keeps_step. intros io l io' l' x. apply step_task.
  - by eapply keeps_loop_start.
  - exact (Hsafe _ _ _ _ _ _ (safe_process_turn _ _ _) Hok Hs Hr).
  - exact (Hsafe _ _ _ _ _ _ (safe_processor_turn _ _ _) Hok Hs Hr).
  - apply (Hsafe _ _ _ _ _ _ (safe_event id ev)) in Hr; [done| |done]. by exists task.
  - exact (Hsafe _ _ _ _ _ _ (safe_open_channel _ _) I Hs Hr).
  - exact (Hsafe _ _ _ _ _ _ (safe_close_channel _) I Hs Hr).
  - by apply svc_ok_app.
Qed.

Lemma svc_reachable_ok id s : rtc svc_step (Service_new id) s -> svc_ok s.
Proof.
  intros Hr. remember (Service_new id) as s0 eqn:Hs0. assert (Hok : svc_ok s0) by (subst; apply svc_ok_new).
  clear Hs0. induction Hr as [|s0 s1 s2 Hstep _ IH]; [done|]. apply IH. by eapply svc_step_ok.
Qed.

(** ** Subscriptions of an app *)

(** A subscription built by the service, for strings [o], [n], [t]. *)
Lemma service_subscription ag ty o n t id conn :
  ag_agent_id ag <> DEFAULT_AGENT_ID -> at_strings ty = Some (o, n, t) ->
  exists msg sub h dst, new_subscribe ag ty id conn = Done msg /\ traceable msg /\
    (exists src, get_source msg = Done src) /\ pm_message_type msg = Some (Subscribe sub) /\ try_get_slim_header msg = Some h /\
    sh_destination h = Some dst /\ sub_name (Subscribe sub) dst = (AgentType_from_strings o n t, id) /\
    sh_recv_from h = fl_recv_from (default SlimHeaderFlags_default conn) /\
    sh_forward_to h = fl_forward_to (default SlimHeaderFlags_default conn).
Proof.
  intros Hid Hs. unfold new_subscribe, ProtoSubscribe_new, organization_string, namespace_string, agent_type_string.
  rewrite Hs. cbn. eexists _, _, _, _. split; [reflexivity|].
  assert (Hsrc : exists src, get_source (ProtoMessage_new ∅ (Subscribe
    (mkProtoSubscribe (Some (SlimHeader_new ag ty id conn)) o n t))) = Done src).
  { unfold get_source; cbn. unfold SlimHeader_get_source; cbn. unfold Agent_from_proto; cbn.
    unfold agent_id_option. rewrite decide_False by done. cbn. by eexists. }
  split; [split; [|intros _; exact Hsrc]|].
  - eexists _, _, _. split; [reflexivity|]. split; [done|]. split; [done|]. done.
  - split; [exact Hsrc|]. do 3 (split; [reflexivity|]). split; [|by split].
    unfold sub_name; cbn. by destruct id.
Qed.

(** The processor's turn on such a message, when it asks for nothing but the
    subscription of the app's own connection. *)
Lemma subscription_processed s i a tok S msg sub h dst r1 r2 :
  svc_ok s -> sv_apps s !! i = Some a -> dp_inv (sv_message_processor s) S ->
  linked (sv_message_processor s) (ap_task a) (sl_conn_id (ap_layer a)) (ap_rx a) tok ->
  ob_sent (io_slim (ap_io a)) !! ap_taken a = Some msg ->
  traceable msg -> (exists src, get_source msg = Done src) ->
  pm_message_type msg = Some (Subscribe sub) -> try_get_slim_header msg = Some h ->
  sh_destination h = Some dst -> sh_recv_from h = None -> sh_forward_to h = None ->
  exists s', processor_turn i r1 r2 s = Done (s', tt) /\ svc_ok s' /\
    mp_inv (sv_message_processor s')
      (S ∪ {[(op_key (sub_name (Subscribe sub) dst).1 (sub_name (Subscribe sub) dst).2, true,
              sl_conn_id (ap_layer a))]}) /\
    mp_tasks (sv_message_processor s') = mp_tasks (sv_message_processor s) /\
    connection_table (mp_forwarder (sv_message_processor s')) =
      connection_table (mp_forwarder (sv_message_processor s)) /\
    mp_channels (sv_message_processor s') = mp_channels (sv_message_processor s) /\
    sv_apps s' = alter take_one i (close_ended (sv_message_processor s) <$> sv_apps s).
Proof.
  intros Hs Ha Hdp [Htask Hconn] Hm Htr Hsrc Ht Hh Hd Hrecv Hfwd.
  set (mp := sv_message_processor s) in *. set (conn := sl_conn_id (ap_layer a)) in *.
  destruct (entered_done conn msg (Subscribe sub) h Htr Ht Hh) as (m&t'&Hent&Htr'&Ht'&Hrw&Hh').
  assert (Hsc : sub_conn conn h = conn) by (unfold sub_conn; by rewrite Hrecv).
  assert (Hsf : sub_forward h = None) by (unfold sub_forward; by rewrite Hrecv, Hfwd).
  destruct (process_subscription_registers mp S m (Subscribe sub) t' conn h dst _ (proj1 Hdp) Htr' Ht' Hrw Hh' Hd
    ltac:(rewrite Hsc; exact Hconn)) as (f'&_&Hct&_&Hinv'&Hproc). rewrite Hsf in Hproc. rewrite Hsc in Hinv'.
  assert (Hev : stream_event (ap_task a) (Received msg r1 r2) mp = Done (with_forwarder mp f', tt)).
  { unfold stream_event. rewrite (bind_Done _ _ _ _ _ (eq_refl : gets mp_tasks mp = Done (mp, _))). rewrite Htask.
    cbn [tk_conn_index tk_is_local].
    assert (Hnew : handle_new_message conn true msg r1 r2 mp = Done (with_forwarder mp f', Ok tt)).
    { rewrite (handle_new_message_valid conn true msg m r1 r2 mp Htr Hent).
      assert (Hpm : process_message m conn r1 r2 mp = Done (with_forwarder mp f', Ok tt)).
      { unfold process_message, get_type. rewrite Ht'. destruct t'; [exact Hproc| |]; by destruct Hrw. }
      by rewrite (bind_Done _ _ _ _ _ Hpm). }
    by rewrite (bind_Done _ _ _ _ _ Hnew). }
  assert (Htk : mp_tasks (with_forwarder mp f') = mp_tasks mp) by done.
  assert (Hrun : exists s', processor_turn i r1 r2 s = Done (s', tt) /\
    sv_message_processor s' = with_forwarder mp f' /\
    sv_apps s' = close_ended mp <$> alter take_one i (sv_apps s)).
  { unfold processor_turn. rewrite (svc_bind_Done _ _ _ _ _ (eq_refl : service s = Done (s, s))).
    rewrite Ha, Hm. rewrite (svc_bind_Done _ _ _ _ _ (eq_refl : update_app i take_one s = Done (_, tt))).
    unfold on_processor; cbn [sv_message_processor with_apps]. fold mp. rewrite Hev. eexists. by split. }
  destruct Hrun as (s'&Hrun&Hmp'&Hap'). exists s'. split; [done|]. split.
  { destruct (safe_processor_turn i r1 r2 s Hs) as (s2&r2'&Hr2&Hs2); [|congruence].
    intros a0 msg0 task0 S0 Ha0 Hm0 _ _. rewrite Ha in Ha0. injection Ha0 as <-. rewrite Hm in Hm0.
    injection Hm0 as <-. intros _. split; [done|]. intros u hh dd c Hu. congruence. }
  rewrite Hmp'. split; [exact Hinv'|]. split; [done|]. split; [exact Hct|]. split; [done|].
  rewrite Hap'. apply map_eq. intros j. rewrite lookup_fmap.
  destruct (decide (i = j)) as [<-|Hne].
  - rewrite !lookup_alter_eq, lookup_fmap. destruct (sv_apps s !! i) as [b|]; [|done]. cbn. f_equal.
    unfold close_ended. cbn. by destruct (mp_tasks mp !! ap_task b).
  - by rewrite !lookup_alter_ne, lookup_fmap by done.
Qed.

(** [create_agent] and the first turns of the app and of the processor. *)
Lemma agent_subscribed s ag o n t r1 r2 :
  svc_ok s -> hm_get agent_key ag (sv_session_layers s) = None ->
  ag_agent_id ag <> DEFAULT_AGENT_ID -> at_strings (ag_agent_type ag) = Some (o, n, t) ->
  exists S s' conn rx task tok, dp_inv (sv_message_processor s) S /\
    (_ ← create_agent ag; _ ← loop_start (sv_next s); processor_turn (sv_next s) r1 r2) s = Done (s', tt) /\
    svc_ok s' /\
    mp_inv (sv_message_processor s')
      (S ∪ {[(op_key (AgentType_from_strings o n t) (Some (ag_agent_id ag)), true, conn)]}) /\
    linked (sv_message_processor s') task conn rx tok /\
    get_connection (mp_forwarder (sv_message_processor s)) conn = None /\
    mp_channels (sv_message_processor s') !! rx = Some (mkChan true []) /\
    hm_get agent_key ag (sv_session_layers s') = Some (sv_next s) /\
    exists a, sv_apps s' !! sv_next s = Some a /\ ap_rx a = rx /\ ap_task a = task /\ ap_loop a = Looping /\
      ap_read a = 0 /\ ap_taken a = length (ob_sent (io_slim (ap_io a))) /\
      ap_layer a = SessionLayer_new ag (Some (Agent_fmt ag)) conn.
Proof.
  intros Hs Hnone Hid Hstr.
  destruct (create_agent_spec s ag Hs Hnone) as (s1&conn&rx&task&tok&S&Hr1&Hs1&Ha1&Hlink&Hlay&Hdp&Hdp1&Hfree&Hch).
  destruct (service_subscription ag (ag_agent_type ag) o n t (Some (ag_agent_id ag)) None Hid Hstr)
    as (msg&sub&h&dst&Hnew&Htr&Hsrc&Ht&Hh&Hd&Hname&Hrecv&Hfwd).
  set (i := sv_next s) in *.
  set (a2 := mkApp (SessionLayer_new ag (Some (Agent_fmt ag)) conn)
    (mkSessionIo (mkOutbox true [msg]) (mkOutbox true []) TimerSystem_empty 0) rx task Looping 0 0).
  assert (Hls : exists s2, loop_start i s1 = Done (s2, tt) /\ sv_apps s2 !! i = Some a2 /\
    sv_message_processor s2 = sv_message_processor s1 /\ sv_session_layers s2 = sv_session_layers s1).
  { unfold loop_start. rewrite (svc_bind_Done _ _ _ _ _ (eq_refl : service s1 = Done (s1, s1))).
    rewrite Ha1. cbn [ap_loop new_app ap_layer sl_agent_name SessionLayer_new].
    rewrite (svc_bind_Done _ _ _ _ _ (eq_refl : update_app i _ s1 = Done (_, tt))).
    unfold agent_subscription. rewrite Hnew.
    rewrite (svc_bind_Done _ _ _ _ msg (eq_refl : may_panic (Done msg) _ = _)).
    unfold on_layer, mbind, svc_bind. cbn [sv_apps with_apps]. rewrite lookup_alter_eq, Ha1. cbn.
    eexists. split; [reflexivity|]. cbn. by rewrite lookup_insert_eq. }
  destruct Hls as (s2&Hr2&Ha2&Hmp2&Hl2). pose proof (keeps_loop_start i s1 s2 tt Hs1 Hr2) as Hs2.
  destruct (subscription_processed s2 i a2 tok S msg sub h dst r1 r2 Hs2 Ha2) as
    (s3&Hr3&Hs3&Hinv3&Htk3&Hct3&Hch3&Hap3); rewrite ?Hmp2; try done.
  exists S, s3, conn, rx, task, tok. split; [done|]. split.
  { rewrite (svc_bind_Done _ _ _ _ _ Hr1). by rewrite (svc_bind_Done _ _ _ _ _ Hr2). }
  split; [done|]. rewrite Hname in Hinv3. split; [exact Hinv3|]. rewrite Hmp2 in *.
  destruct Hlink as [Hlt Hlc]. split; [split; [by rewrite Htk3|unfold get_connection; by rewrite Hct3]|].
  split; [done|]. split; [by rewrite Hch3|].
  assert (Hl3 : sv_session_layers s3 = sv_session_layers s2).
  { revert Hr3. unfold processor_turn. rewrite (svc_bind_Done _ _ _ _ _ (eq_refl : service s2 = Done (s2, s2))).
    rewrite Ha2. cbn [io_slim ap_io a2 ob_sent ap_taken lookup list_lookup].
    rewrite (svc_bind_Done _ _ _ _ _ (eq_refl : update_app i _ s2 = Done (_, tt))).
    unfold on_processor. destruct (stream_event _ _ _) as [[mp' x]|]; [|done]. by intros [= <- _]. }
  split; [rewrite Hl3, Hl2, Hlay; unfold hm_get; by rewrite lookup_insert_eq|].
  rewrite Hap3. eexists. split; [by rewrite lookup_alter_eq, lookup_fmap, Ha2|].
  unfold close_ended. cbn. by rewrite Hlt.
Qed.

(** ** Endpoints *)
Definition extends {A} (c : svc A) : Prop :=
  forall s s' r, c s = Done (s', r) -> sv_clients s ⊆ sv_clients s'.

Lemma extends_same {A} (c : svc A) : (forall s s' r, c s = Done (s', r) -> sv_clients s' = sv_clients s) -> extends c.
Proof. intros Hc s s' r Hr. by rewrite (Hc s s' r Hr). Qed.
Lemma extends_ret {A} (x : A) : extends (mret x).
Proof. intros s s' r [= <- _]. done. Qed.
Lemma extends_bind {A B} (c : svc A) (f : A -> svc B) : extends c -> (forall x, extends (f x)) -> extends (c ≫= f).
Proof.
  intros Hc Hf s s' r. unfold mbind, svc_bind. destruct (c s) as [[s1 x]|] eqn:Hr; [|done].
  intros Hr'. transitivity (sv_clients s1); [by eapply Hc|by eapply Hf].
Qed.
Lemma extends_service : extends service.
Proof. intros s s' r [= <- _]. done. Qed.
Lemma extends_may_panic {A} (c : panics A) : extends (may_panic c).
Proof. intros s s' r. unfold may_panic. destruct c; [|done]. by intros [= <- _]. Qed.
Lemma extends_update f : (forall s, sv_clients s ⊆ sv_clients (f s)) -> extends (update f).
Proof. intros Hf s s' r [= <- _]. apply Hf. Qed.
Lemma extends_on_processor {A} (c : proc A) : extends (on_processor c).
Proof.
  apply extends_same. intros s s' r. unfold on_processor. destruct (c _) as [[mp x]|]; [|done]. by intros [= <- _].
Qed.
Lemma extends_on_layer {A} i (c : sess SessionLayer A) : extends (on_layer i c).
Proof.
  apply extends_same. intros s s' r. unfold on_layer. destruct (sv_apps s !! i); [|done].
  destruct (c _ _) as [[[io l] x]|]; [|done]. by intros [= <- _].
Qed.
End invariant.

(** Walks through an operation of the service. *)
Ltac walk_extends :=
  repeat first
    [ apply extends_ret | apply extends_service | apply extends_may_panic
    | apply extends_on_processor | apply extends_on_layer
    | apply extends_update; intros ?; reflexivity
    | apply extends_bind; [|intros ?]
    | progress cbn beta iota zeta
    | match goal with |- extends (match ?x with _ => _ end) => destruct x end
    | match goal with |- extends (if ?x then _ else _) => destruct x end ].

Section endpoints.
Context `{Hasher, BuildProfile, HashIter, Transport, Telemetry, ErrorText, Rng, DebugAssertions, Logging,
  UnicodeTables, StatusText}.
Context {G : GrpcConfig}.

Lemma extends_connect cfg att : extends (Service_connect cfg att).
Proof.
  intros s s' r. unfold Service_connect.
  rewrite (svc_bind_Done _ _ _ _ _ (eq_refl : service s = Done (s, s))). case_decide as Hd; [by intros [= <- _]|].
  destruct (to_channel cfg); [|by intros [= <- _]].
  unfold mbind at 1, svc_bind at 1. destruct (on_processor _ s) as [[s1 x]|] eqn:Hr; [|done].
  pose proof (extends_on_processor _ _ _ _ Hr) as Hsub.
  assert (Heq : sv_clients s1 = sv_clients s).
  { revert Hr. unfold on_processor. destruct (connect _ _ _ _ _) as [[mp y]|]; [|done]. by intros [= <- _]. }
  destruct x as [[y conn]|e]; [|by intros [= <- _]]. intros [= <- _]. cbn. rewrite Heq.
  apply insert_subseteq. apply eq_None_not_Some. exact Hd.
Qed.

Lemma svc_step_extends s s' : svc_step s s' -> sv_clients s ⊆ sv_clients s'.
Proof.
  assert (Hext : forall A (c : svc A) s s' r, extends c -> c s = Done (s', r) -> sv_clients s ⊆ sv_clients s').
  { intros A c s0 s1 r Hc Hr. by eapply Hc. }
  destruct 1; try (eapply Hext; [|eassumption]);
    unfold create_agent, delete_agent, run_server, stop_server, Service_disconnect, send_message,
      Service_create_session, Service_set_session_config, Service_add_session_interceptor, delete_session,
      with_session_layer, loop_start, process_turn, processor_turn, end_loop, update_app;
    try (by walk_extends). apply extends_connect.
Qed.

Lemma reachable_extends s s' : rtc svc_step s s' -> sv_clients s ⊆ sv_clients s'.
Proof.
  induction 1 as [|s1 s2 s3 Hstep _ IH]; [done|]. transitivity (sv_clients s2); [by apply svc_step_extends|done].
Qed.
End endpoints.
Close Scope slim_scope.
