(* ===== verification/ServiceClaims.v ===== *)
(** * The service: what holds of its runs

    The claims on the facade, over the invariant and the steps of
    [ServiceProofs], and a concrete run with two agents. *)
From stdpp Require Import base list gmap strings numbers option sets.
From S2P Require Import Prelude Proto Encoder Messages Pool ConnectionTable Forwarder MessageProcessing.
From S2P Require Import SubscriptionTable SubscriptionTableSpec MessageProcessingProofs DataPlane ProcessorFrame.
From S2P Require Import ReceiverBuffer Timer Session RequestResponse FireAndForget Streaming SessionLayer SessionLayerProofs.
From S2P Require Import ComponentId Service ServiceProofs.
Open Scope slim_scope.

Section claims.
Context `{Hasher, BuildProfile, HashIter, Transport, Telemetry, ErrorText, Rng, DebugAssertions, Logging,
  UnicodeTables, StatusText}.
Context {G : GrpcConfig}.

Definition reached (id : ID) (s : Service) : Prop := rtc svc_step (Service_new id) s.

(** The computation returns, to a state the service can reach. *)
Definition goes_on (id : ID) (s : Service) {A} (c : svc A) : Prop := exists s' r, c s = Done (s', r) /\ reached id s'.

Lemma reached_safe {A} id s P (c : svc A) :
  reached id s -> safe P c -> P s -> (forall s' r, c s = Done (s', r) -> svc_step s s') -> goes_on id s c.
Proof.
  intros Hr Hc HP Hstep. destruct (Hc s (svc_reachable_ok id s Hr) HP) as (s'&r&Hrun&_).
  exists s', r. split; [done|]. eapply rtc_r; [exact Hr|]. by eapply Hstep.
Qed.
Lemma sends_on id s fuel ag msg info : reached id s -> goes_on id s (send_message fuel ag msg info).
Proof. intros Hr. eapply reached_safe; [done|apply safe_send_message|done|]. intros. by eapply SvcSend. Qed.
(** A subscription to a name of strings can be built. *)
Lemma subscribes_on id s fuel ag o n t i flags : reached id s ->
  goes_on id s (msg ← may_panic (new_subscribe ag (AgentType_from_strings o n t) i (Some flags)); send_message fuel ag msg None).
Proof.
  intros Hr. destruct (new_subscribe_roundtrip ag o n t i flags) as (m&_&Hm&_).
  destruct (sends_on id s fuel ag m None Hr) as (s'&r&Hs'&Hr'). exists s', r. split; [|done].
  rewrite Hm. by rewrite (svc_bind_Done _ _ _ s m).
Qed.


(** C12: Creating an agent makes it reachable. For an agent that is not
    registered, whose type has strings and whose id is not the default one,
    [create_agent], the first turn of its task and the processor's turn on the
    message it sends return; then a local connection that did not exist before is
    subscribed for exactly the agent's name, nothing else in the subscriptions has
    changed, the connection's messages arrive on the app's channel, which is open
    and empty, and the task waits on it. Creating the agent again is refused and
    changes nothing. *)
Theorem agent_becomes_reachable s ag o n t r1 r2 :
  svc_ok s -> hm_get agent_key ag (sv_session_layers s) = None ->
  ag_agent_id ag <> DEFAULT_AGENT_ID -> at_strings (ag_agent_type ag) = Some (o, n, t) ->
  exists S s' conn a tok, dp_inv (sv_message_processor s) S /\
    (_ ← create_agent ag; _ ← loop_start (sv_next s); processor_turn (sv_next s) r1 r2) s = Done (s', tt) /\
    svc_ok s' /\
    get_connection (mp_forwarder (sv_message_processor s)) conn = None /\
    mp_inv (sv_message_processor s')
      (S ∪ {[(op_key (AgentType_from_strings o n t) (Some (ag_agent_id ag)), true, conn)]}) /\
    sv_apps s' !! sv_next s = Some a /\ linked (sv_message_processor s') (ap_task a) conn (ap_rx a) tok /\
    mp_channels (sv_message_processor s') !! ap_rx a = Some (mkChan true []) /\
    ap_loop a = Looping /\ ap_layer a = SessionLayer_new ag (Some (Agent_fmt ag)) conn /\
    create_agent ag s' = Done (s', Err ServiceError.AgentAlreadyRegistered).
Proof.
  intros Hs Hnone Hid Hstr.
  destruct (agent_subscribed s ag o n t r1 r2 Hs Hnone Hid Hstr)
    as (S&s'&conn&rx&task&tok&Hdp&Hrun&Hs'&Hinv&Hlink&Hfree&Hch&Hreg&a&Ha&<-&<-&Hloop&_&_&Hlay).
  exists S, s', conn, a, tok. do 10 (split; [done|]).
  unfold create_agent. rewrite (svc_bind_Done _ _ _ _ _ (eq_refl : service s' = Done (s', s'))).
  by rewrite decide_True by (rewrite Hreg; by eexists).
Qed.

(** The state after [delete_agent]: the agent forgotten, the token cancelled. *)
Definition cancelled (mp : MessageProcessor) (tok : N) : MessageProcessor :=
  mkMessageProcessor (mp_forwarder mp) (mp_channels mp) (<[tok := true]> (mp_tokens mp)) (mp_tasks mp) (mp_next mp).
Definition deleted (s : Service) (ag : Agent) (tok : N) : Service :=
  let mp := cancelled (sv_message_processor s) tok in
  with_apps (with_message_processor (with_session_layers s (hm_remove agent_key ag (sv_session_layers s))) mp)
    (close_ended mp <$> sv_apps s).

Lemma delete_agent_run s ag i a tok :
  hm_get agent_key ag (sv_session_layers s) = Some i -> sv_apps s !! i = Some a ->
  linked (sv_message_processor s) (ap_task a) (sl_conn_id (ap_layer a)) (ap_rx a) tok ->
  delete_agent ag s = Done (deleted s ag tok, Ok tt) /\
  delete_agent ag (deleted s ag tok) = Done (deleted s ag tok, Err (ServiceError.AgentNotFound (Agent_fmt ag))).
Proof.
  intros Hreg Ha [_ Hconn]. split.
  - assert (Hdis : disconnect (sl_conn_id (ap_layer a)) (sv_message_processor s) =
      Done (cancelled (sv_message_processor s) tok, Ok tt)).
    { unfold disconnect. rewrite (bind_Done _ _ _ _ _ (eq_refl : gets mp_forwarder _ = Done (_, _))).
      by rewrite Hconn. }
    unfold delete_agent. rewrite (svc_bind_Done _ _ _ _ _ (eq_refl : service s = Done (s, s))). rewrite Hreg.
    rewrite (svc_bind_Done _ _ _ _ _ (eq_refl : update _ s = Done (_, tt))). rewrite Ha.
    rewrite (svc_bind_Done _ _ _ _ a (eq_refl : may_panic (Done a) _ = _)).
    unfold on_processor, mbind at 1, svc_bind at 1. cbn [sv_message_processor with_session_layers].
    by rewrite Hdis.
  - unfold delete_agent. rewrite (svc_bind_Done _ _ _ _ _ (eq_refl : service _ = Done (_, _))).
    replace (hm_get agent_key ag (sv_session_layers (deleted s ag tok))) with (@None N); [done|].
    unfold hm_get. cbn. by rewrite lookup_delete_eq.
Qed.

(** A task with nothing to read and nobody to send to it ends. *)
Lemma loop_turn_ends fuel s i a :
  sv_apps s !! i = Some a -> ap_loop a = Looping -> next_item s a = None ->
  sender_alive (sv_message_processor s) a = false ->
  exists s' a', process_turn fuel i LoopRecv s = Done (s', tt) /\
    sv_apps s' !! i = Some a' /\ ap_loop a' = LoopEnded.
Proof.
  intros Ha Hloop Hitem Hse. eexists _, _. split.
  { unfold process_turn. rewrite (svc_bind_Done _ _ _ _ _ (eq_refl : service s = Done (s, s))). rewrite Ha, Hloop.
    unfold next_item in Hitem. rewrite Hitem, Hse. reflexivity. }
  cbn. rewrite lookup_fmap, lookup_alter_eq, Ha. split; [reflexivity|].
  match goal with |- ap_loop (close_ended ?m ?x) = _ => destruct (close_ended_parts m x) as (_&_&_&->) end. done.
Qed.

(** Deleting an agent cuts it off. [delete_agent] of a registered agent
    whose task runs forgets the agent and cancels the token of exactly that task;
    when the task has seen it, the connection and all its subscriptions are gone,
    the other subscriptions are as before, sending to the processor fails for what
    is left of the agent, and the next turn of its own task with nothing left to
    read ends it. Deleting an agent that is not registered is an error and changes
    nothing. *)
Theorem agent_deleted s ag i a tok S fuel :
  svc_ok s -> dp_inv (sv_message_processor s) S ->
  hm_get agent_key ag (sv_session_layers s) = Some i -> sv_apps s !! i = Some a ->
  linked (sv_message_processor s) (ap_task a) (sl_conn_id (ap_layer a)) (ap_rx a) tok ->
  exists s1 s2, delete_agent ag s = Done (s1, Ok tt) /\
    mp_tokens (sv_message_processor s1) = <[tok := true]> (mp_tokens (sv_message_processor s)) /\
    delete_agent ag s1 = Done (s1, Err (ServiceError.AgentNotFound (Agent_fmt ag))) /\
    on_processor (stream_event (ap_task a) Cancelled) s1 = Done (s2, tt) /\ svc_ok s2 /\
    get_connection (mp_forwarder (sv_message_processor s2)) (sl_conn_id (ap_layer a)) = None /\
    mp_inv (sv_message_processor s2) (filter (fun e => e.2 <> sl_conn_id (ap_layer a)) S) /\
    exists a2, sv_apps s2 !! i = Some a2 /\ ob_open (io_slim (ap_io a2)) = false /\
      (ap_loop a = Looping -> next_item s a = None ->
       exists s3 a3, process_turn fuel i LoopRecv s2 = Done (s3, tt) /\
         sv_apps s3 !! i = Some a3 /\ ap_loop a3 = LoopEnded).
Proof.
  intros Hs Hdp Hreg Ha Hlink. destruct (delete_agent_run s ag i a tok Hreg Ha Hlink) as [Hrun1 Hagain].
  destruct Hlink as [Htask Hconn]. set (conn := sl_conn_id (ap_layer a)) in *.
  set (s1 := deleted s ag tok) in *. set (mp1 := cancelled (sv_message_processor s) tok).
  assert (Hs1 : svc_ok s1) by (by eapply (svc_step_ok s), Hs; eapply SvcDelete).
  assert (Hdp1 : dp_inv mp1 S).
  { destruct (so_mp s1 Hs1) as [S1 Hdp1]. replace S with S1; [done|].
    apply (mp_inv_unique mp1); [exact (proj1 Hdp1)|].
    apply (mp_inv_core (sv_message_processor s)); [|exact (proj1 Hdp)]. split; [done|]. split; [done|]. simpl. lia. }
  set (mp2 := dropped mp1 (ap_task a) (mkTask conn None tok true)).
  assert (Hev : stream_event (ap_task a) Cancelled mp1 = Done (mp2, tt)).
  { unfold stream_event. rewrite (bind_Done _ _ _ _ _ (eq_refl : gets mp_tasks mp1 = Done (mp1, _))).
    cbn [mp_tasks mp1 cancelled]. rewrite Htask. apply finish_stream_drops. by left. }
  set (s2 := with_apps (with_message_processor s1 mp2) (close_ended mp2 <$> sv_apps s1)).
  assert (Hrun2 : on_processor (stream_event (ap_task a) Cancelled) s1 = Done (s2, tt)).
  { unfold on_processor. change (sv_message_processor s1) with mp1. by rewrite Hev. }
  exists s1, s2. do 4 (split; [done|]). split.
  { eapply (svc_step_ok s1); [|done]. by eapply (SvcEvent _ _ Cancelled); [exact Htask| |exact Hrun2]. }
  assert (Hgone : get_connection (mp_forwarder mp2) conn = None).
  { cbn. rewrite get_connection_drop by (by apply (fw_conns _ S), (mi_fw mp1 S), Hdp1). by rewrite decide_True. }
  split; [exact Hgone|]. split; [exact (proj1 (dropped_inv mp1 S _ _ Hdp1 Htask))|].
  set (a2 := set_layer (close_outbox (ap_io a)) (ap_layer a) a).
  assert (Ha2 : sv_apps s2 !! i = Some a2).
  { cbn. rewrite !lookup_fmap, Ha. cbn. unfold close_ended at 2. cbn [mp_tasks cancelled]. rewrite Htask.
    unfold close_ended. cbn. by rewrite lookup_delete_eq. }
  exists a2. split; [done|]. split; [done|]. intros Hloop Hitem.
  apply (loop_turn_ends fuel s2 i a2); [done|done|exact Hitem|].
  unfold sender_alive. change (sv_message_processor s2) with mp2. change (sl_conn_id (ap_layer a2)) with conn.
  by rewrite Hgone.
Qed.

(** The endpoint of a client is taken for good: once a connection to it was
    made, every later [connect] to the same endpoint is refused as already
    connected, without a change of state, also after the connection was
    disconnected or lost. *)
Theorem endpoint_stays_taken cfg att s s1 conn s' att' :
  Service_connect cfg att s = Done (s1, Ok conn) -> rtc svc_step s1 s' ->
  get_connection_id (client_endpoint cfg) s' = Done (s', Some conn) /\
  Service_connect cfg att' s' =
    Done (s', Err (ServiceError.ClientAlreadyConnected (client_endpoint cfg))).
Proof.
  intros Hc Hr.
  assert (Hone : sv_clients s1 !! client_endpoint cfg = Some conn).
  { revert Hc. unfold Service_connect. rewrite (svc_bind_Done _ _ _ _ _ (eq_refl : service s = Done (s, s))).
    case_decide; [done|]. destruct (to_channel cfg); [|done].
    unfold mbind at 1, svc_bind at 1. destruct (on_processor _ s) as [[s2 [[x k]|e]]|]; [|done..].
    intros [= <- <-]. cbn. by rewrite lookup_insert_eq. }
  assert (Htwo : sv_clients s' !! client_endpoint cfg = Some conn).
  { eapply lookup_weaken; [exact Hone|]. by apply reachable_extends. }
  split; [unfold get_connection_id, mbind, svc_bind; cbn; by rewrite Htwo|].
  unfold Service_connect. rewrite (svc_bind_Done _ _ _ _ _ (eq_refl : service s' = Done (s', s'))).
  by rewrite decide_True by (rewrite Htwo; by eexists).
Qed.

(** What the service sends on an app's channel without a session. *)
Lemma send_plain fuel s ag i a msg :
  hm_get agent_key ag (sv_session_layers s) = Some i -> sv_apps s !! i = Some a ->
  ob_open (io_slim (ap_io a)) = true ->
  send_message fuel ag msg None s =
  Done (with_apps s (<[i := set_layer (mkSessionIo (mkOutbox true (ob_sent (io_slim (ap_io a)) ++ [msg]))
    (io_app (ap_io a)) (io_timers (ap_io a)) (io_draws (ap_io a))) (ap_layer a) a]> (sv_apps s)), Ok tt).
Proof.
  intros Hreg Ha Ho. unfold send_message, with_session_layer.
  rewrite (svc_bind_Done _ _ _ _ _ (eq_refl : service s = Done (s, s))). rewrite Hreg.
  unfold mbind at 1, svc_bind at 1. unfold on_layer. rewrite Ha. unfold send_slim, ob_send. by rewrite Ho.
Qed.

(** Unsubscribing subscribes: for an agent whose task runs and whose
    messages have all been taken, [unsubscribe] from a name returns success, and
    the processor's turn on what it sent leaves the agent's connection subscribed
    for that name, whether it was before or not; no subscription is removed. *)
Theorem unsubscribe_subscribes s ag i a tok S fuel ty o n t id r1 r2 :
  svc_ok s -> dp_inv (sv_message_processor s) S ->
  hm_get agent_key ag (sv_session_layers s) = Some i -> sv_apps s !! i = Some a ->
  linked (sv_message_processor s) (ap_task a) (sl_conn_id (ap_layer a)) (ap_rx a) tok ->
  ob_open (io_slim (ap_io a)) = true -> ap_taken a = length (ob_sent (io_slim (ap_io a))) ->
  ag_agent_id ag <> DEFAULT_AGENT_ID -> at_strings ty = Some (o, n, t) ->
  exists s1 s2, unsubscribe fuel ag ty id None s = Done (s1, Ok tt) /\
    processor_turn i r1 r2 s1 = Done (s2, tt) /\
    mp_inv (sv_message_processor s2)
      (S ∪ {[(op_key (AgentType_from_strings o n t) id, true, sl_conn_id (ap_layer a))]}).
Proof.
  intros Hs Hdp Hreg Ha Hlink Ho Htk Hid Hstr.
  destruct (service_subscription ag ty o n t id (Some (forward_flags None)) Hid Hstr)
    as (msg&sub&h&dst&Hnew&Htr&Hsrc&Ht&Hh&Hd&Hname&Hrecv&Hfwd).
  pose proof (send_plain fuel s ag i a msg Hreg Ha Ho) as Hsend.
  assert (Hun : unsubscribe fuel ag ty id None s = send_message fuel ag msg None s).
  { unfold unsubscribe. rewrite Hnew. by rewrite (svc_bind_Done _ _ _ _ msg (eq_refl : may_panic (Done msg) _ = _)). }
  rewrite Hun, Hsend. set (s1 := with_apps s _) in *.
  assert (Hs1 : svc_ok s1) by (eapply (svc_step_ok s); [by eapply SvcSend|done]).
  destruct (subscription_processed s1 i
    (set_layer (mkSessionIo (mkOutbox true (ob_sent (io_slim (ap_io a)) ++ [msg]))
      (io_app (ap_io a)) (io_timers (ap_io a)) (io_draws (ap_io a))) (ap_layer a) a) tok S msg sub h dst r1 r2)
    as (s2&Hr2&_&Hinv&_); [done|by cbn; rewrite lookup_insert_eq|done|done| |done..|].
  { cbn. rewrite Htk. by rewrite list_lookup_middle. }
  rewrite Hname in Hinv. cbn in Hinv. by exists s1, s2.
Qed.

(** A publication whose source carries no agent id, though [validate]
    accepts it, ends the receiving task of every app it is delivered to: the turn
    that reads it panics before the message is validated or handled. *)
Theorem anonymous_publication_ends_loop fuel s i a msg p h src :
  sv_apps s !! i = Some a -> ap_loop a = Looping -> next_item s a = Some (Delivered msg) ->
  pm_message_type msg = Some (Publish p) -> valid_message msg ->
  try_get_slim_header msg = Some h -> sh_source h = Some src -> pa_agent_id src = None ->
  validate msg = Done (Ok tt) /\ process_turn fuel i LoopRecv s = Panic "agent id not found".
Proof.
  intros Ha Hloop Hitem Ht Hv Hh Hs Hid. split.
  { destruct (validate_iff msg) as (r&Hr&Hiff). by rewrite (proj2 Hiff Hv) in Hr. }
  assert (Hp : SessionMessage_from msg = Panic "agent id not found").
  { unfold SessionMessage_from, Info_from. destruct Hv as (h0&src0&dst&_&_&_&Hse). rewrite Ht in Hse.
    destruct Hse as [sh Hsh]. unfold get_session_header. rewrite Ht, Hsh. cbn.
    unfold get_source. rewrite get_slim_header_try, Hh. cbn. unfold SlimHeader_get_source. rewrite Hs.
    unfold Agent_from_proto. by rewrite Hid. }
  unfold process_turn. rewrite (svc_bind_Done _ _ _ _ _ (eq_refl : service s = Done (s, s))). rewrite Ha, Hloop.
  unfold next_item in Hitem. rewrite Hitem.
  rewrite (svc_bind_Done _ _ _ _ _ (eq_refl : update_app i _ s = Done (_, tt))). rewrite Ht, Hp. done.
Qed.
End claims.

(** ** A concrete run *)
Module ServiceDemo.
#[local] Existing Instance toy_hasher.
#[local] Existing Instance checked_build.
#[local] Existing Instance hash_iter_sorted.
#[local] Existing Instance demo_transport.
#[local] Existing Instance demo_errors.
#[local] Existing Instance demo_rng.
#[local] Existing Instance demo_checks.
#[local] Existing Instance ascii_tables.
Definition quiet_telemetry : Telemetry :=
  {| span_enabled := false; instance_id := "demo"; inject_context := fun _ md => md |}.
#[local] Existing Instance quiet_telemetry.
Definition quiet_logging : Logging := {| debug_enabled := false |}.
#[local] Existing Instance quiet_logging.
Definition plain_status : StatusText := {| Status_fmt := fun m => m |}.
#[local] Existing Instance plain_status.
Definition demo_grpc : GrpcConfig :=
  {| client_endpoint := fun _ => "http://localhost:46357"%string; client_validate := fun _ => Ok tt;
     to_channel_error := fun _ => ""%string; ServerConfig := unit; server_endpoint := fun _ => "0.0.0.0:46357"%string;
     server_validate := fun _ => Ok tt;
     to_server_future := fun _ bound => if bound then Ok tt else Err "tcp incoming error"%string |}.
#[local] Existing Instance demo_grpc.

Definition peer : @ClientConfig demo_transport := tt.
Definition id : ID := mkID (mkKind "slim") "0".
Definition alice : Agent := Agent_from_strings "org" "ns" "alice" 1.
Definition bob : Agent := Agent_from_strings "org" "ns" "bob" 2.

Definition after {A} (c : svc A) (s : Service) : Service :=
  match c s with Done (s', _) => s' | Panic _ => s end.
Definition finishes {A} (c : svc A) (s : Service) : bool := match c s with Done _ => true | Panic _ => false end.
Lemma after_returns {A} (c : svc A) s : finishes c s = true -> exists r, c s = Done (after c s, r).
Proof. unfold finishes, after. destruct (c s) as [[s' r]|]; [by exists r|done]. Qed.

(** Alice is created; her task starts; a client connects. *)
Definition s0 : Service := Service_new id.
Definition s1 : Service := after (create_agent alice) s0.
Definition s2 : Service := after (loop_start 0) s1.
Definition s3 : Service := after (Service_connect peer [true]) s2.
Definition s4 : Service := after (processor_turn 0 0 0) s3.

Lemma s1_reached : reached id s1.
Proof.
  destruct (after_returns (create_agent alice) s0) as [r1 Hr1]; [by vm_compute|].
  apply rtc_once. exact (SvcCreate _ _ _ _ Hr1).
Qed.
Lemma s3_reached : reached id s3.
Proof.
  destruct (after_returns (loop_start 0) s1) as [r2 Hr2]; [by vm_compute|].
  destruct (after_returns (Service_connect peer [true]) s2) as [r3 Hr3]; [by vm_compute|].
  eapply rtc_r; [eapply rtc_r; [exact s1_reached|]|].
  - exact (SvcLoopStart _ _ _ _ Hr2).
  - exact (SvcConnect _ _ _ _ _ Hr3).
Qed.

Definition the_app (s : Service) (i : N) : App :=
  default (new_app alice 0 0 0) (sv_apps s !! i).
Lemma alice_app : sv_apps s1 !! 0%N = Some (the_app s1 0).
Proof. vm_compute. reflexivity. Qed.
Lemma alice_linked : linked (sv_message_processor s1) (ap_task (the_app s1 0))
  (sl_conn_id (ap_layer (the_app s1 0))) (ap_rx (the_app s1 0)) 2.
Proof. split; vm_compute; reflexivity. Qed.

(** A remote peer publishes to Alice without an agent id in the source. *)
Definition anonymous_from (conn : option N) : ProtoMessage :=
  ProtoMessage_new ∅ (Publish (mkProtoPublish
    (Some (mkSlimHeader (Some (mkProtoAgent 1 2 3 None)) (Some (ProtoAgent_from_type (ag_agent_type alice) (Some 1%N)))
      1 None None conn None))
    (Some (mkSessionHeader 1 7 9)) (Some (mkContent "msg" [])))).
Definition s5 : Service := after (on_processor (open_channel None None)) s4.
Definition s6 : Service :=
  after (on_processor (stream_event (mp_next (sv_message_processor s5) - 1) (Received (anonymous_from None) 0 0))) s5.
Definition received : ProtoMessage := anonymous_from (Some 2%N).
End ServiceDemo.

Section witnesses.
#[local] Existing Instance toy_hasher.
#[local] Existing Instance checked_build.
#[local] Existing Instance hash_iter_sorted.
#[local] Existing Instance demo_transport.
#[local] Existing Instance demo_errors.
#[local] Existing Instance demo_rng.
#[local] Existing Instance demo_checks.
#[local] Existing Instance ascii_tables.
#[local] Existing Instance ServiceDemo.quiet_telemetry.
#[local] Existing Instance ServiceDemo.quiet_logging.
#[local] Existing Instance ServiceDemo.plain_status.
#[local] Existing Instance ServiceDemo.demo_grpc.


Lemma agent_becomes_reachable_witness :
  exists s' conn S, (_ ← create_agent ServiceDemo.bob; _ ← loop_start 1; processor_turn 1 0 0) ServiceDemo.s3 = Done (s', tt) /\
    mp_inv (sv_message_processor s')
      (S ∪ {[(op_key (AgentType_from_strings "org" "ns" "bob") (Some 2%N), true, conn)]}).
Proof.
  destruct (agent_becomes_reachable ServiceDemo.s3 ServiceDemo.bob "org" "ns" "bob" 0 0)
    as (S&s'&conn&a&tok&_&Hrun&_&_&Hinv&_).
  - exact (svc_reachable_ok _ _ ServiceDemo.s3_reached).
  - by vm_compute.
  - by vm_compute.
  - reflexivity.
  - exists s', conn, S. split; [exact Hrun|exact Hinv].
Defined.

Lemma agent_deleted_witness :
  exists s', delete_agent ServiceDemo.alice ServiceDemo.s1 = Done (s', Ok tt).
Proof.
  pose proof (svc_reachable_ok _ _ ServiceDemo.s1_reached) as Hs.
  destruct (so_mp _ Hs) as [S Hdp].
  destruct (agent_deleted ServiceDemo.s1 ServiceDemo.alice 0 (ServiceDemo.the_app ServiceDemo.s1 0) 2 S 0
    Hs Hdp eq_refl ServiceDemo.alice_app ServiceDemo.alice_linked) as (s1&s2&Hrun&_).
  exists s1. exact Hrun.
Defined.

Lemma endpoint_stays_taken_witness :
  exists s1 s2, Service_connect ServiceDemo.peer [true] ServiceDemo.s0 = Done (s1, Ok 0%N) /\
    Service_disconnect 0 s1 = Done (s2, Ok tt) /\
    Service_connect ServiceDemo.peer [true] s2 =
      Done (s2, Err (ServiceError.ClientAlreadyConnected "http://localhost:46357")).
Proof.
  destruct (Service_connect ServiceDemo.peer [true] ServiceDemo.s0) as [[s1 [conn|e]]|] eqn:Hc;
    [|by vm_compute in Hc..].
  assert (Hconn : conn = 0%N) by (vm_compute in Hc; congruence). subst conn.
  destruct (Service_disconnect 0 s1) as [[s2 r]|] eqn:Hd; [|vm_compute in Hc; injection Hc as <-; by vm_compute in Hd].
  assert (Hr : r = Ok tt) by (vm_compute in Hc; injection Hc as <-; vm_compute in Hd; congruence). subst r.
  exists s1, s2. split; [reflexivity|]. split; [exact Hd|].
  exact (proj2 (endpoint_stays_taken ServiceDemo.peer [true] ServiceDemo.s0 s1 0%N s2 [true] Hc
    (rtc_once _ _ (SvcDisconnect _ _ _ _ Hd)))).
Defined.

Lemma unsubscribe_subscribes_witness :
  exists S s1 s2, unsubscribe 0 ServiceDemo.alice (ag_agent_type ServiceDemo.bob) None None ServiceDemo.s1 = Done (s1, Ok tt) /\
    processor_turn 0 0 0 s1 = Done (s2, tt) /\
    mp_inv (sv_message_processor s2)
      (S ∪ {[(op_key (AgentType_from_strings "org" "ns" "bob") None, true, 0%N)]}).
Proof.
  pose proof (svc_reachable_ok _ _ ServiceDemo.s1_reached) as Hs. destruct (so_mp _ Hs) as [S Hdp]. exists S.
  apply (unsubscribe_subscribes ServiceDemo.s1 ServiceDemo.alice 0 (ServiceDemo.the_app ServiceDemo.s1 0) 2 S 0
    (ag_agent_type ServiceDemo.bob) "org" "ns" "bob" None 0 0 Hs Hdp eq_refl ServiceDemo.alice_app ServiceDemo.alice_linked).
  - vm_compute. reflexivity.
  - vm_compute. reflexivity.
  - vm_compute. discriminate.
  - reflexivity.
Defined.

Lemma anonymous_publication_ends_loop_witness :
  process_turn 0 0 LoopRecv ServiceDemo.s6 = Panic "agent id not found".
Proof.
  refine (proj2 (anonymous_publication_ends_loop 0 ServiceDemo.s6 0 (ServiceDemo.the_app ServiceDemo.s6 0)
    ServiceDemo.received _ _ (mkProtoAgent 1 2 3 None) _ _ _ _ _ _ _ _)).
  - vm_compute. reflexivity.
  - vm_compute. reflexivity.
  - vm_compute. reflexivity.
  - vm_compute. reflexivity.
  - eexists _, _, _. split; [vm_compute; reflexivity|]. split; [reflexivity|]. split; [reflexivity|].
    eexists. reflexivity.
  - vm_compute. reflexivity.
  - reflexivity.
  - reflexivity.
Defined.
End witnesses.
Close Scope slim_scope.
