(* ===== verification/AuthTypes.v ===== *)
(** * Authentication: data and the JWT library

    [auth/src/errors.rs], [auth/src/traits.rs] and the data of [auth/src/jwt.rs]
    the other files share: errors, keys, the registered claims with the JSON
    serde derives for them. JWTs are made and read by the library jsonwebtoken,
    which is not part of the repository: its functions are the class
    [JsonWebToken], what its documentation promises of them the class
    [JsonWebTokenLaws]. [Validation] and [Header] are its public structs, reduced
    to the fields the code sets or reads.

    A [SystemTime] is the number of seconds since the Unix epoch (negative
    before it); a [Duration] and an [Instant] are nanoseconds. *)
From Stdlib Require Import Ascii ZArith.
From stdpp Require Import base list gmap strings numbers option.
From S2P Require Import Prelude Text ReceiverBuffer.
Open Scope string_scope.

(** ** Errors *)
Inductive AuthError : Type :=
| ConfigError (s : string)
| TokenExpired
| TokenInvalid (s : string)
| SigningError (s : string)
| GetTokenError (s : string)
| VerificationError (s : string)
| InvalidHeader (s : string).

Definition AuthError_fmt (e : AuthError) : string :=
  match e with
  | ConfigError s => "config error: " +:+ s
  | TokenExpired => "token expired"
  | TokenInvalid s => "token invalid: " +:+ s
  | SigningError s => "signing error: " +:+ s
  | GetTokenError s => "get token error: " +:+ s
  | VerificationError s => "verification error: " +:+ s
  | InvalidHeader s => "invalid header: " +:+ s
  end.

(** ** Arithmetic on [u64] *)
Definition u64_result `{BuildProfile} (exact : bool) (wrapped : N) (why : string) : panics N :=
  if exact then Done wrapped
  else if overflow_checks then Panic why else Done wrapped.
Definition u64_add `{BuildProfile} (a b : N) : panics N :=
  u64_result (bool_decide (a + b <= u64_max)%N) ((a + b) `mod` u64_modulus)%N
    "attempt to add with overflow".
Definition u64_sub `{BuildProfile} (a b : N) : panics N :=
  u64_result (bool_decide (b <= a)%N) ((u64_modulus + a - b) `mod` u64_modulus)%N
    "attempt to subtract with overflow".
Definition u64_mul `{BuildProfile} (a b : N) : panics N :=
  u64_result (bool_decide (a * b <= u64_max)%N) ((a * b) `mod` u64_modulus)%N
    "attempt to multiply with overflow".

Lemma u64_add_exact `{BuildProfile} a b : (a + b <= u64_max)%N -> u64_add a b = Done (a + b)%N.
Proof.
  intros Hle. unfold u64_add, u64_result. rewrite bool_decide_true by done.
  by rewrite N.mod_small by (unfold u64_max, u64_modulus in *; lia).
Qed.
Lemma u64_mul_exact `{BuildProfile} a b : (a * b <= u64_max)%N -> u64_mul a b = Done (a * b)%N.
Proof.
  intros Hle. unfold u64_mul, u64_result. rewrite bool_decide_true by done.
  by rewrite N.mod_small by (unfold u64_max, u64_modulus in *; lia).
Qed.
Lemma u64_sub_exact `{BuildProfile} a b : (b <= a)%N -> (a <= u64_max)%N -> u64_sub a b = Done (a - b)%N.
Proof.
  intros Hle Ha. unfold u64_sub, u64_result. rewrite bool_decide_true by done.
  replace (u64_modulus + a - b)%N with (a - b + 1 * u64_modulus)%N by lia.
  rewrite N.Div0.mod_add, N.mod_small by (unfold u64_max, u64_modulus in *; lia). done.
Qed.

(** ** Time *)
(** [SystemTime::now().duration_since(UNIX_EPOCH).unwrap_or(0).as_secs()]. *)
Definition unix_secs (now : Z) : N := Z.to_N now.
Definition nanos_per_sec : N := 1000000000.
Definition from_secs (s : N) : N := (s * nanos_per_sec)%N.
Definition as_secs (d : N) : N := (d `div` nanos_per_sec)%N.
Lemma as_secs_from_secs s : as_secs (from_secs s) = s.
Proof. apply N.div_mul. done. Qed.

(** ** Keys *)
Inductive Algorithm : Type :=
| HS256 | HS384 | HS512 | ES256 | ES384 | RS256 | RS384 | RS512 | PS256 | PS384 | PS512 | EdDSA.
#[export] Instance Algorithm_eq_dec : EqDecision Algorithm.
Proof. solve_decision. Defined.

Inductive KeyData : Type :=
| Pem (pem : string)
| File (path : string).

Record Key : Type := mkKey {
  algorithm : Algorithm;
  key : KeyData;
}.

(** ** JSON *)
Inductive JsonValue : Type :=
| JNull
| JBool (b : bool)
| JU64 (n : N)           (** a number that is a [u64] *)
| JNumber (text : string) (** any other number *)
| JString (s : string)
| JArray (l : list JsonValue)
| JObject (l : list (string * JsonValue)).

(** The claims of a token: the fields of an object, in the order of the text. *)
Abbreviation ClaimSet := (list (string * JsonValue)).

(** serde's [DeserializeOwned], for values read from an object. *)
Class Deserialize (C : Type) : Type := { from_json : ClaimSet -> option C }.

Definition field_values (k : string) (o : ClaimSet) : list JsonValue :=
  snd <$> filter (fun kv => kv.1 = k) o.

(** A field of type [Option<T>]: absent and null are [None], a second
    occurrence is an error. *)
Definition opt_field {A} (p : JsonValue -> option A) (k : string) (o : ClaimSet) : option (option A) :=
  match field_values k o with
  | [] | [JNull] => Some None
  | [v] => Some <$> p v
  | _ => None
  end.
(** A field of another type: it must occur, and once. *)
Definition req_field {A} (p : JsonValue -> option A) (k : string) (o : ClaimSet) : option A :=
  match field_values k o with
  | [v] => p v
  | _ => None
  end.
Definition json_string (v : JsonValue) : option string :=
  match v with JString s => Some s | _ => None end.
Definition json_u64 (v : JsonValue) : option N :=
  match v with JU64 n => Some n | _ => None end.

(** A map takes every field; the last of equal keys stays. *)
Definition json_map (o : ClaimSet) : gmap string JsonValue :=
  foldl (fun m kv => <[kv.1 := kv.2]> m) ∅ o.
#[export] Instance json_map_deserialize : Deserialize (gmap string JsonValue) :=
  {| from_json := fun o => Some (json_map o) |}.

(** ** Claims *)
Record StandardClaims : Type := mkStandardClaims {
  iss : option string;
  sub : option string;
  aud : option string;
  exp : N;
  iat : option N;
  jti : option string;
  nbf : option N;
  custom_claims : gmap string JsonValue;
}.

Definition registered : list string := ["iss"; "sub"; "aud"; "exp"; "iat"; "jti"; "nbf"].

(** [#[serde(skip_serializing_if = "Option::is_none")]]. *)
Definition opt_entry {A} (k : string) (f : A -> JsonValue) (o : option A) : ClaimSet :=
  match o with Some a => [(k, f a)] | None => [] end.

(** The derived [Serialize]: the fields in their order, then the flattened map. *)
Definition StandardClaims_to_json `{HashIter} (c : StandardClaims) : ClaimSet :=
  (opt_entry "iss" JString (iss c) ++ opt_entry "sub" JString (sub c) ++
  opt_entry "aud" JString (aud c) ++ [("exp", JU64 (exp c))] ++
  opt_entry "iat" JU64 (iat c) ++ opt_entry "jti" JString (jti c) ++
  opt_entry "nbf" JU64 (nbf c) ++ hash_iter (custom_claims c))%list.

(** The derived [Deserialize]: what is not a field goes to the flattened map. *)
Definition StandardClaims_from_json (o : ClaimSet) : option StandardClaims :=
  iss ← opt_field json_string "iss" o;
  sub ← opt_field json_string "sub" o;
  aud ← opt_field json_string "aud" o;
  exp ← req_field json_u64 "exp" o;
  iat ← opt_field json_u64 "iat" o;
  jti ← opt_field json_string "jti" o;
  nbf ← opt_field json_u64 "nbf" o;
  Some (mkStandardClaims iss sub aud exp iat jti nbf
          (json_map (filter (fun kv => kv.1 ∉ registered) o))).
#[export] Instance StandardClaims_deserialize : Deserialize StandardClaims :=
  {| from_json := StandardClaims_from_json |}.

(** [struct ExpClaim] of [jwt.rs]. *)
Record ExpClaim : Type := mkExpClaim { ec_exp : N }.
Definition ExpClaim_from_json (o : ClaimSet) : option ExpClaim := mkExpClaim <$> req_field json_u64 "exp" o.
#[export] Instance ExpClaim_deserialize : Deserialize ExpClaim := {| from_json := ExpClaim_from_json |}.

(** ** The JWT library *)
Record Header : Type := mkHeader {
  alg : Algorithm;
  kid : option string;
}.

(** The claims [decode] requires. *)
Record ClaimChecks : Type := mkClaimChecks {
  required_spec_claims : list string;
  leeway : N;
  validate_exp : bool;
  expected_aud : option (list string);
  expected_iss : option (list string);
}.
Record Validation : Type := mkValidation {
  algorithms : list Algorithm;
  validate_signature : bool;
  checks : ClaimChecks;
}.
(** [Validation::new(alg)]. *)
Definition Validation_new (a : Algorithm) : Validation :=
  mkValidation [a] true (mkClaimChecks ["exp"] 60 true None None).
Definition set_checks (f : ClaimChecks -> ClaimChecks) (v : Validation) : Validation :=
  mkValidation (algorithms v) (validate_signature v) (f (checks v)).
Definition set_audience (l : list string) : Validation -> Validation :=
  set_checks (fun c => mkClaimChecks (required_spec_claims c) (leeway c) (validate_exp c) (Some l) (expected_iss c)).
Definition set_issuer (l : list string) : Validation -> Validation :=
  set_checks (fun c => mkClaimChecks (required_spec_claims c) (leeway c) (validate_exp c) (expected_aud c) (Some l)).
Definition set_required_spec_claims (l : list string) : Validation -> Validation :=
  set_checks (fun c => mkClaimChecks l (leeway c) (validate_exp c) (expected_aud c) (expected_iss c)).
Definition insecure_disable_signature_validation (v : Validation) : Validation :=
  mkValidation (algorithms v) false (checks v).

(** The algorithms of a JWK; encryption algorithms are among them. *)
Inductive KeyAlgorithm : Type :=
| KeySign (a : Algorithm)
| KeyRSA1_5 | KeyRSA_OAEP | KeyRSA_OAEP_256.
#[export] Instance KeyAlgorithm_eq_dec : EqDecision KeyAlgorithm.
Proof. solve_decision. Defined.
Record Jwk : Type := mkJwk {
  key_id : option string;
  key_algorithm : option KeyAlgorithm;
  key_parameters : string;
}.
Abbreviation JwkSet := (list Jwk).

Inductive PemKind : Type := RsaPem | EcPem | EdPem.

Class JsonWebToken : Type := {
  EncodingKey : Type;
  DecodingKey : Type;
  JwtError : Type;
  is_expired_signature : JwtError -> bool;
  JwtError_fmt : JwtError -> string;
  Header_debug : Header -> string;
  KeyAlgorithm_debug : option KeyAlgorithm -> string;
  encoding_from_secret : string -> EncodingKey;
  encoding_from_pem : PemKind -> string -> Result EncodingKey JwtError;
  decoding_from_secret : string -> DecodingKey;
  decoding_from_pem : PemKind -> string -> Result DecodingKey JwtError;
  decoding_from_jwk : Jwk -> Result DecodingKey JwtError;
  encode : Header -> ClaimSet -> EncodingKey -> Result string JwtError;
  decode_header : string -> Result Header JwtError;
  (** [decode::<C>(token, key, validation)] at the time [now]. *)
  decode : forall {C} `{Deserialize C}, Z -> string -> DecodingKey -> Validation -> Result (Header * C) JwtError;
}.

(** What the documentation of the library says of them. *)
Class JsonWebTokenLaws `{JsonWebToken} : Type := {
  (** The header and the claims a token carries. *)
  token_parts : string -> option (Header * ClaimSet);
  (** Whether the token's signature is valid for the key and the algorithm. *)
  signature_valid : DecodingKey -> Algorithm -> string -> bool;
  claims_accepted : Z -> ClaimChecks -> ClaimSet -> bool;
  key_pair : EncodingKey -> DecodingKey -> Prop;
  decode_sound : forall C (D : Deserialize C) now t k v h (c : C),
    decode now t k v = Ok (h, c) ->
    (exists o, token_parts t = Some (h, o) /\ from_json o = Some c /\
       claims_accepted now (checks v) o = true) /\
    (validate_signature v = true -> signature_valid k (alg h) t = true /\ alg h ∈ algorithms v);
  decode_complete : forall C (D : Deserialize C) now t k v h o (c : C),
    token_parts t = Some (h, o) -> from_json o = Some c ->
    claims_accepted now (checks v) o = true ->
    (validate_signature v = true -> signature_valid k (alg h) t = true /\ algorithms v = [alg h]) ->
    decode now t k v = Ok (h, c);
  decode_header_parts : forall t h o, token_parts t = Some (h, o) -> decode_header t = Ok h;
  (** Validation of [exp], with its leeway. *)
  accepted_not_expired : forall now chk o e,
    claims_accepted now chk o = true -> validate_exp chk = true ->
    field_values "exp" o = [JU64 e] -> (now <= Z.of_N e + Z.of_N (leeway chk))%Z;
  (** Claims that have all that is checked are accepted. *)
  accepted_standard : forall now chk o e,
    (forall k, k ∈ required_spec_claims chk -> field_values k o <> []) ->
    field_values "exp" o = [JU64 e] -> (now <= Z.of_N e)%Z ->
    match expected_aud chk, field_values "aud" o with
    | Some l, [JString a] => a ∈ l | None, [] => True | _, _ => False end ->
    match expected_iss chk, field_values "iss" o with
    | Some l, [JString i] => i ∈ l | None, _ => True | _, _ => False end ->
    claims_accepted now chk o = true;
  encode_parts : forall h o k t, encode h o k = Ok t ->
    token_parts t = Some (h, o) /\ length (split "." t) = 3;
  (** Base64 without padding, and dots. *)
  encode_no_space : forall h o k t, encode h o k = Ok t -> string_in " " t = false;
  encode_signs : forall h o k t k', encode h o k = Ok t -> key_pair k k' ->
    signature_valid k' (alg h) t = true;
  key_pair_secret : forall s, key_pair (encoding_from_secret s) (decoding_from_secret s);
}.

(** ** The JSON of claims *)
Lemma filter_none {A} (P : A -> Prop) `{forall x, Decision (P x)} (l : list A) : (forall x, x ∈ l -> ~ P x) -> filter P l = [].
Proof.
  induction l as [|x l IH]; intros HP; [done|]. rewrite filter_cons_False by (apply HP; left).
  apply IH. intros y Hy. apply HP. by right.
Qed.
Lemma filter_all {A} (P : A -> Prop) `{forall x, Decision (P x)} (l : list A) : (forall x, x ∈ l -> P x) -> filter P l = l.
Proof.
  induction l as [|x l IH]; intros HP; [done|]. rewrite filter_cons_True by (apply HP; left).
  f_equal. apply IH. intros y Hy. apply HP. by right.
Qed.

Lemma field_values_app k o1 o2 : field_values k (o1 ++ o2)%list = (field_values k o1 ++ field_values k o2)%list.
Proof. unfold field_values. by rewrite list.filter_app, fmap_app. Qed.

Lemma field_values_entry {A} k k' (f : A -> JsonValue) o :
  field_values k (opt_entry k' f o) = if decide (k' = k) then from_option (fun a => [f a]) [] o else [].
Proof. destruct o as [a|]; simpl; [|by destruct decide]. cbn. by destruct decide. Qed.

Lemma field_values_nil k o : (forall v, (k, v) ∉ o) -> field_values k o = [].
Proof.
  intros Hk. unfold field_values. rewrite filter_none; [done|].
  intros [k' v] Hin Hk'. cbn in Hk'. subst k'. by apply (Hk v).
Qed.

Lemma json_map_reverse o : json_map o = list_to_map (reverse o).
Proof.
  unfold json_map. rewrite <- (reverse_involutive o) at 1.
  induction (reverse o) as [|[k v] l IH]; [done|].
  rewrite reverse_cons, foldl_app, list_to_map_cons. cbn. by rewrite IH.
Qed.

(** A map is read back from its fields in any order. *)
Lemma json_map_hash_iter `{HashIter} (m : gmap string JsonValue) : json_map (hash_iter m) = m.
Proof.
  rewrite json_map_reverse. rewrite <- (list_to_map_to_list m) at 2.
  assert (Hp : reverse (hash_iter m) ≡ₚ map_to_list m) by by rewrite reverse_Permutation, hash_iter_perm.
  apply list_to_map_proper; [|done]. rewrite Hp. apply NoDup_fst_map_to_list.
Qed.

Section to_json.
Context `{HashIter} (c : StandardClaims).
Hypothesis no_registered : forall k, k ∈ registered -> custom_claims c !! k = None.

Lemma custom_entry kv : kv ∈ hash_iter (custom_claims c) -> kv.1 ∉ registered.
Proof.
  destruct kv as [k v]. rewrite hash_iter_perm, elem_of_map_to_list. intros Hv Hk.
  cbn in Hk. rewrite (no_registered k Hk) in Hv. done.
Qed.

Lemma field_values_custom k : k ∈ registered -> field_values k (hash_iter (custom_claims c)) = [].
Proof. intros Hk. apply field_values_nil. intros v Hin. by apply custom_entry in Hin. Qed.

(** Every registered name has the value of its field, and no other. *)
Lemma field_values_to_json k : k ∈ registered ->
  field_values k (StandardClaims_to_json c) =
    if decide (k = "exp") then [JU64 (exp c)]
    else if decide (k = "iat") then from_option (fun n => [JU64 n]) [] (iat c)
    else if decide (k = "nbf") then from_option (fun n => [JU64 n]) [] (nbf c)
    else from_option (fun s => [JString s]) []
           (if decide (k = "iss") then iss c else if decide (k = "sub") then sub c
            else if decide (k = "aud") then aud c else jti c).
Proof.
  intros Hk. pose proof (field_values_custom k Hk) as Hc. unfold StandardClaims_to_json.
  rewrite !field_values_app, !field_values_entry, Hc.
  change [("exp", JU64 (exp c))] with (opt_entry "exp" JU64 (Some (exp c))). rewrite field_values_entry.
  unfold registered in Hk. repeat setoid_rewrite elem_of_cons in Hk.
  destruct Hk as [->|[->|[->|[->|[->|[->|[->|Hk]]]]]]]; cbn; rewrite ?app_nil_r; try done;
    by apply elem_of_nil in Hk.
Qed.

Lemma custom_of_json :
  json_map (filter (fun kv => kv.1 ∉ registered) (StandardClaims_to_json c)) = custom_claims c.
Proof.
  transitivity (json_map (hash_iter (custom_claims c))); [|apply json_map_hash_iter].
  f_equal. unfold StandardClaims_to_json. rewrite !list.filter_app.
  rewrite (filter_all _ (hash_iter _)) by apply custom_entry.
  assert (Hreg : forall A k (f : A -> JsonValue) o, k ∈ registered ->
            filter (fun kv : string * JsonValue => kv.1 ∉ registered) (opt_entry k f o) = []).
  { intros A k f o Hk. apply filter_none. intros kv Hin. destruct o; simpl in Hin; [|by apply elem_of_nil in Hin].
    apply list_elem_of_singleton in Hin as ->. auto. }
  rewrite !Hreg by (unfold registered; repeat constructor). done.
Qed.

(** The claims of a token survive JSON: what serde writes for
    [StandardClaims] is read back as the same claims, in whatever order the custom
    claims are written, provided no custom claim has the name of a registered
    one. *)
Theorem claims_json_roundtrip : StandardClaims_from_json (StandardClaims_to_json c) = Some c.
Proof.
  unfold StandardClaims_from_json, opt_field, req_field.
  rewrite !field_values_to_json by (unfold registered; repeat constructor).
  rewrite custom_of_json. destruct c as [[] [] [] ? [] [] [] ?]; done.
Qed.
End to_json.

Lemma claims_json_roundtrip_witness :
  let c := mkStandardClaims (Some "issuer") None (Some "me") 4600 (Some 1000%N) None (Some 1000%N)
             {["role" := JString "admin"; "level" := JU64 3]} in
  StandardClaims_from_json (@StandardClaims_to_json hash_iter_sorted c) = Some c.
Proof.
  apply (@claims_json_roundtrip hash_iter_sorted).
  intros k Hk. unfold registered in Hk. repeat setoid_rewrite elem_of_cons in Hk.
  destruct Hk as [->|[->|[->|[->|[->|[->|[->|Hk]]]]]]]; try reflexivity. by apply elem_of_nil in Hk.
Defined.
