(* ===== verification/KeyResolver.v ===== *)
(** * Resolution of verification keys

    [auth/src/resolver.rs]: the keys of an issuer are fetched from its JWKS
    endpoint, found through OpenID discovery or at its well-known place, and
    cached for a time.

    URLs and the parsing of JSON texts are the class [Web]; the answers of the
    network are an argument [net] of each fetch. [resolve_key] is suspended while
    the network answers; the code touches no shared state between its first look
    at the cache and the storing of the answer, so it has two segments:
    [get_cached_key] and, after the answer, [store_jwks]. *)
From Stdlib Require Import Ascii ZArith.
From stdpp Require Import base list gmap strings numbers option.
From S2P Require Import Prelude Text ReceiverBuffer AuthTypes.
Open Scope string_scope.

(** ** The web *)
Record Response : Type := mkResponse {
  status : N;
  body : Result string string;
}.
Definition STATUS_OK : N := 200.

Class Web : Type := {
  Url : Type;
  Url_parse : string -> Result Url string;
  path : Url -> string;
  set_path : string -> Url -> Url;
  Url_to_string : Url -> string;
  parse_json : string -> option JsonValue;
  parse_jwks : string -> Result JwkSet string;
  status_fmt : N -> string;
}.
(** [client.get(uri).send().await]. *)
Definition Network : Type := string -> Result Response string.

(** [v.get(k)] of a JSON value. *)
Definition json_get (k : string) (v : JsonValue) : option JsonValue :=
  match v with JObject o => json_map o !! k | _ => None end.

(** [s.trim_end_matches(c)]. *)
Fixpoint trim_end_matches (c : Ascii.ascii) (s : string) : string :=
  match s with
  | EmptyString => EmptyString
  | String d s =>
      match trim_end_matches c s with
      | EmptyString => if decide (d = c) then EmptyString else String d EmptyString
      | s => String d s
      end
  end.

(** ** The resolver *)
Record JwksCache : Type := mkJwksCache {
  jwks : JwkSet;
  fetched_at : N;
  ttl : N;
}.
Record KeyResolver : Type := mkKeyResolver {
  jwks_cache : gmap string JwksCache;
  default_jwks_ttl : N;
}.

Definition KeyResolver_new : KeyResolver := mkKeyResolver ∅ (from_secs 3600).
Definition with_jwks_ttl (ttl : N) (r : KeyResolver) : KeyResolver := mkKeyResolver (jwks_cache r) ttl.

Definition key_alg_to_algorithm `{JsonWebToken} (a : KeyAlgorithm) : Result Algorithm AuthError :=
  match a with
  | KeySign a => Ok a
  | a => Err (ConfigError ("Unsupported key algorithm: " +:+ KeyAlgorithm_debug (Some a)))
  end.

Definition jwk_to_decoding_key `{JsonWebToken} (k : Jwk) : Result DecodingKey AuthError :=
  map_err (fun e => ConfigError ("Failed to create " +:+ KeyAlgorithm_debug (key_algorithm k)
                                 +:+ " decoding key from JWK: " +:+ JwtError_fmt e))
    (decoding_from_jwk k).

(** The loop over the keys when the token names one. *)
Fixpoint find_kid `{JsonWebToken} (kid : string) (keys : JwkSet) : option (Result DecodingKey AuthError) :=
  match keys with
  | [] => None
  | k :: keys =>
      match key_id k with
      | Some id => if decide (id = kid) then Some (jwk_to_decoding_key k) else find_kid kid keys
      | None => find_kid kid keys
      end
  end.
(** The loop over the keys when it names none. *)
Fixpoint find_alg `{JsonWebToken} (a : Algorithm) (keys : JwkSet) : option (Result DecodingKey AuthError) :=
  match keys with
  | [] => None
  | k :: keys =>
      match key_algorithm k with
      | Some ka =>
          match key_alg_to_algorithm ka with
          | Ok algorithm => if decide (algorithm = a) then Some (jwk_to_decoding_key k) else find_alg a keys
          | Err _ => find_alg a keys
          end
      | None => find_alg a keys
      end
  end.

Definition get_decoded_key_from_jwks `{JsonWebToken} (keys : JwkSet) (h : Header) : Result DecodingKey AuthError :=
  match (match kid h with Some kid => find_kid kid keys | None => find_alg (alg h) keys end) with
  | Some r => r
  | None => Err (ConfigError ("No suitable key found in JWKS for token header: " +:+ Header_debug h))
  end.

(** [Instant::elapsed] saturates at zero. *)
Definition elapsed (since now : N) : N := (now - since)%N.

Definition get_cached_key `{JsonWebToken} (now : N) (r : KeyResolver) (issuer : string) (h : Header)
    : Result DecodingKey AuthError :=
  match jwks_cache r !! issuer with
  | None => Err (ConfigError ("No cached JWKS found for issuer: " +:+ issuer))
  | Some entry =>
      if decide (ttl entry < elapsed (fetched_at entry) now)%N
      then Err (ConfigError ("Cached JWKS for issuer " +:+ issuer +:+ " has expired"))
      else get_decoded_key_from_jwks (jwks entry) h
  end.

(** [build_jwks_uri]: what OpenID discovery answers, else the well-known place. *)
Definition discovered_uri `{Web} (net : Network) (issuer_url : Url) : option string :=
  let openid_path := trim_end_matches "/" (path issuer_url) +:+ "/.well-known/openid-configuration" in
  match net (Url_to_string (set_path openid_path issuer_url)) with
  | Ok response =>
      if decide (status response = STATUS_OK) then
        match body response with
        | Ok text =>
            config ← parse_json text;
            v ← json_get "jwks_uri" config;
            json_string v
        | Err _ => None
        end
      else None
  | Err _ => None
  end.

Definition build_jwks_uri `{Web} (net : Network) (issuer : string) : Result string AuthError :=
  match Url_parse issuer with
  | Err e => Err (ConfigError ("Invalid issuer URL: " +:+ e))
  | Ok issuer_url =>
      match discovered_uri net issuer_url with
      | Some uri => Ok uri
      | None =>
          let p := trim_end_matches "/" (path issuer_url) +:+ "/.well-known/jwks.json" in
          Ok (Url_to_string (set_path p issuer_url))
      end
  end.

Definition fetch_jwks_from_uri `{Web} (net : Network) (uri : string) : Result JwkSet AuthError :=
  match net uri with
  | Err e => Err (ConfigError ("Failed to fetch JWKS: " +:+ e))
  | Ok response =>
      if decide (status response = STATUS_OK) then
        match body response with
        | Err e => Err (ConfigError ("Failed to read JWKS response: " +:+ e))
        | Ok text => map_err (fun e => ConfigError ("Failed to parse JWKS: " +:+ e)) (parse_jwks text)
        end
      else Err (ConfigError ("Failed to fetch JWKS: HTTP status " +:+ status_fmt (status response)))
  end.

Definition insert_jwks (now : N) (issuer : string) (keys : JwkSet) (r : KeyResolver) : KeyResolver :=
  mkKeyResolver (<[issuer := mkJwksCache keys now (default_jwks_ttl r)]> (jwks_cache r)) (default_jwks_ttl r).

Definition fetch_jwks `{Web} (net : Network) (now : N) (r : KeyResolver) (issuer : string)
    : KeyResolver * Result JwkSet AuthError :=
  match build_jwks_uri net issuer with
  | Err e => (r, Err e)
  | Ok uri =>
      match fetch_jwks_from_uri net uri with
      | Err e => (r, Err e)
      | Ok keys => (insert_jwks now issuer keys r, Ok keys)
      end
  end.

(** The segment of [resolve_key] after the first look at the cache failed. *)
Definition resolve_fetched `{JsonWebToken} `{Web} (net : Network) (now : N) (r : KeyResolver)
    (issuer : string) (h : Header) : KeyResolver * Result DecodingKey AuthError :=
  let (r, res) := fetch_jwks net now r issuer in
  match res with
  | Err e => (r, Err e)
  | Ok keys => (r, get_decoded_key_from_jwks keys h)
  end.

(** [resolve_key] when the network answers at once. *)
Definition resolve_key `{JsonWebToken} `{Web} (net : Network) (now : N) (r : KeyResolver)
    (issuer : string) (h : Header) : KeyResolver * Result DecodingKey AuthError :=
  match get_cached_key now r issuer h with
  | Ok k => (r, Ok k)
  | Err _ => resolve_fetched net now r issuer h
  end.

(** ** Specification *)

(** Which key of a set a token is to be verified with. *)
Definition suitable (h : Header) (k : Jwk) : Prop :=
  match kid h with
  | Some id => key_id k = Some id
  | None => key_algorithm k = Some (KeySign (alg h))
  end.
#[export] Instance suitable_dec h k : Decision (suitable h k).
Proof. unfold suitable. destruct (kid h); apply _. Defined.

Section resolver.
Context `{JsonWebToken}.
Implicit Types (keys : JwkSet) (h : Header) (r : KeyResolver).

Lemma find_kid_spec i keys :
  find_kid i keys = jwk_to_decoding_key <$> head (filter (fun k => key_id k = Some i) keys).
Proof.
  induction keys as [|k keys IH]; [done|]. simpl. rewrite filter_cons.
  destruct (key_id k) as [id|]; simpl; [|done].
  destruct (decide (id = i)) as [->|Hne].
  - by rewrite decide_True.
  - rewrite decide_False by congruence. done.
Qed.

Lemma find_alg_spec a keys :
  find_alg a keys = jwk_to_decoding_key <$> head (filter (fun k => key_algorithm k = Some (KeySign a)) keys).
Proof.
  induction keys as [|k keys IH]; [done|]. simpl. rewrite filter_cons.
  destruct (key_algorithm k) as [[b| | |]|]; simpl; try done.
  destruct (decide (b = a)) as [->|Hne].
  - by rewrite decide_True.
  - rewrite decide_False by congruence. done.
Qed.

(** The first suitable key is taken, and no other. *)
Lemma get_decoded_key_spec keys h :
  get_decoded_key_from_jwks keys h =
    match head (filter (suitable h) keys) with
    | Some k => jwk_to_decoding_key k
    | None => Err (ConfigError ("No suitable key found in JWKS for token header: " +:+ Header_debug h))
    end.
Proof.
  unfold get_decoded_key_from_jwks. destruct h as [a [i|]]; cbn [kid alg].
  - assert (filter (suitable (mkHeader a (Some i))) keys = filter (fun k => key_id k = Some i) keys) as ->
      by (by apply list_filter_iff).
    rewrite find_kid_spec. by destruct (head _).
  - assert (filter (suitable (mkHeader a None)) keys = filter (fun k => key_algorithm k = Some (KeySign a)) keys) as ->
      by (by apply list_filter_iff).
    rewrite find_alg_spec. by destruct (head _).
Qed.

Lemma get_decoded_key_Ok keys h dk :
  get_decoded_key_from_jwks keys h = Ok dk ->
  exists k, k ∈ keys /\ suitable h k /\ decoding_from_jwk k = Ok dk.
Proof.
  rewrite get_decoded_key_spec. destruct (head _) as [k|] eqn:Hk; [|done].
  unfold jwk_to_decoding_key. destruct (decoding_from_jwk k) eqn:Hd; [|done]. intros [= <-].
  exists k. assert (Hin : k ∈ filter (suitable h) keys).
  { destruct (filter _ keys); simplify_eq/=. left. }
  by apply list_elem_of_filter in Hin as [? ?].
Qed.

(** A cached key is one of a set that is not older than its time to live. *)
Lemma get_cached_key_Ok now r issuer h dk :
  get_cached_key now r issuer h = Ok dk ->
  exists entry, jwks_cache r !! issuer = Some entry /\
    (now <= fetched_at entry + ttl entry)%N /\
    get_decoded_key_from_jwks (jwks entry) h = Ok dk.
Proof.
  unfold get_cached_key. destruct (jwks_cache r !! issuer) as [entry|]; [|done].
  case_decide as Ht; [done|]. intros Hd. exists entry. unfold elapsed in Ht. split; [done|]. split; [lia|done].
Qed.
End resolver.
