(* ===== verification/FileWatcher.v ===== *)
(** * Watched files

    [auth/src/file_watcher.rs]: a task that calls a function when a watched file
    has new contents. The library notify is the class [Notify]; one turn of the
    task's loop is [watch_turn], over the state the callback changes. A panic in
    the callback ends the task, and only the task. *)
From stdpp Require Import base list strings option.
From S2P Require Import Prelude.
Open Scope string_scope.

Inductive FileWatcherError : Type := WatchError (s : string).
Definition FileWatcherError_fmt (e : FileWatcherError) : string :=
  match e with WatchError s => "watch error: " +:+ s end.

Class Notify : Type := {
  recommended_watcher : Result unit string;
  watch : string -> Result unit string;
}.

(** What notify reports: a change of a file's contents, or anything else. A path
    that is not a UTF-8 string is [None]. *)
Inductive EventKind : Type := ModifyData | OtherKind.
Record Event : Type := mkEvent {
  kind : EventKind;
  paths : list (option string);
}.

Record FileWatcher : Type := mkFileWatcher {
  watched : list string;
  cancelled : bool;
  running : bool;
}.

Definition create_watcher `{Notify} : panics FileWatcher :=
  match recommended_watcher with
  | Ok _ => Done (mkFileWatcher [] false true)
  | Err _ => Panic "error creating the watcher"
  end.

Definition add_file `{Notify} (w : FileWatcher) (file_name : string) : FileWatcher * Result unit FileWatcherError :=
  match watch file_name with
  | Ok _ => (mkFileWatcher (watched w ++ [file_name])%list (cancelled w) (running w), Ok tt)
  | Err e => (w, Err (WatchError e))
  end.

(** Also what dropping the watcher does. *)
Definition stop_watcher (w : FileWatcher) : FileWatcher := mkFileWatcher (watched w) true (running w).

(** What the [select!] of the loop returns. *)
Inductive WatchEvent : Type :=
| Received (r : Result Event string)
| ChannelClosed
| CancelSignalled.

Definition end_task (w : FileWatcher) : FileWatcher := mkFileWatcher (watched w) (cancelled w) false.

Definition watch_turn {S} (callback : string -> S -> panics S) (e : WatchEvent) (w : FileWatcher) (s : S)
    : FileWatcher * S :=
  if running w then
    match e with
    | Received (Ok event) =>
        match kind event, paths event with
        | ModifyData, Some p :: _ =>
            match callback p s with
            | Done s' => (w, s')
            | Panic _ => (end_task w, s)
            end
        | _, _ => (w, s)
        end
    | Received (Err _) => (w, s)
    | ChannelClosed => (end_task w, s)
    | CancelSignalled => if cancelled w then (end_task w, s) else (w, s)
    end
  else (w, s).

(** ** Specification *)
Section watch_turn.
Context {S : Type} (callback : string -> S -> panics S).

(** Nothing happens after the task has ended. *)
Lemma watch_turn_ended e w s : running w = false -> watch_turn callback e w s = (w, s).
Proof. unfold watch_turn. by intros ->. Qed.

(** A turn changes the state only by the callback, on a change of contents. *)
Lemma watch_turn_state e w s :
  (watch_turn callback e w s).2 = s \/
  exists p l s', e = Received (Ok (mkEvent ModifyData (Some p :: l))) /\ running w = true /\
    callback p s = Done s' /\ watch_turn callback e w s = (w, s').
Proof.
  unfold watch_turn. destruct (running w) eqn:Hw; [|by left].
  destruct e as [[[[|] [|[p|] l]]|]| |]; cbn; try by left.
  - destruct (callback p s) eqn:Hc; [|by left]. right. eauto 10.
  - destruct (cancelled w); by left.
Qed.
End watch_turn.
