(* ===== verification/Jwt.v ===== *)
(** * JSON web tokens

    [auth/src/jwt.rs]: a signer, a verifier and a provider of a token read from a
    file are one structure with different fields set. The clones of a [Jwt] share
    its keys, its static token, its key resolver and its token cache through
    [Arc]s; the record is that shared state.

    Every operation takes the readings of the clock it makes: [clock i] is the
    [i]-th. [verify] is suspended while keys are fetched: [verify_claims] runs up
    to there and returns the future, [verify_resume] runs on with the answers of
    the network and with the state as it is by then. *)
From Stdlib Require Import Ascii ZArith.
From stdpp Require Import base list gmap strings numbers option.
From S2P Require Import Prelude Text ReceiverBuffer AuthTypes KeyResolver FileWatcher.
Open Scope string_scope.

(** ** The token cache *)
Record TokenCacheEntry : Type := mkTokenCacheEntry { expiry : N }.
Abbreviation TokenCache := (gmap string TokenCacheEntry).

Definition TokenCache_new : TokenCache := ∅.
Definition store (c : TokenCache) (token : string) (expiry : N) : TokenCache :=
  <[token := mkTokenCacheEntry expiry]> c.
Definition get (now : Z) (c : TokenCache) (token : string) : option string :=
  match c !! token with
  | Some entry =>
      if decide (unix_secs now < expiry entry)%N then
        match split "." token with
        | [_; claims; _] => Some claims
        | _ => None
        end
      else None
  | None => None
  end.

(** ** The structure *)
Record Jwt `{JsonWebToken} : Type := mkJwt {
  claims : StandardClaims;
  token_duration : N;
  validation : Validation;
  encoding_key : option EncodingKey;
  decoding_key : option DecodingKey;
  key_resolver : option KeyResolver;
  token_cache : TokenCache;
  watchers : list FileWatcher;
  static_token : option string;
}.
Arguments mkJwt {_}.

(** The future of [verify]: finished, or waiting for the keys of an issuer. *)
Inductive VerifyFuture (C : Type) : Type :=
| Finished (r : Result C AuthError)
| FetchingKeys (token issuer : string) (h : Header).
Arguments Finished {C} _.
Arguments FetchingKeys {C} _ _ _.

Section jwt.
Context `{JsonWebToken}.

Definition Jwt_new (c : StandardClaims) (token_duration : N) (v : Validation) : Jwt :=
  mkJwt c token_duration v None None None TokenCache_new [] None.

(** [Arc::get_mut] fails when the list of watchers is [shared] with a clone. *)
Definition with_watcher (shared : bool) (j : Jwt) (w : FileWatcher) : panics Jwt :=
  if shared then Panic "Failed to get mutable reference to watchers"
  else Done (mkJwt (claims j) (token_duration j) (validation j) (encoding_key j) (decoding_key j)
               (key_resolver j) (token_cache j) (watchers j ++ [w])%list (static_token j)).

Definition with_encoding_key (j : Jwt) (k : EncodingKey) : Jwt :=
  mkJwt (claims j) (token_duration j) (validation j) (Some k) None None (token_cache j) [] None.
Definition with_decoding_key (j : Jwt) (k : DecodingKey) : Jwt :=
  mkJwt (claims j) (token_duration j) (validation j) None (Some k) None (token_cache j) [] None.
Definition with_key_resolver (j : Jwt) (r : KeyResolver) : Jwt :=
  mkJwt (claims j) (token_duration j) (validation j) None None (Some r) (token_cache j) [] None.
Definition with_static_token (j : Jwt) (t : string) : Jwt :=
  mkJwt (claims j) (token_duration j) (validation j) None None None (token_cache j) (watchers j) (Some t).

(** The shared parts that change. *)
Definition set_token_cache (c : TokenCache) (j : Jwt) : Jwt :=
  mkJwt (claims j) (token_duration j) (validation j) (encoding_key j) (decoding_key j)
    (key_resolver j) c (watchers j) (static_token j).
Definition set_key_resolver (r : KeyResolver) (j : Jwt) : Jwt :=
  mkJwt (claims j) (token_duration j) (validation j) (encoding_key j) (decoding_key j)
    (Some r) (token_cache j) (watchers j) (static_token j).
Definition set_encoding_key (k : EncodingKey) (j : Jwt) : Jwt :=
  mkJwt (claims j) (token_duration j) (validation j) (Some k) (decoding_key j)
    (key_resolver j) (token_cache j) (watchers j) (static_token j).
Definition set_decoding_key (k : DecodingKey) (j : Jwt) : Jwt :=
  mkJwt (claims j) (token_duration j) (validation j) (encoding_key j) (Some k)
    (key_resolver j) (token_cache j) (watchers j) (static_token j).
Definition set_static_token (t : string) (j : Jwt) : Jwt :=
  mkJwt (claims j) (token_duration j) (validation j) (encoding_key j) (decoding_key j)
    (key_resolver j) (token_cache j) (watchers j) (Some t).

(** [self.validation.algorithms[0]]. *)
Definition first_algorithm (j : Jwt) : panics Algorithm :=
  expect (head (algorithms (validation j))) "index out of bounds: the len is 0 but the index is 0".

(** ** Signing *)
Definition create_claims `{BuildProfile} (now : Z) (j : Jwt) : panics StandardClaims :=
  let now := unix_secs now in
  expiration ← u64_add now (as_secs (token_duration j));
  let c := claims j in
  Done (mkStandardClaims (iss c) (sub c) (aud c) expiration (Some now) (jti c) (Some now) (custom_claims c)).

Definition sign_claims (j : Jwt) (o : ClaimSet) : panics (Result string AuthError) :=
  match encoding_key j with
  | None => Done (Err (ConfigError "Private key not configured for signing"))
  | Some k =>
      a ← first_algorithm j;
      Done (map_err (fun e => SigningError (JwtError_fmt e)) (encode (mkHeader a None) o k))
  end.

Definition sign_internal_claims `{BuildProfile} `{HashIter} (now : Z) (j : Jwt) : panics (Result string AuthError) :=
  c ← create_claims now j;
  sign_claims j (StandardClaims_to_json c).

(** [Jwt<P>::get_token]. *)
Definition get_static_token (j : Jwt) : Result string AuthError :=
  match static_token j with
  | Some t => Ok t
  | None => Err (GetTokenError "No token available")
  end.

(** ** Verifying *)
Definition get_validation (j : Jwt) (a : Algorithm) : panics Validation :=
  match algorithms (validation j) with
  | [] => Panic "index out of bounds: the len is 0 but the index is 0"
  | _ :: l => Done (mkValidation (a :: l) (validate_signature (validation j)) (checks (validation j)))
  end.

Definition cache (j : Jwt) (token : string) (expiry : N) : Jwt :=
  set_token_cache (store (token_cache j) token expiry) j.

Definition get_cached_claims {C} `{Deserialize C} (clock : nat -> Z) (j : Jwt) (token : string) : panics (option C) :=
  match get (clock 0) (token_cache j) token with
  | Some _ =>
      a ← first_algorithm j;
      v ← get_validation j a;
      Done (match decode (clock 1) token (decoding_from_secret "notused")
                    (insecure_disable_signature_validation v) with
            | Ok (_, c) => Some c
            | Err _ => None
            end)
  | None => Done None
  end.

(** How an error of [decode] is reported. *)
Definition decode_error (e : JwtError) : AuthError :=
  if is_expired_signature e then TokenExpired else VerificationError (JwtError_fmt e).

Definition verify_internal {C} `{Deserialize C} (clock : nat -> Z) (j : Jwt) (token : string) (k : DecodingKey)
    : panics (Jwt * Result C AuthError) :=
  match decode_header token with
  | Err e => Done (j, Err (TokenInvalid ("Failed to decode token header: " +:+ JwtError_fmt e)))
  | Ok h =>
      v ← get_validation j (alg h);
      match decode (clock 0) token k v with
      | Err e => Done (j, Err (decode_error e))
      | Ok (_, c) =>
          match decode (clock 1) token k (insecure_disable_signature_validation v) with
          | Err e => Done (j, Err (decode_error e))
          | Ok (_, e) => Done (cache j token (ec_exp e), Ok c)
          end
      end
  end.

(** The header and the claims, whatever the signature. *)
Definition unsecure_get_token_data {C} `{Deserialize C} (now : Z) (j : Jwt) (token : string)
    : Result (Header * C) AuthError :=
  map_err (fun e => VerificationError ("Failed to decode token: " +:+ JwtError_fmt e))
    (decode now token (decoding_from_secret "unused") (insecure_disable_signature_validation (validation j))).

(** The issuer and the header of a token, for the resolver. *)
Definition token_issuer (now : Z) (j : Jwt) (token : string) : Result (string * Header) AuthError :=
  match unsecure_get_token_data (C := StandardClaims) now j token with
  | Err e => Err e
  | Ok (h, c) =>
      match iss c with
      | None => Err (ConfigError "no issuer found in JWT claims")
      | Some issuer => Ok (issuer, h)
      end
  end.

(** [fn decoding_key]. *)
Definition get_decoding_key (now : Z) (instant : N) (j : Jwt) (token : string) : Result DecodingKey AuthError :=
  match decoding_key j, key_resolver j with
  | Some k, _ => Ok k
  | None, Some r =>
      match token_issuer now j token with
      | Err e => Err e
      | Ok (issuer, h) => get_cached_key instant r issuer h
      end
  | None, None => Err (ConfigError "Decoding key not configured for JWT verification")
  end.

Definition try_verify_claims {C} `{Deserialize C} (clock : nat -> Z) (instant : N) (j : Jwt) (token : string)
    : panics (Jwt * Result C AuthError) :=
  cached ← get_cached_claims clock j token;
  match cached with
  | Some c => Done (j, Ok c)
  | None =>
      match get_decoding_key (clock 2) instant j token with
      | Err e => Done (j, Err e)
      | Ok k => verify_internal (fun i => clock (3 + i)) j token k
      end
  end.

Definition finished {C} (r : Jwt * Result C AuthError) : Jwt * VerifyFuture C := (r.1, Finished r.2).

Definition verify_claims {C} `{Deserialize C} (clock : nat -> Z) (instant : N) (j : Jwt) (token : string)
    : panics (Jwt * VerifyFuture C) :=
  cached ← get_cached_claims clock j token;
  match cached with
  | Some c => Done (j, Finished (Ok c))
  | None =>
      match decoding_key j, key_resolver j with
      | Some k, _ => finished <$> verify_internal (fun i => clock (3 + i)) j token k
      | None, None => Done (j, Finished (Err (ConfigError "Key resolver not configured")))
      | None, Some r =>
          match token_issuer (clock 2) j token with
          | Err e => Done (j, Finished (Err e))
          | Ok (issuer, h) =>
              match get_cached_key instant r issuer h with
              | Ok k => finished <$> verify_internal (fun i => clock (3 + i)) j token k
              | Err _ => Done (j, FetchingKeys token issuer h)
              end
          end
      end
  end.

(** The rest of [verify_claims], when the network has answered. *)
Definition verify_resume {C} `{Deserialize C} `{Web} (clock : nat -> Z) (instant : N) (net : Network) (j : Jwt)
    (token issuer : string) (h : Header) : panics (Jwt * Result C AuthError) :=
  match key_resolver j with
  | None => Done (j, Err (ConfigError "Key resolver not configured"))
  | Some r =>
      let (r, res) := resolve_fetched net instant r issuer h in
      let j := set_key_resolver r j in
      match res with
      | Err e => Done (j, Err e)
      | Ok k => verify_internal clock j token k
      end
  end.
End jwt.
