(* ===== verification/JwtBuilder.v ===== *)
(** * The builder of signers, verifiers and token providers

    [auth/src/builder.rs]. The states of the builder index its type, as the
    phantom types of the source do: an operation exists only in the states that
    offer it. Files are read through [fs], the contents of the files at that
    time. Keys and tokens that come from a file are read again by the callback of
    a watcher ([watcher_event]). *)
From Stdlib Require Import Ascii ZArith.
From stdpp Require Import base list gmap strings numbers option.
From S2P Require Import Prelude Text ReceiverBuffer AuthTypes KeyResolver FileWatcher Jwt.
Open Scope string_scope.

Definition FileSystem : Type := string -> option string.

Module Builder.

(** [mod state]. *)
Inductive state : Type :=
| Initial
| WithPrivateKey
| WithPublicKey
| WithToken.

Record JwtBuilder (S : state) : Type := mkJwtBuilder {
  b_issuer : option string;
  b_audience : option string;
  b_subject : option string;
  b_private_key : option Key;
  b_public_key : option Key;
  b_algorithm : Algorithm;
  b_token_duration : N;
  b_auto_resolve_keys : bool;
  b_required_claims : list string;
  b_custom_claims : gmap string JsonValue;
  b_token_file : option string;
}.
Arguments mkJwtBuilder {S}.
Arguments b_issuer {S}.
Arguments b_audience {S}.
Arguments b_subject {S}.
Arguments b_private_key {S}.
Arguments b_public_key {S}.
Arguments b_algorithm {S}.
Arguments b_token_duration {S}.
Arguments b_auto_resolve_keys {S}.
Arguments b_required_claims {S}.
Arguments b_custom_claims {S}.
Arguments b_token_file {S}.

(** [fn resolve_key] of the builder: the text of a key. *)
Definition resolve_key (fs : FileSystem) (k : Key) : panics string :=
  match key k with
  | Pem pem => Done pem
  | File path => expect (fs path) "called `Result::unwrap()` on an `Err` value"
  end.

Definition default : JwtBuilder Initial :=
  mkJwtBuilder None None None None None HS256 (from_secs 3600) false [] ∅ None.

(** ** In any state *)
Definition build_validation {S} (b : JwtBuilder S) : Validation :=
  let v := Validation_new (b_algorithm b) in
  let v := match b_audience b with Some a => set_audience [a] v | None => v end in
  let v := match b_issuer b with Some i => set_issuer [i] v | None => v end in
  match b_required_claims b with
  | [] => v
  | l => set_required_spec_claims l v
  end.

Definition build_claims {S} (b : JwtBuilder S) : StandardClaims :=
  mkStandardClaims (b_issuer b) (b_subject b) (b_audience b) 0 None None None (b_custom_claims b).

(** ** Initial *)
Definition new : JwtBuilder Initial := default.

Definition issuer (i : string) (b : JwtBuilder Initial) : JwtBuilder Initial :=
  mkJwtBuilder (Some i) (b_audience b) (b_subject b) (b_private_key b) (b_public_key b) (b_algorithm b)
    (b_token_duration b) (b_auto_resolve_keys b) (b_required_claims b) (b_custom_claims b) (b_token_file b).
Definition audience (a : string) (b : JwtBuilder Initial) : JwtBuilder Initial :=
  mkJwtBuilder (b_issuer b) (Some a) (b_subject b) (b_private_key b) (b_public_key b) (b_algorithm b)
    (b_token_duration b) (b_auto_resolve_keys b) (b_required_claims b) (b_custom_claims b) (b_token_file b).
Definition subject (s : string) (b : JwtBuilder Initial) : JwtBuilder Initial :=
  mkJwtBuilder (b_issuer b) (b_audience b) (Some s) (b_private_key b) (b_public_key b) (b_algorithm b)
    (b_token_duration b) (b_auto_resolve_keys b) (b_required_claims b) (b_custom_claims b) (b_token_file b).

Definition require (k : string) (b : JwtBuilder Initial) : JwtBuilder Initial :=
  mkJwtBuilder (b_issuer b) (b_audience b) (b_subject b) (b_private_key b) (b_public_key b) (b_algorithm b)
    (b_token_duration b) (b_auto_resolve_keys b) (b_required_claims b ++ [k])%list (b_custom_claims b) (b_token_file b).
Definition require_exp : JwtBuilder Initial -> JwtBuilder Initial := require "exp".
Definition require_nbf : JwtBuilder Initial -> JwtBuilder Initial := require "nbf".
Definition require_aud : JwtBuilder Initial -> JwtBuilder Initial := require "aud".
Definition require_iss : JwtBuilder Initial -> JwtBuilder Initial := require "iss".
Definition require_sub : JwtBuilder Initial -> JwtBuilder Initial := require "sub".

Definition private_key (k : Key) (b : JwtBuilder Initial) : JwtBuilder WithPrivateKey :=
  mkJwtBuilder (b_issuer b) (b_audience b) (b_subject b) (Some k) None (algorithm k)
    (b_token_duration b) (b_auto_resolve_keys b) (b_required_claims b) (b_custom_claims b) None.
Definition public_key (k : Key) (b : JwtBuilder Initial) : JwtBuilder WithPublicKey :=
  mkJwtBuilder (b_issuer b) (b_audience b) (b_subject b) None (Some k) (algorithm k)
    (b_token_duration b) (b_auto_resolve_keys b) (b_required_claims b) (b_custom_claims b) None.
Definition auto_resolve_keys (enable : bool) (b : JwtBuilder Initial) : JwtBuilder WithPublicKey :=
  mkJwtBuilder (b_issuer b) (b_audience b) (b_subject b) None None (b_algorithm b)
    (b_token_duration b) enable (b_required_claims b) (b_custom_claims b) None.
Definition token_file (f : string) (b : JwtBuilder Initial) : JwtBuilder WithToken :=
  mkJwtBuilder (b_issuer b) (b_audience b) (b_subject b) (b_private_key b) (b_public_key b) (b_algorithm b)
    (b_token_duration b) (b_auto_resolve_keys b) (b_required_claims b) (b_custom_claims b) (Some f).

(** ** WithPrivateKey *)
Definition token_duration (d : N) (b : JwtBuilder WithPrivateKey) : JwtBuilder WithPrivateKey :=
  mkJwtBuilder (b_issuer b) (b_audience b) (b_subject b) (b_private_key b) (b_public_key b) (b_algorithm b)
    d (b_auto_resolve_keys b) (b_required_claims b) (b_custom_claims b) (b_token_file b).
Definition custom_claims (m : gmap string JsonValue) (b : JwtBuilder WithPrivateKey) : JwtBuilder WithPrivateKey :=
  mkJwtBuilder (b_issuer b) (b_audience b) (b_subject b) (b_private_key b) (b_public_key b) (b_algorithm b)
    (b_token_duration b) (b_auto_resolve_keys b) (b_required_claims b) m (b_token_file b).

Section build.
Context `{JsonWebToken}.

Definition encoding_key_of (fs : FileSystem) (k : Key) : panics (Result EncodingKey AuthError) :=
  key_str ← resolve_key fs k;
  Done (match algorithm k with
        | HS256 | HS384 | HS512 => Ok (encoding_from_secret key_str)
        | RS256 | RS384 | RS512 | PS256 | PS384 | PS512 =>
            map_err (fun e => ConfigError ("Invalid RSA private key: " +:+ JwtError_fmt e)) (encoding_from_pem RsaPem key_str)
        | ES256 | ES384 =>
            map_err (fun e => ConfigError ("Invalid EC private key: " +:+ JwtError_fmt e)) (encoding_from_pem EcPem key_str)
        | EdDSA =>
            map_err (fun e => ConfigError ("Invalid EdDSA private key: " +:+ JwtError_fmt e)) (encoding_from_pem EdPem key_str)
        end).

Definition decoding_key_of (fs : FileSystem) (k : Key) : panics (Result DecodingKey AuthError) :=
  key_str ← resolve_key fs k;
  Done (match algorithm k with
        | HS256 | HS384 | HS512 => Ok (decoding_from_secret key_str)
        | RS256 | RS384 | RS512 | PS256 | PS384 | PS512 =>
            map_err (fun e => ConfigError ("Invalid RSA public key: " +:+ JwtError_fmt e)) (decoding_from_pem RsaPem key_str)
        | ES256 | ES384 =>
            map_err (fun e => ConfigError ("Invalid EC public key: " +:+ JwtError_fmt e)) (decoding_from_pem EcPem key_str)
        | EdDSA =>
            map_err (fun e => ConfigError ("Invalid EdDSA public key: " +:+ JwtError_fmt e)) (decoding_from_pem EdPem key_str)
        end).

(** [Result::expect]. *)
Definition expect_ok {T E} (r : Result T E) (why : string) : panics T :=
  match r with Ok t => Done t | Err _ => Panic why end.

(** The watcher of a file, set up with [w.add_file(path).expect(...)]. *)
Definition watch_file `{Notify} (path : string) : panics FileWatcher :=
  w ← create_watcher;
  match add_file w path with
  | (w, Ok _) => Done w
  | (_, Err _) => Panic "error adding file to the watcher"
  end.

Definition build_signer `{Notify} (fs : FileSystem) (b : JwtBuilder WithPrivateKey) : panics (Result Jwt AuthError) :=
  let v := build_validation b in
  pk ← expect (b_private_key b) "called `Option::unwrap()` on a `None` value";
  ek ← encoding_key_of fs pk;
  match ek with
  | Err e => Done (Err e)
  | Ok ek =>
      let signer := with_encoding_key (Jwt_new (build_claims b) (b_token_duration b) v) ek in
      match key pk with
      | Pem _ => Done (Ok signer)
      | File path =>
          w ← watch_file path;
          signer ← with_watcher false signer w;
          Done (Ok signer)
      end
  end.

(** ** WithPublicKey *)
Definition build_verifier `{Notify} (fs : FileSystem) (b : JwtBuilder WithPublicKey) : panics (Result Jwt AuthError) :=
  let v := build_validation b in
  let verifier := Jwt_new (build_claims b) (b_token_duration b) v in
  if b_auto_resolve_keys b then Done (Ok (with_key_resolver verifier KeyResolver_new))
  else
    pk ← expect (b_public_key b) "called `Option::unwrap()` on a `None` value";
    dk ← decoding_key_of fs pk;
    match dk with
    | Err e => Done (Err e)
    | Ok dk =>
        let verifier := with_decoding_key verifier dk in
        match key pk with
        | Pem _ => Done (Ok verifier)
        | File path =>
            w ← watch_file path;
            verifier ← with_watcher false verifier w;
            Done (Ok verifier)
        end
    end.

(** ** WithToken *)
Definition build_provider `{Notify} (fs : FileSystem) (b : JwtBuilder WithToken) : panics (Result Jwt AuthError) :=
  file ← expect (b_token_file b) "called `Option::unwrap()` on a `None` value";
  token ← expect (fs file) "error reading token file";
  w ← create_watcher;
  match add_file w file with
  | (_, Err e) => Done (Err (ConfigError (FileWatcherError_fmt e)))
  | (w, Ok _) =>
      provider ← with_watcher false (with_static_token (Jwt_new (build_claims b) (from_secs 0) (build_validation b)) token) w;
      Done (Ok provider)
  end.

(** ** The callbacks of the watchers *)
Definition reload_encoding_key (fs : FileSystem) (k : Key) (_ : string) (j : Jwt) : panics Jwt :=
  r ← encoding_key_of fs k;
  new_key ← expect_ok r "error processing new key";
  Done (set_encoding_key new_key j).
Definition reload_decoding_key (fs : FileSystem) (k : Key) (_ : string) (j : Jwt) : panics Jwt :=
  r ← decoding_key_of fs k;
  new_key ← expect_ok r "error processing new key";
  Done (set_decoding_key new_key j).
Definition reload_token (fs : FileSystem) (file : string) (j : Jwt) : panics Jwt :=
  token ← expect (fs file) "error reading token file";
  Done (set_static_token token j).

Definition set_watchers (l : list FileWatcher) (j : Jwt) : Jwt :=
  mkJwt (claims j) (Jwt.token_duration j) (validation j) (encoding_key j) (decoding_key j)
    (key_resolver j) (token_cache j) l (static_token j).

(** A turn of the task of the [i]-th watcher. *)
Definition watcher_event (callback : string -> Jwt -> panics Jwt) (i : nat) (e : WatchEvent) (j : Jwt) : Jwt :=
  match watchers j !! i with
  | Some w =>
      let (w, j') := watch_turn callback e w j in
      set_watchers (<[i := w]> (watchers j')) j'
  | None => j
  end.
End build.
End Builder.
