(* ===== verification/JwtMiddleware.v ===== *)
(** * The JWT middleware

    [auth/src/jwt_middleware.rs]: [AddJwtToken] puts a token into the requests of
    a client, [ValidateJwt] lets a request through to the inner service when its
    token verifies. The crates http and headers are the class [Headers]. The
    inner service is represented by the requests it is called with ([served]);
    what it does with them is its own matter. The future of a request is polled
    with [poll]; an [async] block runs from its first poll on. *)
From Stdlib Require Import Ascii ZArith.
From stdpp Require Import base list gmap strings numbers option.
From S2P Require Import Prelude Text ReceiverBuffer AuthTypes KeyResolver Jwt.
Open Scope string_scope.

Class Headers : Type := {
  HeaderValue : Type;
  HeaderValue_try_from : string -> Result HeaderValue string;
  (** [Authorization::<Bearer>::decode] of the values of the header. *)
  decode_bearer : list HeaderValue -> Result string unit;
}.
(** The value the scheme Bearer gives a token is read back as that token. *)
Class HeadersLaws `{Headers} : Prop := {
  decode_bearer_value : forall t v, string_in " " t = false ->
    HeaderValue_try_from ("Bearer " +:+ t) = Ok v -> decode_bearer [v] = Ok t;
}.
Definition AUTHORIZATION : string := "authorization".

(** [http::Request], with the values of each header and the claims among its
    extensions. *)
Record Request `{Headers} (C : Type) : Type := mkRequest {
  headers : gmap string (list HeaderValue);
  extension : option C;
  req_body : string;
}.
Arguments mkRequest {_ _}.
Arguments headers {_ _}.
Arguments extension {_ _}.
Arguments req_body {_ _}.

(** [HeaderMap::insert] replaces all values of the header. *)
Definition insert_header `{Headers} {C} (k : string) (v : HeaderValue) (r : Request C) : Request C :=
  mkRequest (<[k := [v]]> (headers r)) (extension r) (req_body r).
Definition insert_extension `{Headers} {C} (c : C) (r : Request C) : Request C :=
  mkRequest (headers r) (Some c) (req_body r).

(** [headers.typed_try_get::<Authorization<Bearer>>()]. *)
Definition typed_try_get `{Headers} {C} (r : Request C) : Result (option string) unit :=
  match headers r !! AUTHORIZATION with
  | None | Some [] => Ok None
  | Some values => match decode_bearer values with Ok t => Ok (Some t) | Err e => Err e end
  end.

(** ** Token providers *)
Class TokenProvider (P : Type) : Type := {
  try_get_token : Z -> P -> panics (Result string AuthError);
}.

(** [Jwt<S>] and [Jwt<P>] as providers. *)
Record SignerJwt `{JsonWebToken} : Type := mkSignerJwt { signer : Jwt }.
Arguments mkSignerJwt {_}.
Record StaticTokenProvider `{JsonWebToken} : Type := mkStaticTokenProvider { static : Jwt }.
Arguments mkStaticTokenProvider {_}.
Definition signer_try_get_token `{JsonWebToken} `{BuildProfile} `{HashIter} (now : Z) (s : SignerJwt)
    : panics (Result string AuthError) := sign_internal_claims now (signer s).
Definition static_try_get_token `{JsonWebToken} (_ : Z) (s : StaticTokenProvider)
    : panics (Result string AuthError) := Done (get_static_token (static s)).
#[export] Instance signer_provider `{JsonWebToken} `{BuildProfile} `{HashIter} : TokenProvider SignerJwt :=
  {| try_get_token := signer_try_get_token |}.
#[export] Instance static_provider `{JsonWebToken} : TokenProvider StaticTokenProvider :=
  {| try_get_token := static_try_get_token |}.

(** The asynchronous [get_token] of both. *)
Definition signer_get_token : panics (Result string AuthError) :=
  Panic "signerjwt has no support for async token retrieval".
Definition static_get_token : panics (Result string AuthError) :=
  Panic "static token provider has no support for async token retrieval".

(** ** Adding a token *)
Record AddJwtLayer (P : Type) : Type := mkAddJwtLayer {
  layer_provider : P;
  layer_duration : N;
}.
Arguments mkAddJwtLayer {P}.
Arguments layer_provider {P}.
Arguments layer_duration {P}.

Record AddJwtToken `{Headers} (P : Type) : Type := mkAddJwtToken {
  provider : P;
  cached_token : option HeaderValue;
  valid_until : option N;
  duration : N;
}.
Arguments mkAddJwtToken {_ _}.
Arguments provider {_ _}.
Arguments cached_token {_ _}.
Arguments valid_until {_ _}.
Arguments duration {_ _}.

Definition add_layer `{Headers} {P} (l : AddJwtLayer P) : AddJwtToken P :=
  mkAddJwtToken (layer_provider l) None None (layer_duration l).

(** The cached token, while more than two thirds of its lifetime remain. *)
Definition usable_token `{Headers} `{BuildProfile} {P} (now : N) (a : AddJwtToken P) : panics (option HeaderValue) :=
  match cached_token a, valid_until a with
  | Some t, Some valid_until =>
      remaining ← u64_sub valid_until now;
      twice ← u64_mul (duration a) 2;
      Done (if decide (twice `div` 3 < remaining)%N then Some t else None)
  | _, _ => Done None
  end.

Definition get_token `{Headers} `{BuildProfile} {P} `{TokenProvider P} (clock : nat -> Z) (a : AddJwtToken P)
    : panics (AddJwtToken P * Result HeaderValue AuthError) :=
  if decide (clock 0%nat < 0)%Z then
    Done (a, Err (ConfigError "Failed to get current time: second time provided was later than self"))
  else
    let now := unix_secs (clock 0) in
    cached ← usable_token now a;
    match cached with
    | Some t => Done (a, Ok t)
    | None =>
        r ← try_get_token (clock 1) (provider a);
        match r with
        | Err e => Done (a, Err (GetTokenError (AuthError_fmt e)))
        | Ok token =>
            match HeaderValue_try_from ("Bearer " +:+ token) with
            | Err e => Done (a, Err (InvalidHeader e))
            | Ok header_value =>
                until ← u64_add now (duration a);
                Done (mkAddJwtToken (provider a) (Some header_value) (Some until) (duration a), Ok header_value)
            end
        end
    end.

(** [call]: the request the inner service is called with. *)
Definition add_call `{Headers} `{BuildProfile} {P} `{TokenProvider P} {C} (clock : nat -> Z) (a : AddJwtToken P)
    (req : Request C) : panics (AddJwtToken P * Request C) :=
  '(a, r) ← get_token clock a;
  Done (a, match r with Ok token => insert_header AUTHORIZATION token req | Err _ => req end).

(** ** Validating a token *)
Record ValidateJwt `{JsonWebToken} `{Headers} (C : Type) : Type := mkValidateJwt {
  verifier : Jwt;
  served : list (Request C);
}.
Arguments mkValidateJwt {_ _ _}.
Arguments verifier {_ _ _}.
Arguments served {_ _ _}.

(** [ValidateJwtLayer::new(verifier, claims).layer(inner)]; the claims are not
    used. *)
Definition validate_layer `{JsonWebToken} `{Headers} {C} (j : Jwt) : ValidateJwt C := mkValidateJwt j [].

(** The block that awaits [verify]: not yet polled, or waiting for keys. *)
Inductive KeyFuture : Type :=
| NotStarted (token : string)
| AwaitingKeys (token issuer : string) (h : Header)
| Completed.

Inductive JwtFuture `{Headers} (C : Type) : Type :=
| FutureError
| WaitForFuture (request : Request C)
| WaitForKey (request : Request C) (verifier_future : KeyFuture).
Arguments FutureError {_ _}.
Arguments WaitForFuture {_ _}.
Arguments WaitForKey {_ _}.

Section validate.
Context `{JsonWebToken} `{Headers} {C : Type} `{Deserialize C}.
Implicit Types (s : ValidateJwt C) (req : Request C) (f : JwtFuture C).

(** The inner service is called with the request and the claims of its token. *)
Definition serve (j : Jwt) (s : ValidateJwt C) (req : Request C) (c : C) : ValidateJwt C * JwtFuture C :=
  let req := insert_extension c req in
  (mkValidateJwt j (served s ++ [req])%list, WaitForFuture req).

Definition call (clock : nat -> Z) (instant : N) (s : ValidateJwt C) (req : Request C)
    : panics (ValidateJwt C * JwtFuture C) :=
  match typed_try_get req with
  | Ok (Some token) =>
      '(j, r) ← try_verify_claims clock instant (verifier s) token;
      match r with
      | Ok c => Done (serve j s req c)
      | Err _ => Done (mkValidateJwt j (served s), WaitForKey req (NotStarted token))
      end
  | _ => Done (s, FutureError)
  end.

Inductive PollResult : Type :=
| Pending
| Unauthorized
| PollInner (** what the future of the inner service returns *).

(** What [poll] does when the verification has ended. *)
Definition verified (s : ValidateJwt C) (req : Request C) (j : Jwt) (r : Result C AuthError)
    : ValidateJwt C * JwtFuture C * PollResult :=
  match r with
  | Err _ => (mkValidateJwt j (served s), WaitForKey req Completed, Unauthorized)
  | Ok c => (serve j s req c, PollInner)
  end.

(** [net] is [None] while the network has not answered. *)
Definition poll `{Web} (clock : nat -> Z) (instant : N) (net : option Network) (s : ValidateJwt C) (f : JwtFuture C)
    : panics (ValidateJwt C * JwtFuture C * PollResult) :=
  match f with
  | FutureError => Done (s, f, Unauthorized)
  | WaitForFuture _ => Done (s, f, PollInner)
  | WaitForKey req (NotStarted token) =>
      '(j, v) ← verify_claims clock instant (verifier s) token;
      match v with
      | Finished r => Done (verified s req j r)
      | FetchingKeys token issuer h =>
          Done (mkValidateJwt j (served s), WaitForKey req (AwaitingKeys token issuer h), Pending)
      end
  | WaitForKey req (AwaitingKeys token issuer h) =>
      match net with
      | None => Done (s, f, Pending)
      | Some net =>
          '(j, r) ← verify_resume clock instant net (verifier s) token issuer h;
          Done (verified s req j r)
      end
  | WaitForKey _ Completed => Panic "`async fn` resumed after completion"
  end.
End validate.
