(* ===== verification/AuthConfig.v ===== *)
(** * Authentication in the configuration

    [config/src/opaque.rs], [config/src/auth.rs] and [config/src/auth/*.rs]: what
    the configuration of a client or a server says of its authentication, turned
    into the layers of a gRPC service. Basic and bearer authentication are layers
    of the crate tower-http, represented by what they are given; the conversion
    of YAML values into JSON values is serde's, a parameter. *)
From Stdlib Require Import Ascii ZArith.
From stdpp Require Import base list gmap strings numbers option.
From S2P Require Import Prelude Text Provider ReceiverBuffer AuthTypes KeyResolver FileWatcher Jwt JwtBuilder JwtMiddleware.
Open Scope string_scope.

(** ** Opaque strings *)
Record OpaqueString : Type := mkOpaqueString { opaque : string }.
#[export] Instance OpaqueString_eq_dec : EqDecision OpaqueString.
Proof. solve_decision. Defined.
Definition OpaqueString_new (s : string) : OpaqueString := mkOpaqueString s.
(** [Display] and [Debug] alike. *)
Definition OpaqueString_fmt (s : OpaqueString) : string := repeat_char "*" (String.length (opaque s)).

Lemma length_repeat_char c n : String.length (repeat_char c n) = n.
Proof. induction n; simpl; congruence. Qed.

(** ** Authenticators *)
Module Auth.

(** [enum AuthError] of the configuration. *)
Inductive AuthError : Type :=
| ConfigError (s : string)
| TokenExpired
| TokenInvalid (s : string)
| SigningError (s : string)
| InvalidHeader (s : string).
Definition AuthError_fmt (e : AuthError) : string :=
  match e with
  | ConfigError s => "config error: " +:+ s
  | TokenExpired => "token expired"
  | TokenInvalid s => "token invalid: " +:+ s
  | SigningError s => "sign error: " +:+ s
  | InvalidHeader s => "invalid header: " +:+ s
  end.

(** [trait ClientAuthenticator] and [trait ServerAuthenticator]; building a
    layer may read files and panic. *)
Class ClientAuthenticator (A L : Type) : Type := {
  get_client_layer : FileSystem -> A -> panics (Result L AuthError);
}.
Class ServerAuthenticator (A L : Type) : Type := {
  get_server_layer : FileSystem -> A -> panics (Result L AuthError);
}.
End Auth.

(** The layers of tower-http. *)
Inductive AddAuthorizationLayer : Type :=
| AddBasic (username password : string)
| AddBearer (token : string).
Inductive ValidateRequestHeaderLayer : Type :=
| ValidateBasic (username password : string)
| ValidateBearer (token : string).

Module BasicAuth.
Record BasicConfig : Type := mkConfig {
  username : string;
  password : OpaqueString;
}.
Definition basic_default : BasicConfig := mkConfig "admin" (OpaqueString_new "password").
Definition basic_new (username password : string) : BasicConfig := mkConfig username (OpaqueString_new password).

Definition basic_client_layer (c : BasicConfig) : Result AddAuthorizationLayer Auth.AuthError :=
  if decide (username c = "") then Err (Auth.ConfigError "username is empty")
  else if decide (opaque (password c) = "") then Err (Auth.ConfigError "password is empty")
  else Ok (AddBasic (username c) (opaque (password c))).
Definition basic_server_layer (c : BasicConfig) : Result ValidateRequestHeaderLayer Auth.AuthError :=
  Ok (ValidateBasic (username c) (opaque (password c))).
#[global] Instance basic_client : Auth.ClientAuthenticator BasicConfig AddAuthorizationLayer :=
  {| Auth.get_client_layer := fun _ c => Done (basic_client_layer c) |}.
#[global] Instance basic_server : Auth.ServerAuthenticator BasicConfig ValidateRequestHeaderLayer :=
  {| Auth.get_server_layer := fun _ c => Done (basic_server_layer c) |}.
End BasicAuth.

Module BearerAuth.
Record BearerConfig : Type := mkConfig { token : OpaqueString }.
Definition bearer_default : BearerConfig := mkConfig (OpaqueString_new "token").
Definition bearer_new (token : string) : BearerConfig := mkConfig (OpaqueString_new token).

Definition bearer_client_layer (c : BearerConfig) : Result AddAuthorizationLayer Auth.AuthError :=
  if decide (opaque (token c) = "") then Err (Auth.ConfigError "token is empty")
  else Ok (AddBearer (opaque (token c))).
Definition bearer_server_layer (c : BearerConfig) : Result ValidateRequestHeaderLayer Auth.AuthError :=
  Ok (ValidateBearer (opaque (token c))).
#[global] Instance bearer_client : Auth.ClientAuthenticator BearerConfig AddAuthorizationLayer :=
  {| Auth.get_client_layer := fun _ c => Done (bearer_client_layer c) |}.
#[global] Instance bearer_server : Auth.ServerAuthenticator BearerConfig ValidateRequestHeaderLayer :=
  {| Auth.get_server_layer := fun _ c => Done (bearer_server_layer c) |}.
End BearerAuth.

(** [serde_json::to_value] of a YAML value. *)
Class YamlToJson : Type := { to_value : Value -> option JsonValue }.

Module JwtAuth.
Record Claims : Type := mkClaims {
  audience : option string;
  issuer : option string;
  subject : option string;
  custom_claims : option (gmap string Value);
}.
Definition Claims_default : Claims := mkClaims None None None None.
Definition with_audience (a : string) (c : Claims) : Claims := mkClaims (Some a) (issuer c) (subject c) (custom_claims c).
Definition with_issuer (i : string) (c : Claims) : Claims := mkClaims (audience c) (Some i) (subject c) (custom_claims c).
Definition with_subject (s : string) (c : Claims) : Claims := mkClaims (audience c) (issuer c) (Some s) (custom_claims c).
Definition with_custom_claims (m : gmap string Value) (c : Claims) : Claims :=
  mkClaims (audience c) (issuer c) (subject c) (Some m).

Inductive JwtKey : Type :=
| Encoding (k : Key)
| Decoding (k : Key)
| Autoresolve (b : bool).

Record JwtConfig : Type := mkConfig {
  claims : Claims;
  duration : N;
  key : JwtKey;
}.
Definition default_duration : N := from_secs 3600.
Definition with_claims (cl : Claims) (c : JwtConfig) : JwtConfig := mkConfig cl (duration c) (key c).
Definition with_key (k : JwtKey) (c : JwtConfig) : JwtConfig := mkConfig (claims c) (duration c) k.

(** The claims of the configuration as JSON; [to_value(v).unwrap()]. *)
Definition json_claims `{YamlToJson} (m : gmap string Value) : panics (gmap string JsonValue) :=
  if decide (map_Forall (fun _ v => is_Some (to_value v)) m)
  then Done (omap to_value m)
  else Panic "called `Result::unwrap()` on an `Err` value".

Definition config_custom_claims `{YamlToJson} (c : JwtConfig) : panics (gmap string JsonValue) :=
  match custom_claims (claims c) with
  | Some m => json_claims m
  | None => Done ∅
  end.

(** The optional fields both layers set. *)
Definition claims_builder (cl : Claims) : Builder.JwtBuilder Builder.Initial :=
  let b := Builder.new in
  let b := match issuer cl with Some i => Builder.issuer i b | None => b end in
  let b := match audience cl with Some a => Builder.audience a b | None => b end in
  match subject cl with Some s => Builder.subject s b | None => b end.

Section authenticators.
Context `{JsonWebToken} `{Notify} `{YamlToJson}.

Definition config_error (e : AuthError) : Auth.AuthError := Auth.ConfigError (AuthError_fmt e).

Definition jwt_client_layer (fs : FileSystem) (c : JwtConfig) : panics (Result (AddJwtLayer SignerJwt) Auth.AuthError) :=
  let builder := claims_builder (claims c) in
  match key c with
  | Encoding k =>
      custom ← config_custom_claims c;
      r ← Builder.build_signer fs (Builder.custom_claims custom (Builder.private_key k builder));
      Done (match r with
            | Err e => Err (config_error e)
            | Ok signer => Ok (mkAddJwtLayer (mkSignerJwt signer) (as_secs (duration c)))
            end)
  | _ => Done (Err (Auth.ConfigError "Encoding key is required for client authentication"))
  end.

(** A [ValidateJwtLayer] is its verifier; its claims are not used. *)
Definition jwt_server_layer (fs : FileSystem) (c : JwtConfig) : panics (Result Jwt Auth.AuthError) :=
  let builder := claims_builder (claims c) in
  let finish (r : Result Jwt AuthError) :=
    match r with
    | Err e => Done (Err (config_error e))
    | Ok verifier => custom ← config_custom_claims c; Done (Ok verifier)
    end in
  match key c with
  | Decoding k => r ← Builder.build_verifier fs (Builder.public_key k builder); finish r
  | Autoresolve true => r ← Builder.build_verifier fs (Builder.auto_resolve_keys true builder); finish r
  | _ => Done (Err (Auth.ConfigError "Decoding key or autoresolve = true is required for server authentication"))
  end.

#[global] Instance jwt_client : Auth.ClientAuthenticator JwtConfig (AddJwtLayer SignerJwt) :=
  {| Auth.get_client_layer := jwt_client_layer |}.
#[global] Instance jwt_server : Auth.ServerAuthenticator JwtConfig Jwt :=
  {| Auth.get_server_layer := jwt_server_layer |}.
End authenticators.
End JwtAuth.
