(* ===== verification/AuthProofs.v ===== *)
(** * What the verifier accepts

    The invariant of a verifier, relative to the keys that are trusted: [D] holds
    of the keys configured, [K issuer] of those the issuer has published. Every
    operation keeps it, and what is accepted was signed with such a key. [T]
    holds of the readings of the clock. *)
From Stdlib Require Import Ascii ZArith.
From stdpp Require Import base list gmap strings numbers option.
From S2P Require Import Prelude Text ReceiverBuffer AuthTypes KeyResolver FileWatcher Jwt JwtBuilder JwtMiddleware.
Open Scope string_scope.

Lemma panics_bind_Done {A B} (m : panics A) (f : A -> panics B) b :
  m ≫= f = Done b -> exists a, m = Done a /\ f a = Done b.
Proof. destruct m; [|done]. intros Hf. eauto. Qed.
Lemma panics_fmap_Done {A B} (f : A -> B) (m : panics A) b :
  f <$> m = Done b -> exists a, m = Done a /\ b = f a.
Proof. destruct m; [|done]. intros [= <-]. eauto. Qed.
Lemma expect_Done {A} (o : option A) why a : expect o why = Done a -> o = Some a.
Proof. destruct o; [|done]. by intros [= ->]. Qed.
Lemma req_field_u64 k o n : req_field json_u64 k o = Some n -> field_values k o = [JU64 n].
Proof.
  unfold req_field. destruct (field_values k o) as [|v [|]]; try done.
  destruct v; simpl; try done. by intros [= ->].
Qed.

(** Unfolds a binding of a computation that has returned. *)
Ltac done_inv Hyp :=
  repeat match type of Hyp with
  | _ ≫= _ = Done _ =>
      let x := fresh "x" in let Hx := fresh "Hx" in
      apply panics_bind_Done in Hyp as (x & Hx & Hyp)
  | _ <$> _ = Done _ =>
      let x := fresh "x" in let Hx := fresh "Hx" in
      apply panics_fmap_Done in Hyp as (x & Hx & Hyp)
  end.

Section verifier.
Context {JW : JsonWebToken} {JWL : JsonWebTokenLaws}.
Context (D : DecodingKey -> Prop) (K : string -> DecodingKey -> Prop) (T : Z -> Prop).
Implicit Types (j : Jwt) (token issuer : string) (k : DecodingKey) (clock : nat -> Z).

(** The token names the issuer. *)
Definition claims_issuer token issuer : Prop :=
  exists h o c, token_parts token = Some (h, o) /\ StandardClaims_from_json o = Some c /\ iss c = Some issuer.

(** The key may vouch for the token. *)
Definition origin token k : Prop := D k \/ exists issuer, claims_issuer token issuer /\ K issuer k.

(** The token's signature was made for a key that may vouch for it. *)
Definition genuine token : Prop :=
  exists k h o, token_parts token = Some (h, o) /\ origin token k /\ signature_valid k (alg h) token = true.

(** The token is genuine, carries the claims and passed the checks at a reading
    of the clock. *)
Definition accepted {C} `{Deserialize C} (chk : ClaimChecks) token (c : C) : Prop :=
  genuine token /\
  exists h o time e, token_parts token = Some (h, o) /\ from_json o = Some c /\
    T time /\ claims_accepted time chk o = true /\ field_values "exp" o = [JU64 e].

(** [v] is the validation the verifier was built with, [auto] whether it resolves
    keys itself. *)
Record jwt_ok (v : Validation) (auto : bool) j : Prop := {
  ok_validation : validation j = v;
  ok_signature : validate_signature v = true;
  ok_auto : decoding_key j = None <-> auto = true;
  ok_watchers : auto = true -> watchers j = [];
  ok_no_resolver : auto = false -> key_resolver j = None;
  ok_cache : forall token e, token_cache j !! token = Some e ->
    genuine token /\ exists h o, token_parts token = Some (h, o) /\ field_values "exp" o = [JU64 (expiry e)];
  ok_key : forall k, decoding_key j = Some k -> D k;
  ok_resolver : forall r issuer entry jwk k, key_resolver j = Some r -> jwks_cache r !! issuer = Some entry ->
    jwk ∈ jwks entry -> decoding_from_jwk jwk = Ok k -> K issuer k;
}.

Lemma get_validation_Done j a v :
  get_validation j a = Done v ->
  checks v = checks (validation j) /\ validate_signature v = validate_signature (validation j) /\
  algorithms v = a :: tail (algorithms (validation j)).
Proof. unfold get_validation. destruct (algorithms _); [done|]. by intros [= <-]. Qed.

Lemma get_Some now c token claims :
  get now c token = Some claims -> exists e, c !! token = Some e /\ (unix_secs now < expiry e)%N.
Proof.
  unfold get. destruct (c !! token) as [e|]; [|done]. case_decide; [|done]. intros _. by exists e.
Qed.

Lemma get_cached_claims_ok {C} `{Deserialize C} v auto clock j token (c : C) :
  jwt_ok v auto j -> (forall i, T (clock i)) ->
  get_cached_claims clock j token = Done (Some c) -> accepted (checks v) token c.
Proof.
  intros Hok HT. unfold get_cached_claims. destruct (get _ _ _) eqn:Hget; [|done].
  apply get_Some in Hget as (e & He & _). intros Hc. done_inv Hc.
  apply get_validation_Done in Hx0 as [Hchk _].
  rewrite (ok_validation _ _ _ Hok) in Hchk.
  destruct (decode _ _ _ _) as [[h c']|] eqn:Hd; [|done]. injection Hc as ->.
  apply decode_sound in Hd as [(o & Ho & Hj & Ha) _]. cbn in Ha.
  destruct (ok_cache _ _ _ Hok _ _ He) as (Hg & h' & o' & Ho' & Hexp).
  rewrite Ho in Ho'. injection Ho' as -> ->.
  split; [done|]. rewrite Hchk in Ha. eauto 10.
Qed.

Lemma cache_ok_insert v auto j token n :
  jwt_ok v auto j -> genuine token ->
  (exists h o, token_parts token = Some (h, o) /\ field_values "exp" o = [JU64 n]) ->
  jwt_ok v auto (cache j token n).
Proof.
  intros [] Hg Hp. split; try done. intros t e. cbn. unfold store.
  destruct (decide (t = token)) as [->|Hne].
  - rewrite lookup_insert_eq. intros [= <-]. done.
  - rewrite lookup_insert_ne by done. auto.
Qed.

Lemma verify_internal_ok {C} `{Deserialize C} v auto clock j token k j' (r : Result C AuthError) :
  jwt_ok v auto j -> (forall i, T (clock i)) -> origin token k ->
  verify_internal clock j token k = Done (j', r) ->
  jwt_ok v auto j' /\ forall c, r = Ok c -> accepted (checks v) token c.
Proof.
  intros Hok HT Hk. unfold verify_internal.
  destruct (decode_header token) as [h0|]; [|by intros [= <- <-]].
  intros Hv. done_inv Hv. apply get_validation_Done in Hx as (Hchk & Hsig & _).
  rewrite (ok_validation _ _ _ Hok) in Hchk, Hsig. rewrite (ok_signature _ _ _ Hok) in Hsig.
  destruct (decode (clock 0) _ _ _) as [[h c]|] eqn:Hd; [|by injection Hv as <- <-].
  destruct (decode (clock 1) _ _ _) as [[h1 e1]|] eqn:Hd1; [|by injection Hv as <- <-].
  injection Hv as <- <-.
  apply decode_sound in Hd as [(o & Ho & Hj & Ha) Hs]. destruct (Hs Hsig) as [Hs' _].
  apply decode_sound in Hd1 as [(o1 & Ho1 & Hj1 & _) _]. rewrite Ho in Ho1. injection Ho1 as <- <-.
  assert (Hexp : field_values "exp" o = [JU64 (ec_exp e1)]).
  { cbn in Hj1. apply fmap_Some in Hj1 as (n & Hn & ->). by apply req_field_u64. }
  assert (Hg : genuine token) by (exists k, h, o; eauto).
  split; [apply cache_ok_insert; eauto|]. intros c' [= <-]. split; [done|]. rewrite Hchk in Ha. eauto 10.
Qed.

Lemma token_issuer_Ok now j token issuer h :
  token_issuer now j token = Ok (issuer, h) ->
  claims_issuer token issuer /\ exists o, token_parts token = Some (h, o).
Proof.
  unfold token_issuer, unsecure_get_token_data.
  destruct (decode _ _ _ _) as [[h' c]|] eqn:Hd; [|done]. cbn.
  destruct (iss c) eqn:Hi; [|done]. intros [= <- <-].
  apply decode_sound in Hd as [(o & Ho & Hj & _) _]. split; [|eauto]. by exists h', o, c.
Qed.

Lemma cached_key_origin v auto j r instant token issuer h k :
  jwt_ok v auto j -> key_resolver j = Some r -> claims_issuer token issuer ->
  get_cached_key instant r issuer h = Ok k -> origin token k.
Proof.
  intros Hok Hr Hi (entry & He & _ & Hd)%get_cached_key_Ok.
  apply get_decoded_key_Ok in Hd as (jwk & Hin & _ & Hjwk).
  right. exists issuer. split; [done|]. by eapply (ok_resolver _ _ _ Hok).
Qed.

Lemma try_verify_ok {C} `{Deserialize C} v auto clock instant j token j' (r : Result C AuthError) :
  jwt_ok v auto j -> (forall i, T (clock i)) ->
  try_verify_claims clock instant j token = Done (j', r) ->
  jwt_ok v auto j' /\ forall c, r = Ok c -> accepted (checks v) token c.
Proof.
  intros Hok HT Hv. unfold try_verify_claims in Hv. done_inv Hv. destruct x as [c|].
  { injection Hv as <- <-. split; [done|]. intros c' [= <-]. by eapply get_cached_claims_ok. }
  destruct (get_decoding_key _ _ _ _) as [k|e] eqn:Hk; [|by injection Hv as <- <-].
  eapply verify_internal_ok; [done| |  |exact Hv]; [intros i; apply HT|].
  unfold get_decoding_key in Hk. destruct (decoding_key j) as [dk|] eqn:Hdk.
  { injection Hk as ->. left. by apply (ok_key _ _ _ Hok). }
  destruct (key_resolver j) as [kr|] eqn:Hr; [|done].
  destruct (token_issuer _ _ _) as [[issuer h]|] eqn:Hi; [|done].
  apply token_issuer_Ok in Hi as [Hi _]. by eapply cached_key_origin.
Qed.

(** A suspended verification waits for the keys of the token's own issuer. *)
Definition future_ok {C} `{Deserialize C} (chk : ClaimChecks) (auto : bool) token (f : VerifyFuture C) : Prop :=
  match f with
  | Finished r => forall c, r = Ok c -> accepted chk token c
  | FetchingKeys t issuer h => t = token /\ claims_issuer token issuer /\ auto = true
  end.

Lemma verify_claims_ok {C} `{Deserialize C} v auto clock instant j token j' (f : VerifyFuture C) :
  jwt_ok v auto j -> (forall i, T (clock i)) ->
  verify_claims clock instant j token = Done (j', f) ->
  jwt_ok v auto j' /\ future_ok (checks v) auto token f.
Proof.
  intros Hok HT Hv. unfold verify_claims in Hv. done_inv Hv. destruct x as [c|].
  { injection Hv as <- <-. split; [done|]. intros c' [= <-]. by eapply get_cached_claims_ok. }
  assert (Hfin : forall k, origin token k ->
    finished <$> verify_internal (fun i => clock (3 + i)) j token k = Done (j', f) ->
    jwt_ok v auto j' /\ future_ok (checks v) auto token f).
  { intros k Hk Hf. done_inv Hf. destruct x as [j1 r]. injection Hf as -> ->.
    by eapply verify_internal_ok in Hx0. }
  destruct (decoding_key j) as [dk|] eqn:Hdk.
  { eapply Hfin, Hv. left. by apply (ok_key _ _ _ Hok). }
  destruct (key_resolver j) as [kr|] eqn:Hr; [|by injection Hv as <- <-].
  destruct (token_issuer _ _ _) as [[issuer h]|] eqn:Hi; [|by injection Hv as <- <-].
  apply token_issuer_Ok in Hi as [Hi _].
  destruct (get_cached_key _ _ _ _) as [k|] eqn:Hk.
  - eapply Hfin, Hv. by eapply cached_key_origin.
  - injection Hv as <- <-. split; [done|]. split; [done|]. split; [done|]. by apply (ok_auto _ _ _ Hok).
Qed.

(** The keys an issuer publishes through the network are trusted for it. *)
Definition network_ok `{Web} (net : Network) : Prop :=
  forall issuer uri keys jwk k, build_jwks_uri net issuer = Ok uri -> fetch_jwks_from_uri net uri = Ok keys ->
    jwk ∈ keys -> decoding_from_jwk jwk = Ok k -> K issuer k.

Lemma resolve_fetched_ok `{Web} v auto net instant j r issuer h r' res :
  jwt_ok v auto j -> network_ok net -> key_resolver j = Some r ->
  resolve_fetched net instant r issuer h = (r', res) ->
  jwt_ok v auto (set_key_resolver r' j) /\ forall k, res = Ok k -> K issuer k.
Proof.
  intros Hok Hnet Hr. unfold resolve_fetched, fetch_jwks.
  assert (Hauto : auto = true).
  { destruct auto; [done|]. by rewrite (ok_no_resolver _ _ _ Hok eq_refl) in Hr. }
  assert (Hsame : jwt_ok v auto (set_key_resolver r j)).
  { destruct Hok. split; try done; [by rewrite Hauto|]. cbn. intros r0 i e jwk k [= <-]. eauto. }
  destruct (build_jwks_uri net issuer) as [uri|] eqn:Hu; [|by intros [= <- <-]].
  destruct (fetch_jwks_from_uri net uri) as [keys|] eqn:Hf; [|by intros [= <- <-]].
  intros [= <- <-]. split.
  - destruct Hok as [Hc Hs Hau Hw Hn Hca Hk Hres]. split; try done; [by rewrite Hauto|]. cbn. intros r0 i e jwk k [= <-]. cbn.
    destruct (decide (i = issuer)) as [->|Hne].
    + rewrite lookup_insert_eq. intros [= <-]. cbn. eauto.
    + rewrite lookup_insert_ne by done. eauto.
  - intros k Hk. apply get_decoded_key_Ok in Hk as (jwk & Hin & _ & Hjwk). eauto.
Qed.

Lemma verify_resume_ok {C} `{Deserialize C} `{Web} v auto clock instant net j token issuer h j' (r : Result C AuthError) :
  jwt_ok v auto j -> (forall i, T (clock i)) -> network_ok net -> claims_issuer token issuer ->
  verify_resume clock instant net j token issuer h = Done (j', r) ->
  jwt_ok v auto j' /\ forall c, r = Ok c -> accepted (checks v) token c.
Proof.
  intros Hok HT Hnet Hi. unfold verify_resume.
  destruct (key_resolver j) as [kr|] eqn:Hr; [|by intros [= <- <-]].
  destruct (resolve_fetched net instant kr issuer h) as [r1 res] eqn:Hres.
  eapply resolve_fetched_ok in Hres as [Hok' HK]; [|done..].
  destruct res as [k|]; [|by intros [= <- <-]].
  apply verify_internal_ok; [done|done|]. right. eauto.
Qed.

Lemma reload_ok v fs key w j j' :
  jwt_ok v false j -> (forall k, Builder.decoding_key_of fs key = Done (Ok k) -> D k) ->
  Builder.reload_decoding_key fs key w j = Done j' -> jwt_ok v false j'.
Proof.
  intros Hok HD Hv. unfold Builder.reload_decoding_key in Hv. done_inv Hv. injection Hv as <-.
  destruct x as [k|]; [|done]. injection Hx0 as ->. destruct Hok. split; try done.
  cbn. intros k' [= <-]. auto.
Qed.

Lemma set_watchers_ok v l j : jwt_ok v false j -> jwt_ok v false (Builder.set_watchers l j).
Proof. by intros []. Qed.

(** The callback of a watcher changes the key only to one that is configured. *)
Lemma watcher_event_ok v auto fs key i e j :
  jwt_ok v auto j -> (forall k, Builder.decoding_key_of fs key = Done (Ok k) -> D k) ->
  jwt_ok v auto (Builder.watcher_event (Builder.reload_decoding_key fs key) i e j).
Proof.
  intros Hok HD. unfold Builder.watcher_event. destruct (watchers j !! i) as [w|] eqn:Hw; [|done].
  destruct auto; [by rewrite (ok_watchers _ _ _ Hok eq_refl) in Hw|].
  destruct (watch_turn_state (Builder.reload_decoding_key fs key) e w j)
    as [Hs|(p & l & s' & _ & _ & Hc & ->)].
  - destruct (watch_turn _ e w j) as [w' j'] eqn:Ht. cbn in Hs. subst j'. by apply set_watchers_ok.
  - apply set_watchers_ok. by eapply reload_ok.
Qed.
End verifier.
