(* ===== verification/AuthRun.v ===== *)
(** * A server behind the JWT middleware

    A server whose requests pass [ValidateJwt], as a run of the events it reacts
    to: requests that arrive, futures that are polled (in any order, each with
    its own answers of the network), and changes of the key file. *)
From Stdlib Require Import Ascii ZArith.
From stdpp Require Import base list gmap strings numbers option.
From S2P Require Import Prelude Text ReceiverBuffer AuthTypes KeyResolver FileWatcher Jwt JwtBuilder JwtMiddleware AuthProofs.
Open Scope string_scope.

Section run.
Context {JW : JsonWebToken} {JWL : JsonWebTokenLaws} {HD : Headers} {WB : Web} {NT : Notify}.
Context {C : Type} {DC : Deserialize C}.

(** The layer, and the futures of the requests so far. *)
Record Server : Type := mkServer {
  layer : ValidateJwt C;
  futures : list (JwtFuture C);
}.

Inductive AuthEvent : Type :=
| Arrives (clock : nat -> Z) (instant : N) (req : Request C)
| Polled (clock : nat -> Z) (instant : N) (net : option Network) (i : nat)
| FileChanged (fs : FileSystem) (watcher : nat) (e : WatchEvent).

Definition set_verifier (j : Jwt) (s : Server) : Server :=
  mkServer (mkValidateJwt j (served (layer s))) (futures s).

(** [b] is what the verifier was built from. *)
Definition auth_step (b : Builder.JwtBuilder Builder.WithPublicKey) (s : Server) (e : AuthEvent) : panics Server :=
  match e with
  | Arrives clock instant req =>
      '(l, f) ← call clock instant (layer s) req;
      Done (mkServer l (futures s ++ [f])%list)
  | Polled clock instant net i =>
      match futures s !! i with
      | Some f =>
          '(l, f, _) ← poll clock instant net (layer s) f;
          Done (mkServer l (<[i := f]> (futures s)))
      | None => Done s
      end
  | FileChanged fs i e =>
      match Builder.b_public_key b with
      | Some k => Done (set_verifier (Builder.watcher_event (Builder.reload_decoding_key fs k) i e (verifier (layer s))) s)
      | None => Done s
      end
  end.

Fixpoint auth_run (b : Builder.JwtBuilder Builder.WithPublicKey) (s : Server) (es : list AuthEvent) : panics Server :=
  match es with
  | [] => Done s
  | e :: es => s ← auth_step b s e; auth_run b s es
  end.

Definition fresh_server (j : Jwt) : Server := mkServer (validate_layer j) [].

(** ** The keys of a run *)
(** The keys the key file held when it was read. *)
Definition configured (fs : FileSystem) (b : Builder.JwtBuilder Builder.WithPublicKey) (es : list AuthEvent)
    (k : DecodingKey) : Prop :=
  exists key fs', Builder.b_public_key b = Some key /\ Builder.decoding_key_of fs' key = Done (Ok k) /\
    (fs' = fs \/ exists i e, FileChanged fs' i e ∈ es).
(** The keys found for an issuer through the network. *)
Definition published (es : list AuthEvent) (issuer : string) (k : DecodingKey) : Prop :=
  exists clock instant net i uri keys jwk, Polled clock instant (Some net) i ∈ es /\
    build_jwks_uri net issuer = Ok uri /\ fetch_jwks_from_uri net uri = Ok keys /\
    jwk ∈ keys /\ decoding_from_jwk jwk = Ok k.
(** The readings of the clock an event makes. *)
Definition reading_of (e : AuthEvent) (time : Z) : Prop :=
  match e with
  | Arrives clock _ _ | Polled clock _ _ _ => exists n, time = clock n
  | FileChanged _ _ _ => False
  end.

(** ** The invariant of the server *)
Section invariant.
Context (D : DecodingKey -> Prop) (K : string -> DecodingKey -> Prop) (T : Z -> Prop).
Context (b : Builder.JwtBuilder Builder.WithPublicKey) (v : Validation) (auto : bool).

Definition event_ok (e : AuthEvent) : Prop :=
  match e with
  | Arrives clock _ _ => forall i, T (clock i)
  | Polled clock _ net _ => (forall i, T (clock i)) /\ (auto = true -> forall n, net = Some n -> network_ok K n)
  | FileChanged fs _ _ => forall key k, Builder.b_public_key b = Some key ->
      Builder.decoding_key_of fs key = Done (Ok k) -> D k
  end.

Definition served_ok (r : Request C) : Prop :=
  exists req token c, r = insert_extension c req /\ typed_try_get req = Ok (Some token) /\
    accepted D K T (checks v) token c.
Definition pending_ok (f : JwtFuture C) : Prop :=
  match f with
  | WaitForKey req (NotStarted token) => typed_try_get req = Ok (Some token)
  | WaitForKey req (AwaitingKeys token issuer h) =>
      typed_try_get req = Ok (Some token) /\ claims_issuer token issuer /\ auto = true
  | _ => True
  end.
Record server_ok (s : Server) : Prop := {
  so_verifier : jwt_ok D K v auto (verifier (layer s));
  so_futures : Forall pending_ok (futures s);
}.
(** [l] has called the service with [news] more than [l0]. *)
Definition serves (l0 l : ValidateJwt C) : Prop :=
  exists news, served l = (served l0 ++ news)%list /\ Forall served_ok news.
Lemma serves_none l0 l : served l = served l0 -> serves l0 l.
Proof. intros Hl. exists []. by rewrite app_nil_r. Qed.

Lemma serve_ok l0 j req token (c : C) :
  jwt_ok D K v auto j -> typed_try_get req = Ok (Some token) -> accepted D K T (checks v) token c ->
  jwt_ok D K v auto (verifier (serve j l0 req c).1) /\ serves l0 (serve j l0 req c).1 /\ pending_ok (serve j l0 req c).2.
Proof.
  intros Hj Ht Ha. split; [done|]. split; [|done]. exists [insert_extension c req]. split; [done|].
  apply Forall_singleton. by exists req, token, c.
Qed.

Lemma call_ok s clock instant req l f :
  server_ok s -> (forall i, T (clock i)) -> call clock instant (layer s) req = Done (l, f) ->
  jwt_ok D K v auto (verifier l) /\ serves (layer s) l /\ pending_ok f.
Proof.
  intros Hs HT. unfold call. destruct (typed_try_get req) as [[token|]|] eqn:Ht;
    [|destruct Hs; intros [= <- <-]; split; [done|]; split; [by apply serves_none|done]..].
  intros Hc. done_inv Hc. destruct x as [j r].
  eapply try_verify_ok in Hx as [Hj Hr]; [|apply Hs|done]. destruct r as [c|].
  - injection Hc as <- <-. exact (serve_ok (layer s) j req token c Hj Ht (Hr c eq_refl)).
  - injection Hc as <- <-. split; [done|]. split; [by apply serves_none|done].
Qed.

Lemma verified_ok l0 j req token (r : Result C AuthError) l f p :
  jwt_ok D K v auto j -> typed_try_get req = Ok (Some token) ->
  (forall c, r = Ok c -> accepted D K T (checks v) token c) ->
  verified l0 req j r = (l, f, p) ->
  jwt_ok D K v auto (verifier l) /\ serves l0 l /\ pending_ok f.
Proof.
  intros Hj Ht Hr. unfold verified. destruct r as [c|].
  - intros [= <- <- _]. exact (serve_ok l0 j req token c Hj Ht (Hr c eq_refl)).
  - intros [= <- <- <-]. split; [done|]. split; [by apply serves_none|done].
Qed.

Lemma poll_ok s clock instant net f l f' p :
  server_ok s -> (forall i, T (clock i)) -> (auto = true -> forall n, net = Some n -> network_ok K n) -> pending_ok f ->
  poll clock instant net (layer s) f = Done (l, f', p) ->
  jwt_ok D K v auto (verifier l) /\ serves (layer s) l /\ pending_ok f'.
Proof.
  intros Hs HT Hn Hf Hp.
  assert (Hsame : forall g, pending_ok g ->
    jwt_ok D K v auto (verifier (layer s)) /\ serves (layer s) (layer s) /\ pending_ok g).
  { intros g Hg. split; [apply Hs|]. split; [by apply serves_none|done]. }
  destruct f as [|req|req [token|token issuer h|]]; cbn in Hp, Hf; try done.
  1, 2: injection Hp as <- <- _; by apply Hsame.
  - done_inv Hp. destruct x as [j vf]. eapply verify_claims_ok in Hx as [Hj Hv]; [|apply Hs|done].
    destruct vf as [r|t issuer h].
    + injection Hp as Hp. by eapply verified_ok in Hp.
    + destruct Hv as (-> & Hi & Ha). injection Hp as <- <- _. split; [done|]. split; [by apply serves_none|done].
  - destruct Hf as (Hf & Hi & Ha). destruct net as [n|]; [|injection Hp as <- <- _; by apply Hsame].
    done_inv Hp. destruct x as [j r]. injection Hp as Hp.
    eapply verify_resume_ok in Hx as [Hj Hr]; [|apply Hs|done|by apply Hn|done]. by eapply verified_ok in Hp.
Qed.

Lemma auth_step_ok s e s' : server_ok s -> event_ok e -> auth_step b s e = Done s' ->
  server_ok s' /\ serves (layer s) (layer s').
Proof.
  intros Hs He Hst. destruct e as [clock instant req|clock instant net i|fs i e]; cbn in Hst, He.
  - done_inv Hst. destruct x as [l f]. injection Hst as <-. eapply call_ok in Hx as (Hj & Hsv & Hf); [|done..].
    split; [|done]. split; [done|]. cbn. apply Forall_app. split; [apply Hs|by apply Forall_singleton].
  - destruct (futures s !! i) as [f|] eqn:Hi; [|injection Hst as <-; split; [done|by apply serves_none]].
    done_inv Hst. destruct x as [[l f'] p]. injection Hst as <-. destruct He as [HT Hn].
    eapply poll_ok in Hx as (Hj & Hsv & Hf); [|done..|by eapply Forall_lookup_1; [apply (so_futures _ Hs)|]].
    split; [|done]. split; [done|]. cbn. apply Forall_insert; [apply (so_futures _ Hs)|done].
  - destruct (Builder.b_public_key b) as [key|] eqn:Hk; [|injection Hst as <-; split; [done|by apply serves_none]].
    injection Hst as <-. destruct Hs. split; [|by apply serves_none]. split; [|done]. cbn.
    apply watcher_event_ok; [done|]. eauto.
Qed.

Lemma auth_run_ok es s s' : server_ok s -> Forall event_ok es -> auth_run b s es = Done s' -> server_ok s'.
Proof.
  revert s. induction es as [|e es IH]; intros s Hs He Hr; simpl in Hr.
  { by injection Hr as <-. }
  done_inv Hr. apply Forall_cons_iff in He as [He Hes]. eapply IH, Hr; [|done]. by eapply auth_step_ok.
Qed.
End invariant.

Lemma auth_run_app b es1 es2 s s' :
  auth_run b s (es1 ++ es2)%list = Done s' -> exists s1, auth_run b s es1 = Done s1 /\ auth_run b s1 es2 = Done s'.
Proof.
  revert s. induction es1 as [|e es1 IH]; intros s Hr; cbn in *; [by exists s|].
  destruct (auth_step b s e) as [s1|]; [|done]. by apply IH.
Qed.

(** ** A verifier that was just built *)
Lemma build_validation_props {S} (b : Builder.JwtBuilder S) :
  validate_signature (Builder.build_validation b) = true /\
  validate_exp (checks (Builder.build_validation b)) = true /\
  leeway (checks (Builder.build_validation b)) = 60%N /\
  algorithms (Builder.build_validation b) = [Builder.b_algorithm b].
Proof.
  unfold Builder.build_validation.
  destruct (Builder.b_audience b), (Builder.b_issuer b), (Builder.b_required_claims b); done.
Qed.

Lemma build_verifier_ok D K fs b j :
  Builder.build_verifier fs b = Done (Ok j) ->
  (forall key k, Builder.b_public_key b = Some key -> Builder.decoding_key_of fs key = Done (Ok k) -> D k) ->
  jwt_ok D K (Builder.build_validation b) (Builder.b_auto_resolve_keys b) j.
Proof.
  intros Hb HDk. unfold Builder.build_verifier in Hb.
  destruct (build_validation_props b) as (Hsig & _).
  destruct (Builder.b_auto_resolve_keys b).
  { injection Hb as <-. split; try done. cbn. intros r i e jwk k [= <-]. cbn. by rewrite lookup_empty. }
  done_inv Hb. apply expect_Done in Hx. destruct x0 as [dk|]; [|done].
  assert (Hok : forall l, jwt_ok D K (Builder.build_validation b) false
    (Builder.set_watchers l (with_decoding_key (Jwt_new (Builder.build_claims b) (Builder.b_token_duration b) (Builder.build_validation b)) dk))).
  { intros l. split; try done. cbn. intros k [= <-]. eauto. }
  destruct (key x) as [|path].
  - injection Hb as <-. apply (Hok []).
  - done_inv Hb. injection Hb as <-. unfold with_watcher in Hx2. injection Hx2 as <-. apply (Hok [_]).
Qed.

Lemma start_ok D K fs b j :
  Builder.build_verifier fs b = Done (Ok j) ->
  (forall key k, Builder.b_public_key b = Some key -> Builder.decoding_key_of fs key = Done (Ok k) -> D k) ->
  server_ok D K (Builder.build_validation b) (Builder.b_auto_resolve_keys b) (fresh_server j).
Proof. intros Hb HDk. split; [by eapply build_verifier_ok|by constructor..]. Qed.

(** An event of a run is covered by the keys of the run and its own readings. *)
Lemma run_event_ok fs b es e (T : Z -> Prop) :
  e ∈ es -> (forall time, reading_of e time -> T time) ->
  event_ok (configured fs b es) (published es) T b (Builder.b_auto_resolve_keys b) e.
Proof.
  intros He HT. destruct e as [clock instant req|clock instant net i|fs' i e]; cbn in *.
  - intros i. apply HT. by exists i.
  - split; [intros n; apply HT; by exists n|]. intros _ n -> issuer uri keys jwk k Hu Hk Hin Hj.
    exists clock, instant, n, i, uri, keys, jwk. done.
  - intros key k Hk Hd. exists key, fs'. eauto 6.
Qed.

(** After [es], as part of a run of [es']. *)
Lemma run_server_ok fs b j es es' s :
  Builder.build_verifier fs b = Done (Ok j) -> auth_run b (fresh_server j) es = Done s -> (forall e, e ∈ es -> e ∈ es') ->
  server_ok (configured fs b es') (published es') (Builder.build_validation b) (Builder.b_auto_resolve_keys b) s.
Proof.
  intros Hb Hr Hsub. eapply (auth_run_ok _ _ (fun _ => True)), Hr.
  - eapply start_ok; [done|]. intros key k Hk Hd. exists key, fs. auto.
  - apply Forall_forall. intros e He. apply run_event_ok; [|done]. by apply Hsub, list_elem_of_In.
Qed.

(** The event in which the [n]-th request was handed to the service. *)
Lemma served_in fs b j n r : forall es s,
  Builder.build_verifier fs b = Done (Ok j) -> auth_run b (fresh_server j) es = Done s ->
  served (layer s) !! n = Some r ->
  exists es1 e es2 s1 s2, es = (es1 ++ e :: es2)%list /\ auth_run b (fresh_server j) es1 = Done s1 /\
    auth_step b s1 e = Done s2 /\ length (served (layer s1)) <= n < length (served (layer s2)) /\
    served_ok (configured fs b (es1 ++ [e])) (published (es1 ++ [e])) (reading_of e) (Builder.build_validation b) r.
Proof.
  intros es. induction es as [|e es IH] using rev_ind; intros s Hb Hr Hn.
  { injection Hr as <-. cbn in Hn; by rewrite lookup_nil in Hn. }
  apply auth_run_app in Hr as (s1&Hr1&Hr). cbn in Hr. destruct (auth_step b s1 e) as [s2|] eqn:Hst; [|done].
  injection Hr as ->.
  pose proof (run_server_ok fs b j es (es ++ [e]) s1 Hb Hr1 ltac:(intros x Hx; apply elem_of_app; by left)) as Hok.
  destruct (auth_step_ok _ _ (reading_of e) b _ _ s1 e s Hok) as [_ (news&Hnews&Hall)]; [|exact Hst|].
  { apply run_event_ok; [|done]. apply elem_of_app. right. by left. }
  destruct (decide (n < length (served (layer s1)))) as [Hlt|Hge].
  - rewrite Hnews, lookup_app_l in Hn by done.
    destruct (IH s1 Hb Hr1 Hn) as (es1&e'&es2&s1'&s2'&->&?&?&?&?). exists es1, e', (es2 ++ [e])%list, s1', s2'.
    split; [by rewrite <- app_assoc|done].
  - exists es, e, [], s1, s. do 3 (split; [done|]). split.
    + apply lookup_lt_Some in Hn. lia.
    + rewrite Hnews, lookup_app_r in Hn by lia. exact (Forall_lookup_1 _ _ _ _ Hall Hn).
Qed.
End run.
