(* ===== verification/AuthDemo.v ===== *)
(** * A small token library

    An instance of the classes [JsonWebToken], [Headers], [Web] and [Notify] with
    their laws, for evaluation on concrete inputs. Its tokens are
    [h.<exp>.<secret>], for claims that have just the three times of a token valid
    for an hour. *)
From Stdlib Require Import Ascii ZArith.
From stdpp Require Import base list gmap strings numbers option pretty.
From S2P Require Import Prelude Text Provider ReceiverBuffer AuthTypes KeyResolver FileWatcher Jwt JwtBuilder JwtMiddleware AuthConfig.
Open Scope string_scope.

Definition demo_header : Header := mkHeader HS256 None.
Definition demo_claims (e : N) : ClaimSet :=
  [("exp", JU64 e); ("iat", JU64 (e - 3600)); ("nbf", JU64 (e - 3600))].

Definition demo_split (t : string) : option (N * string) :=
  match split "." t with
  | ["h"; p; k] => match parse_u64 p with Ok e => Some (e, k) | Err _ => None end
  | _ => None
  end.
Definition demo_parts (t : string) : option (Header * ClaimSet) :=
  '(e, _) ← demo_split t; Some (demo_header, demo_claims e).
Definition demo_signed (k : string) (a : Algorithm) (t : string) : bool :=
  match demo_split t with Some (_, k') => bool_decide (k' = k) | None => false end.

Definition demo_present (o : ClaimSet) (k : string) : bool :=
  match field_values k o with [] => false | _ => true end.
Definition demo_accepts (now : Z) (chk : ClaimChecks) (o : ClaimSet) : bool :=
  forallb (demo_present o) (required_spec_claims chk) &&
  (match field_values "exp" o with
   | [JU64 e] => negb (validate_exp chk) || bool_decide (now <= Z.of_N e + Z.of_N (leeway chk))%Z
   | _ => false end) &&
  (match expected_aud chk, field_values "aud" o with
   | Some l, [JString a] => bool_decide (a ∈ l) | None, [] => true | _, _ => false end) &&
  (match expected_iss chk, field_values "iss" o with
   | Some l, [JString i] => bool_decide (i ∈ l) | None, _ => true | _, _ => false end).

Definition demo_decode (C : Type) (D : Deserialize C) (now : Z) (t k : string) (v : Validation)
    : Result (Header * C) unit :=
  match demo_parts t with
  | None => Err tt
  | Some (h, o) =>
      match from_json o with
      | None => Err tt
      | Some c =>
          if demo_accepts now (checks v) o &&
             (negb (validate_signature v) || demo_signed k (alg h) t && bool_decide (alg h ∈ algorithms v))
          then Ok (h, c) else Err tt
      end
  end.

(** The expiry of claims the library can encode. *)
Definition demo_shape (o : ClaimSet) : option N :=
  match o with
  | [(a, JU64 e); (b, JU64 i); (c, JU64 n)] =>
      if decide (a = "exp" /\ b = "iat" /\ c = "nbf" /\ i = e - 3600 /\ n = e - 3600)%N then Some e else None
  | _ => None
  end.
Definition demo_encode (h : Header) (o : ClaimSet) (k : string) : Result string unit :=
  match demo_shape o with
  | Some e =>
      if decide (alg h = HS256 /\ kid h = None /\ (e <= u64_max)%N /\ string_in "." k = false /\ string_in " " k = false)
      then Ok ("h." +:+ fmt_dec e +:+ "." +:+ k) else Err tt
  | None => Err tt
  end.

Definition demo_jwt : JsonWebToken := {|
  EncodingKey := string; DecodingKey := string; JwtError := unit;
  is_expired_signature := fun _ => false; JwtError_fmt := fun _ => "error";
  Header_debug := fun _ => "header"; KeyAlgorithm_debug := fun _ => "algorithm";
  encoding_from_secret := fun s => s; encoding_from_pem := fun _ _ => Err tt;
  decoding_from_secret := fun s => s; decoding_from_pem := fun _ _ => Err tt;
  decoding_from_jwk := fun k => Ok (key_parameters k);
  encode := demo_encode;
  decode_header := fun t => match demo_parts t with Some (h, _) => Ok h | None => Err tt end;
  decode := demo_decode;
|}.

Lemma dot_free n : string_in "." (fmt_dec n) = false.
Proof. apply digits_in; [apply fmt_dec_digits|done]. Qed.
Lemma demo_split_encoded e k :
  (e <= u64_max)%N -> string_in "." k = false ->
  split "." ("h." +:+ fmt_dec e +:+ "." +:+ k) = ["h"; fmt_dec e; k].
Proof.
  intros He Hk. change ("h." +:+ fmt_dec e +:+ "." +:+ k) with ("h" +:+ String "." (fmt_dec e +:+ "." +:+ k)).
  rewrite split_sep by done. change ("." +:+ k) with (String "." k).
  rewrite split_sep by apply dot_free. by rewrite split_none.
Qed.

Lemma demo_encode_Ok h o k t :
  demo_encode h o k = Ok t ->
  exists e, (e <= u64_max)%N /\ string_in "." k = false /\ string_in " " k = false /\ h = demo_header /\
    o = demo_claims e /\ t = "h." +:+ fmt_dec e +:+ "." +:+ k.
Proof.
  unfold demo_encode. destruct (demo_shape o) as [e|] eqn:Ho; [|done].
  case_decide as Hc; [|done]. intros [= <-]. destruct h as [a kd]. cbn in Hc. destruct Hc as (-> & -> & He & Hd & Hs).
  exists e. split; [done|]. split; [done|]. split; [done|]. split; [done|]. split; [|done].
  unfold demo_shape in Ho. repeat split_match_in Ho; simplify_eq/=.
  by match goal with Hx : _ /\ _ /\ _ /\ _ /\ _ |- _ => destruct Hx as (-> & -> & -> & -> & ->) end.
Qed.

Lemma demo_accepts_not_expired now chk o e :
  demo_accepts now chk o = true -> validate_exp chk = true -> field_values "exp" o = [JU64 e] ->
  (now <= Z.of_N e + Z.of_N (leeway chk))%Z.
Proof.
  intros Ha Hv He. unfold demo_accepts in Ha. rewrite He, Hv in Ha. cbn in Ha.
  apply andb_prop in Ha as [Ha _]. apply andb_prop in Ha as [Ha _]. apply andb_prop in Ha as [_ Ha].
  by apply bool_decide_eq_true in Ha.
Qed.

Lemma demo_accepts_standard now chk o e :
  (forall k, k ∈ required_spec_claims chk -> field_values k o <> []) ->
  field_values "exp" o = [JU64 e] -> (now <= Z.of_N e)%Z ->
  match expected_aud chk, field_values "aud" o with
  | Some l, [JString a] => a ∈ l | None, [] => True | _, _ => False end ->
  match expected_iss chk, field_values "iss" o with
  | Some l, [JString i] => i ∈ l | None, _ => True | _, _ => False end ->
  demo_accepts now chk o = true.
Proof.
  intros Hr He Hn Ha Hi. unfold demo_accepts. rewrite He. apply andb_true_intro; split; [apply andb_true_intro; split; [apply andb_true_intro; split|]|].
  - apply forallb_forall. intros k Hk%list_elem_of_In. unfold demo_present. specialize (Hr k Hk). by destruct (field_values k o).
  - rewrite bool_decide_true by lia. apply orb_true_r.
  - destruct (expected_aud chk), (field_values "aud" o) as [|[] []]; try done. by apply bool_decide_eq_true.
  - destruct (expected_iss chk), (field_values "iss" o) as [|[] []]; try done. by apply bool_decide_eq_true.
Qed.

Definition demo_jwt_laws : @JsonWebTokenLaws demo_jwt.
Proof.
  refine {| token_parts := demo_parts; signature_valid := demo_signed : @DecodingKey demo_jwt -> _;
            claims_accepted := demo_accepts; key_pair := (@eq string) : @EncodingKey demo_jwt -> @DecodingKey demo_jwt -> Prop;
            accepted_not_expired := demo_accepts_not_expired; accepted_standard := demo_accepts_standard |}.
  - intros C D now t k v h c. cbn. unfold demo_decode. destruct (demo_parts t) as [[h' o]|] eqn:Hp; [|done].
    destruct (from_json o) as [c'|] eqn:Hj; [|done]. destruct (_ && _) eqn:Ha; [|done]. intros [= <- <-].
    apply andb_prop in Ha as [Ha Hs]. split; [by exists o|]. intros Hv. rewrite Hv in Hs. cbn in Hs.
    apply andb_prop in Hs as [Hs Hin]. by apply bool_decide_eq_true in Hin.
  - intros C D now t k v h o c Hp Hj Ha Hs. cbn. unfold demo_decode. rewrite Hp, Hj, Ha. cbn.
    destruct (validate_signature v); [|done]. destruct (Hs eq_refl) as [Hs' ->]. cbn in Hs'. rewrite Hs'.
    cbn. rewrite bool_decide_true by (apply list_elem_of_singleton; done). done.
  - intros t h o Hp. cbn. by rewrite Hp.
  - intros h o k t (e & He & Hd & _ & -> & -> & ->)%demo_encode_Ok. unfold demo_parts, demo_split.
    rewrite demo_split_encoded by done. by rewrite parse_u64_fmt.
  - intros h o k t (e & He & _ & Hs & _ & _ & ->)%demo_encode_Ok. rewrite !string_in_app, Hs.
    rewrite (digits_in " " (fmt_dec e)); [done|apply fmt_dec_digits|done].
  - intros h o k t k' (e & He & Hd & _ & -> & -> & ->)%demo_encode_Ok <-. unfold demo_signed, demo_split.
    rewrite demo_split_encoded by done. rewrite parse_u64_fmt by done. by apply bool_decide_eq_true.
  - done.
Defined.

Definition demo_headers : Headers := {|
  HeaderValue := string;
  HeaderValue_try_from := fun s => Ok s;
  decode_bearer := fun l => match l with
    | v :: _ => match strip_prefix "Bearer " v with Some t => Ok t | None => Err tt end
    | [] => Err tt
    end;
|}.
Lemma demo_headers_laws : @HeadersLaws demo_headers.
Proof.
  split. unfold HeaderValue_try_from, decode_bearer, demo_headers. intros t v _ Hv. injection Hv as <-.
  by rewrite (proj2 (strip_prefix_Some "Bearer " ("Bearer " +:+ t) t)).
Qed.

Definition demo_web : Web := {|
  Url := string; Url_parse := fun s => Ok s; path := fun s => s; set_path := fun p _ => p;
  Url_to_string := fun s => s; parse_json := fun _ => None;
  parse_jwks := fun s => Ok [mkJwk None (Some (KeySign HS256)) s]; status_fmt := fun n => fmt_dec n;
|}.
Definition demo_notify : Notify := {| recommended_watcher := Ok tt; watch := fun _ => Ok tt |}.
Definition demo_yaml : YamlToJson := {| to_value := fun v => match v with Str s => Some (JString s) | _ => None end |}.

(** A request with a bearer token. *)
Definition demo_request (value : string) : @Request demo_headers (gmap string JsonValue) :=
  @mkRequest demo_headers _ {[AUTHORIZATION := [value]]} None "body".
Definition demo_key : Key := mkKey HS256 (Pem "secret").
