(* ===== verification/AuthClaims.v ===== *)
(** * Authentication: theorems *)
From Stdlib Require Import Ascii ZArith.
From stdpp Require Import base list gmap strings numbers option.
From S2P Require Import Prelude Text Provider ReceiverBuffer AuthTypes KeyResolver FileWatcher Jwt JwtBuilder JwtMiddleware AuthConfig AuthProofs AuthRun AuthDemo.
Open Scope string_scope.

Section claims.
Context {JW : JsonWebToken} {JWL : JsonWebTokenLaws} {HD : Headers} {WB : Web} {NT : Notify}.

(** C9: A request reaches the service behind the JWT middleware only with a
    token that is genuine. Take any verifier the builder makes and any sequence
    of requests, polls (whatever the network answers) and key-file changes. Each
    request the inner service was called with carried a bearer token and now
    carries that token's claims; the token's signature is valid for a key that
    the key file held when it was read before, or that the token's own issuer had
    published through the network; and at a reading of the clock made in the very
    step that handed this request over, the claims passed the configured checks
    and the token was not expired by more than the library's leeway of 60 seconds,
    whether or not it was in the cache. *)
Theorem served_requests_genuine {C} `{Deserialize C} fs b j es (s : Server (C := C)) n r :
  Builder.build_verifier fs b = Done (Ok j) ->
  auth_run b (fresh_server j) es = Done s ->
  served (layer s) !! n = Some r ->
  exists es1 e es2 s1 s2, es = (es1 ++ e :: es2)%list /\ auth_run b (fresh_server j) es1 = Done s1 /\
    auth_step b s1 e = Done s2 /\ length (served (layer s1)) <= n < length (served (layer s2)) /\
    exists req token c k h o time exp,
    r = insert_extension c req /\ typed_try_get req = Ok (Some token) /\
    token_parts token = Some (h, o) /\ from_json o = Some c /\
    signature_valid k (alg h) token = true /\
    (configured fs b (es1 ++ [e]) k \/ exists issuer, claims_issuer token issuer /\ published (es1 ++ [e]) issuer k) /\
    reading_of e time /\ claims_accepted time (checks (Builder.build_validation b)) o = true /\
    field_values "exp" o = [JU64 exp] /\ (time <= Z.of_N exp + 60)%Z.
Proof.
  intros Hb Hr Hin. destruct (served_in fs b j n r es s Hb Hr Hin) as (es1&e&es2&s1&s2&Hes&Hr1&Hst&Hlen&Hok).
  exists es1, e, es2, s1, s2. do 4 (split; [done|]).
  destruct Hok as (req & token & c & -> & Ht & (k & h & o & Ho & Hk & Hsig) & Ha).
  destruct Ha as (h' & o' & time & exp & Ho' & Hj & HT & Hacc & He).
  rewrite Ho in Ho'. injection Ho' as <- <-. exists req, token, c, k, h, o, time, exp.
  destruct (build_validation_props b) as (_ & Hve & Hlee & _).
  repeat (split; [done|]). pose proof (accepted_not_expired _ _ _ _ Hacc Hve He) as Hle.
  by rewrite Hlee in Hle.
Qed.

(** What a verifier without a cache accepts at a time. *)
Definition verifies {C} `{Deserialize C} (v : Validation) (k : DecodingKey) (time : Z) (token : string) (c : C) : Prop :=
  exists h o e, token_parts token = Some (h, o) /\ from_json o = Some c /\
    signature_valid k (alg h) token = true /\ claims_accepted time (checks v) o = true /\
    field_values "exp" o = [JU64 e].

Lemma exp_from_json o e : field_values "exp" o = [JU64 e] -> from_json (C := ExpClaim) o = Some (mkExpClaim e).
Proof. intros He. cbn. unfold ExpClaim_from_json, req_field. by rewrite He. Qed.

Lemma verify_internal_complete {C} `{Deserialize C} v k clock j token a (c : C) :
  validation j = v -> validate_signature v = true -> algorithms v = [a] ->
  (forall i, verifies v k (clock i) token c) ->
  exists j', verify_internal clock j token k = Done (j', Ok c).
Proof.
  intros Hv Hs Ha Hver. destruct (Hver 0) as (h & o & e & Ho & Hj & Hsig & Hacc & He).
  destruct (Hver 1) as (h1 & o1 & e1 & Ho1 & Hj1 & _ & Hacc1 & _). rewrite Ho in Ho1. injection Ho1 as <- <-.
  unfold verify_internal, get_validation. rewrite (decode_header_parts _ _ _ Ho), Hv, Ha. cbn [mbind panics_bind].
  erewrite decode_complete; [|exact Ho|exact Hj|exact Hacc|by intros _].
  erewrite decode_complete; [|exact Ho|by apply exp_from_json|exact Hacc1|done]. eauto.
Qed.

(** A verifier whose only key has ever been [k] accepts what [verifies] says,
    whatever its cache holds. *)
Lemma try_verify_verifies {C} `{Deserialize C} v a k j time instant token (c : C) :
  jwt_ok (eq k) (fun _ _ => False) v false j -> algorithms v = [a] ->
  (exists j', try_verify_claims (fun _ => time) instant j token = Done (j', Ok c)) <->
  verifies v k time token c.
Proof.
  intros Hok Ha. split.
  - intros (j' & Hv). eapply (try_verify_ok _ _ (eq time)) in Hv as [_ Hacc]; [|done|done].
    destruct (Hacc c eq_refl) as [(k' & h & o & Ho & Hor & Hsig) (h' & o' & t & e & Ho' & Hj & <- & Hca & He)].
    rewrite Ho in Ho'. injection Ho' as <- <-. destruct Hor as [<-|(i & _ & [])]. exists h, o, e. done.
  - intros Hver. unfold try_verify_claims.
    destruct (verify_internal_complete v k (fun _ => time) j token a c) as (j' & Hvi);
      [apply Hok|apply Hok|done|done|].
    destruct Hver as (h & o & e & Ho & Hj & Hsig & Hca & He).
    assert (Hc : get_cached_claims (C := C) (fun _ => time) j token = Done (Some c) \/
                 get_cached_claims (C := C) (fun _ => time) j token = Done None).
    { unfold get_cached_claims. destruct (get _ _ _); [|by right]. left.
      unfold first_algorithm, get_validation. rewrite (ok_validation _ _ _ _ _ Hok), Ha. cbn.
      erewrite decode_complete; [done|exact Ho|exact Hj|exact Hca|done]. }
    destruct Hc as [->| ->]; cbn; [eauto|]. unfold get_decoding_key.
    destruct (decoding_key j) as [dk|] eqn:Hdk.
    + rewrite <- (ok_key _ _ _ _ _ Hok _ Hdk). eauto.
    + by apply (ok_auto _ _ _ _ _ Hok) in Hdk.
Qed.

(** C15: The token cache is invisible. A verifier built with an inline key, after
    any sequence of requests and polls, accepts at any time exactly the tokens,
    with exactly the claims, that a fresh verifier with an empty cache accepts at
    that time: a cached token is neither accepted longer nor with other claims
    than full verification gives. *)
Theorem cache_transparent {C} `{Deserialize C} fs b j es (s : Server (C := C)) pem time instant token (c : C) :
  Builder.build_verifier fs b = Done (Ok j) ->
  Builder.b_auto_resolve_keys b = false ->
  key <$> Builder.b_public_key b = Some (Pem pem) ->
  auth_run b (fresh_server j) es = Done s ->
  (exists j', try_verify_claims (fun _ => time) instant (verifier (layer s)) token = Done (j', Ok c)) <->
  (exists j', try_verify_claims (fun _ => time) instant j token = Done (j', Ok c)).
Proof.
  intros Hb Hauto Hpem Hr. apply fmap_Some in Hpem as (pk & Hpk & Hpem).
  assert (Hsame : forall fs', Builder.decoding_key_of fs' pk = Builder.decoding_key_of fs pk).
  { intros fs'. unfold Builder.decoding_key_of, Builder.resolve_key. by rewrite <- Hpem. }
  assert (Hk : exists k, Builder.decoding_key_of fs pk = Done (Ok k)).
  { unfold Builder.build_verifier in Hb. rewrite Hauto, Hpk in Hb. done_inv Hb. injection Hx as <-.
    destruct x0 as [k|]; [|done]. eauto. }
  destruct Hk as (k & Hk).
  assert (Hst : server_ok (eq k) (fun _ _ => False) (Builder.build_validation b) false (fresh_server (C := C) j)).
  { rewrite <- Hauto. eapply start_ok; [done|]. intros key k'. rewrite Hpk. intros [= <-]. rewrite Hk. by intros [= <-]. }
  assert (Hev : Forall (event_ok (eq k) (fun _ _ => False) (fun _ => True) b false) es).
  { apply Forall_forall. intros [| |fs' i e] _; cbn; [done|done|].
    intros key k'. rewrite Hpk. intros [= <-]. rewrite Hsame, Hk. by intros [= <-]. }
  pose proof (auth_run_ok _ _ _ _ _ _ _ _ _ Hst Hev Hr) as Hs.
  destruct (build_validation_props b) as (_ & _ & _ & Ha).
  rewrite !(try_verify_verifies (Builder.build_validation b) (Builder.b_algorithm b) k); [done|apply Hst|done|apply Hs|done].
Qed.

(** ** A change of the key *)
Lemma verify_internal_caches {C} `{Deserialize C} clock j token k j' (c : C) :
  verify_internal clock j token k = Done (j', Ok c) -> is_Some (token_cache j' !! token).
Proof.
  unfold verify_internal. destruct (decode_header token); [|done]. intros Hv. done_inv Hv.
  destruct (decode (clock 0) _ _ _) as [[? ?]|]; [|done]. destruct (decode (clock 1) _ _ _) as [[? ?]|]; [|done].
  injection Hv as <- <-. cbn. unfold store. rewrite lookup_insert_eq. eauto.
Qed.

Lemma try_verify_caches {C} `{Deserialize C} clock instant j token j' (c : C) :
  try_verify_claims clock instant j token = Done (j', Ok c) -> is_Some (token_cache j' !! token).
Proof.
  unfold try_verify_claims. intros Hv. done_inv Hv. destruct x as [c'|].
  - injection Hv as <- <-. unfold get_cached_claims in Hx.
    destruct (get _ _ _) eqn:Hg; [|done]. apply get_Some in Hg as (e & He & _). eauto.
  - destruct (get_decoding_key _ _ _ _); [|done]. by apply verify_internal_caches in Hv.
Qed.

(** A new key does not revoke the tokens of the old one. Take a verifier with
    a key file, after any run, that accepts a token; let the file then be
    replaced and the watcher's callback load the new key. Until the token
    expires, and as long as its claims pass the checks, it is still accepted with
    the same claims, whether or not its signature is valid for the new key: the
    cache answers before any key is looked at. *)
Theorem cached_token_outlives_key {C} `{Deserialize C} fs b j es (s : Server (C := C))
    clock instant token (c : C) j1 fs' pk file j2 h o e time instant' :
  Builder.build_verifier fs b = Done (Ok j) ->
  auth_run b (fresh_server j) es = Done s ->
  try_verify_claims clock instant (verifier (layer s)) token = Done (j1, Ok c) ->
  Builder.reload_decoding_key fs' pk file j1 = Done j2 ->
  token_parts token = Some (h, o) -> length (split "." token) = 3 ->
  field_values "exp" o = [JU64 e] -> (unix_secs time < e)%N ->
  claims_accepted time (checks (Builder.build_validation b)) o = true ->
  try_verify_claims (fun _ => time) instant' j2 token = Done (j2, Ok c).
Proof.
  intros Hb Hr Hv Hre Ho Hlen He Ht Hacc. pose proof (run_server_ok fs b j es es s Hb Hr (fun _ H => H)) as Hs.
  pose proof (try_verify_caches _ _ _ _ _ _ Hv) as [entry Hentry].
  eapply (try_verify_ok _ _ (fun _ => True)) in Hv as [Hok Hc]; [|apply Hs|done].
  destruct (Hc c eq_refl) as [_ (h1 & o1 & t1 & e1 & Ho1 & Hj & _)]. rewrite Ho in Ho1. injection Ho1 as <- <-.
  destruct (ok_cache _ _ _ _ _ Hok _ _ Hentry) as (_ & h2 & o2 & Ho2 & He2). rewrite Ho in Ho2. injection Ho2 as <- <-.
  rewrite He in He2. injection He2 as ->.
  unfold Builder.reload_decoding_key in Hre. done_inv Hre. injection Hre as <-.
  unfold try_verify_claims, get_cached_claims, get. cbn [set_decoding_key token_cache]. rewrite Hentry.
  rewrite decide_True by done. destruct (split "." token) as [|p1 [|p2 [|p3 [|]]]]; try done.
  unfold first_algorithm, get_validation. cbn [set_decoding_key validation]. rewrite (ok_validation _ _ _ _ _ Hok).
  destruct (build_validation_props b) as (_ & _ & _ & ->). cbn.
  erewrite decode_complete; [done|exact Ho|exact Hj|exact Hacc|done].
Qed.

(** ** From a client to a server *)
Lemma try_verify_fresh {C} `{Deserialize C} v a k clock instant j token (c : C) :
  token_cache j = ∅ -> decoding_key j = Some k -> validation j = v -> validate_signature v = true ->
  algorithms v = [a] -> (forall i, verifies v k (clock i) token c) ->
  exists j', try_verify_claims clock instant j token = Done (j', Ok c).
Proof.
  intros Hcache Hk Hv Hs Ha Hver. unfold try_verify_claims, get_cached_claims, get.
  rewrite Hcache, lookup_empty. cbn. unfold get_decoding_key. rewrite Hk.
  apply (verify_internal_complete v k _ j token a c); try done.
Qed.

(** The claims a builder puts into a token pass the checks of a builder with the
    same issuer and audience that requires no more than [exp]. *)
Lemma built_claims_accepted `{HashIter} {S} (b' : Builder.JwtBuilder S) c time :
  Builder.b_issuer b' = iss c -> Builder.b_audience b' = aud c -> Builder.b_required_claims b' = [] ->
  (forall k, k ∈ registered -> custom_claims c !! k = None) ->
  (time <= Z.of_N (exp c))%Z ->
  claims_accepted time (checks (Builder.build_validation b')) (StandardClaims_to_json c) = true.
Proof.
  intros Hi Ha Hr Hcust Ht.
  assert (Hin : "exp" ∈ registered /\ "aud" ∈ registered /\ "iss" ∈ registered) by (unfold registered; repeat split; repeat constructor).
  destruct Hin as (Hie & Hia & Hii).
  assert (Hexp := field_values_to_json c Hcust "exp" Hie). assert (Haud := field_values_to_json c Hcust "aud" Hia).
  assert (Hiss := field_values_to_json c Hcust "iss" Hii). cbn in Hexp, Haud, Hiss.
  unfold Builder.build_validation. rewrite Hr, Hi, Ha.
  apply (accepted_standard _ _ _ (exp c)); rewrite ?Haud, ?Hiss; try done.
  - intros k Hk. assert (k = "exp") as ->; [|by rewrite Hexp].
    destruct (aud c), (iss c); cbn in Hk; by apply list_elem_of_singleton in Hk.
  - destruct (aud c), (iss c); cbn; try done; apply list_elem_of_singleton; done.
  - destruct (aud c), (iss c); cbn; try done; apply list_elem_of_singleton; done.
Qed.

(** The algorithms whose key is a shared secret. *)
Definition hmac (a : Algorithm) : bool :=
  match a with HS256 | HS384 | HS512 => true | _ => false end.

Section config.
Context {YJ : YamlToJson}.

(** A client that signs with a secret: the claims of its tokens and their
    lifetime. *)
Definition client_signer (cl : JwtAuth.Claims) (custom : gmap string JsonValue) (a : Algorithm) (pem : string) : Jwt :=
  with_encoding_key
    (Jwt_new (mkStandardClaims (JwtAuth.issuer cl) (JwtAuth.subject cl) (JwtAuth.audience cl) 0 None None None custom)
       (from_secs 3600)
       (Builder.build_validation (Builder.custom_claims custom
          (Builder.private_key (mkKey a (Pem pem)) (JwtAuth.claims_builder cl)))))
    (encoding_from_secret pem).

Lemma claims_builder_fields cl :
  Builder.b_issuer (JwtAuth.claims_builder cl) = JwtAuth.issuer cl /\
  Builder.b_audience (JwtAuth.claims_builder cl) = JwtAuth.audience cl /\
  Builder.b_subject (JwtAuth.claims_builder cl) = JwtAuth.subject cl /\
  Builder.b_required_claims (JwtAuth.claims_builder cl) = [] /\
  Builder.b_token_duration (JwtAuth.claims_builder cl) = from_secs 3600 /\
  Builder.b_auto_resolve_keys (JwtAuth.claims_builder cl) = false.
Proof. destruct cl as [[] [] [] ?]; repeat split. Qed.

Lemma client_layer_hmac fs cl d a pem custom :
  hmac a = true -> JwtAuth.config_custom_claims (JwtAuth.mkConfig cl d (JwtAuth.Encoding (mkKey a (Pem pem)))) = Done custom ->
  JwtAuth.jwt_client_layer fs (JwtAuth.mkConfig cl d (JwtAuth.Encoding (mkKey a (Pem pem)))) =
    Done (Ok (mkAddJwtLayer (mkSignerJwt (client_signer cl custom a pem)) (as_secs d))).
Proof.
  intros Ha Hc. unfold JwtAuth.jwt_client_layer. cbn [JwtAuth.key JwtAuth.claims JwtAuth.duration]. rewrite Hc.
  cbn [mbind panics_bind]. destruct (claims_builder_fields cl) as (Hi & Hau & Hs & _ & Hd & _).
  unfold Builder.build_signer, Builder.encoding_key_of, Builder.resolve_key, client_signer, Builder.build_claims. cbn.
  rewrite Hi, Hau, Hs, Hd. destruct a; done.
Qed.

Lemma server_layer_hmac fs cl d a pem custom :
  hmac a = true -> JwtAuth.config_custom_claims (JwtAuth.mkConfig cl d (JwtAuth.Decoding (mkKey a (Pem pem)))) = Done custom ->
  exists j, JwtAuth.jwt_server_layer fs (JwtAuth.mkConfig cl d (JwtAuth.Decoding (mkKey a (Pem pem)))) = Done (Ok j) /\
    token_cache j = ∅ /\ decoding_key j = Some (decoding_from_secret pem) /\
    validation j = Builder.build_validation (Builder.public_key (mkKey a (Pem pem)) (JwtAuth.claims_builder cl)).
Proof.
  intros Ha Hc. unfold JwtAuth.jwt_server_layer. cbn [JwtAuth.key JwtAuth.claims JwtAuth.duration].
  destruct (claims_builder_fields cl) as (Hi & Hau & Hs & _ & Hd & Hr).
  unfold Builder.build_verifier, Builder.decoding_key_of, Builder.resolve_key. cbn.
  rewrite Hr. destruct a; try done; cbn; rewrite Hc; eexists; repeat split.
Qed.

(** The claims of the token a client signs at a time. *)
Definition client_claims (cl : JwtAuth.Claims) (custom : gmap string JsonValue) (now : Z) : StandardClaims :=
  mkStandardClaims (JwtAuth.issuer cl) (JwtAuth.subject cl) (JwtAuth.audience cl) (unix_secs now + 3600)
    (Some (unix_secs now)) None (Some (unix_secs now)) custom.

Lemma client_signer_token `{BuildProfile} `{HashIter} cl custom a pem now :
  (now < 2 ^ 63)%Z ->
  sign_internal_claims now (client_signer cl custom a pem) =
    Done (map_err (fun e => SigningError (JwtError_fmt e))
            (encode (mkHeader a None) (StandardClaims_to_json (client_claims cl custom now)) (encoding_from_secret pem))).
Proof.
  intros Hnow. unfold sign_internal_claims, create_claims. cbn [client_signer with_encoding_key token_duration Jwt_new].
  rewrite as_secs_from_secs, u64_add_exact by (unfold unix_secs, u64_max; lia). cbn [mbind panics_bind].
  unfold sign_claims, first_algorithm. cbn [client_signer with_encoding_key encoding_key validation Jwt_new].
  destruct (build_validation_props (Builder.custom_claims custom
    (Builder.private_key (mkKey a (Pem pem)) (JwtAuth.claims_builder cl)))) as (_ & _ & _ & ->). done.
Qed.

(** A token that was just signed verifies with the secret. *)
Lemma client_token_verifies `{HashIter} cl cl' custom a pem now time token :
  encode (mkHeader a None) (StandardClaims_to_json (client_claims cl custom now)) (encoding_from_secret pem) = Ok token ->
  JwtAuth.issuer cl' = JwtAuth.issuer cl -> JwtAuth.audience cl' = JwtAuth.audience cl ->
  (forall k, k ∈ registered -> custom !! k = None) -> (time <= now + 3600)%Z ->
  verifies (Builder.build_validation (Builder.public_key (mkKey a (Pem pem)) (JwtAuth.claims_builder cl')))
    (decoding_from_secret pem) time token (json_map (StandardClaims_to_json (client_claims cl custom now))).
Proof.
  intros He Hi Ha Hcust Ht. destruct (claims_builder_fields cl') as (Hbi & Hba & _ & Hbr & _).
  destruct (encode_parts _ _ _ _ He) as [Hp _].
  eexists _, _, (unix_secs now + 3600)%N. split; [exact Hp|]. split; [done|].
  split; [eapply encode_signs; [exact He|apply key_pair_secret]|]. split.
  - apply (built_claims_accepted _ (client_claims cl custom now)); cbn [client_claims iss aud exp custom_claims]; [cbn; congruence..|done|].
    unfold unix_secs. lia.
  - apply (field_values_to_json (client_claims cl custom now) Hcust "exp"). unfold registered. repeat constructor.
Qed.

(** No verifier that checks expiry with the library's leeway of a minute
    accepts the token of a client more than 3660 s after it was signed. *)
Lemma client_token_expired `{HashIter} cl custom a pem now time token {C} `{Deserialize C} val k (c : C) :
  encode (mkHeader a None) (StandardClaims_to_json (client_claims cl custom now)) (encoding_from_secret pem) = Ok token ->
  (forall k, k ∈ registered -> custom !! k = None) -> (now + 3660 < time)%Z -> (0 <= now)%Z ->
  validate_exp (checks val) = true -> leeway (checks val) = 60%N -> ~ verifies val k time token c.
Proof.
  intros He Hcust Hlate Hnow Hve Hle (h & o & e & Ho & _ & _ & Hacc & Hexp).
  destruct (encode_parts _ _ _ _ He) as [Hp _]. rewrite Hp in Ho. injection Ho as <- <-.
  pose proof (accepted_not_expired _ _ _ _ Hacc Hve Hexp) as Hnot. rewrite Hle in Hnot.
  rewrite (field_values_to_json (client_claims cl custom now) Hcust "exp") in Hexp by (unfold registered; repeat constructor).
  cbn [decide client_claims exp] in Hexp. injection Hexp as <-. unfold unix_secs in Hnot. lia.
Qed.

(** A fresh verifier refuses a token that does not verify at a time. *)
Lemma try_verify_refused {C} `{Deserialize C} v a k time instant j token :
  token_cache j = ∅ -> decoding_key j = Some k -> validation j = v -> validate_signature v = true ->
  algorithms v = [a] -> (forall c : C, ~ verifies v k time token c) ->
  exists j' e, try_verify_claims (C := C) (fun _ => time) instant j token = Done (j', Err e).
Proof.
  intros Hcache Hk Hv Hs Ha Hver. unfold try_verify_claims, get_cached_claims, get.
  rewrite Hcache, lookup_empty. cbn. unfold get_decoding_key. rewrite Hk.
  unfold verify_internal, get_validation. destruct (decode_header token) as [h|]; [|eauto].
  rewrite Hv, Ha. cbn [mbind panics_bind].
  destruct (decode _ _ _ _) as [[h' c]|] eqn:Hd; [|eauto].
  destruct (decode _ _ _ (insecure_disable_signature_validation _)) as [[h1 e]|] eqn:Hd1; [|eauto].
  apply decode_sound in Hd as [(o & Ho & Hj & Hc) Hsig]. destruct (Hsig Hs) as [Hsig' _].
  apply decode_sound in Hd1 as [(o1 & Ho1 & Hj1 & _) _]. rewrite Ho in Ho1. injection Ho1 as <- <-.
  destruct (Hver c). exists h', o, (ec_exp e). repeat (split; [done|]).
  cbn in Hj1. apply fmap_Some in Hj1 as (n & Hn & ->). by apply req_field_u64.
Qed.

(** C16: A client and a server configured for JWT with the same HMAC secret,
    issuer and audience, and with custom claims that are none of the registered
    ones, work together. Both layers can be built; whenever the client obtains
    its first token, the request it sends carries it, and a server that reads
    its clock at most an hour after the token was signed calls its service with
    that request and with the claims of the token: issuer, subject, audience and
    custom claims of the client's configuration, times of signing. The token
    ends an hour after it was signed whatever durations [d] and [d'] are
    configured, though the comment on the field [duration] in
    config/src/auth/jwt.rs says that it sets exp to now() + duration: its exp
    is that of the hour, and a server that reads its clock more than 3660 s after
    it was signed (an hour and the leeway of a minute; not before 1970) does not
    serve the request. *)
Theorem configured_client_served `{BuildProfile} `{HashIter} {HL : HeadersLaws}
    fs fs' cl cl' d d' a pem custom custom' :
  hmac a = true ->
  JwtAuth.config_custom_claims (JwtAuth.mkConfig cl d (JwtAuth.Encoding (mkKey a (Pem pem)))) = Done custom ->
  JwtAuth.config_custom_claims (JwtAuth.mkConfig cl' d' (JwtAuth.Decoding (mkKey a (Pem pem)))) = Done custom' ->
  JwtAuth.issuer cl' = JwtAuth.issuer cl -> JwtAuth.audience cl' = JwtAuth.audience cl ->
  (forall k, k ∈ registered -> custom !! k = None) ->
  exists l j,
    JwtAuth.jwt_client_layer fs (JwtAuth.mkConfig cl d (JwtAuth.Encoding (mkKey a (Pem pem)))) = Done (Ok l) /\
    JwtAuth.jwt_server_layer fs' (JwtAuth.mkConfig cl' d' (JwtAuth.Decoding (mkKey a (Pem pem)))) = Done (Ok j) /\
    forall clock client v (req : Request (gmap string JsonValue)) clock' instant,
      get_token clock (add_layer l) = Done (client, Ok v) ->
      (clock 1%nat < 2 ^ 63)%Z -> (forall i, (clock' i <= clock 1%nat + 3600)%Z) ->
      let req' := insert_header AUTHORIZATION v req in
      let req'' := insert_extension (json_map (StandardClaims_to_json (client_claims cl custom (clock 1)))) req' in
      add_call clock (add_layer l) req = Done (client, req') /\
      exp (client_claims cl custom (clock 1)) = (unix_secs (clock 1%nat) + 3600)%N /\
      (exists s, call clock' instant (validate_layer j) req' = Done (s, WaitForFuture req'') /\ served s = [req'']) /\
      forall late, (0 <= clock 1%nat)%Z -> (clock 1%nat + 3660 < late)%Z ->
        exists s r, call (fun _ => late) instant (validate_layer j) req' = Done (s, r) /\ served s = [].
Proof.
  intros Ha Hc Hc' Hi Hau Hcust.
  destruct (server_layer_hmac fs' cl' d' a pem custom' Ha Hc') as (j & Hj & Hcache & Hkey & Hval).
  eexists _, j. split; [by apply client_layer_hmac|]. split; [done|].
  intros clock client v req clock' instant Hget Hnow Htime req' req''.
  split; [unfold add_call; by rewrite Hget|]. split; [done|].
  unfold get_token in Hget. case_decide as Hneg; [done|].
  cbn [add_layer usable_token cached_token mbind panics_bind provider layer_provider try_get_token signer_provider] in Hget.
  unfold signer_try_get_token in Hget. cbn [signer] in Hget.
  rewrite client_signer_token in Hget by done. cbn [mbind panics_bind] in Hget.
  destruct (encode _ _ _) as [token|] eqn:He; [|done]. cbn [map_err] in Hget.
  destruct (HeaderValue_try_from _) as [v'|] eqn:Hv; [|done]. done_inv Hget. injection Hget as _ ->.
  assert (Hcall : forall ck, call ck instant (validate_layer j) req' =
    '(j', r) ← try_verify_claims ck instant j token;
    match r with
    | Ok c => Done (serve j' (validate_layer j) req' c)
    | Err _ => Done (mkValidateJwt j' [], WaitForKey req' (NotStarted token))
    end).
  { intros ck. unfold call, typed_try_get. cbn [headers insert_header req'].
    by rewrite lookup_insert_eq, (decode_bearer_value token v) by (done || by eapply encode_no_space). }
  destruct (build_validation_props (Builder.public_key (mkKey a (Pem pem)) (JwtAuth.claims_builder cl')))
    as (Hsig & Hve & Hlee & Halg). setoid_rewrite Hcall. split.
  2:{ intros late Hsigned Hlate. edestruct (try_verify_refused (C := gmap string JsonValue)
        (Builder.build_validation (Builder.public_key (mkKey a (Pem pem)) (JwtAuth.claims_builder cl'))) a
        (decoding_from_secret pem) late instant j token) as (j' & e & ->); try done; [|by do 2 eexists].
      intros c. eapply client_token_expired; [exact He|done..]. }
  destruct (try_verify_fresh (Builder.build_validation (Builder.public_key (mkKey a (Pem pem)) (JwtAuth.claims_builder cl')))
    a (decoding_from_secret pem) clock' instant j token
    (json_map (StandardClaims_to_json (client_claims cl custom (clock 1))))) as (j' & Hver); try done.
  { intros i. by apply client_token_verifies. }
  exists (mkValidateJwt j' [req'']). by rewrite Hver.
Qed.

(** ** The client's cached token *)

(** When the token of [issued] is used again at [now], exactly. *)
Lemma usable_token_cases `{BuildProfile} {P} (client : AddJwtToken P) t issued now :
  cached_token client = Some t -> valid_until client = Some (issued + duration client)%N ->
  (issued <= now)%N -> (now < 2 ^ 63)%N -> (issued + duration client < 2 ^ 63)%N ->
  usable_token now client =
    if decide (now <= issued + duration client)%N
    then Done (if decide (3 * (now - issued) < duration client)%N then Some t else None)
    else if overflow_checks then Panic "attempt to subtract with overflow" else Done (Some t).
Proof.
  intros Hc Hv Hi Hn Hd. unfold usable_token. rewrite Hc, Hv.
  pose proof (N.div_mod (duration client * 2) 3 ltac:(done)) as Hdiv.
  pose proof (N.mod_lt (duration client * 2) 3 ltac:(done)) as Hmod.
  change (2 ^ 63)%N with 9223372036854775808%N in *.
  rewrite (u64_mul_exact (duration client) 2) by (unfold u64_max; lia).
  cbn [mbind panics_bind]. revert Hdiv Hmod.
  generalize ((duration client * 2) `div` 3)%N, ((duration client * 2) `mod` 3)%N. intros q r Hdiv Hmod.
  case_decide as Hle.
  - rewrite u64_sub_exact by (unfold u64_max; lia). cbn [mbind panics_bind].
    apply f_equal.
    destruct (decide (3 * (now - issued) < duration client)%N) as [Hlt|Hlt].
    + rewrite decide_True; [done|lia].
    + rewrite decide_False; [done|lia].
  - unfold u64_sub, u64_result. rewrite bool_decide_false by lia.
    rewrite N.mod_small by (unfold u64_modulus; lia). destruct overflow_checks; [done|].
    cbn [mbind panics_bind]. rewrite decide_True by (unfold u64_modulus; lia). done.
Qed.

(** C35: How long a client's token is used again. Take a client that obtained a
    token when its clock read [issued]. While the clock reads less than a third
    of the configured duration more, the next request carries the same token;
    from then on, up to the end of the duration, a new one is asked of the
    provider. After the end of the duration [valid_until - now] underflows: a
    build with overflow checks panics, and a release build uses the old token
    again, at every later time. *)
Theorem token_reuse `{BuildProfile} {P} `{TokenProvider P} (client : AddJwtToken P) t issued clock :
  cached_token client = Some t -> valid_until client = Some (issued + duration client)%N ->
  (issued <= unix_secs (clock 0%nat))%N -> (0 <= clock 0%nat < 2 ^ 63)%Z -> (issued + duration client < 2 ^ 63)%N ->
  let age := (unix_secs (clock 0%nat) - issued)%N in
  ((3 * age < duration client)%N -> get_token clock client = Done (client, Ok t)) /\
  ((duration client <= 3 * age)%N -> (age <= duration client)%N ->
     get_token clock client = get_token clock (mkAddJwtToken (provider client) None None (duration client)) \/
     exists e, get_token clock client = Done (client, Err e)) /\
  ((duration client < age)%N ->
     get_token clock client =
       if overflow_checks then Panic "attempt to subtract with overflow" else Done (client, Ok t)).
Proof.
  intros Hc Hv Hi Hn Hd age. unfold get_token at 1 2 4 5. rewrite !decide_False by lia.
  rewrite (usable_token_cases client t issued) by (done || (unfold unix_secs; lia)).
  subst age. split; [|split].
  - intros Hage. rewrite decide_True, decide_True by lia. done.
  - intros Hage Hle. rewrite decide_True, decide_False by lia. cbn [mbind panics_bind].
    unfold get_token. rewrite decide_False by lia. cbn [usable_token cached_token mbind panics_bind provider duration].
    destruct (try_get_token (clock 1) (provider client)) as [[token|]|]; cbn [mbind panics_bind]; [|eauto..].
    destruct (HeaderValue_try_from _); eauto.
  - intros Hage. rewrite decide_False by lia. destruct overflow_checks; done.
Qed.

(** The state of a client whose first token was obtained at [t0]. *)
Lemma first_token `{BuildProfile} `{HashIter} cl custom a pem secs t0 client v :
  (0 <= t0 < 2 ^ 62)%Z -> (secs < 2 ^ 62)%N ->
  get_token (fun _ => t0) (add_layer (mkAddJwtLayer (mkSignerJwt (client_signer cl custom a pem)) secs)) = Done (client, Ok v) ->
  exists token,
    encode (mkHeader a None) (StandardClaims_to_json (client_claims cl custom t0)) (encoding_from_secret pem) = Ok token /\
    HeaderValue_try_from ("Bearer " +:+ token) = Ok v /\
    client = mkAddJwtToken (mkSignerJwt (client_signer cl custom a pem)) (Some v) (Some (unix_secs t0 + secs)%N) secs.
Proof.
  intros Ht Hs Hget. unfold get_token in Hget. rewrite decide_False in Hget by lia.
  cbn [add_layer usable_token cached_token mbind panics_bind provider layer_provider try_get_token signer_provider] in Hget.
  unfold signer_try_get_token in Hget. cbn [signer] in Hget.
  rewrite client_signer_token in Hget by lia. cbn [mbind panics_bind] in Hget.
  destruct (encode _ _ _) as [token|] eqn:He; [|done]. cbn [map_err] in Hget.
  destruct (HeaderValue_try_from _) as [v'|] eqn:Hv; [|done]. cbn [add_layer duration layer_duration] in Hget.
  change (2 ^ 62)%N with 4611686018427387904%N in Hs.
  rewrite u64_add_exact in Hget by (unfold unix_secs, u64_max; lia). injection Hget as <- <-. eauto.
Qed.

(** The duration of a JWT configuration does not reach the tokens. A client
    configured with the duration [d] signs tokens that expire an hour after they
    are signed, whatever [d] is, and uses a token again for a third of [d]. So
    when [d] is long, there is a time at which the client sends, with every
    request, a token that expired more than a minute before: no verifier that
    checks expiry with the library's leeway accepts it, whatever its key. *)
Theorem stale_token_sent `{BuildProfile} `{HashIter} {HL : HeadersLaws} fs cl d a pem custom t0 t1 client v l :
  hmac a = true ->
  JwtAuth.config_custom_claims (JwtAuth.mkConfig cl d (JwtAuth.Encoding (mkKey a (Pem pem)))) = Done custom ->
  (forall k, k ∈ registered -> custom !! k = None) ->
  JwtAuth.jwt_client_layer fs (JwtAuth.mkConfig cl d (JwtAuth.Encoding (mkKey a (Pem pem)))) = Done (Ok l) ->
  (0 <= t0)%Z -> (t1 < 2 ^ 62)%Z -> (as_secs d < 2 ^ 62)%N ->
  get_token (fun _ => t0) (add_layer l) = Done (client, Ok v) ->
  (t0 + 3660 < t1)%Z -> (3 * (t1 - t0) < Z.of_N (as_secs d))%Z ->
  get_token (fun _ => t1) client = Done (client, Ok v) /\
  exists token, decode_bearer [v] = Ok token /\
    forall C (DC : Deserialize C) val k (c : C),
      validate_exp (checks val) = true -> leeway (checks val) = 60%N -> ~ verifies val k t1 token c.
Proof.
  intros Ha Hc Hcust Hl Ht0 Ht1 Hd Hget Hlate Hreuse.
  rewrite (client_layer_hmac fs cl d a pem custom Ha Hc) in Hl. injection Hl as <-.
  apply first_token in Hget as (token & He & Hv & ->); [|lia|done].
  change (2 ^ 62)%N with 4611686018427387904%N in Hd. split.
  - unfold get_token. rewrite decide_False by lia.
    rewrite (usable_token_cases _ v (unix_secs t0)); cbn [duration]; try done; [|unfold unix_secs; change (2 ^ 63)%N with 9223372036854775808%N; lia..].
    rewrite decide_True, decide_True by (unfold unix_secs; lia). done.
  - exists token. split; [apply decode_bearer_value; [by eapply encode_no_space|done]|].
    intros C DC val k c. by eapply client_token_expired.
Qed.
End config.
End claims.

(** ** On concrete inputs *)
Section witnesses.
#[local] Existing Instances demo_jwt demo_jwt_laws demo_headers demo_headers_laws demo_web demo_notify demo_yaml.
#[local] Existing Instances hash_iter_sorted checked_build.
Abbreviation Map := (gmap string JsonValue).

Definition demo_fs : FileSystem := fun _ => None.
Definition demo_builder : Builder.JwtBuilder Builder.WithPublicKey := Builder.public_key demo_key Builder.new.
Definition demo_verifier : Jwt :=
  with_decoding_key (Jwt_new (Builder.build_claims demo_builder) (from_secs 3600) (Builder.build_validation demo_builder)) "secret".
Definition demo_token : string := "h.4600.secret".
Definition demo_events : list (AuthEvent (C := Map)) :=
  [Arrives (fun _ => 1000%Z) 0 (demo_request "Bearer h.4600.secret");
   Arrives (fun _ => 1001%Z) 0 (demo_request "Bearer h.4600.guess"); Polled (fun _ => 1002%Z) 0 None 1].
Definition demo_served : Request Map := insert_extension (json_map (demo_claims 4600)) (demo_request "Bearer h.4600.secret").
Definition demo_server : Server (C := Map) :=
  mkServer (mkValidateJwt (cache demo_verifier demo_token 4600) [demo_served])
    [WaitForFuture demo_served; WaitForKey (demo_request "Bearer h.4600.guess") Completed].

Lemma demo_built : Builder.build_verifier demo_fs demo_builder = Done (Ok demo_verifier).
Proof. reflexivity. Qed.
Lemma demo_ran : auth_run demo_builder (fresh_server demo_verifier) demo_events = Done demo_server.
Proof. reflexivity. Qed.

(** Of two requests the one with the right secret is served. *)
Lemma served_requests_genuine_witness :
  served (layer demo_server) = [demo_served] /\
  exists es1 e es2 s1 s2, demo_events = (es1 ++ e :: es2)%list /\
    auth_run demo_builder (fresh_server demo_verifier) es1 = Done s1 /\
    auth_step demo_builder s1 e = Done s2 /\ length (served (layer s1)) <= 0 < length (served (layer s2)) /\
    exists req token (c : Map) k h o time exp,
    demo_served = insert_extension c req /\ typed_try_get req = Ok (Some token) /\
    token_parts token = Some (h, o) /\ from_json o = Some c /\
    signature_valid k (alg h) token = true /\
    (configured demo_fs demo_builder (es1 ++ [e]) k \/
     exists issuer, claims_issuer token issuer /\ published (es1 ++ [e]) issuer k) /\
    reading_of e time /\ claims_accepted time (checks (Builder.build_validation demo_builder)) o = true /\
    field_values "exp" o = [JU64 exp] /\ (time <= Z.of_N exp + 60)%Z.
Proof.
  split; [reflexivity|].
  apply (served_requests_genuine demo_fs demo_builder demo_verifier demo_events demo_server 0 demo_served demo_built demo_ran).
  reflexivity.
Defined.

Lemma cache_transparent_witness :
  (exists j', try_verify_claims (fun _ => 2000%Z) 0 (verifier (layer demo_server)) demo_token = Done (j', Ok (json_map (demo_claims 4600)))) <->
  (exists j', try_verify_claims (fun _ => 2000%Z) 0 demo_verifier demo_token = Done (j', Ok (json_map (demo_claims 4600)))).
Proof.
  apply (cache_transparent demo_fs demo_builder demo_verifier demo_events demo_server "secret" 2000 0 demo_token _ demo_built);
    [reflexivity|reflexivity|exact demo_ran].
Defined.

(** The key changes to [other], the token of [secret] stays accepted. *)
Lemma cached_token_outlives_key_witness :
  signature_valid (decoding_from_secret "other") HS256 demo_token = false /\
  exists j1 j2,
    try_verify_claims (C := Map) (fun _ => 1000%Z) 0 (verifier (layer demo_server)) demo_token = Done (j1, Ok (json_map (demo_claims 4600))) /\
    Builder.reload_decoding_key (fun _ => Some "other") (mkKey HS256 (File "key")) "key" j1 = Done j2 /\
    try_verify_claims (C := Map) (fun _ => 2000%Z) 0 j2 demo_token = Done (j2, Ok (json_map (demo_claims 4600))).
Proof.
  split; [reflexivity|].
  exists (cache demo_verifier demo_token 4600), (set_decoding_key (decoding_from_secret "other") (cache demo_verifier demo_token 4600)).
  assert (Hv : try_verify_claims (C := Map) (fun _ => 1000%Z) 0 (verifier (layer demo_server)) demo_token =
    Done (cache demo_verifier demo_token 4600, Ok (json_map (demo_claims 4600)))) by (reflexivity).
  split; [exact Hv|]. split; [reflexivity|].
  apply (cached_token_outlives_key demo_fs demo_builder demo_verifier demo_events demo_server (fun _ => 1000%Z) 0 demo_token _
    (cache demo_verifier demo_token 4600) (fun _ => Some "other") (mkKey HS256 (File "key")) "key"
    _ demo_header (demo_claims 4600) 4600 2000 0 demo_built demo_ran Hv);
    reflexivity.
Defined.

Definition demo_req : Request Map := mkRequest ∅ None "body".

(** A token signed at 1000 s is accepted at 4000 s. *)
Lemma configured_client_served_witness :
  exists l j client v s,
    JwtAuth.jwt_client_layer demo_fs (JwtAuth.mkConfig JwtAuth.Claims_default (from_secs 60) (JwtAuth.Encoding demo_key)) = Done (Ok l) /\
    JwtAuth.jwt_server_layer demo_fs (JwtAuth.mkConfig JwtAuth.Claims_default (from_secs 60) (JwtAuth.Decoding demo_key)) = Done (Ok j) /\
    get_token (fun _ => 1000%Z) (add_layer l) = Done (client, Ok v) /\
    add_call (fun _ => 1000%Z) (add_layer l) demo_req = Done (client, insert_header AUTHORIZATION v demo_req) /\
    (call (fun _ => 4000%Z) 0 (validate_layer j) (insert_header AUTHORIZATION v demo_req) =
       Done (s, WaitForFuture (insert_extension (json_map (StandardClaims_to_json (client_claims JwtAuth.Claims_default ∅ 1000)))
                                 (insert_header AUTHORIZATION v demo_req)))) /\
    length (served s) = 1.
Proof.
  destruct (configured_client_served demo_fs demo_fs JwtAuth.Claims_default JwtAuth.Claims_default
    (from_secs 60) (from_secs 60) HS256 "secret" ∅ ∅) as (l & j & Hl & Hj & Hall); [reflexivity..| |].
  { intros k _. apply lookup_empty. }
  pose proof Hl as Hl'. rewrite (client_layer_hmac demo_fs JwtAuth.Claims_default (from_secs 60) HS256 "secret" ∅) in Hl' by reflexivity.
  injection Hl' as <-.
  edestruct (Hall (fun _ => 1000%Z)) as (Hadd & _ & (s & Hcall & Hsv) & _);
    [reflexivity|lia| |]; cycle 1.
  - eexists _, j, _, _, s. split; [exact Hl|]. split; [exact Hj|]. split; [reflexivity|]. split; [exact Hadd|].
    split; [exact Hcall|]. by rewrite Hsv.
  - intros i. cbn. lia.
Defined.

Definition demo_client : AddJwtToken SignerJwt :=
  mkAddJwtToken (mkSignerJwt demo_verifier) (Some "Bearer x") (Some 1900%N) 900.

(** At a fifth of the duration the token is used again; past its end the
    subtraction panics. *)
Lemma token_reuse_witness :
  get_token (fun _ => 1180%Z) demo_client = Done (demo_client, Ok "Bearer x") /\
  get_token (fun _ => 2000%Z) demo_client = Panic "attempt to subtract with overflow".
Proof.
  split.
  - apply (token_reuse demo_client "Bearer x" 1000 (fun _ => 1180%Z)); reflexivity || (cbn; lia).
  - destruct (token_reuse demo_client "Bearer x" 1000 (fun _ => 2000%Z)) as (_ & _ & Hlate);
      [reflexivity || (cbn; lia)..|]. by apply Hlate.
Defined.

(** Five hours configured: at 5000 s the token of 1000 s is sent, which expired
    at 4600 s. *)
Lemma stale_token_sent_witness :
  exists (client : AddJwtToken SignerJwt) v,
    get_token (fun _ => 5000%Z) client = Done (client, Ok v) /\
    exists token, decode_bearer [v] = Ok token /\
      forall C (DC : Deserialize C) val k (c : C),
        validate_exp (checks val) = true -> leeway (checks val) = 60%N -> ~ verifies val k 5000 token c.
Proof.
  pose (l := mkAddJwtLayer (mkSignerJwt (client_signer JwtAuth.Claims_default ∅ HS256 "secret")) 18000).
  pose (v := "Bearer h.4600.secret").
  pose (client := mkAddJwtToken (layer_provider l) (Some v) (Some 19000%N) 18000). exists client, v.
  apply (stale_token_sent demo_fs JwtAuth.Claims_default (from_secs 18000) HS256 "secret" ∅ 1000 5000 client v l).
  all: try reflexivity; lia.
Defined.
End witnesses.
