(* ===== verification/Tls.v ===== *)
(** * TLS settings

    [config/src/tls/common.rs], [tls/client.rs] and [tls/server.rs]: what the
    configuration says of TLS, turned into the configuration of the library
    rustls. The library is the class [Rustls]: certificates, keys and root stores
    are its types, its configuration of a client or a server is represented by
    what it is built from. Files are read through [fs]. *)
From Stdlib Require Import Ascii.
From stdpp Require Import base list gmap strings numbers option.
From S2P Require Import Prelude Text Service FileWatcher JwtBuilder.
Open Scope string_scope.

Class Rustls : Type := {
  CertificateDer : Type;
  PrivateKeyDer : Type;
  CertifiedKey : Type;
  PemError : Type;
  (** The error of a file that cannot be read. *)
  pem_io : PemError;
  PemError_fmt : PemError -> string;
  certificate_from_pem : string -> Result CertificateDer PemError;
  private_key_from_pem : string -> Result PrivateKeyDer PemError;
  certified_key_from_der : list CertificateDer -> PrivateKeyDer -> option CertifiedKey;
  (** [RootCertStore::add]: whether the certificate is accepted as a root. *)
  root_error : CertificateDer -> option string;
  load_native_certs : option (list CertificateDer);
  (** [WebPkiClientVerifier::builder(roots).build()]. *)
  client_verifier_error : list CertificateDer -> option string;
}.

Module Tls.

Inductive ConfigError `{Rustls} : Type :=
| InvalidTlsVersion (s : string)
| InvalidPem (e : PemError)
| InvalidFile (s : string)
| CannotUseBoth (s : string)
| RootStore (e : string)
| ConfigBuilder (e : string)
| MissingServerCertAndKey
| VerifierBuilder (e : string)
| Unknown.
Definition ConfigError_fmt `{Rustls} (e : ConfigError) : string :=
  match e with
  | InvalidTlsVersion s => "invalid tls version: " +:+ s
  | InvalidPem e => "invalid pem format: " +:+ PemError_fmt e
  | InvalidFile s => "error reading cert/key from file: " +:+ s
  | CannotUseBoth s => "cannot use both file and pem for " +:+ s
  | RootStore e => "root store error: " +:+ e
  | ConfigBuilder _ => "config builder error"
  | MissingServerCertAndKey => "missing server cert and key. cert_{file, pem} and key_{file, pem} must be set"
  | VerifierBuilder _ => "verifier builder error"
  | Unknown => "unknown error"
  end.

(** ** The common part *)
Record Config : Type := mkConfig {
  ca_file : option string;
  ca_pem : option string;
  include_system_ca_certs_pool : bool;
  cert_file : option string;
  cert_pem : option string;
  key_file : option string;
  key_pem : option string;
  tls_version : string;
  reload_interval : option N;
}.
Definition default : Config := mkConfig None None false None None None None "tls1.3" None.

Definition with_ca_file (s : string) (c : Config) : Config :=
  mkConfig (Some s) (ca_pem c) (include_system_ca_certs_pool c) (cert_file c) (cert_pem c) (key_file c) (key_pem c) (tls_version c) (reload_interval c).
Definition with_ca_pem (s : string) (c : Config) : Config :=
  mkConfig (ca_file c) (Some s) (include_system_ca_certs_pool c) (cert_file c) (cert_pem c) (key_file c) (key_pem c) (tls_version c) (reload_interval c).
Definition with_include_system_ca_certs_pool (b : bool) (c : Config) : Config :=
  mkConfig (ca_file c) (ca_pem c) b (cert_file c) (cert_pem c) (key_file c) (key_pem c) (tls_version c) (reload_interval c).
Definition with_cert_file (s : string) (c : Config) : Config :=
  mkConfig (ca_file c) (ca_pem c) (include_system_ca_certs_pool c) (Some s) (cert_pem c) (key_file c) (key_pem c) (tls_version c) (reload_interval c).
Definition with_cert_pem (s : string) (c : Config) : Config :=
  mkConfig (ca_file c) (ca_pem c) (include_system_ca_certs_pool c) (cert_file c) (Some s) (key_file c) (key_pem c) (tls_version c) (reload_interval c).
Definition with_key_file (s : string) (c : Config) : Config :=
  mkConfig (ca_file c) (ca_pem c) (include_system_ca_certs_pool c) (cert_file c) (cert_pem c) (Some s) (key_pem c) (tls_version c) (reload_interval c).
Definition with_key_pem (s : string) (c : Config) : Config :=
  mkConfig (ca_file c) (ca_pem c) (include_system_ca_certs_pool c) (cert_file c) (cert_pem c) (key_file c) (Some s) (tls_version c) (reload_interval c).
Definition with_tls_version (s : string) (c : Config) : Config :=
  mkConfig (ca_file c) (ca_pem c) (include_system_ca_certs_pool c) (cert_file c) (cert_pem c) (key_file c) (key_pem c) s (reload_interval c).
Definition with_reload_interval (d : option N) (c : Config) : Config :=
  mkConfig (ca_file c) (ca_pem c) (include_system_ca_certs_pool c) (cert_file c) (cert_pem c) (key_file c) (key_pem c) (tls_version c) d.

Definition is_some {A} (o : option A) : bool := match o with Some _ => true | None => false end.
Definition has_ca_file (c : Config) : bool := is_some (ca_file c).
Definition has_ca_pem (c : Config) : bool := is_some (ca_pem c).
Definition has_ca (c : Config) : bool := has_ca_file c || has_ca_pem c.
Definition has_cert_file (c : Config) : bool := is_some (cert_file c).
Definition has_cert_pem (c : Config) : bool := is_some (cert_pem c).
Definition has_key_file (c : Config) : bool := is_some (key_file c).
Definition has_key_pem (c : Config) : bool := is_some (key_pem c).

Inductive TlsVersion : Type := TLS12 | TLS13.
Definition parse_version `{Rustls} (s : string) : Result TlsVersion ConfigError :=
  if decide (s = "tls1.2") then Ok TLS12
  else if decide (s = "tls1.3") then Ok TLS13
  else Err (InvalidTlsVersion s).

Section tls.
Context `{Rustls} `{Notify}.

(** [from_pem_file]. *)
Definition certificate_from_pem_file (fs : FileSystem) (path : string) : Result CertificateDer PemError :=
  match fs path with Some pem => certificate_from_pem pem | None => Err pem_io end.
Definition private_key_from_pem_file (fs : FileSystem) (path : string) : Result PrivateKeyDer PemError :=
  match fs path with Some pem => private_key_from_pem pem | None => Err pem_io end.

Definition to_certified_key (certs : list CertificateDer) (k : PrivateKeyDer) : panics CertifiedKey :=
  expect (certified_key_from_der certs k) "called `Result::unwrap()` on an `Err` value".

(** ** Certificate resolvers *)
Record WatcherCertResolver : Type := mkWatcherCertResolver {
  wr_key_file : string;
  wr_cert_file : string;
  wr_watchers : list FileWatcher;
  wr_cert : CertifiedKey;
}.

Definition WatcherCertResolver_new (fs : FileSystem) (key_file cert_file : string)
    : panics (Result WatcherCertResolver ConfigError) :=
  match private_key_from_pem_file fs key_file with
  | Err e => Done (Err (InvalidFile (PemError_fmt e)))
  | Ok key_der =>
      match certificate_from_pem_file fs cert_file with
      | Err e => Done (Err (InvalidFile (PemError_fmt e)))
      | Ok cert_der =>
          cert_key ← to_certified_key [cert_der] key_der;
          w ← create_watcher;
          Done (Ok (mkWatcherCertResolver key_file cert_file [w] cert_key))
      end
  end.

(** The callback of its watcher. *)
Definition reload_cert (fs : FileSystem) (_ : string) (r : WatcherCertResolver) : panics WatcherCertResolver :=
  key_der ← Builder.expect_ok (private_key_from_pem_file fs (wr_key_file r)) "failed to read key file";
  cert_der ← Builder.expect_ok (certificate_from_pem_file fs (wr_cert_file r)) "failed to read cert file";
  cert_key ← to_certified_key [cert_der] key_der;
  Done (mkWatcherCertResolver (wr_key_file r) (wr_cert_file r) (wr_watchers r) cert_key).

Record StaticCertResolver : Type := mkStaticCertResolver {
  sr_key_pem : string;
  sr_cert_pem : string;
  sr_cert : CertifiedKey;
}.

Definition StaticCertResolver_new (key_pem cert_pem : string) : panics (Result StaticCertResolver ConfigError) :=
  match private_key_from_pem key_pem with
  | Err e => Done (Err (InvalidPem e))
  | Ok key_der =>
      match certificate_from_pem cert_pem with
      | Err e => Done (Err (InvalidPem e))
      | Ok cert_der =>
          cert_key ← to_certified_key [cert_der] key_der;
          Done (Ok (mkStaticCertResolver key_pem cert_pem cert_key))
      end
  end.

Inductive CertResolver : Type :=
| Watched (r : WatcherCertResolver)
| Static (r : StaticCertResolver).
(** [ResolvesClientCert::resolve] and [ResolvesServerCert::resolve]. *)
Definition resolve_cert (r : CertResolver) : option CertifiedKey :=
  match r with Watched r => Some (wr_cert r) | Static r => Some (sr_cert r) end.

(** ** Root certificates *)
Definition add_root (store : list CertificateDer) (cert : CertificateDer) : Result (list CertificateDer) ConfigError :=
  match root_error cert with
  | Some e => Err (RootStore e)
  | None => Ok (store ++ [cert])%list
  end.
Fixpoint add_roots (store certs : list CertificateDer) : Result (list CertificateDer) ConfigError :=
  match certs with
  | [] => Ok store
  | cert :: certs =>
      match add_root store cert with
      | Err e => Err e
      | Ok store => add_roots store certs
      end
  end.

Definition add_ca (c : Config) (cert : Result CertificateDer PemError) : panics (Result (list CertificateDer) ConfigError) :=
  match cert with
  | Err e => Done (Err (InvalidPem e))
  | Ok cert =>
      match add_root [] cert with
      | Err e => Done (Err e)
      | Ok store =>
          if include_system_ca_certs_pool c then
            certs ← expect load_native_certs "could not load platform certs";
            Done (add_roots store certs)
          else Done (Ok store)
      end
  end.

Definition load_ca_cert_pool (fs : FileSystem) (c : Config) : panics (Result (list CertificateDer) ConfigError) :=
  match ca_file c, ca_pem c with
  | Some _, Some _ => Done (Err (CannotUseBoth "ca"))
  | Some file, None => add_ca c (certificate_from_pem_file fs file)
  | None, Some pem => add_ca c (certificate_from_pem pem)
  | None, None => Done (Ok [])
  end.

(** The resolver both sides make of the certificate and key settings: [None] when
    neither the files nor the PEM texts are both given. *)
Definition cert_resolver (fs : FileSystem) (c : Config) : panics (Result (option CertResolver) ConfigError) :=
  match has_cert_file c && has_key_file c, has_cert_pem c && has_key_pem c with
  | true, true => Done (Err (CannotUseBoth "cert"))
  | false, false => Done (Ok None)
  | true, false =>
      kf ← expect (key_file c) "called `Option::unwrap()` on a `None` value";
      cf ← expect (cert_file c) "called `Option::unwrap()` on a `None` value";
      r ← WatcherCertResolver_new fs kf cf;
      Done (match r with Ok r => Ok (Some (Watched r)) | Err e => Err e end)
  | false, true =>
      kp ← expect (key_pem c) "called `Option::unwrap()` on a `None` value";
      cp ← expect (cert_pem c) "called `Option::unwrap()` on a `None` value";
      r ← StaticCertResolver_new kp cp;
      Done (match r with Ok r => Ok (Some (Static r)) | Err e => Err e end)
  end.

(** ** Clients *)
Record TlsClientConfig : Type := mkTlsClientConfig {
  client_config : Config;
  client_insecure : bool;
  insecure_skip_verify : bool;
}.
Definition client_default : TlsClientConfig := mkTlsClientConfig default false false.
Definition with_insecure_skip_verify (b : bool) (c : TlsClientConfig) : TlsClientConfig :=
  mkTlsClientConfig (client_config c) (client_insecure c) b.
Definition client_with_insecure (b : bool) (c : TlsClientConfig) : TlsClientConfig :=
  mkTlsClientConfig (client_config c) b (insecure_skip_verify c).
(** The other [with_*] methods change the common part. *)
Definition on_client_config (f : Config -> Config) (c : TlsClientConfig) : TlsClientConfig :=
  mkTlsClientConfig (f (client_config c)) (client_insecure c) (insecure_skip_verify c).

(** What a rustls client configuration is built from. *)
Record RustlsClientConfig : Type := mkRustlsClientConfig {
  rc_version : TlsVersion;
  rc_roots : list CertificateDer;
  rc_client_auth : option CertResolver;
  rc_no_verifier : bool;
}.

Definition load_rustls_client_config (fs : FileSystem) (c : TlsClientConfig) (roots : list CertificateDer)
    : panics (Result RustlsClientConfig ConfigError) :=
  match parse_version (tls_version (client_config c)) with
  | Err e => Done (Err e)
  | Ok version =>
      r ← cert_resolver fs (client_config c);
      Done (match r with Ok auth => Ok (mkRustlsClientConfig version roots auth false) | Err e => Err e end)
  end.

Definition client_load_rustls_config (fs : FileSystem) (c : TlsClientConfig)
    : panics (Result (option RustlsClientConfig) ConfigError) :=
  if client_insecure c && negb (has_ca (client_config c)) then Done (Ok None)
  else
    roots ← load_ca_cert_pool fs (client_config c);
    match roots with
    | Err e => Done (Err e)
    | Ok roots =>
        r ← load_rustls_client_config fs c roots;
        Done (match r with
              | Err e => Err e
              | Ok rc => Ok (Some (mkRustlsClientConfig (rc_version rc) (rc_roots rc) (rc_client_auth rc) (insecure_skip_verify c)))
              end)
    end.

(** ** Servers *)
Record TlsServerConfig : Type := mkTlsServerConfig {
  server_config : Config;
  server_insecure : bool;
  client_ca_file : option string;
  client_ca_pem : option string;
  reload_client_ca_file : bool;
}.
Definition server_default : TlsServerConfig := mkTlsServerConfig default false None None false.
Definition server_with_insecure (b : bool) (c : TlsServerConfig) : TlsServerConfig :=
  mkTlsServerConfig (server_config c) b (client_ca_file c) (client_ca_pem c) (reload_client_ca_file c).
Definition with_client_ca_file (s : string) (c : TlsServerConfig) : TlsServerConfig :=
  mkTlsServerConfig (server_config c) (server_insecure c) (Some s) (client_ca_pem c) (reload_client_ca_file c).
Definition with_client_ca_pem (s : string) (c : TlsServerConfig) : TlsServerConfig :=
  mkTlsServerConfig (server_config c) (server_insecure c) (client_ca_file c) (Some s) (reload_client_ca_file c).
Definition with_reload_client_ca_file (b : bool) (c : TlsServerConfig) : TlsServerConfig :=
  mkTlsServerConfig (server_config c) (server_insecure c) (client_ca_file c) (client_ca_pem c) b.
Definition on_server_config (f : Config -> Config) (c : TlsServerConfig) : TlsServerConfig :=
  mkTlsServerConfig (f (server_config c)) (server_insecure c) (client_ca_file c) (client_ca_pem c) (reload_client_ca_file c).

(** What a rustls server configuration is built from; [rs_client_roots] are the
    roots clients are verified against, [None] without client authentication. *)
Record RustlsServerConfig : Type := mkRustlsServerConfig {
  rs_version : TlsVersion;
  rs_resolver : CertResolver;
  rs_client_roots : option (list CertificateDer);
}.

Definition load_client_ca (fs : FileSystem) (c : TlsServerConfig) : Result (option CertificateDer) ConfigError :=
  match client_ca_file c, client_ca_pem c with
  | Some _, Some _ => Err (CannotUseBoth "client_ca")
  | Some file, None => match certificate_from_pem_file fs file with Ok cert => Ok (Some cert) | Err e => Err (InvalidPem e) end
  | None, Some pem => match certificate_from_pem pem with Ok cert => Ok (Some cert) | Err e => Err (InvalidPem e) end
  | None, None => Ok None
  end.

(** The verifier of client certificates. *)
Definition client_roots (client_ca : option CertificateDer) : Result (option (list CertificateDer)) ConfigError :=
  match client_ca with
  | None => Ok None
  | Some cert =>
      match add_root [] cert with
      | Err e => Err e
      | Ok store =>
          match client_verifier_error store with
          | Some e => Err (VerifierBuilder e)
          | None => Ok (Some store)
          end
      end
  end.

Definition load_rustls_server_config (fs : FileSystem) (c : TlsServerConfig)
    : panics (Result (option RustlsServerConfig) ConfigError) :=
  if server_insecure c then Done (Ok None)
  else
    match parse_version (tls_version (server_config c)) with
    | Err e => Done (Err e)
    | Ok version =>
        r ← cert_resolver fs (server_config c);
        Done (match r with
              | Err e => Err e
              | Ok None => Err MissingServerCertAndKey
              | Ok (Some resolver) =>
                  match load_client_ca fs c with
                  | Err e => Err e
                  | Ok client_ca =>
                      match client_roots client_ca with
                      | Err e => Err e
                      | Ok roots => Ok (Some (mkRustlsServerConfig version resolver roots))
                      end
                  end
              end)
    end.

(** [Configuration::validate] of both. *)
Definition client_validate (c : TlsClientConfig) : Result unit ConfigurationError := Ok tt.
Definition server_validate (c : TlsServerConfig) : Result unit ConfigurationError := Ok tt.
End tls.
End Tls.
