(* ===== verification/Grpc.v ===== *)
(** * gRPC clients and servers

    [config/src/grpc/*.rs]: the configuration of a client or a server, turned
    into a tonic channel or server. A channel and a server are represented by
    what they are built from; URIs, socket addresses and header names are parsed
    by libraries, the class [GrpcLib]. Building one may read files and panic. *)
From Stdlib Require Import Ascii ZArith.
From stdpp Require Import base list gmap strings numbers option.
From S2P Require Import Prelude Text Provider ReceiverBuffer MessageProcessing Service AuthTypes KeyResolver FileWatcher Jwt JwtBuilder JwtMiddleware AuthConfig Tls.
Open Scope string_scope.

Class GrpcLib : Type := {
  Uri : Type;
  Uri_from_str : string -> Result Uri string;
  HeaderName_parse : string -> option string;
  SocketAddr : Type;
  SocketAddr_from_str : string -> Result SocketAddr string;
}.

(** ** Compression *)
Inductive CompressionType : Type :=
| Gzip | Zlib | Deflate | Snappy | Zstd | Lz4 | NoCompression | EmptyCompression.
#[export] Instance CompressionType_eq_dec : EqDecision CompressionType.
Proof. solve_decision. Defined.
Inductive CompressionError : Type := UnsupportedType (s : string).

Definition is_compressed (c : CompressionType) : bool :=
  bool_decide (c <> NoCompression) && bool_decide (c <> EmptyCompression).
Definition CompressionType_from_str (s : string) : Result CompressionType CompressionError :=
  if decide (s = "gzip") then Ok Gzip
  else if decide (s = "zlib") then Ok Zlib
  else if decide (s = "deflate") then Ok Deflate
  else if decide (s = "snappy") then Ok Snappy
  else if decide (s = "zstd") then Ok Zstd
  else if decide (s = "lz4") then Ok Lz4
  else if decide (s = "none") then Ok NoCompression
  else if decide (s = "") then Ok EmptyCompression
  else Err (UnsupportedType s).

Module Grpc.

Inductive ConfigError : Type :=
| MissingServices
| MissingEndpoint
| EndpointParseError (s : string)
| TcpIncomingError (s : string)
| UriParseError (s : string)
| HeaderParseError (s : string)
| RateLimitParseError (s : string)
| TLSSettingError (s : string)
| AuthConfigError (s : string)
| ResolutionError
| Unknown.
Definition ConfigError_fmt (e : ConfigError) : string :=
  match e with
  | MissingServices => "missing the grpc server service"
  | MissingEndpoint => "missing grpc endpoint"
  | EndpointParseError _ => "error parsing grpc endpoint"
  | TcpIncomingError _ => "tcp incoming error"
  | UriParseError _ => "failed to parse uri"
  | HeaderParseError _ => "failed to parse headers"
  | RateLimitParseError _ => "failed to parse rate limit configuration"
  | TLSSettingError s => "tls setting error: " +:+ s
  | AuthConfigError s => "auth config error: " +:+ s
  | ResolutionError => "resolution error"
  | Unknown => "unknown error"
  end.

(** ** Clients *)
Record KeepaliveConfig : Type := mkKeepaliveConfig {
  tcp_keepalive : N;
  http2_keepalive : N;
  keepalive_timeout : N;
  keep_alive_while_idle : bool;
}.
Definition KeepaliveConfig_default : KeepaliveConfig :=
  mkKeepaliveConfig (from_secs 60) (from_secs 60) (from_secs 10) false.

(** The two [enum AuthenticationConfig]s are alike. *)
Inductive AuthenticationConfig : Type :=
| Basic (c : BasicAuth.BasicConfig)
| Bearer (c : BearerAuth.BearerConfig)
| Jwt (c : JwtAuth.JwtConfig)
| NoAuth.

Record ClientConfig : Type := mkClientConfig {
  endpoint : string;
  origin : option string;
  compression : option CompressionType;
  rate_limit : option string;
  tls_setting : Tls.TlsClientConfig;
  keepalive : option KeepaliveConfig;
  connect_timeout : N;
  request_timeout : N;
  buffer_size : option N;
  headers : gmap string string;
  auth : AuthenticationConfig;
}.
Definition ClientConfig_default : ClientConfig :=
  mkClientConfig "" None None None Tls.client_default None (from_secs 0) (from_secs 0) None ∅ NoAuth.

Definition with_endpoint (e : string) : ClientConfig :=
  mkClientConfig e None None None Tls.client_default None (from_secs 0) (from_secs 0) None ∅ NoAuth.
Definition with_origin (s : string) (c : ClientConfig) : ClientConfig :=
  mkClientConfig (endpoint c) (Some s) (compression c) (rate_limit c) (tls_setting c) (keepalive c) (connect_timeout c) (request_timeout c) (buffer_size c) (headers c) (auth c).
Definition with_compression (x : CompressionType) (c : ClientConfig) : ClientConfig :=
  mkClientConfig (endpoint c) (origin c) (Some x) (rate_limit c) (tls_setting c) (keepalive c) (connect_timeout c) (request_timeout c) (buffer_size c) (headers c) (auth c).
Definition with_rate_limit (s : string) (c : ClientConfig) : ClientConfig :=
  mkClientConfig (endpoint c) (origin c) (compression c) (Some s) (tls_setting c) (keepalive c) (connect_timeout c) (request_timeout c) (buffer_size c) (headers c) (auth c).
Definition with_tls_setting (t : Tls.TlsClientConfig) (c : ClientConfig) : ClientConfig :=
  mkClientConfig (endpoint c) (origin c) (compression c) (rate_limit c) t (keepalive c) (connect_timeout c) (request_timeout c) (buffer_size c) (headers c) (auth c).
Definition with_keepalive (k : KeepaliveConfig) (c : ClientConfig) : ClientConfig :=
  mkClientConfig (endpoint c) (origin c) (compression c) (rate_limit c) (tls_setting c) (Some k) (connect_timeout c) (request_timeout c) (buffer_size c) (headers c) (auth c).
Definition with_connect_timeout (d : N) (c : ClientConfig) : ClientConfig :=
  mkClientConfig (endpoint c) (origin c) (compression c) (rate_limit c) (tls_setting c) (keepalive c) d (request_timeout c) (buffer_size c) (headers c) (auth c).
Definition with_request_timeout (d : N) (c : ClientConfig) : ClientConfig :=
  mkClientConfig (endpoint c) (origin c) (compression c) (rate_limit c) (tls_setting c) (keepalive c) (connect_timeout c) d (buffer_size c) (headers c) (auth c).
Definition with_buffer_size (n : N) (c : ClientConfig) : ClientConfig :=
  mkClientConfig (endpoint c) (origin c) (compression c) (rate_limit c) (tls_setting c) (keepalive c) (connect_timeout c) (request_timeout c) (Some n) (headers c) (auth c).
Definition with_headers (m : gmap string string) (c : ClientConfig) : ClientConfig :=
  mkClientConfig (endpoint c) (origin c) (compression c) (rate_limit c) (tls_setting c) (keepalive c) (connect_timeout c) (request_timeout c) (buffer_size c) m (auth c).
Definition with_auth (a : AuthenticationConfig) (c : ClientConfig) : ClientConfig :=
  mkClientConfig (endpoint c) (origin c) (compression c) (rate_limit c) (tls_setting c) (keepalive c) (connect_timeout c) (request_timeout c) (buffer_size c) (headers c) a.

Definition ClientConfig_validate (c : ClientConfig) : Result unit ConfigurationError :=
  Tls.client_validate (tls_setting c).

Definition rate_limit_format : string :=
  "rate limit should be in the format of <limit>/<duration>, with duration expressed in seconds".
(** [ConfigError::RateLimitParseError(e.to_string())]. *)
Definition parse_number (s : string) : Result N ConfigError :=
  map_err (fun e => RateLimitParseError (ParseIntError_fmt e)) (parse_u64 s).
Definition parse_rate_limit (s : string) : Result (N * N) ConfigError :=
  match split "/" s with
  | [a; b] =>
      match parse_number a with
      | Err e => Err e
      | Ok limit =>
          match parse_number b with
          | Err e => Err e
          | Ok secs => Ok (limit, from_secs secs)
          end
      end
  | _ => Err (RateLimitParseError rate_limit_format)
  end.

Section client.
Context `{JsonWebToken} `{Headers} `{Rustls} `{Notify} `{GrpcLib} `{YamlToJson} `{HashIter}.

(** The layer that authenticates the requests of a channel. *)
Inductive ClientAuth : Type :=
| HeaderAuth (l : AddAuthorizationLayer)
| JwtClientAuth (l : AddJwtLayer SignerJwt)
| NoClientAuth.

Record GrpcChannel : Type := mkChannel {
  ch_uri : Uri;
  ch_connect_timeout : option N;
  ch_buffer_size : option N;
  ch_keepalive : option KeepaliveConfig;
  ch_origin : option Uri;
  ch_rate_limit : option (N * N);
  ch_timeout : option N;
  ch_headers : gmap string HeaderValue;
  ch_tls : option Tls.RustlsClientConfig;
  ch_auth : ClientAuth;
}.

(** A timeout below a second counts as none. *)
Definition timeout_option (d : N) : option N := if decide (as_secs d = 0%N) then None else Some d.

Definition parse_uri (s : string) : Result Uri ConfigError := map_err UriParseError (Uri_from_str s).
Definition parse_opt {A B} (f : A -> Result B ConfigError) (o : option A) : Result (option B) ConfigError :=
  match o with
  | None => Ok None
  | Some a => match f a with Ok b => Ok (Some b) | Err e => Err e end
  end.

Fixpoint build_headers (l : list (string * string)) (m : gmap string HeaderValue) : Result (gmap string HeaderValue) ConfigError :=
  match l with
  | [] => Ok m
  | (key, value) :: l =>
      match HeaderName_parse key with
      | None => Err (HeaderParseError ("error parsing header key " +:+ key))
      | Some k =>
          match HeaderValue_try_from value with
          | Err _ => Err (HeaderParseError ("error parsing header value " +:+ key))
          | Ok v => build_headers l (<[k := v]> m)
          end
      end
  end.

Definition auth_error {T} (r : Result T Auth.AuthError) : Result T ConfigError :=
  map_err (fun e => AuthConfigError (Auth.AuthError_fmt e)) r.
Definition auth_layer {L A} (f : L -> A) (r : Result L Auth.AuthError) : Result A ConfigError :=
  match auth_error r with Ok l => Ok (f l) | Err e => Err e end.
Definition client_auth (fs : FileSystem) (a : AuthenticationConfig) : panics (Result ClientAuth ConfigError) :=
  match a with
  | Basic c => auth_layer HeaderAuth <$> Auth.get_client_layer fs c
  | Bearer c => auth_layer HeaderAuth <$> Auth.get_client_layer fs c
  | Jwt c => auth_layer JwtClientAuth <$> Auth.get_client_layer fs c
  | NoAuth => Done (Ok NoClientAuth)
  end.

Definition to_channel (fs : FileSystem) (c : ClientConfig) : panics (Result GrpcChannel ConfigError) :=
  if decide (endpoint c = "") then Done (Err MissingEndpoint)
  else
    match parse_uri (endpoint c) with
    | Err e => Done (Err e)
    | Ok uri =>
    match parse_opt parse_uri (origin c) with
    | Err e => Done (Err e)
    | Ok origin =>
    (** The error of [parse_rate_limit] is wrapped once more. *)
    match parse_opt (fun s => map_err (fun e => RateLimitParseError (ConfigError_fmt e)) (parse_rate_limit s)) (rate_limit c) with
    | Err e => Done (Err e)
    | Ok rate =>
    match build_headers (hash_iter (headers c)) ∅ with
    | Err e => Done (Err e)
    | Ok header_map =>
        tls ← Tls.client_load_rustls_config fs (tls_setting c);
        match tls with
        | Err e => Done (Err (TLSSettingError (Tls.ConfigError_fmt e)))
        | Ok tls =>
            a ← client_auth fs (auth c);
            Done (match a with
                  | Err e => Err e
                  | Ok a =>
                      Ok (mkChannel uri (timeout_option (connect_timeout c)) (buffer_size c) (keepalive c) origin rate
                            (timeout_option (request_timeout c)) header_map tls a)
                  end)
        end
    end end end end.

(** [SetRequestHeader::apply]. *)
Definition apply_headers {C} (m : gmap string HeaderValue) (req : Request C) : Request C :=
  foldl (fun req kv => insert_header kv.1 kv.2 req) req (hash_iter m).
End client.

(** ** Servers *)
Record KeepaliveServerParameters : Type := mkKeepaliveServerParameters {
  max_connection_idle : N;
  max_connection_age : N;
  max_connection_age_grace : N;
  time : N;
  timeout : N;
}.
Definition KeepaliveServerParameters_default : KeepaliveServerParameters :=
  mkKeepaliveServerParameters (from_secs 3600) (from_secs (2 * 3600)) (from_secs (5 * 60)) (from_secs (2 * 60)) (from_secs 20).

Record ServerConfig : Type := mkServerConfig {
  s_endpoint : string;
  s_tls_setting : Tls.TlsServerConfig;
  http2_only : bool;
  max_frame_size : option N;
  max_concurrent_streams : option N;
  max_header_list_size : option N;
  read_buffer_size : option N;
  write_buffer_size : option N;
  s_keepalive : KeepaliveServerParameters;
  s_auth : AuthenticationConfig;
}.
Definition ServerConfig_default : ServerConfig :=
  mkServerConfig "" Tls.server_default true (Some 4%N) (Some 100%N) None (Some (1024 * 1024)%N) (Some (1024 * 1024)%N)
    KeepaliveServerParameters_default NoAuth.
Definition s_with_endpoint (e : string) : ServerConfig :=
  mkServerConfig e Tls.server_default true (Some 4%N) (Some 100%N) None (Some (1024 * 1024)%N) (Some (1024 * 1024)%N)
    KeepaliveServerParameters_default NoAuth.
Definition with_tls_settings (t : Tls.TlsServerConfig) (c : ServerConfig) : ServerConfig :=
  mkServerConfig (s_endpoint c) t (http2_only c) (max_frame_size c) (max_concurrent_streams c) (max_header_list_size c) (read_buffer_size c) (write_buffer_size c) (s_keepalive c) (s_auth c).
Definition with_http2_only (b : bool) (c : ServerConfig) : ServerConfig :=
  mkServerConfig (s_endpoint c) (s_tls_setting c) b (max_frame_size c) (max_concurrent_streams c) (max_header_list_size c) (read_buffer_size c) (write_buffer_size c) (s_keepalive c) (s_auth c).
Definition with_max_frame_size (n : option N) (c : ServerConfig) : ServerConfig :=
  mkServerConfig (s_endpoint c) (s_tls_setting c) (http2_only c) n (max_concurrent_streams c) (max_header_list_size c) (read_buffer_size c) (write_buffer_size c) (s_keepalive c) (s_auth c).
Definition with_max_concurrent_streams (n : option N) (c : ServerConfig) : ServerConfig :=
  mkServerConfig (s_endpoint c) (s_tls_setting c) (http2_only c) (max_frame_size c) n (max_header_list_size c) (read_buffer_size c) (write_buffer_size c) (s_keepalive c) (s_auth c).
Definition with_max_header_list_size (n : option N) (c : ServerConfig) : ServerConfig :=
  mkServerConfig (s_endpoint c) (s_tls_setting c) (http2_only c) (max_frame_size c) (max_concurrent_streams c) n (read_buffer_size c) (write_buffer_size c) (s_keepalive c) (s_auth c).
Definition with_read_buffer_size (n : option N) (c : ServerConfig) : ServerConfig :=
  mkServerConfig (s_endpoint c) (s_tls_setting c) (http2_only c) (max_frame_size c) (max_concurrent_streams c) (max_header_list_size c) n (write_buffer_size c) (s_keepalive c) (s_auth c).
Definition with_write_buffer_size (n : option N) (c : ServerConfig) : ServerConfig :=
  mkServerConfig (s_endpoint c) (s_tls_setting c) (http2_only c) (max_frame_size c) (max_concurrent_streams c) (max_header_list_size c) (read_buffer_size c) n (s_keepalive c) (s_auth c).
Definition s_with_keepalive (k : KeepaliveServerParameters) (c : ServerConfig) : ServerConfig :=
  mkServerConfig (s_endpoint c) (s_tls_setting c) (http2_only c) (max_frame_size c) (max_concurrent_streams c) (max_header_list_size c) (read_buffer_size c) (write_buffer_size c) k (s_auth c).
Definition s_with_auth (a : AuthenticationConfig) (c : ServerConfig) : ServerConfig :=
  mkServerConfig (s_endpoint c) (s_tls_setting c) (http2_only c) (max_frame_size c) (max_concurrent_streams c) (max_header_list_size c) (read_buffer_size c) (write_buffer_size c) (s_keepalive c) a.

Definition ServerConfig_validate (c : ServerConfig) : Result unit ConfigurationError :=
  Tls.server_validate (s_tls_setting c).

(** [u32] multiplication. *)
Definition u32_mul `{BuildProfile} (a b : N) : panics N :=
  if decide (a * b <= u32_max)%N then Done (a * b)%N
  else if overflow_checks then Panic "attempt to multiply with overflow" else Done (wrap_u32 (a * b)).
Definition frame_size `{BuildProfile} (o : option N) : panics (option N) :=
  match o with
  | None => Done None
  | Some n => k ← u32_mul n 1024; m ← u32_mul k 1024; Done (Some m)
  end.

(** [builder.add_service(svc)] makes a router with this service as its first;
    the loop over the other services calls it on the builder each time. *)
Definition add_service {S} (s : S) : list S := [s].
Definition make_router {S} (first : S) (others : list S) : list S :=
  foldl (fun _ s => add_service s) (add_service first) others.

Section server.
Context `{JsonWebToken} `{Rustls} `{Notify} `{GrpcLib} `{YamlToJson} `{BuildProfile}.

Inductive ServerAuth : Type :=
| HeaderCheck (l : ValidateRequestHeaderLayer)
| JwtCheck (verifier : Jwt.Jwt)
| NoServerAuth.

Record ServerFuture (S : Type) : Type := mkServerFuture {
  sf_addr : SocketAddr;
  sf_concurrency_limit : option N;
  sf_max_frame_size : option N;
  sf_max_header_list_size : option N;
  sf_keepalive_interval : N;
  sf_keepalive_timeout : N;
  sf_max_connection_age : N;
  sf_auth : ServerAuth;
  sf_services : list S;
  sf_tls : option Tls.RustlsServerConfig;
}.

Definition server_auth (fs : FileSystem) (a : AuthenticationConfig) : panics (Result ServerAuth ConfigError) :=
  match a with
  | Basic c => auth_layer HeaderCheck <$> Auth.get_server_layer fs c
  | Bearer c => auth_layer HeaderCheck <$> Auth.get_server_layer fs c
  | Jwt c => auth_layer JwtCheck <$> Auth.get_server_layer fs c
  | NoAuth => Done (Ok NoServerAuth)
  end.

(** [bind]: the result of binding the address. *)
Definition to_server_future {S} (fs : FileSystem) (bind : SocketAddr -> Result unit string) (c : ServerConfig) (svc : list S)
    : panics (Result (ServerFuture S) ConfigError) :=
  match svc with
  | [] => Done (Err MissingServices)
  | first :: others =>
      if decide (s_endpoint c = "") then Done (Err MissingEndpoint)
      else
        match SocketAddr_from_str (s_endpoint c) with
        | Err e => Done (Err (EndpointParseError e))
        | Ok addr =>
            match bind addr with
            | Err e => Done (Err (TcpIncomingError e))
            | Ok _ =>
                frame ← frame_size (max_frame_size c);
                tls ← Tls.load_rustls_server_config fs (s_tls_setting c);
                match tls with
                | Err e => Done (Err (TLSSettingError (Tls.ConfigError_fmt e)))
                | Ok tls =>
                    a ← server_auth fs (s_auth c);
                    Done (match a with
                          | Err e => Err e
                          | Ok a =>
                              Ok (mkServerFuture S addr (max_concurrent_streams c) frame (max_header_list_size c)
                                    (time (s_keepalive c)) (timeout (s_keepalive c)) (max_connection_age (s_keepalive c))
                                    a (make_router first others) tls)
                          end)
                end
            end
        end
  end.
End server.
End Grpc.
