(* ===== verification/GrpcClaims.v ===== *)
(** * gRPC and TLS configuration: theorems, and the interface of the service

    [grpc_transport] and [grpc_config] are the instances of the classes
    [Transport] and [GrpcConfig] the message processor and the service are
    modelled against, made of the configurations of [Grpc] whose channel or
    server is built without a panic. *)
From Stdlib Require Import Ascii ZArith.
From stdpp Require Import base list gmap strings numbers option.
From S2P Require Import Prelude Text Provider ReceiverBuffer MessageProcessing Service AuthTypes KeyResolver FileWatcher Jwt JwtBuilder JwtMiddleware AuthConfig AuthProofs AuthDemo Tls Grpc.
Open Scope string_scope.

(** ** Rate limits *)
Lemma rate_limit_iff s l d :
  Grpc.parse_rate_limit s = Ok (l, d) <->
  exists a b n, s = a +:+ String "/" b /\ string_in "/" a = false /\ string_in "/" b = false /\
    parse_u64 a = Ok l /\ parse_u64 b = Ok n /\ d = from_secs n.
Proof.
  unfold Grpc.parse_rate_limit, Grpc.parse_number. split.
  - destruct (split "/" s) as [|a [|b [|]]] eqn:Hs; try done.
    destruct (parse_u64 a) as [l'|] eqn:Ha; [|done]. cbn.
    destruct (parse_u64 b) as [n|] eqn:Hb; [|done]. intros [= <- <-].
    apply split_two in Hs as (-> & Hna & Hnb). exists a, b, n. done.
  - intros (a & b & n & -> & Hna & Hnb & Ha & Hb & ->).
    rewrite (proj2 (split_two "/" _ a b)) by done. by rewrite Ha, Hb.
Qed.

(** A rate limit that is written out is read back. *)
Lemma rate_limit_fmt l n :
  (l <= u64_max)%N -> (n <= u64_max)%N ->
  Grpc.parse_rate_limit (fmt_dec l +:+ String "/" (fmt_dec n)) = Ok (l, from_secs n).
Proof.
  intros Hl Hn. apply rate_limit_iff. exists (fmt_dec l), (fmt_dec n), n.
  assert (Hd : forall m, string_in "/" (fmt_dec m) = false).
  { intros m. apply digits_in; [apply fmt_dec_digits|done]. }
  rewrite !Hd, !parse_u64_fmt by done. done.
Qed.

(** ** TLS *)
Section tls.
Context `{Rustls} `{Notify}.

Lemma add_roots_Ok store certs store' :
  Tls.add_roots store certs = Ok store' -> store' = (store ++ certs)%list.
Proof.
  revert store. induction certs as [|cert certs IH]; intros store; simpl.
  { intros [= <-]. by rewrite app_nil_r. }
  unfold Tls.add_root. destruct (root_error cert); [done|]. intros Hs. apply IH in Hs as ->.
  by rewrite <- app_assoc.
Qed.

(** The certificates a configuration adds to its own authority. *)
Definition system_roots (c : Tls.Config) : list CertificateDer :=
  if Tls.include_system_ca_certs_pool c then default [] load_native_certs else [].

(** The roots a configuration stands for: its authority with the system's
    certificates when it asks for them, and none without an authority. *)
Definition configured_roots (fs : FileSystem) (c : Tls.Config) (roots : list CertificateDer) : Prop :=
  match Tls.ca_file c, Tls.ca_pem c with
  | None, None => roots = []
  | Some file, None => exists pem ca, fs file = Some pem /\ certificate_from_pem pem = Ok ca /\ roots = ca :: system_roots c
  | None, Some pem => exists ca, certificate_from_pem pem = Ok ca /\ roots = ca :: system_roots c
  | Some _, Some _ => False
  end.

Lemma add_ca_Ok c cert roots :
  Tls.add_ca c cert = Done (Ok roots) -> exists ca, cert = Ok ca /\ roots = ca :: system_roots c.
Proof.
  unfold Tls.add_ca, system_roots, Tls.add_root. destruct cert as [ca|]; [|done].
  destruct (root_error ca); [done|]. destruct (Tls.include_system_ca_certs_pool c).
  - intros Hs. done_inv Hs. apply expect_Done in Hx. injection Hs as Hs. apply add_roots_Ok in Hs as ->.
    rewrite Hx. eauto.
  - intros [= <-]. eauto.
Qed.

Lemma load_ca_cert_pool_Ok fs c roots :
  Tls.load_ca_cert_pool fs c = Done (Ok roots) -> configured_roots fs c roots.
Proof.
  unfold Tls.load_ca_cert_pool, configured_roots, Tls.certificate_from_pem_file.
  destruct (Tls.ca_file c) as [file|], (Tls.ca_pem c) as [pem|]; [done| | |by intros [= <-]].
  - intros (ca & Hca & ->)%add_ca_Ok. destruct (fs file) as [pem|]; [|done]. eauto.
  - intros (ca & Hca & ->)%add_ca_Ok. eauto.
Qed.

(** When a client uses TLS and which servers it trusts. A client goes without
    TLS exactly when its settings say [insecure] and name no certificate
    authority. Otherwise it trusts the authority it is given, and the system's
    certificates besides when [include_system_ca_certs_pool] is set; but without
    an authority of its own it trusts no certificate at all, whatever
    [include_system_ca_certs_pool] says. *)
Theorem client_trust_roots fs c res :
  Tls.client_load_rustls_config fs c = Done (Ok res) ->
  (res = None <-> Tls.client_insecure c = true /\ Tls.has_ca (Tls.client_config c) = false) /\
  forall rc, res = Some rc ->
    configured_roots fs (Tls.client_config c) (Tls.rc_roots rc) /\
    Tls.rc_no_verifier rc = Tls.insecure_skip_verify c /\
    (Tls.has_ca (Tls.client_config c) = false -> Tls.rc_roots rc = []).
Proof.
  unfold Tls.client_load_rustls_config. intros Hl.
  destruct (Tls.client_insecure c && negb (Tls.has_ca (Tls.client_config c))) eqn:Hi.
  { apply andb_prop in Hi as [-> Hi]. apply negb_true_iff in Hi. by injection Hl as <-. }
  done_inv Hl. destruct x as [roots|]; [|done]. done_inv Hl. destruct x as [rc|]; [|done]. injection Hl as <-.
  apply load_ca_cert_pool_Ok in Hx.
  assert (Hrc : Tls.rc_roots rc = roots).
  { unfold Tls.load_rustls_client_config in Hx0. destruct (Tls.parse_version _); [|done].
    done_inv Hx0. destruct x as [a|]; [|done]. by injection Hx0 as <-. }
  split.
  - split; [done|]. intros [Hin Hca]. by rewrite Hin, Hca in Hi.
  - intros rc' [= <-]. cbn. rewrite Hrc. split; [done|]. split; [done|].
    unfold Tls.has_ca, Tls.has_ca_file, Tls.has_ca_pem, configured_roots in *.
    destruct (Tls.ca_file _), (Tls.ca_pem _); done.
Qed.

(** ** Reloading of certificates *)
(** notify reports the contents of watched files only. *)
Definition notified (w : FileWatcher) (e : WatchEvent) : Prop :=
  match e with
  | Received (Ok ev) => forall p l, paths ev = Some p :: l -> p ∈ watched w
  | _ => True
  end.

(** A turn of the task of the watcher of a resolver. *)
Definition resolver_turn (fs : FileSystem) (e : WatchEvent) (r : Tls.WatcherCertResolver) : Tls.WatcherCertResolver :=
  match Tls.wr_watchers r with
  | w :: ws =>
      let (w, r) := watch_turn (Tls.reload_cert fs) e w r in
      Tls.mkWatcherCertResolver (Tls.wr_key_file r) (Tls.wr_cert_file r) (w :: ws) (Tls.wr_cert r)
  | [] => r
  end.
Fixpoint resolver_run (es : list (FileSystem * WatchEvent)) (r : Tls.WatcherCertResolver) : Tls.WatcherCertResolver :=
  match es with
  | [] => r
  | (fs, e) :: es => resolver_run es (resolver_turn fs e r)
  end.
(** Only reports about watched files reach the task. *)
Fixpoint all_notified (es : list (FileSystem * WatchEvent)) (r : Tls.WatcherCertResolver) : Prop :=
  match es with
  | [] => True
  | (fs, e) :: es => Forall (fun w => notified w e) (Tls.wr_watchers r) /\ all_notified es (resolver_turn fs e r)
  end.

Lemma resolver_turn_unwatched fs e r w :
  Tls.wr_watchers r = [w] -> watched w = [] -> notified w e ->
  Tls.wr_cert (resolver_turn fs e r) = Tls.wr_cert r /\
  exists w', Tls.wr_watchers (resolver_turn fs e r) = [w'] /\ watched w' = [].
Proof.
  intros Hw Hn He. unfold resolver_turn, watch_turn. rewrite Hw.
  destruct (running w); [|eauto]. destruct e as [[[k [|[p|] l]]|]| |]; cbn; try by eauto.
  - destruct k; eauto.
  - cbn in He. specialize (He p l eq_refl). rewrite Hn in He. by apply elem_of_nil in He.
  - destruct k; eauto.
  - destruct (cancelled w); eauto.
Qed.

(** Certificates given as files are not reloaded. The resolver of a
    certificate and key file creates a watcher but adds no file to it, so that,
    notify reporting on watched files only, the certificate in use stays the one
    that was read first, whatever the files hold later. *)
Theorem cert_never_reloaded fs key_file cert_file r es :
  Tls.WatcherCertResolver_new fs key_file cert_file = Done (Ok r) ->
  all_notified es r ->
  Tls.resolve_cert (Tls.Watched (resolver_run es r)) = Tls.resolve_cert (Tls.Watched r).
Proof.
  intros Hr Hes. unfold Tls.WatcherCertResolver_new in Hr.
  destruct (Tls.private_key_from_pem_file fs key_file); [|done].
  destruct (Tls.certificate_from_pem_file fs cert_file); [|done]. done_inv Hr. injection Hr as <-.
  unfold create_watcher in Hx0. destruct recommended_watcher; [|done]. injection Hx0 as <-.
  match goal with |- context [resolver_run _ ?r0] => set (r := r0) in * end.
  assert (Hw : exists w, Tls.wr_watchers r = [w] /\ watched w = []) by (subst r; cbn; eauto).
  clearbody r. cbn. f_equal. revert r Hw Hes. induction es as [|[fs' e] es IH]; intros r (w & Hw & Hn); simpl; [done|].
  rewrite Hw. intros [He Hes]. apply (proj1 (Forall_singleton _ w)) in He.
  destruct (resolver_turn_unwatched fs' e r w Hw Hn He) as [Hc Hw']. rewrite IH by done. done.
Qed.
End tls.

(** The watcher of a JWT key file watches it. *)
Lemma key_file_watched `{Notify} path w : Builder.watch_file path = Done w -> watched w = [path].
Proof.
  unfold Builder.watch_file, create_watcher, add_file. destruct recommended_watcher; [|done]. cbn.
  destruct (watch path); [|done]. by intros [= <-].
Qed.

(** ** The headers of a request *)
Section headers.
Context `{Headers} `{HashIter} {C : Type}.
Implicit Types (m : gmap string HeaderValue) (req : Request C).

Lemma foldl_headers l req k :
  NoDup l.*1 ->
  headers (foldl (fun req (kv : string * HeaderValue) => insert_header kv.1 kv.2 req) req l) !! k =
    match (list_to_map l : gmap string HeaderValue) !! k with
    | Some v => Some [v]
    | None => headers req !! k
    end.
Proof.
  revert req. induction l as [|[k' v] l IH]; intros req; [done|]. rewrite fmap_cons. inversion_clear 1 as [|? ? Hk' Hnd].
  cbn [foldl]. rewrite IH by done. cbn. destruct (decide (k = k')) as [->|Hne].
  - rewrite lookup_insert_eq. by rewrite (not_elem_of_list_to_map_1 l k'), lookup_insert_eq.
  - rewrite (lookup_insert_ne (list_to_map l)) by done. destruct (_ !! k); [done|]. by rewrite lookup_insert_ne.
Qed.

(** Every configured header replaces the values the request had for it. *)
Lemma apply_headers_lookup m req k :
  headers (Grpc.apply_headers m req) !! k = match m !! k with Some v => Some [v] | None => headers req !! k end.
Proof.
  unfold Grpc.apply_headers. rewrite foldl_headers.
  - replace (list_to_map (hash_iter m) : gmap string HeaderValue) with m; [done|].
    rewrite <- (list_to_map_to_list m) at 1. symmetry. apply list_to_map_proper; [|apply hash_iter_perm].
    rewrite hash_iter_perm. apply NoDup_fst_map_to_list.
  - rewrite hash_iter_perm. apply NoDup_fst_map_to_list.
Qed.

(** A request of a channel with JWT authentication passes the configured headers
    first and the token layer next: the token wins over a configured
    [authorization] header, all other configured headers arrive. *)
Lemma auth_header_wins `{BuildProfile} {P} `{TokenProvider P} clock client client' v m req :
  get_token clock client = Done (client', Ok v) ->
  exists req', add_call clock client (Grpc.apply_headers m req) = Done (client', req') /\
    forall k, headers req' !! k =
      if decide (k = AUTHORIZATION) then Some [v]
      else match m !! k with Some v => Some [v] | None => headers req !! k end.
Proof.
  intros Hg. unfold add_call. rewrite Hg. cbn. eexists. split; [done|]. intros k. cbn.
  case_decide as Hk; [subst; by rewrite lookup_insert_eq|].
  rewrite lookup_insert_ne by done. apply apply_headers_lookup.
Qed.
End headers.

(** ** Servers *)

(** Of several services only the last is served: every other router the loop makes
    is dropped. *)
Lemma only_last_service {S} (first : S) others : Grpc.make_router first others = [List.last others first].
Proof.
  unfold Grpc.make_router. induction others as [|s others IH] using rev_ind; [done|].
  rewrite foldl_app. cbn. by rewrite List.last_last.
Qed.

(** A frame size of 4096 MiB and more does not fit. *)
Lemma frame_size_overflow `{BuildProfile} n :
  (n <= u32_max)%N -> (4096 <= n)%N ->
  Grpc.frame_size (Some n) =
    if overflow_checks then Panic "attempt to multiply with overflow" else Done (Some (wrap_u32 (n * 1024 * 1024))).
Proof.
  intros Hu Hn. unfold Grpc.frame_size, Grpc.u32_mul, u32_max in *.
  destruct (decide (n * 1024 <= 4294967295)%N) as [Hk|Hk]; cbn [mbind panics_bind].
  - rewrite decide_False by lia. by destruct overflow_checks.
  - destruct overflow_checks; [done|]. cbn [mbind panics_bind].
    assert (Hw : wrap_u32 (wrap_u32 (n * 1024) * 1024) = wrap_u32 (n * 1024 * 1024)).
    { unfold wrap_u32. by rewrite N.Div0.mul_mod_idemp_l. }
    case_decide as Hd; [|by rewrite Hw].
    rewrite <- Hw. by rewrite (wrap_u32_small (wrap_u32 (n * 1024) * 1024)).
Qed.

(** ** Clients *)
Section client.
Context `{JsonWebToken} `{Headers} `{Rustls} `{Notify} `{GrpcLib} `{YamlToJson} `{HashIter}.

Lemma to_channel_Ok fs c ch :
  Grpc.to_channel fs c = Done (Ok ch) ->
  Grpc.endpoint c <> "" /\ Uri_from_str (Grpc.endpoint c) = Ok (Grpc.ch_uri ch) /\
  Grpc.ch_connect_timeout ch = Grpc.timeout_option (Grpc.connect_timeout c) /\
  Grpc.ch_timeout ch = Grpc.timeout_option (Grpc.request_timeout c) /\
  Tls.client_load_rustls_config fs (Grpc.tls_setting c) = Done (Ok (Grpc.ch_tls ch)) /\
  Grpc.client_auth fs (Grpc.auth c) = Done (Ok (Grpc.ch_auth ch)).
Proof.
  unfold Grpc.to_channel. case_decide as He; [done|]. unfold Grpc.parse_uri at 1.
  destruct (Uri_from_str (Grpc.endpoint c)) as [uri|]; [|done]. cbn [map_err].
  destruct (Grpc.parse_opt _ (Grpc.origin c)) as [o|]; [|done].
  destruct (Grpc.parse_opt _ (Grpc.rate_limit c)) as [rl|]; [|done].
  destruct (Grpc.build_headers _ _) as [hm|]; [|done]. intros Hc. done_inv Hc.
  destruct x as [tls|]; [|done]. done_inv Hc. destruct x as [a|]; [|done]. injection Hc as <-.
  by rewrite Hx, Hx0.
Qed.

(** Timeouts below a second are dropped. *)
Lemma subsecond_timeout_dropped fs c ch :
  Grpc.to_channel fs c = Done (Ok ch) -> (Grpc.connect_timeout c < from_secs 1)%N -> Grpc.ch_connect_timeout ch = None.
Proof.
  intros (_ & _ & -> & _)%to_channel_Ok Hd. unfold Grpc.timeout_option, as_secs, from_secs in *.
  rewrite decide_True; [done|]. apply N.div_small. lia.
Qed.
End client.

(** ** The interface of the service *)
Section interface.
Context `{JsonWebToken} `{Headers} `{Rustls} `{Notify} `{GrpcLib} `{YamlToJson} `{HashIter} `{BuildProfile}.
Context (fs : FileSystem).

Definition returned {A} (m : panics A) : bool := match m with Done _ => true | Panic _ => false end.
Definition ok_or {A} (m : panics (Result A Grpc.ConfigError)) : Result unit string :=
  match m with
  | Done (Ok _) => Ok tt
  | Done (Err e) => Err (Grpc.ConfigError_fmt e)
  | Panic why => Err why
  end.

(** Binding fails or succeeds, as the service is told. *)
Definition bind_result (bound : bool) (_ : SocketAddr) : Result unit string :=
  if bound then Ok tt else Err "bind".

Record UsableClient : Type := mkUsableClient {
  usable_client : Grpc.ClientConfig;
  client_returns : returned (Grpc.to_channel fs usable_client) = true;
}.
Record UsableServer : Type := mkUsableServer {
  usable_server : Grpc.ServerConfig;
  server_returns : forall bound, returned (Grpc.to_server_future fs (bind_result bound) usable_server [tt]) = true;
}.

Definition grpc_transport : Transport := {|
  ClientConfig := UsableClient;
  to_channel := fun c => is_ok (ok_or (Grpc.to_channel fs (usable_client c)));
|}.
Definition grpc_config : @GrpcConfig grpc_transport := {|
  client_endpoint := (fun c => Grpc.endpoint (usable_client c)) : @ClientConfig grpc_transport -> string;
  client_validate := (fun c => Grpc.ClientConfig_validate (usable_client c)) : @ClientConfig grpc_transport -> _;
  to_channel_error := (fun c => match ok_or (Grpc.to_channel fs (usable_client c)) with Ok _ => "" | Err e => e end)
    : @ClientConfig grpc_transport -> string;
  ServerConfig := UsableServer;
  server_endpoint := fun c => Grpc.s_endpoint (usable_server c);
  server_validate := fun c => Grpc.ServerConfig_validate (usable_server c);
  to_server_future := fun c bound => ok_or (Grpc.to_server_future fs (bind_result bound) (usable_server c) [tt]);
|}.
End interface.

(** ** On concrete inputs *)
Definition demo_rustls : Rustls := {|
  CertificateDer := string; PrivateKeyDer := string; CertifiedKey := string; PemError := string;
  pem_io := "no such file"; PemError_fmt := fun e => e;
  certificate_from_pem := fun s => Ok s; private_key_from_pem := fun s => Ok s;
  certified_key_from_der := fun certs k => Some (String.concat "," certs +:+ ":" +:+ k);
  root_error := fun _ => None; load_native_certs := Some ["system"]; client_verifier_error := fun _ => None;
|}.

Section witnesses.
#[local] Existing Instances demo_rustls demo_notify.

(** The default settings, with the system's certificates asked for. *)
Definition system_client : Tls.TlsClientConfig :=
  Tls.on_client_config (Tls.with_include_system_ca_certs_pool true) Tls.client_default.
Lemma client_trust_roots_witness :
  exists rc, Tls.client_load_rustls_config (fun _ => None) system_client = Done (Ok (Some rc)) /\ Tls.rc_roots rc = [].
Proof.
  exists (Tls.mkRustlsClientConfig Tls.TLS13 [] None false). split; [reflexivity|].
  apply (client_trust_roots (fun _ => None) system_client (Some (Tls.mkRustlsClientConfig Tls.TLS13 [] None false)));
    reflexivity.
Defined.

(** The files are replaced by others and notify reports an event without a path. *)
Definition demo_resolver : Tls.WatcherCertResolver :=
  Tls.mkWatcherCertResolver "key" "cert" [mkFileWatcher [] false true] "old:old".
Definition demo_watch_events : list (FileSystem * WatchEvent) :=
  [(fun _ => Some "new", Received (Ok (mkEvent ModifyData []))); (fun _ => Some "new", CancelSignalled)].
Lemma cert_never_reloaded_witness :
  Tls.WatcherCertResolver_new (fun _ => Some "old") "key" "cert" = Done (Ok demo_resolver) /\
  Tls.resolve_cert (Tls.Watched (resolver_run demo_watch_events demo_resolver)) = Some "old:old".
Proof.
  split; [reflexivity|].
  rewrite (cert_never_reloaded (fun _ => Some "old") "key" "cert" demo_resolver demo_watch_events); [reflexivity|reflexivity|].
  cbn. split; [|split; [|done]]; constructor; try constructor; cbn; done.
Defined.
End witnesses.
