(* ===== verification/Controller.v ===== *)
(** * The controller: model

    [controller/src/service.rs] with the messages of
    [controller/proto/v1/controller.proto]: a controller configures a node over
    a stream of control messages, by creating connections of the data plane and
    setting subscriptions on them, and asks for the node's tables.

    [ControllerService] is cloned for every control stream. The clone shares the
    message processor and the map of connections, but not what [tx_slim] will
    hold: [OnceLock] is cloned with its content, which is still unset, so every
    stream registers a local connection of its own when it first sends a message
    into the data plane. [Ctrl] is what the handler of one stream works on;
    [ControlPlane] has all the streams.

    Parameters: how an address resolves and whether opening a channel to it
    succeeds ([Network], an argument of the handler), the identifiers [uuid]
    makes ([Uuid]), the conversion of a client configuration of the gRPC layer
    into one of the transport ([GrpcClient]). A handler runs to its end without
    interleaving. *)
From stdpp Require Import base list gmap strings pretty numbers option.
From S2P Require Import Tls Grpc.
From S2P Require Import Prelude Proto Encoder Messages Pool ConnectionTable.
From S2P Require Import RemoteSubscriptions SubscriptionTable Forwarder MessageProcessing.
Open Scope string_scope.

Module Controller.

Inductive ControllerError : Type :=
| ConfigError (s : string)
| ConnectionError (s : string)
| DatapathError (s : string).
Definition ControllerError_fmt (e : ControllerError) : string :=
  match e with
  | ConfigError s => "configuration error " +:+ s
  | ConnectionError s => "connection error: " +:+ s
  | DatapathError s => "datapath error: " +:+ s
  end.

(** ** Messages *)
Record Connection : Type := mkConnection {
  co_connection_id : string;
  co_remote_address : string;
  co_remote_port : Z;
}.
Record Subscription : Type := mkSubscription {
  su_organization : string;
  su_namespace : string;
  su_agent_type : string;
  su_agent_id : option N;
  su_connection_id : string;
}.
Record ConfigurationCommand : Type := mkConfigurationCommand {
  connections_to_create : list Connection;
  subscriptions_to_set : list Subscription;
  subscriptions_to_delete : list Subscription;
}.
Record Ack : Type := mkAck {
  ack_original_message_id : string;
  ack_success : bool;
  ack_messages : list string;
}.
Inductive ConnectionType : Type := LocalEntry | RemoteEntry.
(** [as i32]. *)
Definition ConnectionType_to_i32 (t : ConnectionType) : Z :=
  match t with LocalEntry => 0 | RemoteEntry => 1 end.
Definition ConnectionType_as_str_name (t : ConnectionType) : string :=
  match t with
  | LocalEntry => "CONNECTION_TYPE_LOCAL"
  | RemoteEntry => "CONNECTION_TYPE_REMOTE"
  end.
Definition ConnectionType_from_str_name (value : string) : option ConnectionType :=
  if decide (value = "CONNECTION_TYPE_LOCAL") then Some LocalEntry
  else if decide (value = "CONNECTION_TYPE_REMOTE") then Some RemoteEntry
  else None.
Record ConnectionEntry : Type := mkConnectionEntry {
  ce_id : N;
  ce_connection_type : Z;
  ce_ip : string;
  ce_port : N;
}.
Record SubscriptionEntry : Type := mkSubscriptionEntry {
  se_organization : string;
  se_namespace : string;
  se_agent_type : string;
  se_agent_id : option N;
  se_local_connections : list ConnectionEntry;
  se_remote_connections : list ConnectionEntry;
}.
(** [control_message::Payload]; a list response holds its [entries]. *)
Inductive Payload : Type :=
| ConfigCommand (c : ConfigurationCommand)
| PAck (a : Ack)
| SubscriptionListRequest
| SubscriptionListResponse (entries : list SubscriptionEntry)
| ConnectionListRequest
| ConnectionListResponse (entries : list ConnectionEntry).
Record ControlMessage : Type := mkControlMessage {
  cm_message_id : string;
  cm_payload : option Payload;
}.

(** ** Environment *)
Class Uuid : Type := {
  (** [Uuid::new_v4().to_string()], on its n-th call. *)
  new_v4 : N -> string;
}.
Class GrpcClient `{Transport} : Type := {
  from_grpc : Grpc.ClientConfig -> MessageProcessing.ClientConfig;
}.
(** What the network does while a message is handled: the addresses
    [to_socket_addrs] finds, and the outcomes of opening a channel. *)
Record Network : Type := mkNetwork {
  to_socket_addrs : string -> Result (list ConnectionTable.SocketAddr) string;
  nw_attempts : string -> list bool;
}.

(** The receiving end of the replies: [rc_queue] waits in the channel of 128
    places, [rc_read] is what the peer has taken from it. *)
Definition CAPACITY : nat := 128.
Record Replies : Type := mkReplies {
  rc_open : bool;
  rc_queue : list ControlMessage;
  rc_read : list ControlMessage;
}.
Definition Replies_new : Replies := mkReplies true [] [].
(** [Sender::send]: on a full channel it returns when the peer has made room. *)
Definition reply_send (m : ControlMessage) (r : Replies) : Replies :=
  if rc_open r then
    if decide (length (rc_queue r) < CAPACITY) then
      mkReplies true (rc_queue r ++ [m])%list (rc_read r)
    else
      mkReplies true (tail (rc_queue r) ++ [m])%list (rc_read r ++ take 1 (rc_queue r))%list
  else r.
(** [Sender::try_send]: an error on a full channel. *)
Definition reply_try_send (m : ControlMessage) (r : Replies) : Replies * bool :=
  if rc_open r && bool_decide (length (rc_queue r) < CAPACITY)
  then (mkReplies true (rc_queue r ++ [m])%list (rc_read r), true)
  else (r, false).

Section model.
Context `{Hasher, HashIter, Transport, Telemetry, Uuid}.
Context {C : GrpcClient}.

(** ** State of a stream's handler

    [cl_tx_slim]: the sender, and the task of the processor that reads it.
    [cl_uuids]: how many identifiers have been made. *)
Record Ctrl : Type := mkCtrl {
  cl_message_processor : MessageProcessor;
  cl_tx_slim : option (N * N);
  cl_connections : gmap string N;
  cl_tx : Replies;
  cl_uuids : N;
}.

Definition ctl (A : Type) : Type := Ctrl -> panics (Ctrl * A).
#[export] Instance ctl_ret : MRet ctl := fun A a s => Done (s, a).
#[export] Instance ctl_bind : MBind ctl := fun A B f c s =>
  match c s with
  | Done (s, a) => f a s
  | Panic why => Panic why
  end.
Definition ask {A} (f : Ctrl -> A) : ctl A := fun s => Done (s, f s).
Definition may_panic {A} (c : panics A) : ctl A := fun s => a ← c; Done (s, a).
Definition set_connections (m : gmap string N) : ctl unit := fun s =>
  Done (mkCtrl (cl_message_processor s) (cl_tx_slim s) m (cl_tx s) (cl_uuids s), tt).
Definition set_tx_slim (t : N * N) : ctl unit := fun s =>
  Done (mkCtrl (cl_message_processor s) (Some t) (cl_connections s) (cl_tx s) (cl_uuids s), tt).
Definition set_tx (r : Replies) : ctl unit := fun s =>
  Done (mkCtrl (cl_message_processor s) (cl_tx_slim s) (cl_connections s) r (cl_uuids s), tt).
(** A call on the message processor. *)
Definition on_processor {A} (c : proc A) : ctl A := fun s =>
  '(mp, a) ← c (cl_message_processor s);
  Done (mkCtrl mp (cl_tx_slim s) (cl_connections s) (cl_tx s) (cl_uuids s), a).
Definition uuid : ctl string := fun s =>
  Done (mkCtrl (cl_message_processor s) (cl_tx_slim s) (cl_connections s) (cl_tx s) (cl_uuids s + 1),
        new_v4 (cl_uuids s)).
(** The [?] operator. *)
Definition ctl_try {A B} (c : ctl (Result A ControllerError)) (f : A -> ctl (Result B ControllerError))
    : ctl (Result B ControllerError) :=
  r ← c; match r with Ok a => f a | Err e => mret (Err e) end.

(** ** Into the data plane *)

(** [get_or_init] of [tx_slim]: the first use registers a local connection. Its
    number and its receiver are dropped; the channel to it is closed at once. *)
Definition get_or_init : ctl N :=
  t ← ask cl_tx_slim;
  match t with
  | Some (tx, _) => mret tx
  | None =>
      '(_, tx_slim, rx) ← on_processor register_local_connection;
      _ ← on_processor (close_channel rx);
      mp ← ask cl_message_processor;
      _ ← set_tx_slim (tx_slim, (mp_next mp - 1)%N);
      mret tx_slim
  end.

Definition send_control_message (msg : ProtoMessage) : ctl (Result unit ControllerError) :=
  sender ← get_or_init;
  res ← on_processor (send sender (Delivered msg));
  mret (map_err DatapathError res).

(** ** Configuration commands *)
Definition client_endpoint (conn : Connection) : string :=
  co_remote_address conn +:+ ":" +:+ pretty (co_remote_port conn).
Definition client_config (endpoint : string) : Grpc.ClientConfig :=
  Grpc.with_tls_setting (Tls.client_with_insecure true Tls.client_default)
    (Grpc.with_endpoint ("http://" +:+ endpoint)).

Definition resolve (net : Network) (endpoint : string) : Result ConnectionTable.SocketAddr ControllerError :=
  match to_socket_addrs net endpoint with
  | Err e => Err (ConnectionError e)
  | Ok [] => Err (ConnectionError ("could not resolve " +:+ endpoint))
  | Ok (remote_sock :: _) => Ok remote_sock
  end.

(** One turn of the loop over [connections_to_create]. *)
Definition create_connection (net : Network) (conn : Connection) : ctl (Result unit ControllerError) :=
  let endpoint := client_endpoint conn in
  match resolve net endpoint with
  | Err e => mret (Err e)
  | Ok remote_sock =>
      connections ← ask cl_connections;
      match connections !! endpoint with
      | Some _ => mret (Ok tt)
      | None =>
          let config := from_grpc (client_config endpoint) in
          if MessageProcessing.to_channel config then
            ret ← on_processor (connect (Some config) None (Some remote_sock) (nw_attempts net endpoint));
            match ret with
            | Err e =>
                let e := ConnectionError (DataPathError_fmt e) in
                mret (Err (ConnectionError (ControllerError_fmt e)))
            | Ok (_, conn_id) =>
                connections ← ask cl_connections;
                _ ← set_connections (<[endpoint := conn_id]> connections);
                mret (Ok tt)
            end
          else mret (Ok tt)
      end
  end.
Fixpoint create_connections (net : Network) (l : list Connection) : ctl (Result unit ControllerError) :=
  match l with
  | [] => mret (Ok tt)
  | conn :: l => ctl_try (create_connection net conn) (fun _ => create_connections net l)
  end.

Definition sub_source (s : Subscription) : Agent :=
  Agent_from_strings (su_organization s) (su_namespace s) (su_agent_type s) 0.
Definition sub_type (s : Subscription) : AgentType :=
  AgentType_from_strings (su_organization s) (su_namespace s) (su_agent_type s).
Definition recv_from_flags (conn : N) : option SlimHeaderFlags :=
  Some (with_recv_from SlimHeaderFlags_default conn).
(** The message of a subscription to set, or to delete. *)
Definition sub_message (set : bool) (s : Subscription) (conn : N) : panics ProtoMessage :=
  if set then new_subscribe (sub_source s) (sub_type s) (su_agent_id s) (recv_from_flags conn)
  else Done (new_unsubscribe (sub_source s) (sub_type s) (su_agent_id s) (recv_from_flags conn)).

(** One turn of the loops over [subscriptions_to_set] and
    [subscriptions_to_delete]; an error is only logged. *)
Definition apply_subscription (set : bool) (s : Subscription) : ctl unit :=
  connections ← ask cl_connections;
  match connections !! su_connection_id s with
  | None => mret tt
  | Some conn =>
      msg ← may_panic (sub_message set s conn);
      _ ← send_control_message msg;
      mret tt
  end.
Fixpoint apply_subscriptions (set : bool) (l : list Subscription) : ctl unit :=
  match l with
  | [] => mret tt
  | s :: l => _ ← apply_subscription set s; apply_subscriptions set l
  end.

Definition handle_config (net : Network) (message_id : string) (config : ConfigurationCommand)
    : ctl (Result unit ControllerError) :=
  ctl_try (create_connections net (connections_to_create config)) (fun _ =>
    _ ← apply_subscriptions true (subscriptions_to_set config);
    _ ← apply_subscriptions false (subscriptions_to_delete config);
    let ack := mkAck message_id true [] in
    id ← uuid;
    tx ← ask cl_tx;
    _ ← set_tx (reply_send (mkControlMessage id (Some (PAck ack))) tx);
    mret (Ok tt)).

(** ** Lists *)
Definition CHUNK_SIZE : nat := 100.
(** [slice::chunks]; [fuel] bounds the number of chunks. *)
Fixpoint chunks_fuel {A} (fuel : nat) (size : nat) (l : list A) : list (list A) :=
  match fuel, l with
  | S fuel, _ :: _ => take size l :: chunks_fuel fuel size (drop size l)
  | _, _ => []
  end.
Definition chunks {A} (size : nat) (l : list A) : list (list A) := chunks_fuel (length l) size l.

Fixpoint send_batches (batches : list Payload) : ctl unit :=
  match batches with
  | [] => mret tt
  | p :: batches =>
      id ← uuid;
      tx ← ask cl_tx;
      _ ← set_tx (reply_try_send (mkControlMessage id (Some p)) tx).1;
      send_batches batches
  end.

(** The address of a connection, empty when it has none. *)
Definition remote_entry (id : N) (sock : option ConnectionTable.SocketAddr) : ConnectionEntry :=
  match sock with
  | Some sock => mkConnectionEntry id (ConnectionType_to_i32 RemoteEntry) (sa_ip sock) (sa_port sock)
  | None => mkConnectionEntry id (ConnectionType_to_i32 RemoteEntry) "" 0
  end.
Definition local_entry (id : N) : ConnectionEntry :=
  mkConnectionEntry id (ConnectionType_to_i32 LocalEntry) "" 0.
(** All three names fall back to the organization. *)
Definition subscription_entry (f : Forwarder ConnectionTable.Connection)
    (e : AgentType * N * list N * list N) : SubscriptionEntry :=
  let '(agent_type, agent_id, local, remote) := e in
  let fallback := fmt_dec (at_organization agent_type) in
  mkSubscriptionEntry
    (default fallback (organization_string agent_type))
    (default fallback (namespace_string agent_type))
    (default fallback (agent_type_string agent_type))
    (Some agent_id)
    (local_entry <$> local)
    ((fun cid => remote_entry cid (get_connection f cid ≫= cn_remote_addr)) <$> remote).
Definition list_subscriptions : ctl unit :=
  mp ← ask cl_message_processor;
  let f := mp_forwarder mp in
  let entries := subscription_entry f <$> SubscriptionTable_for_each (subscription_table f) in
  send_batches (SubscriptionListResponse <$> chunks CHUNK_SIZE entries).

Definition connection_entry (e : nat * ConnectionTable.Connection) : ConnectionEntry :=
  remote_entry (N.of_nat e.1) (cn_remote_addr e.2).
Definition list_connections : ctl unit :=
  mp ← ask cl_message_processor;
  let all_entries := connection_entry <$> ConnectionTable_for_each (connection_table (mp_forwarder mp)) in
  send_batches (ConnectionListResponse <$> chunks CHUNK_SIZE all_entries).

(** ** The handler *)
Definition handle_new_control_message (net : Network) (msg : ControlMessage)
    : ctl (Result unit ControllerError) :=
  match cm_payload msg with
  | Some (ConfigCommand config) => handle_config net (cm_message_id msg) config
  | Some SubscriptionListRequest => _ ← list_subscriptions; mret (Ok tt)
  | Some ConnectionListRequest => _ ← list_connections; mret (Ok tt)
  | Some (PAck _) | Some (SubscriptionListResponse _) | Some (ConnectionListResponse _) => mret (Ok tt)
  | None => mret (Ok tt)
  end.

(** ** Streams

    [sm_running]: whether the task still reads control messages. When it ends,
    its clone of the service is dropped and with it the sender of [tx_slim];
    what was sent is still read by the processor's task, then that stream ends. *)
Record Stream : Type := mkStream {
  sm_running : bool;
  sm_tx_slim : option (N * N);
  sm_tx : Replies;
}.
Record ControlPlane : Type := mkControlPlane {
  cp_message_processor : MessageProcessor;
  cp_connections : gmap string N;
  cp_uuids : N;
  cp_streams : gmap N Stream;
  cp_next : N;
}.
(** [ControllerService::new]. *)
Definition ControllerService_new (mp : MessageProcessor) : ControlPlane := mkControlPlane mp ∅ 0 ∅ 0.

(** [process_control_message_stream]: the spawned task. *)
Definition process_control_message_stream (s : ControlPlane) : ControlPlane * N :=
  (mkControlPlane (cp_message_processor s) (cp_connections s) (cp_uuids s)
     (<[cp_next s := mkStream true None Replies_new]> (cp_streams s)) (cp_next s + 1),
   cp_next s).
(** [open_control_channel]: a stream opened by the peer. *)
Definition open_control_channel (s : ControlPlane) : ControlPlane * N := process_control_message_stream s.

(** [ControllerService::connect]: up to [max_retry] attempts to open a control
    stream to the controller. *)
Fixpoint try_connect (max_retry : nat) (attempts : list bool) (s : ControlPlane)
    : ControlPlane * Result N ControllerError :=
  match max_retry with
  | 0 => (s, Err (ConnectionError "reached max connection retries"))
  | S max_retry =>
      match attempts with
      | true :: _ => let '(s, id) := process_control_message_stream s in (s, Ok id)
      | _ => try_connect max_retry (tail attempts) s
      end
  end.
Definition connect (attempts : list bool) (s : ControlPlane) : ControlPlane * Result N ControllerError :=
  try_connect 10 attempts s.

(** What the [select!] of a stream's loop returns. *)
Inductive ControlEvent : Type :=
| Incoming (net : Network) (msg : ControlMessage)
| StreamFailed
| StreamEnded
| TokenCancelled.

(** The handler's view of a stream, and back. *)
Definition view (s : ControlPlane) (st : Stream) : Ctrl :=
  mkCtrl (cp_message_processor s) (sm_tx_slim st) (cp_connections s) (sm_tx st) (cp_uuids s).
Definition unview (id : N) (c : Ctrl) (s : ControlPlane) : ControlPlane :=
  mkControlPlane (cl_message_processor c) (cl_connections c) (cl_uuids c)
    (<[id := mkStream true (cl_tx_slim c) (cl_tx c)]> (cp_streams s)) (cp_next s).

(** One turn of the loop; an error of the handler is only logged. *)
Definition control_turn (id : N) (ev : ControlEvent) (s : ControlPlane) : panics ControlPlane :=
  match cp_streams s !! id with
  | Some (mkStream true tx_slim tx as st) =>
      match ev with
      | Incoming net msg =>
          '(c, _) ← handle_new_control_message net msg (view s st);
          Done (unview id c s)
      | StreamFailed | StreamEnded | TokenCancelled =>
          Done (mkControlPlane (cp_message_processor s) (cp_connections s) (cp_uuids s)
                  (<[id := mkStream false tx_slim tx]> (cp_streams s)) (cp_next s))
      end
  | _ => Done s
  end.

(** The processor's task of a stream's local connection: it receives the oldest
    message of its channel; when there is none and the sender is gone, the
    stream has ended. *)
Definition next_sent (tx : N) (mp : MessageProcessor) : option (Item * MessageProcessor) :=
  match mp_channels mp !! tx with
  | Some (mkChan o (i :: q)) =>
      Some (i, mkMessageProcessor (mp_forwarder mp) (<[tx := mkChan o q]> (mp_channels mp))
                 (mp_tokens mp) (mp_tasks mp) (mp_next mp))
  | _ => None
  end.
Definition processor_turn (tx task : N) (running : bool) (r1 r2 : nat) (mp : MessageProcessor)
    : panics MessageProcessor :=
  match next_sent tx mp with
  | Some (Delivered msg, mp) => fst <$> stream_event task (Received msg r1 r2) mp
  | Some (InternalStatus _, mp) => fst <$> stream_event task (ReceiveError MessageProcessing.TokenCancelled) mp
  | None =>
      if running then Done mp
      else fst <$> stream_event task (EndOfStream MessageProcessing.TokenCancelled) mp
  end.
Definition data_turn (id : N) (r1 r2 : nat) (s : ControlPlane) : panics ControlPlane :=
  match cp_streams s !! id with
  | Some (mkStream running (Some (tx, task)) _) =>
      mp ← processor_turn tx task running r1 r2 (cp_message_processor s);
      Done (mkControlPlane mp (cp_connections s) (cp_uuids s) (cp_streams s) (cp_next s))
  | _ => Done s
  end.
End model.
End Controller.
Close Scope string_scope.
