(* ===== verification/ControllerProofs.v ===== *)
(** * The controller: lemmas

    What the handler's parts do: batches of a list, the entries made of the
    tables, the connections a command creates, the messages it sends into the
    data plane and what becomes of them there. *)
From stdpp Require Import base list gmap strings pretty numbers option sets.
From S2P Require Import Tls Grpc.
From S2P Require Import Prelude Proto Encoder Messages Pool ConnectionTable.
From S2P Require Import RemoteSubscriptions SubscriptionTable SubscriptionTableProofs SubscriptionTableSpec.
From S2P Require Import Forwarder MessageProcessing MessageProcessingProofs DataPlane Controller.
Import Controller.

(** ** Chunks *)
Section chunks.
Context {A : Type}.
Implicit Type l : list A.

(** The fuel is enough: any more gives the same chunks. *)
Lemma chunks_fuel_enough size fuel : 0 < size -> forall l, length l <= fuel ->
  chunks_fuel fuel size l = chunks size l.
Proof.
  intros Hs. unfold chunks.
  assert (Hany : forall n fuel l, length l <= n -> length l <= fuel ->
    chunks_fuel fuel size l = chunks_fuel n size l).
  { clear fuel. induction n as [|n IH]; intros fuel l Hn Hf.
    - destruct l; [|simpl in Hn; lia]. by destruct fuel.
    - destruct l as [|a l]; [by destruct fuel|]. destruct fuel as [|fuel]; [simpl in Hf; lia|].
      cbn [chunks_fuel]. f_equal. apply IH; rewrite length_drop; simpl in *; lia. }
  intros l Hl. by apply Hany.
Qed.

Lemma chunks_cons size a l : 0 < size ->
  chunks size (a :: l) = take size (a :: l) :: chunks size (drop size (a :: l)).
Proof.
  intros Hs. unfold chunks at 1. cbn [chunks_fuel length]. f_equal.
  apply chunks_fuel_enough; [done|]. rewrite length_drop. simpl. lia.
Qed.

(** Induction along the chunks. *)
Lemma chunks_ind size (P : list A -> Prop) : 0 < size ->
  P [] -> (forall l, l <> [] -> P (drop size l) -> P l) -> forall l, P l.
Proof.
  intros Hs Hnil Hcons l. induction l as [l IH] using (well_founded_ind (well_founded_ltof _ (@length A))). destruct l as [|a l]; [done|]. apply Hcons; [done|]. apply IH.
  unfold ltof. rewrite length_drop. simpl. lia.
Qed.

Lemma concat_chunks size l : 0 < size -> concat (chunks size l) = l.
Proof.
  intros Hs. revert l. apply (chunks_ind size); [done|done|]. intros l Hne IH.
  destruct l as [|a l]; [done|]. rewrite chunks_cons by done. cbn [concat].
  by rewrite IH, take_drop.
Qed.

Lemma chunks_length size l : 0 < size ->
  Forall (fun c => 0 < length c <= size) (chunks size l) /\
  size * length (chunks size l) < length l + size.
Proof.
  intros Hs. revert l. apply (chunks_ind size); [done|split; [constructor|simpl; lia]|]. intros l Hne [IH1 IH2].
  destruct l as [|a l]; [done|]. rewrite chunks_cons by done. split.
  - constructor; [|done]. rewrite length_take. simpl. lia.
  - cbn [length]. rewrite length_drop in IH2. cbn [length] in IH2.
    destruct (decide (S (length l) <= size)) as [Hle|Hgt]; [|lia].
    rewrite drop_ge by (simpl; lia). unfold chunks. simpl. lia.
Qed.
End chunks.

(** ** Batches *)
Section batches.
Context `{Hasher, HashIter, Transport, Telemetry, Uuid}.
Context {C : GrpcClient}.

(** The messages of the batches, the [n]-th identifier first. *)
Definition batch_messages (n : N) (batches : list Payload) : list ControlMessage :=
  imap (fun i p => mkControlMessage (new_v4 (n + N.of_nat i)) (Some p)) batches.

Definition with_replies (s : Ctrl) (r : Replies) (n : N) : Ctrl :=
  mkCtrl (cl_message_processor s) (cl_tx_slim s) (cl_connections s) r n.

(** The channel takes the batches it has room for. *)
Definition replies_after (r : Replies) (l : list ControlMessage) : Replies :=
  if rc_open r then mkReplies true (rc_queue r ++ take (CAPACITY - length (rc_queue r)) l) (rc_read r) else r.

Lemma send_batches_spec batches : forall s,
  send_batches batches s =
  Done (with_replies s (replies_after (cl_tx s) (batch_messages (cl_uuids s) batches))
          (cl_uuids s + N.of_nat (length batches)), tt).
Proof.
  unfold batch_messages, replies_after, with_replies.
  induction batches as [|p batches IH]; intros s; cbn [send_batches].
  { destruct s as [mp t c [[] q rd] u]; cbn -[N.add take]; rewrite ?take_nil, ?app_nil_r; unfold mret, ctl_ret;
      repeat f_equal; lia. }
  unfold mbind, ctl_bind, uuid, ask, set_tx. cbn -[send_batches N.of_nat N.add take].
  rewrite IH. cbn -[N.of_nat N.add take CAPACITY Nat.sub].
  replace (cl_uuids s + N.of_nat (S (length batches)))%N
    with (cl_uuids s + 1 + N.of_nat (length batches))%N by lia.
  destruct s as [mp t c [[] q rd] u]; unfold reply_try_send; cbn -[N.of_nat N.add take CAPACITY Nat.sub]; [|done].
  assert (Hu : forall l, imap (fun i p => mkControlMessage (new_v4 (u + 1 + N.of_nat i)) (Some p)) l =
    imap ((fun i p => mkControlMessage (new_v4 (u + N.of_nat i)) (Some p)) ∘ S) l).
  { intros l. apply imap_ext. intros i x _. cbn [compose]. do 2 f_equal. lia. }
  rewrite Hu. case_bool_decide as Hlen; cbn -[N.of_nat N.add take CAPACITY Nat.sub].
  - rewrite length_app. cbn [length]. unfold CAPACITY in *.
    replace (128 - length q) with (S (128 - (length q + 1))) by lia.
    cbn [take]. replace (u + N.of_nat 0)%N with u by lia. by rewrite <- app_assoc.
  - unfold CAPACITY in *. by replace (128 - length q) with 0 by lia.
Qed.
End batches.

(** ** Entries *)
Section entries.
Context `{HashIter}.

Lemma sub_for_each_elem (t : SubscriptionTable) ty id l r :
  types_ok (st_table t) ->
  (ty, id, l, r) ∈ SubscriptionTable_for_each t <->
  exists s, st_table t !! type_key ty = Some (ty, s) /\ ts_ids s !! id = Some (l, r).
Proof.
  intros Hok. unfold SubscriptionTable_for_each. rewrite list_elem_of_bind. split.
  - intros ([tk [ty' s]]&Hin&Ht). apply list_elem_of_bind in Hin as ([id' [l' r']]&Hin&Hi).
    apply list_elem_of_singleton in Hin as [= -> -> -> ->]. apply hash_iter_elem in Ht, Hi.
    destruct (Hok tk ty' s Ht) as (<-&_). by exists s.
  - intros (s&Ht&Hi). exists (type_key ty, (ty, s)). rewrite hash_iter_elem. split; [|done].
    apply list_elem_of_bind. exists (id, (l, r)). rewrite hash_iter_elem. split; [|done].
    by apply list_elem_of_singleton.
Qed.

(** The agent an entry is about. *)
Definition entry_name (e : AgentType * N * list N * list N) : Agent := mkAgent e.1.1.1 e.1.1.2.

Lemma sub_for_each_nodup (t : SubscriptionTable) :
  types_ok (st_table t) -> NoDup (agent_key <$> (entry_name <$> SubscriptionTable_for_each t)).
Proof.
  intros Hok. rewrite <- list_fmap_compose. apply NoDup_fmap_2_strong.
  - intros [[[ty id] l] r] [[[ty' id'] l'] r'] (s&Ht&Hi)%(sub_for_each_elem t) (s'&Ht'&Hi')%(sub_for_each_elem t);
      [|done..]. unfold compose, agent_key, entry_name; simpl. intros [Htk <-]%pair_equal_spec.
    rewrite Htk in Ht. rewrite Ht in Ht'. injection Ht' as <- <-. rewrite Hi in Hi'. by injection Hi' as <- <-.
  - unfold SubscriptionTable_for_each. apply NoDup_bind.
    + intros [tk [ty s]] [tk' [ty' s']] [[[ty0 id] l] r] Ht Ht' Hin Hin'.
      apply list_elem_of_bind in Hin as ([? [? ?]]&Hin&_), Hin' as ([? [? ?]]&Hin'&_).
      apply list_elem_of_singleton in Hin as [= <- _ _ _], Hin' as [= <- _ _ _].
      apply hash_iter_elem in Ht, Ht'. destruct (Hok _ _ _ Ht) as (<-&_), (Hok _ _ _ Ht') as (<-&_).
      by simplify_eq.
    + intros [tk [ty s]] _. apply NoDup_bind.
      * intros [i [l r]] [i' [l' r']] y _ _ [= ->]%list_elem_of_singleton [= -> -> ->]%list_elem_of_singleton.
        done.
      * intros [i [l r]] _. apply NoDup_singleton.
      * eapply NoDup_fmap_1, hash_iter_keys_nodup.
    + eapply NoDup_fmap_1, hash_iter_keys_nodup.
Qed.

(** The entries' connections are the subscriptions. *)
Lemma sub_for_each_subs (t : SubscriptionTable) S ak b k :
  represents t S ->
  (ak, b, k) ∈ S <->
  exists e, e ∈ SubscriptionTable_for_each t /\ agent_key (entry_name e) = ak /\
    k ∈ side b (e.1.2, e.2).
Proof.
  intros [Hok _ Hm _ _]. specialize (Hm ak b k). unfold tmult, mult in Hm. split.
  - intros Hin. rewrite decide_True in Hm by done. destruct ak as [tk id]. simpl in Hm.
    destruct (st_table t !! tk) as [[ty s]|] eqn:Ht; [|done].
    destruct (ts_ids s !! id) as [[l r]|] eqn:Hi; [|done]. destruct (Hok _ _ _ Ht) as (Hk&_).
    exists (ty, id, l, r). split; [|split].
    + apply sub_for_each_elem; [done|]. exists s. by rewrite Hk.
    + unfold agent_key, entry_name; simpl. by rewrite Hk.
    + simpl. apply occ_pos. lia.
  - intros ([[[ty id] l] r]&(s&Ht&Hi)%sub_for_each_elem&<-&Hk); [|done]. simpl in Hk.
    unfold agent_key, entry_name in Hm |- *; simpl in Hm |- *. rewrite Ht, Hi in Hm.
    apply occ_pos in Hk. destruct (decide _) as [|]; [done|lia].
Qed.

(** Every connection up to [max_set] is listed, once. *)
Lemma conn_for_each_nodup {T} (p : Pool T) : NoDup (ConnectionTable_for_each p).*1.
Proof.
  unfold ConnectionTable_for_each. generalize (NoDup_seq 0 (S (max_set p))).
  generalize (seq 0 (S (max_set p))). intros l Hnd.
  induction Hnd as [|i l Hi Hnd IH]; cbn; [constructor|].
  assert (Hsub : forall j, j ∈ (omap (fun idx => pair idx <$> ConnectionTable_get p idx) l).*1 -> j ∈ l).
  { intros j ([? c]&->&(x&Hx&Hc)%list_elem_of_omap)%list_elem_of_fmap.
    destruct (ConnectionTable_get p x); by simplify_eq/=. }
  destruct (ConnectionTable_get p i) as [c|]; cbn; [|done].
  constructor; [|done]. intros Hin. by apply Hi, Hsub.
Qed.
End entries.

(** ** What a call on the processor leaves alone *)
Section frame.
Context `{Hasher, HashIter, Transport, Telemetry}.
Implicit Type mp : MessageProcessor.

(** The channels and tasks numbered below [n] are as before. *)
Definition keeps_below (n : N) mp mp' : Prop :=
  (n <= mp_next mp')%N /\
  forall j, (j < n)%N ->
    mp_channels mp' !! j = mp_channels mp !! j /\ mp_tasks mp' !! j = mp_tasks mp !! j.

Lemma keeps_below_refl n mp : (n <= mp_next mp)%N -> keeps_below n mp mp.
Proof. by split. Qed.
Lemma keeps_below_trans n mp1 mp2 mp3 :
  keeps_below n mp1 mp2 -> keeps_below n mp2 mp3 -> keeps_below n mp1 mp3.
Proof.
  intros [_ Ha] [Hn Hb]. split; [done|]. intros j Hj.
  destruct (Ha j Hj) as [<- <-]. by apply Hb.
Qed.

Lemma establish_shape c existing mp mp' opt :
  establish c existing mp = Done (mp', opt) -> exists f, mp' = with_forwarder mp f.
Proof.
  unfold establish, mbind, proc_bind, gets, lift, set_forwarder.
  destruct (on_connection_established _ _ _) as [[f o]|]; [|done]. cbn. intros [= <- <-]. by exists f.
Qed.

Definition with_new_channel mp : MessageProcessor :=
  mkMessageProcessor (mp_forwarder mp) (<[mp_next mp := mkChan true []]> (mp_channels mp)) (mp_tokens mp)
    (mp_tasks mp) (mp_next mp + 1).
Definition with_new_token mp : MessageProcessor :=
  mkMessageProcessor (mp_forwarder mp) (mp_channels mp) (<[mp_next mp := false]> (mp_tokens mp))
    (mp_tasks mp) (mp_next mp + 1).
Lemma new_token_runs mp : new_token mp = Done (with_new_token mp, mp_next mp).
Proof. done. Qed.
Lemma new_channel_runs mp : new_channel mp = Done (with_new_channel mp, mp_next mp).
Proof. done. Qed.

Lemma try_to_connect_frame cfg la ra existing max n : forall attempts mp mp' res,
  (n <= mp_next mp)%N -> try_to_connect cfg la ra existing max attempts mp = Done (mp', res) ->
  keeps_below n mp mp'.
Proof.
  induction max as [|max IH]; intros attempts mp mp' res Hn; cbn [try_to_connect].
  { intros [= <- <-]. by apply keeps_below_refl. }
  rewrite (bind_Done _ _ _ _ _ (new_channel_runs mp)).
  assert (Hfail : forall mp1, close_channel (mp_next mp) (with_new_channel mp) = Done (mp1, tt) ->
    try_to_connect cfg la ra existing max (tail attempts) mp1 = Done (mp', res) -> keeps_below n mp mp').
  { intros mp1 [= <-] Hr. apply IH in Hr; [|simpl; lia].
    eapply keeps_below_trans; [|exact Hr]. split; [simpl; lia|]. intros j Hj. simpl.
    by rewrite lookup_alter_ne, lookup_insert_ne by lia. }
  destruct attempts as [|[] attempts].
  1,3: rewrite (bind_Done _ _ _ _ _ (eq_refl : close_channel _ _ = Done (_, tt))); by apply Hfail.
  clear Hfail IH.
  rewrite (bind_Done _ _ _ _ _ (new_token_runs _)).
  unfold mbind, proc_bind at 1.
  match goal with |- context [establish ?c ?e ?m] => destruct (establish c e m) as [[mp1 opt]|] eqn:He end;
    [|done]. apply establish_shape in He as [f ->].
  destruct opt as [k|]; cbn; intros [= <- <-]; (split; [simpl; lia|]); intros j Hj; simpl;
    by rewrite ?lookup_insert_ne by lia.
Qed.

Lemma register_local_connection_shape mp mp' k tx1 tx2 :
  register_local_connection mp = Done (mp', (k, tx1, tx2)) ->
  tx1 = mp_next mp /\ tx2 = (mp_next mp + 1)%N /\ mp_next mp' = (mp_next mp + 4)%N /\
  mp_channels mp' = <[tx2 := mkChan true []]> (<[tx1 := mkChan true []]> (mp_channels mp)) /\
  mp_tasks mp' = <[(mp_next mp + 3)%N := mkTask k None (mp_next mp + 2)%N true]> (mp_tasks mp).
Proof.
  unfold register_local_connection. rewrite (bind_Done _ _ _ _ _ (new_channel_runs mp)).
  rewrite (bind_Done _ _ _ _ _ (new_channel_runs _)).
  rewrite (bind_Done _ _ _ _ _ (new_token_runs _)).
  unfold mbind at 1, proc_bind at 1.
  match goal with |- context [establish ?c ?e ?m] => destruct (establish c e m) as [[mp1 opt]|] eqn:He end;
    [|done]. apply establish_shape in He as [f ->]. destruct opt as [k'|]; cbn; [|done].
  intros [= <- -> <- <-]. cbn. rewrite <- !N.add_assoc. done.
Qed.
End frame.

(** ** Creating connections *)
Section creating.
Context `{Hasher, HashIter, Transport, Telemetry, Uuid}.
Context {C : GrpcClient}.
Implicit Type s : Ctrl.

(** A connection of the data plane, while a command creates others. *)
Definition conn_at s (k : N) : option ConnectionTable.Connection :=
  get_connection (mp_forwarder (cl_message_processor s)) k.

(** What creating connections leaves alone. *)
Record created s s' (S : Subs) : Prop := {
  cr_inv : dp_inv (cl_message_processor s') S;
  cr_frame : keeps_below (mp_next (cl_message_processor s)) (cl_message_processor s) (cl_message_processor s');
  cr_subs : subscription_table (mp_forwarder (cl_message_processor s')) =
    subscription_table (mp_forwarder (cl_message_processor s));
  cr_old : forall k c, conn_at s k = Some c -> conn_at s' k = Some c;
  cr_kept : forall ep k, cl_connections s !! ep = Some k -> cl_connections s' !! ep = Some k;
  cr_rest : cl_tx_slim s' = cl_tx_slim s /\ cl_tx s' = cl_tx s /\ cl_uuids s' = cl_uuids s;
}.

Lemma created_refl s S : dp_inv (cl_message_processor s) S -> created s s S.
Proof. by split. Qed.
Lemma created_trans s1 s2 s3 S : created s1 s2 S -> created s2 s3 S -> created s1 s3 S.
Proof.
  intros [I1 F1 U1 O1 K1 (R1&R1'&R1'')] [I2 F2 U2 O2 K2 (R2&R2'&R2'')]. split; try done; try congruence.
  - eapply keeps_below_trans; [exact F1|]. destruct F1 as [Hn _], F2 as [Hn' F2]. split; [lia|].
    intros j Hj. apply F2. lia.
  - intros k c Hc. by apply O2, O1.
  - intros ep k Hk. by apply K2, K1.
  - repeat split; congruence.
Qed.

(** The endpoint can be connected to. *)
Definition connectable (net : Network) (conn : Connection) : Prop :=
  is_ok (resolve net (client_endpoint conn)) = true /\
  to_channel (from_grpc (client_config (client_endpoint conn))) = true /\
  existsb id (take 10 (nw_attempts net (client_endpoint conn))) = true.
(** The node has a new connection to the endpoint at [k]. *)
Definition fresh_at (net : Network) s s' (ep : string) (k : N) : Prop :=
  conn_at s k = None /\
  exists c sock, conn_at s' k = Some c /\ resolve net ep = Ok sock /\
    is_local_connection c = false /\ cn_remote_addr c = Some sock.

Record create_outcome (net : Network) (conn : Connection) s (S : Subs) s' (res : Result unit ControllerError) : Prop := {
  co_created : created s s' S;
  co_ok : connectable net conn -> res = Ok tt /\ is_Some (cl_connections s' !! client_endpoint conn);
  co_new : forall k, cl_connections s' !! client_endpoint conn = Some k ->
    cl_connections s !! client_endpoint conn = Some k \/ fresh_at net s s' (client_endpoint conn) k;
  co_err : res <> Ok tt -> cl_connections s' = cl_connections s /\ forall k, conn_at s' k = conn_at s k;
  co_other : forall ep, ep <> client_endpoint conn -> cl_connections s' !! ep = cl_connections s !! ep;
}.

(** The turn changes nothing. *)
Lemma create_outcome_refl net conn s S res :
  dp_inv (cl_message_processor s) S ->
  (connectable net conn -> res = Ok tt /\ is_Some (cl_connections s !! client_endpoint conn)) ->
  create_outcome net conn s S s res.
Proof. intros Hinv Hok. split; auto. by apply created_refl. Qed.

Lemma create_connection_spec net conn s S :
  dp_inv (cl_message_processor s) S ->
  exists s' res, create_connection net conn s = Done (s', res) /\ create_outcome net conn s S s' res.
Proof.
  intros Hinv. unfold create_connection. set (ep := client_endpoint conn).
  destruct (resolve net ep) as [sock|e] eqn:Hres.
  2:{ eexists s, _. split; [done|]. apply create_outcome_refl; [done|].
      intros (Ho&_). fold ep in Ho. by rewrite Hres in Ho. }
  unfold mbind, ctl_bind, ask. cbn -[MessageProcessing.connect client_config].
  destruct (cl_connections s !! ep) as [k|] eqn:Hk.
  { eexists s, _. split; [done|]. apply create_outcome_refl; [done|]. fold ep. by rewrite Hk. }
  destruct (to_channel (from_grpc (client_config ep))) eqn:Hch.
  2:{ eexists s, _. split; [done|]. apply create_outcome_refl; [done|].
      intros (_&Hc&_). fold ep in Hc. by rewrite Hch in Hc. }
  set (cfg := from_grpc (client_config ep)) in *. unfold on_processor.
  destruct (connect_total (cl_message_processor s) S (Some cfg) None (Some sock)
    (nw_attempts net ep) Hinv) as (mp'&res&Hrun&Hinv').
  pose proof (try_to_connect_frame _ _ _ _ _ _ _ _ _ _ (N.le_refl _) Hrun) as Hframe.
  pose proof (try_to_connect_spec (Some cfg) None (Some sock) None 10
    (nw_attempts net ep) _ S (proj1 Hinv) I) as Hspec. unfold connect_outcome in Hspec.
  change (try_to_connect _ _ _ None 10 _) with
    (MessageProcessing.connect (Some cfg) None (Some sock) (nw_attempts net ep)) in Hspec.
  rewrite Hrun in Hspec |- *.
  destruct (existsb Datatypes.id (take 10 (nw_attempts net ep))) eqn:Hatt.
  - destruct Hspec as (mp1&id&k&tx&tok&[= <- ->]&[Hi Hg _ Hs _]&Hfree&_). cbn.
    eexists _, (Ok tt). split; [done|]. split; cbn.
    + split; cbn; try done.
      * intros j c Hc. unfold conn_at in *. cbn. rewrite Hg. destruct (decide (j = k)) as [->|]; [|done].
        congruence.
      * intros ep' k' Hk'. rewrite lookup_insert_ne; [done|]. intros <-. congruence.
    + intros _. fold ep. by rewrite lookup_insert_eq.
    + fold ep. intros k'. rewrite lookup_insert_eq. intros [= <-]. right. split; [done|].
      eexists _, sock. unfold conn_at; cbn. rewrite Hg, decide_True by done. done.
    + done.
    + intros ep' Hne. by rewrite lookup_insert_ne.
  - destruct Hspec as (mp1&[= <- ->]&_&Hf&_&_). cbn. eexists _, (Err _). split; [done|].
    assert (Hconn : forall j, get_connection (mp_forwarder mp') j = conn_at s j) by (intros j; by rewrite Hf).
    split; cbn.
    + split; cbn; try done; [by rewrite Hf|]. intros j c. unfold conn_at at 2; cbn. by rewrite Hconn.
    + intros (_&_&Ha). fold ep in Ha. by rewrite Hatt in Ha.
    + auto.
    + intros _. split; [done|]. exact Hconn.
    + done.
Qed.

(** A connection that cannot be created: its address does not resolve, or the
    node is not connected to it and no attempt succeeds. *)
Definition failing (net : Network) (conn : Connection) (connections : gmap string N) : Prop :=
  is_ok (resolve net (client_endpoint conn)) = false \/
  (connections !! client_endpoint conn = None /\
   to_channel (from_grpc (client_config (client_endpoint conn))) = true /\
   existsb id (take 10 (nw_attempts net (client_endpoint conn))) = false).

Lemma create_connection_fails net conn s S :
  dp_inv (cl_message_processor s) S -> failing net conn (cl_connections s) ->
  exists s' e, create_connection net conn s = Done (s', Err e) /\ created s s' S /\
    cl_connections s' = cl_connections s /\ forall k, conn_at s' k = conn_at s k.
Proof.
  intros Hinv Hf. destruct (create_connection_spec net conn s S Hinv) as (s'&res&Hrun&[Hcr _ _ Herr _]).
  assert (Hres : exists e, res = Err e).
  { revert Hrun. unfold create_connection. destruct Hf as [Hf|(Hk&Hch&Hatt)].
    - destruct (resolve net (client_endpoint conn)) as [|e]; [done|]. intros [= <- <-]. by eexists.
    - destruct (resolve net (client_endpoint conn)) as [sock|e]; [|intros [= <- <-]; by eexists].
      unfold mbind, ctl_bind, ask. cbn -[MessageProcessing.connect client_config]. rewrite Hk, Hch.
      pose proof (try_to_connect_spec (Some (from_grpc (client_config (client_endpoint conn)))) None
        (Some sock) None 10 (nw_attempts net (client_endpoint conn)) _ S (proj1 Hinv) I) as Hspec.
      unfold connect_outcome in Hspec. rewrite Hatt in Hspec. destruct Hspec as (mp'&Hr&_).
      unfold on_processor, MessageProcessing.connect. rewrite Hr. cbn. intros [= <- <-]. by eexists. }
  destruct Hres as [e ->]. destruct Herr as [Hc Hg]; [done|]. by exists s', e.
Qed.

Record created_all (net : Network) (l : list Connection) s s' (S : Subs) : Prop := {
  ca_created : created s s' S;
  ca_dom : forall ep, is_Some (cl_connections s' !! ep) <->
    is_Some (cl_connections s !! ep) \/ ep ∈ client_endpoint <$> l;
  ca_new : forall ep k, cl_connections s' !! ep = Some k ->
    cl_connections s !! ep = Some k \/ (cl_connections s !! ep = None /\ fresh_at net s s' ep k);
  ca_distinct : forall ep ep' k, cl_connections s !! ep = None -> cl_connections s !! ep' = None ->
    cl_connections s' !! ep = Some k -> cl_connections s' !! ep' = Some k -> ep = ep';
}.

Lemma created_all_nil net s S : dp_inv (cl_message_processor s) S -> created_all net [] s s S.
Proof.
  intros Hinv. split; [by apply created_refl| |auto|congruence].
  intros ep. cbn. rewrite elem_of_nil. tauto.
Qed.

Lemma created_all_cons net conn l s s1 s2 S :
  create_outcome net conn s S s1 (Ok tt) -> connectable net conn ->
  created_all net l s1 s2 S -> created_all net (conn :: l) s s2 S.
Proof.
  intros [Hc1 Hok1 Hn1 _ Ho1] Hcon [Hc2 Hd2 Hn2 Hi2]. destruct (Hok1 Hcon) as [_ Hsome1].
  set (ep0 := client_endpoint conn) in *.
  assert (Hback : forall ep k, cl_connections s !! ep = None -> cl_connections s1 !! ep = Some k ->
    ep = ep0 /\ fresh_at net s s1 ep k).
  { intros ep k Hnone Hk. destruct (decide (ep = ep0)) as [->|Hne]; [|rewrite Ho1 in Hk by done; congruence].
    destruct (Hn1 k Hk) as [?|]; [congruence|done]. }
  assert (Hfree : forall k, conn_at s1 k = None -> conn_at s k = None).
  { intros k Hk. destruct (conn_at s k) as [c|] eqn:E; [|done]. by rewrite (cr_old _ _ _ Hc1 k c E) in Hk. }
  split.
  - by eapply created_trans.
  - intros ep. rewrite Hd2. cbn. rewrite elem_of_cons. fold ep0.
    destruct (decide (ep = ep0)) as [->|Hne]; [tauto|]. rewrite Ho1 by done. tauto.
  - intros ep k Hk. destruct (Hn2 ep k Hk) as [H1k|(H1n&Hf&c&sock&Hc&Hr&Hl&Ha)].
    + destruct (cl_connections s !! ep) as [k'|] eqn:E.
      * left. rewrite (cr_kept _ _ _ Hc1 ep k' E) in H1k. congruence.
      * right. split; [done|]. destruct (Hback ep k E H1k) as [_ (Hf&c&sock&Hc&Hr)].
        split; [done|]. exists c, sock. split; [by apply (cr_old _ _ _ Hc2)|done].
    + right. destruct (cl_connections s !! ep) as [k'|] eqn:E.
      { rewrite (cr_kept _ _ _ Hc1 ep k' E) in H1n. done. }
      split; [done|]. split; [by apply Hfree|]. by exists c, sock.
  - intros ep ep' k He He' Hk Hk'.
    destruct (Hn2 ep k Hk) as [Ha|(Hna&Hfa&_)], (Hn2 ep' k Hk') as [Hb|(Hnb&Hfb&_)].
    + destruct (Hback ep k He Ha) as [-> _], (Hback ep' k He' Hb) as [-> _]. done.
    + destruct (Hback ep k He Ha) as [_ (_&c&sock&Hc&_)]. congruence.
    + destruct (Hback ep' k He' Hb) as [_ (_&c&sock&Hc&_)]. congruence.
    + by apply (Hi2 ep ep' k).
Qed.

Lemma create_connections_spec net l l' : forall s S,
  dp_inv (cl_message_processor s) S -> Forall (connectable net) l ->
  exists s', create_connections net (l ++ l') s = create_connections net l' s' /\ created_all net l s s' S.
Proof.
  induction l as [|conn l IH]; intros s S Hinv Hall.
  { exists s. split; [done|by apply created_all_nil]. }
  inversion_clear Hall as [|? ? Hcon Hrest]. cbn [app create_connections]. unfold ctl_try at 1, mbind, ctl_bind at 1.
  destruct (create_connection_spec net conn s S Hinv) as (s1&res&->&Hout).
  destruct (co_ok _ _ _ _ _ _ Hout Hcon) as [-> _].
  destruct (IH s1 S (cr_inv _ _ _ (co_created _ _ _ _ _ _ Hout)) Hrest) as (s'&Hrun&Hca).
  exists s'. split; [done|]. by eapply created_all_cons.
Qed.

(** Connections that do not fail: those that can be made are made, once; the
    others are passed over, as their endpoint is connected already or no
    channel can be built for it, which is only logged. *)
#[export] Instance connectable_dec net conn : Decision (connectable net conn).
Proof. unfold connectable. apply _. Defined.

Lemma failing_mono net conn cs cs' :
  (forall ep k, cs !! ep = Some k -> cs' !! ep = Some k) -> failing net conn cs' -> failing net conn cs.
Proof.
  intros Hsub [Hr|(Hn&Hrest)]; [by left|right; split; [|done]].
  destruct (cs !! client_endpoint conn) eqn:E; [|done]. by rewrite (Hsub _ _ E) in Hn.
Qed.
Lemma create_connection_skips net conn s :
  ~ failing net conn (cl_connections s) -> ~ connectable net conn ->
  create_connection net conn s = Done (s, Ok tt).
Proof.
  unfold failing, connectable, create_connection. intros Hf Hc.
  destruct (resolve net (client_endpoint conn)) as [sock|e]; [|destruct Hf; by left].
  unfold mbind, ctl_bind, ask. cbn -[MessageProcessing.connect client_config].
  destruct (cl_connections s !! client_endpoint conn); [done|].
  destruct (to_channel _); [|done].
  destruct (existsb id _); [by destruct Hc|]. destruct Hf. by right.
Qed.
Lemma create_connections_until net l l' : forall s S,
  dp_inv (cl_message_processor s) S -> Forall (fun conn => ~ failing net conn (cl_connections s)) l ->
  exists s', create_connections net (l ++ l') s = create_connections net l' s' /\
    created_all net (filter (connectable net) l) s s' S.
Proof.
  induction l as [|conn l IH]; intros s S Hinv Hall.
  { exists s. split; [done|by apply created_all_nil]. }
  inversion_clear Hall as [|? ? Hok Hrest]. cbn [app create_connections]. unfold ctl_try at 1, mbind, ctl_bind at 1.
  destruct (decide (connectable net conn)) as [Hcon|Hcon].
  - rewrite filter_cons_True by done.
    destruct (create_connection_spec net conn s S Hinv) as (s1&res&->&Hout).
    destruct (co_ok _ _ _ _ _ _ Hout Hcon) as [-> _].
    pose proof (co_created _ _ _ _ _ _ Hout) as Hcr.
    destruct (IH s1 S (cr_inv _ _ _ Hcr)) as (s'&Hrun&Hca).
    { eapply Forall_impl; [exact Hrest|]. intros c Hc Hf. apply Hc.
      eapply failing_mono; [|exact Hf]. apply (cr_kept _ _ _ Hcr). }
    exists s'. split; [done|]. by eapply created_all_cons.
  - rewrite filter_cons_False by done. rewrite create_connection_skips by done. by apply IH.
Qed.
End creating.

(** ** Into the data plane *)
Section feeding.
Context `{Hasher, HashIter, Transport, Telemetry, Uuid}.
Context {C : GrpcClient}.
Implicit Types (s : Ctrl) (mp : MessageProcessor).

(** The connection of a task that nobody receives from. *)
Definition deaf mp (k : N) : Prop :=
  exists c tx q, get_connection (mp_forwarder mp) k = Some c /\ cn_channel c = Server tx /\
    (tx < mp_next mp)%N /\ mp_channels mp !! tx = Some (mkChan false q).
(** The channel of a stream's local connection: open, holding [q], and read by
    a task of that connection, whose own channel is closed. *)
Definition slim_ok mp (t : N * N) (q : list Item) : Prop :=
  (t.1 < mp_next mp)%N /\ (t.2 < mp_next mp)%N /\ mp_channels mp !! t.1 = Some (mkChan true q) /\
  exists k tok, mp_tasks mp !! t.2 = Some (mkTask k None tok true) /\ deaf mp k.

Lemma slim_ok_frame mp mp' t q :
  keeps_below (mp_next mp) mp mp' ->
  (forall k c, get_connection (mp_forwarder mp) k = Some c -> get_connection (mp_forwarder mp') k = Some c) ->
  slim_ok mp t q -> slim_ok mp' t q.
Proof.
  intros [Hn Hk] Hold (H1t&H2t&Hc&kc&tok&Ht&c&tx&q'&Hcn&Hs&Htx&Hch). split; [lia|]. split; [lia|].
  destruct (Hk _ H1t) as [-> _], (Hk _ H2t) as [_ ->]. split; [done|]. exists kc, tok. split; [done|].
  exists c, tx, q'. destruct (Hk _ Htx) as [-> _]. split; [by apply Hold|]. split; [done|]. split; [lia|done].
Qed.
(** The stream's channel gets other items. *)
Lemma slim_ok_set mp t q q' :
  slim_ok mp t q -> slim_ok (with_channels mp (<[t.1 := mkChan true q']> (mp_channels mp))) t q'.
Proof.
  intros (H1t&H2t&Hc&kc&tok&Ht&c&tx&q0&Hcn&Hs&Htx&Hch). split; [done|]. split; [done|]. cbn.
  rewrite lookup_insert_eq. split; [done|]. exists kc, tok. split; [done|]. exists c, tx, q0.
  split; [done|]. split; [done|]. split; [done|]. cbn. rewrite lookup_insert_ne; [done|]. congruence.
Qed.
(** The tables change, the connections stay. *)
Lemma slim_ok_forwarder mp f t q :
  connection_table f = connection_table (mp_forwarder mp) -> slim_ok mp t q -> slim_ok (with_forwarder mp f) t q.
Proof.
  intros Hct (H1t&H2t&Hc&kc&tok&Ht&c&tx&q0&Hcn&Hs&Htx&Hch). split; [done|]. split; [done|].
  split; [done|]. exists kc, tok. split; [done|]. exists c, tx, q0. unfold get_connection in *. cbn.
  by rewrite Hct.
Qed.

(** The items waiting for the processor. *)
Definition slim_holds s (q : list Item) : Prop :=
  match cl_tx_slim s with
  | None => q = []
  | Some t => slim_ok (cl_message_processor s) t q
  end.

Lemma dp_inv_channel mp S tx c :
  is_Some (mp_channels mp !! tx) -> dp_inv mp S ->
  dp_inv (with_channels mp (<[tx := c]> (mp_channels mp))) S.
Proof.
  intros Htx [[Hfw Hch Hw Hsub Hfr] Ht]. split; [split; simpl|].
  - done.
  - intros k cn Hk. destruct (Hch k cn Hk) as (tx'&Hc&Hs). exists tx'. split; [done|].
    apply lookup_insert_is_Some'. by right.
  - exact Hw.
  - exact Hsub.
  - intros tx' [<-|Hs]%lookup_insert_is_Some'; by apply Hfr.
  - by apply (tasks_ok_same mp).
Qed.

(** What sending into the data plane leaves alone. *)
Record fed s s' (S : Subs) : Prop := {
  fd_inv : dp_inv (cl_message_processor s') S;
  fd_subs : subscription_table (mp_forwarder (cl_message_processor s')) =
    subscription_table (mp_forwarder (cl_message_processor s));
  fd_old : forall k c, conn_at s k = Some c -> conn_at s' k = Some c;
  fd_rest : cl_connections s' = cl_connections s /\ cl_tx s' = cl_tx s /\ cl_uuids s' = cl_uuids s;
}.
Lemma fed_refl s S : dp_inv (cl_message_processor s) S -> fed s s S.
Proof. by split. Qed.
Lemma fed_trans s1 s2 s3 S : fed s1 s2 S -> fed s2 s3 S -> fed s1 s3 S.
Proof.
  intros [I1 U1 O1 (R1&R1'&R1'')] [I2 U2 O2 (R2&R2'&R2'')]. split; try done; try congruence.
  - intros k c Hc. by apply O2, O1.
  - repeat split; congruence.
Qed.

Lemma get_or_init_spec s S q :
  dp_inv (cl_message_processor s) S -> slim_holds s q ->
  exists s' tx task, get_or_init s = Done (s', tx) /\ fed s s' S /\
    cl_tx_slim s' = Some (tx, task) /\ slim_ok (cl_message_processor s') (tx, task) q.
Proof.
  intros Hinv Hq. unfold get_or_init, slim_holds in *. unfold mbind at 1, ctl_bind at 1, ask at 1.
  destruct (cl_tx_slim s) as [[tx task]|] eqn:Hs.
  { exists s, tx, task. split; [done|]. split; [by apply fed_refl|]. done. }
  subst q. set (mp := cl_message_processor s) in *.
  destruct (register_local_connection_opens mp S (proj1 Hinv)) as (mp1&k&tx1&tx2&tok&Hrun&Hop).
  destruct (register_local_connection_shape mp mp1 k tx1 tx2 Hrun) as (->&->&Hn&Hch&Htk).
  pose proof (opened_inv _ _ _ _ _ _ Hinv Hop eq_refl eq_refl eq_refl) as Hinv1.
  destruct Hop as [_ Hfree Hconn _ _ Hsub].
  destruct (close_channel_inv mp1 S (mp_next mp + 1)%N (proj1 Hinv1)) as (mp2&Hcl&Hi2&Hf2&Ht2).
  unfold mbind, ctl_bind, on_processor. fold mp. rewrite Hrun. cbn [panics_bind mbind]. cbn. rewrite Hcl. cbn.
  assert (Hmp2 : mp_channels mp2 !! mp_next mp = Some (mkChan true []) /\ mp_next mp2 = (mp_next mp + 4)%N /\
    mp_channels mp2 !! (mp_next mp + 1)%N = Some (mkChan false [])).
  { injection Hcl as <-. cbn. rewrite Hch. rewrite lookup_alter_ne, lookup_alter_eq by lia.
    rewrite lookup_insert_ne, !lookup_insert_eq by lia. done. }
  destruct Hmp2 as (Hch2&Hn2&Hrx).
  eexists _, _, _. split; [done|]. split; [split; cbn|split; [done|]].
  - split; [done|]. apply (tasks_ok_same mp1); [|apply Hinv1]. split; [by rewrite Hf2|done].
  - by rewrite Hf2.
  - intros j c Hc. unfold conn_at in *. cbn. rewrite Hf2, Hconn.
    destruct (decide (j = k)) as [->|]; [|done]. fold mp in Hc. congruence.
  - done.
  - rewrite Hn2. split; cbn; [lia|]. split; [lia|]. split; [done|].
    rewrite Ht2, Htk. replace (mp_next mp + 4 - 1)%N with (mp_next mp + 3)%N by lia.
    rewrite lookup_insert_eq. eexists _, _. split; [done|]. eexists _, _, _. rewrite Hf2, Hconn, decide_True by done.
    split; [done|]. split; [done|]. rewrite Hn2. split; [lia|exact Hrx].
Qed.

Lemma send_control_message_spec s S q msg :
  dp_inv (cl_message_processor s) S -> slim_holds s q ->
  exists s', send_control_message msg s = Done (s', Ok tt) /\ fed s s' S /\
    slim_holds s' (q ++ [Delivered msg]).
Proof.
  intros Hinv Hq. destruct (get_or_init_spec s S q Hinv Hq) as (s1&tx&task&Hrun&Hfed&Hslim&Hok).
  unfold send_control_message. unfold mbind at 1, ctl_bind at 1. rewrite Hrun.
  assert (Hch : mp_channels (cl_message_processor s1) !! tx = Some (mkChan true q)) by apply Hok.
  set (mp := cl_message_processor s1) in *.
  assert (Hsend : send tx (Delivered msg) mp =
    Done (with_channels mp (<[tx := mkChan true (q ++ [Delivered msg])]> (mp_channels mp)), Ok tt)).
  { unfold send, mbind, proc_bind, gets, set_channels. cbn. by rewrite Hch. }
  unfold mbind, ctl_bind, on_processor. fold mp. rewrite Hsend. cbn.
  eexists. split; [done|]. split.
  - destruct Hfed as [Hi Hs Ho Hr]. split; cbn; [|exact Hs|exact Ho|exact Hr].
    apply dp_inv_channel; [by rewrite Hch|done].
  - unfold slim_holds; cbn. rewrite Hslim. by apply (slim_ok_set mp (tx, task) q).
Qed.

(** The messages of a list of subscriptions: one for each whose connection is
    known. *)
Definition sub_items (set : bool) (connections : gmap string N) (l : list Subscription) : list Item :=
  omap (fun sub => k ← connections !! su_connection_id sub;
          match sub_message set sub k with Done m => Some (Delivered m) | Panic _ => None end) l.

Lemma sub_message_done set sub k : exists m, sub_message set sub k = Done m.
Proof. destruct set; by eexists. Qed.

Lemma apply_subscriptions_spec set l : forall s S q,
  dp_inv (cl_message_processor s) S -> slim_holds s q ->
  exists s', apply_subscriptions set l s = Done (s', tt) /\ fed s s' S /\
    slim_holds s' (q ++ sub_items set (cl_connections s) l).
Proof.
  induction l as [|sub l IH]; intros s S q Hinv Hq; cbn [apply_subscriptions].
  { exists s. rewrite app_nil_r. split; [done|]. split; [by apply fed_refl|done]. }
  assert (Hone : exists s1, apply_subscription set sub s = Done (s1, tt) /\ fed s s1 S /\
    slim_holds s1 (q ++ sub_items set (cl_connections s) [sub])).
  { unfold apply_subscription, sub_items. unfold mbind at 1, ctl_bind at 1, ask. cbn.
    destruct (cl_connections s !! su_connection_id sub) as [k|]; cbn.
    - destruct (sub_message_done set sub k) as [m Hm]. unfold mbind at 1, ctl_bind at 1, may_panic. rewrite Hm. cbn.
      destruct (send_control_message_spec s S q m Hinv Hq) as (s1&Hrun&Hf&Hs). unfold mbind, ctl_bind. rewrite Hrun.
      by exists s1.
    - exists s. rewrite app_nil_r. split; [done|]. split; [by apply fed_refl|done]. }
  destruct Hone as (s1&Hrun&Hfed&Hslim). unfold mbind at 1, ctl_bind at 1. rewrite Hrun.
  destruct (IH s1 S _ (fd_inv _ _ _ Hfed) Hslim) as (s2&Hrun2&Hfed2&Hslim2).
  exists s2. split; [done|]. split; [by eapply fed_trans|].
  destruct (fd_rest _ _ _ Hfed) as (Hconn&_). rewrite Hconn, <- app_assoc in Hslim2.
  unfold sub_items in *. cbn in *. by destruct (_ ≫= _).
Qed.
End feeding.

(** ** What the data plane makes of the messages *)
Section draining.
Context `{Hasher, HashIter, Transport, Telemetry}.
Implicit Type mp : MessageProcessor.

(** The table operation a subscription asks for, on connection [k]. *)
Definition sub_op_at (set : bool) (sub : Subscription) (k : N) (b : bool) : sub_op :=
  sub_op_of set (sub_type sub, su_agent_id sub) k b.

(** Reading a control subscription: where it is registered, and that it is not
    forwarded. *)
Lemma sub_message_handled mp S set sub k c m conn is_local r1 r2 :
  mp_inv mp S -> sub_message set sub k = Done m ->
  get_connection (mp_forwarder mp) k = Some c ->
  op_ok S (sub_op_at set sub k (is_local_connection c)) ->
  exists f' res, handle_new_message conn is_local m r1 r2 mp = Done (with_forwarder mp f', res) /\
    mp_inv (with_forwarder mp f') (spec_op S (sub_op_at set sub k (is_local_connection c))).1 /\
    connection_table f' = connection_table (mp_forwarder mp).
Proof.
  intros Hinv Hm Hc Hok.
  set (h := SlimHeader_new (sub_source sub) (sub_type sub) (su_agent_id sub) (recv_from_flags k)).
  assert (Hmsg : exists t, pm_message_type m = Some t /\ try_get_slim_header m = Some h /\ traceable m /\
    match t with Subscribe x => set = true /\ sub_name t (ProtoAgent_from_type (sub_type sub) (su_agent_id sub)) = (sub_type sub, su_agent_id sub)
    | Unsubscribe _ => set = false | Publish _ => False end).
  { destruct set; injection Hm as <-; eexists; (split; [done|]); (split; [done|]); (split; [|done]).
    all: split; [|intros _; by eexists].
    all: eexists _, _, _; split; [done|]; split; [done|]; by split. }
  destruct Hmsg as (t&Ht&Hh&Htr&Hty).
  destruct (entered_done conn m t h Htr Ht Hh) as (m'&t'&Hent&Htr'&Ht'&Hrw&Hh').
  rewrite (handle_new_message_valid conn is_local m m' r1 r2 mp Htr Hent).
  set (dst := ProtoAgent_from_type (sub_type sub) (su_agent_id sub)) in *.
  assert (Hd : sh_destination (SlimHeader_set_incoming_conn (Some conn) h) = Some dst) by done.
  pose proof (get_name_rewritten _ m' t t' h dst Ht' Hh' Hrw Hd) as Hname.
  assert (Hop : op_ok S (sub_op_of set (sub_name t dst) k (is_local_connection c)) /\
    spec_op S (sub_op_of set (sub_name t dst) k (is_local_connection c)) =
    spec_op S (sub_op_at set sub k (is_local_connection c))).
  { destruct t as [x|x|x]; [destruct Hty as [-> ->]; done|subst set; done|done]. }
  destruct Hop as [Hok' Heq]. rewrite <- Heq. clear Heq.
  destruct (on_subscription_msg_total (mp_forwarder mp) S (sub_name t dst) k (is_local_connection c) set
    (mi_fw mp S Hinv) Hok') as (f'&res&Hon&Hwf'&Hct).
  assert (Hproc : exists res', process_message m' conn r1 r2 mp = Done (with_forwarder mp f', res')).
  { assert (Hps : process_message m' conn r1 r2 mp = process_subscription m' conn set mp).
    { unfold process_message, get_type. rewrite Ht'.
      destruct t, t'; try done; [by destruct Hty as [-> _]|by subst set]. }
    rewrite Hps. unfold process_subscription.
    rewrite (bind_Done _ _ _ _ _ (lift_Done _ mp _ Hname)). destruct (sub_name t dst) as [ty id]. cbv beta iota.
    rewrite (bind_Done _ _ mp mp (SlimHeader_set_incoming_conn (Some conn) h))
      by (apply lift_Done; by rewrite get_slim_header_try, Hh').
    rewrite (bind_Done _ _ _ _ _ (lift_Done _ mp _ (in_out_connections conn h))). cbv beta iota.
    rewrite (bind_Done _ _ _ _ _ (eq_refl : gets mp_forwarder mp = Done (mp, _))).
    change (sub_conn conn h) with k. rewrite Hc. cbn [fst snd] in Hon.
    rewrite (bind_Done _ _ _ _ _ (lift_Done _ mp _ Hon)). cbv beta iota.
    rewrite (bind_Done _ _ _ _ _ (eq_refl : set_forwarder f' mp = Done (with_forwarder mp f', tt))).
    destruct res; by eexists. }
  destruct Hproc as [res' Hproc]. rewrite (bind_Done _ _ _ _ _ Hproc). eexists f', _. split; [done|].
  split; [|done]. apply (mp_inv_with_forwarder mp S); [done..|]. intros ak b j [Hin|[-> ->]]%spec_op_subs.
  - by eapply mi_subs.
  - by exists c.
Qed.

Lemma slim_ok_next mp t i q :
  slim_ok mp t (i :: q) ->
  next_sent t.1 mp = Some (i, with_channels mp (<[t.1 := mkChan true q]> (mp_channels mp))) /\
  slim_ok (with_channels mp (<[t.1 := mkChan true q]> (mp_channels mp))) t q.
Proof.
  intros Hok. destruct (Hok) as (_&_&Hc&_). unfold next_sent. rewrite Hc. split; [done|].
  by apply (slim_ok_set mp t (i :: q)).
Qed.

(** The error of a message goes nowhere: nobody receives from the connection. *)
Lemma send_error_deaf mp k e : deaf mp k -> send_error_to_local_app k e mp = Done (mp, tt).
Proof.
  intros (c&tx&q&Hc&Hs&_&Hch). unfold send_error_to_local_app, send, mbind, proc_bind, gets.
  rewrite Hc, Hs. cbn. by rewrite Hch.
Qed.

Lemma processor_turn_sub mp S t q set sub k c m running r1 r2 :
  dp_inv mp S -> slim_ok mp t (Delivered m :: q) -> sub_message set sub k = Done m ->
  get_connection (mp_forwarder mp) k = Some c ->
  op_ok S (sub_op_at set sub k (is_local_connection c)) ->
  exists mp', processor_turn t.1 t.2 running r1 r2 mp = Done mp' /\
    dp_inv mp' (spec_op S (sub_op_at set sub k (is_local_connection c))).1 /\ slim_ok mp' t q /\
    connection_table (mp_forwarder mp') = connection_table (mp_forwarder mp).
Proof.
  intros Hinv Hslim Hm Hc Hok. destruct (slim_ok_next mp t _ q Hslim) as [Hnext Hslim1].
  unfold processor_turn. rewrite Hnext. set (mp1 := with_channels mp _) in *.
  assert (Hinv1 : dp_inv mp1 S).
  { apply dp_inv_channel; [|done]. destruct Hslim as (_&_&->&_). done. }
  destruct (Hslim1) as (_&_&_&kc&tok&Ht&_).
  destruct (sub_message_handled mp1 S set sub k c m kc true r1 r2 (proj1 Hinv1) Hm Hc Hok)
    as (f'&res&Hrun&Hinv'&Hct).
  unfold stream_event. rewrite (bind_Done _ _ _ _ _ (eq_refl : gets mp_tasks mp1 = Done (mp1, _))). rewrite Ht.
  cbn [tk_conn_index tk_is_local]. rewrite (bind_Done _ _ _ _ _ Hrun).
  set (mp2 := with_forwarder mp1 f') in *.
  assert (Hinv2 : dp_inv mp2 (spec_op S (sub_op_at set sub k (is_local_connection c))).1).
  { split; [done|]. apply (tasks_ok_same mp1); [by split|apply Hinv1]. }
  assert (Hslim2 : slim_ok mp2 t q) by (by apply slim_ok_forwarder).
  destruct res as [u|e]; [by exists mp2|].
  destruct (Hslim2) as (_&_&_&kc'&tok'&Ht'&Hdeaf).
  assert (kc' = kc) as -> by (change (mp_tasks mp2) with (mp_tasks mp1) in Ht'; congruence).
  rewrite (send_error_deaf mp2 kc e Hdeaf). by exists mp2.
Qed.
End draining.

(** ** Orders: subscriptions to set ([true]) and to delete ([false]) *)
Section orders.
Context `{Hasher, HashIter, Transport, Telemetry, Uuid}.
Context {C : GrpcClient}.
Implicit Type mp : MessageProcessor.

Definition orders (config : ConfigurationCommand) : list (bool * Subscription) :=
  (pair true <$> subscriptions_to_set config) ++ (pair false <$> subscriptions_to_delete config).

Definition order_item (connections : gmap string N) (o : bool * Subscription) : option Item :=
  k ← connections !! su_connection_id o.2;
  match sub_message o.1 o.2 k with Done m => Some (Delivered m) | Panic _ => None end.
Definition side_of mp (k : N) : option bool :=
  is_local_connection <$> get_connection (mp_forwarder mp) k.
Definition order_op (connections : gmap string N) mp (o : bool * Subscription) : option sub_op :=
  k ← connections !! su_connection_id o.2;
  b ← side_of mp k;
  Some (sub_op_at o.1 o.2 k b).

Lemma sub_items_orders set connections l :
  sub_items set connections l = omap (order_item connections) (pair set <$> l).
Proof. unfold sub_items, order_item. induction l as [|x l IH]; cbn; [done|]. by rewrite IH. Qed.
Lemma orders_items connections config :
  omap (order_item connections) (orders config) =
  sub_items true connections (subscriptions_to_set config) ++
  sub_items false connections (subscriptions_to_delete config).
Proof. unfold orders. by rewrite !sub_items_orders, omap_app. Qed.

(** The known connections are those of the data plane. *)
Definition all_live (connections : gmap string N) mp : Prop :=
  forall ep k, connections !! ep = Some k -> is_Some (get_connection (mp_forwarder mp) k).

(** The processor's task reads [n] messages of the stream's channel. *)
Fixpoint drain (t : N * N) (running : bool) (draws : list (nat * nat)) mp : panics MessageProcessor :=
  match draws with
  | [] => Done mp
  | (r1, r2) :: draws => mp ← processor_turn t.1 t.2 running r1 r2 mp; drain t running draws mp
  end.

Lemma order_op_table connections mp mp' o :
  connection_table (mp_forwarder mp') = connection_table (mp_forwarder mp) ->
  order_op connections mp' o = order_op connections mp o.
Proof. intros Hct. unfold order_op, side_of, get_connection. by rewrite Hct. Qed.

Lemma drain_spec connections t running l : forall draws mp S,
  dp_inv mp S -> slim_ok mp t (omap (order_item connections) l) -> all_live connections mp ->
  ops_ok S (omap (order_op connections mp) l) ->
  length draws = length (omap (order_item connections) l) ->
  exists mp', drain t running draws mp = Done mp' /\
    dp_inv mp' (spec_ops S (omap (order_op connections mp) l)).1 /\ slim_ok mp' t [] /\
    connection_table (mp_forwarder mp') = connection_table (mp_forwarder mp).
Proof.
  induction l as [|[set sub] l IH]; intros draws mp S Hinv Hslim Hlive Hok Hlen.
  { destruct draws; [|done]. by exists mp. }
  destruct (connections !! su_connection_id sub) as [k|] eqn:Hk.
  2:{ assert (Hi : order_item connections (set, sub) = None) by (unfold order_item; cbn; by rewrite Hk).
      assert (Ho : order_op connections mp (set, sub) = None) by (unfold order_op; cbn; by rewrite Hk).
      cbn in *. rewrite Hi in *. rewrite Ho in *. by apply IH. }
  destruct (Hlive _ _ Hk) as [c Hc]. destruct (sub_message_done set sub k) as [m Hm].
  assert (Hi : order_item connections (set, sub) = Some (Delivered m))
    by (unfold order_item; cbn; rewrite Hk; cbn; by rewrite Hm).
  assert (Hop : order_op connections mp (set, sub) = Some (sub_op_at set sub k (is_local_connection c)))
    by (unfold order_op, side_of; cbn; rewrite Hk; cbn; by rewrite Hc).
  cbn [omap list_omap] in *. rewrite Hi in Hslim, Hlen. rewrite Hop in *. cbn in Hslim, Hlen, Hok |- *.
  destruct draws as [|[r1 r2] draws]; [done|]. injection Hlen as Hlen. destruct Hok as [Ho Hops].
  destruct (processor_turn_sub mp S t _ set sub k c m running r1 r2 Hinv Hslim Hm Hc Ho)
    as (mp1&Hturn&Hinv1&Hslim1&Hct). cbn [drain]. rewrite Hturn. cbn.
  destruct (spec_op S _) as [S1 b1]. cbn [fst] in *.
  assert (Heq : omap (order_op connections mp1) l = omap (order_op connections mp) l).
  { apply list_omap_ext, Forall_Forall2_diag, list.Forall_true. intros o. by apply order_op_table. }
  destruct (IH draws mp1 S1 Hinv1 Hslim1) as (mp'&Hrun&Hinv'&Hslim'&Hct'); [|by rewrite Heq|done|].
  { intros ep k' Hk'. unfold get_connection in *. rewrite Hct. by apply (Hlive ep). }
  exists mp'. split; [done|]. rewrite Heq in Hinv'. split; [|split; [done|congruence]].
  by destruct (spec_ops S1 _).
Qed.
End orders.
