(* ===== verification/ControllerClaims.v ===== *)
(** * The controller: theorems

    A configuration command, carried out by the handler and then by the data
    plane, performs the subscriptions it orders on the connections it names;
    what an error leaves behind; what the lists report; and what goes wrong
    when a connection known to the controller has ended. *)
From stdpp Require Import base list gmap strings pretty numbers option sets.
From S2P Require Import Provider ReceiverBuffer AuthTypes KeyResolver FileWatcher Jwt JwtBuilder JwtMiddleware AuthConfig Tls Grpc GrpcClaims.
From S2P Require Import Prelude Proto Encoder Messages Pool ConnectionTable.
From S2P Require Import RemoteSubscriptions SubscriptionTable SubscriptionTableProofs SubscriptionTableSpec.
From S2P Require Import Forwarder MessageProcessing MessageProcessingProofs DataPlane Controller ControllerProofs.
Import Controller.

Section handling.
Context `{Hasher, HashIter, Transport, Telemetry, Uuid}.
Context {C : GrpcClient}.
Implicit Types (s : Ctrl) (config : ConfigurationCommand).

(** The reply to a command. *)
Definition ack_of s (message_id : string) : ControlMessage :=
  mkControlMessage (new_v4 (cl_uuids s)) (Some (PAck (mkAck message_id true []))).

Lemma slim_holds_created s s' S q : created s s' S -> slim_holds s q -> slim_holds s' q.
Proof.
  intros [_ Hf _ Hold _ (Hs&_)]. unfold slim_holds. rewrite Hs. destruct (cl_tx_slim s); [|done].
  by apply slim_ok_frame.
Qed.

Lemma all_live_created net l s s' S :
  created_all net l s s' S -> all_live (cl_connections s) (cl_message_processor s) ->
  all_live (cl_connections s') (cl_message_processor s').
Proof.
  intros [Hcr _ Hnew _] Hlive ep k Hk. destruct (Hnew ep k Hk) as [Hold|(_&_&c&_&Hc&_)].
  - destruct (Hlive ep k Hold) as [c Hc]. exists c. by apply (cr_old _ _ _ Hcr).
  - by exists c.
Qed.

(** The handler's part of a command all of whose connections can be made. *)
Lemma handle_config_spec s S net id config :
  dp_inv (cl_message_processor s) S -> slim_holds s [] ->
  Forall (connectable net) (connections_to_create config) ->
  exists s1 s2 s', handle_config net id config s = Done (s', Ok tt) /\
    created_all net (connections_to_create config) s s1 S /\ fed s1 s2 S /\
    slim_holds s2 (omap (order_item (cl_connections s1)) (orders config)) /\
    s' = with_replies s2 (reply_send (ack_of s id) (cl_tx s)) (cl_uuids s + 1).
Proof.
  intros Hinv Hslim Hall.
  destruct (create_connections_spec net (connections_to_create config) [] s S Hinv Hall) as (s1&Hrun&Hca).
  rewrite app_nil_r in Hrun. unfold handle_config, ctl_try. unfold mbind at 1, ctl_bind at 1. rewrite Hrun.
  cbn [create_connections mret ctl_ret]. pose proof (ca_created _ _ _ _ _ Hca) as Hcr.
  destruct (apply_subscriptions_spec true (subscriptions_to_set config) s1 S [] (cr_inv _ _ _ Hcr)
    (slim_holds_created _ _ _ _ Hcr Hslim)) as (sa&Ha&Hfa&Hsa).
  unfold mbind at 1, ctl_bind at 1. rewrite Ha.
  destruct (apply_subscriptions_spec false (subscriptions_to_delete config) sa S _ (fd_inv _ _ _ Hfa) Hsa)
    as (sb&Hb&Hfb&Hsb).
  unfold mbind at 1, ctl_bind at 1. rewrite Hb. cbn.
  destruct (fd_rest _ _ _ Hfa) as (Hc1&Ht1&Hu1). destruct (fd_rest _ _ _ Hfb) as (Hc2&Ht2&Hu2).
  destruct (cr_rest _ _ _ Hcr) as (_&Ht0&Hu0).
  exists s1, sb. eexists. split; [done|]. split; [done|]. split; [by eapply fed_trans|]. split.
  - rewrite orders_items, <- Hc1. rewrite Hc1 at 1. exact Hsb.
  - unfold with_replies, ack_of. cbn. rewrite Ht2, Ht1, Ht0, Hu2, Hu1, Hu0. done.
Qed.
End handling.

(** C7: A configuration command is carried out when all its addresses resolve
    and can be connected to ([connectable]), the connections the controller has
    recorded all exist ([all_live]; otherwise [stale_connection_misroutes]), and
    nothing this stream sent before is still waiting to be read by the data plane
    ([slim_holds s []]). The handler then connects exactly the endpoints it did
    not know, each to an index that was free, keeps the others, and puts an
    acknowledgement in the reply channel, if it is open ([reply_send]). It does
    not touch the subscription table itself. Once the data plane has read what
    the handler sent, the table holds the subscriptions the orders make of those
    it held, each set or deleted, in order, on the connection named by its
    endpoint, provided the orders delete only what their connection is subscribed
    for, or types it has no subscription for ([ops_ok]; otherwise
    [foreign_unsubscribe_corrupts]); orders that name no known endpoint have no
    effect. *)
Theorem controller_configures `{Hasher, HashIter, Transport, Telemetry, Uuid} {C : GrpcClient}
    (s : Ctrl) S net id config :
  dp_inv (cl_message_processor s) S -> slim_holds s [] ->
  all_live (cl_connections s) (cl_message_processor s) ->
  Forall (connectable net) (connections_to_create config) ->
  exists s', handle_new_control_message net (mkControlMessage id (Some (ConfigCommand config))) s =
      Done (s', Ok tt) /\
    cl_tx s' = reply_send (ack_of s id) (cl_tx s) /\
    (forall ep, is_Some (cl_connections s' !! ep) <->
      is_Some (cl_connections s !! ep) \/ ep ∈ client_endpoint <$> connections_to_create config) /\
    (forall ep k, cl_connections s' !! ep = Some k ->
      cl_connections s !! ep = Some k \/ (cl_connections s !! ep = None /\ fresh_at net s s' ep k)) /\
    dp_inv (cl_message_processor s') S /\
    let mp' := cl_message_processor s' in
    let items := omap (order_item (cl_connections s')) (orders config) in
    let ops := omap (order_op (cl_connections s') mp') (orders config) in
    match cl_tx_slim s' with
    | None => items = []
    | Some t => forall running draws, ops_ok S ops -> length draws = length items ->
        exists mp'', drain t running draws mp' = Done mp'' /\ dp_inv mp'' (spec_ops S ops).1
    end.
Proof.
  intros Hinv Hslim Hlive Hall.
  destruct (handle_config_spec s S net id config Hinv Hslim Hall) as (s1&s2&s'&Hrun&Hca&Hfed&Hs2&Hs').
  exists s'. split; [exact Hrun|]. destruct (fd_rest _ _ _ Hfed) as (Hcon&_).
  assert (Hmp : cl_message_processor s' = cl_message_processor s2) by (by rewrite Hs').
  assert (Hcs : cl_connections s' = cl_connections s1) by (by rewrite Hs').
  assert (Hsl : cl_tx_slim s' = cl_tx_slim s2) by (by rewrite Hs').
  assert (Hat : forall k c, conn_at s1 k = Some c -> conn_at s' k = Some c).
  { intros k c Hc. unfold conn_at. rewrite Hmp. by apply (fd_old _ _ _ Hfed). }
  split; [by rewrite Hs'|]. rewrite Hcs, Hsl. split; [apply (ca_dom _ _ _ _ _ Hca)|].
  split; [|split; [rewrite Hmp; apply (fd_inv _ _ _ Hfed)|]].
  { intros ep k Hk. destruct (ca_new _ _ _ _ _ Hca ep k Hk) as [?|(Hn&Hf&c&sock&Hc&Hr)]; [by left|].
    right. split; [done|]. split; [done|]. exists c, sock. split; [by apply Hat|done]. }
  rewrite Hmp. cbn zeta. unfold slim_holds in Hs2. destruct (cl_tx_slim s2) as [t|]; [|done].
  intros running draws Hok Hlen.
  destruct (drain_spec (cl_connections s1) t running (orders config) draws _ S (fd_inv _ _ _ Hfed) Hs2)
    as (mp''&Hdr&Hinv''&_); [|done|done|by exists mp''].
  intros ep k Hk. destruct (all_live_created _ _ _ _ _ Hca Hlive ep k Hk) as [c Hc].
  exists c. rewrite <- Hmp. by apply Hat.
Qed.

(** C36: A connection of a command fails when its address does not resolve, or
    when its endpoint is not connected, a channel can be built for it and none
    of the ten attempts succeeds. At the first connection that fails the
    handler stops with an error: of those before it exactly the ones that can
    be made have been made and stay, none of the command's subscriptions is set
    or deleted, and nothing is replied: the controller gets neither an
    acknowledgement nor the error. A connection for which no channel can be
    built does not fail: the code logs that and goes on, and so does the
    handler here. *)
Theorem config_error_partial `{Hasher, HashIter, Transport, Telemetry, Uuid} {C : GrpcClient}
    (s : Ctrl) S net id config pre conn post :
  dp_inv (cl_message_processor s) S ->
  connections_to_create config = pre ++ conn :: post ->
  Forall (fun c => ~ failing net c (cl_connections s)) pre -> failing net conn (cl_connections s) ->
  exists s' e, handle_new_control_message net (mkControlMessage id (Some (ConfigCommand config))) s =
      Done (s', Err e) /\
    dp_inv (cl_message_processor s') S /\ cl_tx s' = cl_tx s /\ cl_tx_slim s' = cl_tx_slim s /\
    (forall ep, is_Some (cl_connections s' !! ep) <->
      is_Some (cl_connections s !! ep) \/
      exists c, c ∈ pre /\ connectable net c /\ client_endpoint c = ep) /\
    forall q, slim_holds s q -> slim_holds s' q.
Proof.
  intros Hinv Hl Hall Hfail.
  destruct (create_connections_until net pre (conn :: post) s S Hinv Hall) as (s1&Hrun&Hca).
  pose proof (ca_created _ _ _ _ _ Hca) as Hcr.
  assert (Hdom : forall ep, is_Some (cl_connections s1 !! ep) <-> is_Some (cl_connections s !! ep) \/
    exists c, c ∈ pre /\ connectable net c /\ client_endpoint c = ep).
  { intros ep. rewrite (ca_dom _ _ _ _ _ Hca), list_elem_of_fmap. setoid_rewrite list_elem_of_filter.
    naive_solver. }
  assert (Hfail1 : failing net conn (cl_connections s1)).
  { destruct Hfail as [Hr|(Hk&Hch&Hatt)]; [by left|right; split; [|done]].
    apply eq_None_not_Some. rewrite Hdom, Hk. intros [[? ?]|(c&_&(_&_&Ha)&Hep)]; [done|].
    rewrite Hep in Ha. congruence. }
  destruct (create_connection_fails net conn s1 S (cr_inv _ _ _ Hcr) Hfail1) as (s'&e&Hrun'&Hcr'&Hcon&_).
  exists s', e. pose proof (created_trans _ _ _ _ Hcr Hcr') as [Hi _ _ _ _ (Hs&Ht&_)].
  split; [|split; [done|split; [done|split; [done|split]]]].
  - cbn. unfold handle_config, ctl_try. unfold mbind at 1, ctl_bind at 1. rewrite Hl, Hrun.
    cbn [create_connections]. unfold ctl_try. unfold mbind at 1, ctl_bind at 1. rewrite Hrun'. done.
  - intros ep. rewrite Hcon. apply Hdom.
  - intros q Hq. eapply slim_holds_created; [exact Hcr'|]. by eapply slim_holds_created.
Qed.

(** A command of subscriptions whose connections the controller does not
    know changes nothing in the node, and is acknowledged as a success. *)
Theorem unknown_connection_acked `{Hasher, HashIter, Transport, Telemetry, Uuid} {C : GrpcClient}
    (s : Ctrl) net id sets dels :
  Forall (fun sub => cl_connections s !! su_connection_id sub = None) (sets ++ dels) ->
  handle_new_control_message net
    (mkControlMessage id (Some (ConfigCommand (mkConfigurationCommand [] sets dels)))) s =
  Done (with_replies s (reply_send (ack_of s id) (cl_tx s)) (cl_uuids s + 1), Ok tt).
Proof.
  intros [Hs Hd]%Forall_app.
  assert (Hskip : forall set l, Forall (fun sub => cl_connections s !! su_connection_id sub = None) l ->
    apply_subscriptions set l s = Done (s, tt)).
  { intros set l. induction 1 as [|sub l Hsub _ IH]; [done|]. cbn [apply_subscriptions].
    unfold apply_subscription. unfold mbind at 1 2, ctl_bind at 1 2, ask. cbn. by rewrite Hsub. }
  cbn. unfold handle_config, ctl_try, mbind, ctl_bind. cbn. by rewrite !Hskip by done.
Qed.

(** A control stream has a data plane connection of its own, made when it
    first sends into the data plane. When the stream has ended and what it sent
    has been read, that connection goes; the connections and subscriptions it
    configured stay, with every other connection. *)
Theorem stream_end_keeps_config `{Hasher, HashIter, Transport, Telemetry}
    (s : ControlPlane) S id t r k tok r1 r2 :
  dp_inv (cp_message_processor s) S ->
  cp_streams s !! id = Some (mkStream false (Some t) r) ->
  slim_ok (cp_message_processor s) t [] ->
  mp_tasks (cp_message_processor s) !! t.2 = Some (mkTask k None tok true) ->
  exists s', data_turn id r1 r2 s = Done s' /\
    dp_inv (cp_message_processor s') (filter (fun e => e.2 <> k) S) /\
    get_connection (mp_forwarder (cp_message_processor s')) k = None /\
    (forall j, j <> k -> get_connection (mp_forwarder (cp_message_processor s')) j =
       get_connection (mp_forwarder (cp_message_processor s)) j) /\
    cp_connections s' = cp_connections s /\ data_turn id r1 r2 s' = Done s'.
Proof.
  intros Hinv Hst (_&_&Hch&_) Ht. set (mp := cp_message_processor s) in *. destruct t as [tx task].
  cbn [fst snd] in *. set (tsk := mkTask k None tok true) in *.
  assert (Hnext : next_sent tx mp = None) by (unfold next_sent; by rewrite Hch).
  assert (Hrun : stream_event task (EndOfStream MessageProcessing.TokenCancelled) mp = Done (dropped mp task tsk, tt)).
  { unfold stream_event. rewrite (bind_Done _ _ _ _ _ (eq_refl : gets mp_tasks mp = Done (mp, _))). rewrite Ht.
    apply finish_stream_drops. by right. }
  pose proof (fw_conns _ S (mi_fw mp S (proj1 Hinv))) as Hwf.
  eexists (mkControlPlane (dropped mp task tsk) _ _ _ _). split; [|split; [|split; [|split; [|split]]]].
  - unfold data_turn. rewrite Hst. unfold processor_turn. fold mp. rewrite Hnext, Hrun. done.
  - by apply (dropped_inv mp S task tsk).
  - cbn. by rewrite get_connection_drop, decide_True.
  - intros j Hj. cbn. by rewrite get_connection_drop, decide_False.
  - done.
  - unfold data_turn. cbn. rewrite Hst. unfold processor_turn.
    assert (Hnext' : next_sent tx (dropped mp task tsk) = None) by (unfold next_sent; cbn; by rewrite Hch).
    rewrite Hnext'. unfold stream_event.
    rewrite (bind_Done _ _ _ _ _ (eq_refl : gets mp_tasks (dropped mp task tsk) = Done (_, _))).
    cbn [dropped mp_tasks]. by rewrite lookup_delete_eq.
Qed.

(** ** Lists *)
Section lists.
Context `{Hasher, HashIter, Transport, Telemetry, Uuid}.
Context {C : GrpcClient}.
Implicit Type s : Ctrl.

(** The replies a list request gets when the channel has room for them. *)
Lemma list_replies {A} (wrap : list A -> Payload) (entries : list A) s :
  rc_open (cl_tx s) = true -> rc_queue (cl_tx s) = [] -> length entries <= CAPACITY * CHUNK_SIZE ->
  exists batches, send_batches (wrap <$> chunks CHUNK_SIZE entries) s =
      Done (with_replies s (mkReplies true (batch_messages (cl_uuids s) (wrap <$> batches)) (rc_read (cl_tx s)))
              (cl_uuids s + N.of_nat (length batches)), tt) /\
    concat batches = entries /\ Forall (fun b => 0 < length b <= CHUNK_SIZE) batches.
Proof.
  intros Hopen Hq Hlen. assert (Hsize : 0 < CHUNK_SIZE) by (unfold CHUNK_SIZE; lia).
  exists (chunks CHUNK_SIZE entries). destruct (chunks_length CHUNK_SIZE entries Hsize) as [Hall Hnum].
  split; [|split; [by apply concat_chunks|done]].
  rewrite send_batches_spec, length_fmap. unfold replies_after. rewrite Hopen, Hq. cbn [length app].
  rewrite Nat.sub_0_r, take_ge; [done|]. unfold batch_messages. rewrite length_imap, length_fmap.
  unfold CAPACITY, CHUNK_SIZE in *. lia.
Qed.

(** The connections an entry reports on one side. *)
Definition entry_conns (b : bool) (e : SubscriptionEntry) : list N :=
  ce_id <$> (if b then se_local_connections e else se_remote_connections e).
(** The entry is that of the agent: its names as they were subscribed with,
    and its id. *)
Definition entry_for (a : Agent) (e : SubscriptionEntry) : Prop :=
  se_agent_id e = Some (ag_agent_id a) /\
  forall o n t, at_strings (ag_agent_type a) = Some (o, n, t) ->
    se_organization e = o /\ se_namespace e = n /\ se_agent_type e = t.

Lemma subscription_entry_conns f e b :
  entry_conns b (subscription_entry f e) = side b (e.1.2, e.2).
Proof.
  destruct e as [[[ty id] l] r]. unfold entry_conns. destruct b; cbn; rewrite <- list_fmap_compose.
  - rewrite <- (list_fmap_id l) at 2. by apply list_fmap_ext.
  - rewrite <- (list_fmap_id r) at 2. apply list_fmap_ext. intros i k _. cbn.
    by destruct (get_connection f k ≫= cn_remote_addr).
Qed.
Lemma subscription_entry_for f e : entry_for (entry_name e) (subscription_entry f e).
Proof.
  destruct e as [[[ty id] l] r]. split; [done|]. cbn. intros o n t Hs.
  unfold organization_string, namespace_string, agent_type_string. by rewrite Hs.
Qed.
End lists.

(** C31: A request for the subscriptions, made while the reply channel is open
    and empty, of a node with subscriptions for at most 12800 agents (the 128
    batches of 100 entries for which the channel has room; batches beyond that are
    dropped with a log entry), is answered with batches of at most a hundred
    entries, which together have one entry for every agent that is subscribed
    for; its connections on each side are exactly those of the agent's
    subscriptions in the table. Nothing else changes. *)
Theorem subscription_list_exact `{Hasher, HashIter, Transport, Telemetry, Uuid} {C : GrpcClient}
    (s : Ctrl) S net id :
  let mp := cl_message_processor s in
  mp_inv mp S -> rc_open (cl_tx s) = true -> rc_queue (cl_tx s) = [] ->
  length (SubscriptionTable_for_each (subscription_table (mp_forwarder mp))) <= CAPACITY * CHUNK_SIZE ->
  exists s' batches agents,
    handle_new_control_message net (mkControlMessage id (Some SubscriptionListRequest)) s = Done (s', Ok tt) /\
    rc_queue (cl_tx s') = batch_messages (cl_uuids s) (SubscriptionListResponse <$> batches) /\
    s' = with_replies s (cl_tx s') (cl_uuids s') /\
    Forall (fun b => 0 < length b <= CHUNK_SIZE) batches /\
    Forall2 entry_for agents (concat batches) /\ NoDup (agent_key <$> agents) /\
    forall ak b k, (ak, b, k) ∈ S <->
      exists i a e, agents !! i = Some a /\ concat batches !! i = Some e /\ agent_key a = ak /\
        k ∈ entry_conns b e.
Proof.
  intros mp Hinv Hopen Hq Hlen. set (f := mp_forwarder mp) in *.
  set (l := SubscriptionTable_for_each (subscription_table f)) in *.
  pose proof (fw_subs _ _ (mi_fw mp S Hinv)) as Hrep. fold f in Hrep.
  destruct (list_replies SubscriptionListResponse (subscription_entry f <$> l) s Hopen Hq)
    as (batches&Hrun&Hcat&Hall); [by rewrite length_fmap|].
  match type of Hrun with _ = Done (?x, _) => exists x, batches, (entry_name <$> l) end. rewrite Hcat. split; [|split; [done|]].
  { unfold handle_new_control_message, list_subscriptions, mbind, ctl_bind, ask. cbn [cm_payload].
    fold mp f l. by rewrite Hrun. }
  split; [done|]. split; [done|]. split; [|split].
  - apply Forall2_fmap, Forall_Forall2_diag, list.Forall_true. intros e. apply subscription_entry_for.
  - apply sub_for_each_nodup. by destruct Hrep.
  - intros ak b k. rewrite (sub_for_each_subs (subscription_table f) S ak b k Hrep). fold l.
    setoid_rewrite list_lookup_fmap. split.
    + intros (e&[i Hi]%list_elem_of_lookup_1&Hk&Hc). exists i, (entry_name e), (subscription_entry f e).
      rewrite Hi. cbn. by rewrite subscription_entry_conns.
    + intros (i&a&e'&Ha&He&Hk&Hc). destruct (l !! i) as [e|] eqn:Hi; cbn in *; simplify_eq.
      exists e. split; [by apply list_elem_of_lookup_2 in Hi|]. split; [done|].
      by rewrite subscription_entry_conns in Hc.
Qed.

(** A request for the connections is answered, when the table's upper
    bound holds, with one entry for every connection of the data plane, each
    with the connection's remote address when it has one; every entry says that
    the connection is a remote one, local applications' connections included. *)
Theorem connection_list_exact `{Hasher, HashIter, Transport, Telemetry, Uuid} {C : GrpcClient}
    (s : Ctrl) net id :
  let f := mp_forwarder (cl_message_processor s) in
  max_set_ok (connection_table f) -> rc_open (cl_tx s) = true -> rc_queue (cl_tx s) = [] ->
  length (ConnectionTable_for_each (connection_table f)) <= CAPACITY * CHUNK_SIZE ->
  exists s' batches,
    handle_new_control_message net (mkControlMessage id (Some ConnectionListRequest)) s = Done (s', Ok tt) /\
    rc_queue (cl_tx s') = batch_messages (cl_uuids s) (ConnectionListResponse <$> batches) /\
    NoDup (ce_id <$> concat batches) /\
    forall e, e ∈ concat batches <->
      exists c, get_connection f (ce_id e) = Some c /\ e = remote_entry (ce_id e) (cn_remote_addr c).
Proof.
  intros f Hmax Hopen Hq Hlen. set (l := ConnectionTable_for_each (connection_table f)) in *.
  destruct (list_replies ConnectionListResponse (connection_entry <$> l) s Hopen Hq)
    as (batches&Hrun&Hcat&Hall); [by rewrite length_fmap|].
  match type of Hrun with _ = Done (?x, _) => exists x, batches end. rewrite Hcat. split; [|split; [done|]].
  { unfold handle_new_control_message, list_connections, mbind, ctl_bind, ask. cbn [cm_payload].
    fold f l. by rewrite Hrun. }
  assert (Hid : forall n o, ce_id (remote_entry n o) = n) by (by intros n []). split.
  - rewrite <- list_fmap_compose.
    replace ((ce_id ∘ connection_entry) <$> l) with (N.of_nat <$> l.*1).
    { apply NoDup_fmap_2; [intros x y; apply Nat2N.inj|apply conn_for_each_nodup]. }
    rewrite <- list_fmap_compose. apply list_fmap_ext. intros i [k c] _. cbn. unfold connection_entry. by rewrite Hid.
  - intros e. rewrite list_elem_of_fmap. unfold get_connection, ConnectionTable_get. split.
    + intros ([k c]&->&[_ Hk]%for_each_elem). exists c.
      unfold connection_entry. cbn [fst snd]. rewrite !Hid, Nat2N.id. done.
    + intros (c&Hc&He). exists (N.to_nat (ce_id e), c). split.
      * unfold connection_entry. cbn [fst snd]. by rewrite N2Nat.id.
      * apply for_each_elem. split; [|done]. by apply Hmax.
Qed.

(** ** The gRPC layer

    The transport of [GrpcClaims] takes the configurations the handler makes:
    making a channel of one does not panic. *)
Section grpc.
Context `{JsonWebToken} `{Headers} `{Rustls} `{Notify} `{GrpcLib} `{YamlToJson} `{HashIter} `{BuildProfile}.
Context (fs : FileSystem).

Lemma client_config_returns ep : returned (Grpc.to_channel fs (client_config ep)) = true.
Proof.
  unfold Grpc.to_channel. cbn -[String.append]. case_decide; [done|].
  destruct (Grpc.parse_uri _); [|done].
  assert (Hnil : hash_iter (∅ : gmap string string) = []).
  { apply Permutation_nil_r. by rewrite hash_iter_perm, map_to_list_empty. }
  rewrite Hnil. done.
Qed.

Definition usable (c : Grpc.ClientConfig) : UsableClient fs :=
  match Bool.bool_dec (returned (Grpc.to_channel fs c)) true with
  | left Hr => mkUsableClient fs c Hr
  | right _ => mkUsableClient fs (client_config "") (client_config_returns "")
  end.
Definition grpc_client : @GrpcClient (grpc_transport fs) := @Build_GrpcClient (grpc_transport fs) usable.

Lemma usable_client_config ep : usable_client fs (usable (client_config ep)) = client_config ep.
Proof.
  unfold usable. destruct (Bool.bool_dec _ true) as [|Hn]; [done|]. by destruct Hn; apply client_config_returns.
Qed.
End grpc.

(** ** A concrete run *)
Definition demo_uuid : Uuid := {| new_v4 := pretty |}.
Definition demo_grpc_client : @GrpcClient demo_transport := @Build_GrpcClient demo_transport (fun _ => tt).

Module ControllerDemo.
#[local] Existing Instances toy_hasher hash_iter_sorted demo_transport demo_telemetry demo_uuid demo_grpc_client.

Definition node_addr : SocketAddr := mkSocketAddr "10.0.0.1" 8000.
Definition peer_addr : SocketAddr := mkSocketAddr "10.0.0.9" 9999.
Definition node : Connection := mkConnection "a" "10.0.0.1" 8000.
Definition net : Network :=
  mkNetwork (fun ep => if decide (ep = "10.0.0.1:8000"%string) then Ok [node_addr] else Err "no such host"%string)
    (fun _ => [false; true]).
Definition sub (id : N) (conn : string) : Subscription := mkSubscription "org" "ns" "app" (Some id) conn.
Definition command (id : N) : ConfigurationCommand :=
  mkConfigurationCommand [node] [sub id "10.0.0.1:8000"] [].
Definition start : Ctrl := mkCtrl MessageProcessor_new None ∅ Replies_new 0.

Definition after_ctl {A} (c : ctl A) (s : Ctrl) : Ctrl := match c s with Done (s', _) => s' | Panic _ => s end.
Definition send_command (id : N) (s : Ctrl) : Ctrl :=
  after_ctl (handle_new_control_message net (mkControlMessage "m" (Some (ConfigCommand (command id))))) s.
Definition read_one (s : Ctrl) : Ctrl :=
  match cl_tx_slim s with
  | Some t => match drain t true [(0, 0)] (cl_message_processor s) with
              | Done mp => mkCtrl mp (cl_tx_slim s) (cl_connections s) (cl_tx s) (cl_uuids s)
              | Panic _ => s
              end
  | None => s
  end.
(** The command is carried out, the node's connection is lost for good, and a
    peer connects. *)
Definition configured : Ctrl := read_one (send_command 5 start).
Definition task : N := 3.
Definition lost : MessageProcessor :=
  Demo.after (stream_event task (EndOfStream (Connecting []))) (cl_message_processor configured).
Definition replaced : Ctrl :=
  mkCtrl (Demo.after (open_channel (Some peer_addr) None) lost) (cl_tx_slim configured) (cl_connections configured)
    (cl_tx configured) (cl_uuids configured).

(** Three peers connect and the third one leaves. *)
Definition accept (s : MessageProcessor) : MessageProcessor := Demo.after (open_channel (Some peer_addr) None) s.
Definition three : MessageProcessor := accept (accept (accept MessageProcessor_new)).
Definition one_left : MessageProcessor := Demo.after (stream_event 8 (EndOfStream MessageProcessing.TokenCancelled)) three.
Definition with_mp (mp : MessageProcessor) : Ctrl := mkCtrl mp None ∅ Replies_new 0.

Lemma one_left_reachable : rtc dp_step MessageProcessor_new one_left.
Proof.
  assert (Hacc : forall s, Demo.panic_free (open_channel (Some peer_addr) None s) = true -> dp_step s (accept s)).
  { intros s Hs. destruct (Demo.after_done (open_channel (Some peer_addr) None) s Hs) as [tx Hr].
    by eapply StepAccept. }
  apply (rtc_l dp_step _ (accept MessageProcessor_new)); [apply Hacc; by vm_compute|].
  apply (rtc_l dp_step _ (accept (accept MessageProcessor_new))); [apply Hacc; by vm_compute|].
  apply (rtc_l dp_step _ three); [apply Hacc; by vm_compute|]. apply rtc_once.
  destruct (mp_tasks three !! 8%N) as [t|] eqn:Ht; [|by vm_compute in Ht].
  destruct (Demo.after_done (stream_event 8 (EndOfStream MessageProcessing.TokenCancelled)) three) as [[] Hr];
    [by vm_compute|].
  refine (StepEvent three one_left 8%N t _ Ht _ Hr). intros S _ i r Hi.
  assert (Hnone : get_subscriptions_forwarded_on_connection (mp_forwarder three) (tk_conn_index t) = ∅)
    by reflexivity.
  exfalso. rewrite Hnone in Hi. clear -Hi. revert Hi. rewrite lookup_empty. discriminate.
Qed.
End ControllerDemo.

(** When three peers are connected and the last one leaves, the list of
    connections has the first one only: the second is connected but not
    listed, as the table's upper bound has dropped below it. *)
Theorem connection_list_misses :
  rtc (dp_step (H:=toy_hasher) (H0:=hash_iter_sorted) (H1:=demo_transport) (H2:=demo_telemetry))
    MessageProcessor_new ControllerDemo.one_left /\
  is_Some (get_connection (mp_forwarder ControllerDemo.one_left) 1) /\
  exists s', handle_new_control_message (H:=toy_hasher) (H0:=hash_iter_sorted) (H1:=demo_transport)
      (H3:=demo_uuid) (C:=demo_grpc_client) ControllerDemo.net
      (mkControlMessage "m" (Some ConnectionListRequest)) (ControllerDemo.with_mp ControllerDemo.one_left) =
      Done (s', Ok tt) /\
    rc_queue (cl_tx s') = [mkControlMessage "0" (Some (ConnectionListResponse [mkConnectionEntry 0 1 "10.0.0.9" 9999]))].
Proof.
  split; [apply ControllerDemo.one_left_reachable|]. split; [vm_compute; by eexists|].
  eexists. split; [vm_compute; reflexivity|]. vm_compute. reflexivity.
Qed.

(** The controller does not notice that a connection has ended. After the
    connection to a node is lost and a peer has taken its place in the table, a
    command for the node's endpoint does not connect to it again, and the
    subscription it orders is registered for the peer; the command is
    acknowledged as a success. *)
Theorem stale_connection_misroutes :
  let s := ControllerDemo.replaced in
  let s' := ControllerDemo.send_command 6 s in
  let mp' := cl_message_processor (ControllerDemo.read_one s') in
  cl_connections s !! "10.0.0.1:8000"%string = Some 0%N /\
  get_connection (mp_forwarder ControllerDemo.lost) 0 = None /\
  cl_connections s' = cl_connections s /\
  (cn_remote_addr <$> get_connection (mp_forwarder mp') 0) = Some (Some ControllerDemo.peer_addr) /\
  tmult (st_table (subscription_table (mp_forwarder mp')))
    (agent_key (Agent_from_strings (H:=toy_hasher) "org" "ns" "app" 6)) false 0 = 1 /\
  rc_queue (cl_tx s') = rc_queue (cl_tx s) ++ [mkControlMessage "1" (Some (PAck (mkAck "m" true [])))].
Proof. cbv zeta. repeat apply conj; vm_compute; reflexivity. Qed.

(** ** Witnesses *)
Module ControllerWitness.
Import ControllerDemo.
#[local] Existing Instances toy_hasher hash_iter_sorted demo_transport demo_telemetry demo_uuid demo_grpc_client.

Lemma node_connectable : Forall (connectable net) [node].
Proof. constructor; [|constructor]. split; [|split]; vm_compute; reflexivity. Qed.
Lemma start_inv : dp_inv (cl_message_processor start) ∅.
Proof. apply dp_inv_new. Qed.
Lemma start_live : all_live (cl_connections start) (cl_message_processor start).
Proof. intros ep k Hk. cbn in Hk. by rewrite lookup_empty in Hk. Qed.

(** The processor after the command, and its stream ended. *)
Lemma configured_inv : exists S, dp_inv (cl_message_processor configured) S.
Proof.
  destruct (handle_config_spec start ∅ net "m" (command 5) start_inv eq_refl node_connectable)
    as (s1&s2&s'&Hrun&Hca&Hfed&Hs2&->).
  assert (Hsc : send_command 5 start = with_replies s2 (reply_send (ack_of start "m") (cl_tx start)) (cl_uuids start + 1)).
  { unfold send_command, after_ctl. cbn [handle_new_control_message cm_payload cm_message_id]. by rewrite Hrun. }
  assert (Ht : cl_tx_slim s2 = Some (4%N, 7%N)).
  { change (cl_tx_slim s2) with (cl_tx_slim (with_replies s2 (reply_send (ack_of start "m") (cl_tx start)) (cl_uuids start + 1))).
    rewrite <- Hsc. vm_compute. reflexivity. }
  unfold slim_holds in Hs2. rewrite Ht in Hs2.
  destruct (drain_spec (cl_connections s1) (4%N, 7%N) true (orders (command 5)) [(0, 0)] _ ∅ (fd_inv _ _ _ Hfed) Hs2)
    as (mp'&Hdr&Hinv&_).
  - intros ep k Hk. destruct (all_live_created _ _ _ _ _ Hca start_live ep k Hk) as [c Hc].
    exists c. by apply (fd_old _ _ _ Hfed).
  - change (cl_message_processor s2) with (cl_message_processor
      (with_replies s2 (reply_send (ack_of start "m") (cl_tx start)) (cl_uuids start + 1))).
    destruct (fd_rest _ _ _ Hfed) as (<-&_). change (cl_connections s2) with (cl_connections
      (with_replies s2 (reply_send (ack_of start "m") (cl_tx start)) (cl_uuids start + 1))).
    rewrite <- Hsc. apply (bool_decide_unpack _). vm_compute. exact I.
  - destruct (fd_rest _ _ _ Hfed) as (<-&_). change (cl_connections s2) with (cl_connections
      (with_replies s2 (reply_send (ack_of start "m") (cl_tx start)) (cl_uuids start + 1))).
    rewrite <- Hsc. vm_compute. reflexivity.
  - eexists. unfold configured, read_one. rewrite Hsc. cbn [with_replies cl_tx_slim cl_message_processor]. rewrite Ht, Hdr.
    exact Hinv.
Qed.
Definition ended : ControlPlane :=
  mkControlPlane (cl_message_processor configured) (cl_connections configured) 0
    {[ 0%N := mkStream false (Some (4%N, 7%N)) Replies_new ]} 1.

Lemma controller_configures_witness :
  exists s' k, handle_new_control_message net (mkControlMessage "m" (Some (ConfigCommand (command 5)))) start =
      Done (s', Ok tt) /\
    cl_connections s' !! "10.0.0.1:8000"%string = Some k /\ fresh_at net start s' "10.0.0.1:8000" k.
Proof.
  destruct (controller_configures start ∅ net "m" (command 5) start_inv eq_refl start_live node_connectable)
    as (s'&Hrun&_&Hdom&Hnew&_).
  destruct (proj2 (Hdom "10.0.0.1:8000"%string)) as [k Hk].
  { right. cbn. apply list_elem_of_singleton. vm_compute. reflexivity. }
  exists s', k. split; [exact Hrun|]. split; [exact Hk|].
  destruct (Hnew _ _ Hk) as [Hn|[_ Hf]]; [|exact Hf]. cbn in Hn. rewrite lookup_empty in Hn. discriminate.
Defined.

Lemma config_error_partial_witness :
  exists s' e, handle_new_control_message net
      (mkControlMessage "m" (Some (ConfigCommand (mkConfigurationCommand
         [node; mkConnection "b" "nowhere" 1] [sub 5 "10.0.0.1:8000"] [])))) start = Done (s', Err e) /\
    is_Some (cl_connections s' !! "10.0.0.1:8000"%string).
Proof.
  destruct (config_error_partial start ∅ net "m" (mkConfigurationCommand
         [node; mkConnection "b" "nowhere" 1] [sub 5 "10.0.0.1:8000"] []) [node] (mkConnection "b" "nowhere" 1) []
    start_inv eq_refl) as (s'&e&Hrun&_&_&_&Hdom&_).
  - constructor; [|constructor]. intros [H|(_&_&H)]; vm_compute in H; discriminate.
  - left. vm_compute. reflexivity.
  - exists s', e. split; [exact Hrun|]. apply Hdom. right. exists node. split; [by left|].
    split; [apply (Forall_inv node_connectable)|]. vm_compute. reflexivity.
Defined.

Lemma stream_end_keeps_config_witness :
  exists S s', data_turn 0 0 0 ended = Done s' /\
    dp_inv (cp_message_processor s') (filter (fun e => e.2 <> 1%N) S).
Proof.
  destruct configured_inv as [S Hinv].
  destruct (stream_end_keeps_config ended S 0%N (4%N, 7%N) Replies_new 1%N 6%N 0 0 Hinv) as (s'&Hrun&Hinv'&_).
  - vm_compute. reflexivity.
  - split; [vm_compute; reflexivity|]. split; [vm_compute; reflexivity|]. split; [vm_compute; reflexivity|].
    exists 1%N, 6%N. split; [vm_compute; reflexivity|].
    eexists _, 5%N, []. split; [vm_compute; reflexivity|]. split; [vm_compute; reflexivity|].
    split; vm_compute; reflexivity.
  - vm_compute. reflexivity.
  - exists S, s'. exact (conj Hrun Hinv').
Defined.

Lemma unknown_connection_acked_witness :
  exists s', handle_new_control_message net
      (mkControlMessage "m" (Some (ConfigCommand (mkConfigurationCommand [] [sub 5 "x"] [])))) start =
      Done (s', Ok tt).
Proof.
  eexists. apply (unknown_connection_acked start net "m" [sub 5 "x"] []).
  constructor; [|constructor]. cbn. apply lookup_empty.
Defined.

Lemma subscription_list_exact_witness :
  exists S s' batches, mp_inv Demo.state S /\
    handle_new_control_message net (mkControlMessage "m" (Some SubscriptionListRequest)) (with_mp Demo.state) =
      Done (s', Ok tt) /\
    rc_queue (cl_tx s') = batch_messages 0 (SubscriptionListResponse <$> batches).
Proof.
  destruct Demo.state_inv as [S [Hinv _]].
  destruct (subscription_list_exact (with_mp Demo.state) S net "m" Hinv eq_refl eq_refl) as (s'&batches&_&Hrun&Hq&_).
  - apply Nat.leb_le. vm_compute. reflexivity.
  - exists S, s', batches. exact (conj Hinv (conj Hrun Hq)).
Defined.

Lemma connection_list_exact_witness :
  exists s' batches, max_set_ok (connection_table (mp_forwarder Demo.state)) /\
    handle_new_control_message net (mkControlMessage "m" (Some ConnectionListRequest)) (with_mp Demo.state) =
      Done (s', Ok tt) /\
    rc_queue (cl_tx s') = batch_messages 0 (ConnectionListResponse <$> batches).
Proof.
  assert (Hmax : max_set_ok (connection_table (mp_forwarder Demo.state))).
  { destruct Demo.state_inv as [S [Hinv _]]. intros i Hi.
    destruct (decide (i <= max_set (connection_table (mp_forwarder Demo.state)))) as [|Hn]; [done|exfalso].
    assert (Hlt : i < capacity (connection_table (mp_forwarder Demo.state)))
      by (apply Pool_get_lt; [apply (mi_fw _ _ Hinv)|exact Hi]).
    assert (Hall : Forall (fun j => Pool_get (connection_table (mp_forwarder Demo.state)) j = None)
      (seq 3 (capacity (connection_table (mp_forwarder Demo.state)) - 3)))
      by (vm_compute; repeat constructor).
    rewrite list.Forall_forall in Hall. rewrite Hall in Hi; [destruct Hi; discriminate|].
    apply elem_of_seq. assert (Hm : max_set (connection_table (mp_forwarder Demo.state)) = 2) by (vm_compute; reflexivity).
    rewrite Hm in Hn. lia. }
  destruct (connection_list_exact (with_mp Demo.state) net "m" Hmax eq_refl eq_refl) as (s'&batches&Hrun&Hq&_).
  - apply Nat.leb_le. vm_compute. reflexivity.
  - exists s', batches. exact (conj Hmax (conj Hrun Hq)).
Defined.
End ControllerWitness.
