(* ===== verification/Mls.v ===== *)
(** * Group key agreement: model

    [mls/src/*.rs]: identities kept in files ([identity.rs]), the participant of
    MLS groups ([mls.rs]) and the session interceptor that encrypts what an
    application publishes and decrypts what arrives ([interceptor.rs]).

    Parameters: the [mls-rs] library with its cryptography ([MlsRs]; a client and
    a group change when they are used, so every call returns the new one), the
    JSON of an identity ([IdentityJson]) and base64 ([Base64]). The laws used of
    them are those of [MlsLaws], [IdentityJson] and [Base64]: what a member
    encrypts the other members of its epoch decrypt, a commit begins a new epoch,
    and a message of a later epoch than the receiver's is refused.

    The [Mutex] around the participant makes a call of the interceptor one step. *)
From Stdlib Require Import Ascii.
From stdpp Require Import base list gmap strings pretty numbers option.
From S2P Require Import Prelude Proto Messages Session.
Open Scope string_scope.

Abbreviation bytes := (list Byte.byte).
#[export] Instance byte_eq_dec : EqDecision Byte.byte := Byte.byte_eq_dec.
#[export] Instance byte_countable : Countable Byte.byte := inj_countable Byte.to_N Byte.of_N Byte.of_to_N.

Module Mls.

Inductive MlsError : Type :=
| Io (s : string)
| Serde (s : string)
| MlsFailure (s : string)
| CiphersuiteUnavailable.
Definition MlsError_fmt (e : MlsError) : string :=
  match e with
  | Io s => "I/O error: " +:+ s
  | Serde s => "Serialization/Deserialization error: " +:+ s
  | MlsFailure s => "MLS error: " +:+ s
  | CiphersuiteUnavailable => "Requested ciphersuite is unavailable"
  end.

Record Identity : Type := mkIdentity {
  id_name : string;
  id_public_key_bytes : bytes;
  id_private_key_bytes : bytes;
}.

(** ** The libraries *)
Class IdentityJson : Type := {
  to_vec_pretty : Identity -> Result bytes string;
  from_slice : bytes -> Result Identity string;
  from_to : forall i b, to_vec_pretty i = Ok b -> from_slice b = Ok i;
}.
Class Base64 : Type := {
  b64_encode : bytes -> string;
  b64_encode_inj : forall a b, b64_encode a = b64_encode b -> a = b;
}.

(** What [process_incoming_message] finds in a message. *)
Inductive ReceivedMessage : Type :=
| ApplicationMessage (data : bytes)
| OtherMessage.

(** [r] stands for the random bytes a call draws. *)
Class MlsRs : Type := {
  Client : Type;
  Group : Type;
  cipher_suite_available : bool;
  signature_key_generate : N -> Result (bytes * bytes) string;
  (** [Client::builder()...build()], from a name, its public and private key. *)
  build_client : string -> bytes -> bytes -> Client;
  client_create_group : Client -> N -> Client * Result Group string;
  (** [generate_key_package_message] and [to_bytes]. *)
  generate_key_package_message : Client -> N -> Client * Result bytes string;
  group_id : Group -> bytes;
  message_from_bytes : bytes -> Result unit string;
  (** [commit_builder().add_member(..).build()]: the welcome messages, already
      in bytes; the commit is pending in the group. *)
  build_add_commit : Group -> bytes -> N -> Group * Result (list (Result bytes string)) string;
  apply_pending_commit : Group -> Group * Result unit string;
  client_join_group : Client -> bytes -> Client * Result Group string;
  (** [encrypt_application_message] and [to_bytes]. *)
  encrypt_application_message : Group -> bytes -> N -> Group * Result bytes string;
  process_incoming_message : Group -> bytes -> Group * Result ReceivedMessage string;
  group_write_to_storage : Group -> Group * Result unit string;
}.

(** [hears g g']: the group state [g'] of one member can read what the state
    [g] of another encrypts next. *)
Class MlsLaws `{MlsRs} : Type := {
  hears : Group -> Group -> Prop;
  epoch : Group -> N;
  (** A new member reads what the member that added it sends. *)
  join_hears : forall g kp r g1 w ws g2 c c' g',
    build_add_commit g kp r = (g1, Ok (Ok w :: ws)) -> apply_pending_commit g1 = (g2, Ok tt) ->
    client_join_group c w = (c', Ok g') -> hears g2 g' /\ group_id g' = group_id g2;
  (** Messages in the order they were sent. *)
  encrypt_heard : forall g g' m r g1 e, hears g g' -> encrypt_application_message g m r = (g1, Ok e) ->
    message_from_bytes e = Ok tt /\
    exists g1', process_incoming_message g' e = (g1', Ok (ApplicationMessage m)) /\ hears g1 g1';
  group_id_encrypt : forall g m r, group_id (encrypt_application_message g m r).1 = group_id g;
  group_id_process : forall g m, group_id (process_incoming_message g m).1 = group_id g;
  group_id_commit : forall g kp r, group_id (build_add_commit g kp r).1 = group_id g;
  group_id_apply : forall g, group_id (apply_pending_commit g).1 = group_id g;
  group_id_write : forall g, group_id (group_write_to_storage g).1 = group_id g;
  (** A commit begins the next epoch; a message of a later epoch than the
      receiver's cannot be read. *)
  epoch_hears : forall g g', hears g g' -> epoch g' = epoch g;
  epoch_commit : forall g kp r g1 ws g2, build_add_commit g kp r = (g1, Ok ws) ->
    apply_pending_commit g1 = (g2, Ok tt) -> epoch g2 = (epoch g + 1)%N;
  epoch_encrypt : forall g m r, epoch (encrypt_application_message g m r).1 = epoch g;
  later_epoch_refused : forall g g' m r g1 e, (epoch g' < epoch g)%N ->
    encrypt_application_message g m r = (g1, Ok e) ->
    exists why, (process_incoming_message g' e).2 = Err why;
}.

(** ** Identities *)

(** A file system: the files, the error the environment gives for a path, and
    whether writing to a file that was created fails. *)
Record Disk : Type := mkDisk {
  dk_files : gmap string bytes;
  dk_error : string -> option string;
  dk_write_error : string -> option string;
}.
Definition with_files (f : gmap string bytes) (d : Disk) : Disk := mkDisk f (dk_error d) (dk_write_error d).
Definition path_exists (d : Disk) (path : string) : bool :=
  match dk_error d path with Some _ => false | None => bool_decide (is_Some (dk_files d !! path)) end.

Definition starts_with_slash (s : string) : bool :=
  match s with String "/" _ => true | _ => false end.
Fixpoint ends_with_slash (s : string) : bool :=
  match s with
  | EmptyString => false
  | String c EmptyString => bool_decide (c = "/"%char)
  | String _ s => ends_with_slash s
  end.
(** [Path::join]: an absolute path replaces the base. *)
Definition path_join (base p : string) : string :=
  if starts_with_slash p then p
  else if decide (base = "") then p
  else if ends_with_slash base then base +:+ p
  else base +:+ "/" +:+ p.

Section identity.
Context `{MlsRs, IdentityJson}.

Definition generate_new_identity (r : N) (name : string) : Result Identity MlsError :=
  if cipher_suite_available then
    match signature_key_generate r with
    | Err e => Err (MlsFailure e)
    | Ok (private_key, public_key) => Ok (mkIdentity name public_key private_key)
    end
  else Err CiphersuiteUnavailable.

(** [FileBasedIdentityProvider]: its base path. *)
Definition FileBasedIdentityProvider : Type := string.

Definition identity_path (base_path identifier : string) : string :=
  path_join base_path (identifier +:+ "_identity.json").

Definition load_identity_from_file (d : Disk) (path : string) : Result Identity MlsError :=
  match dk_error d path, dk_files d !! path with
  | Some e, _ => Err (Io e)
  | None, None => Err (Io "No such file or directory (os error 2)")
  | None, Some buf => map_err Serde (from_slice buf)
  end.

(** [File::create] empties the file before it is written. *)
Definition save_identity_to_file (d : Disk) (path : string) (identity : Identity) : Disk * Result unit MlsError :=
  match to_vec_pretty identity with
  | Err e => (d, Err (Serde e))
  | Ok json =>
      match dk_error d path with
      | Some e => (d, Err (Io e))
      | None =>
          match dk_write_error d path with
          | Some e => (with_files (<[path := []]> (dk_files d)) d, Err (Io e))
          | None => (with_files (<[path := json]> (dk_files d)) d, Ok tt)
          end
      end
  end.

Definition get_identity (base_path : string) (r : N) (identifier : string) (d : Disk)
    : Disk * Result Identity MlsError :=
  let path := identity_path base_path identifier in
  if path_exists d path then (d, load_identity_from_file d path)
  else
    match generate_new_identity r identifier with
    | Err e => (d, Err e)
    | Ok identity =>
        match save_identity_to_file d path identity with
        | (d, Err e) => (d, Err e)
        | (d, Ok _) => (d, Ok identity)
        end
    end.
Definition has_identity (base_path identifier : string) (d : Disk) : Result bool MlsError :=
  Ok (path_exists d (identity_path base_path identifier)).
Definition store_identity (base_path identifier : string) (identity : Identity) (d : Disk)
    : Disk * Result unit MlsError :=
  save_identity_to_file d (identity_path base_path identifier) identity.
(** [remove_error]: the error of [remove_file]. *)
Definition remove_identity (base_path identifier : string) (remove_error : option string) (d : Disk)
    : Disk * Result unit MlsError :=
  let path := identity_path base_path identifier in
  if path_exists d path then
    match remove_error with
    | Some e => (d, Err (Io ("Failed to remove identity for " +:+ identifier +:+ ": " +:+ e)))
    | None => (with_files (delete path (dk_files d)) d, Ok tt)
    end
  else (d, Ok tt).
End identity.

(** ** The participant *)
(** [{:?}] of a byte slice. *)
Definition fmt_debug_bytes (b : bytes) : string :=
  "[" +:+ String.concat ", " ((fun x => pretty (Byte.to_N x)) <$> b) +:+ "]".

Section participant.
Context `{MlsRs, IdentityJson}.

Record Mls : Type := mkMls {
  ml_base_path : FileBasedIdentityProvider;
  ml_participant_id : string;
  ml_client : option Client;
  ml_groups : gmap bytes Group;
}.
Definition Mls_new (participant_id : string) (base_path : FileBasedIdentityProvider) : Mls :=
  mkMls base_path participant_id None ∅.
Definition with_client (c : Client) (m : Mls) : Mls :=
  mkMls (ml_base_path m) (ml_participant_id m) (Some c) (ml_groups m).
Definition with_group (id : bytes) (g : Group) (m : Mls) : Mls :=
  mkMls (ml_base_path m) (ml_participant_id m) (ml_client m) (<[id := g]> (ml_groups m)).

Definition map_mls_error {T} (r : Result T string) : Result T MlsError := map_err MlsFailure r.

Definition initialize (r : N) (d : Disk) (m : Mls) : Disk * Mls * Result unit MlsError :=
  match get_identity (ml_base_path m) r (ml_participant_id m) d with
  | (d, Err e) => (d, m, Err e)
  | (d, Ok identity) =>
      (d, with_client (build_client (id_name identity) (id_public_key_bytes identity) (id_private_key_bytes identity)) m,
       Ok tt)
  end.

Definition not_initialized : MlsError := MlsFailure "MLS client not initialized".
Definition group_not_found (id : bytes) : MlsError := MlsFailure ("Group not found: " +:+ fmt_debug_bytes id).

Definition create_group (r : N) (m : Mls) : Mls * Result bytes MlsError :=
  match ml_client m with
  | None => (m, Err not_initialized)
  | Some client =>
      match client_create_group client r with
      | (client, Err e) => (with_client client m, Err (MlsFailure e))
      | (client, Ok group) => (with_group (group_id group) group (with_client client m), Ok (group_id group))
      end
  end.

Definition generate_key_package (r : N) (m : Mls) : Mls * Result bytes MlsError :=
  match ml_client m with
  | None => (m, Err not_initialized)
  | Some client =>
      let '(client, res) := generate_key_package_message client r in
      (with_client client m, map_mls_error res)
  end.

Definition add_member (r : N) (id key_package_bytes : bytes) (m : Mls) : Mls * Result bytes MlsError :=
  match ml_groups m !! id with
  | None => (m, Err (group_not_found id))
  | Some group =>
      match message_from_bytes key_package_bytes with
      | Err e => (m, Err (MlsFailure e))
      | Ok _ =>
          match build_add_commit group key_package_bytes r with
          | (group, Err e) => (with_group id group m, Err (MlsFailure e))
          | (group, Ok welcome_messages) =>
              match apply_pending_commit group with
              | (group, Err e) => (with_group id group m, Err (MlsFailure e))
              | (group, Ok _) =>
                  (with_group id group m,
                   match welcome_messages with
                   | [] => Err (MlsFailure "No welcome message generated")
                   | welcome :: _ => map_mls_error welcome
                   end)
              end
          end
      end
  end.

Definition join_group (welcome_message : bytes) (m : Mls) : Mls * Result bytes MlsError :=
  match ml_client m with
  | None => (m, Err not_initialized)
  | Some client =>
      match message_from_bytes welcome_message with
      | Err e => (m, Err (MlsFailure e))
      | Ok _ =>
          match client_join_group client welcome_message with
          | (client, Err e) => (with_client client m, Err (MlsFailure e))
          | (client, Ok group) => (with_group (group_id group) group (with_client client m), Ok (group_id group))
          end
      end
  end.

Definition is_group_member (id : bytes) (m : Mls) : bool := bool_decide (is_Some (ml_groups m !! id)).
Definition has_any_groups (m : Mls) : bool := bool_decide (ml_groups m <> ∅).

Definition encrypt_message (r : N) (id message : bytes) (m : Mls) : Mls * Result bytes MlsError :=
  match ml_groups m !! id with
  | None => (m, Err (group_not_found id))
  | Some group =>
      let '(group, res) := encrypt_application_message group message r in
      (with_group id group m, map_mls_error res)
  end.

Definition decrypt_message (id encrypted_message : bytes) (m : Mls) : Mls * Result bytes MlsError :=
  match ml_groups m !! id with
  | None => (m, Err (group_not_found id))
  | Some group =>
      match message_from_bytes encrypted_message with
      | Err e => (m, Err (MlsFailure e))
      | Ok _ =>
          match process_incoming_message group encrypted_message with
          | (group, Err e) => (with_group id group m, Err (MlsFailure e))
          | (group, Ok (ApplicationMessage data)) => (with_group id group m, Ok data)
          | (group, Ok OtherMessage) =>
              (with_group id group m, Err (MlsFailure "Message was not an application message"))
          end
      end
  end.

(** The loop over the groups, left at the first error. *)
Fixpoint write_groups (l : list (bytes * Group)) (m : Mls) : Mls * Result unit MlsError :=
  match l with
  | [] => (m, Ok tt)
  | (id, group) :: l =>
      match group_write_to_storage group with
      | (group, Err e) => (with_group id group m, Err (MlsFailure e))
      | (group, Ok _) => write_groups l (with_group id group m)
      end
  end.
Definition write_to_storage `{HashIter} (m : Mls) : Mls * Result unit MlsError :=
  write_groups (hash_iter (ml_groups m)) m.
End participant.

(** ** The interceptor *)
Definition METADATA_MLS_ENCRYPTED : string := "MLS_ENCRYPTED".
Definition METADATA_MLS_GROUP_ID : string := "MLS_GROUP_ID".

Section interceptor.
Context `{MlsRs, IdentityJson, Base64}.

Record MlsInterceptor : Type := mkMlsInterceptor {
  mi_group_id : bytes;
  mi_group_id_b64 : string;
}.
Definition MlsInterceptor_new (id : bytes) : MlsInterceptor := mkMlsInterceptor id (b64_encode id).

Definition refuse (why : string) : Result unit SessionError := Err (InterceptorError why).
(** The blob of a publication that has a content. *)
Definition with_blob (b : bytes) (p : ProtoPublish) : ProtoPublish :=
  mkProtoPublish (pu_header p) (pu_session p)
    ((fun c => mkContent (co_content_type c) b) <$> pu_msg p).

(** The message is changed in place: it comes back with an error too. *)
Definition on_msg_from_app (r : N) (i : MlsInterceptor) (m : Mls) (msg : ProtoMessage)
    : panics (Mls * ProtoMessage * Result unit SessionError) :=
  publish ← is_publish msg;
  if (publish : bool) then
    let msg := insert_metadata METADATA_MLS_GROUP_ID (mi_group_id_b64 i) msg in
    payload ← get_payload msg;
    match payload with
    | None => Done (m, msg, Ok tt)
    | Some content =>
        if is_group_member (mi_group_id i) m then
          match encrypt_message r (mi_group_id i) (co_blob content) m with
          | (m, Err e) => Done (m, msg, refuse ("MLS encryption failed: " +:+ MlsError_fmt e))
          | (m, Ok encrypted_payload) =>
              match pm_message_type msg with
              | Some (Publish p) =>
                  let msg := mkProtoMessage (pm_metadata msg) (Some (Publish (with_blob encrypted_payload p))) in
                  Done (m, insert_metadata METADATA_MLS_ENCRYPTED "true" msg, Ok tt)
              | _ => Done (m, msg, Ok tt)
              end
          end
        else Done (m, msg, refuse "Not a group member")
    end
  else Done (m, msg, Ok tt).

Definition on_msg_from_slim (i : MlsInterceptor) (m : Mls) (msg : ProtoMessage)
    : panics (Mls * ProtoMessage * Result unit SessionError) :=
  publish ← is_publish msg;
  if (publish : bool) then
    if decide (pm_metadata msg !! METADATA_MLS_ENCRYPTED = Some "true") then
      match pm_metadata msg !! METADATA_MLS_GROUP_ID with
      | None => Done (m, msg, refuse "Message missing MLS_GROUP_ID metadata")
      | Some msg_group_id =>
          if decide (msg_group_id = mi_group_id_b64 i) then
            payload ← get_payload msg;
            match payload with
            | None => Done (m, msg, refuse "Encrypted message has no payload")
            | Some content =>
                if is_group_member (mi_group_id i) m then
                  match decrypt_message (mi_group_id i) (co_blob content) m with
                  | (m, Err e) => Done (m, msg, refuse ("MLS decryption failed: " +:+ MlsError_fmt e))
                  | (m, Ok decrypted_payload) =>
                      match pm_message_type msg with
                      | Some (Publish p) =>
                          let msg := mkProtoMessage (pm_metadata msg) (Some (Publish (with_blob decrypted_payload p))) in
                          Done (m, remove_metadata METADATA_MLS_ENCRYPTED msg, Ok tt)
                      | _ => Done (m, msg, Ok tt)
                      end
                  end
                else Done (m, msg, refuse "Not a group member")
            end
          else Done (m, msg, refuse ("Group ID mismatch: expected '" +:+ mi_group_id_b64 i +:+ "', got '" +:+
                                     msg_group_id +:+ "'"))
      end
    else Done (m, msg, Ok tt)
  else Done (m, msg, Ok tt).
End interceptor.
End Mls.
Close Scope string_scope.
