(* ===== verification/MlsClaims.v ===== *)
(** * Group key agreement: theorems

    What one member of a group publishes the members it added restore; messages
    of other groups are refused; a member that was not told of a later commit
    can read nothing sent after it; identities are made once and kept. A small
    instance of the library's interface shows that its laws can hold. *)
From Stdlib Require Import Ascii.
From stdpp Require Import base list gmap strings pretty numbers option.
From S2P Require Import Prelude Proto Messages Session Mls.
Import Mls.
Open Scope string_scope.

Section members.
Context `{MlsRs} `{!MlsLaws} `{IdentityJson} `{Base64}.

(** ** One message *)
Lemma is_publish_Some m p : pm_message_type m = Some (Publish p) -> is_publish m = Done true.
Proof. intros Hp. unfold is_publish, get_type. by rewrite Hp. Qed.
Lemma get_payload_Some m p : pm_message_type m = Some (Publish p) -> get_payload m = Done (pu_msg p).
Proof. intros Hp. unfold get_payload. by rewrite Hp. Qed.

(** The publication as its receivers get it: with the group's id and without
    the mark of an encrypted message. *)
Definition restored (id : bytes) (msg : ProtoMessage) : ProtoMessage :=
  mkProtoMessage (delete METADATA_MLS_ENCRYPTED (<[METADATA_MLS_GROUP_ID := b64_encode id]> (pm_metadata msg)))
    (pm_message_type msg).
(** A publication that has a content, or does not claim to be encrypted. *)
Definition publishable (msg : ProtoMessage) : Prop :=
  exists p, pm_message_type msg = Some (Publish p) /\
    (is_Some (pu_msg p) \/ pm_metadata msg !! METADATA_MLS_ENCRYPTED = None).

Lemma with_blob_back b p c : pu_msg p = Some c -> with_blob (co_blob c) (with_blob b p) = p.
Proof. destruct p as [h s m]. cbn. intros ->. by destruct c. Qed.

(** What leaves the sender. *)
Lemma from_app_shape r id m msg p c g m1 e res :
  pm_message_type msg = Some (Publish p) -> pu_msg p = Some c -> ml_groups m !! id = Some g ->
  on_msg_from_app r (MlsInterceptor_new id) m msg = Done (m1, e, Ok res) ->
  exists g1 blob, encrypt_application_message g (co_blob c) r = (g1, Ok blob) /\
    m1 = with_group id g1 m /\
    e = mkProtoMessage (<[METADATA_MLS_ENCRYPTED := "true"]>
          (<[METADATA_MLS_GROUP_ID := b64_encode id]> (pm_metadata msg))) (Some (Publish (with_blob blob p))).
Proof.
  intros Hp Hc Hg. unfold on_msg_from_app. rewrite (is_publish_Some _ p Hp). cbn.
  unfold get_payload, insert_metadata at 1. cbn. rewrite Hp. cbn. rewrite Hc.
  unfold is_group_member. rewrite Hg, bool_decide_true by (by eexists). unfold encrypt_message. rewrite Hg.
  destruct (encrypt_application_message g (co_blob c) r) as [g1 [blob|why]]; cbn; [|done].
  intros [= <- <- _]. by exists g1, blob.
Qed.

Lemma from_slim_encrypted id m e p c :
  pm_message_type e = Some (Publish p) -> pu_msg p = Some c ->
  pm_metadata e !! METADATA_MLS_ENCRYPTED = Some "true" ->
  pm_metadata e !! METADATA_MLS_GROUP_ID = Some (b64_encode id) -> is_group_member id m = true ->
  on_msg_from_slim (MlsInterceptor_new id) m e =
  match decrypt_message id (co_blob c) m with
  | (m, Err why) => Done (m, e, refuse ("MLS decryption failed: " +:+ MlsError_fmt why))
  | (m, Ok b) => Done (m, mkProtoMessage (delete METADATA_MLS_ENCRYPTED (pm_metadata e))
                            (Some (Publish (with_blob b p))), Ok tt)
  end.
Proof.
  intros Hp Hc He Hg Hm. unfold on_msg_from_slim. rewrite (is_publish_Some _ p Hp). cbn.
  rewrite decide_True by done. rewrite Hg. rewrite decide_True by done. rewrite (get_payload_Some _ p Hp). cbn.
  rewrite Hc, Hm, Hp. by destruct (decrypt_message id (co_blob c) m) as [m' [b|why]].
Qed.

Lemma one_message r id m m' g g' msg m1 e res :
  ml_groups m !! id = Some g -> ml_groups m' !! id = Some g' -> hears g g' -> publishable msg ->
  on_msg_from_app r (MlsInterceptor_new id) m msg = Done (m1, e, Ok res) ->
  exists g1 g1' m1', ml_groups m1 !! id = Some g1 /\ ml_groups m1' !! id = Some g1' /\ hears g1 g1' /\
    on_msg_from_slim (MlsInterceptor_new id) m' e = Done (m1', restored id msg, Ok tt).
Proof.
  intros Hg Hg' Hh (p&Hp&Hpub) Hrun. destruct (pu_msg p) as [c|] eqn:Hc.
  - destruct (from_app_shape r id m msg p c g m1 e res Hp Hc Hg Hrun) as (g1&blob&Henc&->&->).
    destruct (encrypt_heard g g' (co_blob c) r g1 blob Hh Henc) as (Hfb&g1'&Hproc&Hh1).
    exists g1, g1', (with_group id g1' m'). cbn [with_group ml_groups]. rewrite !lookup_insert_eq. split; [done|]. split; [done|].
    split; [done|]. erewrite from_slim_encrypted; [|done|cbn; by rewrite Hc|..].
    2:{ cbn. apply lookup_insert_eq. }
    2:{ cbn. rewrite lookup_insert_ne by done. apply lookup_insert_eq. }
    2:{ unfold is_group_member. rewrite Hg'. apply bool_decide_true. by eexists. }
    cbn. unfold decrypt_message. rewrite Hg', Hfb, Hproc. rewrite (with_blob_back blob p c Hc).
    unfold restored. by rewrite delete_insert_eq, Hp.
  - destruct Hpub as [[? ?]|Hno]; [done|].
    unfold on_msg_from_app in Hrun. rewrite (is_publish_Some _ p Hp) in Hrun. cbn in Hrun.
    unfold get_payload in Hrun. cbn in Hrun. rewrite Hp in Hrun. cbn in Hrun. rewrite Hc in Hrun.
    injection Hrun as <- <- _. exists g, g', m'. split; [done|]. split; [done|]. split; [done|].
    unfold on_msg_from_slim. rewrite (is_publish_Some _ p) by done. cbn.
    rewrite lookup_insert_ne, Hno, decide_False by done. unfold restored, insert_metadata. cbn.
    rewrite delete_id; [done|]. by rewrite lookup_insert_ne.
Qed.

(** ** Sequences of messages *)

(** The sender's interceptor on one message after another, as long as it
    accepts them; what leaves it. *)
Fixpoint send_all (id : bytes) (m : Mls) (msgs : list (N * ProtoMessage)) : option (Mls * list ProtoMessage) :=
  match msgs with
  | [] => Some (m, [])
  | (r, msg) :: msgs =>
      match on_msg_from_app r (MlsInterceptor_new id) m msg with
      | Done (m, e, Ok _) => '(m, es) ← send_all id m msgs; Some (m, e :: es)
      | _ => None
      end
  end.
(** The receiver's, on what arrives in order. *)
Fixpoint receive_all (id : bytes) (m : Mls) (es : list ProtoMessage) : option (Mls * list ProtoMessage) :=
  match es with
  | [] => Some (m, [])
  | e :: es =>
      match on_msg_from_slim (MlsInterceptor_new id) m e with
      | Done (m, msg, Ok _) => '(m, msgs) ← receive_all id m es; Some (m, msg :: msgs)
      | _ => None
      end
  end.

Lemma all_messages id msgs : forall m m' g g' m1 es,
  ml_groups m !! id = Some g -> ml_groups m' !! id = Some g' -> hears g g' ->
  Forall (fun x => publishable x.2) msgs -> send_all id m msgs = Some (m1, es) ->
  exists m1' g1 g1', receive_all id m' es = Some (m1', restored id <$> msgs.*2) /\
    ml_groups m1 !! id = Some g1 /\ ml_groups m1' !! id = Some g1' /\ hears g1 g1'.
Proof.
  induction msgs as [|[r msg] msgs IH]; intros m m' g g' m1 es Hg Hg' Hh Hall Hsend; cbn in Hsend.
  { injection Hsend as <- <-. by exists m', g, g'. }
  inversion_clear Hall as [|? ? Hpub Hrest].
  destruct (on_msg_from_app r (MlsInterceptor_new id) m msg) as [[[m2 e] [u|]]|] eqn:Hone; try done.
  destruct (send_all id m2 msgs) as [[m3 es']|] eqn:Hmore; cbn in Hsend; [|done].
  injection Hsend as <- <-.
  destruct (one_message r id m m' g g' msg m2 e u Hg Hg' Hh Hpub Hone) as (g1&g1'&m1'&Hg1&Hg1'&Hh1&Hrecv).
  destruct (IH m2 m1' g1 g1' m3 es' Hg1 Hg1' Hh1 Hrest Hmore) as (m2'&g2&g2'&Hall'&Hrest').
  exists m2', g2, g2'. split; [|done]. cbn. by rewrite Hrecv, Hall'.
Qed.

(** ** The participant's groups *)

(** Every group is kept under its id. *)
Definition groups_ok (m : Mls) : Prop := forall id g, ml_groups m !! id = Some g -> group_id g = id.

(** What a participant does. *)
Inductive mls_step : Mls -> Mls -> Prop :=
| MlsInitialize r d m : mls_step m (initialize r d m).1.2
| MlsCreateGroup r m : mls_step m (create_group r m).1
| MlsKeyPackage r m : mls_step m (generate_key_package r m).1
| MlsAddMember r id kp m : mls_step m (add_member r id kp m).1
| MlsJoinGroup w m : mls_step m (join_group w m).1
| MlsEncrypt r id b m : mls_step m (encrypt_message r id b m).1
| MlsDecrypt id b m : mls_step m (decrypt_message id b m).1
| MlsWrite `{HashIter} m : mls_step m (write_to_storage m).1.

Lemma groups_ok_with m id g : groups_ok m -> group_id g = id -> groups_ok (with_group id g m).
Proof. intros Hok Hid id' g'. cbn. rewrite lookup_insert_Some. intros [[<- <-]|[_ Hg]]; [done|by apply Hok]. Qed.

Lemma write_groups_ok l : forall m, groups_ok m -> Forall (fun x => group_id x.2 = x.1) l ->
  groups_ok (write_groups l m).1.
Proof.
  induction l as [|[id g] l IH]; intros m Hm Hl; [done|]. inversion_clear Hl as [|? ? Hid Hrest]. cbn.
  pose proof (group_id_write g) as Hw. destruct (group_write_to_storage g) as [g' [u|e]]; cbn in *.
  - apply IH; [|done]. apply groups_ok_with; [done|congruence].
  - apply groups_ok_with; [done|congruence].
Qed.

Lemma mls_step_ok m m' : mls_step m m' -> groups_ok m -> groups_ok m'.
Proof.
  intros Hstep Hok. destruct Hstep as [r d m|r m|r m|r id kp m|w m|r id b m|id b m|Hi m].
  - unfold initialize. by destruct (get_identity _ _ _ _) as [d' [i|e]].
  - unfold create_group. destruct (ml_client m) as [c|]; [|done].
    destruct (client_create_group c r) as [c' [g|e]]; [by apply groups_ok_with|done].
  - unfold generate_key_package. destruct (ml_client m) as [c|]; [|done].
    by destruct (generate_key_package_message c r) as [c' res].
  - unfold add_member. destruct (ml_groups m !! id) as [g|] eqn:Hg; [|done].
    destruct (message_from_bytes kp); [|done]. pose proof (group_id_commit g kp r) as Hb.
    destruct (build_add_commit g kp r) as [g1 [ws|e]]; cbn in Hb;
      [|apply groups_ok_with; [done|rewrite Hb; by apply Hok]].
    pose proof (group_id_apply g1) as Ha. destruct (apply_pending_commit g1) as [g2 [u|e]]; cbn in Ha;
      (apply groups_ok_with; [done|rewrite Ha, Hb; by apply Hok]).
  - unfold join_group. destruct (ml_client m) as [c|]; [|done]. destruct (message_from_bytes w); [|done].
    destruct (client_join_group c w) as [c' [g|e]]; [by apply groups_ok_with|done].
  - unfold encrypt_message. destruct (ml_groups m !! id) as [g|] eqn:Hg; [|done].
    pose proof (group_id_encrypt g b r) as He. destruct (encrypt_application_message g b r) as [g' res]; cbn in *.
    apply groups_ok_with; [done|]. rewrite He. by apply Hok.
  - unfold decrypt_message. destruct (ml_groups m !! id) as [g|] eqn:Hg; [|done].
    destruct (message_from_bytes b); [|done]. pose proof (group_id_process g b) as He.
    destruct (process_incoming_message g b) as [g' [[data|]|e]]; cbn in *;
      (apply groups_ok_with; [done|rewrite He; by apply Hok]).
  - apply write_groups_ok; [done|]. apply list.Forall_forall. intros [id g] Hin. apply Hok.
    apply elem_of_map_to_list. by rewrite <- (hash_iter_perm (ml_groups m)).
Qed.

Lemma groups_ok_reachable pid base m : rtc mls_step (Mls_new pid base) m -> groups_ok m.
Proof.
  intros Hr. assert (Hnew : groups_ok (Mls_new pid base)) by (intros id g; cbn; by rewrite lookup_empty).
  revert Hnew. generalize (Mls_new pid base), Hr. clear Hr. intros m0. induction 1 as [|m1 m2 m3 Hs _ IH]; [done|].
  intros Hok. apply IH. by eapply mls_step_ok.
Qed.

(** ** Joining *)
Lemma member_added r id kp m m1 w m' m1' id' :
  groups_ok m ->
  add_member r id kp m = (m1, Ok w) -> join_group w m' = (m1', Ok id') ->
  exists g g1 g2 g', ml_groups m !! id = Some g /\ ml_groups m1 !! id = Some g2 /\
    build_add_commit g kp r = (g1, Ok (Ok w :: g')) /\ apply_pending_commit g1 = (g2, Ok tt) /\
    id' = id /\ exists gn, ml_groups m1' !! id = Some gn /\ hears g2 gn.
Proof.
  intros Hid Hadd Hjoin. unfold add_member in Hadd. destruct (ml_groups m !! id) as [g|] eqn:Hg; [|done].
  destruct (message_from_bytes kp) as [|]; [|done].
  destruct (build_add_commit g kp r) as [g1 [ws|]] eqn:Hb; [|done].
  destruct (apply_pending_commit g1) as [g2 [[]|]] eqn:Ha; [|done].
  destruct ws as [|[w'|] ws]; cbn in Hadd; try done. injection Hadd as <- <-.
  unfold join_group in Hjoin. destruct (ml_client m') as [c|] eqn:Hc; [|done].
  destruct (message_from_bytes w') as [|]; [|done].
  destruct (client_join_group c w') as [c' [gn|]] eqn:Hj; [|done]. injection Hjoin as <- <-.
  destruct (join_hears g kp r g1 w' ws g2 c c' gn Hb Ha Hj) as [Hh Hgid].
  pose proof (group_id_commit g kp r) as Hgid1. rewrite Hb in Hgid1.
  pose proof (group_id_apply g1) as Hgid2. rewrite Ha in Hgid2. cbn in Hgid1, Hgid2.
  assert (group_id gn = id) as Heq by (rewrite Hgid, Hgid2, Hgid1; by apply Hid). rewrite Heq.
  exists g, g1, g2, ws. cbn. rewrite lookup_insert_eq. do 5 (split; [done|]).
  exists gn. by rewrite lookup_insert_eq.
Qed.

(** ** Epochs *)

(** Sending changes neither the epoch nor the id of a group. *)
Lemma from_app_keeps r id m msg g m1 e res :
  ml_groups m !! id = Some g -> publishable msg -> groups_ok m ->
  on_msg_from_app r (MlsInterceptor_new id) m msg = Done (m1, e, Ok res) ->
  groups_ok m1 /\ exists g1, ml_groups m1 !! id = Some g1 /\ epoch g1 = epoch g.
Proof.
  intros Hg (p&Hp&_) Hok Hrun. destruct (pu_msg p) as [c|] eqn:Hc.
  - destruct (from_app_shape r id m msg p c g m1 e res Hp Hc Hg Hrun) as (g1&blob&Henc&->&_).
    pose proof (group_id_encrypt g (co_blob c) r) as Hid. pose proof (epoch_encrypt g (co_blob c) r) as Hep.
    rewrite Henc in Hid, Hep. cbn in Hid, Hep. split; [apply groups_ok_with; [done|]; rewrite Hid; by apply Hok|].
    exists g1. cbn. by rewrite lookup_insert_eq.
  - unfold on_msg_from_app in Hrun. rewrite (is_publish_Some _ p Hp) in Hrun. cbn in Hrun.
    unfold get_payload in Hrun. cbn in Hrun. rewrite Hp in Hrun. cbn in Hrun. rewrite Hc in Hrun.
    injection Hrun as <- _ _. split; [done|]. by exists g.
Qed.
Lemma send_all_ok id msgs : forall m g m1 es,
  ml_groups m !! id = Some g -> Forall (fun x => publishable x.2) msgs -> groups_ok m ->
  send_all id m msgs = Some (m1, es) -> groups_ok m1.
Proof.
  induction msgs as [|[r msg] msgs IH]; intros m g m1 es Hg Hall Hok Hsend; cbn in Hsend.
  { by injection Hsend as <- _. }
  inversion_clear Hall as [|? ? Hpub Hrest].
  destruct (on_msg_from_app r (MlsInterceptor_new id) m msg) as [[[m2 e] [u|]]|] eqn:Hone; try done.
  destruct (send_all id m2 msgs) as [[m3 es']|] eqn:Hmore; cbn in Hsend; [|done]. injection Hsend as <- _.
  destruct (from_app_keeps r id m msg g m2 e u Hg Hpub Hok Hone) as (Hok2&g2&Hg2&_). by eapply IH.
Qed.

(** A member of an earlier epoch refuses a message with content. *)
Lemma later_refused r id m g msg p c m1 e res mb gb :
  ml_groups m !! id = Some g -> ml_groups mb !! id = Some gb -> (epoch gb < epoch g)%N ->
  pm_message_type msg = Some (Publish p) -> pu_msg p = Some c ->
  on_msg_from_app r (MlsInterceptor_new id) m msg = Done (m1, e, Ok res) ->
  exists mb' why, on_msg_from_slim (MlsInterceptor_new id) mb e = Done (mb', e, refuse why).
Proof.
  intros Hg Hgb Hep Hp Hc Hrun.
  destruct (from_app_shape r id m msg p c g m1 e res Hp Hc Hg Hrun) as (g1&blob&Henc&_&->).
  destruct (later_epoch_refused g gb (co_blob c) r g1 blob Hep Henc) as [why Hwhy].
  erewrite from_slim_encrypted; [|done|cbn; by rewrite Hc|..].
  2:{ cbn. apply lookup_insert_eq. }
  2:{ cbn. rewrite lookup_insert_ne by done. apply lookup_insert_eq. }
  2:{ unfold is_group_member. rewrite Hgb. apply bool_decide_true. by eexists. }
  cbn. unfold decrypt_message. rewrite Hgb. destruct (message_from_bytes blob); [|by eexists _, _].
  destruct (process_incoming_message gb blob) as [gb' res']. cbn in Hwhy. subst res'. by eexists _, _.
Qed.
(** So it does with each of a sequence of messages. *)
Lemma all_refused id mb gb msgs : forall m g m1 es,
  ml_groups m !! id = Some g -> ml_groups mb !! id = Some gb -> (epoch gb < epoch g)%N ->
  Forall (fun x => publishable x.2) msgs -> groups_ok m -> send_all id m msgs = Some (m1, es) ->
  forall i e r msg p c, es !! i = Some e -> msgs !! i = Some (r, msg) ->
    pm_message_type msg = Some (Publish p) -> pu_msg p = Some c ->
    exists mb' why, on_msg_from_slim (MlsInterceptor_new id) mb e = Done (mb', e, refuse why).
Proof.
  induction msgs as [|[r msg] msgs IH]; intros m g m1 es Hg Hgb Hep Hall Hok Hsend; cbn in Hsend.
  { intros i e r msg p c _. by rewrite lookup_nil. }
  inversion_clear Hall as [|? ? Hpub Hrest].
  destruct (on_msg_from_app r (MlsInterceptor_new id) m msg) as [[[m2 e] [u|]]|] eqn:Hone; try done.
  destruct (send_all id m2 msgs) as [[m3 es']|] eqn:Hmore; cbn in Hsend; [|done]. injection Hsend as _ <-.
  destruct (from_app_keeps r id m msg g m2 e u Hg Hpub Hok Hone) as (Hok2&g2&Hg2&Hep2).
  intros [|i] e0 r0 msg0 p c He Hm Hp Hc; cbn in He, Hm.
  - injection He as <-. injection Hm as <- <-.
    by apply (later_refused r id m g msg p c m2 e u mb gb).
  - eapply (IH m2 g2 m3 es' Hg2 Hgb); [by rewrite Hep2|done|done|done|exact He|exact Hm|exact Hp|exact Hc].
Qed.
End members.

(** C17: Who reads what in a group. A member adds a participant with its key
    package and that participant joins with the welcome: both know the group by
    the same id, and the publications the member's interceptor lets out from then
    on, as long as it adds nobody else, the new member's interceptor turns back,
    message by message and in order, into what the application published: payload,
    headers and content type are those of the original; of the metadata, the
    group's id is added and a mark of encryption removed ([restored]). When the
    member then adds a third participant, which joins, that one reads in the same
    way what is published afterwards; the second one, which is told nothing of
    the change, refuses every such publication that has a content. *)
Theorem mls_group_talks `{MlsRs} `{!MlsLaws} `{IdentityJson} `{Base64}
    pid base r id kp (alice alice1 alice2 : Mls) w (bob bob1 : Mls) id' msgs es :
  rtc mls_step (Mls_new pid base) alice -> add_member r id kp alice = (alice1, Ok w) -> join_group w bob = (bob1, Ok id') ->
  Forall (fun x => publishable x.2) msgs -> send_all id alice1 msgs = Some (alice2, es) ->
  id' = id /\ exists bob2, receive_all id bob1 es = Some (bob2, restored id <$> msgs.*2) /\
  forall r' kp' alice3 w' (carol carol1 : Mls) id'' msgs' alice4 es',
    add_member r' id kp' alice2 = (alice3, Ok w') -> join_group w' carol = (carol1, Ok id'') ->
    Forall (fun x => publishable x.2) msgs' -> send_all id alice3 msgs' = Some (alice4, es') ->
    id'' = id /\ (exists carol2, receive_all id carol1 es' = Some (carol2, restored id <$> msgs'.*2)) /\
    forall i e r msg p c, es' !! i = Some e -> msgs' !! i = Some (r, msg) ->
      pm_message_type msg = Some (Publish p) -> pu_msg p = Some c ->
      exists bob3 why, on_msg_from_slim (MlsInterceptor_new id) bob2 e = Done (bob3, e, refuse why).
Proof.
  intros Hid%groups_ok_reachable Hadd Hjoin Hall Hsend.
  destruct (member_added r id kp alice alice1 w bob bob1 id' Hid Hadd Hjoin) as (g&g1&g2&ws&_&Hg2&_&_&->&gn&Hgn&Hh).
  split; [done|]. pose proof (mls_step_ok _ _ (MlsAddMember r id kp alice) Hid) as Hok1. rewrite Hadd in Hok1. cbn in Hok1.
  destruct (all_messages id msgs alice1 bob1 g2 gn alice2 es Hg2 Hgn Hh Hall Hsend) as (bob2&ga&gb&Hrecv&Hga&Hgb&Hab).
  exists bob2. split; [exact Hrecv|]. intros r' kp' alice3 w' carol carol1 id'' msgs' alice4 es' Hadd' Hjoin' Hall' Hsend'.
  pose proof (send_all_ok id msgs alice1 g2 alice2 es Hg2 Hall Hok1 Hsend) as Hok2.
  destruct (member_added r' id kp' alice2 alice3 w' carol carol1 id'' Hok2 Hadd' Hjoin')
    as (g3&g4&g5&ws'&Hg3&Hg5&Hb&Ha&->&gc&Hgc&Hc). split; [done|].
  pose proof (mls_step_ok _ _ (MlsAddMember r' id kp' alice2) Hok2) as Hok3. rewrite Hadd' in Hok3. cbn in Hok3. split.
  - destruct (all_messages id msgs' alice3 carol1 g5 gc alice4 es' Hg5 Hgc Hc Hall' Hsend') as (carol2&_&_&?&_).
    by exists carol2.
  - assert (g3 = ga) as -> by congruence. apply (all_refused id bob2 gb msgs' alice3 g5 alice4 es'); try done.
    rewrite (epoch_hears ga gb Hab), (epoch_commit ga kp' r' g4 _ g5 Hb Ha). lia.
Qed.

(** Adding a third member locks the second one out: the commit that adds it
    is applied by the member that makes it and sent to nobody, so the others
    stay in the epoch before. Every publication with a content that the adding
    member's interceptor lets out afterwards is refused by the interceptor of a
    member that heard it before. *)
Theorem earlier_member_locked_out `{MlsRs} `{!MlsLaws} `{IdentityJson} `{Base64}
    r r' id kp (alice alice' alice'' : Mls) w (bob : Mls) g gb msg p c e res :
  ml_groups alice !! id = Some g -> ml_groups bob !! id = Some gb -> hears g gb ->
  add_member r id kp alice = (alice', Ok w) ->
  pm_message_type msg = Some (Publish p) -> pu_msg p = Some c ->
  on_msg_from_app r' (MlsInterceptor_new id) alice' msg = Done (alice'', e, Ok res) ->
  exists bob' why, on_msg_from_slim (MlsInterceptor_new id) bob e = Done (bob', e, refuse why).
Proof.
  intros Hg Hgb Hh Hadd Hp Hc Hrun. unfold add_member in Hadd. rewrite Hg in Hadd.
  destruct (message_from_bytes kp) as [|]; [|done].
  destruct (build_add_commit g kp r) as [g1 [ws|]] eqn:Hb; [|done].
  destruct (apply_pending_commit g1) as [g2 [[]|]] eqn:Ha; [|done]. injection Hadd as <- _.
  apply (later_refused r' id (with_group id g2 alice) g2 msg p c alice'' e res bob gb); [cbn; apply lookup_insert_eq|done| |done..].
  rewrite (epoch_hears g gb Hh), (epoch_commit g kp r g1 ws g2 Hb Ha). lia.
Qed.

(** The interceptor refuses an encrypted publication of another group, and
    one that names no group, leaving the message and the participant as they
    are; a participant that is not in the group neither sends nor receives. A
    publication not marked as encrypted is accepted as it is, whoever sent it. *)
Theorem interceptor_guards `{MlsRs} `{IdentityJson} `{Base64} id (m : Mls) msg p :
  pm_message_type msg = Some (Publish p) ->
  (forall other, other <> id -> pm_metadata msg !! METADATA_MLS_ENCRYPTED = Some "true" ->
     pm_metadata msg !! METADATA_MLS_GROUP_ID = Some (b64_encode other) ->
     exists why, on_msg_from_slim (MlsInterceptor_new id) m msg = Done (m, msg, refuse why)) /\
  (pm_metadata msg !! METADATA_MLS_ENCRYPTED = Some "true" -> pm_metadata msg !! METADATA_MLS_GROUP_ID = None ->
     exists why, on_msg_from_slim (MlsInterceptor_new id) m msg = Done (m, msg, refuse why)) /\
  (forall r c, pu_msg p = Some c -> is_group_member id m = false ->
     exists e why, on_msg_from_app r (MlsInterceptor_new id) m msg = Done (m, e, refuse why)) /\
  (forall c, pu_msg p = Some c -> is_group_member id m = false ->
     pm_metadata msg !! METADATA_MLS_ENCRYPTED = Some "true" ->
     pm_metadata msg !! METADATA_MLS_GROUP_ID = Some (b64_encode id) ->
     exists why, on_msg_from_slim (MlsInterceptor_new id) m msg = Done (m, msg, refuse why)) /\
  (pm_metadata msg !! METADATA_MLS_ENCRYPTED <> Some "true" ->
     on_msg_from_slim (MlsInterceptor_new id) m msg = Done (m, msg, Ok tt)).
Proof.
  intros Hp. pose proof (is_publish_Some _ p Hp) as Hpub. unfold on_msg_from_slim, on_msg_from_app. rewrite Hpub.
  split; [|split; [|split; [|split]]]; cbn.
  - intros other Hne He Hg. rewrite decide_True by done. rewrite Hg, decide_False; [by eexists|].
    intros Heq%b64_encode_inj. done.
  - intros He Hg. rewrite decide_True, Hg by done. by eexists.
  - intros r c Hc Hm. unfold get_payload. cbn. rewrite Hp. cbn. rewrite Hc, Hm. by eexists _, _.
  - intros c Hc Hm He Hg. rewrite decide_True, Hg, decide_True by done.
    rewrite (get_payload_Some _ p Hp). cbn. rewrite Hc, Hm. by eexists.
  - intros He. by rewrite decide_False.
Qed.

(** ** Identities *)
Lemma append_inj_r (a b c : string) : a +:+ c = b +:+ c -> a = b.
Proof.
  intros Heq. apply (f_equal String.list_ascii_of_string) in Heq.
  assert (Happ : forall x y, String.list_ascii_of_string (x +:+ y) =
    (String.list_ascii_of_string x ++ String.list_ascii_of_string y)%list).
  { induction x as [|ch x IH]; intros y; [done|]. change (String ch x +:+ y) with (String ch (x +:+ y)).
    cbn [String.list_ascii_of_string app]. by rewrite IH. }
  rewrite !Happ in Heq. apply app_inj_2 in Heq as [Heq _]; [|done].
  rewrite <- (String.string_of_list_ascii_of_string a), <- (String.string_of_list_ascii_of_string b). by rewrite Heq.
Qed.
Lemma append_inj_l (a b c : string) : a +:+ b = a +:+ c -> b = c.
Proof. apply (inj (String.append a)). Qed.

(** Relative identifiers have files of their own. *)
Lemma identity_path_inj base a b :
  starts_with_slash a = false -> starts_with_slash b = false ->
  identity_path base a = identity_path base b -> a = b.
Proof.
  intros Ha Hb. unfold identity_path, path_join.
  assert (Hrel : forall s, starts_with_slash s = false -> starts_with_slash (s +:+ "_identity.json") = false).
  { intros [|ch s]; [done|]. intros Hs. exact Hs. }
  rewrite !Hrel by done. intros Heq. apply (append_inj_r _ _ "_identity.json").
  destruct (decide (base = "")); [done|]. destruct (ends_with_slash base); by repeat apply append_inj_l in Heq.
Qed.

(** An identity is made once: after [get_identity] has returned one, every
    later call for the identifier returns the same from its file, with nothing
    written, and the files of other (relative) identifiers are untouched. *)
Theorem identity_kept `{MlsRs} `{IdentityJson} base r id d d' i :
  get_identity base r id d = (d', Ok i) ->
  (forall r', get_identity base r' id d' = (d', Ok i)) /\ has_identity base id d' = Ok true /\
  forall id', starts_with_slash id = false -> starts_with_slash id' = false -> id' <> id ->
    dk_files d' !! identity_path base id' = dk_files d !! identity_path base id' /\
    has_identity base id' d' = has_identity base id' d.
Proof.
  unfold get_identity, has_identity. set (path := identity_path base id). intros Hget.
  destruct (path_exists d path) eqn:Hex.
  { injection Hget as <- Hload. rewrite Hex, Hload. done. }
  destruct (generate_new_identity r id) as [i'|] eqn:Hgen; [|done].
  unfold save_identity_to_file in Hget. destruct (to_vec_pretty i') as [json|] eqn:Hjson; [|done].
  destruct (dk_error d path) as [|] eqn:Herr; [done|].
  destruct (dk_write_error d path) as [|]; [done|]. injection Hget as <- <-.
  assert (Hex' : path_exists (with_files (<[path := json]> (dk_files d)) d) path = true).
  { unfold path_exists. cbn. rewrite Herr, lookup_insert_eq. by apply bool_decide_true. }
  rewrite Hex'. split; [|split; [done|]].
  - intros r'. unfold load_identity_from_file. cbn. rewrite Herr, lookup_insert_eq.
    by rewrite (from_to i' json Hjson).
  - intros id' Hrel Hrel' Hne.
    assert (Hp : identity_path base id' <> path) by (intros Heq; apply Hne; by eapply identity_path_inj).
    cbn. rewrite lookup_insert_ne by done. split; [done|]. unfold path_exists. cbn.
    by rewrite lookup_insert_ne.
Qed.

(** When writing a new identity's file fails after the file was created,
    the empty file stays: every later call for the identifier fails to read it,
    and no identity is made, until the file is removed. *)
Theorem interrupted_save_sticks `{MlsRs} `{IdentityJson} base r id d d' e why :
  from_slice [] = Err why ->
  path_exists d (identity_path base id) = false -> dk_error d (identity_path base id) = None ->
  dk_write_error d (identity_path base id) = Some e ->
  cipher_suite_available = true -> is_ok (signature_key_generate r) = true ->
  get_identity base r id d = (d', Err (Io e)) ->
  forall r' we, get_identity base r' id (mkDisk (dk_files d') (dk_error d') we) =
    (mkDisk (dk_files d') (dk_error d') we, Err (Serde why)).
Proof.
  intros Hnil Hex Herr Hwr Hcs Hkey. unfold get_identity, generate_new_identity. rewrite Hex, Hcs.
  destruct (signature_key_generate r) as [[sk pk]|]; [|done]. unfold save_identity_to_file.
  destruct (to_vec_pretty _) as [json|]; [|done]. rewrite Herr, Hwr. intros [= <-] r' we. cbn.
  unfold path_exists. cbn. rewrite Herr, lookup_insert_eq. rewrite bool_decide_true by done.
  unfold load_identity_from_file. cbn. by rewrite Herr, lookup_insert_eq, Hnil.
Qed.

(** ** An instance of the libraries

    A group's epoch travels in front of the data, in unary; nothing is hidden. *)
Definition enc_num (n : nat) (b : bytes) : bytes := (replicate n Byte.x00 ++ Byte.x01 :: b)%list.
Fixpoint dec_num (b : bytes) : option (nat * bytes) :=
  match b with
  | Byte.x00 :: b => '(n, b) ← dec_num b; Some (S n, b)
  | Byte.x01 :: b => Some (0, b)
  | _ => None
  end.
Lemma dec_enc n b : dec_num (enc_num n b) = Some (n, b).
Proof. unfold enc_num. induction n as [|n IH]; cbn; [done|]. by rewrite IH. Qed.

Record ToyGroup : Type := mkToyGroup { tg_id : bytes; tg_epoch : nat; tg_pending : bool }.
Definition toy_mls : MlsRs := {|
  Client := string; Group := ToyGroup; cipher_suite_available := true;
  signature_key_generate := fun _ => Ok ([Byte.x02], [Byte.x03]);
  build_client := fun name _ _ => name;
  client_create_group := fun c _ => (c, Ok (mkToyGroup [Byte.x07] 0 false));
  generate_key_package_message := fun c _ => (c, Ok [Byte.x01]);
  group_id := tg_id;
  message_from_bytes := fun _ => Ok tt;
  build_add_commit := fun g _ _ => (mkToyGroup (tg_id g) (tg_epoch g) true, Ok [Ok (enc_num (S (tg_epoch g)) (tg_id g))]);
  apply_pending_commit := fun g =>
    if tg_pending g then (mkToyGroup (tg_id g) (S (tg_epoch g)) false, Ok tt) else (g, Err "no pending commit");
  client_join_group := fun c w =>
    match dec_num w with
    | Some (n, id) => (c, Ok (mkToyGroup id n false))
    | None => (c, Err "not a welcome")
    end;
  encrypt_application_message := fun g m _ => (g, Ok (enc_num (tg_epoch g) m));
  process_incoming_message := fun g b =>
    match dec_num b with
    | Some (n, m) => if decide (n = tg_epoch g) then (g, Ok (ApplicationMessage m)) else (g, Err "wrong epoch")
    | None => (g, Err "not a message")
    end;
  group_write_to_storage := fun g => (g, Ok tt);
|}.

Definition toy_hears (g g' : ToyGroup) : Prop := tg_id g' = tg_id g /\ tg_epoch g' = tg_epoch g.
Definition toy_laws : @MlsLaws toy_mls.
Proof.
  refine (@Build_MlsLaws toy_mls toy_hears (fun g => N.of_nat (tg_epoch g)) _ _ _ _ _ _ _ _ _ _ _).
  - intros g kp r g1 w ws g2 c c' g' Hb Ha Hj. cbn -[enc_num dec_num] in *. injection Hb as <- <- <-. cbn -[enc_num] in Ha.
    injection Ha as <-. rewrite dec_enc in Hj. injection Hj as _ <-. done.
  - intros g g' m r g1 e [Hid Hep] He. cbn -[enc_num dec_num] in *. injection He as <- <-. split; [done|].
    exists g'. rewrite dec_enc, decide_True by done. done.
  - done.
  - intros g m. cbn. destruct (dec_num m) as [[n b]|]; [|done]. by destruct (decide (n = tg_epoch g)).
  - done.
  - intros g. cbn. by destruct (tg_pending g).
  - done.
  - intros g g' [_ Hep]. by rewrite Hep.
  - intros g kp r g1 ws g2 Hb Ha. cbn -[enc_num dec_num] in *. injection Hb as <- _. cbn -[enc_num] in Ha. injection Ha as <-. cbn. lia.
  - done.
  - intros g g' m r g1 e Hlt He. cbn -[enc_num dec_num] in *. injection He as _ <-. rewrite dec_enc, decide_False by lia. by eexists.
Defined.

Definition toy_json : IdentityJson.
Proof.
  refine (@Build_IdentityJson
    (fun i => let nb := String.list_byte_of_string (id_name i) in
       Ok (enc_num (length nb) (nb ++ enc_num (length (id_public_key_bytes i))
             (id_public_key_bytes i ++ id_private_key_bytes i))%list))
    (fun b => match dec_num b with
       | Some (n, b) => match dec_num (drop n b) with
           | Some (k, b') => Ok (mkIdentity (String.string_of_list_byte (take n b)) (take k b') (drop k b'))
           | None => Err "EOF"
           end
       | None => Err "EOF"
       end) _).
  intros [name pk sk] b [= <-]. cbn [id_name id_public_key_bytes id_private_key_bytes].
  rewrite dec_enc. rewrite drop_app_length, dec_enc, !take_app_length, drop_app_length.
  by rewrite String.string_of_list_byte_of_string.
Defined.
Definition toy_base64 : Base64.
Proof.
  refine (@Build_Base64 String.string_of_list_byte _). intros a b Heq.
  apply (f_equal String.list_byte_of_string) in Heq. by rewrite !String.list_byte_of_string_of_list_byte in Heq.
Defined.

Module MlsDemo.
#[local] Existing Instances toy_mls toy_laws toy_json toy_base64.

Definition disk : Disk := mkDisk ∅ (fun _ => None) (fun _ => None).
Definition gid : bytes := [Byte.x07].
Definition alice0 : Mls := (initialize 0 disk (Mls_new "alice" "/ids")).1.2.
Definition alice : Mls := (create_group 1 alice0).1.
Definition bob0 : Mls := (initialize 0 disk (Mls_new "bob" "/ids")).1.2.
Definition welcome : bytes := enc_num 1 gid.
Definition alice1 : Mls := (add_member 2 gid [Byte.x01] alice).1.
Definition bob : Mls := (join_group welcome bob0).1.
Definition body : ProtoPublish :=
  mkProtoPublish None (Some (mkSessionHeader 1 7 9)) (Some (mkContent "text" [Byte.x68; Byte.x69])).
Definition pub : ProtoMessage := mkProtoMessage ∅ (Some (Publish body)).

Definition isSome {A} (o : option A) : bool := match o with Some _ => true | None => false end.
Definition passed {A B E} (x : panics (A * B * Result unit E)) : bool :=
  match x with Done (_, _, Ok _) => true | _ => false end.

Lemma pub_publishable : publishable pub.
Proof. exists body. split; [done|]. left. by eexists. Qed.
Lemma alice_reachable : rtc mls_step (Mls_new "alice" "/ids") alice.
Proof.
  apply (rtc_l mls_step _ alice0); [exact (MlsInitialize 0 disk (Mls_new "alice" "/ids"))|].
  apply rtc_once. exact (MlsCreateGroup 1 alice0).
Qed.

(** Alice adds Bob, publishes twice, adds Carol and publishes again. *)
Definition sent (m : Mls) (msgs : list (N * ProtoMessage)) : Mls * list ProtoMessage := default (m, []) (send_all gid m msgs).
Definition alice2 : Mls := (sent alice1 [(3%N, pub); (4%N, pub)]).1.
Definition alice3 : Mls := (add_member 5 gid [Byte.x02] alice2).1.
Definition carol0 : Mls := (initialize 0 disk (Mls_new "carol" "/ids")).1.2.
Definition carol : Mls := (join_group (enc_num 2 gid) carol0).1.

Lemma mls_group_talks_witness :
  exists bob2 carol2 bob3 why e, receive_all gid bob (sent alice1 [(3%N, pub); (4%N, pub)]).2 =
      Some (bob2, [restored gid pub; restored gid pub]) /\
    (sent alice3 [(6%N, pub)]).2 = [e] /\ receive_all gid carol [e] = Some (carol2, [restored gid pub]) /\
    on_msg_from_slim (MlsInterceptor_new gid) bob2 e = Done (bob3, e, refuse why).
Proof.
  destruct (mls_group_talks "alice" "/ids" 2%N gid [Byte.x01] alice alice1 alice2 welcome bob0 bob gid
    [(3%N, pub); (4%N, pub)] (sent alice1 [(3%N, pub); (4%N, pub)]).2 alice_reachable) as [_ (bob2&Hbob&Hnext)].
  - vm_compute. reflexivity.
  - vm_compute. reflexivity.
  - constructor; [exact pub_publishable|]. constructor; [exact pub_publishable|]. constructor.
  - vm_compute. reflexivity.
  - destruct (Hnext 5%N [Byte.x02] alice3 (enc_num 2 gid) carol0 carol gid [(6%N, pub)] (sent alice3 [(6%N, pub)]).1
      (sent alice3 [(6%N, pub)]).2) as (_&(carol2&Hcarol)&Hrefuse).
    + vm_compute. reflexivity.
    + vm_compute. reflexivity.
    + constructor; [exact pub_publishable|constructor].
    + vm_compute. reflexivity.
    + assert (He : exists e, (sent alice3 [(6%N, pub)]).2 = [e]) by (eexists; vm_compute; reflexivity).
      destruct He as [e He]. rewrite He in Hcarol, Hrefuse.
      destruct (Hrefuse 0 e 6%N pub body (mkContent "text" [Byte.x68; Byte.x69])) as (bob3&why&Hr);
        [reflexivity|reflexivity|reflexivity|reflexivity|].
      exists bob2, carol2, bob3, why, e. split; [exact Hbob|]. split; [exact He|]. split; [exact Hcarol|exact Hr].
Defined.

Lemma earlier_member_locked_out_witness :
  exists alice2 alice'' e bob' why, add_member 5 gid [Byte.x01] alice1 = (alice2, Ok (enc_num 2 gid)) /\
    on_msg_from_app 6 (MlsInterceptor_new gid) alice2 pub = Done (alice'', e, Ok tt) /\
    on_msg_from_slim (MlsInterceptor_new gid) bob e = Done (bob', e, refuse why).
Proof.
  assert (Hok : passed (on_msg_from_app 6 (MlsInterceptor_new gid) (add_member 5 gid [Byte.x01] alice1).1 pub) = true)
    by (vm_compute; reflexivity).
  destruct (on_msg_from_app 6 (MlsInterceptor_new gid) (add_member 5 gid [Byte.x01] alice1).1 pub)
    as [[[alice'' e] [[]|]]|] eqn:Hs; [|discriminate Hok..].
  destruct (earlier_member_locked_out 5%N 6%N gid [Byte.x01] alice1 (add_member 5 gid [Byte.x01] alice1).1 alice''
    (enc_num 2 gid) bob (mkToyGroup gid 1 false) (mkToyGroup gid 1 false) pub body (mkContent "text" [Byte.x68; Byte.x69])
    e tt) as (bob'&why&Hr).
  - vm_compute. reflexivity.
  - vm_compute. reflexivity.
  - split; reflexivity.
  - vm_compute. reflexivity.
  - reflexivity.
  - reflexivity.
  - exact Hs.
  - exists (add_member 5 gid [Byte.x01] alice1).1, alice'', e, bob', why.
    split; [vm_compute; reflexivity|]. exact (conj Hs Hr).
Defined.

Lemma interceptor_guards_witness :
  on_msg_from_slim (MlsInterceptor_new gid) bob pub = Done (bob, pub, Ok tt).
Proof.
  destruct (interceptor_guards gid bob pub body eq_refl) as (_&_&_&_&Hplain). apply Hplain.
  vm_compute. discriminate.
Defined.

Lemma identity_kept_witness :
  exists d' i, get_identity "/ids" 0 "alice" disk = (d', Ok i) /\ get_identity "/ids" 9 "alice" d' = (d', Ok i).
Proof.
  destruct (get_identity "/ids" 0 "alice" disk) as [d' [i|e]] eqn:Hg; [|vm_compute in Hg; discriminate].
  exists d', i. split; [reflexivity|]. apply (identity_kept "/ids" 0%N "alice" disk d' i Hg).
Defined.

Lemma interrupted_save_sticks_witness :
  exists d' d'' why, get_identity "/ids" 0 "alice" (mkDisk ∅ (fun _ => None) (fun _ => Some "disk full")) =
      (d', Err (Io "disk full")) /\
    get_identity "/ids" 9 "alice" d'' = (d'', Err (Serde why)).
Proof.
  destruct (get_identity "/ids" 0 "alice" (mkDisk ∅ (fun _ => None) (fun _ => Some "disk full"))) as [d' res] eqn:Hg.
  assert (Hres : res = Err (Io "disk full")) by (vm_compute in Hg; injection Hg as _ <-; reflexivity). subst res.
  exists d', (mkDisk (dk_files d') (dk_error d') (fun _ => None)), "EOF". split; [reflexivity|].
  apply (interrupted_save_sticks "/ids" 0%N "alice" (mkDisk ∅ (fun _ => None) (fun _ => Some "disk full")) d'
    "disk full" "EOF"); [reflexivity..|exact Hg].
Defined.
End MlsDemo.
Close Scope string_scope.
