(* ===== verification/Slim.v ===== *)
(** * The executable: configuration, runtime, tracing, start and stop

    [slim/src/config.rs], [slim/src/runtime.rs], [slim/src/args.rs],
    [slim/src/bin/main.rs], [tracing/src/lib.rs], [nop_component/src/lib.rs].

    A configuration file is read as YAML, its keys are checked, its references
    are resolved ([Provider]), and its services are built ([Service]).
    Parameters: the YAML reader and the deserialization of a value into one of
    the configurations ([Yaml], [FromValue]: serde_yaml, serde's derived code and
    duration_str), the number of processors, the building of the exporters
    ([Otlp]). What serde's derived code does with a field that is missing is
    written out for the tracing configuration ([OpenTelemetryConfig_of_fields]). *)
From Stdlib Require Import Ascii.
From stdpp Require Import base list gmap strings numbers option.
From S2P Require Import Tls Grpc.
From S2P Require Import Prelude Encoder Text ComponentId Provider MessageProcessing Session SessionLayer Service.
Open Scope string_scope.

(** [Display] of the components' errors. *)
Definition ComponentError_fmt (e : ComponentError) : string :=
  match e with
  | ComponentError_ConfigError s => "configuration error " +:+ s
  | ComponentError_RuntimeError s => "runtime error: " +:+ s
  | ComponentError_Unknown => "unknown error"
  end.
Definition ConfigurationError_fmt (e : ConfigurationError) : string :=
  match e with
  | ConfigurationError_ConfigError s => "configuration error: " +:+ s
  | ConfigurationError_Unknown => "unknown error"
  end.

(** ** Runtime *)
Module Runtime.
Record RuntimeConfiguration : Type := mkRuntimeConfiguration {
  n_cores : N;
  thread_name : string;
  drain_timeout : N;
}.
Definition default_n_cores : N := 0.
Definition default_thread_name : string := "slim".
Definition default_drain_timeout : N := from_secs 10.
Definition RuntimeConfiguration_default : RuntimeConfiguration :=
  mkRuntimeConfiguration default_n_cores default_thread_name default_drain_timeout.
Definition RuntimeConfiguration_new : RuntimeConfiguration := RuntimeConfiguration_default.
Definition with_cores (n : N) : RuntimeConfiguration :=
  mkRuntimeConfiguration n default_thread_name default_drain_timeout.
Definition with_thread_name (s : string) : RuntimeConfiguration :=
  mkRuntimeConfiguration default_n_cores s default_drain_timeout.
Definition with_drain_timeout (d : N) : RuntimeConfiguration :=
  mkRuntimeConfiguration default_n_cores default_thread_name d.

(** The tokio runtime that is built. *)
Inductive Flavor : Type :=
| CurrentThread
| MultiThread (worker_threads max_blocking_threads : N).
Record SlimRuntime : Type := mkSlimRuntime {
  rt_config : RuntimeConfiguration;
  rt_flavor : Flavor;
  rt_thread_name : string;
}.

(** [n_cpu]: [num_cpus::get()]; it is asserted to be positive in a debug build. *)
Definition cores (n_cpu : N) (config : RuntimeConfiguration) : N :=
  if decide (n_cpu < n_cores config)%N then n_cpu
  else if decide (n_cores config = 0%N) then n_cpu
  else n_cores config.
Definition build `{DebugAssertions} (n_cpu : N) (config : RuntimeConfiguration)
    : panics (Result SlimRuntime ConfigurationError) :=
  _ ← (if debug_assertions && bool_decide (n_cpu = 0%N) then Panic "failed to get number of CPUs" else Done tt);
  let c := cores n_cpu config in
  if decide (c = 1%N) then Done (Ok (mkSlimRuntime config CurrentThread (thread_name config)))
  else if decide (c = 0%N) then Panic "Worker threads cannot be set to 0"
  else Done (Ok (mkSlimRuntime config (MultiThread c c) (thread_name config))).
End Runtime.

(** ** Tracing *)
Module Tracing.
Definition OTEL_EXPORTER_OTLP_ENDPOINT : string := "http://localhost:4317".
Inductive TracingError : Type := GRPCError (s : string).

Record OpenTelemetryConfig : Type := mkOpenTelemetryConfig {
  ot_enabled : bool;
  ot_grpc : Grpc.ClientConfig;
  ot_service_name : string;
  ot_service_version : string;
  ot_environment : string;
  ot_metrics_interval_secs : N;
}.
Record TracingConfiguration : Type := mkTracingConfiguration {
  tr_log_level : string;
  tr_display_thread_names : bool;
  tr_display_thread_ids : bool;
  tr_filter : string;
  tr_opentelemetry : OpenTelemetryConfig;
}.
Definition default_log_level : string := "info".
Definition default_display_thread_names : bool := true.
Definition default_display_thread_ids : bool := false.
Definition default_filter : string := "info".
Definition default_service_name : string := "slim-data-plane".
Definition default_service_version : string := "v0.1.0".
Definition default_environment : string := "development".
Definition default_metrics_interval : N := 30.
Definition OpenTelemetryConfig_default : OpenTelemetryConfig :=
  mkOpenTelemetryConfig false
    (Grpc.with_tls_setting (Tls.client_with_insecure true Tls.client_default)
       (Grpc.with_endpoint OTEL_EXPORTER_OTLP_ENDPOINT))
    default_service_name default_service_version default_environment default_metrics_interval.
Definition TracingConfiguration_default : TracingConfiguration :=
  mkTracingConfiguration default_log_level default_display_thread_names default_display_thread_ids
    default_filter OpenTelemetryConfig_default.

Definition with_enabled (b : bool) (c : OpenTelemetryConfig) : OpenTelemetryConfig :=
  mkOpenTelemetryConfig b (ot_grpc c) (ot_service_name c) (ot_service_version c) (ot_environment c) (ot_metrics_interval_secs c).
Definition with_grpc_config (g : Grpc.ClientConfig) (c : OpenTelemetryConfig) : OpenTelemetryConfig :=
  mkOpenTelemetryConfig (ot_enabled c) g (ot_service_name c) (ot_service_version c) (ot_environment c) (ot_metrics_interval_secs c).
Definition with_service_name (s : string) (c : OpenTelemetryConfig) : OpenTelemetryConfig :=
  mkOpenTelemetryConfig (ot_enabled c) (ot_grpc c) s (ot_service_version c) (ot_environment c) (ot_metrics_interval_secs c).
Definition with_service_version (s : string) (c : OpenTelemetryConfig) : OpenTelemetryConfig :=
  mkOpenTelemetryConfig (ot_enabled c) (ot_grpc c) (ot_service_name c) s (ot_environment c) (ot_metrics_interval_secs c).
Definition with_environment (s : string) (c : OpenTelemetryConfig) : OpenTelemetryConfig :=
  mkOpenTelemetryConfig (ot_enabled c) (ot_grpc c) (ot_service_name c) (ot_service_version c) s (ot_metrics_interval_secs c).
Definition with_metrics_interval_secs (n : N) (c : OpenTelemetryConfig) : OpenTelemetryConfig :=
  mkOpenTelemetryConfig (ot_enabled c) (ot_grpc c) (ot_service_name c) (ot_service_version c) (ot_environment c) n.

Definition with_log_level (s : string) (c : TracingConfiguration) : TracingConfiguration :=
  mkTracingConfiguration s (tr_display_thread_names c) (tr_display_thread_ids c) (tr_filter c) (tr_opentelemetry c).
Definition with_display_thread_names (b : bool) (c : TracingConfiguration) : TracingConfiguration :=
  mkTracingConfiguration (tr_log_level c) b (tr_display_thread_ids c) (tr_filter c) (tr_opentelemetry c).
Definition with_display_thread_ids (b : bool) (c : TracingConfiguration) : TracingConfiguration :=
  mkTracingConfiguration (tr_log_level c) (tr_display_thread_names c) b (tr_filter c) (tr_opentelemetry c).
Definition with_filter (s : string) (c : TracingConfiguration) : TracingConfiguration :=
  mkTracingConfiguration (tr_log_level c) (tr_display_thread_names c) (tr_display_thread_ids c) s (tr_opentelemetry c).
Definition with_opentelemetry_config (o : OpenTelemetryConfig) (c : TracingConfiguration) : TracingConfiguration :=
  mkTracingConfiguration (tr_log_level c) (tr_display_thread_names c) (tr_display_thread_ids c) (tr_filter c) o.
Definition enable_opentelemetry (c : TracingConfiguration) : TracingConfiguration :=
  with_opentelemetry_config (with_enabled true (tr_opentelemetry c)) c.
Definition with_metrics_interval (n : N) (c : TracingConfiguration) : TracingConfiguration :=
  with_opentelemetry_config (with_metrics_interval_secs n (tr_opentelemetry c)) c.

(** The fields of a document that were present, and the defaults of the
    attributes [serde(default)] and [serde(default = ..)] for the others. *)
Definition OpenTelemetryConfig_of_fields (enabled : option bool) (grpc : option Grpc.ClientConfig)
    (service_name service_version environment : option string) (metrics_interval_secs : option N) : OpenTelemetryConfig :=
  mkOpenTelemetryConfig (default false enabled) (default Grpc.ClientConfig_default grpc)
    (default default_service_name service_name) (default default_service_version service_version)
    (default default_environment environment) (default default_metrics_interval metrics_interval_secs).
Definition TracingConfiguration_of_fields (log_level : option string) (display_thread_names display_thread_ids : option bool)
    (filter : option string) (opentelemetry : option OpenTelemetryConfig) : TracingConfiguration :=
  mkTracingConfiguration (default default_log_level log_level)
    (default default_display_thread_names display_thread_names)
    (default default_display_thread_ids display_thread_ids)
    (default default_filter filter) (default OpenTelemetryConfig_default opentelemetry).

Inductive Level : Type := TRACE | DEBUG | INFO | WARN | ERROR.
(** [to_lowercase] of an ASCII string. *)
Definition lower (c : ascii) : ascii :=
  let n := N_of_ascii c in
  if decide (65 <= n <= 90)%N then ascii_of_N (n + 32) else c.
Fixpoint to_lowercase (s : string) : string :=
  match s with
  | EmptyString => EmptyString
  | String c s => String (lower c) (to_lowercase s)
  end.
Definition resolve_level (level : string) : Level :=
  let level := to_lowercase level in
  if decide (level = "trace") then TRACE
  else if decide (level = "debug") then DEBUG
  else if decide (level = "info") then INFO
  else if decide (level = "warn") then WARN
  else if decide (level = "error") then ERROR
  else INFO.

(** Whether an exporter to the endpoint can be built. *)
Class Otlp : Type := {
  span_exporter : string -> Result unit string;
  metric_exporter : string -> Result unit string;
}.
(** The subscriber that is installed: its level, its console layer, and with
    OpenTelemetry the attributes of its resource, the endpoint and the interval
    of the exports. *)
Record Subscriber : Type := mkSubscriber {
  sb_level : Level;
  sb_thread_ids : bool;
  sb_thread_names : bool;
  sb_export : option (list (string * string) * string * N);
}.
Record OtelGuard : Type := mkOtelGuard {
  tracer_provider : bool;
  meter_provider : bool;
}.

(** The events of the console layer: those without a field [telemetry]. *)
Definition console_event (fields : list string) : bool := negb (existsb (String.eqb "telemetry") fields).

(** [setup_tracing_subscriber]: the subscriber it installs, unless it fails
    before. *)
Definition setup_tracing_subscriber `{Otlp} (c : TracingConfiguration) : option Subscriber * Result OtelGuard TracingError :=
  let basic := mkSubscriber (resolve_level (tr_log_level c)) (tr_display_thread_ids c) (tr_display_thread_names c) in
  let ot := tr_opentelemetry c in
  if ot_enabled ot then
    let endpoint := Grpc.endpoint (ot_grpc ot) in
    let resource := [("service.name", ot_service_name ot); ("service.version", ot_service_version ot);
                     ("deployment.environment.name", ot_environment ot)] in
    match span_exporter endpoint with
    | Err e => (None, Err (GRPCError e))
    | Ok _ =>
        match metric_exporter endpoint with
        | Err e => (None, Err (GRPCError e))
        | Ok _ =>
            (Some (basic (Some (resource, endpoint, from_secs (ot_metrics_interval_secs ot)))), Ok (mkOtelGuard true true))
        end
    end
  else (Some (basic None), Ok (mkOtelGuard false false)).
End Tracing.

(** ** The configuration file *)
Module SlimConfig.
Import Runtime Tracing.

Inductive ConfigError : Type :=
| NotFound (s : string)
| InvalidYaml
| InvalidKey (s : string)
| InvalidNoServices
| ResolverError
| Invalid (s : string).
Definition ConfigError_fmt (e : ConfigError) : string :=
  match e with
  | NotFound s => "not found: " +:+ s
  | InvalidYaml => "invalid configuration - impossible to parse yaml"
  | InvalidKey s => "invalid configuration - key " +:+ s +:+ " not valid"
  | InvalidNoServices => "invalid configuration - missing services"
  | ResolverError => "invalid configuration - resolver not found"
  | Invalid _ => "invalid configuration"
  end.

Definition CONFIG_KEYS : list string := ["tracing"; "runtime"; "services"].

Class Yaml : Type := { yaml_from_str : string -> option Value }.
Class FromValue (A : Type) : Type := { from_value : Value -> Result A string }.

(** [as_mapping], tags looked through; [get] with a string. *)
Fixpoint as_mapping (v : Value) : option (list (Value * Value)) :=
  match v with
  | Mapping m => Some m
  | Tagged _ v => as_mapping v
  | _ => None
  end.
Definition is_key (k : string) (v : Value) : bool :=
  match v with Str s => bool_decide (s = k) | _ => false end.
Definition value_get (k : string) (v : Value) : option Value :=
  m ← as_mapping v;
  snd <$> List.find (fun kv => is_key k kv.1) m.

Section config.
Context `{Environment, Yaml}.
Context `{Hasher, HashIter, Transport, Telemetry, ErrorText, Rng, DebugAssertions, UnicodeTables, StatusText}.
Context {G : GrpcConfig}.
Context `{!FromValue TracingConfiguration, !FromValue RuntimeConfiguration, !FromValue ServiceConfiguration}.

Record ConfigResult : Type := mkConfigResult {
  cr_tracing : TracingConfiguration;
  cr_runtime : RuntimeConfiguration;
  cr_services : gmap (string * string) (ID * Service);
}.
(** What the derived [Hash] and [Eq] of an identifier look at. *)
Definition id_key (id : ID) : string * string := (kind_name (kind_val id), name_val id).

Definition unwrap_or_panic {A} (o : option A) : panics A :=
  expect o "called `Option::unwrap()` on a `None` value".

(** [resolve_component] for the builder of services. *)
Definition resolve_component (id : ID) (component_config : Value) : panics (Result Service ConfigError) :=
  match from_value component_config with
  | Err e => Done (Err (Invalid e))
  | Ok config =>
      match ServiceConfiguration_validate config with
      | Err e => Done (Err (Invalid (ConfigurationError_fmt e)))
      | Ok _ =>
          res ← ServiceBuilder_build_with_config (name_val id) config;
          Done (map_err (fun e => Invalid (ComponentError_fmt e)) res)
      end
  end.

Definition build_service (name config : Value) : panics (Result Service ConfigError) :=
  id_string ← unwrap_or_panic (as_str name);
  match ID_new_with_str id_string with
  | Err e => Done (Err (InvalidKey (IdError_fmt e)))
  | Ok id =>
      if decide (Kind_fmt (kind_val id) = KIND) then resolve_component id config
      else Done (Err (InvalidKey id_string))
  end.

(** The loop over the keys. *)
Fixpoint check_keys (keys : list Value) : panics (Result unit ConfigError) :=
  match keys with
  | [] => Done (Ok tt)
  | key :: keys =>
      k ← unwrap_or_panic (as_str key);
      if decide (k ∈ CONFIG_KEYS) then check_keys keys else Done (Err (InvalidKey k))
  end.

(** The loop over the services. *)
Fixpoint build_services (l : list (Value * Value)) (services : gmap (string * string) (ID * Service))
    : panics (Result (gmap (string * string) (ID * Service)) ConfigError) :=
  match l with
  | [] => Done (Ok services)
  | (name, value) :: l =>
      res ← build_service name value;
      match res with
      | Err e => Done (Err e)
      | Ok s => build_services l (hm_insert id_key (sv_id s) s services)
      end
  end.

(** A part of the document, or its default. *)
Definition part {A} `{FromValue A} (key : string) (otherwise : A) (config : Value) : Result A ConfigError :=
  match value_get key config with
  | Some v => map_err Invalid (from_value v)
  | None => Ok otherwise
  end.

(** From the document on. *)
Definition load_value (config : Value) : panics (Result ConfigResult ConfigError) :=
  root ← unwrap_or_panic (as_mapping config);
  checked ← check_keys root.*1;
  match checked with
  | Err e => Done (Err e)
  | Ok _ =>
      match resolve ConfigResolver_new config with
      | (_, Err _) => Done (Err ResolverError)
      | (config, Ok _) =>
          match part "tracing" TracingConfiguration_default config with
          | Err e => Done (Err e)
          | Ok tracing =>
              match part "runtime" RuntimeConfiguration_default config with
              | Err e => Done (Err e)
              | Ok runtime =>
                  match value_get "services" config with
                  | None => Done (Err InvalidNoServices)
                  | Some service =>
                      match as_mapping service with
                      | None => Done (Err InvalidYaml)
                      | Some service =>
                          res ← build_services service ∅;
                          match res with
                          | Err e => Done (Err e)
                          | Ok services =>
                              if decide (services = ∅) then Done (Err InvalidNoServices)
                              else Done (Ok (mkConfigResult tracing runtime services))
                          end
                      end
                  end
              end
          end
      end
  end.

(** [read_error]: the error of a file that cannot be read. *)
Definition load_config (read_error config_file : string) : panics (Result ConfigResult ConfigError) :=
  match read_to_string config_file with
  | None => Done (Err (NotFound read_error))
  | Some config_str =>
      match yaml_from_str config_str with
      | None => Done (Err InvalidYaml)
      | Some config => load_value config
      end
  end.

(** ** The program *)
Record Args : Type := mkArgs { ar_config : option string; ar_version : bool }.
(** What happens to a service: the outcomes of its [start], and whether it
    drains in time. *)
Record ServiceFate : Type := mkServiceFate {
  sf_bound : list bool;
  sf_controller_bound : bool;
  sf_attempts : list (list bool);
  sf_controller_connected : bool;
  sf_drained : bool;
}.
Inductive Exit : Type := Version | Stopped (services : list (ID * Service)).

Fixpoint start_services (fate : ID -> ServiceFate) (l : list (ID * Service)) : panics (list (ID * Service)) :=
  match l with
  | [] => Done []
  | (id, svc) :: l =>
      let f := fate id in
      '(svc, res) ← start (sf_bound f) (sf_controller_bound f) (sf_attempts f) (sf_controller_connected f) svc;
      match res with
      | Err _ => Panic "failed to start service"
      | Ok _ => l ← start_services fate l; Done ((id, svc) :: l)
      end
  end.
Fixpoint drain_services (fate : ID -> ServiceFate) (l : list (ID * Service)) : panics unit :=
  match l with
  | [] => Done tt
  | (id, _) :: l =>
      if sf_drained (fate id) then drain_services fate l
      else Panic ("timeout waiting for drain for service " +:+ ID_fmt id)
  end.

(** [main], up to the end of the process; the tracing subscriber and what it
    returns are not used. *)
Definition main `{Otlp} (args : Args) (read_error : string) (n_cpu : N) (fate : ID -> ServiceFate)
    : panics (option Subscriber * Exit) :=
  if ar_version args then Done (None, Version)
  else
    config_file ← expect (ar_config args) "config file is required";
    config ← load_config read_error config_file;
    match config with
    | Err _ => Panic "failed to load configuration"
    | Ok config =>
        runtime ← build n_cpu (cr_runtime config);
        match runtime with
        | Err _ => Panic "failed to build runtime"
        | Ok _ =>
            let '(subscriber, _guard) := setup_tracing_subscriber (cr_tracing config) in
            services ← start_services fate (hash_iter (cr_services config)).*2;
            _ ← drain_services fate services;
            Done (subscriber, Stopped services)
        end
    end.
End config.
End SlimConfig.

(** ** The component that does nothing *)
Module NopComponent.
Definition KIND : string := "nop_component".
Record NopComponentConfig : Type := mkNopComponentConfig {
  nc_grpc : Grpc.ClientConfig;
  nc_field : string;
}.
Record NopComponent : Type := mkNopComponent {
  np_id : ID;
  np_config : NopComponentConfig;
}.
Definition NopComponentConfig_default : NopComponentConfig := mkNopComponentConfig Grpc.ClientConfig_default "".
Definition new (id : ID) : NopComponent := mkNopComponent id NopComponentConfig_default.
Definition new_with_config (id : ID) (config : NopComponentConfig) : NopComponent := mkNopComponent id config.
Definition validate (_ : NopComponentConfig) : Result unit ConfigurationError := Ok tt.
Definition start (c : NopComponent) : NopComponent * Result unit ComponentError := (c, Ok tt).
Definition kind : panics Kind :=
  match Kind_new KIND with
  | Ok k => Done k
  | Err _ => Panic "called `Result::unwrap()` on an `Err` value"
  end.
Definition nop_build `{UnicodeTables} (name : string) : panics (Result NopComponent ComponentError) :=
  k ← kind;
  Done (match ID_new_with_name k name with
        | Err e => Err (ComponentError_ConfigError (IdError_fmt e))
        | Ok id => Ok (new id)
        end).
Definition nop_build_with_config `{UnicodeTables} (name : string) (config : NopComponentConfig)
    : panics (Result NopComponent ComponentError) :=
  k ← kind;
  Done (match ID_new_with_name k name with
        | Err e => Err (ComponentError_ConfigError (IdError_fmt e))
        | Ok id => Ok (new_with_config id config)
        end).
End NopComponent.
Close Scope string_scope.
