(* ===== verification/SlimClaims.v ===== *)
(** * The executable: theorems

    What a loaded configuration is; when loading panics; the bounds of the
    runtime; what the tracing configuration does not do. *)
From Stdlib Require Import Ascii.
From stdpp Require Import base list gmap strings numbers option.
From S2P Require Import Tls Grpc.
From S2P Require Import Prelude Encoder Text ComponentId Provider MessageProcessing Session SessionLayer Service Slim.
From S2P Require Import MessageProcessingProofs DataPlane SessionLayerProofs ServiceClaims.
Import Runtime Tracing SlimConfig.
Open Scope string_scope.

Lemma runtime_built `{DebugAssertions} n_cpu c : (0 < n_cpu)%N -> exists r, build n_cpu c = Done (Ok r).
Proof.
  intros Hcpu. unfold build. rewrite bool_decide_false by lia. rewrite andb_false_r. cbn.
  case_decide; [by eexists|]. case_decide as Hc; [|by eexists]. unfold cores in Hc. repeat case_decide; lia.
Qed.

(** A runtime has at least one core and no more than the machine has; it
    has the number asked for when that is within these bounds, and building it
    does not fail. One core gives the current-thread runtime. *)
Theorem runtime_cores `{DebugAssertions} n_cpu c :
  (0 < n_cpu)%N ->
  (1 <= cores n_cpu c <= n_cpu)%N /\
  ((1 <= n_cores c <= n_cpu)%N -> cores n_cpu c = n_cores c) /\
  exists r, build n_cpu c = Done (Ok r) /\ rt_config r = c /\
    (rt_flavor r = CurrentThread <-> cores n_cpu c = 1%N).
Proof.
  intros Hcpu. assert (Hb : (1 <= cores n_cpu c <= n_cpu)%N).
  { unfold cores. repeat case_decide; lia. }
  split; [done|]. split.
  { intros Hc. unfold cores. repeat case_decide; lia. }
  unfold build. rewrite bool_decide_false by lia. rewrite andb_false_r. cbn.
  destruct (decide (cores n_cpu c = 1%N)) as [->|Hne]; [by eexists|].
  rewrite decide_False by lia. eexists. split; [done|]. split; [done|]. split; [done|]. by intros ?.
Qed.

Section loading.
Context `{Environment, Yaml}.
Context `{Hasher, HashIter, Transport, Telemetry, ErrorText, Rng, DebugAssertions, UnicodeTables, StatusText}.
Context {G : GrpcConfig}.
Context `{!FromValue TracingConfiguration, !FromValue RuntimeConfiguration, !FromValue ServiceConfiguration}.

Definition string_key (v : Value) : Prop := is_Some (as_str v).

Lemma check_keys_Ok keys u :
  check_keys keys = Done (Ok u) -> Forall (fun key => exists k, as_str key = Some k /\ k ∈ CONFIG_KEYS) keys.
Proof.
  induction keys as [|key keys IH]; [constructor|]. cbn. unfold unwrap_or_panic.
  destruct (as_str key) as [k|] eqn:Hk; cbn; [|done]. case_decide as Hin; [|done].
  intros Hrest. constructor; [by exists k|by apply IH].
Qed.
Lemma check_keys_total keys : Forall string_key keys -> exists r, check_keys keys = Done r.
Proof.
  induction 1 as [|key keys [k Hk] _ IH]; [by eexists|]. cbn. rewrite Hk. cbn.
  case_decide; [done|by eexists].
Qed.

(** The service an entry of the document stands for. *)
Definition entry_service (name value : Value) (s : Service) : Prop :=
  exists id_string config, as_str name = Some id_string /\ ID_new_with_str id_string = Ok (sv_id s) /\
    Kind_fmt (kind_val (sv_id s)) = KIND /\ from_value value = Ok config /\
    ServiceConfiguration_validate config = Ok tt /\ s = with_config (Service_new (sv_id s)) config.

Lemma ServiceBuilder_kind_ok : ServiceBuilder_kind = Done (mkKind KIND).
Proof. done. Qed.

Lemma ID_new_with_str_name s id :
  ID_new_with_str s = Ok id -> ID_new_with_name (kind_val id) (name_val id) = Ok id.
Proof.
  unfold ID_new_with_str. destruct (default ("", "") (split_once _ s)) as [k n].
  destruct (decide (k = "")); [done|]. destruct (Kind_new k) as [kd|]; [|done].
  unfold ID_new_with_name. destruct (validate_name n) eqn:Hn; [|done]. intros [= <-]. cbn. by rewrite Hn.
Qed.

Lemma build_service_Ok name value s : build_service name value = Done (Ok s) <-> entry_service name value s.
Proof.
  unfold build_service, entry_service, unwrap_or_panic. split.
  - destruct (as_str name) as [id_string|]; cbn; [|done].
    destruct (ID_new_with_str id_string) as [id|] eqn:Hid; [|done]. case_decide as Hk; [|done].
    unfold resolve_component. destruct (from_value value) as [config|] eqn:Hv; [|done].
    destruct (ServiceConfiguration_validate config) as [[]|] eqn:Hval; [|done].
    unfold ServiceBuilder_build_with_config. rewrite ServiceBuilder_kind_ok. cbn.
    pose proof (ID_new_with_str_name _ _ Hid) as Hn.
    assert (Hkd : kind_val id = mkKind KIND) by (destruct id as [[kn] nm]; cbn in *; by rewrite <- Hk).
    rewrite Hkd in Hn. rewrite Hn. cbn. intros [= <-]. cbn. by exists id_string, config.
  - intros (id_string&config&->&Hid&Hk&Hv&Hval&Hs). cbn. rewrite Hid, decide_True by done.
    unfold resolve_component. rewrite Hv, Hval. unfold ServiceBuilder_build_with_config.
    rewrite ServiceBuilder_kind_ok. cbn. pose proof (ID_new_with_str_name _ _ Hid) as Hn.
    assert (Hkd : kind_val (sv_id s) = mkKind KIND).
    { destruct (sv_id s) as [[kn] nm]; cbn in *; by rewrite <- Hk. }
    rewrite Hkd in Hn. rewrite Hn. cbn. by rewrite <- Hs.
Qed.

Lemma build_service_total name value : string_key name -> exists r, build_service name value = Done r.
Proof.
  intros [n Hn]. unfold build_service. rewrite Hn. cbn. destruct (ID_new_with_str n) as [id|]; [|by eexists].
  case_decide; [|by eexists]. unfold resolve_component. destruct (from_value value) as [config|]; [|by eexists].
  destruct (ServiceConfiguration_validate config); [|by eexists].
  unfold ServiceBuilder_build_with_config. rewrite ServiceBuilder_kind_ok. cbn.
  destruct (ID_new_with_name _ _); by eexists.
Qed.

(** The map of services built so far. *)
Definition services_of (l : list (Value * Value)) (m : gmap (string * string) (ID * Service)) : Prop :=
  (forall k id s, m !! k = Some (id, s) ->
     id_key id = k /\ exists name value, (name, value) ∈ l /\ entry_service name value s /\ id_key (sv_id s) = k) /\
  forall name value, (name, value) ∈ l -> exists s, entry_service name value s /\ is_Some (m !! id_key (sv_id s)).

Lemma hm_insert_id (m : gmap (string * string) (ID * Service)) id s k :
  hm_insert id_key id s m !! k =
  if decide (k = id_key id)
  then Some (match m !! id_key id with Some (id0, _) => id0 | None => id end, s) else m !! k.
Proof.
  unfold hm_insert. destruct (m !! id_key id) as [[id0 s0]|];
    (destruct (decide (k = id_key id)) as [->|]; [by rewrite lookup_insert_eq|by rewrite lookup_insert_ne]).
Qed.

Lemma build_services_Ok l : forall done_l m m',
  services_of done_l m -> build_services l m = Done (Ok m') -> services_of (done_l ++ l)%list m'.
Proof.
  induction l as [|[name value] l IH]; intros done_l m m' Hm; cbn [build_services].
  { rewrite app_nil_r. by intros [= <-]. }
  destruct (build_service name value) as [[s|e]|] eqn:Hs; cbn; try done.
  apply build_service_Ok in Hs. intros Hrest.
  replace (done_l ++ (name, value) :: l)%list with ((done_l ++ [(name, value)]) ++ l)%list by (by rewrite <- app_assoc).
  eapply IH; [|exact Hrest]. destruct Hm as [Hin Hall]. split.
  - intros k id s'. rewrite hm_insert_id. destruct (decide (k = id_key (sv_id s))) as [->|Hne].
    + intros [= <- <-]. split.
      * destruct (m !! id_key (sv_id s)) as [[id0 s0]|] eqn:E; [by apply (Hin _ _ _ E)|done].
      * exists name, value. rewrite elem_of_app, list_elem_of_singleton. auto.
    + intros Hk. destruct (Hin k id s' Hk) as [Hid (n&v&Hnv&He)]. split; [done|].
      exists n, v. rewrite elem_of_app. auto.
  - intros n v. rewrite elem_of_app, list_elem_of_singleton. intros [Hnv|[= -> ->]].
    + destruct (Hall n v Hnv) as (s0&He&Hsome). exists s0. split; [done|]. rewrite hm_insert_id.
      case_decide; [by eexists|done].
    + exists s. split; [done|]. rewrite hm_insert_id, decide_True by done. by eexists.
Qed.
Lemma build_services_total l : Forall (fun kv => string_key kv.1) l -> forall m, exists r, build_services l m = Done r.
Proof.
  induction 1 as [|[name value] l Hk _ IH]; intros m; [by eexists|]. cbn.
  destruct (build_service_total name value Hk) as [[s|e] ->]; cbn; [apply IH|by eexists].
Qed.

(** A document whose keys that matter are strings. *)
Definition well_keyed (config : Value) : Prop :=
  exists root, as_mapping config = Some root /\ Forall string_key root.*1 /\
    forall v l, value_get "services" config = Some v -> as_mapping v = Some l -> Forall string_key l.*1.

Lemma string_keys (l : list (Value * Value)) : Forall string_key l.*1 -> Forall (fun kv => string_key kv.1) l.
Proof. induction l as [|kv l IH]; cbn; [constructor|]. intros Hl. inversion_clear Hl. constructor; auto. Qed.

(** Resolving keeps the keys. *)
Lemma as_mapping_substituted f v l :
  as_mapping (map_strings f v) = Some l -> exists l0, as_mapping v = Some l0 /\ l.*1 = l0.*1.
Proof.
  destruct v as [|b|t|s|seq|m|t v]; cbn; try done.
  - intros [= <-]. exists m. split; [done|]. rewrite <- list_fmap_compose. by apply list_fmap_ext.
  - intros Hv. by exists l.
Qed.
Lemma value_get_substituted f k v x :
  value_get k (map_strings f v) = Some x ->
  exists x0, value_get k v = Some x0 /\ (x = x0 \/ x = map_strings f x0).
Proof.
  unfold value_get. destruct v as [|b|t|s|seq|m|t v]; cbn; try done.
  - induction m as [|[k0 v0] m IH]; cbn; [done|]. destruct (is_key k k0); [|exact IH]. cbn. intros [= <-]. eauto.
  - intros Hx. exists x. auto.
Qed.

Lemma load_value_total config : well_keyed config -> exists r, load_value config = Done r.
Proof.
  intros (root&Hroot&Hkeys&Hsvc). unfold load_value, unwrap_or_panic. rewrite Hroot. cbn.
  destruct (check_keys_total _ Hkeys) as [[[]|e] ->]; cbn; [|by eexists].
  destruct (resolve_spec ConfigResolver_new config) as [_ Hres].
  destruct (resolve ConfigResolver_new config) as [config' [[]|e]]; [|by eexists]. cbn in Hres. rewrite Hres by done.
  destruct (part "tracing" _ _); [|by eexists]. destruct (part "runtime" _ _); [|by eexists].
  destruct (value_get "services" (map_strings (substitute ConfigResolver_new) config)) as [v|] eqn:Hv; [|by eexists].
  destruct (as_mapping v) as [l|] eqn:Hl; [|by eexists].
  assert (Hlk : Forall (fun kv => string_key kv.1) l).
  { destruct (value_get_substituted _ _ _ _ Hv) as (v0&Hv0&[->| ->]).
    - apply string_keys, (Hsvc _ _ Hv0 Hl).
    - destruct (as_mapping_substituted _ _ _ Hl) as (l0&Hl0&Heq). apply string_keys. rewrite Heq.
      apply (Hsvc _ _ Hv0 Hl0). }
  destruct (build_services_total l Hlk ∅) as [[m|e] ->]; cbn; [|by eexists]. case_decide; by eexists.
Qed.

(** A service that was started without an error, and drained. *)
Definition ran (fate : ID -> ServiceFate) (before after : ID * Service) : Prop :=
  after.1 = before.1 /\
  let f := fate before.1 in
  start (sf_bound f) (sf_controller_bound f) (sf_attempts f) (sf_controller_connected f) before.2 =
    Done (after.2, Ok tt) /\
  sf_drained f = true.

Lemma services_ran fate l : forall l', start_services fate l = Done l' -> drain_services fate l' = Done tt ->
  Forall2 (ran fate) l l'.
Proof.
  induction l as [|[id svc] l IH]; intros l'; cbn [start_services].
  { intros [= <-] _. constructor. }
  destruct (start _ _ _ _ svc) as [[svc' [[]|e]]|] eqn:Hs; cbn; try done.
  destruct (start_services fate l) as [rest|] eqn:Hrest; cbn; [|done]. intros [= <-]. cbn.
  destruct (sf_drained (fate id)) eqn:Hd; [|done]. intros Hdr. constructor; [done|by apply IH].
Qed.
Lemma start_failure_panics fate l id svc svc' e :
  (id, svc) ∈ l ->
  start (sf_bound (fate id)) (sf_controller_bound (fate id)) (sf_attempts (fate id))
    (sf_controller_connected (fate id)) svc = Done (svc', Err e) ->
  panicked (start_services fate l).
Proof.
  intros Hin Hs. induction l as [|[id0 svc0] l IH]; [by apply elem_of_nil in Hin|]. cbn [start_services].
  apply elem_of_cons in Hin as [[= <- <-]|Hin].
  { rewrite Hs. cbn. by eexists. }
  specialize (IH Hin).
  destruct (start _ _ _ _ svc0) as [[svc0' [[]|e0]]|]; cbn; [|by eexists..].
  destruct IH as [why ->]. cbn. by eexists.
Qed.
End loading.

(** C33: A configuration that is loaded is what its file says. Its top-level
    keys are among the three known ones, every reference in it could be resolved
    and is replaced, the tracing and runtime parts are those of the document or
    the defaults, and the services are those of the document's mapping, at least
    one: each entry names a service of kind [slim] with a well-formed
    identifier, whose configuration is the entry's value, read and validated,
    and every service is that of an entry. *)
Theorem config_loaded `{Environment, Yaml, Hasher, HashIter, Transport, Telemetry, ErrorText, Rng,
      DebugAssertions, UnicodeTables, StatusText} {G : GrpcConfig}
    `{!FromValue TracingConfiguration, !FromValue RuntimeConfiguration, !FromValue ServiceConfiguration}
    read_error file r :
  load_config read_error file = Done (Ok r) ->
  exists text config root v l,
    read_to_string file = Some text /\ yaml_from_str text = Some config /\ as_mapping config = Some root /\
    Forall (fun key => exists k, as_str key = Some k /\ k ∈ CONFIG_KEYS) root.*1 /\
    first_error ConfigResolver_new (strings_of config) = Ok tt /\
    let resolved := map_strings (substitute ConfigResolver_new) config in
    part "tracing" TracingConfiguration_default resolved = Ok (cr_tracing r) /\
    part "runtime" RuntimeConfiguration_default resolved = Ok (cr_runtime r) /\
    value_get "services" resolved = Some v /\ as_mapping v = Some l /\
    services_of l (cr_services r) /\ cr_services r <> ∅.
Proof.
  unfold load_config. destruct (read_to_string file) as [text|]; [|done].
  destruct (yaml_from_str text) as [config|] eqn:Hy; [|done]. unfold load_value, unwrap_or_panic.
  destruct (as_mapping config) as [root|] eqn:Hroot; cbn; [|done].
  destruct (check_keys root.*1) as [[u|]|] eqn:Hkeys; cbn; try done.
  destruct (resolve_spec ConfigResolver_new config) as [Herr Hres].
  destruct (resolve ConfigResolver_new config) as [config' [[]|e]]; [|done]. cbn in Herr, Hres. rewrite Hres by done.
  destruct (part "tracing" _ _) as [tr|] eqn:Htr; [|done]. destruct (part "runtime" _ _) as [rt|] eqn:Hrt; [|done].
  destruct (value_get "services" (map_strings (substitute ConfigResolver_new) config)) as [v|] eqn:Hv; [|done]. destruct (as_mapping v) as [l|] eqn:Hl; [|done].
  destruct (build_services l ∅) as [[m|]|] eqn:Hb; cbn; try done. case_decide as Hne; [done|]. intros [= <-]. cbn.
  exists text, config, root, v, l. split; [done|]. split; [done|]. split; [done|].
  split; [by apply (check_keys_Ok _ u)|]. do 5 (split; [done|]). split; [|done].
  apply (build_services_Ok l [] ∅ m); [|done]. split.
  - intros k id s. by rewrite lookup_empty.
  - intros n x Hin. by apply elem_of_nil in Hin.
Qed.

(** Loading does not panic when the document is a mapping whose keys are
    strings, as are those of its services. It does when the document is not a
    mapping, an empty file for instance, where an error is meant to be
    returned. *)
Theorem config_panics `{Environment, Yaml, Hasher, HashIter, Transport, Telemetry, ErrorText, Rng,
      DebugAssertions, UnicodeTables, StatusText} {G : GrpcConfig}
    `{!FromValue TracingConfiguration, !FromValue RuntimeConfiguration, !FromValue ServiceConfiguration}
    read_error file text config :
  read_to_string file = Some text -> yaml_from_str text = Some config ->
  (well_keyed config -> exists res, load_config read_error file = Done res) /\
  (as_mapping config = None -> panicked (load_config read_error file)).
Proof.
  intros Ht Hy. unfold load_config. rewrite Ht, Hy. split; [apply load_value_total|].
  intros Hm. unfold load_value, unwrap_or_panic. rewrite Hm. by eexists.
Qed.

(** What the tracing configuration does not do. Its [filter] has no effect
    on the subscriber; a document that enables OpenTelemetry without a [grpc]
    section exports to the empty endpoint, not to the default one of
    [OpenTelemetryConfig]; a level that is not one of the five is taken as
    [info]; when the exporters cannot be built no subscriber is installed. *)
Theorem tracing_settings_ignored `{Otlp} c f :
  setup_tracing_subscriber (with_filter f c) = setup_tracing_subscriber c /\
  (let ot := OpenTelemetryConfig_of_fields (Some true) None None None None None in
   Grpc.endpoint (ot_grpc ot) = "" /\
   Grpc.endpoint (ot_grpc OpenTelemetryConfig_default) = OTEL_EXPORTER_OTLP_ENDPOINT) /\
  resolve_level "WARNING" = INFO /\
  (ot_enabled (tr_opentelemetry c) = true -> is_ok (span_exporter (Grpc.endpoint (ot_grpc (tr_opentelemetry c)))) = false ->
   (setup_tracing_subscriber c).1 = None).
Proof.
  split; [done|]. split; [done|]. split; [done|]. intros He Hx. unfold setup_tracing_subscriber. rewrite He.
  by destruct (span_exporter _).
Qed.

(** The program that comes to its end has loaded its configuration, built
    its runtime, started every configured service without an error and seen each
    of them drain; and one service that fails to start makes the program panic,
    whatever the others do. *)
Theorem program_ran `{Environment, Yaml, Hasher, HashIter, Transport, Telemetry, ErrorText, Rng,
      DebugAssertions, UnicodeTables, StatusText, Otlp} {G : GrpcConfig}
    `{!FromValue TracingConfiguration, !FromValue RuntimeConfiguration, !FromValue ServiceConfiguration}
    read_error n_cpu fate file config :
  load_config read_error file = Done (Ok config) -> (0 < n_cpu)%N ->
  let args := mkArgs (Some file) false in
  let services := (hash_iter (cr_services config)).*2 in
  (forall subscriber l, main args read_error n_cpu fate = Done (subscriber, Stopped l) ->
     Forall2 (ran fate) services l /\ subscriber = (setup_tracing_subscriber (cr_tracing config)).1) /\
  (forall id svc svc' e, (id, svc) ∈ services ->
     start (sf_bound (fate id)) (sf_controller_bound (fate id)) (sf_attempts (fate id))
       (sf_controller_connected (fate id)) svc = Done (svc', Err e) ->
     panicked (main args read_error n_cpu fate)).
Proof.
  intros Hload Hcpu args services. unfold main, args. cbn [ar_version ar_config]. cbn. rewrite Hload. cbn.
  destruct (runtime_built n_cpu (cr_runtime config) Hcpu) as [r ->]. cbn.
  destruct (setup_tracing_subscriber (cr_tracing config)) as [sub guard]. fold services. split.
  - intros subscriber l. destruct (start_services fate services) as [l'|] eqn:Hs; cbn; [|done].
    destruct (drain_services fate l') as [[]|] eqn:Hd; cbn; [|done]. intros [= <- <-].
    split; [by apply services_ran|done].
  - intros id svc svc' e Hin Hs. destruct (start_failure_panics fate services id svc svc' e Hin Hs) as [why ->].
    by eexists.
Qed.

(** ** A concrete file *)
Module SlimDemo.
Import ServiceDemo.
#[local] Existing Instances toy_hasher hash_iter_sorted demo_transport demo_errors demo_rng demo_checks ascii_tables
  quiet_telemetry plain_status demo_grpc.
Definition files : Environment :=
  {| env_var v := if decide (v = "CORES") then Some "2" else None;
     read_to_string p := if decide (p = "slim.yaml") then Some "services" else if decide (p = "empty.yaml") then Some "" else None |}.
#[local] Existing Instance files.
(** Two documents: [slim.yaml] and an empty file. *)
Definition document : Value :=
  Mapping [(Str "runtime", Mapping [(Str "n_cores", Str "${env:CORES}")]);
           (Str "services", Mapping [(Str "slim/0", Null)])].
Definition demo_yaml : Yaml :=
  {| yaml_from_str t := if decide (t = "services") then Some document else if decide (t = "") then Some Null else None |}.
Definition demo_tracing : FromValue TracingConfiguration := {| from_value _ := Ok TracingConfiguration_default |}.
Definition demo_runtime : FromValue RuntimeConfiguration :=
  {| from_value v := match value_get "n_cores" v with
                     | Some (Str "2") => Ok (with_cores 2)
                     | Some _ => Err "invalid type"
                     | None => Ok RuntimeConfiguration_default
                     end |}.
Definition demo_service : FromValue ServiceConfiguration := {| from_value _ := Ok (with_server ServiceConfiguration_new [tt]) |}.
Definition demo_otlp : Otlp :=
  {| span_exporter e := if decide (e = "") then Err "invalid uri" else Ok tt; metric_exporter _ := Ok tt |}.
#[local] Existing Instances demo_yaml demo_tracing demo_runtime demo_service demo_otlp.

Definition loaded : bool := match load_config "" "slim.yaml" with Done (Ok _) => true | _ => false end.

Lemma runtime_cores_witness : exists r, build 8 (with_cores 2) = Done (Ok r) /\ rt_config r = with_cores 2.
Proof.
  destruct (runtime_cores 8%N (with_cores 2) eq_refl) as (_&_&r&Hr&Hc&_). exists r. exact (conj Hr Hc).
Defined.

Lemma config_loaded_witness :
  exists r v l, load_config "" "slim.yaml" = Done (Ok r) /\ services_of l (cr_services r) /\
    as_mapping v = Some l /\ l = [(Str "slim/0", Null)] /\ cr_runtime r = with_cores 2.
Proof.
  assert (Hok : loaded = true) by (vm_compute; reflexivity). unfold loaded in Hok.
  destruct (load_config "" "slim.yaml") as [[r|]|] eqn:Hl; [|discriminate Hok..].
  destruct (config_loaded "" "slim.yaml" r Hl) as (text&config&root&v&l&Ht&Hy&Hm&Hk&Hf&Htr&Hrt&Hv&Hml&Hs&Hne).
  assert (text = "services") as -> by (vm_compute in Ht; congruence).
  assert (config = document) as -> by (vm_compute in Hy; unfold document; congruence).
  assert (v = Mapping [(Str "slim/0", Null)]) as -> by (vm_compute in Hv; congruence).
  exists r, (Mapping [(Str "slim/0", Null)]), l. split; [reflexivity|]. split; [exact Hs|]. split; [exact Hml|].
  split; [cbn in Hml; congruence|]. vm_compute in Hrt. vm_compute. congruence.
Defined.

Lemma config_panics_witness :
  (exists res, load_config "" "slim.yaml" = Done res) /\ panicked (load_config "" "empty.yaml").
Proof.
  split.
  - apply (config_panics "" "slim.yaml" "services" document); [vm_compute; reflexivity..|].
    eexists. split; [reflexivity|]. split.
    + constructor; [by eexists|]. constructor; [by eexists|]. constructor.
    + intros v l Hv Hl. vm_compute in Hv. injection Hv as <-. cbn in Hl. injection Hl as <-.
      constructor; [by eexists|constructor].
  - apply (config_panics "" "empty.yaml" "" Null); vm_compute; reflexivity.
Defined.

Lemma tracing_settings_ignored_witness :
  (setup_tracing_subscriber (with_opentelemetry_config
     (OpenTelemetryConfig_of_fields (Some true) None None None None None) TracingConfiguration_default)).1 = None.
Proof. apply (tracing_settings_ignored _ ""); vm_compute; reflexivity. Defined.

Definition good_fate : ID -> ServiceFate := fun _ => mkServiceFate [true] true [] true true.
Definition ended_well : bool :=
  match main (mkArgs (Some "slim.yaml") false) "" 8 good_fate with Done (_, Stopped _) => true | _ => false end.
Lemma program_ran_witness :
  exists config subscriber l, load_config "" "slim.yaml" = Done (Ok config) /\
    main (mkArgs (Some "slim.yaml") false) "" 8 good_fate = Done (subscriber, Stopped l) /\
    Forall2 (ran good_fate) (hash_iter (cr_services config)).*2 l.
Proof.
  assert (Hok : loaded = true) by (vm_compute; reflexivity). unfold loaded in Hok.
  destruct (load_config "" "slim.yaml") as [[r|]|] eqn:Hl; [|discriminate Hok..].
  assert (Hend : ended_well = true) by (vm_compute; reflexivity). unfold ended_well in Hend.
  destruct (main (mkArgs (Some "slim.yaml") false) "" 8 good_fate) as [[sub [|l]]|] eqn:Hm; [discriminate Hend| |discriminate Hend].
  exists r, sub, l. split; [reflexivity|]. split; [reflexivity|].
  exact (proj1 (proj1 (program_ran "" 8%N good_fate "slim.yaml" r Hl eq_refl) sub l Hm)).
Defined.
End SlimDemo.
Close Scope string_scope.
