(* ===== verification/Bindings.v ===== *)
(** * The Python bindings

    [python-bindings/src/pyservice.rs], [pysession.rs], [utils.rs].

    A [PyService] is a service with one agent and the receiver of its channel.
    Its methods call the service ([Service]); every exported function runs a
    method and turns its error into an exception with the error's text.
    Parameters: the conversion of a Python dictionary ([FromPy]: serde_pyobject)
    and the random agent id. A future that is not ready is [Pending]. *)
From stdpp Require Import base list gmap strings numbers option.
From S2P Require Import Tls Grpc.
From S2P Require Import Prelude Proto Encoder Messages ComponentId Provider MessageProcessing.
From S2P Require Import Session SessionLayer Service Slim.
Import Tracing.
Open Scope string_scope.

Module Bindings.

(** ** Names, sessions and configurations *)
Record PyAgentType : Type := mkPyAgentType {
  py_organization : string;
  py_namespace : string;
  py_agent_type : string;
}.
Definition PyAgentType_new (agent_org agent_ns agent_class : string) : PyAgentType :=
  mkPyAgentType agent_org agent_ns agent_class.
Definition AgentType_from_py `{Hasher} (v : PyAgentType) : AgentType :=
  AgentType_from_strings (py_organization v) (py_namespace v) (py_agent_type v).

Record PySessionInfo : Type := mkPySessionInfo { session_info : Info }.
Definition PySessionInfo_new (session_id : N) : PySessionInfo := mkPySessionInfo (Info_new session_id).
Definition PySessionInfo_id (i : PySessionInfo) : N := in_id (session_info i).

Inductive PySessionDirection : Type := PySender | PyReceiver | PyBidirectional.
Definition SessionDirection_from_py (d : PySessionDirection) : SessionDirection :=
  match d with PySender => Sender | PyReceiver => Receiver | PyBidirectional => Bidirectional end.
Definition PySessionDirection_from (d : SessionDirection) : PySessionDirection :=
  match d with Sender => PySender | Receiver => PyReceiver | Bidirectional => PyBidirectional end.

Inductive PySessionType : Type := PyTypeFireAndForget | PyTypeRequestResponse | PyTypeStreaming.
Definition SessionType_from_py (t : PySessionType) : SessionType :=
  match t with
  | PyTypeFireAndForget => SessionType_FireAndForget
  | PyTypeRequestResponse => SessionType_RequestResponse
  | PyTypeStreaming => SessionType_Streaming
  end.

Record PyRequestResponseConfiguration : Type := mkPyRequestResponseConfiguration {
  request_response_configuration : RequestResponseConfiguration;
}.

Inductive PySessionConfiguration : Type :=
| PyFireAndForget (timeout max_retries : option N) (sticky : bool)
| PyRequestResponse (timeout : N)
| PyStreaming (session_direction : PySessionDirection) (topic : option PyAgentType) (max_retries timeout : N).

(** The constructors, with the defaults of their signatures. *)
Definition PyFireAndForget_init (timeout max_retries : option N) (sticky : option bool) : PySessionConfiguration :=
  PyFireAndForget timeout max_retries (default false sticky).
Definition PyRequestResponse_init (timeout : option N) : PySessionConfiguration :=
  PyRequestResponse (default (from_millis 1000) timeout).
Definition PyStreaming_init (session_direction : PySessionDirection) (topic : option PyAgentType)
    (max_retries timeout : option N) : PySessionConfiguration :=
  PyStreaming session_direction topic (default 0%N max_retries) (default (from_millis 1000) timeout).

Definition PySessionConfiguration_from (c : SessionConfig) : PySessionConfiguration :=
  match c with
  | SessionConfig_FireAndForget config => PyFireAndForget (ff_timeout config) (ff_max_retries config) (ff_sticky config)
  | SessionConfig_RequestResponse config => PyRequestResponse (rr_timeout config)
  | SessionConfig_Streaming config =>
      PyStreaming (PySessionDirection_from (sc_direction config)) None (sc_max_retries config) (sc_timeout config)
  end.
Definition SessionConfig_from_py `{Hasher} (v : PySessionConfiguration) : SessionConfig :=
  match v with
  | PyFireAndForget timeout max_retries sticky =>
      SessionConfig_FireAndForget (mkFireAndForgetConfiguration timeout max_retries sticky)
  | PyRequestResponse timeout => SessionConfig_RequestResponse (mkRequestResponseConfiguration timeout)
  | PyStreaming session_direction topic max_retries timeout =>
      SessionConfig_Streaming (StreamingConfiguration_new (SessionDirection_from_py session_direction)
        (AgentType_from_py <$> topic) (Some max_retries) (Some timeout))
  end.

(** ** Tracing

    [init_tracing_impl]: the cell keeps the first guard; later calls do nothing. *)
Definition init_tracing_impl `{Otlp} (guard : option OtelGuard) (config : TracingConfiguration)
    : panics (option OtelGuard * Result unit TracingError) :=
  match guard with
  | Some g => Done (Some g, Ok tt)
  | None =>
      match (setup_tracing_subscriber config).2 with
      | Ok g => Done (Some g, Ok tt)
      | Err _ => Panic "called `Result::unwrap()` on an `Err` value"
      end
  end.

(** ** The service *)
Class FromPy (D A : Type) : Type := { from_pyobject : D -> Result A string }.

Section service.
Context `{Hasher, HashIter, Transport, Telemetry, ErrorText, Rng, DebugAssertions, UnicodeTables, StatusText}.
Context {G : GrpcConfig}.

(** [ps_rx]: the number of the agent's app, which stands for the receiver;
    [ps_read]: how many items were received. *)
Record PyService : Type := mkPyService {
  ps_service : Service;
  ps_agent : Agent;
  ps_rx : N;
  ps_read : nat;
}.
Definition PyService_id (p : PyService) : N := ag_agent_id (ps_agent p).

Definition py (A : Type) : Type := PyService -> panics (PyService * A).
Definition on_service {A} (c : svc A) : py A := fun p =>
  '(s, r) ← c (ps_service p);
  Done (mkPyService s (ps_agent p) (ps_rx p) (ps_read p), r).
(** A method called on the service with the agent. *)
Definition as_agent {A} (c : Agent -> svc A) : py A := fun p => on_service (c (ps_agent p)) p.

(** [PyService::create_pyservice]; [random]: the id drawn when none is given. *)
Definition create_pyservice (organization namespace agent_type : string) (identity : option string)
    (id : option N) (random : N) : panics (Result PyService ServiceError.ServiceError) :=
  let id := match identity with
            | Some i => agent_id_from_identity i
            | None => match id with Some v => v | None => random end
            end in
  let agent := Agent_from_strings organization namespace agent_type id in
  match ID_new_with_str "service/0" with
  | Err _ => Panic "called `Result::unwrap()` on an `Err` value"
  | Ok svc_id =>
      '(svc, res) ← create_agent agent (Service_new svc_id);
      Done (match res with
            | Ok rx => Ok (mkPyService svc agent rx 0)
            | Err e => Err e
            end)
  end.

Section calls.
Variable fuel : nat.

Definition PyService_create_session (session_config : SessionConfig)
    : py (Result PySessionInfo ServiceError.ServiceError) :=
  as_agent (fun agent =>
    res ← Service_create_session fuel agent session_config;
    mret (match res with Ok info => Ok (mkPySessionInfo info) | Err e => Err e end)).
Definition PyService_delete_session (session_id : N) : py (Result unit ServiceError.ServiceError) :=
  as_agent (fun agent => delete_session agent session_id).
Definition PyService_run_server (config : ServerConfig) (bound : bool) : py (Result unit ServiceError.ServiceError) :=
  on_service (run_server config bound).
Definition PyService_stop_server (endpoint : string) : py (Result unit ServiceError.ServiceError) :=
  on_service (stop_server endpoint).
Definition PyService_connect (config : MessageProcessing.ClientConfig) (attempts : list bool)
    : py (Result N ServiceError.ServiceError) :=
  on_service (Service_connect config attempts).
Definition PyService_disconnect (conn : N) : py (Result unit ServiceError.ServiceError) :=
  on_service (Service_disconnect conn).
Definition PyService_subscribe (conn : N) (name : PyAgentType) (id : option N)
    : py (Result unit ServiceError.ServiceError) :=
  let class := AgentType_from_strings (py_organization name) (py_namespace name) (py_agent_type name) in
  as_agent (fun agent => subscribe fuel agent class id (Some conn)).
Definition PyService_unsubscribe (conn : N) (name : PyAgentType) (id : option N)
    : py (Result unit ServiceError.ServiceError) :=
  let class := AgentType_from_strings (py_organization name) (py_namespace name) (py_agent_type name) in
  as_agent (fun agent => unsubscribe fuel agent class id (Some conn)).
Definition PyService_set_route (conn : N) (name : PyAgentType) (id : option N)
    : py (Result unit ServiceError.ServiceError) :=
  let class := AgentType_from_strings (py_organization name) (py_namespace name) (py_agent_type name) in
  as_agent (fun agent => set_route fuel agent class id conn).
Definition PyService_remove_route (conn : N) (name : PyAgentType) (id : option N)
    : py (Result unit ServiceError.ServiceError) :=
  let class := AgentType_from_strings (py_organization name) (py_namespace name) (py_agent_type name) in
  as_agent (fun agent => remove_route fuel agent class id conn).

(** The destination: the name given, or the source of the message the session
    information came with, over the connection it came from. *)
Definition destination (session_info : Info) (name : option PyAgentType) (id : option N)
    : Result (AgentType * option N * option N) ServiceError.ServiceError :=
  match name with
  | Some name => Ok (AgentType_from_py name, id, None)
  | None =>
      match in_message_source session_info with
      | Some agent => Ok (ag_agent_type agent, Some (ag_agent_id agent), in_input_connection session_info)
      | None => Err (ServiceError.ConfigError "no agent specified")
      end
  end.
Definition PyService_publish (session_info : Info) (fanout : N) (blob : list Byte.byte)
    (name : option PyAgentType) (id : option N) : py (Result unit ServiceError.ServiceError) := fun p =>
  match destination session_info name id with
  | Err e => Done (p, Err e)
  | Ok (agent_type, agent_id, conn_out) =>
      let flags := SlimHeaderFlags_new fanout None conn_out None None in
      as_agent (fun agent => publish_with_flags fuel agent session_info agent_type agent_id flags blob) p
  end.

(** [ProtoPublish::get_payload]. *)
Definition publish_payload (publish : ProtoPublish) : panics Content :=
  expect (pu_msg publish) "called `Option::unwrap()` on a `None` value".

Inductive Poll (A : Type) : Type := Pending | Ready (a : A).
Arguments Pending {A}.
Arguments Ready {A} _.

(** [receive]; [closed]: whether the sender of the channel is gone. *)
Definition PyService_receive (closed : bool)
    : py (Poll (Result (PySessionInfo * list Byte.byte) ServiceError.ServiceError)) := fun p =>
  match (app ← sv_apps (ps_service p) !! ps_rx p; ob_sent (io_app (ap_io app)) !! ps_read p) with
  | None =>
      if closed then Done (p, Ready (Err (ServiceError.ReceiveError "no message received")))
      else Done (p, Pending)
  | Some item =>
      let p := mkPyService (ps_service p) (ps_agent p) (ps_rx p) (S (ps_read p)) in
      match item with
      | Err e => Done (p, Ready (Err (ServiceError.ReceiveError (SessionError_fmt e))))
      | Ok msg =>
          match pm_message_type (sm_message msg) with
          | Some (Publish publish) =>
              content ← publish_payload publish;
              Done (p, Ready (Ok (mkPySessionInfo (sm_info msg), co_blob content)))
          | Some _ => Done (p, Ready (Err (ServiceError.ReceiveError "receive publish message type")))
          | None => Done (p, Ready (Err (ServiceError.ReceiveError "no message received")))
          end
      end
  end.

Definition PyService_set_session_config (session_id : N) (config : SessionConfig)
    : py (Result unit ServiceError.ServiceError) :=
  as_agent (fun agent => Service_set_session_config agent config (Some session_id)).
Definition PyService_get_session_config (session_id : N)
    : py (Result PySessionConfiguration ServiceError.ServiceError) :=
  as_agent (fun agent =>
    res ← Service_get_session_config agent session_id;
    mret (match res with Ok val => Ok (PySessionConfiguration_from val) | Err e => Err e end)).
Definition PyService_set_default_session_config (config : SessionConfig)
    : py (Result unit ServiceError.ServiceError) :=
  as_agent (fun agent => Service_set_session_config agent config None).
Definition PyService_get_default_session_config (session_type : SessionType)
    : py (Result PySessionConfiguration ServiceError.ServiceError) :=
  as_agent (fun agent =>
    res ← Service_get_default_session_config agent session_type;
    mret (match res with Ok val => Ok (PySessionConfiguration_from val) | Err e => Err e end)).

(** ** The exported functions

    [PyErr::new::<PyException, _>(e.to_string())]: an exception is its text. *)
Definition py_err {A} (c : py (Result A ServiceError.ServiceError)) : py (Result A string) := fun p =>
  '(p, res) ← c p; Done (p, map_err ServiceError.fmt res).
(** A dictionary that cannot be converted raises before the future is made. *)
Definition with_dict {D C A} `{FromPy D C} (d : D) (f : C -> py (Result A string)) : py (Result A string) := fun p =>
  match from_pyobject d with
  | Err e => Done (p, Err e)
  | Ok config => f config p
  end.

Definition py_create_session (config : PySessionConfiguration) : py (Result PySessionInfo string) :=
  py_err (PyService_create_session (SessionConfig_from_py config)).
Definition py_delete_session (session_id : N) : py (Result unit string) :=
  py_err (PyService_delete_session session_id).
Definition py_set_session_config (session_id : N) (config : PySessionConfiguration) : py (Result unit string) :=
  py_err (PyService_set_session_config session_id (SessionConfig_from_py config)).
Definition py_get_session_config (session_id : N) : py (Result PySessionConfiguration string) :=
  py_err (PyService_get_session_config session_id).
Definition py_set_default_session_config (config : PySessionConfiguration) : py (Result unit string) :=
  py_err (PyService_set_default_session_config (SessionConfig_from_py config)).
Definition py_get_default_session_config (session_type : PySessionType) : py (Result PySessionConfiguration string) :=
  py_err (PyService_get_default_session_config (SessionType_from_py session_type)).
Definition py_run_server {D} `{FromPy D ServerConfig} (config : D) (bound : bool) : py (Result unit string) :=
  with_dict config (fun config => py_err (PyService_run_server config bound)).
Definition py_stop_server (endpoint : string) : py (Result unit string) := py_err (PyService_stop_server endpoint).
Definition py_connect {D} `{FromPy D MessageProcessing.ClientConfig} (config : D) (attempts : list bool)
    : py (Result N string) :=
  with_dict config (fun config => py_err (PyService_connect config attempts)).
Definition py_disconnect (conn : N) : py (Result unit string) := py_err (PyService_disconnect conn).
Definition py_subscribe (conn : N) (name : PyAgentType) (id : option N) : py (Result unit string) :=
  py_err (PyService_subscribe conn name id).
Definition py_unsubscribe (conn : N) (name : PyAgentType) (id : option N) : py (Result unit string) :=
  py_err (PyService_unsubscribe conn name id).
Definition py_set_route (conn : N) (name : PyAgentType) (id : option N) : py (Result unit string) :=
  py_err (PyService_set_route conn name id).
Definition py_remove_route (conn : N) (name : PyAgentType) (id : option N) : py (Result unit string) :=
  py_err (PyService_remove_route conn name id).
Definition py_publish (info : PySessionInfo) (fanout : N) (blob : list Byte.byte) (name : option PyAgentType)
    (id : option N) : py (Result unit string) :=
  py_err (PyService_publish (session_info info) fanout blob name id).
Definition py_receive (closed : bool) : py (Poll (Result (PySessionInfo * list Byte.byte) string)) := fun p =>
  '(p, res) ← PyService_receive closed p;
  Done (p, match res with Pending => Pending | Ready res => Ready (map_err ServiceError.fmt res) end).
End calls.

(** The exported [create_pyservice] passes no identity. *)
Definition py_create_pyservice (organization namespace agent_type : string) (id : option N) (random : N)
    : panics (Result PyService string) :=
  res ← create_pyservice organization namespace agent_type None id random;
  Done (map_err ServiceError.fmt res).
End service.
Arguments Pending {A}.
Arguments Ready {A} _.
End Bindings.
Close Scope string_scope.
