(* ===== verification/BindingsClaims.v ===== *)
(** * The Python bindings: theorems

    The calls a program can make are safe in every state it can reach; a reply
    goes where the request came from; what a configuration loses on its way
    through Python; what panics. *)
From stdpp Require Import base list gmap strings numbers option sets.
From S2P Require Import Tls Grpc.
From S2P Require Import Prelude Proto Encoder Messages MessageProcessing MessageProcessingProofs DataPlane.
From S2P Require Import ReceiverBuffer Timer Session RequestResponse FireAndForget Streaming SessionLayer SessionLayerProofs.
From S2P Require Import ComponentId Service ServiceProofs ServiceClaims Slim Bindings.
Import Tracing Bindings.
Open Scope string_scope.

Section safety.
Context `{Hasher, BuildProfile, HashIter, Transport, Telemetry, ErrorText, Rng, DebugAssertions, Logging,
  UnicodeTables, StatusText}.
Context {G : GrpcConfig}.

(** A program's calls and whatever the service does besides: no step forgets an
    agent, as no function of the bindings deletes one. *)
Inductive py_step : PyService -> PyService -> Prop :=
| PyStepService p s' :
    svc_step (ps_service p) s' -> sv_session_layers s' = sv_session_layers (ps_service p) ->
    py_step p (mkPyService s' (ps_agent p) (ps_rx p) (ps_read p))
| PyStepReceive closed p p' r : PyService_receive closed p = Done (p', r) -> py_step p p'.

(** Operations that leave the registered agents as they are. *)
Definition layers_kept {A} (c : svc A) : Prop :=
  forall s s' r, c s = Done (s', r) -> sv_session_layers s' = sv_session_layers s.

Lemma layers_kept_ret {A} (x : A) : layers_kept (mret x).
Proof. by intros s s' r [= <- <-]. Qed.
Lemma layers_kept_bind {A B} (c : svc A) (f : A -> svc B) :
  layers_kept c -> (forall x, layers_kept (f x)) -> layers_kept (c ≫= f).
Proof.
  intros Hc Hf s s' r. unfold mbind, svc_bind. destruct (c s) as [[s1 x]|] eqn:Hr; [|done]. intros Hr'.
  rewrite (Hf x _ _ _ Hr'). exact (Hc _ _ _ Hr).
Qed.
Lemma layers_kept_service {A} (f : Service -> svc A) : (forall s, layers_kept (f s)) -> layers_kept (service ≫= f).
Proof. intros Hf. apply layers_kept_bind; [by intros s s' r [= <- <-]|done]. Qed.
Lemma layers_kept_may_panic {A} (c : panics A) : layers_kept (may_panic c).
Proof. intros s s' r. unfold may_panic. destruct c; cbn; [by intros [= <- <-]|done]. Qed.
Lemma layers_kept_on_layer {A} i (c : sess SessionLayer A) : layers_kept (on_layer i c).
Proof.
  intros s s' r. unfold on_layer. destruct (sv_apps s !! i) as [a|]; [|done].
  destruct (c (ap_io a) (ap_layer a)) as [[[io l] x]|]; cbn; [|done]. by intros [= <- <-].
Qed.
Lemma layers_kept_on_processor {A} (c : proc A) : layers_kept (on_processor c).
Proof.
  intros s s' r. unfold on_processor. destruct (c _) as [[mp x]|]; cbn; [|done]. by intros [= <- <-].
Qed.
Lemma layers_kept_update f :
  (forall s, sv_session_layers (f s) = sv_session_layers s) -> layers_kept (update f).
Proof. intros Hf s s' r [= <- <-]. apply Hf. Qed.
Lemma layers_kept_with_layer {A} agent (f : N -> svc (Result A ServiceError.ServiceError)) :
  (forall i, layers_kept (f i)) -> layers_kept (with_session_layer agent f).
Proof.
  intros Hf. apply layers_kept_service. intros s. destruct (hm_get _ _ _); [apply Hf|apply layers_kept_ret].
Qed.
Lemma layers_kept_send fuel agent msg info : layers_kept (send_message fuel agent msg info).
Proof.
  apply layers_kept_with_layer. intros i. destruct info; (apply layers_kept_bind;
    [apply layers_kept_on_layer|intros; apply layers_kept_ret]).
Qed.
Lemma layers_kept_run_server c b : layers_kept (run_server c b).
Proof.
  unfold run_server. destruct (to_server_future c b); [|apply layers_kept_ret]. apply layers_kept_service. intros s.
  apply layers_kept_bind; [by apply layers_kept_update|intros; apply layers_kept_ret].
Qed.
Lemma layers_kept_stop_server e : layers_kept (stop_server e).
Proof.
  apply layers_kept_service. intros s. destruct (_ !! e); [|apply layers_kept_ret].
  apply layers_kept_bind; [by apply layers_kept_update|intros; apply layers_kept_ret].
Qed.
Lemma layers_kept_connect c att : layers_kept (Service_connect c att).
Proof.
  apply layers_kept_service. intros s. case_decide; [apply layers_kept_ret|].
  destruct (to_channel c); [|apply layers_kept_ret].
  apply layers_kept_bind; [apply layers_kept_on_processor|]. intros [[x k]|e]; [|apply layers_kept_ret].
  apply layers_kept_bind; [by apply layers_kept_update|intros; apply layers_kept_ret].
Qed.
Lemma layers_kept_disconnect k : layers_kept (Service_disconnect k).
Proof. apply layers_kept_bind; [apply layers_kept_on_processor|intros; apply layers_kept_ret]. Qed.

(** What holds of a service made for Python. *)
Record py_ok (p : PyService) : Prop := {
  po_svc : svc_ok (ps_service p);
  po_agent : hm_get agent_key (ps_agent p) (sv_session_layers (ps_service p)) = Some (ps_rx p);
}.
Lemma py_step_ok p p' : py_step p p' -> py_ok p -> py_ok p' /\ ps_agent p' = ps_agent p.
Proof.
  intros Hst [Hs Ha]. destruct Hst as [p s' Hst Hl|closed p p' r Hr].
  - split; [|done]. split; cbn; [by apply (svc_step_ok _ _ Hst)|by rewrite Hl].
  - unfold PyService_receive in Hr. destruct (_ ≫= _) as [[m|e]|] in Hr.
    + destruct (pm_message_type _) as [[]|] in Hr; try by injection Hr as <- _.
      destruct (publish_payload _) in Hr; [|done]. by injection Hr as <- _.
    + by injection Hr as <- _.
    + by destruct closed; injection Hr as <- _.
Qed.
Lemma py_reached_ok p p' : rtc py_step p p' -> py_ok p -> py_ok p' /\ ps_agent p' = ps_agent p.
Proof.
  induction 1 as [p|p p1 p' Hst _ IH]; [done|]. intros Hp. destruct (py_step_ok _ _ Hst Hp) as [Hp1 Ha].
  destruct (IH Hp1) as [Hp' Ha']. split; [done|congruence].
Qed.

(** The call returns, to a state the program can be in. *)
Definition returns {A} (p : PyService) (c : py A) : Prop := exists p' r, c p = Done (p', r) /\ rtc py_step p p'.

Lemma returns_mapped {A B} p P (c : svc A) (k : A -> Result B ServiceError.ServiceError) :
  py_ok p -> safe P c -> P (ps_service p) -> layers_kept c ->
  (forall s' r, c (ps_service p) = Done (s', r) -> svc_step (ps_service p) s') ->
  returns p (py_err (on_service (r ← c; mret (k r)))).
Proof.
  intros Hp Hs HP Hl Hst. destruct (Hs _ (po_svc p Hp) HP) as (s'&r&Hr&_). unfold returns, py_err, on_service.
  rewrite (svc_bind_Done _ _ _ _ _ Hr). cbn. eexists _, _. split; [done|].
  apply rtc_once, PyStepService; [by eapply Hst|by eapply Hl].
Qed.
Lemma returns_service {A} p (c : svc (Result A ServiceError.ServiceError)) :
  py_ok p -> safe (fun _ => True) c -> layers_kept c ->
  (forall s' r, c (ps_service p) = Done (s', r) -> svc_step (ps_service p) s') ->
  returns p (py_err (on_service c)).
Proof.
  intros Hp Hs Hl Hst. destruct (returns_mapped p _ c (fun r => r) Hp Hs I Hl Hst) as (p'&r&Hr&Hst').
  exists p', r. split; [|done]. rewrite <- Hr. unfold py_err, on_service.
  destruct (Hs _ (po_svc p Hp) I) as (s'&x&Hc&_). by rewrite (svc_bind_Done _ _ _ _ _ Hc), Hc.
Qed.
Lemma layers_kept_session_op {A B} agent (c : sess SessionLayer A) (k : A -> svc (Result B ServiceError.ServiceError)) :
  (forall r, layers_kept (k r)) -> layers_kept (with_session_layer agent (fun i => r ← on_layer i c; k r)).
Proof.
  intros Hk. apply layers_kept_with_layer. intros i. apply layers_kept_bind; [apply layers_kept_on_layer|exact Hk].
Qed.
Lemma returns_send p fuel agent msg info : py_ok p -> returns p (py_err (on_service (send_message fuel agent msg info))).
Proof.
  intros Hp. apply returns_service; [done|apply safe_send_message|apply layers_kept_send|].
  intros s' r Hr. by eapply SvcSend.
Qed.
(** A subscription to a name of strings can be built. *)
Lemma returns_subscribe p fuel agent name id flags :
  py_ok p ->
  returns p (py_err (on_service (msg ← may_panic (new_subscribe agent (AgentType_from_py name) id (Some flags));
                                 send_message fuel agent msg None))).
Proof.
  intros Hp. destruct (new_subscribe_roundtrip agent (py_organization name) (py_namespace name) (py_agent_type name) id flags)
    as (m&_&Hm&_). destruct (returns_send p fuel agent m None Hp) as (p'&r&Hr&Hst).
  exists p', r. split; [|done]. rewrite <- Hr. unfold py_err, on_service, may_panic, mbind at 3, svc_bind.
  unfold AgentType_from_py. by rewrite Hm.
Qed.
Lemma returns_as_agent {A} p (c : Agent -> svc (Result A ServiceError.ServiceError)) :
  returns p (py_err (on_service (c (ps_agent p)))) -> returns p (py_err (as_agent c)).
Proof. intros Hc. exact Hc. Qed.
(** Reading from the layer changes nothing. *)
Lemma layer_read {A B} p (c : sess SessionLayer A) (k : A -> Result B ServiceError.ServiceError) :
  (forall io l, exists r, c io l = Done (io, l, r)) -> py_ok p ->
  exists r, with_session_layer (ps_agent p) (fun i => r ← on_layer i c; mret (k r)) (ps_service p) =
    Done (ps_service p, r).
Proof.
  intros Hc [Hs Ha]. unfold hm_get in Ha. destruct (sv_session_layers (ps_service p) !! agent_key (ps_agent p)) as [[ag i]|] eqn:Hl; [|done].
  injection Ha as Hi. destruct (so_registered _ Hs _ _ _ Hl) as (_&a&Happ&_).
  destruct (Hc (ap_io a) (ap_layer a)) as [r Hr]. exists (k r).
  assert (Hrun : on_layer i c (ps_service p) = Done (ps_service p, r)).
  { unfold on_layer. rewrite Happ, Hr. cbn. replace (with_apps _ _) with (ps_service p); [done|].
    replace (set_layer (ap_io a) (ap_layer a) a) with a by (by destruct a). rewrite insert_id by done.
    by destruct (ps_service p). }
  unfold with_session_layer. rewrite (svc_bind_Done _ _ _ _ _ (eq_refl : service (ps_service p) = Done (_, _))).
  unfold hm_get. rewrite Hl. cbn [snd fmap option_fmap option_map]. unfold mbind, svc_bind. cbn. by rewrite Hrun.
Qed.
Lemma returns_read {A B} p (c : Agent -> svc A) (k : A -> Result B ServiceError.ServiceError) :
  (exists r, c (ps_agent p) (ps_service p) = Done (ps_service p, r)) ->
  returns p (py_err (as_agent (fun agent => r ← c agent; mret (k r)))).
Proof.
  intros [r Hr]. exists p, (map_err ServiceError.fmt (k r)). split; [|apply rtc_refl].
  unfold py_err, as_agent, on_service. rewrite (svc_bind_Done _ _ _ _ _ Hr). cbn. by destruct p.
Qed.
End safety.

Section claims.
Context `{Hasher, BuildProfile, HashIter, Transport, Telemetry, ErrorText, Rng, DebugAssertions, Logging,
  UnicodeTables, StatusText}.
Context {G : GrpcConfig}.

Lemma service_id_ok : exists id, ID_new_with_str "service/0" = Ok id.
Proof. eexists. vm_compute. reflexivity. Qed.

Lemma create_agent_new id agent :
  exists s, create_agent agent (Service_new id) = Done (s, Ok 0%N) /\
    hm_get agent_key agent (sv_session_layers s) = Some 0%N.
Proof.
  destruct (create_agent_spec (Service_new id) agent (svc_ok_new id)) as (s&_&_&_&_&_&Hr&_&_&_&Hl&_).
  { unfold hm_get. cbn [Service_new sv_session_layers]. by rewrite lookup_empty. }
  exists s. split; [exact Hr|]. unfold hm_get. rewrite Hl, lookup_insert_eq. done.
Qed.

(** The next item is not a publication without content. *)
Definition readable (p : PyService) : Prop :=
  forall app m publish, sv_apps (ps_service p) !! ps_rx p = Some app ->
    ob_sent (io_app (ap_io app)) !! ps_read p = Some (Ok m) ->
    pm_message_type (sm_message m) = Some (Publish publish) -> is_Some (pu_msg publish).

Lemma returns_receive closed p : readable p -> returns p (py_receive closed).
Proof.
  intros Hread. unfold returns, py_receive.
  destruct (PyService_receive closed p) as [[p' r]|] eqn:Hr.
  - eexists _, _. split; [done|]. by eapply rtc_once, PyStepReceive.
  - exfalso. unfold PyService_receive in Hr.
    destruct (sv_apps (ps_service p) !! ps_rx p) as [app|] eqn:Ha; cbn in Hr; [|by destruct closed].
    destruct (ob_sent (io_app (ap_io app)) !! ps_read p) as [[m|e]|] eqn:Hm; [|done|by destruct closed].
    destruct (pm_message_type (sm_message m)) as [[| |publish]|] eqn:Ht; try done.
    destruct (Hread app m publish Ha Hm Ht) as [c Hc]. unfold publish_payload in Hr. by rewrite Hc in Hr.
Qed.
End claims.

(** C14: A service made from Python (without an identity) can be used safely.
    Making it succeeds and registers its agent; in every state reached from there,
    by calls and by the steps of the service ([svc_step]), the agent is registered,
    the service satisfies its invariant, and the calls return without panicking,
    to such a state again: starting and stopping servers, connecting,
    disconnecting, subscribing, unsubscribing, setting and removing routes,
    publishing, reading and setting the configuration of a session and the
    defaults, and deleting a session. Two calls do under a condition: creating a
    session when one of the draws allowed is free and, for a bidirectional stream,
    the id of its topic ([creatable]); receiving when the next item, if it is a
    publication, has content ([empty_publication_panics] is the other case). *)
Theorem bindings_safe `{Hasher, BuildProfile, HashIter, Transport, Telemetry, ErrorText, Rng, DebugAssertions, Logging,
    UnicodeTables, StatusText} {G : GrpcConfig} fuel o n t id random :
  exists p0, py_create_pyservice o n t id random = Done (Ok p0) /\
  ps_agent p0 = Agent_from_strings o n t (default random id) /\
  forall p, rtc py_step p0 p ->
    py_ok p /\ ps_agent p = ps_agent p0 /\
    (forall D (F : FromPy D ServerConfig) (d : D) bound, returns p (py_run_server d bound)) /\
    (forall endpoint, returns p (py_stop_server endpoint)) /\
    (forall D (F : FromPy D MessageProcessing.ClientConfig) (d : D) attempts, returns p (py_connect d attempts)) /\
    (forall conn, returns p (py_disconnect conn)) /\
    (forall conn name sid, returns p (py_subscribe fuel conn name sid)) /\
    (forall conn name sid, returns p (py_unsubscribe fuel conn name sid)) /\
    (forall conn name sid, returns p (py_set_route fuel conn name sid)) /\
    (forall conn name sid, returns p (py_remove_route fuel conn name sid)) /\
    (forall info fanout blob name sid, returns p (py_publish fuel info fanout blob name sid)) /\
    (forall sid, returns p (py_get_session_config sid)) /\
    (forall ty, returns p (py_get_default_session_config ty)) /\
    (forall sid conf, returns p (py_set_session_config sid conf)) /\
    (forall conf, returns p (py_set_default_session_config conf)) /\
    (forall sid, returns p (py_delete_session sid)) /\
    (forall conf, creatable (ps_service p) (ps_agent p) fuel (SessionConfig_from_py conf) ->
       returns p (py_create_session fuel conf)) /\
    (forall closed, readable p -> returns p (py_receive closed)).
Proof.
  destruct service_id_ok as [sid Hid]. set (agent := Agent_from_strings o n t (default random id)).
  destruct (create_agent_new sid agent) as (s&Hrun&Hreg).
  exists (mkPyService s agent 0 0). split; [|split; [done|]].
  { unfold py_create_pyservice, create_pyservice. rewrite Hid.
    replace (match id with Some v => v | None => random end) with (default random id) by done.
    fold agent. by rewrite Hrun. }
  intros p Hp. apply py_reached_ok in Hp as [Hok Hag].
  2:{ split; [|done]. by apply (safe_keeps _ (safe_create_agent agent) _ _ _ (svc_ok_new sid) Hrun). }
  clear Hrun Hreg Hid. split; [done|]. split; [done|].
  split. { intros D F d bound. unfold py_run_server, with_dict, returns. destruct (from_pyobject d) as [c|e].
    - apply returns_service; [done|apply safe_run_server|apply layers_kept_run_server|]. intros. by eapply SvcRunServer.
    - by eexists _, _. }
  split. { intros e. apply returns_service; [done|apply safe_stop_server|apply layers_kept_stop_server|].
    intros. by eapply SvcStopServer. }
  split. { intros D F d att. unfold py_connect, with_dict, returns. destruct (from_pyobject d) as [c|e].
    - apply returns_service; [done|apply safe_service_connect|apply layers_kept_connect|]. intros. by eapply SvcConnect.
    - by eexists _, _. }
  split. { intros k. apply returns_service; [done|apply safe_service_disconnect|apply layers_kept_disconnect|].
    intros. by eapply SvcDisconnect. }
  split. { intros conn name k. apply returns_as_agent. exact (returns_subscribe p fuel _ name k (forward_flags (Some conn)) Hok). }
  split. { intros conn name k. apply returns_as_agent. exact (returns_subscribe p fuel _ name k (forward_flags (Some conn)) Hok). }
  split. { intros conn name k. apply returns_as_agent.
    exact (returns_subscribe p fuel _ name k (with_recv_from SlimHeaderFlags_default conn) Hok). }
  split. { intros conn name k. apply returns_as_agent. apply returns_send, Hok. }
  split. { intros info fanout blob name k. unfold py_publish, PyService_publish, returns, py_err.
    destruct (destination _ _ _) as [[[ty i] conn]|e]; [|by eexists _, _]. apply returns_as_agent, returns_send, Hok. }
  split. { intros k. apply returns_read, layer_read; [|done]. intros io l. unfold get_session_config. run_sess.
    destruct (sl_pool l !! k) as [[]|]; run_sess; by eexists. }
  split. { intros ty. apply returns_read, layer_read; [|done]. intros io l. unfold get_default_session_config. run_sess.
    by eexists. }
  assert (Hconf : forall conf sid, returns p (py_err (as_agent (fun agent => Service_set_session_config agent conf sid)))).
  { intros conf k. apply returns_as_agent, returns_service; [done|apply safe_set_session_config| |].
    - apply layers_kept_session_op. intros r. apply layers_kept_ret.
    - intros. by eapply SvcSetConfig. }
  split; [intros k conf; apply Hconf|]. split; [intros conf; apply Hconf|].
  split. { intros k. apply returns_as_agent, returns_service; [done|apply safe_delete_session| |].
    - apply layers_kept_session_op. intros []; apply layers_kept_ret.
    - intros. by eapply SvcDeleteSession. }
  split. { intros conf Hok'. apply returns_as_agent. eapply returns_mapped; [done|apply safe_create_session|exact Hok'| |].
    - apply layers_kept_session_op. intros r. apply layers_kept_ret.
    - intros. by eapply SvcCreateSession. }
  intros closed. apply returns_receive.
Qed.

(** A reply goes back. When the next item of the channel is a publication
    with content, [receive] returns its session information and its bytes and
    advances by one item; publishing with that information and without a name
    sends, in that session, a publication for the agent the message came from,
    forwarded to the connection it came from, with the fanout given. *)
Theorem python_reply `{Hasher, HashIter, Transport, Telemetry, ErrorText, Rng, DebugAssertions, UnicodeTables, StatusText}
    {G : GrpcConfig} fuel p app m info publish content closed fanout blob id :
  sv_apps (ps_service p) !! ps_rx p = Some app ->
  ob_sent (io_app (ap_io app)) !! ps_read p = Some (Ok (mkSessionMessage m info)) ->
  Info_from m = Done info ->
  pm_message_type m = Some (Publish publish) -> pu_msg publish = Some content ->
  exists p' src conn reply,
    py_receive closed p = Done (p', Ready (Ok (mkPySessionInfo info, co_blob content))) /\
    ps_service p' = ps_service p /\ ps_agent p' = ps_agent p /\ ps_read p' = S (ps_read p) /\
    get_source m = Done src /\ try_get_incoming_conn m = Done conn /\
    reply = new_publish (ps_agent p) (ag_agent_type src) (Some (ag_agent_id src))
              (Some (SlimHeaderFlags_new fanout None conn None None)) "msg" blob /\
    py_publish fuel (mkPySessionInfo info) fanout blob None id p' =
      py_err (on_service (send_message fuel (ps_agent p) reply (Some info))) p' /\
    get_forward_to reply = Done conn /\ get_fanout reply = Done fanout /\
    get_payload reply = Done (Some (mkContent "msg" blob)).
Proof.
  intros Happ Hitem Hinfo Htype Hmsg.
  assert (Hsrc : exists src conn, get_source m = Done src /\ try_get_incoming_conn m = Done conn /\
    in_message_source info = Some src /\ in_input_connection info = conn).
  { unfold Info_from in Hinfo. unfold try_get_incoming_conn.
    destruct (get_session_header m) as [sh|]; cbn in Hinfo; [|done].
    destruct (get_slim_header m) as [h|] eqn:Hh; cbn in Hinfo; [|done].
    destruct (get_source m) as [src|]; cbn in Hinfo; [|done]. injection Hinfo as <-. by eexists _, _. }
  destruct Hsrc as (src&conn&Hs&Hc&His&Hic).
  exists (mkPyService (ps_service p) (ps_agent p) (ps_rx p) (S (ps_read p))), src, conn. eexists.
  split. { unfold py_receive, PyService_receive. rewrite Happ. cbn. rewrite Hitem. cbn. rewrite Htype. unfold publish_payload.
    by rewrite Hmsg. }
  do 6 (split; [done|]). split; [|split; [|split]; done].
  unfold py_publish, PyService_publish, destination. cbn [session_info]. unfold py_err. rewrite His, Hic. done.
Qed.

(** A publication without content, which [validate] accepts, makes
    [receive] panic. *)
Theorem empty_publication_panics `{Hasher, HashIter, Transport, Telemetry, ErrorText, Rng, DebugAssertions, UnicodeTables,
    StatusText} {G : GrpcConfig} (p : PyService) app m publish closed :
  sv_apps (ps_service p) !! ps_rx p = Some app ->
  ob_sent (io_app (ap_io app)) !! ps_read p = Some (Ok m) ->
  pm_message_type (sm_message m) = Some (Publish publish) -> pu_msg publish = None ->
  panicked (py_receive closed p).
Proof.
  intros Happ Hitem Htype Hmsg. unfold py_receive, PyService_receive. rewrite Happ. cbn. rewrite Hitem, Htype.
  unfold publish_payload. rewrite Hmsg. cbn. by eexists.
Qed.

(** A session configuration survives its way through Python except for the
    topic of a stream: read back and set again, the topic is the default one. *)
Theorem config_through_python `{Hasher} :
  (forall c, SessionConfig_from_py (PySessionConfiguration_from c) =
     match c with
     | SessionConfig_Streaming s => SessionConfig_Streaming
         (mkStreamingConfiguration (sc_direction s) AgentType_default (sc_max_retries s) (sc_timeout s))
     | c => c
     end) /\
  (forall v, PySessionConfiguration_from (SessionConfig_from_py v) =
     match v with PyStreaming d _ retries timeout => PyStreaming d None retries timeout | v => v end).
Proof.
  split.
  - intros [[]|[]|[[] topic retries timeout]]; reflexivity.
  - intros [| |[] topic retries timeout]; reflexivity.
Qed.

(** The first call decides the tracing: once a subscriber was set up, later
    calls change nothing. A configuration whose exporter cannot be built panics,
    though the function returns a result. *)
Theorem tracing_first_call `{Otlp} guard config :
  (forall g, guard = Some g -> init_tracing_impl guard config = Done (Some g, Ok tt)) /\
  (guard = None -> ot_enabled (tr_opentelemetry config) = false ->
   exists g, init_tracing_impl guard config = Done (Some g, Ok tt)) /\
  (forall e, guard = None -> ot_enabled (tr_opentelemetry config) = true ->
   span_exporter (Grpc.endpoint (ot_grpc (tr_opentelemetry config))) = Err e ->
   panicked (init_tracing_impl guard config)).
Proof.
  split; [by intros g ->|]. split.
  - intros -> He. unfold init_tracing_impl, setup_tracing_subscriber. rewrite He. by eexists.
  - intros e -> He Hx. unfold init_tracing_impl, setup_tracing_subscriber. rewrite He, Hx. by eexists.
Qed.

(** ** A concrete program *)
Module BindingsDemo.
Import ServiceDemo.
#[local] Existing Instances toy_hasher checked_build hash_iter_sorted demo_transport demo_errors demo_rng demo_checks
  ascii_tables quiet_telemetry quiet_logging plain_status demo_grpc.
(** Bob's message to Alice, who has it in her channel. *)
Definition hello : ProtoMessage :=
  new_publish bob (ag_agent_type alice) (Some (ag_agent_id alice)) (Some (with_incoming_conn SlimHeaderFlags_default 3))
    "msg" [Byte.x68; Byte.x69].
Definition hello_publish : ProtoPublish :=
  ProtoPublish_new bob (ag_agent_type alice) (Some (ag_agent_id alice))
    (Some (with_incoming_conn SlimHeaderFlags_default 3)) "msg" [Byte.x68; Byte.x69].
Definition empty_publish : ProtoPublish :=
  mkProtoPublish (pu_header hello_publish) (pu_session hello_publish) None.
Definition delivered (m : ProtoMessage) (info : Info) : App :=
  mkApp (SessionLayer_new alice None 0)
    (mkSessionIo (mkOutbox true []) (mkOutbox true [Ok (mkSessionMessage m info)]) TimerSystem_empty 0) 0 0 Looping 0 0.
Definition with_item (m : ProtoMessage) (info : Info) : PyService :=
  mkPyService (with_apps (Service_new ServiceDemo.id) {[ 0%N := delivered m info ]}) alice 0 0.

Definition info_of (m : ProtoMessage) : Info :=
  match Info_from m with Done i => i | Panic _ => Info_new 0 end.

(** Alice's service, made from Python, and a session of hers. *)
Definition fnf : PySessionConfiguration := PySessionConfiguration_from ff_conf.
Lemma bindings_safe_witness :
  exists p0, py_create_pyservice "org" "ns" "alice" (Some 1%N) 7 = Done (Ok p0) /\ py_ok p0 /\
    returns p0 (py_create_session 5 fnf).
Proof.
  destruct (bindings_safe 5 "org" "ns" "alice" (Some 1%N) 7%N) as (p0&Hp0&_&Hall). exists p0. split; [exact Hp0|].
  destruct (Hall p0 (rtc_refl _ _)) as (Hok&_&_&_&_&_&_&_&_&_&_&_&_&_&_&_&Hcreate&_). split; [exact Hok|].
  apply Hcreate. vm_compute in Hp0. injection Hp0 as <-. intros i a Hi Ha.
  vm_compute in Hi. injection Hi as <-. vm_compute in Ha. injection Ha as <-.
  split; [|intros id Hid; discriminate Hid]. exists 0. split; [lia|]. vm_compute. reflexivity.
Defined.

Lemma python_reply_witness :
  exists p' reply,
    py_receive false (with_item hello (info_of hello)) =
      Done (p', Ready (Ok (mkPySessionInfo (info_of hello), [Byte.x68; Byte.x69]))) /\
    py_publish 5 (mkPySessionInfo (info_of hello)) 1 [Byte.x6f] None None p' =
      py_err (on_service (send_message 5 alice reply (Some (info_of hello)))) p' /\
    get_forward_to reply = Done (Some 3%N).
Proof.
  destruct (python_reply 5 (with_item hello (info_of hello)) (delivered hello (info_of hello)) hello (info_of hello)
    hello_publish (mkContent "msg" [Byte.x68; Byte.x69]) false 1%N [Byte.x6f] None)
    as (p'&src&conn&reply&Hr&_&_&_&_&Hc&_&Hp&Hf&_); [vm_compute; reflexivity..|].
  exists p', reply. split; [exact Hr|]. split; [exact Hp|]. rewrite Hf, <- Hc. vm_compute. reflexivity.
Defined.

Lemma empty_publication_panics_witness :
  panicked (py_receive false (with_item (ProtoMessage_new ∅ (Publish empty_publish)) (info_of hello))).
Proof.
  apply (empty_publication_panics (with_item (ProtoMessage_new ∅ (Publish empty_publish)) (info_of hello))
    (delivered (ProtoMessage_new ∅ (Publish empty_publish)) (info_of hello))
    (mkSessionMessage (ProtoMessage_new ∅ (Publish empty_publish)) (info_of hello)) empty_publish false);
    vm_compute; reflexivity.
Defined.
End BindingsDemo.
Close Scope string_scope.
