(* ===== verification/McpProxy.v ===== *)
(** * The MCP proxy

    [integrations/mcp/mcp-proxy/src/proxy.rs], [main.rs].

    The proxy is an agent of a service. For every session of a client it runs a
    task connected to the MCP server; the main loop hands messages of the client
    to the task, and what the tasks send back to the client. All channels have
    128 places: a [send] on a full channel waits, which the phases [Sending] and
    [Notifying] stand for. Parameters: the MCP messages ([Rmcp]: the rmcp crate)
    and the random ids of the pings. A task that panics ends alone. *)
From stdpp Require Import base list gmap strings numbers option sets.
From S2P Require Import Prelude Proto Encoder Messages ComponentId MessageProcessing.
From S2P Require Import Session SessionLayer Service Slim.
Import Runtime SlimConfig.
Open Scope string_scope.

Module McpProxy.
Abbreviation bytes := (list Byte.byte).

Definition PING_INTERVAL : N := 20.
Definition MAX_PENDING_PINGS : nat := 3.
Definition CHANNEL : nat := 128.

(** ** The messages of MCP

    [NumberOrString]; of a client's message: whether it is a response, its id
    and whether its result is [EmptyResult]. *)
Inductive RequestId : Type :=
| Number (index : N)
| IdString (s : string).
Class Rmcp : Type := {
  ClientMessage : Type;
  client_from_slice : bytes -> Result ClientMessage string;
  response_of : ClientMessage -> option (RequestId * bool);
  ServerMessage : Type;
  server_to_vec : ServerMessage -> Result bytes string;
  ping_request : N -> ServerMessage;
  request_method : bytes -> Result string string;
}.

Record SessionId : Type := mkSessionId { si_source : Agent; si_id : N }.
(** What the derived [Hash] and [Eq] look at. *)
Definition session_key (s : SessionId) : ((N * N * N) * N) * N := (agent_key (si_source s), si_id s).

Section proxy.
Context `{Rmcp}.

(** What a task sends to the proxy. *)
Definition Notice : Type := Result (Info * bytes) Info.

(** ** The task of a session

    [tk_sender]: whether the proxy holds the sender of its channel [tk_inbox].
    [tk_sink]: what was sent to the MCP server. [tk_taken] records the messages
    that were handled. *)
Inductive Phase : Type :=
| Connecting
| Selecting
| Notifying (n : Notice) (last : bool)
| Ended.
Record SessionTask : Type := mkSessionTask {
  tk_info : Info;
  tk_phase : Phase;
  tk_inbox : list ProtoMessage;
  tk_sender : bool;
  tk_pending : gset N;
  tk_timer : bool;
  tk_sink_open : bool;
  tk_sink : list ClientMessage;
  tk_taken : list ProtoMessage;
}.
(** [ProxySession::run_session] returns when the task is spawned. *)
Definition run_session (slim_session : Info) : SessionTask :=
  mkSessionTask slim_session Connecting [] true ∅ false false [] [].

Definition set_phase (p : Phase) (t : SessionTask) : SessionTask :=
  mkSessionTask (tk_info t) p (tk_inbox t) (tk_sender t) (tk_pending t) (tk_timer t) (tk_sink_open t) (tk_sink t) (tk_taken t).
Definition set_inbox (q : list ProtoMessage) (t : SessionTask) : SessionTask :=
  mkSessionTask (tk_info t) (tk_phase t) q (tk_sender t) (tk_pending t) (tk_timer t) (tk_sink_open t) (tk_sink t) (tk_taken t).
Definition drop_sender (t : SessionTask) : SessionTask :=
  mkSessionTask (tk_info t) (tk_phase t) (tk_inbox t) false (tk_pending t) (tk_timer t) (tk_sink_open t) (tk_sink t) (tk_taken t).
Definition set_pending (s : gset N) (t : SessionTask) : SessionTask :=
  mkSessionTask (tk_info t) (tk_phase t) (tk_inbox t) (tk_sender t) s (tk_timer t) (tk_sink_open t) (tk_sink t) (tk_taken t).
(** The task has returned: its channel and its connection are gone. *)
Definition end_task (t : SessionTask) : SessionTask :=
  mkSessionTask (tk_info t) Ended [] (tk_sender t) (tk_pending t) false false (tk_sink t) (tk_taken t).
(** The timer is stopped, the sink closed, and the proxy told. *)
Definition stop_session (t : SessionTask) : SessionTask :=
  mkSessionTask (tk_info t) (Notifying (Err (tk_info t)) true) (tk_inbox t) (tk_sender t) (tk_pending t) false false
    (tk_sink t) (tk_taken t).
(** A message was handled; [sent]: what went to the MCP server. *)
Definition take_message (rest : list ProtoMessage) (msg : ProtoMessage) (sent : list ClientMessage) (t : SessionTask)
    : SessionTask :=
  mkSessionTask (tk_info t) (tk_phase t) rest (tk_sender t) (tk_pending t) (tk_timer t) (tk_sink_open t)
    (tk_sink t ++ sent)%list (tk_taken t ++ [msg])%list.

(** What the [select!] returns. [sink_ok]: whether the MCP server takes the
    message; [draw]: the id of the ping. *)
Inductive SessionEvent : Type :=
| FromSlim (sink_ok : bool)
| FromMcp (next : option ServerMessage)
| FromTimer (next : option N).

(** A message of the client. *)
Definition unwrap_payload (msg : ProtoMessage) : panics bytes :=
  payload ← get_payload msg;
  content ← expect payload "called `Option::unwrap()` on a `None` value";
  Done (co_blob content).
Definition from_client (sink_ok : bool) (rest : list ProtoMessage) (msg : ProtoMessage) (t : SessionTask)
    : panics SessionTask :=
  payload ← unwrap_payload msg;
  match client_from_slice payload with
  | Err _ => Done (take_message rest msg [] t)
  | Ok jsonrpcmsg =>
      let forward :=
        if sink_ok then Done (take_message rest msg [jsonrpcmsg] t)
        else Panic "called `Result::unwrap()` on an `Err` value" in
      match response_of jsonrpcmsg with
      | Some (Number index, true) =>
          if decide (index ∈ tk_pending t) then Done (set_pending ∅ (take_message rest msg [] t))
          else forward
      | _ => forward
      end
  end.

Definition session_turn (ev : SessionEvent) (t : SessionTask) : panics SessionTask :=
  match ev with
  | FromSlim sink_ok =>
      match tk_inbox t with
      | [] => if tk_sender t then Done t else Done (stop_session t)
      | msg :: rest => from_client sink_ok rest msg t
      end
  | FromMcp None => Done (stop_session t)
  | FromMcp (Some msg) =>
      match server_to_vec msg with
      | Err _ => Panic "called `Result::unwrap()` on an `Err` value"
      | Ok vec => Done (set_phase (Notifying (Ok (tk_info t, vec)) false) t)
      end
  | FromTimer None => Done (stop_session t)
  | FromTimer (Some index) =>
      if decide (MAX_PENDING_PINGS <= size (tk_pending t)) then Done (stop_session t)
      else
        let t := set_pending ({[index]} ∪ tk_pending t) t in
        match server_to_vec (ping_request index) with
        | Err _ => Panic "called `Result::unwrap()` on an `Err` value"
        | Ok vec => Done (set_phase (Notifying (Ok (tk_info t, vec)) false) t)
        end
  end.

(** A step of the task, when it waits for something to happen: the connection
    to the MCP server, or an event. *)
Inductive TaskEvent : Type :=
| SseStarted (ok : bool)
| Selected (ev : SessionEvent).
Definition task_step (ev : TaskEvent) (t : SessionTask) : option SessionTask :=
  match tk_phase t, ev with
  | Connecting, SseStarted true =>
      Some (mkSessionTask (tk_info t) Selecting (tk_inbox t) (tk_sender t) ∅ true true (tk_sink t) (tk_taken t))
  | Connecting, SseStarted false => Some (end_task t)
  | Selecting, Selected ev =>
      match session_turn ev t with
      | Done t => Some t
      | Panic _ => Some (end_task t)
      end
  | _, _ => None
  end.

(** ** The proxy *)
Context `{Hasher, HashIter, Transport, Telemetry, ErrorText, Rng, DebugAssertions, UnicodeTables, StatusText}.
Context {G : GrpcConfig}.

(** The main loop waits for an event, or for room in the channel of a task; a
    new session is stored when its first message has been sent. *)
Inductive MainPhase : Type :=
| Waiting
| Sending (task : N) (msg : ProtoMessage) (store : option SessionId)
| Stopped.
Record Proxy : Type := mkProxy {
  px_name : Agent;
  px_service : Service;
  px_rx : N;
  px_read : nat;
  px_connections : gmap (((N * N * N) * N) * N) (SessionId * N);
  px_tasks : gmap N SessionTask;
  px_queue : list Notice;
  px_phase : MainPhase;
  px_next : N;
}.
Definition with_service (s : Service) (p : Proxy) : Proxy :=
  mkProxy (px_name p) s (px_rx p) (px_read p) (px_connections p) (px_tasks p) (px_queue p) (px_phase p) (px_next p).
Definition with_phase (m : MainPhase) (p : Proxy) : Proxy :=
  mkProxy (px_name p) (px_service p) (px_rx p) (px_read p) (px_connections p) (px_tasks p) (px_queue p) m (px_next p).
Definition with_tasks (ts : gmap N SessionTask) (p : Proxy) : Proxy :=
  mkProxy (px_name p) (px_service p) (px_rx p) (px_read p) (px_connections p) ts (px_queue p) (px_phase p) (px_next p).
Definition with_connections (c : gmap (((N * N * N) * N) * N) (SessionId * N)) (p : Proxy) : Proxy :=
  mkProxy (px_name p) (px_service p) (px_rx p) (px_read p) c (px_tasks p) (px_queue p) (px_phase p) (px_next p).
Definition with_queue (q : list Notice) (p : Proxy) : Proxy :=
  mkProxy (px_name p) (px_service p) (px_rx p) (px_read p) (px_connections p) (px_tasks p) q (px_phase p) (px_next p).
Definition read_item (p : Proxy) : Proxy :=
  mkProxy (px_name p) (px_service p) (px_rx p) (S (px_read p)) (px_connections p) (px_tasks p) (px_queue p)
    (px_phase p) (px_next p).

(** [Proxy::new]: the agent's name. *)
Definition proxy_name (name : AgentType) (identity : option string) (id : option N) (random : N) : Agent :=
  Agent_new name (match identity with
                  | None => match id with None => random | Some id => id end
                  | Some i => agent_id_from_identity i
                  end).

(** A new session: its task is spawned and its first message is to be sent. *)
Definition new_session (sid : SessionId) (msg : SessionMessage) (p : Proxy) : Proxy :=
  let i := px_next p in
  mkProxy (px_name p) (px_service p) (px_rx p) (px_read p) (px_connections p)
    (<[i := run_session (sm_info msg)]> (px_tasks p)) (px_queue p) (Sending i (sm_message msg) (Some sid)) (i + 1).

(** A message of the service. *)
Definition from_slim (result : Result SessionMessage SessionError) (p : Proxy) : panics Proxy :=
  match result with
  | Err _ => Done p
  | Ok msg =>
      publish ← is_publish (sm_message msg);
      if (publish : bool) then
        source ← get_source (sm_message msg);
        let sid := mkSessionId source (in_id (sm_info msg)) in
        match px_connections p !! session_key sid with
        | None =>
            payload ← unwrap_payload (sm_message msg);
            match request_method payload with
            | Err _ => Done p
            | Ok method =>
                if decide (method = "initialize") then Done (new_session sid msg p) else Done p
            end
        | Some (_, i) => Done (with_phase (Sending i (sm_message msg) None) p)
        end
      else Done p
  end.

(** The sender of a session is dropped. *)
Definition remove_connection (key : ((N * N * N) * N) * N) (p : Proxy) : Proxy :=
  match px_connections p !! key with
  | Some (_, i) =>
      with_tasks (alter drop_sender i (px_tasks p)) (with_connections (delete key (px_connections p)) p)
  | None => p
  end.

(** A notice of a task. *)
Definition from_session (fuel : nat) (n : Notice) (p : Proxy) : panics Proxy :=
  match n with
  | Ok (info, msg) =>
      match in_message_source info, in_input_connection info with
      | Some src, Some conn_id =>
          '(s, _) ← publish_to fuel (px_name p) info (ag_agent_type src) (Some (ag_agent_id src)) conn_id msg (px_service p);
          Done (with_service s p)
      | _, _ => Done p
      end
  | Err info =>
      match in_message_source info with
      | None => Done p
      | Some src => Done (remove_connection (session_key (mkSessionId src (in_id info))) p)
      end
  end.

(** The loop is left: the sessions' senders are dropped, and the service must
    drain in time. *)
Definition leave (drained : bool) (p : Proxy) : panics Proxy :=
  if drained then
    Done (with_phase Stopped (with_queue [] (with_connections ∅ (with_tasks (drop_sender <$> px_tasks p) p))))
  else Panic "timeout waiting for drain for service".

Inductive MainEvent : Type :=
| NextFromSlim
| EndOfSlim (drained : bool)
| NextFromSession
| Shutdown (drained : bool).

(** The next item of the agent's channel. *)
Definition next_item (p : Proxy) : option (Result SessionMessage SessionError) :=
  app ← sv_apps (px_service p) !! px_rx p; ob_sent (io_app (ap_io app)) !! px_read p.

(** One turn of the main loop, when it waits. *)
Definition main_turn (fuel : nat) (ev : MainEvent) (p : Proxy) : panics Proxy :=
  match ev with
  | NextFromSlim =>
      match next_item p with
      | None => Done p
      | Some item => from_slim item (read_item p)
      end
  | NextFromSession =>
      match px_queue p with
      | [] => Done p
      | n :: q => from_session fuel n (with_queue q p)
      end
  | EndOfSlim drained | Shutdown drained => leave drained p
  end.

(** [session_tx.send(..).await]: an error is ignored. [None] while there is no
    room. *)
Definition send_step (p : Proxy) : option Proxy :=
  match px_phase p with
  | Sending i msg store =>
      let stored := match store with
                    | Some sid => hm_insert session_key sid i (px_connections p)
                    | None => px_connections p
                    end in
      t ← px_tasks p !! i;
      match tk_phase t with
      | Ended => Some (with_phase Waiting (with_connections stored p))
      | _ =>
          if decide (length (tk_inbox t) < CHANNEL) then
            Some (with_phase Waiting (with_connections stored
                    (with_tasks (<[i := set_inbox (tk_inbox t ++ [msg])%list t]> (px_tasks p)) p)))
          else None
      end
  | _ => None
  end.

(** [tx_channel.send(..).await]: an error, when the proxy has stopped, is
    ignored. [None] while there is no room. *)
Definition notice_step (i : N) (p : Proxy) : option Proxy :=
  t ← px_tasks p !! i;
  match tk_phase t with
  | Notifying n last =>
      let t := if last then end_task t else set_phase Selecting t in
      match px_phase p with
      | Stopped => Some (with_tasks (<[i := t]> (px_tasks p)) p)
      | _ =>
          if decide (length (px_queue p) < CHANNEL) then
            Some (with_queue (px_queue p ++ [n])%list (with_tasks (<[i := t]> (px_tasks p)) p))
          else None
      end
  | _ => None
  end.

Definition session_step (i : N) (ev : TaskEvent) (p : Proxy) : option Proxy :=
  t ← px_tasks p !! i;
  t ← task_step ev t;
  Some (with_tasks (<[i := t]> (px_tasks p)) p).

(** ** The start

    [Proxy::start] up to its loop, for the service of the configuration; the
    outcomes of [run] are arguments as in [Service]. *)
Definition proxy_start (fuel : nat) (name : Agent) (svc_id : ID) (services : gmap (string * string) (ID * Service))
    (bound : list bool) (controller_bound : bool) (attempts : list (list bool)) (controller_connected : bool)
    : panics Proxy :=
  svc ← expect (snd <$> services !! id_key svc_id) "called `Option::unwrap()` on a `None` value";
  '(svc, res) ← create_agent name svc;
  match res with
  | Err _ => Panic "failed to create agent"
  | Ok slim_rx =>
      '(svc, res) ← run bound controller_bound attempts controller_connected svc;
      match res with
      | Err _ => Panic "called `Result::unwrap()` on an `Err` value"
      | Ok _ =>
          client ← expect (head (clients (pubsub (sv_config svc)))) "index out of bounds";
          '(svc, conn) ← get_connection_id (client_endpoint client) svc;
          conn_id ← expect conn "called `Option::unwrap()` on a `None` value";
          '(svc, res) ← subscribe fuel name (ag_agent_type name) (agent_id_option name) (Some conn_id) svc;
          match res with
          | Err _ => Panic "an error accoured while adding a subscription"
          | Ok _ =>
              '(svc, res) ← Service_create_session fuel name
                              (SessionConfig_FireAndForget FireAndForgetConfiguration_default) svc;
              match res with
              | Err _ => Panic "error creating fire and forget session"
              | Ok _ => Done (mkProxy name svc slim_rx 0 ∅ ∅ [] Waiting 0)
              end
          end
      end
  end.
End proxy.
End McpProxy.
Close Scope string_scope.
