(* ===== verification/McpProxyProofs.v ===== *)
(** * The MCP proxy: its invariant

    The steps of the proxy and its tasks, in any order; what holds in every
    state they reach. *)
From stdpp Require Import base list gmap strings numbers option sets.
From S2P Require Import Prelude Proto Encoder Messages ComponentId MessageProcessing.
From S2P Require Import Session SessionLayer Service Slim McpProxy.
Import McpProxy.

Section steps.
Context `{Rmcp}.
Context `{Hasher, HashIter, Transport, Telemetry, ErrorText, Rng, DebugAssertions, UnicodeTables, StatusText}.
Context {G : GrpcConfig}.
Implicit Types (p : Proxy) (t : SessionTask) (m : ProtoMessage) (k : ((N * N * N) * N) * N).

(** The client session a message belongs to, and that of a task. *)
Definition info_key (info : Info) : option (((N * N * N) * N) * N) :=
  src ← in_message_source info; Some (session_key (mkSessionId src (in_id info))).
Definition msg_key m : option (((N * N * N) * N) * N) :=
  match Info_from m with Done info => info_key info | Panic _ => None end.
Definition task_key t : option (((N * N * N) * N) * N) := info_key (tk_info t).

(** The information of a delivered message names its own session. *)
Definition item_ok (i : SessionMessage) : Prop :=
  is_Some (msg_key (sm_message i)) /\ msg_key (sm_message i) = info_key (sm_info i).

Variable fuel : nat.
Inductive px_step : Proxy -> Proxy -> Prop :=
| StepMain ev p p' :
    px_phase p = Waiting ->
    (forall i, ev = NextFromSlim -> next_item p = Some (Ok i) -> item_ok i) ->
    main_turn fuel ev p = Done p' -> px_step p p'
| StepSend p p' : send_step p = Some p' -> px_step p p'
| StepNotice i p p' : notice_step i p = Some p' -> px_step p p'
| StepTask i ev p p' : session_step i ev p = Some p' -> px_step p p'
| StepService p s : px_step p (with_service s p).

Definition initial p : Prop :=
  px_connections p = ∅ /\ px_tasks p = ∅ /\ px_queue p = [] /\ px_phase p = Waiting.

(** ** The invariant of a task *)
Definition parsed m : option ClientMessage :=
  match unwrap_payload m with
  | Done payload => match client_from_slice payload with Ok c => Some c | Err _ => None end
  | Panic _ => None
  end.
(** What may be the answer to a ping. *)
Definition pong (c : ClientMessage) : bool :=
  match response_of c with Some (Number _, true) => true | _ => false end.
Definition not_pong (c : ClientMessage) : Prop := pong c = false.
#[export] Instance not_pong_dec c : Decision (not_pong c).
Proof. unfold not_pong. apply _. Defined.

Definition notice_of t (n : Notice) : Prop :=
  match n with Ok (info, _) => info = tk_info t | Err info => info = tk_info t end.
Definition ends (n : Notice) : bool := match n with Ok _ => false | Err _ => true end.

Record task_ok t : Prop := {
  to_own : Forall (fun m => msg_key m = task_key t) (tk_taken t ++ tk_inbox t);
  to_sub : tk_sink t `sublist_of` omap parsed (tk_taken t);
  to_all : filter not_pong (tk_sink t) = filter not_pong (omap parsed (tk_taken t));
  to_pings : size (tk_pending t) <= MAX_PENDING_PINGS;
  to_notice : forall n last, tk_phase t = Notifying n last -> notice_of t n /\ last = ends n;
  to_ended : tk_phase t = Ended -> tk_inbox t = [];
}.

Lemma task_ok_new info : task_ok (run_session info).
Proof. split; cbn; try done. rewrite size_empty. unfold MAX_PENDING_PINGS. lia. Qed.

Lemma task_ok_end t : task_ok t -> task_ok (end_task t).
Proof.
  intros [Ho Hs Ha Hp Hn He]. split; cbn; try done. rewrite app_nil_r. by apply Forall_app in Ho as [? _].
Qed.
Lemma task_ok_phase t ph :
  task_ok t -> (forall n last, ph = Notifying n last -> notice_of t n /\ last = ends n) ->
  (ph = Ended -> tk_inbox t = []) -> task_ok (set_phase ph t).
Proof. intros [Ho Hs Ha Hp Hn He] Hph Hend. by split. Qed.
Lemma task_ok_stop t : task_ok t -> task_ok (stop_session t).
Proof. intros [Ho Hs Ha Hp Hn He]. split; cbn; try done. by intros n last [= <- <-]. Qed.
Lemma task_ok_drop t : task_ok t -> task_ok (drop_sender t).
Proof. intros [Ho Hs Ha Hp Hn He]. by split. Qed.
Lemma task_ok_push t m :
  task_ok t -> tk_phase t <> Ended -> msg_key m = task_key t -> task_ok (set_inbox (tk_inbox t ++ [m])%list t).
Proof.
  intros [Ho Hs Ha Hp Hn He] Hne Hm. split; cbn; try done. rewrite app_assoc. apply Forall_app. split; [done|].
  by constructor.
Qed.

Lemma size_insert_le (s : gset N) i : size ({[i]} ∪ s) <= S (size s).
Proof.
  rewrite size_union_alt, size_singleton. pose proof (subseteq_size (s ∖ {[i]}) s) as Hle.
  assert (s ∖ {[i]} ⊆ s) by set_solver. specialize (Hle ltac:(assumption)). lia.
Qed.
Lemma task_ok_ping t i :
  task_ok t -> size (tk_pending t) < MAX_PENDING_PINGS -> task_ok (set_pending ({[i]} ∪ tk_pending t) t).
Proof.
  intros [Ho Hs Ha Hp Hn He] Hlt. split; cbn; try done. pose proof (size_insert_le (tk_pending t) i). lia.
Qed.

(** A message is handled: it was dropped as unreadable or as the answer to a
    ping, or sent to the server. *)
Lemma task_ok_take t m rest sent :
  task_ok t -> tk_inbox t = m :: rest -> tk_phase t <> Ended ->
  (sent = option_list (parsed m) \/ (sent = [] /\ forall c, parsed m = Some c -> pong c = true)) ->
  task_ok (take_message rest m sent t).
Proof.
  intros [Ho Hs Ha Hp Hn He] Hin Hne Hsent.
  assert (Hom : omap parsed [m] = option_list (parsed m)) by (cbn; by destruct (parsed m)).
  split; cbn; try done.
  - rewrite Hin in Ho. by rewrite <- app_assoc.
  - rewrite omap_app. apply sublist_app; [done|]. rewrite Hom.
    destruct Hsent as [->|[-> _]]; [done|apply sublist_nil_l].
  - rewrite omap_app, !filter_app, Ha. f_equal. rewrite Hom. destruct Hsent as [->|[-> Hc]]; [done|].
    destruct (parsed m) as [c|]; [|done]. change (option_list (Some c)) with [c].
    rewrite filter_cons_False; [done|].
    unfold not_pong. by rewrite Hc.
Qed.

Lemma from_client_ok sink_ok rest m t t' :
  task_ok t -> tk_inbox t = m :: rest -> tk_phase t = Selecting -> from_client sink_ok rest m t = Done t' ->
  task_ok t' /\ tk_phase t' = Selecting /\ tk_info t' = tk_info t /\ tk_sender t' = tk_sender t.
Proof.
  intros Hok Hin Hph. unfold from_client. destruct (unwrap_payload m) as [b|] eqn:Hb; cbn; [|done].
  assert (Hne : tk_phase t <> Ended) by (by rewrite Hph).
  assert (Hparsed : parsed m = match client_from_slice b with Ok c => Some c | Err _ => None end).
  { unfold parsed. by rewrite Hb. }
  destruct (client_from_slice b) as [c|e].
  - assert (Hfwd : task_ok (take_message rest m [c] t)).
    { apply task_ok_take; [done..|]. left. by rewrite Hparsed. }
    assert (Hgo : (if sink_ok then Done (take_message rest m [c] t) else Panic "called `Result::unwrap()` on an `Err` value")
                    = Done t' -> task_ok t' /\ tk_phase t' = Selecting /\ tk_info t' = tk_info t /\ tk_sender t' = tk_sender t).
    { destruct sink_ok; [|done]. by intros [= <-]. }
    destruct (response_of c) as [[[index|s] [|]]|] eqn:Hr; [|exact Hgo..].
    case_decide; [|exact Hgo]. intros [= <-]. split; [|done].
    assert (Ht : task_ok (take_message rest m [] t)).
    { apply task_ok_take; [done..|]. right. split; [done|]. rewrite Hparsed. intros c' [= <-]. unfold pong. by rewrite Hr. }
    destruct Ht as [Ho Hs Ha Hp Hn He]. split; cbn; try done. rewrite size_empty. unfold MAX_PENDING_PINGS. lia.
  - intros [= <-]. split; [|done]. apply task_ok_take; [done..|]. left. by rewrite Hparsed.
Qed.

(** A task's step keeps its information and its sender. *)
Definition same_session t t' : Prop := tk_info t' = tk_info t /\ tk_sender t' = tk_sender t.

Lemma task_step_ok ev t t' :
  task_ok t -> task_step ev t = Some t' -> task_ok t' /\ same_session t t' /\ tk_phase t <> Ended.
Proof.
  intros Hok. unfold task_step, same_session. destruct (tk_phase t) eqn:Hph; [| |done|done].
  - destruct ev as [[|]|]; [|..|done]; intros [= <-]; (split; [|done]).
    + destruct Hok as [Ho Hs Ha Hp Hn He]. split; cbn; try done. rewrite size_empty. unfold MAX_PENDING_PINGS. lia.
    + by apply task_ok_end.
  - destruct ev as [|ev]; [done|]. destruct (session_turn ev t) as [t1|] eqn:Hturn.
    2:{ intros [= <-]. split; [by apply task_ok_end|done]. }
    intros [= <-]. revert Hturn. destruct ev as [sink_ok|[msg|]|[index|]]; cbn.
    + destruct (tk_inbox t) as [|m rest] eqn:Hin.
      { destruct (tk_sender t) eqn:Hsd; intros [= <-]; [done|]. split; [by apply task_ok_stop|done]. }
      intros Hc. apply from_client_ok in Hc as (Hok'&_&Hi&Hs); done.
    + destruct (server_to_vec msg) as [vec|]; [|done]. intros [= <-]. split; [|done].
      apply task_ok_phase; [done| |done]. by intros n last [= <- <-].
    + intros [= <-]. split; [by apply task_ok_stop|done].
    + case_decide as Hmax; [intros [= <-]; split; [by apply task_ok_stop|done]|].
      destruct (server_to_vec (ping_request index)) as [vec|]; [|done]. intros [= <-]. split; [|done].
      apply task_ok_phase; [apply task_ok_ping; [done|lia]| |done]. by intros n last [= <- <-].
    + intros [= <-]. split; [by apply task_ok_stop|done].
Qed.

(** ** The invariant of the proxy *)
Definition active t : Prop := tk_phase t <> Ended.
Definition err_for k (n : Notice) : Prop :=
  match n with Err info => info_key info = Some k | Ok _ => False end.
#[export] Instance err_for_dec k n : Decision (err_for k n).
Proof. destruct n as [[]|]; cbn; apply _. Defined.
Definition errs k (q : list Notice) : nat := length (filter (err_for k) q).

(** The task of a client session: the one stored, or about to be. *)
Definition owner p k i : Prop :=
  (exists sid, px_connections p !! k = Some (sid, i)) \/
  exists m sid, px_phase p = Sending i m (Some sid) /\ session_key sid = k.

Record px_ok p : Prop := {
  ok_next : forall i, is_Some (px_tasks p !! i) -> (i < px_next p)%N;
  ok_tasks : forall i t, px_tasks p !! i = Some t -> task_ok t;
  ok_conn : forall k sid i, px_connections p !! k = Some (sid, i) ->
    session_key sid = k /\ exists t, px_tasks p !! i = Some t /\ task_key t = Some k /\ tk_sender t = true;
  ok_send : forall i m store, px_phase p = Sending i m store ->
    exists t k, px_tasks p !! i = Some t /\ task_key t = Some k /\ msg_key m = Some k /\ tk_sender t = true /\
      match store with
      | Some sid => session_key sid = k /\ px_connections p !! k = None
      | None => exists sid, px_connections p !! k = Some (sid, i)
      end;
  ok_owner : px_phase p <> Stopped -> forall i t k,
    px_tasks p !! i = Some t -> task_key t = Some k -> active t -> owner p k i;
  ok_errs : forall k, errs k (px_queue p) <= 1 /\
    (errs k (px_queue p) = 1 -> (exists i, owner p k i) /\
       forall i t, px_tasks p !! i = Some t -> task_key t = Some k -> tk_phase t = Ended);
  ok_queue : forall n, n ∈ px_queue p -> exists i t, px_tasks p !! i = Some t /\ notice_of t n;
}.

Lemma px_ok_initial p : initial p -> px_ok p.
Proof.
  intros (Hc&Ht&Hq&Hp). split; rewrite ?Hc, ?Ht, ?Hq, ?Hp.
  - intros i. rewrite lookup_empty. by intros [? ?].
  - intros i t. by rewrite lookup_empty.
  - intros k sid i. by rewrite lookup_empty.
  - done.
  - intros _ i t k. by rewrite lookup_empty.
  - intros k. cbn. split; [lia|done].
  - intros n Hn. by apply elem_of_nil in Hn.
Qed.

(** One owner at a time. *)
Lemma owner_unique p k i j : px_ok p -> owner p k i -> owner p k j -> i = j.
Proof.
  intros Hok [[sid Hi]|(m&sid&Hi&Hk)] [[sid' Hj]|(m'&sid'&Hj&Hk')]; [congruence| | |congruence].
  - destruct (ok_send _ Hok _ _ _ Hj) as (t&k0&_&_&_&_&Hs&Hn). congruence.
  - destruct (ok_send _ Hok _ _ _ Hi) as (t&k0&_&_&_&_&Hs&Hn). congruence.
Qed.
Lemma errs_app k q n : errs k (q ++ [n]) = errs k q + (if decide (err_for k n) then 1 else 0).
Proof. unfold errs. rewrite filter_app, length_app. f_equal. cbn. by case_decide. Qed.
Lemma errs_cons k q n : errs k (n :: q) = (if decide (err_for k n) then 1 else 0) + errs k q.
Proof. unfold errs. rewrite filter_cons. by case_decide. Qed.

(** What the invariant says of the tasks survives a task that goes on in its
    session, unless it becomes active again. *)
Lemma px_ok_task p i t t' :
  px_ok p -> px_tasks p !! i = Some t -> task_ok t' -> same_session t t' -> active t ->
  px_ok (with_tasks (<[i := t']> (px_tasks p)) p).
Proof.
  intros Hok Hi Ht' [Hinfo Hsd] Hact.
  assert (Hkey : task_key t' = task_key t) by (unfold task_key; by rewrite Hinfo).
  destruct Hok as [Hn Ht Hc Hs Ho He Hq]. split; cbn.
  - intros j. rewrite lookup_insert_is_Some'. intros [<-|Hj]; [apply Hn; by eexists|by apply Hn].
  - intros j u. rewrite lookup_insert_Some. intros [[<- <-]|[_ Hj]]; [done|by apply (Ht j)].
  - intros k sid j Hk. destruct (Hc k sid j Hk) as (Hsid&u&Hu&Huk&Hus). split; [done|].
    destruct (decide (i = j)) as [<-|Hne].
    + exists t'. rewrite lookup_insert_eq. split; [done|]. split; congruence.
    + exists u. by rewrite lookup_insert_ne.
  - intros j m store Hp. destruct (Hs j m store Hp) as (u&k&Hu&Huk&Hm&Hus&Hstore).
    destruct (decide (i = j)) as [<-|Hne].
    + exists t', k. rewrite lookup_insert_eq. split; [done|]. split; [congruence|]. split; [done|]. split; [congruence|done].
    + exists u, k. by rewrite lookup_insert_ne.
  - intros Hp j u k. rewrite lookup_insert_Some. intros [[<- <-]|[_ Hj]] Hk Ha.
    + apply (Ho Hp i t k); congruence.
    + by apply (Ho Hp j u k).
  - intros k. destruct (He k) as [Hle Hone]. split; [done|]. intros Heq. destruct (Hone Heq) as [Hown Hend]. split; [done|].
    intros j u. rewrite lookup_insert_Some. intros [[<- <-]|[_ Hj]] Hk.
    + exfalso. apply Hact, (Hend i t); congruence.
    + by apply (Hend j).
  - intros n Hin. destruct (Hq n Hin) as (j&u&Hj&Hnu). destruct (decide (i = j)) as [<-|Hne].
    + exists i, t'. rewrite lookup_insert_eq. split; [done|]. rewrite Hi in Hj. injection Hj as <-.
      unfold notice_of in *. by rewrite Hinfo.
    + exists j, u. by rewrite lookup_insert_ne.
Qed.

Lemma session_step_ok i ev p p' : px_ok p -> session_step i ev p = Some p' -> px_ok p'.
Proof.
  intros Hok. unfold session_step. destruct (px_tasks p !! i) as [t|] eqn:Hi; [|done]. cbn.
  destruct (task_step ev t) as [t'|] eqn:Ht; [|done]. intros [= <-].
  destruct (task_step_ok ev t t' (ok_tasks _ Hok i t Hi) Ht) as (Ht'&Hss&Ha). by apply (px_ok_task p i t).
Qed.

(** A notice of a task that was active and, when it is the last one, is not any
    more. *)
Lemma px_ok_push p i t t' n :
  px_ok p -> px_phase p <> Stopped -> px_tasks p !! i = Some t -> active t -> notice_of t n ->
  task_ok t' -> same_session t t' -> (ends n = true -> tk_phase t' = Ended) ->
  px_ok (with_queue (px_queue p ++ [n]) (with_tasks (<[i := t']> (px_tasks p)) p)).
Proof.
  intros Hok Hp Hi Hact Hn Ht' Hss Hend. pose proof (px_ok_task p i t t' Hok Hi Ht' Hss Hact) as Hok1.
  destruct Hok1 as [H1n H1t H1c H1s H1o H1e H1q]. split; try done;
    cbn [with_queue with_tasks px_queue px_tasks px_connections px_phase px_next] in *.
  - intros k. rewrite errs_app. destruct (H1e k) as [Hle Hone]. case_decide as Hk; [|by rewrite Nat.add_0_r].
    destruct n as [[]|info]; [done|]. cbn in Hk, Hn, Hend. subst info.
    assert (Htk : task_key t = Some k) by done. pose proof (ok_owner _ Hok Hp i t k Hi Htk Hact) as Hown.
    assert (Hzero : errs k (px_queue p) = 0).
    { destruct (ok_errs _ Hok k) as [Hle' Hone']. destruct (decide (errs k (px_queue p) = 1)) as [E|]; [|lia].
      destruct (Hone' E) as [_ Hall]. by destruct (Hact (Hall i t Hi Htk)). }
    rewrite Hzero. split; [lia|]. intros _. split; [by exists i|]. intros j u.
    rewrite lookup_insert_Some. intros [[<- <-]|[Hne Hj]] Hu; [by apply Hend|].
    destruct (tk_phase u) eqn:Hph; [exfalso..|done];
      apply Hne, (owner_unique p k i j Hok Hown), (ok_owner _ Hok Hp j u k Hj Hu); unfold active; by rewrite Hph.
  - intros n'. rewrite elem_of_app, list_elem_of_singleton. intros [Hin| ->]; [by apply H1q|].
    exists i, t'. rewrite lookup_insert_eq. split; [done|]. destruct Hss as [Hinfo _]. unfold notice_of in *.
    by rewrite Hinfo.
Qed.

Lemma notice_step_ok i p p' : px_ok p -> notice_step i p = Some p' -> px_ok p'.
Proof.
  intros Hok. unfold notice_step. destruct (px_tasks p !! i) as [t|] eqn:Hi; [|done]. cbn.
  destruct (tk_phase t) as [| |n last|] eqn:Hph; [done|done| |done].
  pose proof (ok_tasks _ Hok i t Hi) as Ht. destruct (to_notice t Ht n last Hph) as [Hn Hlast].
  assert (Hact : active t) by (unfold active; by rewrite Hph).
  set (t' := if last then end_task t else set_phase Selecting t).
  assert (Ht' : task_ok t').
  { unfold t'. destruct last; [by apply task_ok_end|]. by apply task_ok_phase. }
  assert (Hss : same_session t t') by (unfold t', same_session; by destruct last).
  assert (Hend : ends n = true -> tk_phase t' = Ended) by (unfold t'; rewrite Hlast; by destruct (ends n)).
  destruct (px_phase p) eqn:Hp; [| |intros [= <-]; by apply (px_ok_task p i t)];
    (case_decide; [|done]; intros [= <-]; apply (px_ok_push p i t); try done; by rewrite Hp).
Qed.

(** ** Sending to a task *)
Lemma hm_insert_session (sid : SessionId) (i : N) (m : gmap (((N * N * N) * N) * N) (SessionId * N)) :
  m !! session_key sid = None -> hm_insert session_key sid i m = <[session_key sid := (sid, i)]> m.
Proof. intros Hn. unfold hm_insert. by rewrite Hn. Qed.

Definition stored (store : option SessionId) (i : N) p : gmap (((N * N * N) * N) * N) (SessionId * N) :=
  match store with Some sid => hm_insert session_key sid i (px_connections p) | None => px_connections p end.

Lemma px_ok_stored p i m store :
  px_ok p -> px_phase p = Sending i m store -> px_ok (with_phase Waiting (with_connections (stored store i p) p)).
Proof.
  intros Hok Hp. destruct (ok_send _ Hok _ _ _ Hp) as (t&k&Hi&Hk&Hm&Hsd&Hstore).
  assert (Hnew : forall j x, stored store i p !! j = Some x ->
    px_connections p !! j = Some x \/ (j = k /\ exists sid, x = (sid, i) /\ session_key sid = k)).
  { intros j x. destruct store as [sid|]; [|by left]. destruct Hstore as [<- Hnone]. cbn [stored].
    rewrite hm_insert_session, lookup_insert_Some by done. intros [[<- <-]|[_ Hj]]; [right|by left].
    split; [done|]. by exists sid. }
  assert (Hown : forall k' j, owner p k' j -> owner (with_phase Waiting (with_connections (stored store i p) p)) k' j).
  { intros k' j [[sid Hj]|(m'&sid&Hj&Hs)]; left; cbn.
    - exists sid. destruct store as [sid'|]; [|done]. destruct Hstore as [<- Hnone]. cbn [stored].
      rewrite hm_insert_session, lookup_insert_ne by congruence. done.
    - rewrite Hp in Hj. injection Hj as <- <- ->. destruct Hstore as [<- Hnone]. cbn [stored].
      exists sid. by rewrite hm_insert_session, Hs, lookup_insert_eq by done. }
  destruct Hok as [Hn Ht Hc Hs Ho He Hq]. split; try done; cbn [with_phase with_connections px_connections px_tasks px_phase px_queue].
  - intros k' sid j Hj. apply Hnew in Hj as [Hj|(->&sid'&[= -> ->]&Hs')]; [by apply Hc|]. split; [done|]. by exists t.
  - intros Hph j u k' Hj Hu Ha. apply Hown, (Ho ltac:(by rewrite Hp) j u k' Hj Hu Ha).
  - intros k'. destruct (He k') as [Hle Hone]. split; [done|]. intros E. destruct (Hone E) as [[j Hj] Hall].
    split; [|done]. exists j. by apply Hown.
Qed.

Lemma send_step_ok p p' : px_ok p -> send_step p = Some p' -> px_ok p'.
Proof.
  intros Hok. unfold send_step. destruct (px_phase p) as [|i m store|] eqn:Hp; [done| |done].
  destruct (ok_send _ Hok _ _ _ Hp) as (t&k&Hi&Hk&Hm&Hsd&_). rewrite Hi. cbn. fold (stored store i p).
  pose proof (px_ok_stored p i m store Hok Hp) as Hok1.
  assert (Hpush : active t -> px_ok (with_phase Waiting (with_connections (stored store i p)
                    (with_tasks (<[i := set_inbox (tk_inbox t ++ [m])%list t]> (px_tasks p)) p)))).
  { intros Ha. apply (px_ok_task _ i t (set_inbox (tk_inbox t ++ [m])%list t) Hok1 Hi); [|done|done].
    apply task_ok_push; [by apply (ok_tasks _ Hok i)|done|congruence]. }
  destruct (tk_phase t) eqn:Hph; [..|by intros [= <-]];
    (case_decide; [|done]; intros [= <-]; apply Hpush; unfold active; by rewrite Hph).
Qed.

(** ** The main loop *)

(** The key the loop computes is that of the message. *)
Lemma item_key i src :
  item_ok i -> get_source (sm_message i) = Done src ->
  msg_key (sm_message i) = Some (session_key (mkSessionId src (in_id (sm_info i)))) /\
  info_key (sm_info i) = Some (session_key (mkSessionId src (in_id (sm_info i)))).
Proof.
  intros [Hsome Heq] Hsrc. rewrite Heq. enough (info_key (sm_info i) = _) as -> by done.
  rewrite Heq in Hsome. unfold msg_key, Info_from in Heq. rewrite Hsrc in Heq.
  destruct (get_session_header (sm_message i)) as [sh|]; cbn in Heq; [|by destruct Hsome; congruence].
  destruct (get_slim_header (sm_message i)) as [h|]; cbn in Heq; [|by destruct Hsome; congruence].
  unfold info_key in *. destruct (in_message_source (sm_info i)) as [src'|]; [|done]. cbn in *.
  unfold session_key in *. cbn in *. congruence.
Qed.

Lemma px_ok_read p : px_ok p -> px_ok (read_item p).
Proof. intros [Hn Ht Hc Hs Ho He Hq]. by split. Qed.

Lemma px_ok_new p sid i :
  px_ok p -> px_phase p = Waiting -> px_connections p !! session_key sid = None ->
  msg_key (sm_message i) = Some (session_key sid) -> info_key (sm_info i) = Some (session_key sid) ->
  px_ok (new_session sid i p).
Proof.
  intros Hok Hp Hnone Hm Hi. destruct Hok as [Hn Ht Hc Hs Ho He Hq].
  assert (Hfresh : px_tasks p !! px_next p = None).
  { apply eq_None_not_Some. intros Hsome. apply Hn in Hsome. lia. }
  assert (Hown : forall k j, owner p k j -> owner (new_session sid i p) k j).
  { intros k j [Hj|(m'&sid'&Hj&_)]; [by left|congruence]. }
  assert (Hold : forall j u, px_tasks p !! j = Some u -> px_tasks (new_session sid i p) !! j = Some u).
  { intros j u Hj. cbn. rewrite lookup_insert_ne; [done|]. intros <-. congruence. }
  split.
  - intros j. cbn. rewrite lookup_insert_is_Some'. intros [<-|Hj]; [lia|]. apply Hn in Hj. lia.
  - intros j u. cbn. rewrite lookup_insert_Some. intros [[<- <-]|[_ Hj]]; [apply task_ok_new|by apply (Ht j)].
  - intros k s j Hj. destruct (Hc k s j Hj) as (Hsk&u&Hu&Hrest). split; [done|]. exists u. split; [by apply Hold|done].
  - intros j m store [= <- <- <-]. exists (run_session (sm_info i)), (session_key sid). cbn.
    rewrite lookup_insert_eq. done.
  - intros _ j u k. cbn [new_session px_tasks]. rewrite lookup_insert_Some. intros [[<- <-]|[_ Hj]] Hk Ha.
    + right. exists (sm_message i), sid. split; [done|]. unfold task_key in Hk. cbn in Hk. congruence.
    + apply Hown. by apply (Ho ltac:(by rewrite Hp) j u).
  - intros k. destruct (He k) as [Hle Hone]. split; [done|]. intros E. destruct (Hone E) as [[j Hj] Hall].
    split; [exists j; by apply Hown|]. intros j' u. cbn [new_session px_tasks].
    rewrite lookup_insert_Some. intros [[<- <-]|[_ Hj']] Hk; [|by apply (Hall j')]. exfalso.
    unfold task_key in Hk. cbn in Hk. rewrite Hi in Hk. injection Hk as <-.
    destruct Hj as [[s Hj]|(m'&s&Hj&_)]; congruence.
  - intros n Hin. destruct (Hq n Hin) as (j&u&Hj&Hnu). exists j, u. split; [by apply Hold|done].
Qed.

Lemma from_slim_ok r p p' :
  px_ok p -> px_phase p = Waiting -> (forall i, r = Ok i -> item_ok i) -> from_slim r p = Done p' -> px_ok p'.
Proof.
  intros Hok Hp Hitem. destruct r as [i|e]; cbn; [|by intros [= <-]]. specialize (Hitem i eq_refl).
  destruct (is_publish (sm_message i)) as [[|]|]; cbn; [|by intros [= <-]|done].
  destruct (get_source (sm_message i)) as [src|] eqn:Hsrc; cbn; [|done].
  destruct (item_key i src Hitem Hsrc) as [Hmk Hik].
  destruct (px_connections p !! session_key (mkSessionId src (in_id (sm_info i)))) as [[sid j]|] eqn:Hc.
  - intros [= <-]. destruct (ok_conn _ Hok _ _ _ Hc) as (_&t&Ht&Htk&Hsd).
    destruct Hok as [Hn Hts Hcs Hs Ho He Hq]. split; try done.
    + intros j' m store [= <- <- <-]. exists t. eexists. split; [done|]. split; [done|]. split; [done|].
      split; [done|]. by exists sid.
    + intros _ j' u k Hj Hk Ha. destruct (Ho ltac:(by rewrite Hp) j' u k Hj Hk Ha) as [Hl|(m&s&Hl&_)]; [by left|congruence].
    + intros k. destruct (He k) as [Hle Hone]. split; [done|]. intros E. destruct (Hone E) as [[j' Hj] Hall].
      split; [|done]. exists j'. destruct Hj as [Hl|(m&s&Hl&_)]; [by left|congruence].
  - destruct (unwrap_payload (sm_message i)) as [b|]; cbn; [|done].
    destruct (request_method b) as [method|]; [|by intros [= <-]]. case_decide; [|by intros [= <-]].
    intros [= <-]. by apply px_ok_new.
Qed.

(** The queue without its first notice. *)
Lemma px_ok_pop p n q : px_ok p -> px_queue p = n :: q -> px_ok (with_queue q p).
Proof.
  intros [Hn Ht Hc Hs Ho He Hq] E. split; try done; cbn [with_queue px_queue px_tasks].
  - intros k. destruct (He k) as [Hle Hone]. rewrite E, errs_cons in Hle, Hone. split; [lia|]. intros E1.
    apply Hone. case_decide; lia.
  - intros n' Hin. apply Hq. rewrite E. by apply elem_of_cons; right.
Qed.

Lemma px_ok_remove p n q k :
  px_ok p -> px_phase p = Waiting -> px_queue p = n :: q -> err_for k n -> px_ok (remove_connection k (with_queue q p)).
Proof.
  intros Hok Hp E Hk. pose proof (px_ok_pop p n q Hok E) as Hpop.
  assert (Hend : forall i t, px_tasks p !! i = Some t -> task_key t = Some k -> tk_phase t = Ended).
  { apply (proj2 (ok_errs _ Hok k)). destruct (ok_errs _ Hok k) as [Hle _]. rewrite E, errs_cons in *.
    rewrite decide_True in * by done. lia. }
  assert (Hzero : errs k q = 0).
  { destruct (ok_errs _ Hok k) as [Hle _]. rewrite E, errs_cons, decide_True in Hle by done. lia. }
  unfold remove_connection. cbn [with_queue px_connections].
  destruct (px_connections p !! k) as [[sid i]|] eqn:Hc; [|done].
  destruct (ok_conn _ Hok _ _ _ Hc) as (Hsid&t&Hi&Htk&_).
  assert (Halt : forall j u, alter drop_sender i (px_tasks p) !! j = Some u ->
    exists u0, px_tasks p !! j = Some u0 /\ (u = u0 \/ (j = i /\ u = drop_sender u0))).
  { intros j u. destruct (decide (i = j)) as [<-|Hne].
    - rewrite lookup_alter_eq, Hi. intros [= <-]. exists t. auto.
    - rewrite lookup_alter_ne by done. intros Hj. exists u. auto. }
  destruct Hpop as [Hn Ht Hcs Hs Ho He Hq].
  cbn [with_queue px_queue px_tasks px_connections px_phase px_next] in *.
  split; cbn [with_tasks with_connections with_queue px_queue px_tasks px_connections px_phase px_next].
  - intros j. rewrite lookup_alter_is_Some. apply Hn.
  - intros j u Hj. apply Halt in Hj as (u0&Hj&[->|[-> ->]]); [by apply (Ht j)|]. by apply task_ok_drop, (Ht i).
  - intros k' s j Hj. apply lookup_delete_Some in Hj as [Hne Hj]. destruct (Hcs k' s j Hj) as (Hsk&u&Hu&Huk&Hus).
    split; [done|]. exists u. rewrite lookup_alter_ne; [done|]. intros <-. congruence.
  - congruence.
  - intros _ j u k' Hj Hk' Ha. apply Halt in Hj as (u0&Hj&Hu).
    assert (Hu0 : task_key u0 = Some k' /\ active u0) by (destruct Hu as [->|[_ ->]]; done). destruct Hu0 as [Hk0 Ha0].
    destruct (Ho ltac:(by rewrite Hp) j u0 k' Hj Hk0 Ha0) as [[s Hl]|(m&s&Hl&_)]; [|cbn in Hl; congruence].
    left. exists s. apply lookup_delete_Some. split; [|done]. intros <-. by apply Ha0, (Hend j).
  - intros k'. destruct (He k') as [Hle Hone]. split; [done|]. intros E1. destruct (Hone E1) as [[j Hj] Hall].
    split.
    + exists j. left. destruct Hj as [[s Hl]|(m&s&Hl&_)]; [|cbn in Hl; congruence]. exists s.
      cbn [with_queue px_connections] in Hl. apply lookup_delete_Some. split; [|done]. intros <-. lia.
    + intros j' u Hj' Hu. apply Halt in Hj' as (u0&Hj0&[->|[-> ->]]); [by apply (Hall j')|]. cbn. by apply (Hall i).
  - intros n' Hin. destruct (Hq n' Hin) as (j&u&Hj&Hnu). destruct (decide (i = j)) as [<-|Hne].
    + exists i, (drop_sender u). rewrite lookup_alter_eq, Hj. done.
    + exists j, u. by rewrite lookup_alter_ne.
Qed.

Lemma px_ok_service s p : px_ok p -> px_ok (with_service s p).
Proof. intros [Hn Ht Hc Hs Ho He Hq]. by split. Qed.

Lemma px_ok_leave drained p p' : px_ok p -> leave drained p = Done p' -> px_ok p'.
Proof.
  intros [Hn Ht Hc Hs Ho He Hq]. unfold leave. destruct drained; [|done]. intros [= <-].
  split; cbn [with_phase with_queue with_connections with_tasks px_queue px_tasks px_connections px_phase px_next].
  - intros i. rewrite lookup_fmap, fmap_is_Some. apply Hn.
  - intros i t. rewrite lookup_fmap, fmap_Some. intros (u&Hu&->). by apply task_ok_drop, (Ht i).
  - intros k sid i. by rewrite lookup_empty.
  - done.
  - done.
  - intros k. cbn. split; [lia|done].
  - intros n Hin. by apply elem_of_nil in Hin.
Qed.

Lemma main_turn_ok ev p p' :
  px_ok p -> px_phase p = Waiting -> (forall i, ev = NextFromSlim -> next_item p = Some (Ok i) -> item_ok i) ->
  main_turn fuel ev p = Done p' -> px_ok p'.
Proof.
  intros Hok Hp Hitem. destruct ev as [|d| |d]; cbn; [|by apply px_ok_leave| |by apply px_ok_leave].
  - destruct (next_item p) as [r|] eqn:Hr; [|by intros [= <-]]. apply from_slim_ok; [by apply px_ok_read|done|].
    intros i ->. by apply Hitem.
  - destruct (px_queue p) as [|n q] eqn:E; [by intros [= <-]|]. pose proof (px_ok_pop p n q Hok E) as Hpop.
    destruct n as [[info msg]|info]; cbn.
    + destruct (in_message_source info) as [src|], (in_input_connection info) as [conn|]; try by intros [= <-].
      destruct (publish_to _ _ _ _ _ _ _ _) as [[s r]|]; cbn; [|done]. intros [= <-]. by apply px_ok_service.
    + destruct (in_message_source info) as [src|] eqn:Hs; [|by intros [= <-]]. intros [= <-].
      eapply px_ok_remove; [done|done|exact E|]. cbn. unfold info_key. by rewrite Hs.
Qed.

Lemma px_step_ok p p' : px_step p p' -> px_ok p -> px_ok p'.
Proof.
  intros Hst Hok. destruct Hst as [ev p p' Hp Hi Hr|p p' Hr|i p p' Hr|i ev p p' Hr|p s].
  - by eapply main_turn_ok.
  - by eapply send_step_ok.
  - by eapply notice_step_ok.
  - by eapply session_step_ok.
  - by apply px_ok_service.
Qed.
Lemma px_reached_ok p0 p : initial p0 -> rtc px_step p0 p -> px_ok p.
Proof.
  intros H0i Hr. apply px_ok_initial in H0i. revert H0i. induction Hr as [p|p p1 p2 Hst _ IH]; [done|].
  intros Hok. by apply IH, (px_step_ok p).
Qed.
End steps.
