(* ===== verification/McpProxyClaims.v ===== *)
(** * The MCP proxy: theorems

    Sessions are kept apart, whatever the order of events; when the main loop
    returns and when it panics; a client that does not answer is dropped; two
    ways a session, or the proxy, comes to a halt. *)
From stdpp Require Import base list gmap strings numbers option sets.
From S2P Require Import Prelude Proto Encoder Messages MessageProcessing MessageProcessingProofs DataPlane.
From S2P Require Import ReceiverBuffer Timer Session RequestResponse FireAndForget Streaming SessionLayer SessionLayerProofs.
From S2P Require Import ComponentId Service ServiceProofs ServiceClaims Slim McpProxy McpProxyProofs.
Import McpProxy.

(** What the invariant says of the sessions. *)
Lemma sessions_apart `{Rmcp, Hasher, HashIter, Transport, Telemetry, ErrorText, Rng, DebugAssertions,
    UnicodeTables, StatusText} {G : GrpcConfig} fuel p0 p :
  initial p0 -> rtc (px_step fuel) p0 p ->
  (forall i t, px_tasks p !! i = Some t ->
     Forall (fun m => msg_key m = task_key t) (tk_taken t ++ tk_inbox t) /\
     tk_sink t `sublist_of` omap parsed (tk_taken t) /\
     filter not_pong (tk_sink t) = filter not_pong (omap parsed (tk_taken t)) /\
     size (tk_pending t) <= MAX_PENDING_PINGS) /\
  (forall n, n ∈ px_queue p -> exists i t, px_tasks p !! i = Some t /\ notice_of t n) /\
  (forall k sid i, px_connections p !! k = Some (sid, i) ->
     session_key sid = k /\ exists t, px_tasks p !! i = Some t /\ task_key t = Some k) /\
  (px_phase p <> Stopped -> forall i j t u k, px_tasks p !! i = Some t -> px_tasks p !! j = Some u ->
     task_key t = Some k -> task_key u = Some k -> tk_phase t <> Ended -> tk_phase u <> Ended -> i = j).
Proof.
  intros Hi Hr. pose proof (px_reached_ok fuel p0 p Hi Hr) as Hok. split; [|split; [|split]].
  - intros i t Ht. destruct (ok_tasks _ Hok i t Ht) as [Ho Hs Ha Hp _ _]. done.
  - apply (ok_queue _ Hok).
  - intros k sid i Hk. destruct (ok_conn _ Hok k sid i Hk) as (Hs&t&Ht&Hkey&_). split; [done|]. by exists t.
  - intros Hp i j t u k Ht Hu Htk Huk Hta Hua.
    apply (owner_unique p k i j Hok); [by apply (ok_owner _ Hok Hp i t)|by apply (ok_owner _ Hok Hp j u)].
Qed.

Section dead.
Context `{Rmcp, Hasher, HashIter, Transport, Telemetry, ErrorText, Rng, DebugAssertions, UnicodeTables, StatusText}.
Context {G : GrpcConfig}.
Variable fuel : nat.
Implicit Types (p : Proxy) (t : SessionTask) (k : ((N * N * N) * N) * N).

(** The session has an entry, no task, and nobody will remove the entry. *)
Definition dead k p : Prop :=
  is_Some (px_connections p !! k) /\
  (forall j t, px_tasks p !! j = Some t -> task_key t = Some k -> tk_phase t = Ended) /\
  errs k (px_queue p) = 0.

Lemma stopped_stays p p' : px_phase p = Stopped -> px_step fuel p p' -> px_phase p' = Stopped.
Proof.
  intros Hp Hst. destruct Hst as [ev p p' Hw Hi Hr|p p' Hr|i p p' Hr|i ev p p' Hr|p s]; [congruence|..|done].
  - unfold send_step in Hr. by rewrite Hp in Hr.
  - unfold notice_step in Hr. destruct (px_tasks p !! i) as [t|]; [|done]. cbn in Hr.
    destruct (tk_phase t); try done. rewrite Hp in Hr. by injection Hr as <-.
  - unfold session_step in Hr. destruct (px_tasks p !! i) as [t|]; [|done]. cbn in Hr.
    destruct (task_step ev t); [|done]. by injection Hr as <-.
Qed.

Lemma dead_main k ev p p' :
  px_ok p -> px_phase p = Waiting -> (forall i, ev = NextFromSlim -> next_item p = Some (Ok i) -> item_ok i) ->
  main_turn fuel ev p = Done p' -> dead k p ->
  px_phase p' = Stopped \/ (dead k p' /\ px_connections p' !! k = px_connections p !! k).
Proof.
  intros Hok Hp Hitem Hr (Hc&Ht&He).
  assert (Hleave : forall d, leave d p = Done p' -> px_phase p' = Stopped).
  { intros d. unfold leave. destruct d; [|done]. by intros [= <-]. }
  destruct ev as [|d| |d]; cbn in Hr; [|left; by eapply Hleave| |left; by eapply Hleave]; right.
  - destruct (next_item p) as [[i|e]|] eqn:Hi; [| |]; [|by injection Hr as <-..].
    specialize (Hitem i eq_refl eq_refl). cbn in Hr.
    destruct (is_publish (sm_message i)) as [[|]|]; cbn in Hr; [|by injection Hr as <-|done].
    destruct (get_source (sm_message i)) as [src|] eqn:Hsrc; cbn in Hr; [|done].
    destruct (item_key i src Hitem Hsrc) as [_ Hik].
    destruct (px_connections p !! session_key (mkSessionId src (in_id (sm_info i)))) as [[sid j]|] eqn:Hcon.
    { by injection Hr as <-. }
    destruct (unwrap_payload (sm_message i)) as [b|]; cbn in Hr; [|done].
    destruct (request_method b) as [method|]; [|by injection Hr as <-]. case_decide; injection Hr as <-; [|done].
    split; [|done]. split; [done|]. split; [|done]. intros j t. cbn. rewrite lookup_insert_Some.
    intros [[_ <-]|[_ Hj]] Hk; [|by apply (Ht j)]. unfold task_key in Hk. cbn in Hk. rewrite Hik in Hk.
    injection Hk as <-. destruct Hc. congruence.
  - destruct (px_queue p) as [|n q] eqn:E; [injection Hr as <-; split; [|done]; split; [done|]; by rewrite E|].
    rewrite errs_cons in He. case_decide as Hn; [lia|].
    assert (Hd : dead k (with_queue q p)) by done.
    destruct n as [[info msg]|info]; cbn in Hr.
    + destruct (in_message_source info) as [src|], (in_input_connection info) as [conn|]; try by injection Hr as <-.
      destruct (publish_to _ _ _ _ _ _ _ _) as [[s r]|]; cbn in Hr; [|done]. by injection Hr as <-.
    + destruct (in_message_source info) as [src|] eqn:Hs; injection Hr as <-; [|done].
      assert (Hne : session_key (mkSessionId src (in_id info)) <> k).
      { intros <-. apply Hn. cbn. unfold info_key. by rewrite Hs. }
      unfold remove_connection. cbn [with_queue px_connections].
      destruct (px_connections p !! session_key (mkSessionId src (in_id info))) as [[sid i]|]; [|done].
      split; [|cbn; by rewrite lookup_delete_ne]. split; [cbn; by rewrite lookup_delete_ne|]. split; [|done].
      intros j t Hj Hk. cbn in Hj. destruct (decide (i = j)) as [<-|Hij].
      * rewrite lookup_alter_eq in Hj. destruct (px_tasks p !! i) as [u|] eqn:Hu; [|done]. injection Hj as <-.
        by apply (Ht i u Hu).
      * rewrite lookup_alter_ne in Hj by done. by apply (Ht j).
Qed.

Lemma dead_step k p p' :
  px_ok p -> px_phase p <> Stopped -> px_step fuel p p' -> dead k p ->
  px_phase p' = Stopped \/ (dead k p' /\ px_connections p' !! k = px_connections p !! k).
Proof.
  intros Hok Hns Hst Hd. destruct Hst as [ev p p' Hw Hi Hr|p p' Hr|i p p' Hr|i ev p p' Hr|p s].
  - by eapply dead_main.
  - right. unfold send_step in Hr. destruct (px_phase p) as [|i m store|] eqn:Hp; [done| |done].
    destruct (ok_send _ Hok _ _ _ Hp) as (t&k0&Hi&Hk0&_&_&Hstore). rewrite Hi in Hr. cbn in Hr. fold (stored store i p) in Hr.
    destruct Hd as ([x Hc]&Ht&He).
    assert (Hcon : stored store i p !! k = px_connections p !! k).
    { destruct store as [sid|]; [|done]. destruct Hstore as [<- Hnone]. cbn [stored].
      rewrite hm_insert_session by done. rewrite lookup_insert_ne; [done|]. congruence. }
    assert (Hgo : forall ts, (forall j u, ts !! j = Some u -> task_key u = Some k -> tk_phase u = Ended) ->
      let p1 := with_phase Waiting (with_connections (stored store i p) (with_tasks ts p)) in
      dead k p1 /\ px_connections p1 !! k = px_connections p !! k).
    { intros ts Hts p1. split; [|exact Hcon]. split; [|done]. change (is_Some (stored store i p !! k)).
      rewrite Hcon. by eexists. }
    destruct (tk_phase t) eqn:Hph; [..|injection Hr as <-; by apply (Hgo (px_tasks p))];
      (case_decide; [|done]; injection Hr as <-; apply Hgo; intros j u; rewrite lookup_insert_Some;
       intros [[<- <-]|[_ Hj]] Hk; [rewrite (Ht i t Hi Hk) in Hph; done|by apply (Ht j)]).
  - right. unfold notice_step in Hr. destruct (px_tasks p !! i) as [t|] eqn:Hi; [|done]. cbn in Hr.
    destruct (tk_phase t) as [| |n last|] eqn:Hph; try done. destruct Hd as (Hc&Ht&He).
    destruct (to_notice t (ok_tasks _ Hok i t Hi) n last Hph) as [Hn _].
    assert (Hne : task_key t <> Some k) by (intros E; by rewrite (Ht i t Hi E) in Hph).
    destruct (px_phase p) eqn:Hp; [| |done]; (case_decide; [|done]; injection Hr as <-; split; [|done]; split; [done|split]).
    1,3: intros j u; cbn; rewrite lookup_insert_Some; intros [[<- <-]|[_ Hj]] Hk; [|by apply (Ht j)]; by destruct last.
    all: cbn [with_queue px_queue]; rewrite errs_app, He; case_decide as Herr; [|done]; exfalso; apply Hne;
      destruct n as [[]|info]; [done|]; cbn in Hn, Herr; by subst info.
  - right. unfold session_step in Hr. destruct (px_tasks p !! i) as [t|] eqn:Hi; [|done]. cbn in Hr.
    destruct (task_step ev t) as [t'|] eqn:Hts; [|done]. injection Hr as <-.
    destruct (task_step_ok ev t t' (ok_tasks _ Hok i t Hi) Hts) as (_&[Hinfo _]&Ha). destruct Hd as (Hc&Ht&He).
    split; [|done]. split; [done|split; [|done]]. intros j u. cbn. rewrite lookup_insert_Some.
    intros [[<- <-]|[_ Hj]] Hk; [|by apply (Ht j)]. exfalso. apply Ha, (Ht i t Hi). unfold task_key in *. by rewrite <- Hinfo.
  - by right.
Qed.

Lemma stopped_forever p p' : px_phase p = Stopped -> rtc (px_step fuel) p p' -> px_phase p' = Stopped.
Proof. intros Hp Hr. induction Hr as [p|p p1 p' Hst _ IH]; [done|]. by apply IH, (stopped_stays p). Qed.

Lemma dead_stays k p p' :
  rtc (px_step fuel) p p' -> px_ok p -> px_phase p <> Stopped -> dead k p ->
  px_phase p' = Stopped \/ (dead k p' /\ px_connections p' !! k = px_connections p !! k).
Proof.
  intros Hr. induction Hr as [p|p p1 p' Hst Hr IH]; intros Hok Hns Hd; [by right|].
  destruct (dead_step k p p1 Hok Hns Hst Hd) as [Hs|[Hd1 Hc1]].
  { left. by apply (stopped_forever p1). }
  destruct (px_phase p1) as [|i m store|] eqn:Hp1; [| |left; by apply (stopped_forever p1)];
    rewrite <- Hc1; (apply IH; [by apply (px_step_ok fuel p)|done|done]).
Qed.
End dead.

(** A session whose task ends without telling the proxy is lost. When the
    connection to the MCP server cannot be made, or the task panics, the entry of
    the session stays: as long as the proxy runs no task serves that session
    again, whatever the client sends, a new initialization included. *)
Theorem dead_session_sticks `{Rmcp, Hasher, HashIter, Transport, Telemetry, ErrorText, Rng, DebugAssertions,
    UnicodeTables, StatusText} {G : GrpcConfig} fuel p0 p p1 p' k sid i ev t :
  initial p0 -> rtc (px_step fuel) p0 p -> px_phase p <> Stopped ->
  px_connections p !! k = Some (sid, i) -> session_step i ev p = Some p1 ->
  px_tasks p1 !! i = Some t -> tk_phase t = Ended -> rtc (px_step fuel) p1 p' ->
  px_phase p' = Stopped \/
  (px_connections p' !! k = Some (sid, i) /\
   forall j u, px_tasks p' !! j = Some u -> task_key u = Some k -> tk_phase u = Ended).
Proof.
  intros Hi Hr Hns Hc Hst Ht Hend Hr'. pose proof (px_reached_ok fuel p0 p Hi Hr) as Hok.
  pose proof (session_step_ok i ev p p1 Hok Hst) as Hok1.
  destruct (ok_conn _ Hok _ _ _ Hc) as (_&t0&Ht0&Hk&_). unfold session_step in Hst. rewrite Ht0 in Hst. cbn in Hst.
  destruct (task_step ev t0) as [t1|] eqn:Hts; [|done]. injection Hst as <-. cbn in Ht. rewrite lookup_insert_eq in Ht.
  injection Ht as ->. destruct (task_step_ok ev t0 t (ok_tasks _ Hok i t0 Ht0) Hts) as (_&_&Ha).
  assert (Hd : dead k (with_tasks (<[i := t]> (px_tasks p)) p)).
  { split; [by eexists|]. split.
    - intros j u. cbn. rewrite lookup_insert_Some. intros [[_ <-]|[Hne Hj]] Hu; [done|].
      destruct (tk_phase u) eqn:Hph; [exfalso..|done];
        (apply Hne, (owner_unique p k i j Hok); [by left; exists sid|];
         apply (ok_owner _ Hok Hns j u k Hj Hu); unfold active; by rewrite Hph).
    - cbn [with_tasks px_queue]. destruct (ok_errs _ Hok k) as [Hle Hone].
      destruct (decide (errs k (px_queue p) = 1)) as [E|]; [|lia].
      destruct (Hone E) as [_ Hall]. by destruct (Ha (Hall i t0 Ht0 Hk)). }
  destruct (dead_stays fuel k _ p' Hr' Hok1 Hns Hd) as [Hs|[[_ [Hall _]] Hc']]; [by left|right].
  split; [by rewrite Hc'|done].
Qed.

(** C30: The two bounded channels between the main loop and a task can block each
    other. When the loop waits for room in the channel of a task that waits for
    room in the loop's channel, it waits for good: in every state reached from
    there the loop is at the same message, the task at the same notice, and
    nothing of what waits in either channel is read; no session is served any
    more. *)
Theorem proxy_deadlock `{Rmcp, Hasher, HashIter, Transport, Telemetry, ErrorText, Rng, DebugAssertions,
    UnicodeTables, StatusText} {G : GrpcConfig} fuel p p' i m store t n last :
  px_phase p = Sending i m store -> px_tasks p !! i = Some t -> tk_phase t = Notifying n last ->
  CHANNEL <= length (tk_inbox t) -> CHANNEL <= length (px_queue p) ->
  rtc (px_step fuel) p p' ->
  px_phase p' = Sending i m store /\ px_tasks p' !! i = Some t /\ px_queue p' = px_queue p /\ px_read p' = px_read p.
Proof.
  intros Hp Hi Hph Hin Hq Hr. revert Hp Hi Hq. induction Hr as [p|p p1 p' Hst _ IH]; intros Hp Hi Hq; [done|].
  enough (Hs : px_phase p1 = px_phase p /\ px_tasks p1 !! i = Some t /\ px_queue p1 = px_queue p /\ px_read p1 = px_read p).
  { destruct Hs as (Hs1&Hs2&Hs3&Hs4). rewrite <- Hs3, <- Hs4. apply IH; [congruence|done|by rewrite Hs3]. }
  clear IH. destruct Hst as [ev p p1 Hw _ _|p p1 Hr|j p p1 Hr|j ev p p1 Hr|p s]; [congruence| | | |done].
  - unfold send_step in Hr. rewrite Hp in Hr. rewrite Hi in Hr. cbn in Hr. rewrite Hph in Hr.
    rewrite decide_False in Hr by lia. done.
  - unfold notice_step in Hr. destruct (px_tasks p !! j) as [u|]; [|done]. cbn in Hr. destruct (tk_phase u); try done.
    rewrite Hp in Hr. rewrite decide_False in Hr by lia. done.
  - unfold session_step in Hr. destruct (px_tasks p !! j) as [u|] eqn:Hj; [|done]. cbn in Hr.
    destruct (task_step ev u) as [u'|] eqn:Hu; [|done]. injection Hr as <-. split; [done|]. split; [|done].
    cbn. rewrite lookup_insert_ne; [done|]. intros ->. rewrite Hi in Hj. injection Hj as <-.
    unfold task_step in Hu. by rewrite Hph in Hu.
Qed.

(** Pings tell live clients from dead ones. Three ticks of a session's timer
    send three pings with their ids pending, and the fourth ends the session, if
    no answer came; the answer to any pending ping forgets all of them and is not
    sent to the MCP server. *)
Theorem ping_protocol `{Rmcp} t r1 r2 r3 r4 v1 v2 v3 :
  tk_phase t = Selecting -> tk_pending t = ∅ -> NoDup [r1; r2; r3] ->
  server_to_vec (ping_request r1) = Ok v1 -> server_to_vec (ping_request r2) = Ok v2 ->
  server_to_vec (ping_request r3) = Ok v3 ->
  let tick r := task_step (Selected (FromTimer (Some r))) in
  let waiting s := set_phase Selecting (set_pending s t) in
  let pinged v s := set_phase (Notifying (Ok (tk_info t, v)) false) (set_pending s t) in
  tick r1 (waiting ∅) = Some (pinged v1 ({[r1]} ∪ ∅)) /\
  tick r2 (waiting ({[r1]} ∪ ∅)) = Some (pinged v2 ({[r2]} ∪ ({[r1]} ∪ ∅))) /\
  tick r3 (waiting ({[r2]} ∪ ({[r1]} ∪ ∅))) = Some (pinged v3 ({[r3]} ∪ ({[r2]} ∪ ({[r1]} ∪ ∅)))) /\
  tick r4 (waiting ({[r3]} ∪ ({[r2]} ∪ ({[r1]} ∪ ∅)))) =
    Some (stop_session (waiting ({[r3]} ∪ ({[r2]} ∪ ({[r1]} ∪ ∅))))) /\
  forall s m rest c r sink_ok, r ∈ s -> tk_inbox t = m :: rest -> parsed m = Some c ->
    response_of c = Some (Number r, true) ->
    exists t', task_step (Selected (FromSlim sink_ok)) (waiting s) = Some t' /\ tk_pending t' = ∅ /\
      tk_sink t' = tk_sink t /\ tk_inbox t' = rest /\ tk_phase t' = Selecting.
Proof.
  intros Hph Hpend Hnd Hv1 Hv2 Hv3 tick waiting pinged.
  assert (Htick : forall r v s, size s < MAX_PENDING_PINGS -> server_to_vec (ping_request r) = Ok v ->
    tick r (waiting s) = Some (pinged v ({[r]} ∪ s))).
  { intros r v s Hs Hv. unfold tick, waiting, task_step. cbn. rewrite decide_False by lia. by rewrite Hv. }
  apply NoDup_cons in Hnd as [Hn1 Hnd]. apply NoDup_cons in Hnd as [Hn2 _].
  assert (Hs1 : size ({[r1]} ∪ ∅ : gset N) = 1) by (rewrite size_union by set_solver; rewrite size_singleton, size_empty; lia).
  assert (Hs2 : size ({[r2]} ∪ ({[r1]} ∪ ∅) : gset N) = 2).
  { rewrite size_union by set_solver. rewrite Hs1, size_singleton. lia. }
  assert (Hs3 : size ({[r3]} ∪ ({[r2]} ∪ ({[r1]} ∪ ∅)) : gset N) = 3).
  { rewrite size_union by set_solver. rewrite Hs2, size_singleton. lia. }
  unfold MAX_PENDING_PINGS in *. split; [apply Htick; [rewrite size_empty; lia|done]|].
  split; [apply Htick; [lia|done]|]. split; [apply Htick; [lia|done]|]. split.
  { unfold tick, task_step. cbn [waiting set_phase tk_phase session_turn tk_pending set_pending].
    rewrite decide_True; [done|]. unfold MAX_PENDING_PINGS. lia. }
  intros s m rest c r sink_ok Hr Hin Hc Hresp. unfold waiting, task_step. cbn. rewrite Hin.
  unfold from_client. unfold parsed in Hc. destruct (unwrap_payload m) as [payload|]; [|done]. cbn.
  destruct (client_from_slice payload) as [c'|]; [|done]. injection Hc as ->. rewrite Hresp, decide_True by done.
  eexists. split; [done|]. cbn. by rewrite app_nil_r.
Qed.

(** The main loop returns from every turn on a delivered message that has
    content and on every notice of a task, when the service satisfies its
    invariant and drains in time. A publication without content, of a client that
    has no session yet, panics and ends the proxy with all its sessions. *)
Theorem proxy_loop_returns `{Hasher, BuildProfile, HashIter, Transport, Telemetry, ErrorText, Rng, DebugAssertions,
    Logging, UnicodeTables, StatusText, Rmcp} {G : GrpcConfig} fuel p :
  svc_ok (px_service p) ->
  (forall ev, (ev = NextFromSlim \/ ev = NextFromSession \/ ev = Shutdown true \/ ev = EndOfSlim true) ->
     (forall i, next_item p = Some (Ok i) -> item_ok i /\ exists b, unwrap_payload (sm_message i) = Done b) ->
     exists p', main_turn fuel ev p = Done p' /\ svc_ok (px_service p')) /\
  (forall i publish src, next_item p = Some (Ok i) -> pm_message_type (sm_message i) = Some (Publish publish) ->
     pu_msg publish = None -> get_source (sm_message i) = Done src ->
     px_connections p !! session_key (mkSessionId src (in_id (sm_info i))) = None ->
     panicked (main_turn fuel NextFromSlim p)).
Proof.
  intros Hs. split.
  - intros ev Hev Hitem. destruct Hev as [->|[->|[->| ->]]]; [| |by eexists..].
    + cbn. destruct (next_item p) as [[i|e]|]; [|by eexists..]. destruct (Hitem i eq_refl) as [[Hsome _] [b Hpay]]. cbn.
      assert (Hinfo : exists publish src, pm_message_type (sm_message i) = Some (Publish publish) /\
                        get_source (sm_message i) = Done src).
      { unfold msg_key, Info_from in Hsome. destruct (get_session_header (sm_message i)) as [sh|] eqn:Hsh; cbn in Hsome; [|by destruct Hsome].
        destruct (get_slim_header (sm_message i)) as [h|]; cbn in Hsome; [|by destruct Hsome].
        destruct (get_source (sm_message i)) as [src|]; cbn in Hsome; [|by destruct Hsome].
        unfold get_session_header in Hsh. destruct (pm_message_type (sm_message i)) as [[| |publish]|]; try done. by eexists _, _. }
      destruct Hinfo as (publish&src&Hty&Hsrc). unfold is_publish, get_type. rewrite Hty. cbn. rewrite Hsrc. cbn.
      destruct (px_connections p !! _) as [[sid j]|]; [by eexists|].
      rewrite Hpay. cbn. destruct (request_method b); [|by eexists].
      case_decide; by eexists.
    + cbn. destruct (px_queue p) as [|n q]; [by eexists|]. destruct n as [[info msg]|info]; cbn.
      * destruct (in_message_source info) as [src|], (in_input_connection info) as [conn|]; try by eexists.
        destruct (safe_send_message fuel (px_name p)
          (new_publish (px_name p) (ag_agent_type src) (Some (ag_agent_id src))
             (Some (with_forward_to SlimHeaderFlags_default conn)) "msg" msg) (Some info) _ Hs I) as (s&r&Hr&Hs').
        unfold publish_to, publish_with_flags. rewrite Hr. cbn. by eexists.
      * destruct (in_message_source info) as [src|]; [|by eexists]. eexists. split; [done|].
        unfold remove_connection. cbn. by destruct (px_connections p !! _) as [[]|].
  - intros i publish src Hi Hty Hnone Hsrc Hc. cbn. rewrite Hi. cbn. unfold is_publish, get_type. rewrite Hty. cbn.
    rewrite Hsrc. cbn. rewrite Hc. unfold unwrap_payload, get_payload. rewrite Hty. cbn. rewrite Hnone. by eexists.
Qed.

(** ** A concrete run *)
Module McpDemo.
Import ServiceDemo.
#[local] Existing Instances toy_hasher checked_build hash_iter_sorted demo_transport demo_errors demo_rng demo_checks
  ascii_tables quiet_telemetry quiet_logging plain_status demo_grpc.
(** A message is its bytes: [i] asks for a session, [p] followed by a number
    answers a ping; the server's messages are numbers. *)
Definition toy_rmcp : Rmcp :=
  {| ClientMessage := list Byte.byte;
     client_from_slice b := Ok b;
     response_of b := match b with [Byte.x70; n] => Some (Number (Byte.to_N n), true) | _ => None end;
     ServerMessage := N;
     server_to_vec n := Ok (option_list (Byte.of_N n));
     ping_request n := n;
     request_method b := match b with Byte.x69 :: _ => Ok "initialize"%string | _ => Ok "other"%string end |}.
#[local] Existing Instance toy_rmcp.

Definition from_bob (b : list Byte.byte) : ProtoMessage :=
  new_publish bob (ag_agent_type alice) (Some (ag_agent_id alice)) (Some (with_incoming_conn SlimHeaderFlags_default 3))
    "msg" b.
Definition info_of (m : ProtoMessage) : Info := match Info_from m with Done i => i | Panic _ => Info_new 0 end.
Definition item (b : list Byte.byte) : SessionMessage := mkSessionMessage (from_bob b) (info_of (from_bob b)).
(** The agent's channel: an initialization and many requests. *)
Definition app_with (l : list SessionMessage) : App :=
  mkApp (SessionLayer_new alice None 0)
    (mkSessionIo (mkOutbox true []) (mkOutbox true (Ok <$> l)) TimerSystem_empty 0) 0 0 Looping 0 0.
Definition proxy (l : list SessionMessage) : Proxy :=
  mkProxy alice (with_apps (Service_new id) {[ 0%N := app_with l ]}) 0 0 ∅ ∅ [] Waiting 0.
Lemma proxy_initial l : initial (proxy l).
Proof. by split. Qed.

(** A schedule, executed. *)
Inductive Cmd : Type := Main (ev : MainEvent) | Send | Notify (i : N) | Task (i : N) (ev : TaskEvent).
Definition item_okb (p : Proxy) : bool :=
  match next_item p with
  | Some (Ok i) => bool_decide (is_Some (msg_key (sm_message i))) && bool_decide (msg_key (sm_message i) = info_key (sm_info i))
  | _ => true
  end.
Definition exec1 (c : Cmd) (p : Proxy) : option Proxy :=
  match c with
  | Main ev =>
      match px_phase p with
      | Waiting => if item_okb p then match main_turn 5 ev p with Done p => Some p | Panic _ => None end else None
      | _ => None
      end
  | Send => send_step p
  | Notify i => notice_step i p
  | Task i ev => session_step i ev p
  end.
Fixpoint exec (l : list Cmd) (p : Proxy) : option Proxy :=
  match l with [] => Some p | c :: l => p ← exec1 c p; exec l p end.
Lemma exec1_step c p p' : exec1 c p = Some p' -> px_step 5 p p'.
Proof.
  destruct c as [ev| |i|i ev]; cbn; [|apply StepSend|apply StepNotice|apply StepTask].
  destruct (px_phase p) eqn:Hp; [|done..]. destruct (item_okb p) eqn:Hi; [|done].
  destruct (main_turn 5 ev p) as [p1|] eqn:Hr; [|done]. intros [= <-]. apply (StepMain 5 ev p); [done| |done].
  intros i _ Hn. unfold item_okb in Hi. rewrite Hn in Hi. apply andb_true_iff in Hi as [Hi1 Hi2].
  split; by eapply bool_decide_eq_true_1.
Qed.
Lemma exec_steps l p p' : exec l p = Some p' -> rtc (px_step 5) p p'.
Proof.
  revert p. induction l as [|c l IH]; intros p; cbn; [intros [= <-]; constructor|].
  destruct (exec1 c p) as [p1|] eqn:Hc; [|done]. cbn. intros Hl. eapply rtc_l; [by eapply exec1_step|by apply IH].
Qed.
Definition after_cmds (l : list Cmd) (p : Proxy) : Proxy := default p (exec l p).
Lemma after_steps l p : bool_decide (is_Some (exec l p)) = true -> rtc (px_step 5) p (after_cmds l p).
Proof.
  intros Hl%bool_decide_eq_true_1. destruct Hl as [p' Hl]. unfold after_cmds. rewrite Hl. by eapply exec_steps.
Qed.

(** Bob's session is opened and its task connected. *)
Definition opening (ok : bool) : list Cmd := [Main NextFromSlim; Send; Task 0 (SseStarted ok)].
Definition busy : Proxy := proxy (item [Byte.x69] :: replicate 128 (item [Byte.x71])).
Definition opened : Proxy := after_cmds (opening true) busy.
Lemma opened_reached : rtc (px_step 5) busy opened.
Proof. apply (after_steps (opening true) busy). vm_compute. reflexivity. Qed.
Definition bob_session : SessionId :=
  mkSessionId (match get_source (from_bob []) with Done a => a | Panic _ => bob end) 0.
Definition bob_key : ((N * N * N) * N) * N := session_key bob_session.

(** The MCP server cannot be reached. *)
Definition twice : Proxy := proxy [item [Byte.x69]; item [Byte.x69]].
Definition stored_session : Proxy := after_cmds [Main NextFromSlim; Send] twice.
Definition failed : Proxy := after_cmds (opening false) twice.
Definition retried : Proxy := after_cmds [Main NextFromSlim; Send] failed.
Lemma dead_session_sticks_witness :
  px_phase retried = Waiting /\ px_read retried = 2 /\
  (px_phase retried = Stopped \/
   (px_connections retried !! bob_key = Some (bob_session, 0%N) /\
    forall j u, px_tasks retried !! j = Some u -> task_key u = Some bob_key -> tk_phase u = Ended)).
Proof.
  split; [vm_compute; reflexivity|]. split; [vm_compute; reflexivity|].
  assert (Hsome : bool_decide (is_Some (px_tasks failed !! 0%N)) = true) by (vm_compute; reflexivity).
  destruct (px_tasks failed !! 0%N) as [t|] eqn:Ht; [|vm_compute in Hsome; discriminate Hsome].
  apply (dead_session_sticks 5 twice stored_session failed retried bob_key
    bob_session 0%N (SseStarted false) t).
  - apply proxy_initial.
  - apply (after_steps [Main NextFromSlim; Send] twice). vm_compute. reflexivity.
  - vm_compute. discriminate.
  - vm_compute. reflexivity.
  - vm_compute. reflexivity.
  - exact Ht.
  - assert (Hph : (tk_phase <$> px_tasks failed !! 0%N) = Some Ended) by (vm_compute; reflexivity).
    rewrite Ht in Hph. by injection Hph.
  - apply (after_steps [Main NextFromSlim; Send] failed). vm_compute. reflexivity.
Defined.

(** The MCP server sends faster than the loop reads, and Bob faster than the task
    does: both channels are full. *)
Definition flood : list Cmd :=
  (concat (replicate 128 [Task 0 (Selected (FromMcp (Some 7%N))); Notify 0]) ++ [Task 0 (Selected (FromMcp (Some 7%N)))] ++
   concat (replicate 127 [Main NextFromSlim; Send]) ++ [Main NextFromSlim])%list.
Definition flooded : Proxy := after_cmds flood opened.
Definition blocked (p : Proxy) : bool :=
  match px_phase p, px_tasks p !! 0%N with
  | Sending 0 _ None, Some t =>
      match tk_phase t with Notifying _ _ => Nat.eqb (length (tk_inbox t)) 128 | _ => false end
  | _, _ => false
  end.
Lemma blocked_phases p : blocked p = true -> exists m t n last,
  px_phase p = Sending 0 m None /\ px_tasks p !! 0%N = Some t /\ tk_phase t = Notifying n last /\ length (tk_inbox t) = 128.
Proof.
  unfold blocked. destruct (px_phase p) as [|[|] m [|]|]; try done. destruct (px_tasks p !! 0%N) as [t|]; [|done].
  destruct (tk_phase t) as [| |n last|] eqn:Hph; try done. intros Hl%Nat.eqb_eq. by exists m, t, n, last.
Qed.
Lemma proxy_deadlock_witness :
  rtc (px_step 5) busy flooded /\
  forall p', rtc (px_step 5) flooded p' -> px_read p' = 129 /\ length (px_queue p') = 128.
Proof.
  split.
  { etransitivity; [exact opened_reached|]. apply (after_steps flood opened). vm_compute. reflexivity. }
  intros p' Hr.
  assert (Hb : blocked flooded = true) by (vm_compute; reflexivity).
  destruct (blocked_phases flooded Hb) as (m&t&n&last&Hp&Ht&Hph&Hlen).
  assert (Hq : length (px_queue flooded) = 128) by (vm_compute; reflexivity).
  assert (Hrd : px_read flooded = 129) by (vm_compute; reflexivity).
  destruct (proxy_deadlock 5 flooded p' 0%N m None t n last Hp Ht Hph) as (_&_&Hq'&Hr'); [unfold CHANNEL; lia..|exact Hr|].
  split; congruence.
Defined.

Definition idle : SessionTask :=
  mkSessionTask (info_of (from_bob [])) Selecting [from_bob [Byte.x70; Byte.x05]] true ∅ true true [] [].
Lemma ping_protocol_witness :
  exists t', task_step (Selected (FromSlim true)) (set_phase Selecting (set_pending {[5%N]} idle)) = Some t' /\
    tk_pending t' = ∅ /\ tk_sink t' = [].
Proof.
  destruct (ping_protocol idle 5%N 6%N 7%N 8%N [Byte.x05] [Byte.x06] [Byte.x07]) as (_&_&_&_&Hans);
    [reflexivity|reflexivity|apply (bool_decide_unpack _); vm_compute; exact I|reflexivity|reflexivity|reflexivity|].
  destruct (Hans {[5%N]} (from_bob [Byte.x70; Byte.x05]) [] [Byte.x70; Byte.x05] 5%N true) as (t'&Hs&Hp&Hk&_);
    [set_solver|reflexivity..|]. exists t'. split; [exact Hs|]. exact (conj Hp Hk).
Defined.

Definition sparse : Proxy :=
  mkProxy alice (Service_new id) 0 0 ∅ ∅ [Err (info_of (from_bob []))] Waiting 0.
Lemma proxy_loop_returns_witness :
  exists p', main_turn 5 NextFromSession sparse = Done p' /\ svc_ok (px_service p').
Proof.
  destruct (proxy_loop_returns 5 sparse (svc_ok_new id)) as [Hret _].
  apply Hret; [right; left; reflexivity|]. intros i Hi. exfalso. revert Hi. vm_compute. discriminate.
Defined.
End McpDemo.
