(* ===== verification/TableInterface.v ===== *)
(** * The subscription table as an interface

    [datapath/src/tables.rs]: the trait [SubscriptionTable] as a class, what an
    implementation promises as a class of laws, and two implementations: the one
    of the data plane ([SubscriptionTable]) and a set of subscriptions, searched
    from end to end. What is proved from the laws holds of both, so that the
    table with its indices and reference counts can be replaced by the set. *)
From stdpp Require Import base list gmap strings numbers option sets.
From S2P Require Import Prelude Proto Encoder Pool SubscriptionTable SubscriptionTableProofs SubscriptionTableSpec.

(** ** The trait *)
Class SubscriptionTableTrait (T : Type) : Type := {
  tr_for_each : T -> list (AgentType * N * list N * list N);
  tr_add_subscription : T -> AgentType -> option N -> N -> bool -> panics (T * Result unit SubscriptionTableError);
  tr_remove_subscription : T -> AgentType -> option N -> N -> bool -> panics (T * Result unit SubscriptionTableError);
  tr_remove_connection : T -> N -> bool -> panics (T * Result unit SubscriptionTableError);
  tr_match_one : T -> AgentType -> option N -> N -> nat -> nat -> panics (Result N SubscriptionTableError);
  tr_match_all : T -> AgentType -> option N -> N -> panics (Result (list N) SubscriptionTableError);
}.

Section running.
Context `{SubscriptionTableTrait T}.
Definition tr_op (t : T) (o : sub_op) : panics (T * Result unit SubscriptionTableError) :=
  match o with
  | OpSubscribe ty uid k b => tr_add_subscription t ty uid k b
  | OpUnsubscribe ty uid k b => tr_remove_subscription t ty uid k b
  | OpDisconnect k b => tr_remove_connection t k b
  end.
Fixpoint tr_ops (t : T) (ops : list sub_op) : panics (T * list (Result unit SubscriptionTableError)) :=
  match ops with
  | [] => Done (t, [])
  | o :: ops =>
      '(t, res) ← tr_op t o;
      '(t, l) ← tr_ops t ops;
      Done (t, res :: l)
  end.
End running.

(** ** Its laws

    What a table promises to the forwarder: it stands for a set of
    subscriptions, and matching answers from that set. *)
Definition all_matches (S : Subs) (ty : AgentType) (id : option N) (incoming : N)
    (res : Result (list N) SubscriptionTableError) : Prop :=
  match res with
  | Ok out => out <> [] /\ NoDup out /\
      exists b, (b = false -> forall k, ~ target S ty id incoming true k) /\
        forall k, k ∈ out <-> target S ty id incoming b k
  | Err e => Err e = no_match (A:=unit) ty id /\ forall b k, ~ target S ty id incoming b k
  end.
Class SubscriptionTableLaws (T : Type) `{SubscriptionTableTrait T} : Type := {
  tr_default : T;
  tr_represents : T -> Subs -> Prop;
  tr_represents_default : tr_represents tr_default ∅;
  tr_op_refines : forall t S o, tr_represents t S -> op_ok S o ->
    exists t', tr_op t o = Done (t', (spec_op S o).2) /\ tr_represents t' (spec_op S o).1;
  tr_match_all_exact : forall t S ty id incoming, tr_represents t S ->
    exists res, tr_match_all t ty id incoming = Done res /\ all_matches S ty id incoming res;
  tr_match_one_sound : forall t S ty id incoming r1 r2, tr_represents t S ->
    exists res, tr_match_one t ty id incoming r1 r2 = Done res /\
      match res with
      | Ok k => k <> incoming /\ exists b i, ((type_key ty, i), b, k) ∈ S
      | Err e => Err e = no_match (A:=unit) ty id
      end;
}.

(** ** From the laws *)
Section client.
Context `{SubscriptionTableLaws T}.
Lemma tr_ops_refine ops : forall t S, tr_represents t S -> ops_ok S ops ->
  exists t', tr_ops t ops = Done (t', (spec_ops S ops).2) /\ tr_represents t' (spec_ops S ops).1.
Proof.
  induction ops as [|o ops IH]; intros t S Hrep Hok; [by exists t|]. destruct Hok as [Ho Hok].
  destruct (tr_op_refines t S o Hrep Ho) as (t1&Hr&Hrep1).
  destruct (IH t1 _ Hrep1 Hok) as (t'&Hrs&Hrep'). exists t'. cbn. rewrite Hr. cbn. rewrite Hrs. cbn.
  destruct (spec_op S o) as [S1 b]. cbn in *. by destruct (spec_ops S1 ops).
Qed.
End client.

(** The answers to a match are the same connections. *)
Definition same_answer (a b : Result (list N) SubscriptionTableError) : Prop :=
  match a, b with
  | Ok l, Ok l' => l ≡ₚ l'
  | Err e, Err e' => e = e'
  | _, _ => False
  end.
Lemma all_matches_same S ty id incoming a b :
  all_matches S ty id incoming a -> all_matches S ty id incoming b -> same_answer a b.
Proof.
  assert (Hsome : forall (l : list N), l <> [] -> exists k, k ∈ l).
  { intros [|k l]; [done|]. intros _. exists k. by left. }
  destruct a as [l|e], b as [l'|e']; cbn.
  - intros (Hne&Hnd&b&Hb&Hin) (Hne'&Hnd'&b'&Hb'&Hin'). apply NoDup_Permutation; [done..|].
    destruct (Hsome l Hne) as [x Hx], (Hsome l' Hne') as [x' Hx'].
    intros k. rewrite Hin, Hin'. destruct b, b'; try done; exfalso.
    + by apply (Hb' eq_refl x), Hin.
    + by apply (Hb eq_refl x'), Hin'.
  - intros (Hne&_&b&_&Hin) [_ Hno]. destruct (Hsome l Hne) as [x Hx]. by apply (Hno b x), Hin.
  - intros [_ Hno] (Hne&_&b&_&Hin). destruct (Hsome l' Hne) as [x Hx]. by apply (Hno b x), Hin.
  - intros [He _] [He' _]. congruence.
Qed.
Lemma lawful_tables_agree {T1 T2} `{SubscriptionTableLaws T1, SubscriptionTableLaws T2} ops ty id incoming :
  ops_ok ∅ ops ->
  exists (t1 : T1) (t2 : T2) l a b,
    tr_ops tr_default ops = Done (t1, l) /\ tr_ops tr_default ops = Done (t2, l) /\
    tr_match_all t1 ty id incoming = Done a /\ tr_match_all t2 ty id incoming = Done b /\ same_answer a b.
Proof.
  intros Hok. destruct (tr_ops_refine (T:=T1) ops tr_default ∅ tr_represents_default Hok) as (t1&Hr1&Hrep1).
  destruct (tr_ops_refine (T:=T2) ops tr_default ∅ tr_represents_default Hok) as (t2&Hr2&Hrep2).
  destruct (tr_match_all_exact t1 _ ty id incoming Hrep1) as (a&Ha&Hma).
  destruct (tr_match_all_exact t2 _ ty id incoming Hrep2) as (b&Hb&Hmb).
  exists t1, t2, (spec_ops ∅ ops).2, a, b. do 4 (split; [done|]). by eapply all_matches_same.
Qed.

(** ** The data plane's table *)
#[export] Instance table_trait `{HashIter} : SubscriptionTableTrait SubscriptionTable := {|
  tr_for_each := SubscriptionTable_for_each;
  tr_add_subscription := add_subscription;
  tr_remove_subscription := fun t ty id k b => Done (remove_subscription t ty id k b);
  tr_remove_connection := fun t k b => Done (remove_connection t k b);
  tr_match_one := match_one;
  tr_match_all := match_all;
|}.
Lemma table_match_one_sound `{HashIter} t S ty id incoming r1 r2 :
  represents t S ->
  exists res, match_one t ty id incoming r1 r2 = Done res /\
    match res with
    | Ok k => k <> incoming /\ exists b i, ((type_key ty, i), b, k) ∈ S
    | Err e => Err e = no_match (A:=unit) ty id
    end.
Proof.
  intros Hrep. destruct (match_one_exact t S Hrep ty id incoming r1 r2) as (res&Hres&Hspec). exists res. split; [done|].
  destruct res as [k|e]; [|by destruct Hspec]. destruct Hspec as (Hk&b&Hb). split; [done|]. exists b.
  destruct Hb as [[_ Ht]|(i&_&_&Hall)].
  - destruct id as [i|]; [by exists i|done].
  - by apply Hall.
Qed.
#[export] Instance table_laws `{HashIter} : SubscriptionTableLaws SubscriptionTable := {|
  tr_default := SubscriptionTable_default;
  tr_represents := represents;
  tr_represents_default := represents_empty;
  tr_op_refines := fun t S o Hrep Hok => run_op_refines t S o Hrep Hok;
  tr_match_all_exact := fun t S ty id incoming Hrep => match_all_exact t S Hrep ty id incoming;
  tr_match_one_sound := table_match_one_sound;
|}.

(** ** A set of subscriptions *)
Record Reference : Type := mkReference { rf_subs : Subs }.
Definition rf_op (t : Reference) (o : sub_op) : panics (Reference * Result unit SubscriptionTableError) :=
  Done (mkReference (spec_op (rf_subs t) o).1, (spec_op (rf_subs t) o).2).
Definition is_target (ty : AgentType) (id : option N) (incoming : N) (b : bool) (e : AgentKey * bool * N) : Prop :=
  e.1.1.1 = type_key ty /\ match id with Some i => e.1.1.2 = i | None => True end /\ e.1.2 = b /\ e.2 <> incoming.
#[local] Instance is_target_dec ty id incoming b e : Decision (is_target ty id incoming b e).
Proof. unfold is_target. destruct id; apply _. Defined.
Definition rf_targets (t : Reference) (ty : AgentType) (id : option N) (incoming : N) (b : bool) : gset N :=
  set_map snd (filter (is_target ty id incoming b) (rf_subs t) : Subs).
Definition rf_match_all (t : Reference) (ty : AgentType) (id : option N) (incoming : N)
    : Result (list N) SubscriptionTableError :=
  match elements (rf_targets t ty id incoming true) with
  | [] =>
      match elements (rf_targets t ty id incoming false) with
      | [] => no_match ty id
      | l => Ok l
      end
  | l => Ok l
  end.
Definition rf_match_one (t : Reference) (ty : AgentType) (id : option N) (incoming : N)
    : Result N SubscriptionTableError :=
  match rf_match_all t ty id incoming with
  | Ok (k :: _) => Ok k
  | _ => no_match ty id
  end.
#[export] Instance reference_trait : SubscriptionTableTrait Reference := {|
  tr_for_each := fun t => (fun e => (mkAgentType e.1.1.1.1.1 e.1.1.1.1.2 e.1.1.1.2 None, e.1.1.2,
                                     if (e.1.2 : bool) then [e.2] else [], if (e.1.2 : bool) then [] else [e.2]))
                          <$> elements (rf_subs t);
  tr_add_subscription := fun t ty id k b => rf_op t (OpSubscribe ty id k b);
  tr_remove_subscription := fun t ty id k b => rf_op t (OpUnsubscribe ty id k b);
  tr_remove_connection := fun t k b => rf_op t (OpDisconnect k b);
  tr_match_one := fun t ty id incoming _ _ => Done (rf_match_one t ty id incoming);
  tr_match_all := fun t ty id incoming => Done (rf_match_all t ty id incoming);
|}.

Lemma rf_targets_spec t ty id incoming b k :
  k ∈ rf_targets t ty id incoming b <-> target (rf_subs t) ty id incoming b k.
Proof.
  unfold rf_targets, target. rewrite elem_of_map. split.
  - intros (e&->&[(Hty&Hid&Hb&Hk) Hin]%elem_of_filter). split; [done|]. destruct e as [[[tk i] b'] k']. cbn in *. subst.
    destruct id as [i'|]; [by subst|by exists i].
  - intros [Hk Hin]. assert (Hi : exists i, ((type_key ty, i), b, k) ∈ rf_subs t /\
      match id with Some i' => i = i' | None => True end) by (destruct id as [i|]; [by exists i|destruct Hin as [i Hin]; by exists i]).
    destruct Hi as (i&Hi&Hid). exists ((type_key ty, i), b, k). split; [done|]. by apply elem_of_filter.
Qed.
Lemma rf_match_all_exact t ty id incoming : all_matches (rf_subs t) ty id incoming (rf_match_all t ty id incoming).
Proof.
  unfold rf_match_all.
  assert (Hin : forall b k, k ∈ elements (rf_targets t ty id incoming b) <-> target (rf_subs t) ty id incoming b k).
  { intros b k. by rewrite elem_of_elements, rf_targets_spec. }
  pose proof (fun b => NoDup_elements (rf_targets t ty id incoming b)) as Hnd.
  assert (Hno : forall b, elements (rf_targets t ty id incoming b) = [] -> forall k, ~ target (rf_subs t) ty id incoming b k).
  { intros b E k Hk. apply Hin in Hk. rewrite E in Hk. by apply elem_of_nil in Hk. }
  destruct (elements (rf_targets t ty id incoming true)) as [|x l] eqn:Et.
  - destruct (elements (rf_targets t ty id incoming false)) as [|y l'] eqn:Ef; cbn.
    + split; [done|]. intros [] k; by apply Hno.
    + split; [done|]. rewrite <- Ef. split; [apply Hnd|]. exists false. split; [intros _; by apply Hno|apply Hin].
  - cbn. split; [done|]. rewrite <- Et. split; [apply Hnd|]. exists true. split; [done|apply Hin].
Qed.
Lemma rf_match_one_sound t ty id incoming :
  match rf_match_one t ty id incoming with
  | Ok k => k <> incoming /\ exists b i, ((type_key ty, i), b, k) ∈ rf_subs t
  | Err e => Err e = no_match (A:=unit) ty id
  end.
Proof.
  unfold rf_match_one. pose proof (rf_match_all_exact t ty id incoming) as Hall.
  destruct (rf_match_all t ty id incoming) as [[|k l]|e]; [done| |by destruct Hall].
  destruct Hall as (_&_&b&_&Hin). destruct (proj1 (Hin k)) as [Hk Ht]; [by left|]. split; [done|]. exists b.
  destruct id as [i|]; [by exists i|done].
Qed.
Lemma rf_op_refines t S o :
  rf_subs t = S -> op_ok S o ->
  exists t', tr_op t o = Done (t', (spec_op S o).2) /\ rf_subs t' = (spec_op S o).1.
Proof. intros <- _. by destruct o; eexists. Qed.
#[export] Instance reference_laws : SubscriptionTableLaws Reference := {|
  tr_default := mkReference ∅;
  tr_represents := fun t S => rf_subs t = S;
  tr_represents_default := eq_refl;
  tr_op_refines := rf_op_refines;
  tr_match_all_exact := fun t S ty id incoming Hrep =>
    ex_intro _ (rf_match_all t ty id incoming)
      (conj eq_refl (eq_ind _ (fun S => all_matches S ty id incoming _) (rf_match_all_exact t ty id incoming) _ Hrep));
  tr_match_one_sound := fun t S ty id incoming r1 r2 Hrep =>
    ex_intro _ (rf_match_one t ty id incoming)
      (conj eq_refl (eq_ind _ (fun S => match rf_match_one t ty id incoming with
         | Ok k => k <> incoming /\ exists b i, ((type_key ty, i), b, k) ∈ S
         | Err e => Err e = no_match (A:=unit) ty id end) (rf_match_one_sound t ty id incoming) _ Hrep));
|}.

(** The table of the data plane, with its pools, indices and reference
    counts, is equivalent to a set of subscriptions searched from end to end:
    after any sequence of operations that is [ops_ok] both gave the same results, and
    a match finds the same connections, or the same error. *)
Theorem table_equals_reference `{HashIter} ops ty id incoming :
  ops_ok ∅ ops ->
  exists (t : SubscriptionTable) (r : Reference) l a b,
    tr_ops SubscriptionTable_default ops = Done (t, l) /\ tr_ops (mkReference ∅) ops = Done (r, l) /\
    match_all t ty id incoming = Done a /\ rf_match_all r ty id incoming = b /\ same_answer a b.
Proof.
  intros Hok. destruct (lawful_tables_agree (T1:=SubscriptionTable) (T2:=Reference) ops ty id incoming Hok)
    as (t&r&l&a&b&Ht&Hr&Ha&Hb&Hs).
  exists t, r, l, a, b. split; [exact Ht|]. split; [exact Hr|]. split; [exact Ha|]. split; [|exact Hs]. by injection Hb.
Qed.

Lemma table_equals_reference_witness :
  exists (t : SubscriptionTable) (r : Reference) l a b,
    tr_ops (H:=table_trait (H:=hash_iter_sorted)) SubscriptionTable_default demo_ops = Done (t, l) /\
    tr_ops (mkReference ∅) demo_ops = Done (r, l) /\
    match_all (H:=hash_iter_sorted) t demo_type (Some 10%N) 3 = Done a /\ rf_match_all r demo_type (Some 10%N) 3 = b /\
    same_answer a b.
Proof.
  apply (table_equals_reference (H:=hash_iter_sorted) demo_ops demo_type (Some 10%N) 3%N).
  apply (bool_decide_unpack _). by vm_compute.
Defined.
