(* ===== verification/Workload.v ===== *)
(** * Workloads

    [testing/src/lib.rs] and [testing/src/bin/workload-gen.rs]: the program that
    draws a workload (subscriptions and publications, every publication with the
    subscribers that may receive it) and writes it to a file, and the parser with
    which the test programs read it.

    A file is the list of its bytes. The draws of the random generator are a
    sequence given as an argument, and every value of a range is the image of
    some draw. A loop has fuel, [None] is a loop that has used it up. *)
From Stdlib Require Import Ascii.
From stdpp Require Import base list gmap strings numbers option pretty.
From S2P Require Import Prelude Encoder ReceiverBuffer Text.
Open Scope string_scope.

Module Workload.

(** ** Text

    [str::split_whitespace]: the bytes the whitespace character at the beginning
    of a string has, for the characters with the property White_Space; [0] when
    there is none. *)
Definition ws_len (s : string) : nat :=
  match s with
  | EmptyString => 0
  | String a s =>
      let a := N_of_ascii a in
      if bool_decide (9 <= a <= 13)%N || bool_decide (a = 32)%N then 1
      else
        match s with
        | EmptyString => 0
        | String b s =>
            let b := N_of_ascii b in
            if bool_decide (a = 194)%N && (bool_decide (b = 133)%N || bool_decide (b = 160)%N) then 2
            else
              match s with
              | EmptyString => 0
              | String c _ =>
                  let c := N_of_ascii c in
                  if bool_decide ((a, b, c) = (225, 154, 128))%N
                     || bool_decide ((a, b) = (226, 128))%N
                        && (bool_decide (128 <= c <= 138)%N || bool_decide (c ∈ [168; 169; 175]%N))
                     || bool_decide ((a, b, c) = (226, 129, 159))%N
                     || bool_decide ((a, b, c) = (227, 128, 128))%N
                  then 3 else 0
              end
        end
  end.

(** The pieces between whitespace characters; [skip]: the bytes of the current
    one that are left. *)
Fixpoint pieces (skip : nat) (s : string) : list string :=
  match s with
  | EmptyString => [""]
  | String c s' =>
      match skip with
      | S skip => pieces skip s'
      | 0 =>
          match ws_len s with
          | S k => "" :: pieces k s'
          | 0 => match pieces 0 s' with
                 | p :: ps => String c p :: ps
                 | [] => [String c ""]
                 end
          end
      end
  end.
Definition split_whitespace (s : string) : list string := filter (fun p => p <> "") (pieces 0 s).

(** [str::lines]. *)
Definition newline : Ascii.ascii := "010"%char.
Definition carriage_return : Ascii.ascii := "013"%char.
Definition strip_cr (s : string) : string := default s (strip_suffix carriage_return s).
Fixpoint end_lines (ps : list string) : list string :=
  match ps with
  | [] => []
  | [p] => if decide (p = "") then [] else [p]
  | p :: ps => strip_cr p :: end_lines ps
  end.
Definition lines (s : string) : list string := end_lines (split newline s).

(** ** The parser *)
Inductive ParsingError : Type :=
| ParseFailure (what : string)
| EOWError
| UnknownError.

Record ParsedMessage : Type := mkParsedMessage {
  msg_type : string;
  name : Agent;
  id : N;
  receivers : list N;
}.

Section hashed.
Context `{Hasher}.

(** The iterator is the list of the words left. *)
Definition parse_ids (iter : list string) : Result (Agent * list string) ParsingError :=
  match iter with
  | [] => Err (ParseFailure "missing organization")
  | org :: iter =>
      match iter with
      | [] => Err (ParseFailure "missing namespace")
      | namespace :: iter =>
          match iter with
          | [] => Err (ParseFailure "missing agent_type")
          | agent_type_val :: iter =>
              match iter with
              | [] => Err (ParseFailure "missing agent_id")
              | agent_id :: iter =>
                  match parse_u64 agent_id with
                  | Err e => Err (ParseFailure ("failed to parse agent id: " +:+ ParseIntError_fmt e))
                  | Ok agent_id =>
                      let a_type := AgentType_from_strings org namespace agent_type_val in
                      Ok (Agent_new a_type agent_id, iter)
                  end
              end
          end
      end
  end.

Definition parse_sub (iter : list string) : Result ParsedMessage ParsingError :=
  let iter := tail iter in
  match iter with
  | [] => Err (ParseFailure "missing subscriber id")
  | id_str :: iter =>
      match parse_u64 id_str with
      | Err e => Err (ParseFailure (ParseIntError_fmt e))
      | Ok x =>
          match parse_ids iter with
          | Err e => Err e
          | Ok (sub, _) => Ok (mkParsedMessage "SUB" sub x [])
          end
      end
  end.

(** [for recv in iter]. *)
Fixpoint parse_receivers (iter : list string) (receivers : list N) : Result (list N) ParsingError :=
  match iter with
  | [] => Ok receivers
  | recv :: iter =>
      match parse_u64 recv with
      | Ok x => parse_receivers iter (receivers ++ [x])%list
      | Err e => Err (ParseFailure (ParseIntError_fmt e))
      end
  end.

Definition parse_pub (iter : list string) : panics (Result ParsedMessage ParsingError) :=
  match iter with
  | [] => Done (Err (ParseFailure "missing publication id"))
  | x_str :: iter =>
      match parse_u64 x_str with
      | Err e => Done (Err (ParseFailure (ParseIntError_fmt e)))
      | Ok x =>
          match parse_ids iter with
          | Err e => Done (Err e)
          | Ok (pub_name, iter) =>
              size ← expect (head iter) "called `Option::unwrap()` on a `None` value";
              match parse_u64 size with
              | Err e => Done (Err (ParseFailure (ParseIntError_fmt e)))
              | Ok size =>
                  match parse_receivers (tail iter) [] with
                  | Err e => Done (Err e)
                  | Ok receivers =>
                      if decide (size = N.of_nat (length receivers))
                      then Done (Ok (mkParsedMessage "PUB" pub_name x receivers))
                      else Done (Err (ParseFailure "missing receiver ids"))
                  end
              end
          end
      end
  end.

Definition parse_line (line : string) : panics (Result ParsedMessage ParsingError) :=
  match split_whitespace line with
  | [] => Done (Err (ParseFailure "missing type"))
  | msg_type :: iter =>
      if decide (msg_type = "SUB") then Done (parse_sub iter)
      else if decide (msg_type = "PUB") then parse_pub iter
      else Done (Err (ParseFailure ("unknown type: " +:+ msg_type)))
  end.
End hashed.

(** ** The generator *)
Record Args : Type := mkArgs {
  subscriptions : N;
  publications : N;
  instances : N;
  agents : N;
  output : string;
}.

(** [Args::output]. *)
Definition output_name (a : Args) : string :=
  if decide (output a = "autogenerated") then
    "sub" +:+ fmt_dec (subscriptions a) +:+ "_pub" +:+ fmt_dec (publications a) +:+ "_i"
      +:+ fmt_dec (instances a) +:+ "_s" +:+ fmt_dec (agents a) +:+ ".dat"
  else output a.

Record SubscriptionPair : Type := mkSubscriptionPair {
  sp_agent_id : N;
  sp_subscriber : N;
}.
Record TypeState : Type := mkTypeState {
  subscribers : gmap N N;
  subscription : list SubscriptionPair;
}.
Definition TypeState_default : TypeState := mkTypeState ∅ [].
Definition TypeState_insert (t : TypeState) (agent_id subscriber : N) : TypeState :=
  mkTypeState (hs_insert (fun x => x) subscriber (subscribers t)).1
    (subscription t ++ [mkSubscriptionPair agent_id subscriber])%list.

Abbreviation TypeMap := (gmap (N * N * N) (AgentType * TypeState)).

Record Publication : Type := mkPublication {
  publication : Agent;
  pub_subscribers : gmap N N;
}.

(** A computation takes the number of draws made so far. *)
Definition gen (A : Type) : Type := nat -> option (panics (nat * A)).
#[export] Instance gen_ret : MRet gen := fun A a i => Some (Done (i, a)).
#[export] Instance gen_bind : MBind gen := fun A B f c i =>
  match c i with
  | None => None
  | Some (Panic why) => Some (Panic why)
  | Some (Done (i, a)) => f a i
  end.
Definition out_of_fuel {A} : gen A := fun _ => None.
Definition gen_panics {A} (c : panics A) : gen A := fun i => Some (a ← c; Done (i, a)).

Section generator.
Context `{Hasher, HashIter, BuildProfile}.
Variable draw : nat -> N.

Definition next_draw : gen N := fun i => Some (Done (S i, draw i)).
(** [rng.random_range(..n)]. *)
Definition gen_range (n : N) : gen N :=
  r ← next_draw;
  if decide (n = 0%N) then gen_panics (Panic "cannot sample empty range") else mret (r `mod` n)%N.
(** [rng.random_bool(p)], for a probability [p] strictly between [0] and [1]. *)
Definition gen_bool : gen bool := r ← next_draw; mret (N.odd r).
(** A draw from [Alphanumeric]. *)
Definition gen_alphanumeric : gen Ascii.ascii :=
  r ← next_draw;
  let i := (r `mod` 62)%N in
  mret (ascii_of_N (if decide (i < 26)%N then 65 + i else if decide (i < 52)%N then 71 + i else i - 4)).
Fixpoint gen_string (n : nat) : gen string :=
  match n with
  | 0 => mret ""
  | S n => c ← gen_alphanumeric; s ← gen_string n; mret (String c s)
  end.

Definition get_pair (t : TypeState) : gen SubscriptionPair :=
  index ← gen_range (N.of_nat (length (subscription t)));
  gen_panics (expect (subscription t !! N.to_nat index) "index out of bounds").

(** The agents of one type: until there are enough of them, the coin says stop,
    or all subscriptions are made. *)
Fixpoint add_agents (fuel : nat) (a : Args) (agent_per_type made : N) (add_agent : bool) (type_state : TypeState)
    : gen (N * TypeState) :=
  if bool_decide (agent_per_type < instances a)%N && add_agent && bool_decide (made < subscriptions a)%N then
    match fuel with
    | 0 => out_of_fuel
    | S fuel =>
        agent_id ← gen_range u64_max;
        subscriber ← gen_range (agents a);
        add_agent ← gen_bool;
        add_agents fuel a (agent_per_type + 1) (made + 1) add_agent (TypeState_insert type_state agent_id subscriber)
    end
  else mret (made, type_state).

Definition create_type : gen AgentType :=
  org ← gen_string 7;
  ns ← gen_string 7;
  atype ← gen_string 7;
  mret (AgentType_from_strings org ns atype).

Fixpoint create_subscriptions (fuel : nat) (a : Args) (made : N) (subscription_list : TypeMap) : gen TypeMap :=
  if decide (made < subscriptions a)%N then
    match fuel with
    | 0 => out_of_fuel
    | S fuel =>
        agent_type ← create_type;
        '(made, type_state) ← add_agents fuel a 0 made true TypeState_default;
        create_subscriptions fuel a made (hm_insert type_key agent_type type_state subscription_list)
    end
  else mret subscription_list.

(** The publication for one type. *)
Definition create_publication (agent_type : AgentType) (state : TypeState) : gen Publication :=
  use_agent_id ← gen_bool;
  if (use_agent_id : bool) then
    pair ← get_pair state;
    mret (mkPublication (Agent_new agent_type (sp_agent_id pair))
            (hs_insert (fun x => x) (sp_subscriber pair) ∅).1)
  else
    mret (mkPublication (Agent_new agent_type 0)
            (foldl (fun s v => (hs_insert (fun x => x) v s).1) ∅ (hash_iter (subscribers state)).*2)).

(** [for s in subscription_list.iter()], left when there are enough. *)
Fixpoint publication_round (a : Args) (l : list (AgentType * TypeState)) (made : N) (publications_list : list Publication)
    : gen (N * list Publication) :=
  match l with
  | [] => mret (made, publications_list)
  | (agent_type, state) :: l =>
      p ← create_publication agent_type state;
      if decide (made + 1 >= publications a)%N then mret (made + 1, publications_list ++ [p])%list%N
      else publication_round a l (made + 1) (publications_list ++ [p])
  end.

Fixpoint create_publications (fuel : nat) (a : Args) (subscription_list : TypeMap) (made : N)
    (publications_list : list Publication) : gen (list Publication) :=
  if decide (made < publications a)%N then
    match fuel with
    | 0 => out_of_fuel
    | S fuel =>
        '(made, publications_list) ←
          publication_round a (hash_iter subscription_list).*2 made publications_list;
        create_publications fuel a subscription_list made publications_list
    end
  else mret publications_list.

(** *** The file

    The counter of the lines is an [i32]. *)
Definition i32_max : Z := 2147483647.
Definition incr_i32 (i : Z) : panics Z :=
  if decide (i = i32_max) then
    if overflow_checks then Panic "attempt to add with overflow" else Done (-2147483648)%Z
  else Done (i + 1)%Z.

Definition eol : string := String newline "".
Definition sub_line (i : Z) (agent_type : AgentType) (p : SubscriptionPair) : string :=
  "SUB " +:+ pretty i +:+ " " +:+ fmt_dec (sp_subscriber p) +:+ " " +:+ fmt_dec (at_organization agent_type)
    +:+ " " +:+ fmt_dec (at_namespace agent_type) +:+ " " +:+ fmt_dec (at_agent_type agent_type)
    +:+ " " +:+ fmt_dec (sp_agent_id p) +:+ eol.
Definition sub_str (s : gmap N N) : string :=
  foldr (fun a s => " " +:+ fmt_dec a +:+ s) "" (hash_iter s).*2.
Definition pub_line (i : Z) (m : Publication) : string :=
  let agent_type := ag_agent_type (publication m) in
  "PUB " +:+ pretty i +:+ " " +:+ fmt_dec (at_organization agent_type)
    +:+ " " +:+ fmt_dec (at_namespace agent_type) +:+ " " +:+ fmt_dec (at_agent_type agent_type)
    +:+ " " +:+ fmt_dec (ag_agent_id (publication m)) +:+ " " +:+ fmt_dec (N.of_nat (size (pub_subscribers m)))
    +:+ sub_str (pub_subscribers m) +:+ eol.

(** [disk n]: whether the [n]-th write succeeds. *)
Section writing.
Variable disk : nat -> bool.
Fixpoint write_lines {A} (line : Z -> A -> string) (l : list A) (i : Z) (n : nat) (file : string)
    : panics (nat * string) :=
  match l with
  | [] => Done (n, file)
  | x :: l =>
      if disk n then
        j ← incr_i32 i;
        write_lines line l j (S n) (file +:+ line i x)
      else Panic "error writing to the file"
  end.

Definition subscription_pairs (m : TypeMap) : list (AgentType * SubscriptionPair) :=
  (hash_iter m).*2 ≫= (fun s => (fun p => (s.1, p)) <$> subscription s.2).

Definition write_workload (created : bool) (m : TypeMap) (publications_list : list Publication) : panics string :=
  if created then
    '(n, file) ← write_lines (fun i s => sub_line i s.1 s.2) (subscription_pairs m) 0 0 "";
    '(_, file) ← write_lines pub_line publications_list 0 n file;
    Done file
  else Panic "error creating the file".
End writing.

(** [main]: the file's name and what is written to it. *)
Definition generate (fuel : nat) (a : Args) : gen (TypeMap * list Publication) :=
  subscription_list ← create_subscriptions fuel a 0 ∅;
  publications_list ← create_publications fuel a subscription_list 0 [];
  mret (subscription_list, publications_list).
Definition main (fuel : nat) (a : Args) (created : bool) (disk : nat -> bool) : gen (string * string) :=
  '(subscription_list, publications_list) ← generate fuel a;
  file ← gen_panics (write_workload disk created subscription_list publications_list);
  mret (output_name a, file).
End generator.
End Workload.
Close Scope string_scope.
