(* ===== verification/WorkloadProofs.v ===== *)
(** * Workloads: lemmas

    Words and lines of a text, the parser on the lines the generator writes, the
    loops of the generator and the invariant of what they build. *)
From Stdlib Require Import Ascii.
From stdpp Require Import base list gmap strings numbers option pretty.
From S2P Require Import Prelude Encoder ReceiverBuffer Text Workload.
Import Workload.
Open Scope string_scope.

(** ** Words *)
Definition is_plain (c : Ascii.ascii) : bool := bool_decide (33 <= N_of_ascii c <= 126)%N.
Definition word (s : string) : Prop := s <> "" /\ string_forallb is_plain s = true.

Lemma ws_len_plain c s : is_plain c = true -> ws_len (String c s) = 0.
Proof.
  unfold is_plain. rewrite bool_decide_eq_true. intros Hc. cbn [ws_len].
  rewrite !(bool_decide_false (_ <= N_of_ascii c <= _)%N), (bool_decide_false (N_of_ascii c = 32%N)) by lia. cbn [orb].
  destruct s as [|b s]; [done|]. rewrite (bool_decide_false (N_of_ascii c = 194%N)) by lia. cbn [andb].
  destruct s as [|d s]; [done|].
  rewrite !(bool_decide_false ((N_of_ascii c, _, _) = _)), !(bool_decide_false ((N_of_ascii c, _) = _))
    by (intros [=]; lia). done.
Qed.

Lemma pieces_word w s : string_forallb is_plain w = true ->
  pieces 0 (w +:+ String " " s) = w :: pieces 0 s.
Proof.
  induction w as [|c w IH]; intros Hw; [done|]. cbn in Hw. apply andb_true_iff in Hw as [Hc Hw].
  change ((String c w +:+ String " " s)) with (String c (w +:+ String " " s)).
  cbn [pieces]. rewrite ws_len_plain by done. by rewrite IH.
Qed.
Lemma pieces_last w : string_forallb is_plain w = true -> pieces 0 w = [w].
Proof.
  induction w as [|c w IH]; intros Hw; [done|]. cbn in Hw. apply andb_true_iff in Hw as [Hc Hw].
  cbn [pieces]. rewrite ws_len_plain by done. by rewrite IH.
Qed.

(** Words with a space before each of the rest. *)
Fixpoint spaced (ws : list string) : string :=
  match ws with [] => "" | w :: ws => String " " (w +:+ spaced ws) end.
Definition join (w : string) (ws : list string) : string := w +:+ spaced ws.

Lemma string_app_cons c s t : String c s +:+ t = String c (s +:+ t).
Proof. done. Qed.
Lemma string_app_nil_r s : s +:+ "" = s.
Proof. induction s as [|c s IH]; [done|]. by rewrite string_app_cons, IH. Qed.
Lemma string_app_assoc (a b c : string) : (a +:+ b) +:+ c = a +:+ b +:+ c.
Proof.
  induction a as [|x a IH]; [done|]. by rewrite !string_app_cons, IH.
Qed.

Lemma split_whitespace_join w ws : word w -> Forall word ws -> split_whitespace (join w ws) = w :: ws.
Proof.
  intros [Hw Hp] Hws. unfold split_whitespace, join. revert w Hw Hp.
  induction Hws as [|v ws [Hv Hvp] _ IH]; intros w Hw Hp; cbn [spaced].
  - rewrite string_app_nil_r, pieces_last by done. by rewrite filter_cons_True.
  - rewrite pieces_word by done. rewrite filter_cons_True by done. by rewrite IH.
Qed.

Lemma string_forallb_app p a b : string_forallb p (a +:+ b) = string_forallb p a && string_forallb p b.
Proof. induction a as [|c a IH]; [done|]. rewrite string_app_cons. cbn. by rewrite IH, andb_assoc. Qed.
Lemma string_forallb_impl (p q : Ascii.ascii -> bool) s :
  (forall c, p c = true -> q c = true) -> string_forallb p s = true -> string_forallb q s = true.
Proof.
  intros Hpq. induction s as [|c s IH]; [done|]. cbn. rewrite !andb_true_iff. intros [Hc Hs]. auto.
Qed.

Lemma digit_plain c : is_digit c = true -> is_plain c = true.
Proof.
  unfold is_digit, is_plain, to_digit. rewrite !bool_decide_eq_true. case_decide; [lia|]. by intros [].
Qed.
Lemma fmt_dec_nonempty n : fmt_dec n <> "".
Proof.
  unfold fmt_dec, pretty, pretty_N. case_decide; [done|]. rewrite pretty_N_go_step by lia. by apply pretty_N_go_nonempty.
Qed.
Lemma word_dec n : word (fmt_dec n).
Proof. split; [apply fmt_dec_nonempty|]. eapply string_forallb_impl; [apply digit_plain|apply fmt_dec_digits]. Qed.
Lemma pretty_Z_dec (i : Z) : (0 <= i)%Z -> pretty i = fmt_dec (Z.to_N i).
Proof. by destruct i. Qed.
Lemma word_Z (i : Z) : word (pretty i).
Proof.
  destruct i as [|p|p]; [done|apply (word_dec (Npos p))|]. destruct (word_dec (Npos p)) as [_ Hp].
  split; [done|]. exact Hp.
Qed.
#[export] Hint Resolve word_dec word_Z : slim.

(** ** Lines *)
Definition one_line (s : string) : Prop := string_in newline s = false /\ string_in carriage_return s = false.

Lemma strip_cr_line s : string_in carriage_return s = false -> strip_cr s = s.
Proof.
  intros Hs. unfold strip_cr. destruct (strip_suffix carriage_return s) as [r|] eqn:E; [|done].
  apply strip_suffix_Some in E. subst. rewrite string_in_app in Hs. apply orb_false_iff in Hs as [_ Hs]. done.
Qed.

(** The text of a list of lines. *)
Fixpoint text (ls : list string) : string :=
  match ls with [] => "" | l :: ls => l +:+ eol +:+ text ls end.
Lemma text_app a b : text (a ++ b)%list = text a +:+ text b.
Proof. induction a as [|l a IH]; [done|]. cbn [text app]. by rewrite IH, !string_app_assoc. Qed.

Lemma lines_text ls : Forall one_line ls -> lines (text ls) = ls.
Proof.
  unfold lines. induction 1 as [|l ls [Hn Hc] _ IH]; [done|]. cbn [text]. unfold eol.
  change (String newline "" +:+ text ls) with (String newline (text ls)). rewrite split_sep by done.
  pose proof (split_nonempty newline (text ls)) as Hne. destruct (split newline (text ls)) as [|p ps]; [done|].
  change (end_lines (l :: p :: ps)) with (strip_cr l :: end_lines (p :: ps)). rewrite IH. by rewrite strip_cr_line.
Qed.

Lemma plain_in c s : string_forallb is_plain s = true -> is_plain c = false -> string_in c s = false.
Proof.
  intros Hs Hc. induction s as [|d s IH]; [done|]. cbn in *. apply andb_true_iff in Hs as [Hd Hs].
  rewrite IH by done. rewrite bool_decide_false; [done|]. intros ->. congruence.
Qed.
Lemma one_line_join w ws : word w -> Forall word ws -> one_line (join w ws).
Proof.
  intros [_ Hw] Hws. unfold join. assert (Hs : one_line (spaced ws)).
  { induction Hws as [|v ws [_ Hv] _ [IHn IHc]]; [done|]. unfold one_line. cbn. rewrite !string_in_app, IHn, IHc.
    by rewrite !(plain_in _ v) by done. }
  destruct Hs as [Hn Hc]. unfold one_line. rewrite !string_in_app, Hn, Hc. by rewrite !(plain_in _ w) by done.
Qed.

(** ** The lines written *)
Section parsing.
Context `{Hasher, HashIter}.

Definition sub_words (i : Z) (t : AgentType) (p : SubscriptionPair) : list string :=
  [pretty i; fmt_dec (sp_subscriber p); fmt_dec (at_organization t); fmt_dec (at_namespace t);
   fmt_dec (at_agent_type t); fmt_dec (sp_agent_id p)].
Definition pub_words (i : Z) (m : Publication) : list string :=
  let t := ag_agent_type (publication m) in
  [pretty i; fmt_dec (at_organization t); fmt_dec (at_namespace t); fmt_dec (at_agent_type t);
   fmt_dec (ag_agent_id (publication m)); fmt_dec (N.of_nat (size (pub_subscribers m)))]
  ++ (fmt_dec <$> (hash_iter (pub_subscribers m)).*2).

Ltac string_norm := repeat (rewrite string_app_assoc || rewrite string_app_cons || rewrite string_app_nil_r).
Lemma sub_line_join i t p : sub_line i t p = join "SUB" (sub_words i t p) +:+ eol.
Proof. unfold sub_line, join, sub_words. cbn [spaced]. by string_norm. Qed.
Lemma sub_str_spaced s : sub_str s = spaced (fmt_dec <$> (hash_iter s).*2).
Proof. unfold sub_str. induction (hash_iter s).*2 as [|x l IH]; [done|]. cbn [foldr fmap list_fmap spaced]. by rewrite IH. Qed.
Lemma pub_line_join i m : pub_line i m = join "PUB" (pub_words i m) +:+ eol.
Proof.
  unfold pub_line, join, pub_words. rewrite sub_str_spaced. cbn [spaced app]. by string_norm.
Qed.

Lemma sub_words_ok i t p : Forall word (sub_words i t p).
Proof. unfold sub_words. rewrite !Forall_cons. auto 10 with slim. Qed.
Lemma pub_words_ok i m : Forall word (pub_words i m).
Proof.
  unfold pub_words. apply Forall_app. split; [|by apply Forall_fmap, Forall_true; intros; apply word_dec].
  rewrite !Forall_cons. auto 10 with slim.
Qed.

(** The name the parser makes of a type: of the decimal text of its hashes. *)
Definition reparse (t : AgentType) : AgentType :=
  AgentType_from_strings (fmt_dec (at_organization t)) (fmt_dec (at_namespace t)) (fmt_dec (at_agent_type t)).
Definition sub_message (s : AgentType * SubscriptionPair) : ParsedMessage :=
  mkParsedMessage "SUB" (Agent_new (reparse s.1) (sp_agent_id s.2)) (sp_subscriber s.2) [].
Definition pub_message (i : nat) (m : Publication) : ParsedMessage :=
  mkParsedMessage "PUB" (Agent_new (reparse (ag_agent_type (publication m))) (ag_agent_id (publication m)))
    (N.of_nat i) (hash_iter (pub_subscribers m)).*2.

Definition pair_u64 (p : SubscriptionPair) : Prop := is_u64 (sp_agent_id p) /\ is_u64 (sp_subscriber p).
Definition publication_u64 (m : Publication) : Prop :=
  is_u64 (ag_agent_id (publication m)) /\ is_u64 (N.of_nat (size (pub_subscribers m))) /\
  Forall is_u64 (hash_iter (pub_subscribers m)).*2.

Lemma parse_sub_line i t p : pair_u64 p -> parse_line (join "SUB" (sub_words i t p)) = Done (Ok (sub_message (t, p))).
Proof.
  intros [Hi Hs]. unfold parse_line. rewrite split_whitespace_join by (done || apply sub_words_ok).
  rewrite decide_True by done. unfold sub_words, parse_sub. cbn [tail]. rewrite parse_u64_fmt by done.
  unfold parse_ids. by rewrite parse_u64_fmt by done.
Qed.
Lemma parse_receivers_fmt l : forall r, Forall is_u64 l -> parse_receivers (fmt_dec <$> l) r = Ok (r ++ l)%list.
Proof.
  induction l as [|x l IH]; intros r Hl; [by rewrite app_nil_r|]. apply Forall_cons in Hl as [Hx Hl].
  cbn. rewrite parse_u64_fmt by done. rewrite IH by done. by rewrite <- app_assoc.
Qed.
Lemma length_hash_iter {K A} `{Countable K} (m : gmap K A) : length (hash_iter m) = size m.
Proof. by rewrite hash_iter_perm, length_map_to_list. Qed.
Lemma parse_pub_line i m : publication_u64 m -> is_u64 (N.of_nat i) ->
  parse_line (join "PUB" (pub_words (Z.of_nat i) m)) = Done (Ok (pub_message i m)).
Proof.
  intros (Hid&Hsz&Hl) Hi. unfold parse_line. rewrite split_whitespace_join by (done || apply pub_words_ok).
  rewrite decide_False, decide_True by done. unfold pub_words, parse_pub. rewrite pretty_Z_dec by lia.
  replace (Z.to_N (Z.of_nat i)) with (N.of_nat i) by lia. cbn [app]. rewrite parse_u64_fmt by done.
  unfold parse_ids. rewrite parse_u64_fmt by done. cbn [head expect mbind panics_bind tail].
  rewrite parse_u64_fmt by done. rewrite parse_receivers_fmt by done. cbn [app].
  by rewrite length_fmap, length_hash_iter, decide_True.
Qed.

(** ** The file *)
Context `{BuildProfile}.
Definition numbered {A} (body : Z -> A -> string) (i : Z) (l : list A) : list string :=
  imap (fun k x => body (i + Z.of_nat k)%Z x) l.
Lemma write_lines_text disk {A} (line body : Z -> A -> string) l :
  (forall i x, line i x = body i x +:+ eol) -> (forall n, disk n = true) ->
  forall i n file, (i + Z.of_nat (length l) <= i32_max)%Z ->
  write_lines disk line l i n file = Done (n + length l, file +:+ text (numbered body i l)).
Proof.
  intros Hline Hdisk. induction l as [|x l IH]; intros i n file Hi; cbn [write_lines length].
  { unfold numbered. cbn. by rewrite string_app_nil_r, Nat.add_0_r. }
  rewrite Hdisk. unfold incr_i32. cbn [length] in Hi. rewrite decide_False by lia. cbn [mbind panics_bind].
  rewrite IH by lia. f_equal. f_equal; [lia|]. unfold numbered. rewrite imap_cons. cbn [text].
  rewrite Hline, !string_app_assoc. replace (i + Z.of_nat 0)%Z with i by lia.
  do 3 f_equal. f_equal. apply imap_ext. intros k y _. cbn. f_equal. lia.
Qed.

(** The lines of a workload. *)
Definition workload_lines (m : TypeMap) (pl : list Publication) : list string :=
  numbered (fun i s => join "SUB" (sub_words i s.1 s.2)) 0 (subscription_pairs m) ++
  numbered (fun i p => join "PUB" (pub_words i p)) 0 pl.
Definition fits_i32 {A} (l : list A) : Prop := (Z.of_nat (length l) <= i32_max)%Z.

Lemma write_workload_text disk m pl :
  (forall n, disk n = true) -> fits_i32 (subscription_pairs m) -> fits_i32 pl ->
  write_workload disk true m pl = Done (text (workload_lines m pl)).
Proof.
  intros Hdisk Hs Hp. unfold write_workload.
  rewrite (write_lines_text disk _ (fun i s => join "SUB" (sub_words i s.1 s.2)))
    by (done || (intros; apply sub_line_join)). cbn [mbind panics_bind].
  rewrite (write_lines_text disk _ (fun i p => join "PUB" (pub_words i p)))
    by (done || (intros; apply pub_line_join)). cbn [mbind panics_bind]. unfold workload_lines. by rewrite text_app.
Qed.

Lemma Forall_numbered {A} (P : string -> Prop) (body : Z -> A -> string) i l :
  (forall k x, P (body k x)) -> Forall P (numbered body i l).
Proof.
  intros HP. apply Forall_lookup. intros k s. unfold numbered. rewrite list_lookup_imap.
  destruct (l !! k); [|done]. intros [= <-]. apply HP.
Qed.
Lemma workload_lines_ok m pl : Forall one_line (workload_lines m pl).
Proof.
  apply Forall_app. split; apply Forall_numbered; intros; apply one_line_join; (done || apply sub_words_ok || apply pub_words_ok).
Qed.

(** What the lines say. *)
Definition workload_messages (m : TypeMap) (pl : list Publication) : list ParsedMessage :=
  (sub_message <$> subscription_pairs m) ++ imap pub_message pl.
Definition parses (line : string) (m : ParsedMessage) : Prop := parse_line line = Done (Ok m).

Lemma Forall2_imap {A B C} (f : nat -> A -> B) (g : nat -> A -> C) (R : B -> C -> Prop) l :
  (forall k x, l !! k = Some x -> R (f k x) (g k x)) -> Forall2 R (imap f l) (imap g l).
Proof.
  intros HR. apply Forall2_same_length_lookup. split; [by rewrite !length_imap|].
  intros k b c. rewrite !list_lookup_imap. destruct (l !! k) as [x|] eqn:E; [|done].
  intros [= <-] [= <-]. by apply HR.
Qed.
Lemma workload_parsed m pl :
  Forall (fun s => pair_u64 s.2) (subscription_pairs m) -> Forall publication_u64 pl -> fits_i32 pl ->
  Forall2 parses (workload_lines m pl) (workload_messages m pl).
Proof.
  intros Hs Hp Hlen. unfold workload_lines, workload_messages. apply Forall2_app.
  - replace (sub_message <$> subscription_pairs m) with (imap (fun _ s => sub_message s) (subscription_pairs m))
      by (exact (imap_const sub_message _)).
    apply Forall2_imap. intros k [t p] Hk. eapply Forall_lookup_1 in Hs; [|done]. by apply parse_sub_line.
  - apply Forall2_imap. intros k x Hk. eapply Forall_lookup_1 in Hp; [|done].
    replace (0 + Z.of_nat k)%Z with (Z.of_nat k) by lia. apply parse_pub_line; [done|].
    apply lookup_lt_Some in Hk. unfold fits_i32, i32_max in Hlen. unfold is_u64, u64_max. lia.
Qed.
End parsing.

(** ** The generator

    [gives c P]: from every point of the sequence of draws the computation
    returns, and what it returns satisfies [P]. *)
Definition gives {A} (c : gen A) (P : A -> Prop) : Prop :=
  forall i, exists j a, c i = Some (Done (j, a)) /\ P a.
Lemma gives_ret {A} (a : A) (P : A -> Prop) : P a -> gives (mret a) P.
Proof. intros Ha i. by exists i, a. Qed.
Lemma gives_bind {A B} (c : gen A) (f : A -> gen B) (P : A -> Prop) (Q : B -> Prop) :
  gives c P -> (forall a, P a -> gives (f a) Q) -> gives (c ≫= f) Q.
Proof.
  intros Hc Hf i. destruct (Hc i) as (j&a&E&Ha). destruct (Hf a Ha j) as (k&b&E'&Hb).
  exists k, b. split; [|done]. unfold mbind, gen_bind. by rewrite E.
Qed.
Lemma gives_any {A} (c : gen A) (P : A -> Prop) : gives c P -> gives c (fun _ => True).
Proof. intros Hc i. destruct (Hc i) as (j&a&E&_). by exists j, a. Qed.

Section generating.
Context `{Hasher, HashIter, BuildProfile}.
Variable draw : nat -> N.
Variable a : Args.

Lemma gives_range n : (0 < n)%N -> gives (gen_range draw n) (fun x => (x < n)%N).
Proof.
  intros Hn i. exists (S i), (draw i `mod` n)%N. unfold gen_range, mbind, gen_bind, next_draw.
  rewrite decide_False by lia. split; [done|]. apply N.mod_lt. lia.
Qed.
Lemma gives_bool : gives (gen_bool draw) (fun _ => True).
Proof. intros i. by eexists _, _. Qed.
Lemma gives_string n : gives (gen_string draw n) (fun _ => True).
Proof.
  assert (Hc : gives (gen_alphanumeric draw) (fun _ => True)) by (intros i; unfold gen_alphanumeric, mbind, gen_bind, next_draw, mret, gen_ret; eauto).
  induction n as [|n IH]; [by apply gives_ret|]. eapply gives_bind; [exact Hc|]. intros c _.
  eapply gives_bind; [exact IH|]. intros s _. by apply gives_ret.
Qed.
Lemma gives_type : gives (create_type draw) (fun _ => True).
Proof. do 3 (eapply gives_bind; [apply gives_string|]; intros ? _). by apply gives_ret. Qed.

(** *** The state of a type *)
Record state_ok (t : TypeState) : Prop := {
  so_set : forall j v, subscribers t !! j = Some v -> v = j;
  so_subscribers : forall j, is_Some (subscribers t !! j) <-> exists p, p ∈ subscription t /\ sp_subscriber p = j;
  so_pairs : Forall (fun p => (sp_agent_id p < u64_max)%N /\ (sp_subscriber p < agents a)%N) (subscription t);
}.

Lemma state_ok_default : state_ok TypeState_default.
Proof. split; cbn; [done| |constructor]. intros j. rewrite lookup_empty. split; [by intros []|by intros (p&Hp%elem_of_nil&_)]. Qed.

Lemma hs_insert_id (s : gmap N N) v j :
  (hs_insert (fun x => x) v s).1 !! j = if decide (j = v) then Some (default v (s !! v)) else s !! j.
Proof.
  unfold hs_insert. destruct (s !! v) as [w|] eqn:E; cbn; case_decide; subst.
  - done.
  - done.
  - by rewrite lookup_insert_eq.
  - by rewrite lookup_insert_ne.
Qed.

Lemma state_ok_insert t id j :
  (id < u64_max)%N -> (j < agents a)%N -> state_ok t -> state_ok (TypeState_insert t id j).
Proof.
  intros Hid Hj [Hset Hsub Hp]. split; cbn.
  - intros k v. rewrite hs_insert_id. case_decide; [subst|by apply Hset].
    intros [= <-]. destruct (subscribers t !! j) eqn:E; [by apply Hset in E|done].
  - intros k. rewrite hs_insert_id. setoid_rewrite elem_of_app. setoid_rewrite list_elem_of_singleton.
    case_decide as Hk; [subst|rewrite Hsub]; (split; [|]).
    + intros _. exists (mkSubscriptionPair id j). auto.
    + by eexists.
    + intros (p&Hin&?). by exists p; auto.
    + intros (p&[Hin| ->]&?); [by exists p|done].
  - apply Forall_app. split; [done|]. by constructor.
Qed.

(** *** The loops *)
Lemma gives_agents fuel : forall apt made add t,
  (0 < agents a)%N -> (made <= subscriptions a)%N -> (N.to_nat (subscriptions a - made) <= fuel) -> state_ok t ->
  gives (add_agents draw fuel a apt made add t) (fun r =>
    (made <= r.1 <= subscriptions a)%N /\ state_ok r.2 /\
    length (subscription r.2) = length (subscription t) + N.to_nat (r.1 - made) /\
    ((apt < instances a)%N -> add = true -> (made < subscriptions a)%N -> (made < r.1)%N)).
Proof.
  induction fuel as [|fuel IH]; intros apt made add t Ha Hm Hf Ht; cbn [add_agents];
    destruct (bool_decide (apt < instances a)%N && add && bool_decide (made < subscriptions a)%N) eqn:Hg.
  - rewrite !andb_true_iff, !bool_decide_eq_true in Hg. lia.
  - apply gives_ret. cbn. split; [lia|]. split; [done|]. split; [lia|]. intros. subst.
    rewrite !bool_decide_true in Hg by done. done.
  - rewrite !andb_true_iff, !bool_decide_eq_true in Hg.
    eapply gives_bind; [by apply (gives_range u64_max)|]. intros id Hid.
    eapply gives_bind; [by apply (gives_range (agents a))|]. intros j Hj.
    eapply gives_bind; [apply gives_bool|]. intros b _. intros i.
    destruct (IH (apt + 1)%N (made + 1)%N b (TypeState_insert t id j) Ha ltac:(lia) ltac:(lia)
                (state_ok_insert t id j Hid Hj Ht) i) as (k&r&E&Hr&Hok&Hlen&_).
    exists k, r. split; [done|]. split; [lia|]. split; [done|]. split; [|lia].
    rewrite Hlen. cbn. rewrite length_app. cbn. lia.
  - apply gives_ret. cbn. split; [lia|]. split; [done|]. split; [lia|]. intros. subst.
    rewrite !bool_decide_true in Hg by done. done.
Qed.

(** Every type has a subscription, and is listed under its key. *)
Definition map_ok (m : TypeMap) : Prop :=
  map_Forall (fun k e => type_key e.1 = k /\ state_ok e.2 /\ subscription e.2 <> []) m.
Lemma map_ok_insert t s m : map_ok m -> state_ok s -> subscription s <> [] -> map_ok (hm_insert type_key t s m).
Proof.
  intros Hm Hs Hne k e. unfold hm_insert. destruct (m !! type_key t) as [[t0 s0]|] eqn:E;
    (intros [[<- <-]|[_ Hk]]%lookup_insert_Some; [|by apply (Hm k e)]); [|done].
  destruct (Hm _ _ E) as [Ht0 _]. done.
Qed.
Lemma hm_insert_nonempty (t : AgentType) (s : TypeState) (m : TypeMap) : hm_insert type_key t s m <> ∅.
Proof. unfold hm_insert. destruct (m !! _) as [[]|]; apply insert_non_empty. Qed.

Lemma gives_subscriptions fuel : forall made m,
  (0 < agents a)%N -> (0 < instances a)%N -> (made <= subscriptions a)%N ->
  (N.to_nat (subscriptions a - made) < fuel) -> map_ok m ->
  gives (create_subscriptions draw fuel a made m) (fun m' =>
    map_ok m' /\ ((made < subscriptions a)%N \/ m <> ∅ -> m' <> ∅)).
Proof.
  induction fuel as [|fuel IH]; intros made m Ha Hi Hm Hf Hok; [lia|]. cbn [create_subscriptions].
  case_decide as Hd; [|apply gives_ret; split; [done|intros [?|?]; [lia|done]]].
  eapply gives_bind; [apply gives_type|]. intros t _.
  eapply gives_bind; [apply (gives_agents fuel 0 made true TypeState_default); (lia || apply state_ok_default)|].
  intros [made' s] (Hmade&Hs&Hlen&Hmore). cbn in *. specialize (Hmore Hi eq_refl Hd). intros i.
  assert (Hne : subscription s <> []) by (intros E; rewrite E in Hlen; cbn in Hlen; lia).
  destruct (IH made' (hm_insert type_key t s m) Ha Hi ltac:(lia) ltac:(lia) (map_ok_insert t s m Hok Hs Hne) i)
    as (k&m'&E&Hm'&Hne'). exists k, m'. split; [done|]. split; [done|]. intros _. apply Hne'. right. apply hm_insert_nonempty.
Qed.

(** *** Publications

    A publication names a type of the workload: with the id of one of its
    subscriptions, and that one's subscriber; or with no id ([0]), and all the
    subscribers of the type. *)
Definition pub_ok (m : TypeMap) (p : Publication) : Prop :=
  exists t s, m !! type_key t = Some (t, s) /\ ag_agent_type (publication p) = t /\
    (forall j v, pub_subscribers p !! j = Some v -> v = j) /\
    ((exists sp, sp ∈ subscription s /\ ag_agent_id (publication p) = sp_agent_id sp /\
        forall j, is_Some (pub_subscribers p !! j) <-> j = sp_subscriber sp) \/
     (ag_agent_id (publication p) = 0%N /\
        forall j, is_Some (pub_subscribers p !! j) <-> exists sp, sp ∈ subscription s /\ sp_subscriber sp = j)).

Lemma insert_all (l : list N) : forall (s : gmap N N),
  (forall j v, s !! j = Some v -> v = j) ->
  let s' := foldl (fun s v => (hs_insert (fun x => x) v s).1) s l in
  (forall j v, s' !! j = Some v -> v = j) /\ forall j, is_Some (s' !! j) <-> is_Some (s !! j) \/ j ∈ l.
Proof.
  induction l as [|x l IH]; intros s Hs; cbn; [split; [done|]; intros j; rewrite elem_of_nil; tauto|].
  destruct (IH (hs_insert (fun x => x) x s).1) as [Hid Hin].
  { intros j v. rewrite hs_insert_id. case_decide; [subst|by apply Hs].
    intros [= <-]. destruct (s !! x) eqn:E; [by apply Hs in E|done]. }
  split; [done|]. intros j. rewrite Hin, hs_insert_id, elem_of_cons. case_decide; [subst|tauto].
  split; [tauto|]. intros _. left. by eexists.
Qed.

Lemma hash_iter_values (m : gmap N N) :
  (forall j v, m !! j = Some v -> v = j) -> forall j, j ∈ (hash_iter m).*2 <-> is_Some (m !! j).
Proof.
  intros Hm j. rewrite (list_elem_of_fmap). split.
  - intros ([k v]&->&Hin). rewrite hash_iter_perm, elem_of_map_to_list in Hin. cbn. apply Hm in Hin as E. subst. by eexists.
  - intros [v Hv]. apply Hm in Hv as E. subst. exists (j, j). split; [done|].
    by rewrite hash_iter_perm, elem_of_map_to_list.
Qed.

Lemma gives_publication m t s : map_ok m -> m !! type_key t = Some (t, s) ->
  gives (create_publication draw t s) (pub_ok m).
Proof.
  intros Hm Hts. destruct (Hm _ _ Hts) as (_&[Hset Hsub _]&Hne). cbn in *. unfold create_publication.
  eapply gives_bind; [apply gives_bool|]. intros [] _.
  - eapply gives_bind.
    { eapply gives_bind; [apply (gives_range (N.of_nat (length (subscription s))))|].
      - destruct (subscription s); [done|cbn; lia].
      - intros x Hx. cbv beta in Hx. destruct (lookup_lt_is_Some_2 (subscription s) (N.to_nat x) ltac:(lia)) as [sp Hsp].
        instantiate (1 := fun sp => sp ∈ subscription s). intros i. exists i, sp. unfold gen_panics. rewrite Hsp.
        split; [done|]. by eapply list_elem_of_lookup_2. }
    intros sp Hsp. apply gives_ret. exists t, s. split; [done|]. split; [done|]. split.
    + intros j v. cbn [pub_subscribers]. rewrite hs_insert_id. case_decide; [subst|by rewrite lookup_empty].
      rewrite lookup_empty. by intros [= <-].
    + left. exists sp. split; [done|]. split; [done|]. intros j. cbn [pub_subscribers]. rewrite hs_insert_id.
      case_decide; [split; [done|by eexists]|]. rewrite lookup_empty. split; [by intros []|done].
  - apply gives_ret. exists t, s. split; [done|]. split; [done|].
    destruct (insert_all (hash_iter (subscribers s)).*2 ∅) as [Hid Hin]; [intros j v; by rewrite lookup_empty|].
    split; [done|]. right. split; [done|]. intros j. cbn [pub_subscribers]. rewrite Hin, lookup_empty.
    rewrite hash_iter_values by done. rewrite Hsub. split; [|by right]. intros [[]|?]; done.
Qed.

Lemma gives_round m l : map_ok m -> Forall (fun e => m !! type_key e.1 = Some e) l -> forall made pl,
  (made < publications a)%N -> N.of_nat (length pl) = made -> Forall (pub_ok m) pl ->
  gives (publication_round draw a l made pl) (fun r =>
    (made <= r.1 <= publications a)%N /\ N.of_nat (length r.2) = r.1 /\ Forall (pub_ok m) r.2 /\
    (l <> [] -> (made < r.1)%N)).
Proof.
  intros Hm Hl. induction Hl as [|[t s] l Hts Hl IH]; intros made pl Hmade Hlen Hpl; cbn [publication_round].
  { apply gives_ret. cbn. repeat split; (lia || done). }
  eapply gives_bind; [by apply (gives_publication m)|]. intros p Hp.
  assert (Hlen' : N.of_nat (length (pl ++ [p])) = (made + 1)%N) by (rewrite length_app; cbn; lia).
  assert (Hpl' : Forall (pub_ok m) (pl ++ [p])) by (apply Forall_app; split; [done|by constructor]).
  case_decide as Hd; [apply gives_ret; cbn; repeat split; (lia || done)|].
  intros i. destruct (IH (made + 1)%N (pl ++ [p])%list ltac:(lia) Hlen' Hpl' i) as (k&r&E&Hr&Hln&Hok&_).
  exists k, r. repeat split; (lia || done).
Qed.

Lemma iter_entries (m : TypeMap) : map_ok m -> Forall (fun e => m !! type_key e.1 = Some e) (hash_iter m).*2.
Proof.
  intros Hm. apply Forall_fmap, Forall_forall. intros [k e] Hin. rewrite hash_iter_perm, elem_of_map_to_list in Hin.
  destruct (Hm k e Hin) as [Hk _]. cbn. by rewrite Hk.
Qed.
Lemma iter_nonempty (m : TypeMap) : m <> ∅ -> (hash_iter m).*2 <> [].
Proof.
  intros Hm E%(f_equal length). rewrite length_fmap, length_hash_iter in E. cbn in E. by apply map_size_empty_iff in E.
Qed.

Lemma gives_publications m fuel : map_ok m -> (m <> ∅ \/ publications a = 0%N) -> forall made pl,
  (made <= publications a)%N -> N.to_nat (publications a - made) <= fuel ->
  N.of_nat (length pl) = made -> Forall (pub_ok m) pl ->
  gives (create_publications draw fuel a m made pl) (fun pl' =>
    N.of_nat (length pl') = publications a /\ Forall (pub_ok m) pl').
Proof.
  intros Hm Hne. induction fuel as [|fuel IH]; intros made pl Hmade Hf Hlen Hpl; cbn [create_publications].
  { rewrite decide_False by lia. apply gives_ret. split; [lia|done]. }
  case_decide as Hd; [|apply gives_ret; split; [lia|done]].
  eapply gives_bind; [by apply (gives_round m); [..|apply iter_entries| | |]|].
  intros [made' pl'] (Hm'&Hl'&Hp'&Hmore). cbn in *.
  specialize (Hmore (iter_nonempty m ltac:(destruct Hne; [done|lia]))). apply IH; (lia || done).
Qed.

(** *** Sizes *)
Definition pairs_total (m : TypeMap) : nat := map_sum (fun e => length (subscription e.2)) m.
Lemma length_pairs m : length (subscription_pairs m) = pairs_total m.
Proof.
  unfold subscription_pairs, pairs_total. rewrite hash_iter_perm. unfold map_sum. rewrite map_fold_foldr.
  induction (map_to_list m) as [|[k [t s]] l IH]; [done|]. cbn. rewrite length_app, length_fmap. by rewrite IH.
Qed.
Lemma pairs_total_insert (t : AgentType) (s : TypeState) (m : TypeMap) :
  pairs_total (hm_insert type_key t s m) <= pairs_total m + length (subscription s).
Proof.
  unfold pairs_total, hm_insert. destruct (m !! type_key t) as [[t0 s0]|] eqn:E.
  - pose proof (map_sum_insert (fun e : AgentType * TypeState => length (subscription e.2)) m _ _ (t0, s) E). cbn in *. lia.
  - rewrite map_sum_insert_new by done. cbn. lia.
Qed.
Lemma subscriptions_total fuel : forall made m,
  (0 < agents a)%N -> (0 < instances a)%N -> (made <= subscriptions a)%N ->
  (N.to_nat (subscriptions a - made) < fuel) ->
  gives (create_subscriptions draw fuel a made m) (fun m' =>
    pairs_total m' <= pairs_total m + N.to_nat (subscriptions a - made)).
Proof.
  induction fuel as [|fuel IH]; intros made m Ha Hi Hm Hf; [lia|]. cbn [create_subscriptions].
  case_decide as Hd; [|apply gives_ret; lia].
  eapply gives_bind; [apply gives_type|]. intros t _.
  eapply gives_bind; [apply (gives_agents fuel 0 made true TypeState_default); (lia || apply state_ok_default)|].
  intros [made' s] (Hmade&Hs&Hlen&Hmore). cbn in *. specialize (Hmore Hi eq_refl Hd). intros i.
  destruct (IH made' (hm_insert type_key t s m) Ha Hi ltac:(lia) ltac:(lia) i) as (k&m'&E&Hm').
  exists k, m'. split; [done|]. pose proof (pairs_total_insert t s m). lia.
Qed.
Lemma state_size m k e : m !! k = Some e -> length (subscription e.2) <= pairs_total m.
Proof. intros E. unfold pairs_total. rewrite (map_sum_delete _ m k e E). lia. Qed.
Lemma elem_of_pairs m t p : (t, p) ∈ subscription_pairs m <-> exists k s, m !! k = Some (t, s) /\ p ∈ subscription s.
Proof.
  unfold subscription_pairs. rewrite list_elem_of_bind. split.
  - intros ([t' s]&Hp&Hs). apply list_elem_of_fmap in Hp as (p'&[= -> ->]&Hp).
    apply list_elem_of_fmap in Hs as ([k e]&Heq&Hin). cbn in Heq. subst e.
    rewrite hash_iter_perm, elem_of_map_to_list in Hin. by exists k, s.
  - intros (k&s&Hk&Hp). exists (t, s). split; [apply list_elem_of_fmap; by exists p|].
    apply list_elem_of_fmap. exists (k, (t, s)). split; [done|]. by rewrite hash_iter_perm, elem_of_map_to_list.
Qed.

(** *** Whole workloads *)
Record args_ok : Prop := {
  ao_agents : (0 < agents a <= u32_max)%N;
  ao_instances : (0 < instances a)%N;
  ao_subscriptions : (0 < subscriptions a)%N /\ (Z.of_N (subscriptions a) <= i32_max)%Z;
  ao_publications : (Z.of_N (publications a) <= i32_max)%Z;
}.
Record workload_ok (m : TypeMap) (pl : list Publication) : Prop := {
  wo_map : map_ok m;
  wo_total : pairs_total m <= N.to_nat (subscriptions a);
  wo_length : N.of_nat (length pl) = publications a;
  wo_pubs : Forall (pub_ok m) pl;
}.
Lemma gives_both {A} (c : gen A) P Q : gives c P -> gives c Q -> gives c (fun x => P x /\ Q x).
Proof.
  intros HP HQ i. destruct (HP i) as (j&x&E&Hx), (HQ i) as (j'&x'&E'&Hx'). rewrite E in E'. injection E' as <- <-. by exists j, x.
Qed.
Lemma gives_workload fuel : args_ok ->
  N.to_nat (subscriptions a) < fuel -> N.to_nat (publications a) <= fuel ->
  gives (generate draw fuel a) (fun r => workload_ok r.1 r.2).
Proof.
  intros [[Ha _] Hi [Hs _] _] Hf Hf'. unfold generate.
  eapply gives_bind; [apply gives_both;
    [apply (gives_subscriptions fuel 0 ∅); (lia || by apply map_Forall_empty)
    |apply (subscriptions_total fuel 0 ∅); lia]|].
  intros m [[Hm Hne] Htot]. unfold pairs_total at 2 in Htot. rewrite map_sum_empty in Htot.
  eapply gives_bind; [apply (gives_publications m fuel Hm) with (made := 0%N) (pl := []);
    (lia || done || constructor || left; apply Hne; left; lia)|].
  intros pl [Hlen Hpl]. apply gives_ret. split; cbn; (done || lia).
Qed.

Lemma size_list_to_set_le (l : list N) : size (list_to_set l : gset N) <= length l.
Proof.
  induction l as [|x l IH]; [done|]. cbn. pose proof (size_union_alt {[x]} (list_to_set l : gset N)) as E.
  rewrite size_singleton in E. assert (Hd : size (list_to_set l ∖ {[x]} : gset N) <= size (list_to_set l : gset N))
    by (apply subseteq_size; set_solver). lia.
Qed.

Section sound.
Context (Hargs : args_ok).
Variables (m : TypeMap) (pl : list Publication).
Context (Hok : workload_ok m pl).

Lemma pairs_u64 : Forall (fun s => pair_u64 s.2) (subscription_pairs m).
Proof.
  apply Forall_forall. intros [t p] (k&s&Hk&Hp)%elem_of_pairs.
  destruct (wo_map _ _ Hok k (t, s) Hk) as (_&[_ _ Hps]&_). eapply Forall_forall in Hps; [|done].
  destruct (ao_agents Hargs) as [_ Hmax]. unfold pair_u64, is_u64, u64_max, u32_max in *. cbn in *. lia.
Qed.
Lemma pubs_u64 : Forall publication_u64 pl.
Proof.
  apply Forall_forall. intros p Hin. pose proof (wo_pubs _ _ Hok) as Hp.
  eapply Forall_forall in Hp; [|done]. destruct Hp as (t&s&Hts&Ht&Hid&Hcase).
  destruct (wo_map _ _ Hok _ _ Hts) as (_&[_ _ Hps]&_). rewrite Forall_forall in Hps. cbn in Hps.
  assert (Hsub : forall j, is_Some (pub_subscribers p !! j) -> exists sp, sp ∈ subscription s /\ sp_subscriber sp = j).
  { intros j Hj. destruct Hcase as [(sp&Hsp&_&Hiff)|[_ Hiff]]; [|by apply Hiff]. exists sp. apply Hiff in Hj. by subst. }
  destruct (ao_agents Hargs) as [_ Hmax]. unfold publication_u64, is_u64, u64_max, u32_max in *. repeat split.
  - destruct Hcase as [(sp&Hsp&->&_)|[-> _]]; [|lia]. destruct (Hps sp Hsp) as [? _].
    unfold u64_max in *. lia.
  - assert (Hdom : dom (pub_subscribers p) ⊆ (list_to_set (sp_subscriber <$> subscription s) : gset N)).
    { intros j [v Hv]%elem_of_dom. apply elem_of_list_to_set, list_elem_of_fmap.
      destruct (Hsub j) as (sp&Hsp&<-); [by exists v|]. by exists sp. }
    apply subseteq_size in Hdom. rewrite size_dom in Hdom.
    pose proof (size_list_to_set_le (sp_subscriber <$> subscription s)) as Hsz.
    rewrite length_fmap in Hsz. pose proof (state_size m _ _ Hts) as Hlen. cbn in Hlen.
    pose proof (wo_total _ _ Hok). destruct (ao_subscriptions Hargs) as [_ Hi32]. unfold i32_max in Hi32. lia.
  - apply Forall_forall. intros j Hj. rewrite hash_iter_values in Hj by done.
    destruct (Hsub j Hj) as (sp&Hsp&<-). destruct (Hps sp Hsp) as [_ ?]. lia.
Qed.
Lemma workload_fits : fits_i32 (subscription_pairs m) /\ fits_i32 pl.
Proof.
  unfold fits_i32. rewrite length_pairs. pose proof (wo_total _ _ Hok). pose proof (wo_length _ _ Hok).
  destruct (ao_subscriptions Hargs) as [_ ?]. pose proof (ao_publications Hargs). lia.
Qed.

(** The file reads back as the workload. *)
Lemma workload_file disk : (forall n, disk n = true) ->
  exists file, write_workload disk true m pl = Done file /\ Forall2 parses (lines file) (workload_messages m pl).
Proof.
  intros Hdisk. destruct workload_fits as [Hs Hp]. exists (text (workload_lines m pl)).
  split; [by apply write_workload_text|]. rewrite lines_text by apply workload_lines_ok.
  apply workload_parsed; [apply pairs_u64|apply pubs_u64|done].
Qed.
End sound.
End generating.
Close Scope string_scope.
