(* ===== verification/TestAgents.v ===== *)
(** * The test programs

    [testing/src/bin/publisher.rs] and [testing/src/bin/subscriber.rs]: the two
    sides of a test over a running node. In workload mode every subscriber makes
    its subscriptions of the workload and answers each publication with its own
    id; the publisher sends the publications, collects the answers and compares
    them with the receivers the workload allows.

    A program drives its service ([Service]) from the start to its loop in one
    computation; the turns of its loops take the item received, or the
    publication sent, as an argument. A workload file is its text, or [None] when
    it cannot be opened or read. Log output and progress bars are left out. *)
From Stdlib Require Import Ascii.
From stdpp Require Import base list gmap strings numbers option.
From S2P Require Import Prelude Proto Encoder Messages Text ComponentId MessageProcessing.
From S2P Require Import Session SessionLayer Service Slim Workload.
Import SlimConfig.
Open Scope string_scope.

Module TestAgents.
Abbreviation bytes := (list Byte.byte).

(** ** Payloads *)

(** [u64::to_be_bytes], [u64::from_be_bytes]. *)
Definition byte_of (n : N) : Byte.byte := default Byte.x00 (Byte.of_N (n `mod` 256)).
Fixpoint be_bytes (k : nat) (n : N) : bytes :=
  match k with
  | 0 => []
  | S k => byte_of (n `div` 256 ^ N.of_nat k)%N :: be_bytes k n
  end.
Definition to_be_bytes (n : N) : bytes := be_bytes 8 n.
Definition from_be_bytes (l : bytes) : N := foldl (fun acc b => acc * 256 + Byte.to_N b)%N 0%N l.

(** [v[i] = b]. *)
Definition set_byte (i : nat) (b : Byte.byte) (l : bytes) : panics bytes :=
  if decide (i < length l) then Done (<[i := b]> l) else Panic "index out of bounds".
Fixpoint set_bytes (i : nat) (v : bytes) (l : bytes) : panics bytes :=
  match v with
  | [] => Done l
  | b :: v => l ← set_byte i b l; set_bytes (S i) v l
  end.
(** [v[i..j]] for [i <= j]. *)
Definition slice (i j : nat) (l : bytes) : panics bytes :=
  if decide (j <= length l) then Done (take (j - i) (drop i l)) else Panic "range end index out of range".

(** The ASCII code of [x]. *)
Definition fill : Byte.byte := Byte.x78.

(** The publisher's: the id of the publication and a zero byte in a message of
    the size asked for. *)
Definition publication_payload (msg_size : nat) (pub_id : N) : panics bytes :=
  let payload := replicate msg_size fill in
  let pid := to_be_bytes pub_id in
  payload ← set_bytes 0 pid payload;
  set_byte (length pid) Byte.x00 payload.

(** The subscriber's answer: both ids, filled up to the length received. *)
Definition reply_payload (id : N) (payload : bytes) : panics bytes :=
  let msg_len := length payload in
  if decide (msg_len < 8) then Panic "error parsing message, unexpected payload format"
  else
    head ← slice 0 8 payload;
    let pub_id := from_be_bytes head in
    let out_vec := (to_be_bytes pub_id ++ [Byte.x00] ++ to_be_bytes id ++ [Byte.x00])%list in
    Done (out_vec ++ replicate (msg_len - length out_vec) fill)%list.

(** What the publisher reads in it. *)
Definition read_reply (payload : bytes) : panics (N * N) :=
  if decide (length payload < 18) then Panic "error parsing message"
  else
    pub_id ← slice 0 8 payload;
    recv_id ← slice 9 17 payload;
    Done (from_be_bytes pub_id, from_be_bytes recv_id).

(** ** The workload *)
Record WorkloadTest : Type := mkWorkloadTest {
  publication_list : gmap N Agent;
  oracle : gmap N (list N);
  routes : list Agent;
}.
Definition WorkloadTest_new : WorkloadTest := mkWorkloadTest ∅ ∅ [].

Section hashed.
Context `{Hasher}.

(** The publisher's loop over the lines. *)
Fixpoint load_publications (ls : list string) (w : WorkloadTest) : panics WorkloadTest :=
  match ls with
  | [] => Done w
  | line :: ls =>
      parsed ← Workload.parse_line line;
      match parsed with
      | Err _ => Panic "error while parsing the workload file"
      | Ok m =>
          load_publications ls
            (if decide (Workload.msg_type m = "SUB") then
               mkWorkloadTest (publication_list w) (oracle w) (routes w ++ [Workload.name m])%list
             else if decide (Workload.msg_type m = "PUB") then
               mkWorkloadTest (<[Workload.id m := Workload.name m]> (publication_list w))
                 (<[Workload.id m := Workload.receivers m]> (oracle w)) (routes w)
             else w)
      end
  end.

(** The subscriber's: its own subscriptions, up to the first publication. *)
Fixpoint load_subscriptions (id : N) (ls : list string) (subscriptions_list : list Agent) : panics (list Agent) :=
  match ls with
  | [] => Done subscriptions_list
  | line :: ls =>
      parsed ← Workload.parse_line line;
      match parsed with
      | Err _ => Panic "error while parsing the workload file"
      | Ok m =>
          if decide (Workload.msg_type m = "SUB" /\ Workload.id m = id) then
            load_subscriptions id ls (subscriptions_list ++ [Workload.name m])%list
          else if decide (Workload.msg_type m = "PUB") then Done subscriptions_list
          else load_subscriptions id ls subscriptions_list
      end
  end.
End hashed.

Definition read_file (file : option string) : panics string := expect file "error opening or reading the file".

(** The check at the end of the test. *)
Definition reply_ok (results : gmap N N) (p : N) (receivers : list N) : bool :=
  match results !! p with
  | None => false
  | Some val => bool_decide (val ∈ receivers)
  end.
Definition check_results `{HashIter} (oracle : gmap N (list N)) (results : gmap N N) : bool :=
  let succeeded := bool_decide (size oracle = size results) in
  foldl (fun succeeded p => if reply_ok results p.1 p.2 then succeeded else false) succeeded (hash_iter oracle).

(** An answer is put on the list of the results, an error skipped. *)
Definition receive_reply (item : Result SessionMessage SessionError) (results : gmap N N) : panics (gmap N N) :=
  match item with
  | Err _ => Done results
  | Ok msg_info =>
      message_type ← expect (pm_message_type (sm_message msg_info)) "called `Option::unwrap()` on a `None` value";
      match message_type with
      | Publish publish =>
          content ← expect (pu_msg publish) "called `Option::unwrap()` on a `None` value";
          '(pub_id, recv_id) ← read_reply (co_blob content);
          Done (<[pub_id := recv_id]> results)
      | _ => Panic "received unexpected message"
      end
  end.

(** ** The programs *)

(** [main] of the publisher: the modes [streaming] and [pubsub] that hold. *)
Definition publisher_mode (workload : option string) (streaming pubsub : bool) : bool * bool :=
  let '(streaming, pubsub) := if decide (is_Some workload) then (false, false) else (streaming, pubsub) in
  if pubsub then (false, pubsub) else if streaming then (streaming, false) else (streaming, pubsub).
Definition subscriber_mode (workload : option string) (streaming : bool) : bool :=
  if decide (is_Some workload) then false else streaming.

(** The name a publication without an id is sent to. *)
Definition name_id (a : Agent) : option N := if decide (ag_agent_id a = 0%N) then None else Some (ag_agent_id a).

Section agents.
Context `{Hasher, HashIter, Transport, Telemetry, ErrorText, Rng, DebugAssertions, UnicodeTables, StatusText}.
Context {G : GrpcConfig}.

Definition unwrap {A E} (why : string) (c : svc (Result A E)) : svc A :=
  r ← c; match r with Ok a => mret a | Err _ => may_panic (Panic why) end.
Definition none_unwrap : string := "called `Option::unwrap()` on a `None` value".
Definition err_unwrap : string := "called `Result::unwrap()` on an `Err` value".
Definition subscription_error : string := "an error accoured while adding a subscription".

(** The service named [slim/0] of the configuration. *)
Definition configured_service (services : gmap (string * string) (ID * Service)) : panics Service :=
  match ID_new_with_str "slim/0" with
  | Err _ => Panic err_unwrap
  | Ok svc_id => expect (snd <$> services !! id_key svc_id) none_unwrap
  end.

(** Both programs: the agent, the connections of the configuration, and the
    connection of the first client. *)
Definition start_agent (agent_name : Agent) (fate : ServiceFate) : svc (N * N) :=
  rx ← unwrap "failed to create agent" (create_agent agent_name);
  _ ← unwrap err_unwrap (run (sf_bound fate) (sf_controller_bound fate) (sf_attempts fate) (sf_controller_connected fate));
  s ← service;
  client ← may_panic (expect (head (clients (pubsub (sv_config s)))) "index out of bounds");
  conn ← get_connection_id (client_endpoint client);
  conn_id ← may_panic (expect conn none_unwrap);
  mret (rx, conn_id).

Section calls.
Variable fuel : nat.

(** *** The publisher *)
Definition publisher_name (id : N) : Agent := Agent_from_strings "cisco" "default" "publisher" id.
Definition publisher_start (id : N) (fate : ServiceFate) : svc (N * N) :=
  let agent_name := publisher_name id in
  '(rx, conn_id) ← start_agent agent_name fate;
  _ ← unwrap subscription_error
        (subscribe fuel agent_name (ag_agent_type agent_name) (agent_id_option agent_name) (Some conn_id));
  mret (rx, conn_id).

Definition stream_topic (streaming : bool) : AgentType :=
  if streaming then AgentType_from_strings "cisco" "default" "subscriber"
  else AgentType_from_strings "topic" "topic" "topic".
Definition stream_config (streaming : bool) : SessionConfig :=
  SessionConfig_Streaming
    (if streaming then StreamingConfiguration_new Sender None None None
     else StreamingConfiguration_new Bidirectional (Some (stream_topic streaming)) (Some 10%N) (Some (from_millis 1000))).
Definition publisher_stream_setup (id conn_id : N) (streaming : bool) : svc Info :=
  let agent_name := publisher_name id in
  let topic := stream_topic streaming in
  _ ← unwrap subscription_error (subscribe fuel agent_name topic None (Some conn_id));
  _ ← unwrap err_unwrap (set_route fuel agent_name topic None conn_id);
  unwrap "error creating fire and forget session" (Service_create_session fuel agent_name (stream_config streaming)).
(** One packet; an error is logged. *)
Definition publisher_stream_send (id : N) (session_info : Info) (streaming : bool) (msg_size : nat) : svc unit :=
  _ ← publish_with_flags fuel (publisher_name id) session_info (stream_topic streaming) None
        (SlimHeaderFlags_new 10 None None None None) (replicate msg_size fill);
  mret tt.
(** One turn of the spawned receiver. *)
Definition publisher_stream_recv (streaming pubsub : bool) (item : Result SessionMessage SessionError) : panics unit :=
  match item with
  | Err _ => Done tt
  | Ok msg =>
      if streaming then Panic "received message from slim, this should never happen"
      else if pubsub then
        _ ← get_source (sm_message msg);
        _ ← expect (in_message_id (sm_info msg)) none_unwrap;
        Done tt
      else Done tt
  end.

(** [for r in routes]. *)
Fixpoint set_routes (agent_name : Agent) (conn_id : N) (l : list Agent) : svc unit :=
  match l with
  | [] => mret tt
  | r :: l =>
      _ ← unwrap "an error accoured while adding a route"
            (set_route fuel agent_name (ag_agent_type r) (agent_id_option r) conn_id);
      set_routes agent_name conn_id l
  end.
Definition publisher_workload_setup (id conn_id : N) (file : option string) : svc (WorkloadTest * Info) :=
  buf ← may_panic (read_file file);
  w ← may_panic (load_publications (Workload.lines buf) WorkloadTest_new);
  _ ← set_routes (publisher_name id) conn_id (routes w);
  session_info ← unwrap "error creating fire and forget session"
    (Service_create_session fuel (publisher_name id) (SessionConfig_FireAndForget FireAndForgetConfiguration_default));
  mret (w, session_info).
(** One publication; an error is logged. *)
Definition publisher_send (id : N) (session_info : Info) (msg_size : nat) (p : N * Agent) : svc unit :=
  payload ← may_panic (publication_payload msg_size p.1);
  _ ← publish fuel (publisher_name id) session_info (ag_agent_type p.2) (name_id p.2) payload;
  mret tt.

(** *** The subscriber *)
Definition subscriber_name (id : N) : Agent := Agent_from_strings "cisco" "default" "subscriber" id.
Definition subscriber_stream_setup (id conn_id : N) : svc unit :=
  let agent_name := subscriber_name id in
  unwrap subscription_error
    (subscribe fuel agent_name (ag_agent_type agent_name) (agent_id_option agent_name) (Some conn_id)).
Definition subscriber_stream_recv (item : Result SessionMessage SessionError) : panics unit :=
  match item with
  | Err _ => Done tt
  | Ok recv_msg => _ ← expect (in_message_id (sm_info recv_msg)) none_unwrap; Done tt
  end.

Fixpoint subscribe_all (agent_name : Agent) (conn_id : N) (l : list Agent) : svc unit :=
  match l with
  | [] => mret tt
  | s :: l =>
      _ ← unwrap subscription_error
            (subscribe fuel agent_name (ag_agent_type s) (Some (ag_agent_id s)) (Some conn_id));
      subscribe_all agent_name conn_id l
  end.
Definition subscriber_workload_setup (id conn_id : N) (file : option string) : svc (list Agent) :=
  buf ← may_panic (read_file file);
  subscriptions_list ← may_panic (load_subscriptions id (Workload.lines buf) []);
  _ ← unwrap "error creating fire and forget session"
        (Service_create_session fuel (subscriber_name id)
           (SessionConfig_Streaming (StreamingConfiguration_new Receiver None (Some 10%N) (Some (from_millis 1000)))));
  _ ← subscribe_all (subscriber_name id) conn_id subscriptions_list;
  mret subscriptions_list.

(** One turn of the subscriber's loop; [None]: the channel is closed. *)
Definition subscriber_turn (id conn_id : N) (item : option (Result SessionMessage SessionError)) : svc unit :=
  item ← may_panic (expect item none_unwrap);
  match item with
  | Err _ => may_panic (Panic "error")
  | Ok recv_msg =>
      match pm_message_type (sm_message recv_msg) with
      | None => may_panic (Panic "message type is missing")
      | Some (Publish msg) =>
          content ← may_panic (expect (pu_msg msg) none_unwrap);
          if decide (length (co_blob content) < 8) then
            may_panic (Panic "error parsing message, unexpected payload format")
          else
            source ← may_panic (get_source (sm_message recv_msg));
            out_vec ← may_panic (reply_payload id (co_blob content));
            unwrap err_unwrap
              (publish_to fuel (subscriber_name id) (sm_info recv_msg) (ag_agent_type source) (Some (ag_agent_id source))
                 conn_id out_vec)
      | Some _ => may_panic (Panic "received unexpected message")
      end
  end.
End calls.

(** ** [main] of both programs, up to their loops *)
Inductive PublisherTask : Type :=
| Streams (streaming pubsub : bool) (session_info : Info)
| RunsWorkload (w : WorkloadTest) (session_info : Info).
Definition publisher_main (fuel : nat) (id : N) (workload : option (option string)) (streaming pubsub : bool)
    (services : gmap (string * string) (ID * Service)) (fate : ServiceFate)
    : panics (Service * (N * N * PublisherTask)) :=
  let '(streaming, pubsub) := publisher_mode ((fun _ => "") <$> workload) streaming pubsub in
  s0 ← configured_service services;
  (('(rx, conn_id) ← publisher_start fuel id fate;
    if streaming || pubsub then
      session_info ← publisher_stream_setup fuel id conn_id streaming;
      mret (rx, conn_id, Streams streaming pubsub session_info)
    else
      file ← may_panic (expect workload none_unwrap);
      '(w, session_info) ← publisher_workload_setup fuel id conn_id file;
      mret (rx, conn_id, RunsWorkload w session_info)) : svc (N * N * PublisherTask)) s0.

Definition subscriber_main (fuel : nat) (id : N) (workload : option (option string)) (streaming : bool)
    (services : gmap (string * string) (ID * Service)) (fate : ServiceFate)
    : panics (Service * (N * N * option (list Agent))) :=
  let streaming := subscriber_mode ((fun _ => "") <$> workload) streaming in
  s0 ← configured_service services;
  (('(rx, conn_id) ← start_agent (subscriber_name id) fate;
    if streaming then
      _ ← subscriber_stream_setup fuel id conn_id;
      mret (rx, conn_id, None)
    else
      file ← may_panic (expect workload none_unwrap);
      l ← subscriber_workload_setup fuel id conn_id file;
      mret (rx, conn_id, Some l)) : svc (N * N * option (list Agent))) s0.
End agents.
End TestAgents.
Close Scope string_scope.
