(* ===== verification/TestAgentsProofs.v ===== *)
(** * The test programs: lemmas

    Numbers as bytes, payloads, what the programs load of a workload, the final
    check. *)
From Stdlib Require Import Ascii.
From stdpp Require Import base list gmap strings numbers option.
From S2P Require Import Prelude Proto Encoder Messages Text ComponentId MessageProcessing ReceiverBuffer.
From S2P Require Import Session SessionLayer Service Slim Workload WorkloadProofs TestAgents.
Import TestAgents.
Open Scope string_scope.

(** ** Numbers as bytes *)
Lemma byte_of_N n : Byte.to_N (byte_of n) = (n `mod` 256)%N.
Proof.
  unfold byte_of. pose proof (N.mod_lt n 256 ltac:(done)) as Hn.
  destruct (Byte.of_N (n `mod` 256)) as [b|] eqn:E; [by apply Byte.to_of_N in E|].
  apply Byte.of_N_None_iff in E. lia.
Qed.
Lemma be_bytes_value k : forall n acc,
  foldl (fun acc b => acc * 256 + Byte.to_N b)%N acc (be_bytes k n) = (acc * 256 ^ N.of_nat k + n `mod` 256 ^ N.of_nat k)%N.
Proof.
  induction k as [|k IH]; intros n acc; [cbn; rewrite N.mod_1_r; lia|]. cbn [be_bytes foldl].
  rewrite IH, byte_of_N. rewrite Nat2N.inj_succ, N.pow_succ_r by lia.
  rewrite (N.mul_comm 256), N.Div0.mod_mul_r. lia.
Qed.
Lemma from_to_be_bytes n : is_u64 n -> from_be_bytes (to_be_bytes n) = n.
Proof.
  unfold is_u64, u64_max. intros Hn. unfold from_be_bytes, to_be_bytes. rewrite be_bytes_value.
  rewrite N.mul_0_l, N.add_0_l, N.mod_small; [done|]. change (256 ^ N.of_nat 8)%N with 18446744073709551616%N. lia.
Qed.
Lemma length_be_bytes k n : length (be_bytes k n) = k.
Proof. induction k; cbn; auto. Qed.
Lemma length_to_be_bytes n : length (to_be_bytes n) = 8.
Proof. apply length_be_bytes. Qed.

(** ** Payloads *)
Lemma set_bytes_spec v : forall a b l,
  length b = length v -> set_bytes (length a) v (a ++ b ++ l)%list = Done (a ++ v ++ l)%list.
Proof.
  induction v as [|x v IH]; intros a b l Hlen; [by destruct b|]. destruct b as [|y b]; [done|]. cbn [set_bytes].
  unfold set_byte. rewrite decide_True by (rewrite !length_app; cbn; lia).
  rewrite insert_app_r_alt, Nat.sub_diag by lia. cbn.
  specialize (IH (a ++ [x])%list b l ltac:(by injection Hlen)). rewrite length_app, Nat.add_1_r in IH.
  rewrite <- !app_assoc in IH. exact IH.
Qed.
Lemma publication_payload_ok n pid : 9 <= n ->
  publication_payload n pid = Done (to_be_bytes pid ++ [Byte.x00] ++ replicate (n - 9) fill)%list.
Proof.
  intros Hn. unfold publication_payload.
  replace (replicate n fill) with (replicate 8 fill ++ replicate (n - 8) fill)%list
    by (rewrite <- replicate_add; f_equal; lia).
  pose proof (set_bytes_spec (to_be_bytes pid) [] (replicate 8 fill) (replicate (n - 8) fill)) as Hset.
  rewrite length_to_be_bytes in Hset. specialize (Hset eq_refl). cbn [app length] in Hset.
  rewrite Hset. cbn [mbind panics_bind].
  unfold set_byte. rewrite decide_True by (rewrite length_app, length_replicate; lia).
  rewrite insert_app_r_alt, Nat.sub_diag by lia. by replace (n - 8) with (S (n - 9)) by lia.
Qed.
Lemma set_bytes_done v : forall i l l', set_bytes i v l = Done l' -> length l' = length l /\ (v <> [] -> i + length v <= length l).
Proof.
  induction v as [|x v IH]; intros i l l'; cbn [set_bytes]; [by intros [= <-]|].
  unfold set_byte. case_decide; cbn; [|done]. intros Hs. destruct (IH _ _ _ Hs) as [Hl Hv].
  rewrite length_insert in *. split; [done|]. intros _. destruct v; [cbn; lia|]. specialize (Hv ltac:(done)). cbn in *. lia.
Qed.
Lemma publication_payload_short n pid : n < 9 -> panicked (publication_payload n pid).
Proof.
  intros Hn. unfold publication_payload. destruct (set_bytes 0 _ _) as [l|why] eqn:E; [|by eexists].
  apply set_bytes_done in E as [Hl _]. rewrite length_replicate in Hl. cbn [mbind panics_bind]. unfold set_byte.
  rewrite length_to_be_bytes, decide_False by lia. by eexists.
Qed.

Lemma slice_app a b c : slice (length a) (length a + length b) (a ++ b ++ c)%list = Done b.
Proof.
  unfold slice. rewrite decide_True by (rewrite !length_app; lia). rewrite drop_app_length.
  replace (length a + length b - length a) with (length b) by lia. by rewrite take_app_length.
Qed.
Lemma slice_at a b c i j : i = length a -> j = length a + length b -> slice i j (a ++ b ++ c)%list = Done b.
Proof. intros -> ->. apply slice_app. Qed.
Lemma slice_head b c j : j = length b -> slice 0 j (b ++ c)%list = Done b.
Proof. intros ->. exact (slice_app [] b c). Qed.

Lemma reply_payload_ok id pid rest : is_u64 pid ->
  reply_payload id (to_be_bytes pid ++ rest)%list =
  Done (to_be_bytes pid ++ [Byte.x00] ++ to_be_bytes id ++ [Byte.x00] ++ replicate (8 + length rest - 18) fill)%list.
Proof.
  intros Hp. unfold reply_payload. rewrite decide_False by (rewrite length_app, length_to_be_bytes; lia).
  rewrite slice_head by (by rewrite length_to_be_bytes). cbn [mbind panics_bind].
  rewrite from_to_be_bytes by done. rewrite <- !app_assoc.
  by rewrite !length_app, !length_to_be_bytes.
Qed.
Lemma read_reply_ok pid id rest : is_u64 pid -> is_u64 id ->
  read_reply (to_be_bytes pid ++ [Byte.x00] ++ to_be_bytes id ++ [Byte.x00] ++ rest)%list = Done (pid, id).
Proof.
  intros Hp Hi. unfold read_reply. rewrite decide_False by (rewrite !length_app, !length_to_be_bytes; cbn; lia).
  rewrite slice_head by (by rewrite length_to_be_bytes). cbn [mbind panics_bind].
  rewrite app_assoc. rewrite (slice_at (to_be_bytes pid ++ [Byte.x00]) (to_be_bytes id))
    by (by rewrite ?length_app, ?length_to_be_bytes). cbn [mbind panics_bind].
  by rewrite !from_to_be_bytes.
Qed.

(** ** Loading *)
Section loading.
Context `{Hasher}.

Definition add_message (w : WorkloadTest) (m : Workload.ParsedMessage) : WorkloadTest :=
  if decide (Workload.msg_type m = "SUB") then
    mkWorkloadTest (publication_list w) (oracle w) (routes w ++ [Workload.name m])%list
  else if decide (Workload.msg_type m = "PUB") then
    mkWorkloadTest (<[Workload.id m := Workload.name m]> (publication_list w))
      (<[Workload.id m := Workload.receivers m]> (oracle w)) (routes w)
  else w.
Lemma load_publications_fold ls ms : Forall2 parses ls ms -> forall w,
  load_publications ls w = Done (foldl add_message w ms).
Proof.
  induction 1 as [|l m ls ms Hl _ IH]; intros w; [done|]. cbn [load_publications foldl]. rewrite Hl.
  cbn [mbind panics_bind]. apply IH.
Qed.
Lemma foldl_subs l : forall w,
  foldl add_message w (sub_message <$> l) =
  mkWorkloadTest (publication_list w) (oracle w) (routes w ++ (Workload.name ∘ sub_message <$> l))%list.
Proof.
  induction l as [|s l IH]; intros w; [cbn; rewrite app_nil_r; by destruct w|]. cbn [fmap list_fmap foldl].
  unfold add_message at 2. rewrite decide_True by done. rewrite IH. cbn. by rewrite <- app_assoc.
Qed.

Context `{HashIter}.
Lemma foldl_pubs pl : forall w,
  let w' := foldl add_message w (imap pub_message pl) in
  routes w' = routes w /\ forall n,
    publication_list w' !! n = (match pl !! N.to_nat n with
                                | Some p => Some (Workload.name (pub_message 0 p))
                                | None => publication_list w !! n
                                end) /\
    oracle w' !! n = (match pl !! N.to_nat n with
                      | Some p => Some (Workload.receivers (pub_message 0 p))
                      | None => oracle w !! n
                      end).
Proof.
  induction pl as [|p pl IH] using rev_ind; intros w; [done|]. cbn zeta. rewrite imap_app, foldl_app. cbn [imap foldl].
  destruct (IH w) as [Hr Hn]. set (w1 := foldl add_message w (imap pub_message pl)) in *.
  unfold add_message. rewrite decide_False, decide_True by done. cbn [routes publication_list oracle].
  split; [done|]. intros n. destruct (Hn n) as [Hp Ho]. unfold compose. rewrite Nat.add_0_r.
  destruct (decide (n = N.of_nat (length pl))) as [->|Hne].
  - cbn [Workload.id pub_message]. rewrite !lookup_insert_eq, Nat2N.id.
    by rewrite lookup_app_r, Nat.sub_diag by lia.
  - cbn [Workload.id pub_message]. rewrite !lookup_insert_ne by done. rewrite Hp, Ho.
    destruct (decide (N.to_nat n < length pl)) as [Hlt|Hge].
    + by rewrite lookup_app_l by done.
    + rewrite !(lookup_ge_None_2 pl) by lia. rewrite lookup_ge_None_2; [done|]. rewrite length_app. cbn. lia.
Qed.

(** What the publisher has loaded of a workload. *)
Definition loaded (m : Workload.TypeMap) (pl : list Workload.Publication) (w : WorkloadTest) : Prop :=
  routes w = (Workload.name ∘ sub_message <$> Workload.subscription_pairs m) /\ forall n,
    publication_list w !! n = (Workload.name ∘ pub_message 0 <$> pl !! N.to_nat n) /\
    oracle w !! n = (Workload.receivers ∘ pub_message 0 <$> pl !! N.to_nat n).
Lemma publications_loaded ls m pl : Forall2 parses ls (workload_messages m pl) ->
  exists w, load_publications ls WorkloadTest_new = Done w /\ loaded m pl w.
Proof.
  intros Hls. rewrite (load_publications_fold ls _ Hls). eexists. split; [done|]. unfold workload_messages.
  rewrite foldl_app, foldl_subs. destruct (foldl_pubs pl (mkWorkloadTest ∅ ∅
    (Workload.name ∘ sub_message <$> Workload.subscription_pairs m)%list)) as [Hr Hn]. cbn in Hr, Hn. cbn.
  split; [done|]. intros n. destruct (Hn n) as [-> ->]. rewrite !lookup_empty. by destruct (pl !! N.to_nat n).
Qed.

Lemma loaded_size m pl w : loaded m pl w -> size (publication_list w) = length pl.
Proof.
  intros [_ Hn]. replace (publication_list w) with
    (list_to_map (imap (fun i p => (N.of_nat i, Workload.name (pub_message 0 p))) pl) : gmap N Agent).
  - rewrite <- (size_dom (D:=gset N)), dom_list_to_map_L.
    assert (E : (imap (fun i p => (N.of_nat i, Workload.name (pub_message 0 p))) pl).*1 = N.of_nat <$> seq 0 (length pl)).
    { apply list_eq. intros k. rewrite !list_lookup_fmap, list_lookup_imap. destruct (decide (k < length pl)) as [Hk|Hk].
      - rewrite lookup_seq_lt by done. apply lookup_lt_is_Some in Hk as [p ->]. done.
      - rewrite lookup_seq_ge, (lookup_ge_None_2 pl) by lia. done. }
    rewrite E, size_list_to_set by (apply NoDup_fmap; [intros ???; lia|apply NoDup_seq]). by rewrite length_fmap, length_seq.
  - apply map_eq. intros n. rewrite (proj1 (Hn n)). destruct (pl !! N.to_nat n) as [p|] eqn:E; cbn.
    + apply elem_of_list_to_map_1'.
      * intros y Hy. apply list_elem_of_lookup in Hy as [k Hk]. rewrite list_lookup_imap in Hk.
        destruct (pl !! k) as [q|] eqn:Eq; [|done]. cbn in Hk. injection Hk as Hk <-. subst n. rewrite Nat2N.id in E. congruence.
      * apply list_elem_of_lookup. exists (N.to_nat n). rewrite list_lookup_imap, E. cbn. by rewrite N2Nat.id.
    + apply not_elem_of_list_to_map_1. intros Hin. apply list_elem_of_fmap in Hin as ([n' q]&->&Hin).
      apply list_elem_of_lookup in Hin as [k Hk]. rewrite list_lookup_imap in Hk.
      destruct (pl !! k) as [q'|] eqn:Eq; [|done]. cbn in Hk. injection Hk as <- _. cbn in E. rewrite Nat2N.id in E. congruence.
Qed.

Lemma load_subscriptions_pubs id ls pl k : forall acc,
  Forall2 parses ls (imap (fun i => pub_message (k + i)) pl) -> load_subscriptions id ls acc = Done acc.
Proof.
  intros acc Hls. destruct pl as [|p pl]; cbn in Hls; inversion Hls as [|l m ls' ms Hl Hrest]; subst; [done|].
  cbn [load_subscriptions]. rewrite Hl. cbn [mbind panics_bind]. rewrite decide_False by (by intros [? _]).
  by rewrite decide_True.
Qed.
(** Those of the subscriber [id], in the order of the file. *)
Definition own_subscriptions (id : N) (m : Workload.TypeMap) : list Agent :=
  Workload.name ∘ sub_message <$> filter (fun s => Workload.sp_subscriber s.2 = id) (Workload.subscription_pairs m).
Lemma subscriptions_loaded ls m pl id : Forall2 parses ls (workload_messages m pl) ->
  load_subscriptions id ls [] = Done (own_subscriptions id m).
Proof.
  unfold workload_messages, own_subscriptions. intros (l1&l2&Hl1&Hl2&->)%Forall2_app_inv_r.
  assert (Hgen : forall acc, load_subscriptions id (l1 ++ l2)%list acc =
    Done (acc ++ (Workload.name ∘ sub_message <$>
      filter (fun s => Workload.sp_subscriber s.2 = id) (Workload.subscription_pairs m)))%list); [|apply Hgen].
  revert l1 Hl1. induction (Workload.subscription_pairs m) as [|s l IH]; intros l1 Hl1 acc.
  - inversion Hl1; subst. cbn. rewrite app_nil_r. by apply (load_subscriptions_pubs id l2 pl 0).
  - cbn [fmap list_fmap] in Hl1. inversion Hl1 as [|x m' l1' ms Hx Hrest]; subst. cbn [app load_subscriptions].
    rewrite Hx. cbn [mbind panics_bind]. rewrite filter_cons.
    destruct (decide (Workload.sp_subscriber s.2 = id)) as [Hs|Hs].
    + rewrite decide_True by done. rewrite IH by done. cbn [fmap list_fmap]. by rewrite <- app_assoc.
    + rewrite decide_False by (by intros [_ ?]). rewrite decide_False by done. by rewrite IH.
Qed.
End loading.

(** ** The check *)
Lemma foldl_false {A} (p : A -> bool) l : forall b,
  foldl (fun b x => if p x then b else false) b l = b && forallb p l.
Proof.
  induction l as [|x l IH]; intros b; cbn; [by rewrite andb_true_r|]. rewrite IH. by destruct (p x), b.
Qed.
Lemma check_results_spec `{HashIter} oracle results :
  check_results oracle results = true <->
  size oracle = size results /\
  forall p receivers, oracle !! p = Some receivers -> exists v, results !! p = Some v /\ v ∈ receivers.
Proof.
  unfold check_results. rewrite (foldl_false (fun p => reply_ok results p.1 p.2)), andb_true_iff, bool_decide_eq_true.
  rewrite forallb_forall. setoid_rewrite <- list_elem_of_In. apply and_iff_compat_l. split.
  - intros Hall p r Hp. assert (Hin : (p, r) ∈ hash_iter oracle) by (by rewrite hash_iter_perm, elem_of_map_to_list).
    specialize (Hall _ Hin). cbn in Hall. unfold reply_ok in Hall. destruct (results !! p) as [v|]; [|done].
    exists v. split; [done|]. by apply bool_decide_eq_true in Hall.
  - intros Hall [p r] Hin. rewrite hash_iter_perm, elem_of_map_to_list in Hin. destruct (Hall p r Hin) as (v&Hv&Hr).
    cbn. unfold reply_ok. rewrite Hv. by apply bool_decide_eq_true.
Qed.
Close Scope string_scope.
