(* ===== verification/TestAgentsClaims.v ===== *)
(** * Workloads and test programs: theorems

    A generated workload, written and read again, routed by the subscription
    table of a node and answered by the subscribers, passes the publisher's check;
    what the generator and the programs do on arguments at the edge. *)
From Stdlib Require Import Ascii.
From stdpp Require Import base list gmap strings numbers option.
From S2P Require Import Prelude Proto Encoder Messages Text ComponentId MessageProcessing ReceiverBuffer.
From S2P Require Import Pool SubscriptionTable SubscriptionTableProofs SubscriptionTableSpec.
From S2P Require Import Session SessionLayer Service Slim Workload WorkloadProofs TestAgents TestAgentsProofs.
Import TestAgents.
Open Scope string_scope.

(** ** A table with nothing but subscriptions

    Every pool keeps its [max_set] right, so that matching finds every
    connection. *)
Definition tight (t : SubscriptionTable) : Prop :=
  forall tk a s b, st_table t !! tk = Some (a, s) -> max_set_ok (cs_pool (side b (ts_connections s))).

Lemma Connections_insert_tight c cnt conn c' :
  Connections_rep c cnt -> max_set_ok (cs_pool c) -> Connections_insert c conn = Done c' -> max_set_ok (cs_pool c').
Proof.
  intros Hrep Hmax. unfold Connections_insert. destruct (cs_index c !! conn) as [pos|].
  - destruct (Pool_get (cs_pool c) pos) as [ci|] eqn:Hci; intros [= <-]; [|done]. cbn.
    intros i Hi. rewrite Pool_get_update in Hi. unfold Pool_update. rewrite Hci. cbn. apply Hmax.
    destruct (decide (i = pos)) as [->|]; [by eexists|done].
  - destruct (Pool_insert_total _ (ConnId_new conn) (rep_pool_wf _ _ Hrep) (rep_capacity _ _ Hrep))
      as (p&pos&->&_&_&_&Hget&_&_&Hm). cbn. intros [= <-]. cbn. intros i. rewrite Hget, Hm.
    case_decide; [lia|]. intros Hi. apply Hmax in Hi. lia.
Qed.
Lemma AgentTypeState_insert_tight s id conn b s' :
  AgentTypeState_wf s -> (forall b, max_set_ok (cs_pool (side b (ts_connections s)))) ->
  AgentTypeState_insert s id conn b = Done s' -> forall b, max_set_ok (cs_pool (side b (ts_connections s'))).
Proof.
  intros Hwf Hmax. unfold AgentTypeState_insert. destruct (Connections_insert _ conn) as [c|] eqn:Hc; cbn; [|done].
  pose proof (Connections_insert_tight _ _ _ _ (tw_conns s Hwf b) (Hmax b) Hc) as Hm.
  intros Hs' b'. assert (E : ts_connections s' = set_side b c (ts_connections s)) by (destruct (ts_ids s !! id); by injection Hs' as <-).
  rewrite E. specialize (Hmax b'). by destruct b, b'.
Qed.
Lemma default_tight b : max_set_ok (cs_pool (side b (ts_connections AgentTypeState_default))).
Proof. intros i Hi. destruct b; cbn in Hi; rewrite Pool_get_with_capacity in Hi; by destruct Hi. Qed.

Lemma add_subscription_tight t S ty uid k b t' r :
  represents t S -> tight t -> add_subscription t ty uid k b = Done (t', r) -> tight t'.
Proof.
  intros Hrep Ht. unfold add_subscription. destruct (match st_connections t !! k with Some _ => _ | None => _ end); [by intros [= <- _]|].
  destruct (add_subscription_to_sub_table _ k b (st_table t)) as [table|] eqn:E; cbn; [|done]. intros [= <- _].
  set (agent := Agent_new ty (default DEFAULT_AGENT_ID uid)) in *.
  assert (Hnew : exists s, table = hm_insert type_key (ag_agent_type agent) s (st_table t) /\
    forall b, max_set_ok (cs_pool (side b (ts_connections s)))).
  { unfold add_subscription_to_sub_table in E. destruct (hm_get type_key (ag_agent_type agent) (st_table t)) as [s0|] eqn:Hs0.
    - destruct (AgentTypeState_insert s0 _ k b) as [s|] eqn:Hs; cbn in E; [|done]. injection E as <-. exists s. split; [done|].
      unfold hm_get in Hs0. apply fmap_Some in Hs0 as ([a0 s0']&Hl&->).
      eapply AgentTypeState_insert_tight; [apply (rs_types _ _ Hrep _ _ _ Hl)| |exact Hs]. intros b'. by eapply Ht.
    - rewrite AgentTypeState_new_insert in E. destruct (AgentTypeState_insert _ _ k b) as [s|] eqn:Hs; cbn in E; [|done].
      injection E as <-. exists s. split; [done|].
      eapply AgentTypeState_insert_tight; [apply AgentTypeState_default_wf|apply default_tight|exact Hs]. }
  destruct Hnew as (s&->&Hs). intros tk a s1 b1 Hl. apply (f_equal (fmap snd)) in Hl.
  cbn [st_table] in Hl. rewrite hm_insert_lookup in Hl. case_decide; cbn in Hl; [by injection Hl as <-|].
  apply fmap_Some in Hl as ([a1 s1']&Hl&[= ->]). by eapply Ht.
Qed.

(** Remote subscriptions for single agents. *)
Definition remote_sub (o : sub_op) : Prop := exists ty id k, o = OpSubscribe ty (Some id) k false.
Lemma remote_subs_run `{HashIter} ops : Forall remote_sub ops -> forall t S,
  represents t S -> tight t -> (forall e, e ∈ S -> e.1.2 = false) ->
  exists t' S' l, run_ops t ops = Done (t', l) /\ represents t' S' /\ tight t' /\
    forall e, e ∈ S' <-> e ∈ S \/ exists ty id k, OpSubscribe ty (Some id) k false ∈ ops /\ e = ((type_key ty, id), false, k).
Proof.
  induction 1 as [|o ops (ty&id&k&->) _ IH]; intros t S Hrep Ht Hside.
  { exists t, S, []. do 3 (split; [done|]). intros e. split; [by left|]. intros [?|(?&?&?&Hin&_)]; [done|]. by apply elem_of_nil in Hin. }
  destruct (add_subscription_refines t S ty (Some id) k false Hrep) as (t1&Hadd&Hrep1).
  { intros e He _. by apply Hside. }
  destruct (IH t1 (S ∪ {[(op_key ty (Some id), false, k)]}) Hrep1) as (t'&S'&l&Hrun&Hrep'&Ht'&Hin).
  { exact (add_subscription_tight _ _ _ _ _ _ _ _ Hrep Ht Hadd). }
  { intros e. rewrite elem_of_union, elem_of_singleton. intros [He| ->]; [by apply Hside|done]. }
  exists t', S', (Ok tt :: l). cbn. rewrite Hadd. cbn. rewrite Hrun. cbn. do 3 (split; [done|]).
  intros e. rewrite Hin, elem_of_union, elem_of_singleton. split.
  - intros [[He| ->]|(ty'&id'&k'&Hi&->)]; [by left| |].
    + right. exists ty, id, k. split; [by left|done].
    + right. exists ty', id', k'. split; [by right|done].
  - intros [He|(ty'&id'&k'&Hi&->)]; [by left; left|].
    apply elem_of_cons in Hi as [[= -> -> ->]|Hi]; [by left; right|]. right. by exists ty', id', k'.
Qed.

(** ** Routing a workload *)
Section routing.
Context `{Hasher, HashIter, BuildProfile}.
Variable a : Workload.Args.

(** No two names of a workload fall together: the types the parser makes of
    different types differ, the agents of a type have different ids, and none has
    the id [0], with which a publication names no agent. *)
Definition apart (m : Workload.TypeMap) : Prop :=
  map_Forall (fun k e =>
    map_Forall (fun k' e' => type_key (reparse e.1) = type_key (reparse e'.1) -> k = k') m /\
    NoDup (Workload.sp_agent_id <$> Workload.subscription e.2) /\
    0%N ∉ (Workload.sp_agent_id <$> Workload.subscription e.2)) m.
#[export] Instance apart_dec m : Decision (apart m).
Proof. apply _. Defined.

(** The subscriptions of the subscribers have reached the node, over the
    connection of each, in any order. *)
Definition subscribed (m : Workload.TypeMap) (conn : N -> N) (ops : list sub_op) : Prop :=
  forall o, o ∈ ops <-> exists j s, s ∈ own_subscriptions j m /\
    o = OpSubscribe (ag_agent_type s) (Some (ag_agent_id s)) (conn j) false.

Lemma elem_of_own j m s : s ∈ own_subscriptions j m <->
  exists k t st p, m !! k = Some (t, st) /\ p ∈ Workload.subscription st /\ Workload.sp_subscriber p = j /\
    s = Agent_new (reparse t) (Workload.sp_agent_id p).
Proof.
  unfold own_subscriptions. rewrite list_elem_of_fmap. split.
  - intros ([t p]&->&[Hj Hin]%list_elem_of_filter). apply elem_of_pairs in Hin as (k&st&Hk&Hp). by exists k, t, st, p.
  - intros (k&t&st&p&Hk&Hp&Hj&->). exists (t, p). split; [done|]. apply list_elem_of_filter. split; [done|].
    apply elem_of_pairs. by exists k, st.
Qed.

(** They can be put in an order. *)
Definition subscription_ops (conn : N -> N) (m : Workload.TypeMap) : list sub_op :=
  (fun s => OpSubscribe (reparse s.1) (Some (Workload.sp_agent_id s.2)) (conn (Workload.sp_subscriber s.2)) false)
    <$> Workload.subscription_pairs m.
Lemma subscription_ops_all conn m : subscribed m conn (subscription_ops conn m).
Proof.
  intros o. unfold subscription_ops. rewrite list_elem_of_fmap. split.
  - intros ([t p]&->&(k&st&Hk&Hp)%elem_of_pairs). exists (Workload.sp_subscriber p), (Agent_new (reparse t) (Workload.sp_agent_id p)).
    split; [|done]. apply elem_of_own. by exists k, t, st, p.
  - intros (j&s&(k&t&st&p&Hk&Hp&<-&->)%elem_of_own&->). exists (t, p). split; [done|]. apply elem_of_pairs. by exists k, st.
Qed.

Section node.
Variables (m : Workload.TypeMap) (conn : N -> N) (ops : list sub_op) (pc : N).
Context (Hmap : map_ok a m) (Hapart : apart m) (Hops : subscribed m conn ops) (Hpc : forall j, conn j <> pc).

(** What the table stands for. *)
Definition holds (S : Subs) : Prop := forall e, e ∈ S <-> exists k t st p, m !! k = Some (t, st) /\
  p ∈ Workload.subscription st /\ e = ((type_key (reparse t), Workload.sp_agent_id p), false, conn (Workload.sp_subscriber p)).
Lemma node_table : exists t S l, run_ops SubscriptionTable_default ops = Done (t, l) /\ represents t S /\ tight t /\ holds S.
Proof.
  destruct (remote_subs_run ops) with (t := SubscriptionTable_default) (S := ∅ : Subs) as (t&S&l&Hrun&Hrep&Ht&Hin).
  - apply Forall_forall. intros o Ho%list_elem_of_In. apply Hops in Ho as (j&s&_&->). by eexists _, _, _.
  - apply represents_empty.
  - intros tk x s b. cbn. by rewrite lookup_empty.
  - intros e He. by apply elem_of_empty in He.
  - exists t, S, l. do 3 (split; [done|]). intros e. rewrite Hin. split.
    + intros [He|(ty&id&k&Ho&->)]; [by apply elem_of_empty in He|].
      apply Hops in Ho as (j&s&Hs&[= -> -> ->]). apply elem_of_own in Hs as (k'&t'&st&p&Hk&Hp&<-&->). by exists k', t', st, p.
    + intros (k&t'&st&p&Hk&Hp&->). right. exists (reparse t'), (Workload.sp_agent_id p), (conn (Workload.sp_subscriber p)).
      split; [|done]. apply Hops. exists (Workload.sp_subscriber p), (Agent_new (reparse t') (Workload.sp_agent_id p)).
      split; [|done]. apply elem_of_own. by exists k, t', st, p.
Qed.

(** Whoever is subscribed for the name of a type subscribed for that type. *)
Lemma holds_same S t st k id b : holds S -> m !! type_key t = Some (t, st) ->
  ((type_key (reparse t), id), b, k) ∈ S ->
  exists p, p ∈ Workload.subscription st /\ id = Workload.sp_agent_id p /\ k = conn (Workload.sp_subscriber p).
Proof.
  intros HS Hts Hin. apply HS in Hin as (k'&t'&st'&p&Hk&Hp&[= Ho Hn Hy -> -> ->]).
  assert (E : type_key t = k'). { apply (proj1 (Hapart _ _ Hts) _ _ Hk). unfold type_key; cbn. congruence. }
  subst k'. rewrite Hts in Hk. injection Hk as <- <-. by exists p.
Qed.

(** Every publication is routed to one of the receivers its line lists. *)
Lemma publication_routed t S p r1 r2 : represents t S -> tight t -> holds S -> pub_ok m p ->
  exists j, match_one t (reparse (ag_agent_type (Workload.publication p))) (name_id (Workload.publication p)) pc r1 r2
      = Done (Ok (conn j)) /\ j ∈ (hash_iter (Workload.pub_subscribers p)).*2.
Proof.
  intros Hrep Ht HS (ty&st&Hts&Hty&Hid&Hcase). rewrite Hty. setoid_rewrite hash_iter_values; [|done].
  destruct (match_one_exact t S Hrep (reparse ty) (name_id (Workload.publication p)) pc r1 r2) as (res&Hres&Hspec).
  rewrite Hres. clear Hres. unfold name_id in *.
  assert (Hown : forall sp, sp ∈ Workload.subscription st ->
    ((type_key (reparse ty), Workload.sp_agent_id sp), false, conn (Workload.sp_subscriber sp)) ∈ S).
  { intros sp Hsp. apply HS. by exists (type_key ty), ty, st, sp. }
  assert (Hnopc : forall ak b, (ak, b, pc) ∉ S).
  { intros ak b Hin. apply HS in Hin as (?&?&?&sp&_&_&E). injection E as _ _ E. by apply (Hpc (Workload.sp_subscriber sp)). }
  destruct (proj2 (Hapart _ _ Hts)) as [Hnd Hno0]. cbn in Hnd, Hno0.
  destruct Hcase as [(sp&Hsp&Eid&Hsub)|[Eid Hsub]].
  - rewrite Eid in *. rewrite decide_False in * by (intros E0; apply Hno0; rewrite <- E0; by apply list_elem_of_fmap_2).
    destruct res as [k|e].
    + destruct Hspec as (Hne&b&[[_ Hin]|(id&[= <-]&Hnone&_)]); [|exfalso; by eapply Hnone, Hown].
      destruct (holds_same S ty st k _ b HS Hts Hin) as (p'&Hp'&Eid'&->). exists (Workload.sp_subscriber p'). split; [done|].
      apply Hsub. f_equal. apply list_elem_of_lookup in Hsp as [i Hi], Hp' as [i' Hi'].
      assert (i' = i) as -> by (eapply NoDup_lookup; [exact Hnd| |]; rewrite list_lookup_fmap; [rewrite Hi'|rewrite Hi]; cbn; by rewrite ?Eid').
      congruence.
    + destruct Hspec as [_ Hno]. exfalso. eapply (Hno (fun b => Hnopc _ b) false). split; [|by apply Hown]. apply Hpc.
  - rewrite Eid in *. rewrite decide_True in * by done. destruct res as [k|e].
    + destruct Hspec as (Hne&b&[[_ [id Hin]]|(id&[=]&_)]).
      destruct (holds_same S ty st k id b HS Hts Hin) as (p'&Hp'&_&->). exists (Workload.sp_subscriber p').
      split; [done|]. apply Hsub. by exists p'.
    + destruct Hspec as [_ Hno]. exfalso. destruct (Hmap _ _ Hts) as (_&_&Hne). cbn in Hne.
      destruct (Workload.subscription st) as [|sp l] eqn:Est; [done|].
      eapply (Hno) with (b := false) (k := conn (Workload.sp_subscriber sp)).
      * intros s b Hs. apply fmap_Some in Hs as ([a0 s0]&Hl&->). by eapply Ht.
      * split; [apply Hpc|]. exists (Workload.sp_agent_id sp). apply Hown. by left.
Qed.
End node.

(** ** The test *)

(** A publication goes to a subscriber and its answer back to the publisher. *)
Definition answer (msg_size : nat) (n v : N) : panics (N * N) :=
  payload ← publication_payload msg_size n;
  reply ← reply_payload v payload;
  read_reply reply.
Fixpoint collect (msg_size : nat) (results : gmap N N) (l : list (N * N)) : panics (gmap N N) :=
  match l with
  | [] => Done results
  | (n, v) :: l =>
      '(pub_id, recv_id) ← answer msg_size n v;
      collect msg_size (<[pub_id := recv_id]> results) l
  end.

Lemma answer_ok msg_size n v : 9 <= msg_size -> is_u64 n -> is_u64 v -> answer msg_size n v = Done (n, v).
Proof.
  intros Hs Hn Hv. unfold answer. rewrite publication_payload_ok by done. cbn [mbind panics_bind].
  rewrite reply_payload_ok by done. cbn [mbind panics_bind]. by apply read_reply_ok.
Qed.
Lemma collect_ok msg_size l : 9 <= msg_size -> Forall (fun e => is_u64 e.1 /\ is_u64 e.2) l -> forall results,
  exists results', collect msg_size results l = Done results' /\ dom results' = dom results ∪ list_to_set l.*1 /\
    forall n v, results' !! n = Some v -> results !! n = Some v \/ (n, v) ∈ l.
Proof.
  intros Hs. induction 1 as [|[n v] l [Hn Hv] _ IH]; intros results.
  { exists results. split; [done|]. split; [set_solver|auto]. }
  cbn [collect]. rewrite answer_ok by done. cbn [mbind panics_bind].
  destruct (IH (<[n := v]> results)) as (results'&->&Hdom&Hin). exists results'. split; [done|]. split.
  - rewrite Hdom, dom_insert_L. cbn. set_solver.
  - intros n' v' Hr. apply Hin in Hr as [Hr|Hr]; [|right; by right].
    apply lookup_insert_Some in Hr as [[<- <-]|[_ Hr]]; [right; by left|by left].
Qed.

(** The answers: each from the subscriber its publication was routed to, at least
    one for every publication. *)
Definition answers (t : SubscriptionTable) (w : WorkloadTest) (conn : N -> N) (pc : N) (l : list (N * N)) : Prop :=
  (forall n, n ∈ l.*1 <-> is_Some (publication_list w !! n)) /\
  (forall n v, (n, v) ∈ l -> exists p r1 r2, publication_list w !! n = Some p /\
     match_one t (ag_agent_type p) (name_id p) pc r1 r2 = Done (Ok (conn v))).
Definition routed (t : SubscriptionTable) (w : WorkloadTest) (conn : N -> N) (pc : N) : Prop :=
  forall n p r1 r2, publication_list w !! n = Some p ->
    exists v receivers, match_one t (ag_agent_type p) (name_id p) pc r1 r2 = Done (Ok (conn v)) /\
      oracle w !! n = Some receivers /\ v ∈ receivers.

Lemma answers_accepted msg_size t w m pl conn pc l :
  9 <= msg_size -> args_ok a -> workload_ok a m pl -> loaded m pl w -> Inj (=) (=) conn ->
  routed t w conn pc -> answers t w conn pc l ->
  exists results, collect msg_size ∅ l = Done results /\ check_results (oracle w) results = true.
Proof.
  intros Hs Hargs Hok [_ Hw] Hinj Hrouted [Hdom Hans].
  assert (Hrec : forall n v, (n, v) ∈ l -> exists receivers, oracle w !! n = Some receivers /\ v ∈ receivers).
  { intros n v Hin. destruct (Hans n v Hin) as (p&r1&r2&Hp&Hm). destruct (Hrouted n p r1 r2 Hp) as (v'&R&Hm'&HR&Hv).
    exists R. split; [done|]. assert (conn v = conn v') as ->%Hinj by congruence. done. }
  destruct (collect_ok msg_size l Hs) with (results := ∅ : gmap N N) as (results&Hc&Hd&Hin).
  { apply Forall_forall. intros [n v] Hnv%list_elem_of_In. destruct (Hrec n v Hnv) as (R&HR&Hv).
    rewrite (proj2 (Hw n)) in HR. apply fmap_Some in HR as (p&Hp&->).
    pose proof (pubs_u64 a Hargs m pl Hok) as Hu. eapply Forall_lookup_1 in Hu as (_&_&Hu); [|exact Hp].
    split; cbn.
    - apply lookup_lt_Some in Hp. destruct (workload_fits a Hargs m pl Hok) as [_ Hf].
      unfold fits_i32, Workload.i32_max in Hf. unfold is_u64, u64_max. lia.
    - by eapply Forall_forall in Hu; [|by apply list_elem_of_In]. }
  exists results. split; [done|]. rewrite dom_empty_L, (left_id_L ∅ (∪)) in Hd. apply check_results_spec. split.
  - rewrite <- !(size_dom (D:=gset N)). f_equal. apply set_eq. intros n. rewrite Hd, elem_of_list_to_set, Hdom, elem_of_dom.
    destruct (Hw n) as [-> ->]. by rewrite !fmap_is_Some.
  - intros n R HR. assert (Hn : n ∈ dom results).
    { rewrite Hd, elem_of_list_to_set, Hdom. rewrite (proj2 (Hw n)) in HR. rewrite (proj1 (Hw n)).
      destruct (pl !! N.to_nat n); [by eexists|done]. }
    apply elem_of_dom in Hn as [v Hv]. exists v. split; [done|]. apply Hin in Hv as [Hv|Hv]; [by rewrite lookup_empty in Hv|].
    destruct (Hrec n v Hv) as (R'&HR'&?). congruence.
Qed.

(** C18: A test over a generated workload passes, under conditions on the
    arguments and on what is drawn. Let there be at least one agent, instance and
    subscription, and no number beyond its machine type ([args_ok]; otherwise
    [generator_stuck]), and let writing the file succeed. Then whatever is drawn the
    generator returns, and its file reads back: every subscriber loads its own
    subscriptions and the publisher all publications. If, moreover, no two of the
    types drawn fall together, nor two agent ids of a type, and no agent id is 0
    ([apart]; otherwise [id_zero_false_alarm]), and the subscriptions have reached a
    node in any order, each subscriber over a connection of its own that is not the
    publisher's, then the node's table routes every publication to one of the
    receivers its line lists, whichever connections it picks; and when the
    subscribers so chosen have answered every publication, in any order and however
    often, with messages of at least 9 bytes (otherwise the publisher panics,
    [reply_roundtrip]), the publisher's check succeeds. *)
Theorem workload_test_passes draw fuel disk i msg_size conn pc :
  args_ok a -> N.to_nat (Workload.subscriptions a) < fuel -> N.to_nat (Workload.publications a) <= fuel ->
  (forall n, disk n = true) -> 9 <= msg_size -> Inj (=) (=) conn -> (forall j, conn j <> pc) ->
  exists j m pl file w,
    Workload.generate draw fuel a i = Some (Done (j, (m, pl))) /\
    Workload.main draw fuel a true disk i = Some (Done (j, (Workload.output_name a, file))) /\
    (forall id, load_subscriptions id (Workload.lines file) [] = Done (own_subscriptions id m)) /\
    load_publications (Workload.lines file) WorkloadTest_new = Done w /\
    N.of_nat (size (publication_list w)) = Workload.publications a /\
    forall ops, apart m -> subscribed m conn ops ->
      exists t l, run_ops SubscriptionTable_default ops = Done (t, l) /\ routed t w conn pc /\
        forall answered, answers t w conn pc answered ->
          exists results, collect msg_size ∅ answered = Done results /\ check_results (oracle w) results = true.
Proof.
  intros Hargs Hf Hf' Hdisk Hsize Hinj Hpc.
  destruct (gives_workload draw a fuel Hargs Hf Hf' i) as (j&[m pl]&Hgen&Hok). cbn in Hok.
  destruct (workload_file a Hargs m pl Hok disk Hdisk) as (file&Hfile&Hparse).
  destruct (publications_loaded _ m pl Hparse) as (w&Hload&Hw).
  exists j, m, pl, file, w. split; [done|]. split.
  { unfold Workload.main, mbind, Workload.gen_bind. rewrite Hgen. unfold Workload.gen_panics. by rewrite Hfile. }
  split; [intros id; by eapply subscriptions_loaded|]. split; [done|].
  split; [rewrite <- (wo_length _ _ _ Hok); f_equal; by eapply loaded_size|]. intros ops Hap Hops.
  destruct (node_table m conn ops Hops) as (t&S&l&Hrun&Hrep&Ht&HS). exists t, l. split; [done|].
  assert (Hr : routed t w conn pc).
  { intros n p r1 r2 Hp. destruct (proj2 Hw n) as [Hp' ->]. rewrite Hp' in Hp. apply fmap_Some in Hp as (q&Hq&->).
    pose proof (wo_pubs _ _ _ Hok) as Hall. eapply Forall_lookup_1 in Hall; [|exact Hq].
    destruct (publication_routed m conn pc (wo_map _ _ _ Hok) Hap Hpc t S q r1 r2 Hrep Ht HS Hall) as (v&Hm&Hv).
    exists v, (hash_iter (Workload.pub_subscribers q)).*2. rewrite Hq. done. }
  split; [done|]. intros answered Hans. by eapply answers_accepted.
Qed.

(** The ids survive the way from the publisher to the subscriber and back,
    at every size of message that has room for the publication's id and its
    delimiter; the answer is as long as the publication, but not shorter than 18
    bytes. A smaller size stops the publisher. *)
Theorem reply_roundtrip msg_size n v :
  is_u64 n -> is_u64 v ->
  if decide (9 <= msg_size) then
    exists payload reply, publication_payload msg_size n = Done payload /\ length payload = msg_size /\
      reply_payload v payload = Done reply /\ length reply = Nat.max 18 msg_size /\ read_reply reply = Done (n, v)
  else panicked (publication_payload msg_size n).
Proof.
  intros Hn Hv. case_decide as Hs; [|apply publication_payload_short; lia].
  rewrite publication_payload_ok by done. eexists _, _. split; [done|].
  split; [rewrite !length_app, length_to_be_bytes, length_replicate; cbn; lia|].
  split; [by rewrite reply_payload_ok|]. split; [|by apply read_reply_ok].
  rewrite !length_app, !length_to_be_bytes, !length_replicate. cbn. lia.
Qed.

(** The generator does not return when it cannot make progress: with no
    instance per type no subscription is ever made, and without subscriptions no
    publication; with no subscriber to draw it panics. *)
Theorem generator_stuck draw fuel i :
  ((Workload.instances a = 0%N /\ (0 < Workload.subscriptions a)%N) \/
   (Workload.subscriptions a = 0%N /\ (0 < Workload.publications a)%N) ->
   Workload.generate draw fuel a i = None) /\
  (Workload.agents a = 0%N -> (0 < Workload.instances a)%N -> (0 < Workload.subscriptions a)%N ->
   Workload.generate draw (S (S fuel)) a i = Some (Panic "cannot sample empty range")).
Proof.
  split.
  - unfold Workload.generate, mbind, Workload.gen_bind. intros [[Hi Hs]|[Hs Hp]].
    + assert (Hloop : forall m j, Workload.create_subscriptions draw fuel a 0 m j = None); [|by rewrite Hloop].
      induction fuel as [|f IH]; intros m j; cbn [Workload.create_subscriptions]; (rewrite decide_True by done); [done|].
      unfold mbind, Workload.gen_bind. destruct (gives_type draw j) as (j'&t&->&_).
      assert (E : Workload.add_agents draw f a 0 0 true Workload.TypeState_default j' = Some (Done (j', (0%N, Workload.TypeState_default)))).
      { destruct f; cbn [Workload.add_agents]; by rewrite Hi. }
      rewrite E. apply IH.
    + assert (E : Workload.create_subscriptions draw fuel a 0 ∅ i = Some (Done (i, ∅))).
      { destruct fuel; cbn [Workload.create_subscriptions]; by rewrite Hs. }
      rewrite E. assert (Hloop : forall j, Workload.create_publications draw fuel a ∅ 0 [] j = None); [|by rewrite Hloop].
      assert (Hnil : hash_iter (∅ : Workload.TypeMap) = []).
      { apply Permutation_nil_r. by rewrite hash_iter_perm, map_to_list_empty. }
      induction fuel as [|f IH]; intros j; cbn [Workload.create_publications]; (rewrite decide_True by done); [done|].
      unfold mbind, Workload.gen_bind. rewrite Hnil. cbn. apply IH.
      destruct f; cbn [Workload.create_subscriptions]; by rewrite Hs.
  - intros Ha Hi Hs. unfold Workload.generate, mbind, Workload.gen_bind. remember (S fuel) as f eqn:Ef.
    cbn [Workload.create_subscriptions]. rewrite decide_True by done.
    unfold mbind, Workload.gen_bind. destruct (gives_type draw i) as (j&t&->&_). subst f. cbn [Workload.add_agents]. rewrite !bool_decide_true by done. cbn [andb]. unfold mbind, Workload.gen_bind.
    destruct (gives_range draw u64_max ltac:(done) j) as (j'&id&->&_).
    unfold Workload.gen_range, Workload.next_draw, mbind, Workload.gen_bind. by rewrite Ha.
Qed.

(** A publication line that ends after its agent id makes the parser panic,
    where every other missing word is an error. *)
Theorem publication_without_count x o n t i :
  is_u64 x -> is_u64 i -> word o -> word n -> word t ->
  Workload.parse_line (join "PUB" [fmt_dec x; o; n; t; fmt_dec i]) =
    Panic "called `Option::unwrap()` on a `None` value" /\
  forall k, k < 5 -> exists e,
    Workload.parse_line (join "PUB" (take k [fmt_dec x; o; n; t; fmt_dec i])) = Done (Err e).
Proof.
  intros Hx Hi Ho Hn Ht. assert (Hw : Forall word [fmt_dec x; o; n; t; fmt_dec i]).
  { repeat constructor; (done || apply word_dec || apply Ho || apply Hn || apply Ht). }
  split.
  - unfold Workload.parse_line. rewrite split_whitespace_join by done. rewrite decide_False, decide_True by done.
    unfold Workload.parse_pub. rewrite parse_u64_fmt by done. unfold Workload.parse_ids. by rewrite parse_u64_fmt by done.
  - intros k Hk. unfold Workload.parse_line. rewrite split_whitespace_join by (done || by apply Forall_take).
    rewrite decide_False, decide_True by done. unfold Workload.parse_pub.
    do 5 (destruct k as [|k]; [cbn [take]; rewrite ?parse_u64_fmt by done; by eexists|]). lia.
Qed.
End routing.

(** ** A small workload *)
Module WorkloadDemo.
Import Workload.
#[local] Existing Instances toy_hasher hash_iter_sorted.
#[local] Instance demo_profile : BuildProfile := {| overflow_checks := true |}.

Definition args : Args := mkArgs 2 3 2 4 "autogenerated".
Definition draw (i : nat) : N := N.of_nat (7 * i + 5).
Definition conn (j : N) : N := (10 + j)%N.
Definition disk (n : nat) : bool := true.

Lemma args_fine : args_ok args.
Proof. by split. Qed.
Lemma conn_inj : Inj (=) (=) conn.
Proof. intros x y. unfold conn. lia. Qed.

Definition made : TypeMap := match generate draw 3 args 0 with Some (Done (_, r)) => r.1 | _ => ∅ end.
Definition file : string := match main draw 3 args true disk 0 with Some (Done (_, r)) => r.2 | _ => "" end.
Definition test : WorkloadTest :=
  match load_publications (lines file) WorkloadTest_new with Done w => w | Panic _ => WorkloadTest_new end.
Definition table : SubscriptionTable :=
  match run_ops SubscriptionTable_default (subscription_ops conn made) with
  | Done (t, _) => t | Panic _ => SubscriptionTable_default end.

Lemma demo_answers : answers table test conn 5 [(2, 3); (0, 3); (1, 3); (0, 3)]%N.
Proof.
  assert (Hdom : dom (publication_list test) = ({[0; 1; 2]} : gset N)%N) by (apply (bool_decide_unpack _); by vm_compute).
  split.
  - intros n. rewrite <- elem_of_dom, Hdom. cbn. rewrite !elem_of_cons, elem_of_nil, !elem_of_union, !elem_of_singleton. tauto.
  - intros n v. rewrite !elem_of_cons, elem_of_nil.
    intros [[= -> ->]|[[= -> ->]|[[= -> ->]|[[= -> ->]|[]]]]]; eexists _, 0, 0; (split; [by vm_compute|by vm_compute]).
Qed.

Lemma workload_test_passes_witness :
  exists results, apart made /\
    collect 100 ∅ [(2, 3); (0, 3); (1, 3); (0, 3)]%N = Done results /\ check_results (oracle test) results = true.
Proof.
  destruct (workload_test_passes args draw 3 disk 0 100 conn 5 args_fine ltac:(vm_compute; lia) ltac:(vm_compute; lia)
    ltac:(done) ltac:(lia) conn_inj ltac:(unfold conn; lia)) as (j&m&pl&f&w&Hgen&Hmain&_&Hload&_&Hops).
  assert (Em : m = made) by (unfold made; rewrite Hgen; reflexivity).
  assert (Ef : f = file) by (unfold file; rewrite Hmain; reflexivity).
  assert (Ew : w = test) by (unfold test; rewrite <- Ef, Hload; reflexivity). subst m w.
  assert (Hap : apart made) by (apply (bool_decide_unpack _); by vm_compute).
  destruct (Hops _ Hap (subscription_ops_all conn made)) as (t&l&Hrun&_&Hans).
  assert (Et : t = table) by (unfold table; rewrite Hrun; reflexivity). subst t.
  destruct (Hans _ demo_answers) as (results&Hc&Hr). exists results. split; [exact Hap|]. split; [exact Hc|exact Hr].
Defined.

Lemma reply_roundtrip_witness :
  is_u64 7 /\ is_u64 3 /\ exists payload reply, publication_payload 20 7 = Done payload /\ length payload = 20 /\
    reply_payload 3 payload = Done reply /\ length reply = 20 /\ read_reply reply = Done (7, 3)%N.
Proof. split; [done|]. split; [done|]. exact (reply_roundtrip 20 7 3 ltac:(done) ltac:(done)). Defined.

Lemma generator_stuck_witness :
  generate draw 50 (mkArgs 2 3 0 4 "autogenerated") 0 = None /\
  generate draw 50 (mkArgs 0 3 2 4 "autogenerated") 0 = None /\
  generate draw 50 (mkArgs 2 3 2 0 "autogenerated") 0 = Some (Panic "cannot sample empty range").
Proof.
  split; [exact (proj1 (generator_stuck (mkArgs 2 3 0 4 "autogenerated") draw 50 0) (or_introl (conj eq_refl eq_refl)))|].
  split; [exact (proj1 (generator_stuck (mkArgs 0 3 2 4 "autogenerated") draw 50 0) (or_intror (conj eq_refl eq_refl)))|].
  exact (proj2 (generator_stuck (mkArgs 2 3 2 0 "autogenerated") draw 48 0) eq_refl eq_refl eq_refl).
Defined.

Lemma publication_without_count_witness :
  parse_line "PUB 1 org ns agent 2" = Panic "called `Option::unwrap()` on a `None` value" /\
  exists e, parse_line "PUB 1 org ns" = Done (Err e).
Proof.
  destruct (publication_without_count 1 "org" "ns" "agent" 2) as [Hp He]; [done..|]. split; [exact Hp|].
  exact (He 3 ltac:(lia)).
Defined.

(** An agent may draw the id [0]. Its publication is sent to the type, the node
    may hand it to the other subscriber of the type, and the check fails although
    nothing went wrong. *)
Definition zero_args : Args := mkArgs 2 1 2 2 "autogenerated".
Definition zero_draw (i : nat) : N := default 0%N ((replicate 21 0%N ++ [0; 0; 1; 5; 1; 0; 1; 0]%N)%list !! i).
Definition zero_file : string := match main zero_draw 3 zero_args true disk 0 with Some (Done (_, r)) => r.2 | _ => "" end.
Definition zero_made : TypeMap := match generate zero_draw 3 zero_args 0 with Some (Done (_, r)) => r.1 | _ => ∅ end.
Definition zero_test : WorkloadTest :=
  match load_publications (lines zero_file) WorkloadTest_new with Done w => w | Panic _ => WorkloadTest_new end.
Theorem id_zero_false_alarm :
  exists p t l results,
    publication_list zero_test !! 0%N = Some p /\ oracle zero_test !! 0%N = Some [0%N] /\
    run_ops SubscriptionTable_default (subscription_ops conn zero_made) = Done (t, l) /\
    match_one t (ag_agent_type p) (name_id p) 5 0 1 = Done (Ok (conn 1)) /\
    collect 100 ∅ [(0, 1)]%N = Done results /\ check_results (oracle zero_test) results = false.
Proof.
  eexists _, _, _, _. split; [by vm_compute|]. split; [by vm_compute|]. split; [by vm_compute|].
  split; [by vm_compute|]. split; [by vm_compute|]. by vm_compute.
Qed.
End WorkloadDemo.
Close Scope string_scope.
