(* ===== verification/TestAgentsRun.v ===== *)
(** * The test programs on a service

    What the set-up of a subscriber and of the publisher puts on the channel of
    its agent, and what a subscriber does with a publication. *)
From Stdlib Require Import Ascii.
From stdpp Require Import base list gmap strings numbers option.
From S2P Require Import Prelude Proto Encoder Messages Text ComponentId MessageProcessing DataPlane ReceiverBuffer.
From S2P Require Import Session SessionLayer SessionLayerProofs Service ServiceProofs ServiceClaims Slim.
From S2P Require Import Workload WorkloadProofs TestAgents TestAgentsProofs.
Import TestAgents.
Open Scope string_scope.

Section running.
Context `{Hasher, HashIter, Transport, Telemetry, ErrorText, Rng, DebugAssertions, UnicodeTables, StatusText}.
Context {G : GrpcConfig}.
Implicit Types (s : Service) (a : App).

(** An agent with its app, whose channel to the processor is open. *)
Record agent_at s (ag : Agent) (i : N) a : Prop := {
  aa_registered : hm_get agent_key ag (sv_session_layers s) = Some i;
  aa_app : sv_apps s !! i = Some a;
  aa_open : ob_open (io_slim (ap_io a)) = true;
}.

(** The service after [msgs] were put on the channel. *)
Definition with_sent s (i : N) a (msgs : list ProtoMessage) : Service :=
  with_apps s (<[i := set_layer (mkSessionIo (mkOutbox true (ob_sent (io_slim (ap_io a)) ++ msgs)%list)
    (io_app (ap_io a)) (io_timers (ap_io a)) (io_draws (ap_io a))) (ap_layer a) a]> (sv_apps s)).

Lemma agent_at_sent s ag i a msgs : agent_at s ag i a ->
  exists a', agent_at (with_sent s i a msgs) ag i a' /\
    ob_sent (io_slim (ap_io a')) = (ob_sent (io_slim (ap_io a)) ++ msgs)%list /\
    forall more, with_sent (with_sent s i a msgs) i a' more = with_sent s i a (msgs ++ more).
Proof.
  intros [Hreg Happ _]. eexists. split; [split; [done|by cbn; rewrite lookup_insert_eq|done]|]. split; [done|].
  intros more. unfold with_sent, with_apps. cbn. rewrite insert_insert_eq, <- app_assoc. done.
Qed.
Lemma with_sent_nil s ag i a : agent_at s ag i a -> with_sent s i a [] = s.
Proof.
  intros [_ Happ Ho]. unfold with_sent. rewrite app_nil_r. destruct s, a as [l [[o snt] ap tm dr] rx tk lp tkn rd].
  cbn in *. subst o. unfold with_apps, set_layer. cbn. f_equal. by apply insert_id.
Qed.

(** *** Messages in a row *)
Section each.
Context {A : Type} (send : A -> svc unit) (msg : A -> ProtoMessage -> Prop) (ag : Agent).
Context (Hsend : forall x s i a, agent_at s ag i a -> forall m, msg x m -> send x s = Done (with_sent s i a [m], tt)).
Context (each : list A -> svc unit) (Hnil : each [] = mret tt) (Hcons : forall x l, each (x :: l) = (_ ← send x; each l)).
Lemma send_each l msgs s i a : Forall2 msg l msgs -> agent_at s ag i a -> each l s = Done (with_sent s i a msgs, tt).
Proof.
  intros Hl. revert s a. induction Hl as [|x m l msgs Hm _ IH]; intros s a Hat.
  { rewrite Hnil. by rewrite (with_sent_nil s ag i a Hat). }
  rewrite Hcons. rewrite (svc_bind_Done _ _ _ _ _ (Hsend x s i a Hat m Hm)).
  destruct (agent_at_sent s ag i a [m] Hat) as (a'&Hat'&_&Hmore). rewrite (IH _ _ Hat'). by rewrite Hmore.
Qed.
End each.

Definition subscribes_for (ag : Agent) (conn_id : N) (sub : Agent) (m : ProtoMessage) : Prop :=
  new_subscribe ag (ag_agent_type sub) (Some (ag_agent_id sub))
    (Some (with_forward_to SlimHeaderFlags_default conn_id)) = Done m.
Definition routes_to (ag : Agent) (conn_id : N) (r : Agent) (m : ProtoMessage) : Prop :=
  new_subscribe ag (ag_agent_type r) (agent_id_option r) (Some (with_recv_from SlimHeaderFlags_default conn_id)) = Done m.

Lemma unwrap_Ok {A E} why (c : svc (Result A E)) s s' x : c s = Done (s', Ok x) -> unwrap why c s = Done (s', x).
Proof. intros Hc. unfold unwrap. by rewrite (svc_bind_Done _ _ _ _ _ Hc). Qed.

Lemma subscribe_all_sends fuel ag conn_id l msgs s i a :
  Forall2 (subscribes_for ag conn_id) l msgs -> agent_at s ag i a ->
  subscribe_all fuel ag conn_id l s = Done (with_sent s i a msgs, tt).
Proof.
  apply (send_each (fun x => unwrap subscription_error (subscribe fuel ag (ag_agent_type x) (Some (ag_agent_id x)) (Some conn_id))));
    [|done|done]. intros x s0 i0 a0 [Hreg Happ Ho] m Hm. apply unwrap_Ok. unfold subscribe, subscribes_for in *.
  cbn [forward_flags]. rewrite Hm. rewrite (svc_bind_Done _ _ _ _ m (eq_refl : may_panic (Done m) _ = _)). by apply send_plain.
Qed.
Lemma set_routes_sends fuel ag conn_id l msgs s i a :
  Forall2 (routes_to ag conn_id) l msgs -> agent_at s ag i a ->
  set_routes fuel ag conn_id l s = Done (with_sent s i a msgs, tt).
Proof.
  apply (send_each (fun x => unwrap "an error accoured while adding a route"
    (set_route fuel ag (ag_agent_type x) (agent_id_option x) conn_id))); [|done|done].
  intros x s0 i0 a0 [Hreg Happ Ho] m Hm. apply unwrap_Ok. unfold set_route, routes_to in *.
  rewrite Hm. rewrite (svc_bind_Done _ _ _ _ m (eq_refl : may_panic (Done m) _ = _)). by apply send_plain.
Qed.

(** Names the parser made can be subscribed for. *)
Lemma parsed_subscribes ag conn_id l : Forall (fun x => exists t n, x = Agent_new (reparse t) n) l ->
  exists msgs, Forall2 (subscribes_for ag conn_id) l msgs.
Proof.
  induction 1 as [|x l (t&n&->) _ [msgs IH]]; [by exists []|]. eexists (_ :: msgs). constructor; [reflexivity|done].
Qed.
Lemma parsed_routes ag conn_id l : Forall (fun x => exists t n, x = Agent_new (reparse t) n) l ->
  exists msgs, Forall2 (routes_to ag conn_id) l msgs.
Proof.
  induction 1 as [|x l (t&n&->) _ [msgs IH]]; [by exists []|]. eexists (_ :: msgs). constructor; [reflexivity|done].
Qed.
Lemma names_parsed l : Forall (fun x => exists t n, x = Agent_new (reparse t) n) (Workload.name ∘ sub_message <$> l).
Proof. induction l as [|s l IH]; [constructor|]. cbn. constructor; [by eexists _, _|exact IH]. Qed.

(** *** The set-up *)
(** Creating a session changes the layer of the agent only. *)
Lemma session_created fuel ag conf s i a :
  agent_at s ag i a -> layer_ok (ap_layer a) ->
  (forall c, conf = SessionConfig_Streaming c -> sc_direction c <> Bidirectional) ->
  (exists k, k < fuel /\ sl_pool (ap_layer a) !! (draw (io_draws (ap_io a) + k) `mod` SESSION_RANGE_end)%N = None) ->
  exists s' info a', Service_create_session fuel ag conf s = Done (s', Ok info) /\ agent_at s' ag i a' /\
    ob_sent (io_slim (ap_io a')) = ob_sent (io_slim (ap_io a)) /\ sv_message_processor s' = sv_message_processor s /\
    is_Some (sl_pool (ap_layer a') !! in_id info).
Proof.
  intros [Hreg Happ Ho] Hok Hdir Hfree.
  destruct (create_session_free fuel conf (ap_io a) (ap_layer a) Hok Hdir Hfree) as (io'&id&ses&sys&Hc&_&_&_&_&Hslim&_).
  unfold Service_create_session, with_session_layer.
  rewrite (svc_bind_Done _ _ _ _ _ (eq_refl : service s = Done (s, s))). rewrite Hreg.
  eexists _, _, _. split.
  { unfold mbind at 1, svc_bind at 1. unfold on_layer. rewrite Happ, Hc. cbn. reflexivity. }
  split; [split; [done|by cbn; rewrite lookup_insert_eq|by cbn; rewrite Hslim]|]. cbn. rewrite Hslim.
  do 2 (split; [done|]). rewrite lookup_insert_eq. by eexists.
Qed.

(** A subscriber started with a workload's file asks for its own
    subscriptions, each once, in the order of the file, to be forwarded over the
    connection given; the publisher sets a route for every subscription of the
    workload, and has all the publications. Both then have a session. *)
Theorem test_agents_set_up fuel id conn_id file m pl s i a :
  Forall2 parses (Workload.lines file) (workload_messages m pl) ->
  layer_ok (ap_layer a) ->
  (exists k, k < fuel /\ sl_pool (ap_layer a) !! (draw (io_draws (ap_io a) + k) `mod` SESSION_RANGE_end)%N = None) ->
  (agent_at s (subscriber_name id) i a ->
   exists s' a' msgs, subscriber_workload_setup fuel id conn_id (Some file) s = Done (s', own_subscriptions id m) /\
     sv_message_processor s' = sv_message_processor s /\ agent_at s' (subscriber_name id) i a' /\
     ob_sent (io_slim (ap_io a')) = (ob_sent (io_slim (ap_io a)) ++ msgs)%list /\
     Forall2 (subscribes_for (subscriber_name id) conn_id) (own_subscriptions id m) msgs) /\
  (agent_at s (publisher_name id) i a ->
   exists s' a' msgs w info, publisher_workload_setup fuel id conn_id (Some file) s = Done (s', (w, info)) /\
     loaded m pl w /\
     sv_message_processor s' = sv_message_processor s /\ agent_at s' (publisher_name id) i a' /\
     ob_sent (io_slim (ap_io a')) = (ob_sent (io_slim (ap_io a)) ++ msgs)%list /\
     Forall2 (routes_to (publisher_name id) conn_id) (routes w) msgs /\
     is_Some (sl_pool (ap_layer a') !! in_id info)).
Proof.
  intros Hparse Hok Hfree. split; intros Hat.
  - unfold subscriber_workload_setup, read_file. cbn [expect].
    rewrite (svc_bind_Done _ _ _ _ file (eq_refl : may_panic (Done file) s = _)).
    rewrite (subscriptions_loaded _ m pl id Hparse).
    rewrite (svc_bind_Done _ _ _ _ _ (eq_refl : may_panic (Done _) s = Done (s, _))).
    destruct (session_created fuel (subscriber_name id)
      (SessionConfig_Streaming (StreamingConfiguration_new Receiver None (Some 10%N) (Some (from_millis 1000)))) s i a Hat Hok)
      as (s1&info&a1&Hc&Hat1&Hsent&Hmp&_); [by intros c [= <-]|done|].
    rewrite (svc_bind_Done _ _ _ _ _ (unwrap_Ok _ _ _ _ _ Hc)).
    destruct (parsed_subscribes (subscriber_name id) conn_id (own_subscriptions id m) (names_parsed _)) as [msgs Hm].
    rewrite (svc_bind_Done _ _ _ _ _ (subscribe_all_sends fuel _ _ _ _ _ _ _ Hm Hat1)).
    destruct (agent_at_sent s1 _ i a1 msgs Hat1) as (a'&Hat'&Hs'&_).
    eexists _, a', msgs. split; [reflexivity|]. split; [done|]. split; [done|]. split; [by rewrite Hs', Hsent|done].
  - unfold publisher_workload_setup, read_file. cbn [expect].
    rewrite (svc_bind_Done _ _ _ _ file (eq_refl : may_panic (Done file) s = _)).
    destruct (publications_loaded _ m pl Hparse) as (w&Hload&Hw). rewrite Hload.
    rewrite (svc_bind_Done _ _ _ _ w (eq_refl : may_panic (Done w) s = _)).
    destruct (parsed_routes (publisher_name id) conn_id (routes w)) as [msgs Hm]; [rewrite (proj1 Hw); apply names_parsed|].
    rewrite (svc_bind_Done _ _ _ _ _ (set_routes_sends fuel _ _ _ _ _ _ _ Hm Hat)).
    destruct (agent_at_sent s _ i a msgs Hat) as (a1&Hat1&Hs1&_).
    destruct (session_created fuel (publisher_name id) (SessionConfig_FireAndForget FireAndForgetConfiguration_default)
      (with_sent s i a msgs) i a1 Hat1) as (s'&info&a'&Hc&Hat'&Hsent&Hmp&Hin); [..|done| |].
    { destruct Hat1 as [_ E _]. cbn in E. rewrite lookup_insert_eq in E. by injection E as <-. }
    { destruct Hat1 as [_ E _]. cbn in E. rewrite lookup_insert_eq in E. by injection E as <-. }
    rewrite (svc_bind_Done _ _ _ _ _ (unwrap_Ok _ _ _ _ _ Hc)).
    exists s', a', msgs, w, info. split; [reflexivity|]. split; [done|]. split; [done|]. split; [done|].
    split; [by rewrite Hsent, Hs1|done].
Qed.

(** A subscriber that receives a publication of the test answers it in the
    session it came in: the reply is for the publication's source, over the
    subscriber's connection, and carries the publication's id and the
    subscriber's. A session that refuses it stops the subscriber. *)
Theorem subscriber_answers fuel id conn_id s n msg_size payload msg info publish what src :
  is_u64 n -> is_u64 id ->
  publication_payload msg_size n = Done payload ->
  pm_message_type msg = Some (Publish publish) -> pu_msg publish = Some (mkContent what payload) ->
  get_source msg = Done src ->
  exists reply m,
    m = new_publish (subscriber_name id) (ag_agent_type src) (Some (ag_agent_id src))
          (Some (with_forward_to SlimHeaderFlags_default conn_id)) "msg" reply /\
    read_reply reply = Done (n, id) /\ get_forward_to m = Done (Some conn_id) /\
    subscriber_turn fuel id conn_id (Some (Ok (mkSessionMessage msg info))) s =
      unwrap err_unwrap (send_message fuel (subscriber_name id) m (Some info)) s.
Proof.
  intros Hn Hid Hp Ht Hc Hsrc.
  destruct (decide (9 <= msg_size)) as [Hs|Hs].
  2:{ destruct (publication_payload_short msg_size n) as [why Hw]; [lia|congruence]. }
  assert (Ep : payload = (to_be_bytes n ++ [Byte.x00] ++ replicate (msg_size - 9) fill)%list).
  { rewrite publication_payload_ok in Hp by done. congruence. }
  rewrite Ep in Hc. clear Ep Hp.
  eexists _, _. split; [done|]. split; [|split; [done|]].
  { by apply read_reply_ok. }
  unfold subscriber_turn. cbn [expect].
  rewrite (svc_bind_Done _ _ _ _ _ (eq_refl : may_panic (Done _) s = Done (s, _))). cbn [sm_message].
  rewrite Ht, Hc. cbn [expect].
  rewrite (svc_bind_Done _ _ _ _ _ (eq_refl : may_panic (Done _) s = Done (s, _))). cbn [co_blob].
  rewrite decide_False by (rewrite length_app, length_to_be_bytes; lia). rewrite Hsrc.
  rewrite (svc_bind_Done _ _ _ _ _ (eq_refl : may_panic (Done _) s = Done (s, _))). rewrite reply_payload_ok by done.
  rewrite (svc_bind_Done _ _ _ _ _ (eq_refl : may_panic (Done _) s = Done (s, _))). done.
Qed.
End running.

(** ** A concrete run *)
Module TestRunDemo.
Import ServiceDemo.
#[local] Existing Instances toy_hasher checked_build hash_iter_sorted demo_transport demo_errors demo_rng demo_checks
  ascii_tables quiet_telemetry quiet_logging plain_status demo_grpc.

(** The workload of one agent, subscriber 7. *)
Definition type : AgentType := AgentType_from_strings "org" "ns" "topic".
Definition state : Workload.TypeState := Workload.TypeState_insert Workload.TypeState_default 9 7.
Definition types : Workload.TypeMap := {[ type_key type := (type, state) ]}.
Definition pubs : list Workload.Publication :=
  [Workload.mkPublication (Agent_new type 9) {[ 7%N := 7%N ]}].
Definition file : string := text (workload_lines types pubs).
Lemma file_parses : Forall2 parses (Workload.lines file) (workload_messages types pubs).
Proof.
  unfold file. rewrite lines_text by apply workload_lines_ok. apply workload_parsed.
  - assert (E : Workload.subscription_pairs types = [(type, Workload.mkSubscriptionPair 9 7)]) by (vm_compute; reflexivity).
    rewrite E. by repeat constructor.
  - constructor; [|constructor]. split; [done|]. split; [by vm_compute|].
    assert (E : (hash_iter ({[ 7%N := 7%N ]} : gmap N N)).*2 = [7%N]) by (vm_compute; reflexivity).
    cbn [Workload.pub_subscribers]. rewrite E. by repeat constructor.
  - by vm_compute.
Qed.

Definition subscriber : Service := after (create_agent (subscriber_name 7)) (Service_new id).
Definition publisher : Service := after (create_agent (publisher_name 7)) (Service_new id).
Lemma subscriber_at : agent_at subscriber (subscriber_name 7) 0 (the_app subscriber 0).
Proof. split; vm_compute; reflexivity. Qed.
Lemma publisher_at : agent_at publisher (publisher_name 7) 0 (the_app publisher 0).
Proof. split; vm_compute; reflexivity. Qed.
Lemma app_layer_ok s i a : reached id s -> sv_apps s !! i = Some a -> layer_ok (ap_layer a).
Proof. intros Hr Ha. exact (ao_layer _ _ (so_apps _ (svc_reachable_ok id s Hr) i a Ha)). Qed.
Lemma created_reached ag : finishes (create_agent ag) (Service_new id) = true -> reached id (after (create_agent ag) (Service_new id)).
Proof. intros Hr. destruct (after_returns _ _ Hr) as [r Hc]. apply rtc_once. exact (SvcCreate _ _ _ _ Hc). Qed.

Lemma test_agents_set_up_witness :
  (exists s' a' msgs, subscriber_workload_setup 5 7 3 (Some file) subscriber = Done (s', own_subscriptions 7 types) /\
    ob_sent (io_slim (ap_io a')) = (ob_sent (io_slim (ap_io (the_app subscriber 0))) ++ msgs)%list /\ length msgs = 1) /\
  exists s' w info, publisher_workload_setup 5 7 3 (Some file) publisher = Done (s', (w, info)) /\ loaded types pubs w.
Proof.
  split.
  - assert (Hok : layer_ok (ap_layer (the_app subscriber 0))).
    { apply (app_layer_ok subscriber 0); [apply created_reached; vm_compute; reflexivity|vm_compute; reflexivity]. }
    destruct (proj1 (test_agents_set_up 5 7 3 file types pubs subscriber 0 (the_app subscriber 0) file_parses Hok
      ltac:(exists 0; split; [lia|vm_compute; reflexivity])) subscriber_at) as (s'&a'&msgs&Hr&_&_&Hs&Hm).
    exists s', a', msgs. split; [exact Hr|]. split; [exact Hs|]. rewrite <- (Forall2_length Hm). vm_compute. reflexivity.
  - assert (Hok : layer_ok (ap_layer (the_app publisher 0))).
    { apply (app_layer_ok publisher 0); [apply created_reached; vm_compute; reflexivity|vm_compute; reflexivity]. }
    destruct (proj2 (test_agents_set_up 5 7 3 file types pubs publisher 0 (the_app publisher 0) file_parses Hok
      ltac:(exists 0; split; [lia|vm_compute; reflexivity])) publisher_at) as (s'&a'&msgs&w&info&Hr&Hw&_).
    exists s', w, info. split; [exact Hr|exact Hw].
Defined.

Definition payload : bytes := match publication_payload 20 4 with Done p => p | Panic _ => [] end.
Definition asked : ProtoPublish :=
  ProtoPublish_new (publisher_name 1) type (Some 9%N) (Some SlimHeaderFlags_default) "msg" payload.
Lemma subscriber_answers_witness :
  exists reply m, read_reply reply = Done (4, 7)%N /\ get_forward_to m = Done (Some 3%N) /\
    subscriber_turn 5 7 3 (Some (Ok (mkSessionMessage (ProtoMessage_new ∅ (Publish asked)) (Info_new 2)))) subscriber =
      unwrap err_unwrap (send_message 5 (subscriber_name 7) m (Some (Info_new 2))) subscriber.
Proof.
  destruct (subscriber_answers 5 7 3 subscriber 4 20 payload (ProtoMessage_new ∅ (Publish asked)) (Info_new 2) asked "msg"
    (match get_source (ProtoMessage_new ∅ (Publish asked)) with Done src => src | Panic _ => publisher_name 1 end))
    as (reply&m&_&Hr&Hf&Ht); [vm_compute; (done || reflexivity)..|].
  exists reply, m. split; [exact Hr|]. split; [exact Hf|exact Ht].
Defined.
End TestRunDemo.
Close Scope string_scope.
