(* ===== verification/DeliveredItems.v ===== *)
(** * What a service delivers

    Every message a service hands to an application comes with the information
    of that message: the session it belongs to, its id, its source and the
    connection it came in on. The info of a request asks for a reply. This holds
    for the three kinds of session and whatever the service does, as long as the
    interceptors that were added leave the headers of a message alone. *)
From stdpp Require Import base list gmap strings numbers option.
From S2P Require Import Prelude Proto Encoder Messages MessageProcessing ReceiverBuffer Timer.
From S2P Require Import Session RequestResponse FireAndForget Streaming SessionLayer SessionLayerProofs.
From S2P Require Import ComponentId Service ServiceProofs.
Open Scope slim_scope.

(** ** Items *)
Definition arrived (m : SessionMessage) : Prop := Info_from (sm_message m) = Done (sm_info m).
Definition described (m : SessionMessage) : Prop :=
  exists info, Info_from (sm_message m) = Done info /\
    (sm_info m = info \/
     in_session_header_type info = Request /\ sm_info m = Info_set_session_header_type Reply info).
Definition item_good (r : Result SessionMessage SessionError) : Prop :=
  match r with Ok m => described m | Err _ => True end.
Definition told (io : SessionIo) : Prop := Forall item_good (ob_sent (io_app io)).

(** An interceptor that leaves alone what the info is made of. *)
Definition keeps_info (i : SessionInterceptor) : Prop :=
  forall m m', on_msg_from_slim i m = (m', Ok tt) -> Info_from m' = Info_from m.

Lemma arrived_described m : arrived m -> described m.
Proof. intros Hm. eexists. split; [exact Hm|by left]. Qed.
Lemma described_reply m :
  arrived m -> in_session_header_type (sm_info m) = Request ->
  described (mkSessionMessage (sm_message m) (Info_set_session_header_type Reply (sm_info m))).
Proof. intros Hm Ht. eexists. split; [exact Hm|by right]. Qed.
Lemma SessionMessage_from_arrived m sm : SessionMessage_from m = Done sm -> arrived sm.
Proof.
  unfold SessionMessage_from, arrived. destruct (Info_from m) as [info|] eqn:Hi; [|done]. by intros [= <-].
Qed.
Lemma run_keeps_info l m m' :
  Forall keeps_info l -> run_interceptors on_msg_from_slim l m = (m', Ok tt) -> Info_from m' = Info_from m.
Proof.
  intros Hl. revert m. induction Hl as [|i l Hi _ IH]; intros m; cbn [run_interceptors]; [by intros [= <-]|].
  destruct (on_msg_from_slim i m) as [m1 [[]|e]] eqn:Hm; [|done]. intros Hr. rewrite (IH _ Hr). by apply Hi.
Qed.
Lemma identity_keeps_info identity : keeps_info (IdentitySessionInterceptor identity).
Proof. by intros m m' [= <-]. Qed.

(** ** Computations of a session

    [tells c]: what [c] puts on the application's channel is good. *)
Definition tells {S A} (c : sess S A) : Prop :=
  forall io s io' s' a, c io s = Done (io', s', a) -> told io -> told io'.

(** [yields P c]: what [c] returns satisfies [P]. *)
Definition yields {S A} (P : A -> Prop) (c : sess S A) : Prop :=
  forall io s io' s' a, c io s = Done (io', s', a) -> P a.

Section tells.
Context {S : Type}.
Lemma yields_ret {A} (P : A -> Prop) (a : A) : P a -> yields P (mret a : sess S A).
Proof. by intros Ha io s io' s' b [= _ _ <-]. Qed.
Lemma yields_bind {A B} (P : B -> Prop) (c : sess S A) (f : A -> sess S B) :
  (forall a, yields P (f a)) -> yields P (c ≫= f).
Proof.
  intros Hf io s io' s' b. unfold mbind, sess_bind. destruct (c io s) as [[[io1 s1] a]|]; [|done]. apply Hf.
Qed.
Lemma tells_bind {A B} (c : sess S A) (f : A -> sess S B) : tells c -> (forall a, tells (f a)) -> tells (c ≫= f).
Proof.
  intros Hc Hf io s io' s' b. unfold mbind, sess_bind. destruct (c io s) as [[[io1 s1] a]|] eqn:Hr; [|done].
  intros Hr' Ht. eapply Hf; [exact Hr'|]. by eapply Hc.
Qed.
Lemma tells_lift_bind {A B} (c : panics A) (f : A -> sess S B) :
  (forall a, c = Done a -> tells (f a)) -> tells (lift c ≫= f).
Proof.
  intros Hf io s io' s' b. unfold mbind, sess_bind, lift. destruct c as [a|]; [|done]. by apply Hf.
Qed.
Lemma tells_try {A B E} (c : sess S (Result A E)) (f : A -> sess S (Result B E)) :
  tells c -> (forall a, tells (f a)) -> tells (try_bind c f).
Proof.
  intros Hc Hf. apply tells_bind; [done|]. intros [a|e]; [apply Hf|]. by intros io s io' s' b [= <- _ _].
Qed.
Lemma tells_try_post {A B E} (P : A -> Prop) (c : sess S (Result A E)) (f : A -> sess S (Result B E)) :
  tells c -> yields (fun r => forall a, r = Ok a -> P a) c -> (forall a, P a -> tells (f a)) -> tells (try_bind c f).
Proof.
  intros Hc Hy Hf io s io' s' b. unfold try_bind, mbind, sess_bind.
  destruct (c io s) as [[[io1 s1] r]|] eqn:Hr; [|done]. intros Hr' Ht. apply (Hc _ _ _ _ _ Hr) in Ht.
  specialize (Hy _ _ _ _ _ Hr). destruct r as [a|e]; [|by injection Hr' as <- _ _].
  eapply Hf; [by apply Hy|exact Hr'|done].
Qed.
Lemma tells_ret {A} (a : A) : tells (mret a : sess S A).
Proof. by intros io s io' s' b [= <- _ _]. Qed.
Lemma tells_lift {A} (c : panics A) : tells (lift c : sess S A).
Proof. intros io s io' s' b. unfold lift. destruct c; [|done]. by intros [= <- _ _]. Qed.
Lemma tells_get : tells (get_state : sess S S).
Proof. by intros io s io' s' b [= <- _ _]. Qed.
Lemma tells_put (s : S) : tells (put_state s).
Proof. by intros io s0 io' s' b [= <- _ _]. Qed.
Lemma tells_modify (f : S -> S) : tells (modify f).
Proof. by intros io s io' s' b [= <- _ _]. Qed.
Lemma tells_send_slim m : tells (send_slim m : sess S _).
Proof. intros io s io' s' b. run_sess. destruct (ob_open (io_slim io)); by intros [= <- _ _]. Qed.
Lemma tells_send_app r : item_good r -> tells (send_app r : sess S _).
Proof.
  intros Hr io s io' s' b. run_sess. destruct (ob_open (io_app io)); intros [= <- _ _] Ht; [|done].
  unfold told. cbn. apply Forall_app. split; [done|]. by constructor.
Qed.
Lemma tells_new_timer id ty d md r : tells (new_timer id ty d md r : sess S _).
Proof. by intros io s io' s' b [= <- _ _]. Qed.
Lemma tells_start_timer t : tells (start_timer t : sess S _).
Proof. by intros io s io' s' b [= <- _ _]. Qed.
Lemma tells_stop_timer t : tells (stop_timer t : sess S _).
Proof. by intros io s io' s' b [= <- _ _]. Qed.
Lemma tells_reset_timer t : tells (reset_timer t : sess S _).
Proof. by intros io s io' s' b [= <- _ _]. Qed.
Lemma tells_drop_timer t : tells (drop_timer t : sess S _).
Proof. by intros io s io' s' b [= <- _ _]. Qed.
Lemma tells_random `{Rng} n : tells (random_below n : sess S _).
Proof. by intros io s io' s' b [= <- _ _]. Qed.
Lemma tells_debug_assert `{DebugAssertions} b : tells (debug_assert b : sess S _).
Proof. intros io s io' s' x. unfold debug_assert. destruct (_ && _); [done|]. by intros [= <- _ _]. Qed.
End tells.

Create HintDb tells.
#[export] Hint Resolve tells_ret tells_lift tells_get tells_put tells_modify tells_send_slim tells_send_app
  tells_new_timer tells_start_timer tells_stop_timer tells_reset_timer tells_drop_timer tells_random
  tells_debug_assert : tells.
#[export] Hint Extern 1 (item_good (Err _)) => exact I : tells.
#[export] Hint Extern 2 (item_good (Ok _)) => apply arrived_described : tells.

(** Runs through a computation, one operation at a time. *)
Ltac tells :=
  repeat match goal with
  | |- tells (lift _ ≫= _) => apply tells_lift_bind; intros ? ?
  | |- tells (_ ≫= _) => apply tells_bind; [|intros ?]
  | |- tells (try_bind _ _) => apply tells_try; [|intros ?]
  | |- tells (match ?x with _ => _ end) => destruct x
  | |- tells (fun _ _ => _) => fail 1
  | |- tells _ => solve [auto with tells]
  end.

Section sessions.
Context `{Hasher, BuildProfile, ErrorText, Rng, DebugAssertions, Logging, HashIter}.

Lemma tells_debug_arg {S A} (c : panics A) : tells (debug_arg c : sess S unit).
Proof. unfold debug_arg. tells. Qed.
#[local] Hint Resolve tells_debug_arg : tells.

(** *** Request/response *)
Lemma tells_rr_expire id n : tells (rr_on_failure id n).
Proof. unfold rr_on_failure, rr_set_timers. tells. Qed.
Lemma tells_with_timer m : tells (send_message_with_timer m).
Proof. unfold send_message_with_timer, rr_set_timers. tells. Qed.
#[local] Hint Resolve tells_with_timer : tells.
Lemma tells_rr m d : (d = North -> arrived m) -> tells (RequestResponse_on_message m d).
Proof.
  intros Hm. unfold RequestResponse_on_message, rr_set_timers, random_u32. destruct d; [|tells].
  specialize (Hm eq_refl). apply tells_lift_bind. intros h _. apply tells_bind; [apply tells_get|]. intros s.
  apply (tells_try_post (item_good ∘ Ok)); [tells| |intros m' Hm'; tells].
  destruct (in_session_header_type (sm_info m)) eqn:Ht; try apply yields_ret; try done.
  - by intros ? [= <-]; apply described_reply.
  - destruct (rr_timers s !! _) as [[timer ?]|]; [|by apply yields_ret].
    do 3 (apply yields_bind; intros ?). apply yields_ret. intros ? [= <-]. by apply arrived_described.
Qed.

(** *** Fire and forget *)
Lemma tells_ff_send m : tells (FireAndForget.send_message m).
Proof. unfold FireAndForget.send_message. tells. Qed.
#[local] Hint Resolve tells_ff_send : tells.
Lemma tells_send_all l : tells (send_all l).
Proof. induction l as [|m l IH]; cbn [send_all]; tells. Qed.
#[local] Hint Resolve tells_send_all : tells.
Lemma tells_discovery m : tells (handle_sticky_session_discovery m).
Proof. unfold handle_sticky_session_discovery. tells. Qed.
Lemma tells_discovery_reply m : tells (handle_sticky_session_discovery_reply m).
Proof. unfold handle_sticky_session_discovery_reply. tells. Qed.
Lemma tells_start_discovery t : tells (start_sticky_session_discovery t).
Proof. unfold start_sticky_session_discovery. tells. Qed.
Lemma tells_stop_timers id : tells (stop_and_remove_timer id).
Proof. unfold stop_and_remove_timer. tells. Qed.
#[local] Hint Resolve tells_discovery tells_discovery_reply tells_start_discovery tells_stop_timers : tells.
Lemma tells_to_slim m : tells (handle_message_to_slim m).
Proof. unfold handle_message_to_slim. tells. Qed.
Lemma tells_to_app m : arrived m -> tells (handle_message_to_app m).
Proof. intros Hm. unfold handle_message_to_app, FireAndForget.send_message_to_app. tells. Qed.
#[local] Hint Resolve tells_to_slim tells_to_app : tells.

(** What waits in an inbox for the application has arrived. *)
Definition internal_good (m : InternalMessage) : Prop :=
  match m with OnMessage m North => arrived m | _ => True end.
Lemma tells_internal m : internal_good m -> tells (process_internal m).
Proof.
  destruct m as [m []|c|id n|id n]; cbn [internal_good process_internal]; intros Hm;
    unfold handle_timer_timeout, handle_timer_failure; tells.
Qed.
Lemma tells_leave : tells leave_loop.
Proof.
  assert (Hd : forall l, tells (drain_timers l)) by (intros l; induction l as [|[? [? ?]] l IH]; cbn [drain_timers]; tells).
  unfold leave_loop. tells.
Qed.

(** *** Streaming *)
Lemma tells_items {S} l id : tells (Streaming.send_message_to_app l id : sess S unit).
Proof.
  induction l as [|[m|] l IH]; cbn [Streaming.send_message_to_app]; tells.
Qed.
Lemma tells_send_rtx {S} src name conn id tm mr rtx r : tells (send_rtx src name conn id tm mr rtx r : sess S _).
Proof. revert r. induction rtx as [|x rtx IH]; intros r; cbn [send_rtx]; tells. Qed.
#[local] Hint Resolve tells_items tells_send_rtx : tells.
Lemma tells_from_slim {S} m id st src mr tm : tells (process_message_from_slim m id st src mr tm : sess S _).
Proof. unfold process_message_from_slim, clean_rtx. tells. Qed.
Lemma tells_from_app {S} m id p b : tells (process_message_from_app m id p b : sess S _).
Proof. unfold process_message_from_app. tells. Qed.
Lemma tells_rtx_request {S} m id p src : tells (process_incoming_rtx_request m id p src : sess S _).
Proof. unfold process_incoming_rtx_request. tells. Qed.
#[local] Hint Resolve tells_from_slim tells_from_app tells_rtx_request : tells.
Lemma tells_stream ev : tells (stream_turn ev).
Proof.
  unfold stream_turn, rtx_turn, handle_rtx_timeout, handle_rtx_failure, send_beacon_msg, put_endpoint. tells.
Qed.

(** ** A session in its box *)
Definition session_inbox (ses : Session) : Prop :=
  match ses with Session_FireAndForget f => Forall internal_good (ff_inbox f) | _ => True end.
Definition session_keeping (ses : Session) : Prop := Forall keeps_info (cm_interceptors (common_of ses)).
Definition session_told (ses : Session) : Prop := session_inbox ses /\ session_keeping ses.

Lemma session_told_common ses ses' :
  session_inbox ses' -> common_of ses' = common_of ses -> session_told ses -> session_told ses'.
Proof. intros Hi Hc [_ Hk]. split; [done|]. unfold session_keeping. by rewrite Hc. Qed.

(** [minds ses c]: run on [ses], [c] leaves good items and a good inbox. *)
Definition minds {A} (ses : Session) (c : sess Session A) : Prop :=
  forall io io' ses' a, c io ses = Done (io', ses', a) -> told io -> session_told ses -> told io' /\ session_told ses'.

Lemma ff_push_told m f f' r :
  ff_push m f = (f', r) -> internal_good m -> session_told (Session_FireAndForget f) ->
  session_told (Session_FireAndForget f').
Proof.
  unfold ff_push. destruct (ff_loop f); intros [= <- _] Hm Hf; [|done].
  apply (session_told_common (Session_FireAndForget f)); [|done|done].
  cbn. apply Forall_app. split; [apply Hf|]. by constructor.
Qed.
Lemma rr_message_common m d io r io' r' res :
  RequestResponse_on_message m d io r = Done (io', r', res) -> rr_common r' = rr_common r.
Proof.
  intros Hr. destruct (get_session_header (sm_message m)) as [h|] eqn:Hh.
  - destruct (rr_on_message_total m d io r) as (io1&r1&res1&Hr1&Hc); [by exists h|]. congruence.
  - revert Hr. unfold RequestResponse_on_message. rewrite Hh. unfold lift, mbind, sess_bind. done.
Qed.

Lemma minds_message ses m d : (d = North -> arrived m) -> minds ses (on_message m d).
Proof.
  intros Hm io io' ses' a. destruct ses as [f|r|st]; cbn [on_message Session_ops];
    rewrite (sess_bind_Done _ _ _ _ _ _ _ (eq_refl : get_state io _ = Done (io, _, _))); unfold in_box; cbn.
  - unfold FireAndForget_on_message. destruct (ff_push (OnMessage m d) f) as [f' r] eqn:Hp. intros [= <- <- _] Hio Hses. split; [done|].
    apply (ff_push_told _ _ _ _ Hp); [|done]. destruct d; [by apply Hm|done].
  - destruct (RequestResponse_on_message m d io r) as [[[io1 r1] x]|] eqn:Hr; [|done]. intros [= <- <- _] Hio Hses.
    split; [by eapply tells_rr|]. eapply session_told_common; [done| |exact Hses]. by eapply rr_message_common.
  - intros [= <- <- _] Hio Hses. split; [done|exact Hses].
Qed.

Lemma minds_pass f m d ses :
  (session_keeping ses -> d = North ->
   forall m', f (common_of ses) (sm_message m) = (m', Ok tt) -> Info_from m' = Done (sm_info m)) ->
  minds ses (pass_to_session f m d).
Proof.
  intros Hf io io' ses' a. unfold pass_to_session.
  rewrite (sess_bind_Done _ _ _ _ _ _ _ (eq_refl : get_state io ses = Done (io, ses, ses))).
  destruct (f (common_of ses) (sm_message m)) as [m' [[]|e]]; [|by intros [= <- <- _]].
  intros Hr Hio Hses. refine (minds_message _ _ d _ _ _ _ _ Hr Hio Hses). intros ->. by apply Hf; [apply Hses|..].
Qed.

Lemma minds_arrival m ses : arrived m -> minds ses (pass_to_session on_message_from_slim_interceptors m North).
Proof.
  intros Hm. apply minds_pass. intros Hk _ m' Hr. rewrite <- Hm. by eapply run_keeps_info.
Qed.

Lemma minds_task ses task : minds ses (run_task task).
Proof.
  intros io io' ses' a. unfold run_task, stream_task, in_box.
  destruct task as [turn|id| |ev], ses as [f|r|st]; try (by intros [= <- <- _]).
  - destruct (ff_turn turn io f) as [[[io1 f1] []]|] eqn:Hr; [|done]. intros [= <- <- _] Hio Hses.
    pose proof (ff_turn_common _ _ _ _ _ Hr) as Hcom.
    enough (told io1 /\ session_inbox (Session_FireAndForget f1)) as [? ?].
    { split; [done|]. by apply (session_told_common (Session_FireAndForget f)). }
    destruct Hses as [Hses _]. clear Hcom. revert Hr. unfold ff_turn. destruct (ff_loop f) as [lp|]; [|by intros [= <- <-]]. destruct turn.
    + cbn in Hses. destruct (ff_inbox f) as [|m inbox] eqn:Hin; [intros [= <- <-]; cbn; by rewrite Hin|].
      inversion Hses as [|? ? Hm Hrest]; subst.
      destruct (process_internal m io lp) as [[[io2 lp2] y]|] eqn:Hp; [|done]. intros [= <- <-].
      split; [|done]. by eapply tells_internal.
    + destruct (ff_cancelled f); [|by intros [= <- <-]].
      destruct (leave_loop io lp) as [[[io2 lp2] y]|] eqn:Hp; [|done]. intros [= <- <-]. split; [|constructor]. by eapply tells_leave.
  - destruct (rr_on_failure id 1 io r) as [[[io1 r1] []]|] eqn:Hr; [|done]. intros [= <- <- _] Hio Hses.
    split; [by eapply tells_rr_expire|]. eapply session_told_common; [done| |exact Hses]. by eapply rr_on_failure_common.
  - destruct (sg_inbox st) as [|[m d] inbox]; [by intros [= <- <- _]|].
    destruct (stream_turn _ io _) as [[[io1 t1] x]|] eqn:Hr; [|done]. intros [= <- <- _] Hio Hses.
    split; [by eapply tells_stream|exact Hses].
  - destruct (stream_turn _ io _) as [[[io1 t1] x]|] eqn:Hr; [|done]. intros [= <- <- _] Hio Hses.
    split; [by eapply tells_stream|exact Hses].
Qed.

Lemma Common_config_interceptors c conf c' r :
  Common_set_session_config c conf = (c', r) -> cm_interceptors c' = cm_interceptors c.
Proof.
  unfold Common_set_session_config. destruct (cm_session_config c) as [d|d|d];
    [destruct (FireAndForgetConfiguration_replace d conf)|destruct (RequestResponseConfiguration_replace d conf)|
     destruct (StreamingConfiguration_replace d conf)]; by intros [= <- _].
Qed.
Lemma set_config_told ses conf : session_told ses -> session_told (set_session_config ses conf).1.
Proof.
  unfold session_told, session_keeping. destruct ses as [f|r|st]; cbn; intros [Hi Hk].
  - unfold FireAndForget_set_session_config. destruct (Common_set_session_config _ _) as [c [[]|e]] eqn:Hc; [|done].
    apply Common_config_interceptors in Hc. rewrite <- Hc in Hk. destruct conf as [config|config|config]; [|done..].
    match goal with |- context [ff_push ?m ?f0] => destruct (ff_push m f0) as [f' r] eqn:Hp end. cbn.
    by apply (ff_push_told _ _ _ _ Hp).
  - unfold delegate_set_session_config. destruct (Common_set_session_config _ _) eqn:Hc. cbn.
    by rewrite (Common_config_interceptors _ _ _ _ Hc).
  - unfold delegate_set_session_config. destruct (Common_set_session_config _ _) eqn:Hc. cbn.
    by rewrite (Common_config_interceptors _ _ _ _ Hc).
Qed.

(** ** The layer *)
Definition layer_told (l : SessionLayer) : Prop := forall id ses sys, sl_pool l !! id = Some (ses, sys) -> session_told ses.

(** [layer_tells c]: [c] leaves good items and good inboxes. *)
Definition layer_tells {A} (c : sess SessionLayer A) : Prop :=
  forall io l io' l' a, c io l = Done (io', l', a) -> told io -> layer_told l -> told io' /\ layer_told l'.

Lemma layer_tells_same {A} (c : sess SessionLayer A) :
  tells c -> (forall io l io' l' a, c io l = Done (io', l', a) -> l' = l) -> layer_tells c.
Proof. intros Hc Hl io l io' l' a Hr Hio. rewrite (Hl _ _ _ _ _ Hr). split; [by eapply Hc|done]. Qed.
Lemma layer_tells_bind {A B} (c : sess SessionLayer A) (f : A -> sess SessionLayer B) :
  layer_tells c -> (forall a, layer_tells (f a)) -> layer_tells (c ≫= f).
Proof.
  intros Hc Hf io l io' l' b. unfold mbind, sess_bind. destruct (c io l) as [[[io1 l1] a]|] eqn:Hr; [|done].
  intros Hr' Hio Hl. destruct (Hc _ _ _ _ _ Hr Hio Hl) as [Hio1 Hl1]. by apply (Hf _ _ _ _ _ _ Hr').
Qed.
Lemma layer_tells_lift {A B} (c : panics A) (f : A -> sess SessionLayer B) :
  (forall a, layer_tells (f a)) -> layer_tells (lift c ≫= f).
Proof. intros Hf io l io' l' b. unfold mbind, sess_bind, lift. destruct c; [|done]. apply Hf. Qed.
Lemma layer_tells_try {A B E} (c : sess SessionLayer (Result A E)) (f : A -> sess SessionLayer (Result B E)) :
  layer_tells c -> (forall a, layer_tells (f a)) -> layer_tells (try_bind c f).
Proof. intros Hc Hf. apply layer_tells_bind; [done|]. intros [a|e]; [apply Hf|]. by intros io l io' l' b [= <- <- _]. Qed.
Lemma layer_tells_ret {A} (a : A) : layer_tells (mret a).
Proof. by intros io l io' l' b [= <- <- _]. Qed.
Lemma layer_tells_get {A} (f : SessionLayer -> sess SessionLayer A) :
  (forall io l io' l' a, f l io l = Done (io', l', a) -> told io -> layer_told l -> told io' /\ layer_told l') ->
  layer_tells (get_state ≫= f).
Proof. intros Hf io l io' l' a. apply Hf. Qed.

Lemma with_session_told {A} id (c : sess Session A) : (forall ses, minds ses c) -> layer_tells (with_session id c).
Proof.
  intros Hc io l io' l' a. unfold with_session. destruct (sl_pool l !! id) as [[ses sys]|] eqn:Hl; [|by intros [= <- <- _]].
  destruct (c (io_with_timers io sys) ses) as [[[io1 ses1] x]|] eqn:Hr; [|done]. intros [= <- <- _] Hio Hlay.
  destruct (Hc ses _ _ _ _ Hr Hio (Hlay _ _ _ Hl)) as [Hio1 Hses1]. split; [done|].
  intros id' ses' sys'. cbn. rewrite lookup_insert_Some. intros [[_ [= <- <-]]|[_ Hl']]; [done|by eapply Hlay].
Qed.

Lemma new_session_told l conf id id' ses sys :
  new_session l conf id = Done (id', (ses, sys)) -> session_told ses.
Proof.
  assert (Hk : forall i d c src ident, Forall keeps_info (cm_interceptors (Common_new i d c src ident))).
  { intros. constructor; [apply identity_keeps_info|constructor]. }
  destruct conf as [c|c|c]; cbn [new_session]; [intros [= _ <- _]; split; [constructor|apply Hk]|intros [= _ <- _]; split; [done|apply Hk]|].
  destruct (Streaming_new _ _ _ _ _ _) as [[sys1 st]|] eqn:Hst; [|done]. intros [= _ <- _]. split; [done|].
  unfold Streaming_new in Hst. destruct (StreamTask_new _ _ _) as [[sys2 task]|]; [|done]. injection Hst as _ <-. apply Hk.
Qed.

Lemma layer_tells_create fuel conf id : layer_tells (create_session fuel conf id).
Proof.
  intros io l io' l' res. unfold told. intros (_&->&[->|(id0&id1&[ses sys]&Hn&_&->&_)])%create_session_cases Hio Hlay; [done|].
  split; [done|]. intros id' ses' sys'. cbn. rewrite lookup_insert_Some.
  intros [[_ [= <- <-]]|[_ Hl']]; [by apply (new_session_told _ _ _ _ _ _ Hn)|by eapply Hlay].
Qed.

Lemma layer_tells_from_app m : layer_tells (handle_message_from_app m South).
Proof.
  apply layer_tells_bind; [|intros []; apply layer_tells_ret]. apply with_session_told. intros ses io io' ses' x.
  destruct (with_session_header_mut _ _) as [m'|]; [|done].
  rewrite (sess_bind_Done _ _ _ _ _ _ m' (eq_refl : lift (Done m') io ses = _)). by apply minds_pass.
Qed.

Lemma layer_tells_from_slim fuel m : arrived m -> layer_tells (handle_message_from_slim fuel m North).
Proof.
  intros Hm.
  assert (Hw : forall id, layer_tells (with_session id (pass_to_session on_message_from_slim_interceptors m North))).
  { intros id. apply with_session_told. intros ses. by apply minds_arrival. }
  apply layer_tells_lift. intros h. destruct (SessionHeaderType_try_from _) as [t|]; [|apply layer_tells_ret].
  apply layer_tells_bind; [done|]. intros [r|]; [apply layer_tells_ret|]. apply layer_tells_get. intros io l.
  destruct (opens_session l t) as [conf|]; [|by intros io' l' a [= <- <- _]]. intros io' l' a.
  revert io l io' l' a. apply layer_tells_try; [apply layer_tells_create|]. intros info.
  apply layer_tells_bind; [|intros _; apply layer_tells_bind; [done|intros []; [apply layer_tells_ret|]]].
  - apply layer_tells_same; [apply tells_debug_assert|]. intros io l io' l' a. unfold debug_assert.
    destruct (_ && _); [done|]. by intros [= _ <- _].
  - done.
Qed.

Lemma layer_tells_handle fuel m d : (d = North -> arrived m) -> layer_tells (handle_message fuel m d).
Proof.
  intros Hm. apply layer_tells_lift. intros [?|e]; [|apply layer_tells_ret]. apply layer_tells_lift. intros b.
  destruct b; cbn [negb]; [|apply layer_tells_ret]. destruct d.
  - apply layer_tells_from_slim; auto.
  - by apply layer_tells_from_app.
Qed.

Lemma layer_tells_remove id : layer_tells (remove_session id).
Proof.
  intros io l io' l' a. unfold remove_session. run_sess.
  destruct (sl_pool l !! id) as [[s sys]|]; run_sess; intros [= <- <- _] Hio Hl; [|done].
  split; [done|]. intros id' ses' sys'. cbn. rewrite lookup_delete_Some. intros [_ Hl']. by eapply Hl.
Qed.
Lemma layer_tells_config conf id : layer_tells (layer_set_session_config conf id).
Proof.
  apply layer_tells_get. destruct id as [id|].
  - intros io l io' l' a. revert io l io' l' a. apply layer_tells_bind; [|intros []; apply layer_tells_ret].
    apply with_session_told. intros ses io io' ses' x.
    pose proof (set_config_told ses conf) as Hs. destruct (set_session_config ses conf) as [ses1 r1]. intros [= <- <- _] ? ?.
    split; [done|by apply Hs].
  - intros io l io' l' a. cbv zeta.
    destruct conf; [destruct (FireAndForgetConfiguration_replace _ _)|destruct (RequestResponseConfiguration_replace _ _)|
      destruct (StreamingConfiguration_replace _ _)]; run_sess; by intros [= <- <- _].
Qed.
Lemma layer_tells_interceptor id i : keeps_info i -> layer_tells (add_session_interceptor id i).
Proof.
  intros Hi. apply layer_tells_bind; [|intros []; apply layer_tells_ret]. apply with_session_told. intros ses io io' ses' x.
  intros [= <- <- _] Hio [Hin Hk]. split; [done|].
  assert (Hk' : Forall keeps_info (cm_interceptors (common_of ses) ++ [i])) by (apply Forall_app; split; [done|by constructor]).
  by destruct ses.
Qed.
Lemma layer_tells_task id task : layer_tells (with_session id (run_task task)).
Proof. apply with_session_told. intros. apply minds_task. Qed.
End sessions.

(** ** The service *)
Section service.
Context `{Hasher, BuildProfile, HashIter, Transport, Telemetry, ErrorText, Rng, DebugAssertions, Logging,
  UnicodeTables, StatusText}.
Context {G : GrpcConfig}.
Implicit Types (s : Service) (a : App).

Definition app_told a : Prop := told (ap_io a) /\ layer_told (ap_layer a).
Definition svc_told s : Prop := forall i a, sv_apps s !! i = Some a -> app_told a.

(** [svc_tells c]: [c] leaves good items in all channels. *)
Definition svc_tells {A} (c : svc A) : Prop := forall s s' r, c s = Done (s', r) -> svc_told s -> svc_told s'.

Lemma svc_tells_ret {A} (x : A) : svc_tells (mret x).
Proof. by intros s s' r [= <- _]. Qed.
Lemma svc_tells_panic {A} (c : panics A) : svc_tells (may_panic c).
Proof. intros s s' r. unfold may_panic. destruct c; [|done]. by intros [= <- _]. Qed.
Lemma svc_tells_bind {A B} (c : svc A) (f : A -> svc B) : svc_tells c -> (forall x, svc_tells (f x)) -> svc_tells (c ≫= f).
Proof.
  intros Hc Hf s s' r. unfold mbind, svc_bind. destruct (c s) as [[s1 x]|] eqn:Hr; [|done].
  intros Hr' Hs. eapply (Hf x); [exact Hr'|]. by eapply Hc.
Qed.
Lemma svc_tells_try {A B} (c : svc (Result A ServiceError.ServiceError)) (f : A -> svc (Result B ServiceError.ServiceError)) :
  svc_tells c -> (forall x, svc_tells (f x)) -> svc_tells (svc_try c f).
Proof. intros Hc Hf. apply svc_tells_bind; [done|]. intros [x|e]; [apply Hf|apply svc_tells_ret]. Qed.
Lemma svc_tells_service : svc_tells service.
Proof. by intros s s' r [= <- _]. Qed.
Lemma svc_tells_update f : (forall s, svc_told s -> svc_told (f s)) -> svc_tells (update f).
Proof. intros Hf s s' r [= <- _]. apply Hf. Qed.
Lemma svc_tells_update_app i f :
  (forall a, ap_io (f a) = ap_io a /\ ap_layer (f a) = ap_layer a) -> svc_tells (update_app i f).
Proof.
  intros Hf. apply svc_tells_update. intros s Hs j a. cbn. rewrite lookup_alter_Some.
  intros [(<-&a0&Ha0&->)|[_ Ha]]; [|by apply (Hs j)]. unfold app_told. destruct (Hf a0) as [-> ->]. by apply (Hs i).
Qed.
Lemma svc_tells_on_processor {A} (c : proc A) : svc_tells (on_processor c).
Proof.
  intros s s' r. unfold on_processor. destruct (c _) as [[mp x]|]; [|done]. intros [= <- _] Hs i a. cbn.
  rewrite lookup_fmap. destruct (sv_apps s !! i) as [a0|] eqn:Ha; [|done]. intros [= <-].
  unfold close_ended. destruct (mp_tasks mp !! ap_task a0); exact (Hs i a0 Ha).
Qed.
Lemma svc_tells_on_layer {A} i (c : sess SessionLayer A) : layer_tells c -> svc_tells (on_layer i c).
Proof.
  intros Hc s s' r. unfold on_layer. destruct (sv_apps s !! i) as [a|] eqn:Ha; [|done].
  destruct (c (ap_io a) (ap_layer a)) as [[[io l] x]|] eqn:Hr; [|done]. intros [= <- _] Hs j b. cbn.
  rewrite lookup_insert_Some. intros [[_ <-]|[_ Hb]]; [|by apply (Hs j)].
  destruct (Hs i a Ha) as [Hio Hl]. by apply (Hc _ _ _ _ _ Hr).
Qed.
Lemma layer_tells_send_slim m : layer_tells (send_slim m).
Proof.
  apply layer_tells_same; [apply tells_send_slim|]. intros io l io' l' a. run_sess. destruct (ob_open _); by intros [= _ <- _].
Qed.
Lemma layer_tells_send_app_err e : layer_tells (send_app (Err e)).
Proof.
  apply layer_tells_same; [by apply tells_send_app|]. intros io l io' l' a. run_sess. destruct (ob_open _); by intros [= _ <- _].
Qed.

(** Runs through an operation of the service. *)
Local Ltac svc_tells :=
  repeat match goal with
  | |- svc_tells (_ ≫= _) => apply svc_tells_bind; [|intros ?]
  | |- svc_tells (svc_try _ _) => apply svc_tells_try; [|intros ?]
  | |- svc_tells (mret _) => apply svc_tells_ret
  | |- svc_tells (may_panic _) => apply svc_tells_panic
  | |- svc_tells service => apply svc_tells_service
  | |- svc_tells (on_processor _) => apply svc_tells_on_processor
  | |- svc_tells (update_app _ _) => apply svc_tells_update_app; done
  | |- svc_tells (update _) => apply svc_tells_update; (done || idtac)
  | |- svc_tells (on_layer _ _) => apply svc_tells_on_layer; auto using layer_tells_send_slim, layer_tells_send_app_err,
      layer_tells_create, layer_tells_remove, layer_tells_config, layer_tells_task
  | |- svc_tells (match ?x with _ => _ end) => destruct x eqn:?
  | |- svc_tells (with_session_layer _ _) => unfold with_session_layer
  end.

(** *** The operations *)
Lemma svc_tells_create ag : svc_tells (create_agent ag).
Proof.
  unfold create_agent. svc_tells. intros s2 Hs2 i a. cbn. rewrite lookup_insert_Some.
  intros [[_ <-]|[_ Ha]]; [|by apply (Hs2 i)]. split; [constructor|]. by intros id ses sys; cbn; rewrite lookup_empty.
Qed.
Lemma svc_tells_run_server c b : svc_tells (run_server c b).
Proof. unfold run_server. svc_tells. Qed.
Lemma svc_tells_connect c att : svc_tells (Service_connect c att).
Proof. unfold Service_connect. svc_tells. Qed.
Lemma svc_tells_run b cb att cc : svc_tells (run b cb att cc).
Proof.
  assert (Hs : forall l, svc_tells (run_servers l)).
  { induction l as [|[c bd] l IH]; cbn [run_servers]; [apply svc_tells_ret|]. apply svc_tells_try; [apply svc_tells_run_server|done]. }
  assert (Hc : forall l, svc_tells (connect_clients l)).
  { induction l as [|[c at'] l IH]; cbn [connect_clients]; [apply svc_tells_ret|]. apply svc_tells_try; [apply svc_tells_connect|done]. }
  unfold run, serve_controller. apply svc_tells_bind; [apply svc_tells_service|]. intros s.
  destruct (servers _) as [|x l], (clients _) as [|y l']; [apply svc_tells_ret|..];
    (apply svc_tells_try; [apply Hs|intros _]; apply svc_tells_try; [apply Hc|intros _]; svc_tells).
Qed.
Lemma svc_tells_send fuel ag msg info : svc_tells (send_message fuel ag msg info).
Proof. unfold send_message. svc_tells. by apply layer_tells_handle. Qed.
Lemma svc_tells_create_session fuel ag conf : svc_tells (Service_create_session fuel ag conf).
Proof. unfold Service_create_session. svc_tells. Qed.

Lemma svc_tells_loop_start i : svc_tells (loop_start i).
Proof. unfold loop_start. svc_tells. Qed.
Lemma svc_tells_processor_turn i r1 r2 : svc_tells (processor_turn i r1 r2).
Proof. unfold processor_turn. svc_tells. Qed.
Lemma svc_tells_task i id task : svc_tells (on_layer i (with_session id (run_task task))).
Proof. svc_tells. Qed.

(** A publication is handed to the layer with the info made from it. *)
Lemma svc_tells_turn fuel i ev : svc_tells (process_turn fuel i ev).
Proof.
  unfold process_turn, end_loop. apply svc_tells_bind; [apply svc_tells_service|]. intros s.
  destruct (sv_apps s !! i) as [a|]; [|apply svc_tells_ret]. destruct (ap_loop a); [apply svc_tells_ret| |apply svc_tells_ret].
  destruct ev; [|svc_tells]. match goal with |- svc_tells (match ?x with _ => _ end) => destruct x as [[msg|e]|] end; [|svc_tells..].
  apply svc_tells_bind; [by apply svc_tells_update_app|]. intros _.
  destruct (pm_message_type msg) as [[x|x|p]|]; [apply svc_tells_ret..| |apply svc_tells_ret].
  destruct (SessionMessage_from msg) as [m|] eqn:Hm; [|done]. intros s1 s2 r.
  rewrite (svc_bind_Done _ _ _ _ _ (eq_refl : may_panic (Done m) s1 = Done (s1, m))). revert s1 s2 r.
  apply svc_tells_bind; [|intros _; apply svc_tells_ret]. apply svc_tells_on_layer, layer_tells_handle.
  intros _. by eapply SessionMessage_from_arrived.
Qed.

(** ** Runs

    All interceptors of a state keep the headers. Only adding an interceptor can
    lead to a state where one does not. *)
Definition svc_keeping s : Prop :=
  forall i a id ses sys, sv_apps s !! i = Some a -> sl_pool (ap_layer a) !! id = Some (ses, sys) -> session_keeping ses.
Definition kept_step s s' : Prop := svc_step s s' /\ svc_keeping s'.

Lemma interceptor_inboxes sid i io l io' l' r :
  add_session_interceptor sid i io l = Done (io', l', r) -> told io -> layer_told l ->
  told io' /\ forall id ses sys, sl_pool l' !! id = Some (ses, sys) -> session_inbox ses.
Proof.
  unfold add_session_interceptor, with_session, mbind, sess_bind, modify.
  destruct (sl_pool l !! sid) as [[ses sys]|] eqn:Hl; cbn; intros [= <- <- _] Hio Hlay; (split; [done|]);
    intros id' ses' sys'; [|intros Hses; by apply (Hlay _ _ _ Hses)].
  cbn. rewrite lookup_insert_Some. intros [[_ [= <- <-]]|[_ Hses]]; [|by apply (Hlay _ _ _ Hses)].
  destruct (Hlay _ _ _ Hl) as [Hin _]. by destruct ses.
Qed.
Lemma svc_tells_interceptor ag id i s s' r :
  Service_add_session_interceptor ag id i s = Done (s', r) -> svc_keeping s' -> svc_told s -> svc_told s'.
Proof.
  unfold Service_add_session_interceptor, with_session_layer.
  rewrite (svc_bind_Done _ _ _ _ _ (eq_refl : service s = Done (s, s))).
  destruct (hm_get _ _ _) as [j|]; [|by intros [= <- _]]. unfold mbind, svc_bind, on_layer.
  destruct (sv_apps s !! j) as [a|] eqn:Ha; [|done].
  destruct (add_session_interceptor id i (ap_io a) (ap_layer a)) as [[[io l] x]|] eqn:Hr; [|done].
  intros [= <- _] Hk Hs j' b Hb. pose proof Hb as Hb'. cbn in Hb'. apply lookup_insert_Some in Hb' as [[<- <-]|[_ Hb']].
  - destruct (Hs j a Ha) as [Hio Hl]. destruct (interceptor_inboxes _ _ _ _ _ _ _ Hr Hio Hl) as [Hio' Hl'].
    split; [done|]. intros sid ses sys Hses. split; [by apply (Hl' _ _ _ Hses)|exact (Hk _ _ _ _ _ Hb Hses)].
  - exact (Hs j' b Hb').
Qed.

Lemma svc_step_told s s' : svc_step s s' -> svc_keeping s' -> svc_told s -> svc_told s'.
Proof.
  destruct 1 as [ag s s' r Hr|ag s s' r Hr|c b s s' r Hr|e s s' r Hr|c att s s' r Hr|k s s' r Hr|
    fuel ag msg info s s' r Hr|fuel ag conf s s' r Hr|ag conf id s s' r Hr|ag id i s s' r Hi Hr|ag id s s' r Hr|
    i id task s s' r Hr|i s s' r Hr|fuel i ev s s' r Hok Hr|i r1 r2 s s' r Hok Hr|id task ev s s' r Ht Hev Hr|
    ra la s s' r Hr|tx s s' r Hr|i s]; intros Hk; [revert Hr..|].
  10:{ intros Hr. by apply (svc_tells_interceptor _ _ _ _ _ _ Hr). }
  all: clear Hk; try (clear Hok); try (clear Ht Hev); try revert s s' r.
  all: try match goal with |- forall s s' r, ?c s = Done (s', r) -> _ => change (svc_tells c) end.
  - apply svc_tells_create.
  - unfold delete_agent. svc_tells.
  - apply svc_tells_run_server.
  - unfold stop_server. svc_tells.
  - apply svc_tells_connect.
  - unfold Service_disconnect. svc_tells.
  - apply svc_tells_send.
  - apply svc_tells_create_session.
  - unfold Service_set_session_config. svc_tells.
  - unfold delete_session. svc_tells.
  - apply svc_tells_task.
  - apply svc_tells_loop_start.
  - apply svc_tells_turn.
  - apply svc_tells_processor_turn.
  - svc_tells.
  - svc_tells.
  - svc_tells.
  - intros Hs j a. cbn. rewrite lookup_alter_Some. intros [(<-&b&Hb&->)|[_ Ha]]; [exact (Hs i b Hb)|exact (Hs j a Ha)].
Qed.

Lemma svc_told_keeping s : svc_told s -> svc_keeping s.
Proof. intros Hs i a id ses sys Ha Hl. exact (proj2 (proj2 (Hs i a Ha) id ses sys Hl)). Qed.
Lemma svc_told_new id : svc_told (Service_new id).
Proof. intros i a. cbn. by rewrite lookup_empty. Qed.
Lemma kept_run_told s s' : rtc kept_step s s' -> svc_told s -> svc_told s'.
Proof. induction 1 as [|s s1 s' [Hst Hk] _ IH]; [done|]. intros Hs. by apply IH, (svc_step_told s). Qed.

(** C28: Every message a service delivers to an application comes with its own
    information. In every state the service can reach, with interceptors that
    leave the headers of received messages alone, the info of each message
    delivered is the one made from the message itself (its session, its id, its
    source, its type, the connection it came in on); it differs from that only for
    a message whose type is that of a request, and then only in asking for a
    reply. *)
Theorem delivered_items_described id s i a m :
  rtc kept_step (Service_new id) s -> sv_apps s !! i = Some a -> Ok m ∈ ob_sent (io_app (ap_io a)) ->
  exists info, Info_from (sm_message m) = Done info /\
    (sm_info m = info \/
     in_session_header_type info = Request /\ sm_info m = Info_set_session_header_type Reply info).
Proof.
  intros Hr Ha Hm. pose proof (kept_run_told _ _ Hr (svc_told_new id) i a Ha) as [Hio _].
  apply list_elem_of_lookup in Hm as [k Hk]. exact (Forall_lookup_1 _ _ _ _ Hio Hk).
Qed.
End service.
