(* ===== verification/ProxySystem.v ===== *)
(** * The MCP proxy over its service

    The proxy of [McpProxy] joined with the service it runs on: the proxy is
    started on a configured service, and its main loop, its tasks and the service
    take their steps in any order. That every message the service delivers comes
    with its own information ([DeliveredItems]) is what keeps the sessions
    apart. *)
From stdpp Require Import base list gmap strings numbers option sets.
From S2P Require Import Prelude Proto Encoder Messages MessageProcessing MessageProcessingProofs DataPlane.
From S2P Require Import ReceiverBuffer Timer Session RequestResponse FireAndForget Streaming SessionLayer SessionLayerProofs.
From S2P Require Import ComponentId Service ServiceProofs ServiceClaims Slim McpProxy McpProxyProofs McpProxyClaims.
From S2P Require Import DeliveredItems.
Import SlimConfig McpProxy.

Section system.
Context `{Rmcp}.
Context `{Hasher, BuildProfile, HashIter, Transport, Telemetry, ErrorText, Rng, DebugAssertions, Logging,
  UnicodeTables, StatusText}.
Context {G : GrpcConfig}.
Implicit Types (p : Proxy) (s : Service).

Lemma Info_from_source m info : Info_from m = Done info -> is_Some (in_message_source info).
Proof.
  unfold Info_from. destruct (get_session_header m) as [h|]; [|done]. destruct (get_slim_header m) as [sh|]; [|done].
  destruct (get_source m) as [src|]; [|done]. cbn. intros [= <-]. by eexists.
Qed.
Lemma described_item m : described m -> item_ok m.
Proof.
  intros (info&Hi&Hm). destruct (Info_from_source _ _ Hi) as [src Hs]. unfold item_ok, msg_key. rewrite Hi.
  assert (E : info_key (sm_info m) = info_key info) by (by destruct Hm as [->|[_ ->]]). rewrite E.
  split; [|done]. unfold info_key. rewrite Hs. by eexists.
Qed.

Variable fuel : nat.

(** The steps of the whole: the service's are those of [svc_step], with
    interceptors that keep the headers. *)
Inductive run_step : Proxy -> Proxy -> Prop :=
| RunMain ev p p' : px_phase p = Waiting -> main_turn fuel ev p = Done p' -> run_step p p'
| RunSend p p' : send_step p = Some p' -> run_step p p'
| RunNotice i p p' : notice_step i p = Some p' -> run_step p p'
| RunTask i ev p p' : session_step i ev p = Some p' -> run_step p p'
| RunService p s : kept_step (px_service p) s -> run_step p (with_service s p).

Lemma publish_to_told ag info ty id conn msg s s' r :
  publish_to fuel ag info ty id conn msg s = Done (s', r) -> svc_told s -> svc_told s'.
Proof. apply svc_tells_send. Qed.

Lemma main_turn_told ev p p' : main_turn fuel ev p = Done p' -> svc_told (px_service p) -> svc_told (px_service p').
Proof.
  destruct ev as [|d| |d]; cbn [main_turn].
  - destruct (next_item p) as [[m|e]|]; [|by intros [= <-]..]. unfold from_slim.
    destruct (is_publish (sm_message m)) as [[|]|]; cbn; [|by intros [= <-]|done].
    destruct (get_source (sm_message m)) as [src|]; cbn; [|done].
    destruct (px_connections p !! _) as [[sid i]|]; [by intros [= <-]|].
    destruct (unwrap_payload (sm_message m)) as [b|]; cbn; [|done].
    destruct (request_method b); [|by intros [= <-]]. case_decide; by intros [= <-].
  - unfold leave. destruct d; [|done]. by intros [= <-].
  - destruct (px_queue p) as [|[[info msg]|info] q]; [by intros [= <-]|..]; cbn.
    + destruct (in_message_source info) as [src|], (in_input_connection info) as [conn|]; try by intros [= <-].
      destruct (publish_to _ _ _ _ _ _ _ _) as [[s r]|] eqn:Hp; cbn; [|done]. intros [= <-]. by eapply publish_to_told.
    + destruct (in_message_source info); intros [= <-]; [|done]. unfold remove_connection. cbn.
      by destruct (px_connections p !! _) as [[? ?]|].
  - unfold leave. destruct d; [|done]. by intros [= <-].
Qed.

Lemma next_item_good p r : svc_told (px_service p) -> next_item p = Some r -> item_good r.
Proof.
  intros Hs. unfold next_item. destruct (sv_apps (px_service p) !! px_rx p) as [a|] eqn:Ha; [|done]. cbn. intros Hr.
  exact (Forall_lookup_1 _ _ _ _ (proj1 (Hs _ a Ha)) Hr).
Qed.

(** Every step of the whole is a step of the proxy. *)
Lemma run_step_told p p' : run_step p p' -> svc_told (px_service p) -> px_step fuel p p' /\ svc_told (px_service p').
Proof.
  intros Hst Hs. destruct Hst as [ev p p' Hp Hr|p p' Hr|i p p' Hr|i ev p p' Hr|p s [Hst Hk]].
  - split; [|by eapply main_turn_told]. apply (StepMain fuel ev); [done| |done]. intros m _ Hm.
    apply described_item. exact (next_item_good _ _ Hs Hm).
  - split; [by apply StepSend|]. revert Hr. unfold send_step. destruct (px_phase p) as [|i m store|]; [done| |done].
    destruct (px_tasks p !! i) as [t|]; [|done]. cbn. destruct (tk_phase t); try case_decide; try done; by intros [= <-].
  - split; [by eapply StepNotice|]. revert Hr. unfold notice_step. destruct (px_tasks p !! i) as [t|]; [|done]. cbn.
    destruct (tk_phase t) as [| |n last|]; try done. destruct (px_phase p); try case_decide; try done; by intros [= <-].
  - split; [by eapply StepTask|]. revert Hr. unfold session_step. destruct (px_tasks p !! i) as [t|]; [|done]. cbn.
    destruct (task_step ev t); [|done]. by intros [= <-].
  - split; [apply StepService|]. by apply (svc_step_told (px_service p)).
Qed.
Lemma run_steps p p' : rtc run_step p p' -> svc_told (px_service p) -> rtc (px_step fuel) p p'.
Proof.
  induction 1 as [|p p1 p' Hst _ IH]; intros Hs; [constructor|]. destruct (run_step_told _ _ Hst Hs) as [Hpx Hs1].
  eapply rtc_l; [exact Hpx|by apply IH].
Qed.

(** The start. *)
Lemma proxy_start_told name svc_id services b cb att cc p x s0 :
  proxy_start fuel name svc_id services b cb att cc = Done p -> services !! id_key svc_id = Some (x, s0) -> svc_told s0 ->
  initial p /\ svc_told (px_service p).
Proof.
  unfold proxy_start. intros Hr Hl Hs. rewrite Hl in Hr. cbn [fmap option_fmap option_map snd expect mbind panics_bind] in Hr.
  destruct (create_agent name s0) as [[s1 [rx|e]]|] eqn:Hc1; cbn [mbind panics_bind] in Hr; [|done..].
  apply svc_tells_create in Hc1. specialize (Hc1 Hs).
  destruct (run b cb att cc s1) as [[s2 [u|e]]|] eqn:Hc2; cbn [mbind panics_bind] in Hr; [|done..].
  apply svc_tells_run in Hc2. specialize (Hc2 Hc1).
  destruct (head _) as [client|]; cbn [expect mbind panics_bind] in Hr; [|done].
  unfold get_connection_id in Hr. rewrite (svc_bind_Done _ _ _ _ _ (eq_refl : service s2 = Done (s2, s2))) in Hr.
  cbn [mret svc_ret mbind panics_bind] in Hr.
  destruct (sv_clients s2 !! _) as [conn|]; cbn [expect mbind panics_bind] in Hr; [|done].
  destruct (subscribe fuel name _ _ _ s2) as [[s3 [u'|e]]|] eqn:Hc3; cbn [mbind panics_bind] in Hr; [|done..].
  assert (Hs3 : svc_told s3).
  { revert Hc3 Hc2. unfold subscribe. apply svc_tells_bind; [apply svc_tells_panic|]. intros m. apply svc_tells_send. }
  destruct (Service_create_session fuel name _ s3) as [[s4 [u''|e]]|] eqn:Hc4; cbn [mbind panics_bind] in Hr; [|done..].
  injection Hr as <-. split; [by split|]. by eapply svc_tells_create_session.
Qed.

(** C11: The MCP proxy keeps its sessions apart. Started on a configured service,
    and whatever the clients, the network, the service's tasks, the MCP server,
    the timers and the scheduler do, in every state reached: a task has only
    messages of its own client session; what it sent to the MCP server is, in
    order, what it could read of them, less only answers that may be to a ping; at
    most three pings are pending; what waits for the main loop carries the
    information of a task; the table maps a session to a task of that session;
    and while the proxy runs a session has at most one task that has not ended. *)
Theorem proxy_sessions_apart name svc_id services b cb att cc x id config p0 p :
  services !! id_key svc_id = Some (x, with_config (Service_new id) config) ->
  proxy_start fuel name svc_id services b cb att cc = Done p0 ->
  rtc run_step p0 p ->
  (forall i t, px_tasks p !! i = Some t ->
     Forall (fun m => msg_key m = task_key t) (tk_taken t ++ tk_inbox t) /\
     tk_sink t `sublist_of` omap parsed (tk_taken t) /\
     filter not_pong (tk_sink t) = filter not_pong (omap parsed (tk_taken t)) /\
     size (tk_pending t) <= MAX_PENDING_PINGS) /\
  (forall n, n ∈ px_queue p -> exists i t, px_tasks p !! i = Some t /\ notice_of t n) /\
  (forall k sid i, px_connections p !! k = Some (sid, i) ->
     session_key sid = k /\ exists t, px_tasks p !! i = Some t /\ task_key t = Some k) /\
  (px_phase p <> Stopped -> forall i j t u k, px_tasks p !! i = Some t -> px_tasks p !! j = Some u ->
     task_key t = Some k -> task_key u = Some k -> tk_phase t <> Ended -> tk_phase u <> Ended -> i = j).
Proof.
  intros Hl Hstart Hr. destruct (proxy_start_told _ _ _ _ _ _ _ _ _ _ Hstart Hl (svc_told_new id)) as [Hi Hs].
  exact (sessions_apart fuel p0 p Hi (run_steps _ _ Hr Hs)).
Qed.
End system.

(** ** A concrete run *)
Module ProxyDemo.
Import ServiceDemo McpDemo.
#[local] Existing Instances toy_hasher checked_build hash_iter_sorted demo_transport demo_errors demo_rng demo_checks
  ascii_tables quiet_telemetry quiet_logging plain_status demo_grpc toy_rmcp.

(** What the service does on its own: an app starts, the processor takes the next
    message of an app or receives one from the network, an app and a session
    take a turn. *)
Inductive ServiceCmd : Type :=
| Starts (i : N)
| Takes (i : N)
| Receives (task : N) (msg : ProtoMessage)
| Turns (i : N)
| SessionTurns (i id : N).
Definition no_unsubscription (msg : ProtoMessage) : bool :=
  match pm_message_type msg, get_source msg with Some (Unsubscribe _), _ => false | _, Done _ => true | _, Panic _ => false end.
Definition turn_okb (s : Service) (i : N) : bool :=
  match sv_apps s !! i with
  | Some a =>
      match ServiceProofs.next_item s a with
      | Some (Delivered msg) => match SessionMessage_from msg with Done _ => true | Panic _ => false end
      | Some (InternalStatus _) => false
      | None => true
      end
  | None => true
  end.
Definition exec_service (c : ServiceCmd) (s : Service) : option Service :=
  let ran {A} (ok : bool) (c : svc A) := if ok && finishes c s then Some (after c s) else None in
  match c with
  | Starts i => ran true (loop_start i)
  | Takes i =>
      ran (match sv_apps s !! i with
           | Some a => match ob_sent (io_slim (ap_io a)) !! ap_taken a with Some m => no_unsubscription m | None => true end
           | None => true end) (processor_turn i 0 0)
  | Receives task msg =>
      ran (no_unsubscription msg && bool_decide (is_Some (mp_tasks (sv_message_processor s) !! task)))
        (on_processor (stream_event task (Received msg 0 0)))
  | Turns i => ran (turn_okb s i) (process_turn 5 i LoopRecv)
  | SessionTurns i id => ran true (on_layer i (with_session id (run_task (TaskLoop TurnRecv))))
  end.

Lemma receives_ok msg s S task : no_unsubscription msg = true -> event_ok s S task (Received msg 0 0).
Proof.
  unfold no_unsubscription. intros Hm _. destruct (get_source msg) as [src|] eqn:Hs.
  - split; [by exists src|]. intros u h dst c Ht. by rewrite Ht in Hm.
  - by destruct (pm_message_type msg) as [[]|].
Qed.
Lemma turn_okb_ok s i : turn_okb s i = true -> turn_ok s i.
Proof.
  unfold turn_okb, turn_ok. intros Hb a Ha. rewrite Ha in Hb. destruct (ServiceProofs.next_item s a) as [[msg|e]|]; [|done..].
  intros q _. destruct (SessionMessage_from msg) as [m|]; [by exists m|done].
Qed.
Lemma exec_service_step c s s' : exec_service c s = Some s' -> svc_told s -> kept_step s s' /\ svc_told s'.
Proof.
  assert (Hran : forall A (ok : bool) (op : svc A), (if ok && finishes op s then Some (after op s) else None) = Some s' ->
    ok = true /\ exists r, op s = Done (s', r)).
  { intros A ok op. destruct ok; cbn; [|done]. destruct (finishes op s) eqn:Hr; [|done]. intros [= <-].
    split; [done|by apply after_returns]. }
  assert (Hgo : forall A (op : svc A) r, op s = Done (s', r) -> svc_tells op -> svc_step s s' -> svc_told s ->
    kept_step s s' /\ svc_told s').
  { intros A op r Hr Ht Hst Hs. pose proof (Ht _ _ _ Hr Hs) as Hs'. split; [|done]. split; [done|by apply svc_told_keeping]. }
  destruct c as [i|i|task msg|i|i id]; cbn [exec_service]; intros (Hok&r&Hr)%Hran; eapply Hgo; try exact Hr.
  - apply svc_tells_loop_start.
  - by eapply SvcLoopStart.
  - apply svc_tells_processor_turn.
  - eapply SvcProcessorTurn; [|exact Hr]. intros a msg task S Ha Hm _ _. rewrite Ha, Hm in Hok. by apply receives_ok.
  - apply svc_tells_on_processor.
  - apply andb_true_iff in Hok as [Hm Ht%bool_decide_eq_true_1]. destruct Ht as [t Ht].
    eapply (SvcEvent task t); [done| |exact Hr]. intros S _. by apply receives_ok.
  - apply svc_tells_turn.
  - eapply SvcTurn; [by apply turn_okb_ok|exact Hr].
  - apply svc_tells_task.
  - by eapply SvcTask.
Qed.

(** The proxy and its service. *)
Inductive SystemCmd : Type := OfProxy (c : Cmd) | OfService (c : ServiceCmd).
Definition exec_system1 (c : SystemCmd) (p : Proxy) : option Proxy :=
  match c with
  | OfProxy (Main ev) =>
      match px_phase p with Waiting => match main_turn 5 ev p with Done p => Some p | Panic _ => None end | _ => None end
  | OfProxy Send => send_step p
  | OfProxy (Notify i) => notice_step i p
  | OfProxy (McpDemo.Task i ev) => session_step i ev p
  | OfService c => s ← exec_service c (px_service p); Some (with_service s p)
  end.
Fixpoint exec_system (l : list SystemCmd) (p : Proxy) : option Proxy :=
  match l with [] => Some p | c :: l => p ← exec_system1 c p; exec_system l p end.
Lemma exec_system_steps l p p' : exec_system l p = Some p' -> svc_told (px_service p) -> rtc (run_step 5) p p'.
Proof.
  revert p. induction l as [|c l IH]; intros p; cbn; [intros [= <-] _; constructor|].
  destruct (exec_system1 c p) as [p1|] eqn:Hc; [|done]. cbn. intros Hl Hs.
  enough (run_step 5 p p1) as Hst.
  { eapply rtc_l; [exact Hst|]. apply IH; [done|]. by apply (run_step_told 5 p p1 Hst). }
  destruct c as [[ev| |i|i ev]|c]; cbn in Hc; [|by apply RunSend|by eapply RunNotice|by eapply RunTask|].
  - destruct (px_phase p) eqn:Hp; [|done..]. destruct (main_turn 5 ev p) as [p2|] eqn:Hm; [|done]. injection Hc as <-.
    by eapply RunMain.
  - destruct (exec_service c (px_service p)) as [s|] eqn:Hx; [|done]. injection Hc as <-. apply RunService.
    by apply (exec_service_step c (px_service p) s).
Qed.

(** The proxy connects to a node; Bob, beyond it, opens a session. *)
Definition config : ServiceConfiguration := with_client ServiceConfiguration_new [peer].
Definition services : gmap (string * string) (ID * Service) :=
  {[ id_key id := (id, with_config (Service_new id) config) ]}.
Definition started : Proxy :=
  match proxy_start 5 alice id services [] true [[true]] true with Done p => p | Panic _ => proxy [] end.
Definition bob_asks : ProtoMessage :=
  map_session (fun _ => mkSessionHeader (SessionHeaderType_to_i32 Fnf) 9 4)
    (new_publish bob (ag_agent_type alice) (Some (ag_agent_id alice)) (Some SlimHeaderFlags_default) "msg" [Byte.x69]).
Definition schedule : list SystemCmd :=
  [OfService (Starts 0); OfService (Takes 0); OfService (Takes 0); OfService (Receives 6 bob_asks); OfService (Turns 0);
   OfService (SessionTurns 0 9); OfProxy (Main NextFromSlim); OfProxy Send; OfProxy (McpDemo.Task 0 (SseStarted true));
   OfProxy (McpDemo.Task 0 (Selected (FromSlim true)))].
Definition served : Proxy := default started (exec_system schedule started).

Lemma started_told : svc_told (px_service started) /\ proxy_start 5 alice id services [] true [[true]] true = Done started.
Proof.
  destruct (proxy_start 5 alice id services [] true [[true]] true) as [p|] eqn:Hs; [|vm_compute in Hs; discriminate Hs].
  assert (Ep : started = p) by (unfold started; by rewrite Hs). rewrite Ep. split; [|done].
  refine (proj2 (proxy_start_told 5 _ _ _ _ _ _ _ _ id (with_config (Service_new id) config) Hs _ (svc_told_new id))).
  vm_compute. reflexivity.
Qed.
Lemma served_reached : rtc (run_step 5) started served.
Proof.
  assert (Hsome : bool_decide (is_Some (exec_system schedule started)) = true) by (vm_compute; reflexivity).
  apply bool_decide_eq_true_1 in Hsome as [p Hp]. unfold served. rewrite Hp.
  exact (exec_system_steps schedule started p Hp (proj1 started_told)).
Qed.
Lemma proxy_sessions_apart_witness :
  exists t, px_tasks served !! 0%N = Some t /\ tk_sink t = [[Byte.x69]] /\ tk_phase t = Selecting /\
    Forall (fun m => msg_key m = task_key t) (tk_taken t ++ tk_inbox t).
Proof.
  destruct (proxy_sessions_apart 5 alice id services [] true [[true]] true id id config started served
    ltac:(vm_compute; reflexivity) (proj2 started_told) served_reached) as [Hall _].
  assert (Hsome : option_map (fun t => (tk_sink t, tk_phase t)) (px_tasks served !! 0%N) = Some ([[Byte.x69]], Selecting)) by (vm_compute; reflexivity).
  destruct (px_tasks served !! 0%N) as [t|] eqn:Ht; [|discriminate Hsome].
  exists t. injection Hsome as Hsink Hph. split; [reflexivity|]. split; [exact Hsink|]. split; [exact Hph|].
  exact (proj1 (Hall 0%N t Ht)).
Defined.

(** Alice's service receives Bob's message without a proxy. *)
Definition delivered_cmds : list ServiceCmd := [Starts 0; Takes 0; Receives 6 bob_asks; Turns 0; SessionTurns 0 9].
Fixpoint exec_services (l : list ServiceCmd) (s : Service) : option Service :=
  match l with [] => Some s | c :: l => s ← exec_service c s; exec_services l s end.
Lemma exec_services_steps l s s' : exec_services l s = Some s' -> svc_told s -> rtc kept_step s s'.
Proof.
  revert s. induction l as [|c l IH]; intros s; cbn; [intros [= <-] _; constructor|].
  destruct (exec_service c s) as [s1|] eqn:Hc; [|done]. cbn. intros Hl Hs.
  destruct (exec_service_step c s s1 Hc Hs) as [Hst Hs1]. eapply rtc_l; [exact Hst|by apply IH].
Qed.
Definition connected : Service := after (Service_connect peer [true]) s1.
Definition told_service : Service := default s1 (exec_services delivered_cmds connected).
Lemma connected_reached : rtc kept_step s0 connected /\ svc_told connected.
Proof.
  destruct (after_returns (create_agent alice) s0) as [r1 Hr1]; [by vm_compute|].
  destruct (after_returns (Service_connect peer [true]) s1) as [r2 Hr2]; [by vm_compute|].
  pose proof (svc_tells_create _ _ _ _ Hr1 (svc_told_new id)) as Ht1. pose proof (svc_tells_connect _ _ _ _ _ Hr2 Ht1) as Ht2.
  split; [|exact Ht2]. eapply rtc_l; [split; [exact (SvcCreate _ _ _ _ Hr1)|by apply svc_told_keeping]|].
  apply rtc_once. split; [exact (SvcConnect _ _ _ _ _ Hr2)|by apply svc_told_keeping].
Qed.
Lemma told_reached : rtc kept_step s0 told_service.
Proof.
  assert (Hsome : bool_decide (is_Some (exec_services delivered_cmds connected)) = true) by (vm_compute; reflexivity).
  apply bool_decide_eq_true_1 in Hsome as [s Hs]. unfold told_service. rewrite Hs.
  destruct connected_reached as [Hr Ht]. etrans; [exact Hr|]. exact (exec_services_steps delivered_cmds connected s Hs Ht).
Qed.
Definition bob_item : SessionMessage :=
  match ob_sent (io_app (ap_io (the_app told_service 0))) with Ok m :: _ => m | _ => item [] end.
Lemma told_app : sv_apps told_service !! 0%N = Some (the_app told_service 0).
Proof.
  assert (Hsome : bool_decide (is_Some (sv_apps told_service !! 0%N)) = true) by (vm_compute; reflexivity).
  apply bool_decide_eq_true_1 in Hsome as [a Ha]. unfold the_app. rewrite Ha. reflexivity.
Qed.
Lemma told_items : ob_sent (io_app (ap_io (the_app told_service 0))) = [Ok bob_item].
Proof. vm_compute. reflexivity. Qed.
Lemma delivered_items_described_witness :
  in_id (sm_info bob_item) = 9%N /\
  exists info, Info_from (sm_message bob_item) = Done info /\
    (sm_info bob_item = info \/
     in_session_header_type info = Request /\ sm_info bob_item = Info_set_session_header_type Reply info).
Proof.
  split; [vm_compute; reflexivity|].
  apply (delivered_items_described id told_service 0 (the_app told_service 0) bob_item told_reached told_app).
  rewrite told_items. left.
Defined.
End ProxyDemo.
