(* ===== verification/EndToEnd.v ===== *)
(** * From application to application

    The services, the nodes between them and their connections put together: a
    publication made on one service travels through its message processor, any
    number of nodes and the message processor of another service to the
    application there, and the acknowledgement of a reliable one travels back.

    A connection joins two message processors: what one of them puts on the
    connection's channel is what the task of the other end receives next. [relay]
    passes a message through a row of nodes this way. *)
From stdpp Require Import base list gmap strings numbers option sets.
From S2P Require Import Prelude Proto Encoder Messages ConnectionTable Forwarder MessageProcessing.
From S2P Require Import SubscriptionTable SubscriptionTableSpec MessageProcessingProofs DataPlane ProcessorFrame.
From S2P Require Import ReceiverBuffer Timer Session FireAndForget FireAndForgetProofs SessionLayer SessionLayerProofs.
From S2P Require Import ComponentId Service ServiceProofs ServiceClaims.
Open Scope slim_scope.

(** ** Publications on their way *)

(** What stays the same of a publication: who sent it to whom, its session and
    message, its content. *)
Record Letter : Type := mkLetter {
  lt_from : Agent;
  lt_to : Agent;
  lt_kind : SessionHeaderType;
  lt_session : N;
  lt_id : N;
  lt_content : Content;
}.

(** [m] is the letter, to be sent on connection [fwd] if there is one. *)
Definition letter (l : Letter) (fwd : option N) (m : ProtoMessage) : Prop :=
  exists p h, pm_message_type m = Some (Publish p) /\ pu_header p = Some h /\
    sh_source h = Some (ProtoAgent_from_agent (lt_from l)) /\
    sh_destination h = Some (ProtoAgent_from_type (ag_agent_type (lt_to l)) (Some (ag_agent_id (lt_to l)))) /\
    sh_fanout h = 1%N /\ sh_forward_to h = fwd /\
    pu_session p = Some (mkSessionHeader (SessionHeaderType_to_i32 (lt_kind l)) (lt_session l) (lt_id l)) /\
    pu_msg p = Some (lt_content l).

(** The sender has an id of its own. *)
Definition signed (l : Letter) : Prop := ag_agent_id (lt_from l) <> DEFAULT_AGENT_ID.

(** A name as the other side reads it: without its strings. *)
Definition wire_name (ag : Agent) : Agent :=
  mkAgent (AgentType_from_proto (ProtoAgent_from_agent ag)) (ag_agent_id ag).

Lemma letter_source l fwd m : signed l -> letter l fwd m -> get_source m = Done (wire_name (lt_from l)).
Proof.
  intros Hs (p&h&Ht&Hh&Hsrc&_). unfold get_source. rewrite get_slim_header_try. unfold try_get_slim_header.
  rewrite Ht, Hh. cbn. unfold SlimHeader_get_source. rewrite Hsrc. unfold Agent_from_proto. cbn.
  by rewrite decide_False.
Qed.

Lemma letter_valid l fwd m : letter l fwd m -> valid_message m.
Proof.
  intros (p&h&Ht&Hh&Hsrc&Hd&_&_&Hse&_). eexists h, _, _. unfold try_get_slim_header. rewrite Ht. by eauto.
Qed.

Lemma letter_traceable `{Telemetry} l fwd m : signed l -> letter l fwd m -> traceable m.
Proof.
  intros Hs Hl. split; [by eapply letter_valid|]. intros _. eexists. by eapply letter_source.
Qed.

Lemma letter_rewritten f l fwd fwd' m p m' t' :
  letter l fwd m -> pm_message_type m = Some (Publish p) -> pm_message_type m' = Some t' ->
  rewritten f (Publish p) t' ->
  (forall h, sh_source (f h) = sh_source h /\ sh_destination (f h) = sh_destination h /\ sh_fanout (f h) = sh_fanout h) ->
  (forall h, sh_forward_to h = fwd -> sh_forward_to (f h) = fwd') ->
  letter l fwd' m'.
Proof.
  intros (p0&h&Ht&Hh&Hsrc&Hd&Hf&Hto&Hse&Hc) Hp Ht' Hrw Hfix Hfwd. assert (p0 = p) as -> by congruence.
  destruct t' as [| |p']; [done..|]. destruct Hrw as (Hh'&Hse'&Hc'). rewrite Hh in Hh'.
  destruct (Hfix h) as (E1&E2&E3). exists p', (f h). rewrite E1, E2, E3, Hse', Hc'. by eauto 10.
Qed.

(** ** One processor *)
Section processor.
Context `{Hasher, HashIter, Transport, Telemetry}.
Implicit Type s : MessageProcessor.

(** Connection [k] is the only one subscribed for the name. *)
Definition sole (S : Subs) (ag : Agent) (k : N) : Prop :=
  (exists b, ((type_key (ag_agent_type ag), ag_agent_id ag), b, k) ∈ S) /\
  forall b k', ((type_key (ag_agent_type ag), ag_agent_id ag), b, k') ∈ S -> k' = k.

(** How that is seen in the table. *)
Definition sole_in (t : SubscriptionTable) (ag : Agent) (k : N) : bool :=
  let ak := (type_key (ag_agent_type ag), ag_agent_id ag) in
  bool_decide (in_conn (st_connections t) k ak) &&
  bool_decide (map_Forall (fun k' set => is_Some (set !! ak) -> k' = k) (st_connections t)).
Lemma sole_in_sole s S ag k : mp_inv s S -> sole_in (subscription_table (mp_forwarder s)) ag k = true -> sole S ag k.
Proof.
  intros Hinv [Hin Hone]%andb_true_iff. apply bool_decide_eq_true_1 in Hin, Hone.
  pose proof (rs_in_conn _ S (fw_subs _ _ (mi_fw s S Hinv))) as Hiff. split; [by apply Hiff|].
  intros b k' Hk'. destruct (proj2 (Hiff (type_key (ag_agent_type ag), ag_agent_id ag) k')) as (set&Hset&Hak); [by eexists|]. exact (Hone k' set Hset Hak).
Qed.

(** Where a message that came in on [conn] goes. *)
Definition leads (S : Subs) (to : Agent) (fwd : option N) (conn k : N) : Prop :=
  match fwd with
  | Some k' => k' = k
  | None => k <> conn /\ sole S to k
  end.

Lemma sole_matched s S to conn k r1 r2 :
  mp_inv s S -> sole S to k -> k <> conn ->
  on_publish_msg_match (mp_forwarder s) (AgentType_from_proto (ProtoAgent_from_type (ag_agent_type to) (Some (ag_agent_id to))))
    (Some (ag_agent_id to)) conn 1 r1 r2 = Done (Ok [k]).
Proof.
  intros Hinv [[b0 Hin] Hone] Hne. unfold on_publish_msg_match. rewrite decide_True by done.
  destruct (match_one_exact (subscription_table (mp_forwarder s)) S (fw_subs _ _ (mi_fw s S Hinv))
    (AgentType_from_proto (ProtoAgent_from_type (ag_agent_type to) (Some (ag_agent_id to)))) (Some (ag_agent_id to)) conn r1 r2)
    as (res&->&Hres).
  destruct res as [k'|e].
  - destruct Hres as (_&b&[[_ Hk']|(id&[= <-]&Hnone&_)]).
    + by rewrite (Hone b k' Hk').
    + by destruct (Hnone b0 k).
  - destruct Hres as [_ Hno]. exfalso. apply (Hno ltac:(intros b Hb; by apply Hne; symmetry; apply (Hone b)) b0 k). by split.
Qed.

Lemma hop s S id task l fwd m r1 r2 k q :
  mp_inv s S -> mp_tasks s !! id = Some task -> signed l -> letter l fwd m ->
  leads S (lt_to l) fwd (tk_conn_index task) k -> queue s k = Some q ->
  exists m', stream_event id (Received m r1 r2) s = Done (push s k (Delivered m'), tt) /\
    letter l None m' /\ get_incoming_conn m' = Done (tk_conn_index task).
Proof.
  intros Hinv Htask Hsg Hl Hlead Hq. pose proof (letter_traceable _ _ _ Hsg Hl) as Htr.
  destruct (Hl) as (p&h&Ht&Hh&Hsrc&Hd&Hf&Hto&Hse&Hc). set (conn := tk_conn_index task) in *.
  destruct (publish_enters conn (tk_is_local task) m p h _ r1 r2 s Htr Ht Hh Hd) as (m1&p1&Htr1&Ht1&Hrw1&Hto1&Henter).
  destruct (outgoing_done m1 k (Publish p1) Htr1 Ht1) as (m2&t2&Hout&Ht2&Hrw2).
  pose proof (rewritten_compose _ _ _ _ _ Hrw1 Hrw2) as Hrw.
  assert (Hsend : match_and_forward_msg m1 (AgentType_from_proto (ProtoAgent_from_type (ag_agent_type (lt_to l)) (Some (ag_agent_id (lt_to l)))))
    conn (sh_fanout h) (Some (ag_agent_id (lt_to l))) r1 r2 s = Done (push s k (Delivered m2), Ok tt)).
  { unfold match_and_forward_msg. rewrite (bind_Done _ _ _ _ _ (lift_Done _ s _ Hto1)), Hto, Hf.
    destruct fwd as [k'|]; [cbn in Hlead; subst k'; by rewrite (bind_Done _ _ _ _ _ (send_msg_open s k q m1 m2 Hq Hout))|].
    destruct Hlead as [Hne Hsole]. rewrite (bind_Done _ _ _ _ _ (eq_refl : gets mp_forwarder s = Done (s, _))).
    rewrite (bind_Done _ _ _ _ _ (lift_Done _ s _ (sole_matched s S (lt_to l) conn k r1 r2 Hinv Hsole Hne))).
    cbn [forward_all]. by rewrite (bind_Done _ _ _ _ _ (send_msg_open s k q m1 m2 Hq Hout)). }
  exists m2. split; [|split].
  - unfold stream_event. rewrite (bind_Done _ _ _ _ _ (eq_refl : gets mp_tasks s = Done (s, _))), Htask.
    fold conn. unfold mbind at 1, proc_bind at 1. rewrite Henter. cbn [pa_agent_id ProtoAgent_from_type].
    by rewrite (bind_Done _ _ _ _ _ Hsend).
  - by apply (letter_rewritten _ l fwd None m p m2 t2 Hl Ht Ht2 Hrw).
  - destruct t2 as [| |p2]; [done..|]. destruct Hrw as (Hh2&_&_). unfold get_incoming_conn.
    rewrite get_slim_header_try. unfold try_get_slim_header. by rewrite Ht2, Hh2, Hh.
Qed.

Lemma push_last s S k q i : mp_inv s S -> queue s k = Some q -> queue (push s k i) k = Some (q ++ [i]).
Proof. intros Hinv Hq. rewrite (queue_push s k i k (mi_wired s S Hinv)), decide_True by done. by rewrite Hq. Qed.

(** ** Nodes in a row *)
Record Hop : Type := mkHop {
  hp_mp : MessageProcessor;
  hp_task : N;
  hp_out : N;
  hp_r1 : nat;
  hp_r2 : nat;
}.

(** What was sent last on a connection. *)
Definition sent_on (mp : MessageProcessor) (k : N) : panics ProtoMessage :=
  match queue mp k ≫= last with
  | Some (Delivered m) => Done m
  | _ => Panic "nothing was sent"
  end.

(** Each node's task receives the message and the next node what it sent. *)
Fixpoint relay (hops : list Hop) (m : ProtoMessage) : panics (list MessageProcessor * ProtoMessage) :=
  match hops with
  | [] => Done ([], m)
  | h :: hops =>
      '(mp, _) ← stream_event (hp_task h) (Received m (hp_r1 h) (hp_r2 h)) (hp_mp h);
      m ← sent_on mp (hp_out h);
      '(mps, m) ← relay hops m;
      Done (mp :: mps, m)
  end.

(** A node whose only subscriber for the name is reached over [hp_out]. *)
Definition hop_ok (to : Agent) (h : Hop) : Prop :=
  exists S task, mp_inv (hp_mp h) S /\ mp_tasks (hp_mp h) !! hp_task h = Some task /\
    leads S to None (tk_conn_index task) (hp_out h) /\ is_Some (queue (hp_mp h) (hp_out h)).

Lemma push_sent s S k m : mp_inv s S -> is_Some (queue s k) -> sent_on (push s k (Delivered m)) k = Done m.
Proof. intros Hinv [q Hq]. unfold sent_on. rewrite (push_last s S k q _ Hinv Hq). cbn. by rewrite last_snoc. Qed.

Lemma relayed hops l m :
  Forall (hop_ok (lt_to l)) hops -> signed l -> letter l None m ->
  exists mps m', relay hops m = Done (mps, m') /\ letter l None m' /\
    Forall2 (fun h mp => mp_forwarder mp = mp_forwarder (hp_mp h)) hops mps.
Proof.
  intros Hok Hsg. revert m. induction Hok as [|h hops (S&task&Hinv&Htask&Hlead&q&Hq) _ IH]; intros m Hl.
  { by exists [], m. }
  destruct (hop _ S _ task l None m (hp_r1 h) (hp_r2 h) _ q Hinv Htask Hsg Hl Hlead Hq) as (m1&Hrun&Hl1&_).
  destruct (IH m1 Hl1) as (mps&m'&Hrest&Hl'&Hfw).
  exists (push (hp_mp h) (hp_out h) (Delivered m1) :: mps), m'. cbn [relay]. rewrite Hrun. cbn -[relay].
  rewrite (push_sent _ S _ _ Hinv) by (by eexists). cbn -[relay]. rewrite Hrest.
  split; [done|]. split; [done|]. constructor; [apply push_forwarder|done].
Qed.
End processor.

(** ** One session *)
Section session.
Context `{Hasher, BuildProfile, ErrorText, Rng, DebugAssertions, Logging, HashIter}.
Implicit Types (io : SessionIo) (ly : SessionLayer).

(** An interceptor that lets messages through and changes metadata only. *)
Definition plain (i : SessionInterceptor) : Prop := forall m,
  (exists md, on_msg_from_app i m = (mkProtoMessage md (pm_message_type m), Ok tt)) /\
  (exists md, on_msg_from_slim i m = (mkProtoMessage md (pm_message_type m), Ok tt)).

Lemma identity_plain identity : plain (IdentitySessionInterceptor identity).
Proof. intros [md t]. split; [destruct identity|]; by eexists. Qed.

Lemma run_plain (f : SessionInterceptor -> ProtoMessage -> ProtoMessage * Result unit SessionError) l m :
  Forall (fun i => forall m, exists md, f i m = (mkProtoMessage md (pm_message_type m), Ok tt)) l ->
  exists md, run_interceptors f l m = (mkProtoMessage md (pm_message_type m), Ok tt).
Proof.
  intros Hl. revert m. induction Hl as [|i l Hi _ IH]; intros m; [destruct m; by eexists|]. cbn [run_interceptors].
  destruct (Hi m) as [md ->]. by destruct (IH (mkProtoMessage md (pm_message_type m))) as [md' ->]; eexists.
Qed.

Lemma letter_metadata l fwd m md : letter l fwd m -> letter l fwd (mkProtoMessage md (pm_message_type m)).
Proof. done. Qed.

(** A fire-and-forget session without a peer, its processor waiting for the
    next message. *)
Record idle io (sid : N) (f : FireAndForget) (sys : TimerSystem) (st : FireAndForgetState) : Prop := {
  rd_inbox : ff_inbox f = [];
  rd_loop : ff_loop f = Some st;
  rd_inv : ff_inv (io_with_timers io sys) st;
  rd_peer : sticky_name st = None;
  rd_id : ffs_session_id st = sid;
  rd_plain : Forall plain (cm_interceptors (ff_common f));
}.
Definition ready io ly (sid : N) (f : FireAndForget) (sys : TimerSystem) (st : FireAndForgetState) : Prop :=
  sl_pool ly !! sid = Some (Session_FireAndForget f, sys) /\ idle io sid f sys st.

(** The session with a message in its inbox, and the layer with it. *)
Definition holding (f : FireAndForget) (im : InternalMessage) : FireAndForget :=
  mkFireAndForget (ff_common f) [im] (ff_cancelled f) (ff_loop f).
Definition with_ff (ly : SessionLayer) (sid : N) (f : FireAndForget) (sys : TimerSystem) : SessionLayer :=
  set_pool (<[sid := (Session_FireAndForget f, sys)]> (sl_pool ly)) ly.

(** The session after its processor's turn. *)
Definition processed (f : FireAndForget) (st : FireAndForgetState) : FireAndForget :=
  mkFireAndForget (ff_common f) [] (ff_cancelled f) (Some st).

Lemma turn_of io ly sid f sys st im io' st' :
  ff_loop f = Some st -> process_internal im (io_with_timers io sys) st = Done (io', st', tt) ->
  with_session sid (run_task (TaskLoop TurnRecv)) io (with_ff ly sid (holding f im) sys) =
  Done (io_with_timers io' (io_timers io), with_ff ly sid (processed f st') (io_timers io'), Some tt).
Proof.
  intros Hloop Hrun. unfold with_session. cbn [sl_pool with_ff set_pool]. rewrite lookup_insert_eq.
  unfold run_task, in_box, ff_turn. cbn [ff_loop holding ff_inbox]. rewrite Hloop, Hrun. cbn.
  unfold with_ff, set_pool. cbn. by rewrite insert_insert_eq.
Qed.

Lemma passes (fs : Common -> ProtoMessage -> ProtoMessage * Result unit SessionError) m m' d io f st :
  ff_loop f = Some st -> ff_inbox f = [] -> fs (ff_common f) (sm_message m) = (m', Ok tt) ->
  pass_to_session fs m d io (Session_FireAndForget f) =
  Done (io, Session_FireAndForget (holding f (OnMessage (mkSessionMessage m' (sm_info m)) d)), Ok tt).
Proof.
  intros Hloop Hin Hf. unfold pass_to_session.
  rewrite (sess_bind_Done _ _ _ _ _ _ _ (eq_refl : get_state io _ = Done (io, _, _))).
  cbn [common_of Session_ops FireAndForget_ops]. rewrite Hf. destruct f as [cm inbox cancelled loop]. cbn in Hloop, Hin.
  by subst.
Qed.

Lemma handled_publish fuel m d io ly l fwd :
  letter l fwd (sm_message m) ->
  handle_message fuel m d io ly =
    match d with North => handle_message_from_slim fuel m d io ly | South => handle_message_from_app m d io ly end.
Proof.
  intros Hl. unfold handle_message. destruct (validate_iff (sm_message m)) as (r&Hr&Hiff).
  rewrite (proj2 Hiff (letter_valid _ _ _ Hl)) in Hr.
  rewrite (sess_bind_Done _ _ _ _ _ _ _ (sess_lift_Done _ _ _ _ Hr)).
  assert (Hp : is_publish (sm_message m) = Done true).
  { destruct Hl as (p&h&Ht&_). unfold is_publish, get_type. by rewrite Ht. }
  rewrite (sess_bind_Done _ _ _ _ _ _ _ (sess_lift_Done _ _ _ _ Hp)). by destruct d.
Qed.

(** *** Sending *)

(** The publication an application hands over, and the letter it becomes. *)
Definition kind_of (c : FireAndForgetConfiguration) : SessionHeaderType :=
  if decide (is_Some (ff_timeout c)) then FnfReliable else Fnf.

Lemma publication_letter ag to blob sid mid st md :
  sticky_name st = None -> ffs_session_id st = sid ->
  let m := map_session (SessionHeader_set_session_id sid)
    (new_publish ag (ag_agent_type to) (Some (ag_agent_id to)) (Some SlimHeaderFlags_default) "msg" blob) in
  letter (mkLetter ag to (kind_of (ffs_config st)) sid mid (mkContent "msg" blob)) None
    (sent_as st mid (typed st (mkProtoMessage md (pm_message_type m)))).
Proof.
  intros Hn Hid m. unfold sent_as, redirected. rewrite Hn. unfold numbered, typed, m. rewrite Hid.
  eexists _, _. split; [reflexivity|]. cbn. by repeat split.
Qed.

(** A message of the application: the layer hands it to the session, whose
    processor's next turn sends it; a reliable one is kept under its id with a
    timer. *)
Lemma session_sends fuel io ly sid f sys st ag to blob :
  ready io ly sid f sys st -> ff_sticky (ffs_config st) = false -> ag_agent_id ag <> DEFAULT_AGENT_ID ->
  exists m im io2 f2 sys2 st2,
    handle_message fuel (mkSessionMessage (new_publish ag (ag_agent_type to) (Some (ag_agent_id to))
      (Some SlimHeaderFlags_default) "msg" blob) (Info_new sid)) South io ly =
      Done (io, with_ff ly sid (holding f im) sys, Ok tt) /\
    with_session sid (run_task (TaskLoop TurnRecv)) io (with_ff ly sid (holding f im) sys) = Done (io2, with_ff ly sid f2 sys2, Some tt) /\
    letter (mkLetter ag to (kind_of (ffs_config st)) sid (drawn_id io) (mkContent "msg" blob)) None m /\
    ob_sent (io_slim io2) = ob_sent (io_slim io) ++ [m] /\ io_app io2 = io_app io /\ io_open io2 /\
    ready io2 (with_ff ly sid f2 sys2) sid f2 sys2 st2 /\ (layer_ok ly -> layer_ok (with_ff ly sid f2 sys2)) /\
    (is_Some (ff_timeout (ffs_config st)) -> is_Some (ffs_timers st2 !! drawn_id io)).
Proof.
  intros [Hpool [Hin Hloop Hinv Hpeer Hid Hpl]] Hst Hag.
  set (m0 := map_session (SessionHeader_set_session_id sid) (new_publish ag (ag_agent_type to) (Some (ag_agent_id to))
    (Some SlimHeaderFlags_default) "msg" blob)).
  destruct (run_plain on_msg_from_app (cm_interceptors (ff_common f)) m0) as [md Hmd].
  { eapply Forall_impl; [exact Hpl|]. intros i Hi m. apply Hi. }
  set (m1 := mkProtoMessage md (pm_message_type m0)).
  assert (Hprop : proper m1).
  { eexists _, _, _, _, _. split; [reflexivity|]. cbn. split; [reflexivity|]. split; [reflexivity|].
    unfold get_source. cbn. unfold SlimHeader_get_source, Agent_from_proto. cbn. by rewrite decide_False. }
  destruct (to_slim_after (io_with_timers io sys) st (mkSessionMessage m1 (Info_new sid)) Hinv Hprop
    ltac:(by intros [? _]; congruence)) as (m2&Hp2&Hsent&Hrun).
  pose proof (after_send_inv (io_with_timers io sys) st (drawn_id (io_with_timers io sys)) m2 Hinv Hp2) as Hafter.
  assert (Htimer : is_Some (ff_timeout (ffs_config st)) -> is_Some (ffs_timers (after_send (io_with_timers io sys) st
    (drawn_id (io_with_timers io sys)) m2).2 !! drawn_id io)).
  { intros [d Hd]. unfold after_send. rewrite Hd. destruct (timers_keep _ _ _ _ _ _ _) as [sys2 tm]. cbn.
    rewrite lookup_insert_eq. by eexists. }
  assert (Happ : io_app (after_send (io_with_timers io sys) st (drawn_id (io_with_timers io sys)) m2).1 = io_app io).
  { unfold after_send. destruct (ff_timeout (ffs_config st)); [|done]. by destruct (timers_keep _ _ _ _ _ _ _). }
  destruct (after_send _ _ _ _) as [io' st'] eqn:Haft. destruct Hafter as (Hinv'&Hsame&Hslim&_&_).
  cbn in Happ, Htimer. change (drawn_id (io_with_timers io sys)) with (drawn_id io) in *.
  assert (Hturn : process_internal (OnMessage (mkSessionMessage m1 (Info_new sid)) South) (io_with_timers io sys) st =
    Done (io', st', tt)).
  { cbn [process_internal]. by rewrite (sess_bind_Done _ _ _ _ _ _ _ Hrun). }
  eexists (sent_as st (drawn_id io) m2), _, _, _, _, st'.
  split; [|split; [exact (turn_of io ly sid f sys st _ io' st' Hloop Hturn)|]].
  - rewrite (handled_publish fuel _ South io ly (mkLetter ag to Unspecified 0 0 (mkContent "msg" blob)) None)
      by (eexists _, _; split; [reflexivity|]; by repeat split).
    unfold handle_message_from_app. cbn [in_id sm_info Info_new].
    erewrite sess_bind_Done; [|eapply with_session_some; [exact Hpool|]].
    2:{ erewrite sess_bind_Done; [|reflexivity].
        apply (passes on_message_from_app_interceptors (mkSessionMessage m0 (Info_new sid)) m1 South _ f st Hloop Hin).
        exact Hmd. }
    cbn. by destruct io.
  - rewrite Hsent. split; [by apply publication_letter|]. rewrite <- Hsent.
    split; [exact Hslim|]. split; [exact Happ|]. split; [destruct (fi_open _ _ Hinv'); by split|].
    split; [|split; [|exact Htimer]].
    2:{ intros Hok. apply layer_ok_set; [done|]. by destruct (lo_pool _ Hok _ _ _ Hpool). }
    split; [cbn; by rewrite lookup_insert_eq|]. split; cbn; [done|done| |by rewrite Hsame..|done].
    by destruct io'.
Qed.

(** *** Receiving *)

(** What the receiver is told of a letter that came in on [conn]. *)
Definition letter_info (l : Letter) (conn : N) : Info :=
  mkInfo (lt_session l) (Some (lt_id l)) (lt_kind l) (Some (wire_name (lt_from l))) (Some conn).

Lemma letter_session l fwd m : letter l fwd m ->
  get_session_header m = Done (mkSessionHeader (SessionHeaderType_to_i32 (lt_kind l)) (lt_session l) (lt_id l)).
Proof. intros (p&h&Ht&_&_&_&_&_&Hs&_). unfold get_session_header. by rewrite Ht, Hs. Qed.

Lemma letter_message l m conn : signed l -> letter l None m -> get_incoming_conn m = Done conn ->
  SessionMessage_from m = Done (mkSessionMessage m (letter_info l conn)).
Proof.
  intros Hsg Hl Hc. unfold SessionMessage_from, Info_from. rewrite (letter_session _ _ _ Hl), (letter_source _ _ _ Hsg Hl).
  destruct Hl as (p&h&Ht&Hh&_). unfold get_incoming_conn in Hc. rewrite get_slim_header_try in *.
  unfold try_get_slim_header in *. rewrite Ht, Hh in *. cbn in *. destruct (sh_incoming_conn h) as [c|]; [|done].
  injection Hc as ->. unfold letter_info. by destruct (lt_kind l).
Qed.

(** The session a first message opens. *)
Lemma new_session_idle io ly t sid :
  sl_pool ly !! sid = None -> t ∈ [Fnf; FnfReliable] -> SESSION_RANGE_contains sid = true ->
  io_open io -> ag_agent_id (sl_agent_name ly) <> DEFAULT_AGENT_ID ->
  let f := FireAndForget_new sid (default_ff_conf ly) Bidirectional (sl_agent_name ly) (sl_identity ly) in
  let st := FireAndForgetState_new sid (sl_agent_name ly) (default_ff_conf ly) in
  route ly t sid = Ok (Session_FireAndForget f, TimerSystem_empty) /\ idle io sid f TimerSystem_empty st.
Proof.
  intros Hnone Ht Hr Ho Hid f st. split.
  - unfold route. rewrite Hnone. rewrite !elem_of_cons, elem_of_nil in Ht.
    destruct Ht as [->|[->|[]]]; cbn [opens_session]; by rewrite Hr.
  - split; [done|done| |done|done|constructor; [apply identity_plain|done]].
    apply (ff_inv_io (ff_io 0)); [by apply ff_inv_new|exact Ho|done].
Qed.

Lemma layer_takes fuel io ly l m conn f sys st :
  layer_ok ly -> letter l None m -> get_incoming_conn m = Done conn ->
  route ly (lt_kind l) (lt_session l) = Ok (Session_FireAndForget f, sys) -> idle io (lt_session l) f sys st ->
  exists m', letter l None m' /\ get_incoming_conn m' = Done conn /\
    handle_message fuel (mkSessionMessage m (letter_info l conn)) North io ly =
    Done (io, with_ff ly (lt_session l) (holding f (OnMessage (mkSessionMessage m' (letter_info l conn)) North)) sys, Ok tt).
Proof.
  intros Hok Hl Hc Hroute [Hin Hloop _ _ _ Hpl].
  destruct (run_plain on_msg_from_slim (cm_interceptors (ff_common f)) m) as [md Hmd].
  { eapply Forall_impl; [exact Hpl|]. intros i Hi m0. apply Hi. }
  exists (mkProtoMessage md (pm_message_type m)). split; [exact Hl|]. split; [exact Hc|].
  rewrite (network_routed fuel (mkSessionMessage m (letter_info l conn))
    (mkSessionHeader (SessionHeaderType_to_i32 (lt_kind l)) (lt_session l) (lt_id l)) (lt_kind l) io ly Hok
    (letter_valid _ _ _ Hl)).
  - cbn [se_session_id]. rewrite Hroute.
    rewrite (passes on_message_from_slim_interceptors (mkSessionMessage m (letter_info l conn))
      (mkProtoMessage md (pm_message_type m)) North _ f st Hloop Hin Hmd).
    cbn. by destruct io.
  - destruct Hl as (p&h&Ht&_). unfold is_publish, get_type. cbn. by rewrite Ht.
  - exact (letter_session _ _ _ Hl).
  - apply try_from_to_i32.
Qed.

(** The acknowledgement of a letter by [by_]. *)
Definition ack_of (l : Letter) (by_ : Agent) : Letter :=
  mkLetter by_ (wire_name (lt_from l)) FnfAck (lt_session l) (lt_id l) (mkContent "" []).

Lemma turn_dispatches io l m conn st :
  signed l -> letter l None m -> sticky_name st = None ->
  handle_message_to_app (mkSessionMessage m (letter_info l conn)) io st =
  dispatch (mkSessionMessage m (letter_info l conn)) (lt_id l) (lt_kind l) io st.
Proof.
  intros Hsg Hl Hn. assert (Ht : get_header_type m = Done (lt_kind l)).
  { unfold get_header_type. rewrite (letter_session _ _ _ Hl). by destruct (lt_kind l). }
  destruct (to_app_dispatch io st (mkSessionMessage m (letter_info l conn)) (lt_id l) _ _ eq_refl
    (letter_source _ _ _ Hsg Hl) Ht) as [e ->]. unfold accepts. rewrite Hn. by destruct (ff_sticky _).
Qed.

(** A message is handed to the application; a reliable one is acknowledged on
    the connection it came in on. *)
Lemma turn_delivers io l m conn st :
  signed l -> letter l None m -> get_incoming_conn m = Done conn -> sticky_name st = None -> io_open io ->
  lt_kind l ∈ [Fnf; FnfReliable] ->
  exists acks, process_internal (OnMessage (mkSessionMessage m (letter_info l conn)) North) io st =
      Done (io_sent io acks [Ok (mkSessionMessage m (letter_info l conn))], st, tt) /\
    (lt_kind l = Fnf -> acks = []) /\
    (lt_kind l = FnfReliable -> exists a, acks = [a] /\ letter (ack_of l (ffs_source st)) (Some conn) a).
Proof.
  intros Hsg Hl Hc Hn [Ho1 Ho2] Hk. cbn [process_internal]. unfold mbind, sess_bind.
  rewrite (turn_dispatches io l m conn st Hsg Hl Hn). rewrite !elem_of_cons, elem_of_nil in Hk.
  destruct Hk as [Hk|[Hk|[]]]; rewrite Hk; cbn [dispatch]; unfold send_message_to_app.
  - exists []. rewrite (sess_bind_Done _ _ _ _ _ _ _ (send_app_open _ _ _ Ho2)). by repeat split.
  - rewrite (sess_bind_Done _ _ _ _ _ _ _ (eq_refl : get_state io st = Done (io, st, st))).
    rewrite (sess_bind_Done _ _ _ _ _ _ _ (sess_lift_Done _ _ _ _ (letter_source _ _ _ Hsg Hl))).
    rewrite (sess_bind_Done _ _ _ _ _ _ _ (sess_lift_Done _ _ _ _ Hc)).
    rewrite (sess_bind_Done _ _ _ _ _ _ _ (send_slim_open _ _ _ Ho1)).
    rewrite (sess_bind_Done _ _ _ _ _ _ _ (send_app_open _ (io_sent io _ _) _ Ho2)).
    eexists. split; [rewrite io_sent_app; reflexivity|]. split; [done|]. intros _. eexists.
    split; [reflexivity|]. eexists _, _. split; [reflexivity|]. by repeat split.
Qed.

(** An acknowledgement ends the retransmission of its message. *)
Lemma turn_acknowledged io l m conn st :
  signed l -> letter l None m -> sticky_name st = None -> ff_inv io st -> lt_kind l = FnfAck ->
  exists io', process_internal (OnMessage (mkSessionMessage m (letter_info l conn)) North) io st =
      Done (io', set_timers (delete (lt_id l) (ffs_timers st)) st, tt) /\
    ff_inv io' (set_timers (delete (lt_id l) (ffs_timers st)) st) /\
    ob_sent (io_slim io') = ob_sent (io_slim io) /\ ob_sent (io_app io') = ob_sent (io_app io) /\
    forall t m0, ffs_timers st !! lt_id l = Some (t, m0) -> cancellation_token t ∈ sys_cancelled (io_timers io').
Proof.
  intros Hsg Hl Hn Hinv Hk. destruct (ack_inv io st (lt_id l) Hinv) as (io'&st'&res&Hrun&Hinv'&->&Hs&Ha&Ht).
  exists io'. split; [|split; [exact Hinv'|split; [done|split; [done|]]]].
  - apply (process_north _ _ _ _ _ res). rewrite (turn_dispatches io l m conn st Hsg Hl Hn), Hk. exact Hrun.
  - intros t m0 Hm. by destruct (Ht t m0 Hm).
Qed.
End session.

(** ** One service *)
Section service.
Context `{Hasher, BuildProfile, HashIter, Transport, Telemetry, ErrorText, Rng, DebugAssertions, Logging,
  UnicodeTables, StatusText}.
Context {G : GrpcConfig}.
Implicit Types (s : Service) (a : App).

(** App [i] of a service, with its task at the processor running, the
    subscriptions there and its channels open. *)
Record serves s (i : N) a (tok : N) (S : Subs) : Prop := {
  sr_app : sv_apps s !! i = Some a;
  sr_link : linked (sv_message_processor s) (ap_task a) (sl_conn_id (ap_layer a)) (ap_rx a) tok;
  sr_inv : mp_inv (sv_message_processor s) S;
  sr_open : io_open (ap_io a);
}.

Lemma linked_push mp id k rx tok k' i : linked mp id k rx tok -> linked (push mp k' i) id k rx tok.
Proof.
  intros [Ht Hc]. destruct (push_rest mp k' i) as (_&Htk&_). split; [by rewrite Htk|by rewrite push_forwarder].
Qed.

Lemma close_ended_linked mp a k tok : linked mp (ap_task a) k (ap_rx a) tok -> close_ended mp a = a.
Proof. intros [Ht _]. unfold close_ended. by rewrite Ht. Qed.

(** A message the processor passes on leaves the app as it was. *)
Lemma serves_pushed s i a tok S k it :
  serves s i a tok S ->
  let mp := push (sv_message_processor s) k it in
  serves (with_apps (with_message_processor s mp) (close_ended mp <$> sv_apps s)) i a tok S.
Proof.
  intros [Ha Hl Hi Ho] mp. pose proof (linked_push _ _ _ _ _ k it Hl) as Hl'. split; [|exact Hl'|by apply mp_inv_push|done].
  cbn [sv_apps with_apps]. rewrite lookup_fmap, Ha. cbn [fmap option_fmap option_map].
  by rewrite (close_ended_linked mp a _ tok Hl').
Qed.

(** The processor's turn on the next message of the app. *)
Lemma turn_passes_on s i a tok S l fwd m k q r1 r2 :
  serves s i a tok S -> ob_sent (io_slim (ap_io a)) !! ap_taken a = Some m -> signed l -> letter l fwd m ->
  leads S (lt_to l) fwd (sl_conn_id (ap_layer a)) k -> queue (sv_message_processor s) k = Some q ->
  exists s' m', processor_turn i r1 r2 s = Done (s', tt) /\ serves s' i (take_one a) tok S /\
    sv_message_processor s' = push (sv_message_processor s) k (Delivered m') /\ letter l None m' /\
    sv_session_layers s' = sv_session_layers s.
Proof.
  intros Hsr Hm Hsg Hl Hlead Hq.
  destruct (hop (sv_message_processor s) S (ap_task a) _ l fwd m r1 r2 k q (sr_inv _ _ _ _ _ Hsr)
    (proj1 (sr_link _ _ _ _ _ Hsr)) Hsg Hl Hlead Hq) as (m'&Hrun&Hl'&_).
  assert (Hsr' : serves (with_apps s (alter take_one i (sv_apps s))) i (take_one a) tok S).
  { destruct Hsr as [Ha Hlk Hi Ho]. split; [|exact Hlk|done|exact Ho]. cbn. by rewrite lookup_alter_eq, Ha. }
  eexists _, m'. split.
  { unfold processor_turn. rewrite (svc_bind_Done _ _ _ _ _ (eq_refl : service s = Done (s, s))).
    rewrite (sr_app _ _ _ _ _ Hsr), Hm. rewrite (svc_bind_Done _ _ _ _ _ (eq_refl : update_app i take_one s = Done (_, tt))).
    unfold on_processor. cbn [sv_message_processor with_apps]. rewrite Hrun. reflexivity. }
  split; [exact (serves_pushed _ _ _ _ _ k (Delivered m') Hsr')|]. done.
Qed.

(** A message a remote peer sent, for one of the apps. *)
Lemma arrives s i a tok S l m id task q r1 r2 :
  serves s i a tok S -> mp_tasks (sv_message_processor s) !! id = Some task -> signed l -> letter l None m ->
  leads S (lt_to l) None (tk_conn_index task) (sl_conn_id (ap_layer a)) ->
  queue (sv_message_processor s) (sl_conn_id (ap_layer a)) = Some q -> ap_read a = length q ->
  exists s' m', on_processor (stream_event id (Received m r1 r2)) s = Done (s', tt) /\ serves s' i a tok S /\
    next_item s' a = Some (Delivered m') /\ letter l None m' /\ get_incoming_conn m' = Done (tk_conn_index task) /\
    sv_message_processor s' = push (sv_message_processor s) (sl_conn_id (ap_layer a)) (Delivered m') /\
    sv_session_layers s' = sv_session_layers s.
Proof.
  intros Hsr Htask Hsg Hl Hlead Hq Hread.
  destruct (hop (sv_message_processor s) S id task l None m r1 r2 _ q (sr_inv _ _ _ _ _ Hsr)
    Htask Hsg Hl Hlead Hq) as (m'&Hrun&Hl'&Hinc).
  eexists _, m'. split; [unfold on_processor; rewrite Hrun; reflexivity|].
  pose proof (serves_pushed _ _ _ _ _ (sl_conn_id (ap_layer a)) (Delivered m') Hsr) as Hsr'.
  split; [exact Hsr'|]. split; [|done].
  pose proof (push_last _ S _ q (Delivered m') (sr_inv _ _ _ _ _ Hsr) Hq) as Hlast.
  apply queue_Some in Hlast as (tx&Hch&Hchan).
  assert (tx = ap_rx a) as ->.
  { unfold conn_chan in Hch. rewrite push_forwarder, (proj2 (sr_link _ _ _ _ _ Hsr)) in Hch. by injection Hch as <-. }
  unfold next_item. cbn. rewrite Hchan. cbn. rewrite Hread. by apply list_lookup_middle.
Qed.

(** A computation on the app's layer. *)
Lemma on_layer_serves {A} (c : sess SessionLayer A) s i a tok S io' ly' r :
  serves s i a tok S -> c (ap_io a) (ap_layer a) = Done (io', ly', r) ->
  sl_conn_id ly' = sl_conn_id (ap_layer a) -> io_open io' ->
  exists s', on_layer i c s = Done (s', r) /\ serves s' i (set_layer io' ly' a) tok S /\
    sv_message_processor s' = sv_message_processor s /\ sv_session_layers s' = sv_session_layers s.
Proof.
  intros [Ha Hl Hi Ho] Hc Hid Ho'. eexists. split; [unfold on_layer; rewrite Ha, Hc; reflexivity|].
  split; [|done]. split; [cbn; by rewrite lookup_insert_eq| |done|done]. cbn. by rewrite Hid.
Qed.

(** What an application's [publish] leads to: the call, the turn of the session's
    processor and the turn of the message processor. *)
Definition sending (fuel : nat) (ag to : Agent) (sid : N) (blob : list Byte.byte) (i : N) (r1 r2 : nat) : svc unit :=
  res ← publish fuel ag (Info_new sid) (ag_agent_type to) (Some (ag_agent_id to)) blob;
  match res with
  | Err e => may_panic (Panic (ServiceError.fmt e))
  | Ok _ =>
      _ ← on_layer i (with_session sid (run_task (TaskLoop TurnRecv)));
      processor_turn i r1 r2
  end.

(** What a message from the task [id] of a connection leads to: its handling by the
    message processor, the turn of the app's task and that of the session's. *)
Definition receiving (fuel : nat) (id : N) (m : ProtoMessage) (r1 r2 : nat) (j sid : N) : svc unit :=
  _ ← on_processor (stream_event id (Received m r1 r2));
  _ ← process_turn fuel j LoopRecv;
  _ ← on_layer j (with_session sid (run_task (TaskLoop TurnRecv)));
  mret tt.

(** A registered app whose session is ready, with all it sent taken. *)
Record sender s (ag : Agent) (i : N) a (tok : N) (S : Subs) (sid : N) f sys st : Prop := {
  sd_serves : serves s i a tok S;
  sd_registered : hm_get agent_key ag (sv_session_layers s) = Some i;
  sd_id : ag_agent_id ag <> DEFAULT_AGENT_ID;
  sd_ready : ready (ap_io a) (ap_layer a) sid f sys st;
  sd_sticky : ff_sticky (ffs_config st) = false;
  sd_taken : ap_taken a = length (ob_sent (io_slim (ap_io a)));
}.

Lemma app_sends fuel s ag i a tok S sid f sys st to blob k q r1 r2 :
  sender s ag i a tok S sid f sys st -> leads S to None (sl_conn_id (ap_layer a)) k ->
  queue (sv_message_processor s) k = Some q ->
  let l := mkLetter ag to (kind_of (ffs_config st)) sid (drawn_id (ap_io a)) (mkContent "msg" blob) in
  exists s' m io2 f2 sys2 st2, sending fuel ag to sid blob i r1 r2 s = Done (s', tt) /\
    letter l None m /\ sv_message_processor s' = push (sv_message_processor s) k (Delivered m) /\
    serves s' i (take_one (set_layer io2 (with_ff (ap_layer a) sid f2 sys2) a)) tok S /\
    ready io2 (with_ff (ap_layer a) sid f2 sys2) sid f2 sys2 st2 /\
    (layer_ok (ap_layer a) -> layer_ok (with_ff (ap_layer a) sid f2 sys2)) /\
    (is_Some (ff_timeout (ffs_config st)) -> is_Some (ffs_timers st2 !! lt_id l)).
Proof.
  intros [Hsr Hreg Hid Hready Hst Htk] Hlead Hq l.
  destruct (session_sends fuel (ap_io a) (ap_layer a) sid f sys st ag to blob Hready Hst Hid)
    as (m&im&io2&f2&sys2&st2&Hh&Hturn&Hlet&Hslim&_&Hopen&Hready2&Hlok&Htimer).
  destruct (on_layer_serves _ s i a tok S _ _ _ Hsr Hh eq_refl (sr_open _ _ _ _ _ Hsr)) as (s1&Hr1&Hsr1&Hmp1&_).
  destruct (on_layer_serves _ s1 i _ tok S _ _ _ Hsr1 Hturn eq_refl Hopen) as (s2&Hr2&Hsr2&Hmp2&_).
  rewrite <- Hmp1, <- Hmp2 in Hq.
  destruct (turn_passes_on s2 i _ tok S l None m k q r1 r2 Hsr2) as (s3&m'&Hr3&Hsr3&Hmp3&Hlet'&_); try done.
  { cbn. rewrite Hslim, Htk. by apply list_lookup_middle. }
  exists s3, m', io2, f2, sys2, st2. split; [|rewrite Hmp3, Hmp2, Hmp1; done].
  unfold sending, publish, publish_with_flags, send_message, with_session_layer.
  assert (Hpub : (with_session_layer ag (fun i => res ← on_layer i (handle_message fuel (mkSessionMessage (new_publish ag
    (ag_agent_type to) (Some (ag_agent_id to)) (Some SlimHeaderFlags_default) "msg" blob) (Info_new sid)) South);
    mret (map_err (fun e => ServiceError.SessionError (SessionError_fmt e)) res))) s = Done (s1, Ok tt)).
  { unfold with_session_layer. rewrite (svc_bind_Done _ _ _ _ _ (eq_refl : service s = Done (s, s))). rewrite Hreg.
    by rewrite (svc_bind_Done _ _ _ _ _ Hr1). }
  rewrite (svc_bind_Done _ _ _ _ _ Hpub). rewrite (svc_bind_Done _ _ _ _ _ Hr2). exact Hr3.
Qed.

(** The turn of the app's task that reads a letter. *)
Lemma turn_takes fuel s j b tok S l m conn f sys st :
  serves s j b tok S -> ap_loop b = Looping -> next_item s b = Some (Delivered m) ->
  layer_ok (ap_layer b) -> signed l -> letter l None m -> get_incoming_conn m = Done conn ->
  route (ap_layer b) (lt_kind l) (lt_session l) = Ok (Session_FireAndForget f, sys) ->
  idle (ap_io b) (lt_session l) f sys st ->
  exists s' m', process_turn fuel j LoopRecv s = Done (s', tt) /\ letter l None m' /\
    get_incoming_conn m' = Done conn /\
    serves s' j (set_layer (ap_io b) (with_ff (ap_layer b) (lt_session l)
      (holding f (OnMessage (mkSessionMessage m' (letter_info l conn)) North)) sys) (read_one b)) tok S /\
    sv_message_processor s' = sv_message_processor s /\ sv_session_layers s' = sv_session_layers s.
Proof.
  intros Hsr Hloop Hitem Hok Hsg Hl Hc Hroute Hidle.
  destruct (layer_takes fuel (ap_io b) (ap_layer b) l m conn f sys st Hok Hl Hc Hroute Hidle) as (m'&Hl'&Hc'&Hh).
  set (s1 := with_apps s (alter read_one j (sv_apps s))).
  assert (Hsr1 : serves s1 j (read_one b) tok S).
  { destruct Hsr as [Ha Hlk Hi Ho]. split; [|exact Hlk|done|exact Ho]. cbn. by rewrite lookup_alter_eq, Ha. }
  destruct (on_layer_serves _ s1 j (read_one b) tok S _ _ _ Hsr1 Hh eq_refl (sr_open _ _ _ _ _ Hsr)) as (s2&Hr2&Hsr2&Hmp2&Hly2).
  exists s2, m'. split; [|by rewrite Hmp2, Hly2].
  unfold process_turn. rewrite (svc_bind_Done _ _ _ _ _ (eq_refl : service s = Done (s, s))).
  rewrite (sr_app _ _ _ _ _ Hsr), Hloop. unfold next_item in Hitem. rewrite Hitem.
  rewrite (svc_bind_Done _ _ _ _ _ (eq_refl : update_app j read_one s = Done (s1, tt))).
  destruct (Hl) as (p&h&Ht&_). rewrite Ht, (letter_message l m conn Hsg Hl Hc).
  rewrite (svc_bind_Done _ _ _ _ _ (eq_refl : may_panic (Done _) s1 = Done (s1, _))).
  by rewrite (svc_bind_Done _ _ _ _ _ Hr2).
Qed.

(** An app whose task waits for the next message, with a session for letters of
    kind [t], on a service where the name [to] leads to the app. *)
Record receiver s (to : Agent) (j : N) (b : App) (tok : N) (S : Subs) (conn sid : N) (t : SessionHeaderType) f sys st : Prop := {
  rc_serves : serves s j b tok S;
  rc_loop : ap_loop b = Looping;
  rc_layer : layer_ok (ap_layer b);
  rc_read : exists q, queue (sv_message_processor s) (sl_conn_id (ap_layer b)) = Some q /\ ap_read b = length q;
  rc_leads : leads S to None conn (sl_conn_id (ap_layer b));
  rc_route : route (ap_layer b) t sid = Ok (Session_FireAndForget f, sys);
  rc_idle : idle (ap_io b) sid f sys st;
}.

(** A letter is received: the session's processor has had its turn on it. *)
Lemma app_receives fuel s j b tok S l m id task f sys st io' st' r1 r2 :
  receiver s (lt_to l) j b tok S (tk_conn_index task) (lt_session l) (lt_kind l) f sys st ->
  mp_tasks (sv_message_processor s) !! id = Some task -> signed l -> letter l None m ->
  (forall m', letter l None m' -> get_incoming_conn m' = Done (tk_conn_index task) ->
     process_internal (OnMessage (mkSessionMessage m' (letter_info l (tk_conn_index task))) North)
       (io_with_timers (ap_io b) sys) st = Done (io' m', st', tt) /\ io_open (io' m')) ->
  exists s' m' m'', receiving fuel id m r1 r2 j (lt_session l) s = Done (s', tt) /\
    letter l None m' /\ get_incoming_conn m' = Done (tk_conn_index task) /\
    serves s' j (set_layer (io_with_timers (io' m') (io_timers (ap_io b)))
      (with_ff (ap_layer b) (lt_session l) (processed f st') (io_timers (io' m'))) (read_one b)) tok S /\
    sv_message_processor s' = push (sv_message_processor s) (sl_conn_id (ap_layer b)) (Delivered m'') /\
    sv_session_layers s' = sv_session_layers s.
Proof.
  intros [Hsr Hloop Hok (q&Hq&Hread) Hlead Hroute Hidle] Htask Hsg Hl Hturn.
  destruct (arrives s j b tok S l m id task q r1 r2 Hsr Htask Hsg Hl Hlead Hq Hread)
    as (s1&m1&Hr1&Hsr1&Hitem&Hl1&Hc1&Hmp1&Hly1).
  destruct (turn_takes fuel s1 j b tok S l m1 _ f sys st Hsr1 Hloop Hitem Hok Hsg Hl1 Hc1 Hroute Hidle)
    as (s2&m2&Hr2&Hl2&Hc2&Hsr2&Hmp2&Hly2).
  destruct (Hturn m2 Hl2 Hc2) as [Hrun Ho].
  pose proof (turn_of (ap_io b) (ap_layer b) (lt_session l) f sys st _ _ _ (rd_loop _ _ _ _ _ Hidle) Hrun) as Hw.
  destruct (on_layer_serves _ s2 j _ tok S _ _ _ Hsr2 Hw eq_refl Ho) as (s3&Hr3&Hsr3&Hmp3&Hly3).
  exists s3, m2, m1. split; [|split; [done|split; [done|split; [exact Hsr3|]]]].
  - unfold receiving. rewrite (svc_bind_Done _ _ _ _ _ Hr1), (svc_bind_Done _ _ _ _ _ Hr2).
    by rewrite (svc_bind_Done _ _ _ _ _ Hr3).
  - by rewrite Hmp3, Hmp2, Hmp1, Hly3, Hly2, Hly1.
Qed.

(** ** The whole way *)

(** From the application's call on [sA] to the item at the other application. *)
Definition delivery (fuel : nat) (sA : Service) (ag to : Agent) (sid : N) (blob : list Byte.byte) (i k : N)
    (hops : list Hop) (sB : Service) (id j : N) (draws : nat * nat * nat * nat)
    : panics (Service * list MessageProcessor * Service) :=
  let '(r1, r2, r3, r4) := draws in
  '(sA, _) ← sending fuel ag to sid blob i r1 r2 sA;
  m ← sent_on (sv_message_processor sA) k;
  '(mps, m) ← relay hops m;
  '(sB, _) ← receiving fuel id m r3 r4 j sid sB;
  Done (sA, mps, sB).

(** The way back of what the session there answered. *)
Definition answering (fuel : nat) (sB : Service) (j k : N) (hops : list Hop) (sA : Service) (id i sid : N)
    (draws : nat * nat * nat * nat) : panics (Service * list MessageProcessor * Service) :=
  let '(r1, r2, r3, r4) := draws in
  '(sB, _) ← processor_turn j r1 r2 sB;
  m ← sent_on (sv_message_processor sB) k;
  '(mps, m) ← relay hops m;
  '(sA, _) ← receiving fuel id m r3 r4 i sid sA;
  Done (sB, mps, sA).

(** The state of a fire-and-forget session's processor, and its timers. *)
Definition session_at s (i sid : N) : option (FireAndForgetState * TimerSystem) :=
  a ← sv_apps s !! i;
  '(ses, sys) ← sl_pool (ap_layer a) !! sid;
  match ses with
  | Session_FireAndForget f => st ← ff_loop f; Some (st, sys)
  | _ => None
  end.

Definition items_of s (j : N) : option (list (Result SessionMessage SessionError)) :=
  (fun a => ob_sent (io_app (ap_io a))) <$> sv_apps s !! j.

Lemma serves_session s i io ly sid f sys a tok S st :
  serves s i (set_layer io (with_ff ly sid f sys) a) tok S -> ff_loop f = Some st -> session_at s i sid = Some (st, sys).
Proof. intros Hs Hf. unfold session_at. rewrite (sr_app _ _ _ _ _ Hs). cbn. rewrite lookup_insert_eq. cbn. by rewrite Hf. Qed.

(** The parties of a crossing: [ag]'s app [a] on [sA] sends over its connection
    [kA], nodes pass the message on, and the task [id] of [sB] receives it for
    [to]'s app [b]. *)
Section crossing.
Context (sA : Service) (ag : Agent) (i : N) (a : App) (tokA : N) (SA : Subs).
Context (sid : N) (f : FireAndForget) (sys : TimerSystem) (st : FireAndForgetState) (kA : N) (hops : list Hop).
Context (sB : Service) (to : Agent) (j : N) (b : App) (tokB : N) (SB : Subs).
Context (fb : FireAndForget) (sysb : TimerSystem) (stb : FireAndForgetState) (id : N) (task : Task).

Record crossing : Prop := {
  cr_sender : sender sA ag i a tokA SA sid f sys st;
  cr_leads : leads SA to None (sl_conn_id (ap_layer a)) kA;
  cr_queue : is_Some (queue (sv_message_processor sA) kA);
  cr_hops : Forall (hop_ok to) hops;
  cr_task : mp_tasks (sv_message_processor sB) !! id = Some task;
  cr_receiver : receiver sB to j b tokB SB (tk_conn_index task) sid (kind_of (ffs_config st)) fb sysb stb;
}.

(** The publication under way. *)
Definition the_letter (blob : list Byte.byte) : Letter :=
  mkLetter ag to (kind_of (ffs_config st)) sid (drawn_id (ap_io a)) (mkContent "msg" blob).

Lemma delivered fuel blob draws :
  crossing ->
  exists sA1 mps sB1 io2 f2 sys2 st2 m mA mB acks,
    delivery fuel sA ag to sid blob i kA hops sB id j draws = Done (sA1, mps, sB1) /\
    sv_message_processor sA1 = push (sv_message_processor sA) kA (Delivered mA) /\
    serves sA1 i (take_one (set_layer io2 (with_ff (ap_layer a) sid f2 sys2) a)) tokA SA /\
    ready io2 (with_ff (ap_layer a) sid f2 sys2) sid f2 sys2 st2 /\
    (layer_ok (ap_layer a) -> layer_ok (with_ff (ap_layer a) sid f2 sys2)) /\
    (is_Some (ff_timeout (ffs_config st)) -> is_Some (ffs_timers st2 !! lt_id (the_letter blob))) /\
    sv_message_processor sB1 = push (sv_message_processor sB) (sl_conn_id (ap_layer b)) (Delivered mB) /\
    letter (the_letter blob) None m /\
    serves sB1 j (set_layer (io_sent (ap_io b) acks [Ok (mkSessionMessage m (letter_info (the_letter blob) (tk_conn_index task)))])
      (with_ff (ap_layer b) sid (processed fb stb) sysb) (read_one b)) tokB SB /\
    (is_Some (ff_timeout (ffs_config st)) ->
       exists ack, acks = [ack] /\ letter (ack_of (the_letter blob) (ffs_source stb)) (Some (tk_conn_index task)) ack).
Proof.
  intros [Hsd Hlead Hq Hhops Htask Hrc]. destruct draws as [[[r1 r2] r3] r4]. destruct (Hq) as [q Hq'].
  destruct (app_sends fuel sA ag i a tokA SA sid f sys st to blob kA q r1 r2 Hsd Hlead Hq')
    as (sA1&mA&io2&f2&sys2&st2&Hsend&Hlet&Hmp1&Hsr1&Hready&Hlok&Htimer).
  fold (the_letter blob) in Hlet, Htimer. set (l := the_letter blob) in *.
  assert (Hsg : signed l) by (exact (sd_id _ _ _ _ _ _ _ _ _ _ Hsd)).
  destruct (relayed hops l mA Hhops Hsg Hlet) as (mps&m'&Hrelay&Hlet'&_).
  assert (Hkind : lt_kind l ∈ [Fnf; FnfReliable]).
  { cbn. unfold kind_of. rewrite !elem_of_cons. case_decide; auto. }
  set (acks m := match process_internal (OnMessage (mkSessionMessage m (letter_info l (tk_conn_index task))) North)
    (io_with_timers (ap_io b) sysb) stb with Done (io, _, _) => io | Panic _ => ap_io b end).
  destruct (app_receives fuel sB j b tokB SB l m' id task fb sysb stb acks stb r3 r4 Hrc Htask Hsg Hlet')
    as (sB1&m&mB&Hrecv&Hletm&Hc&HsrB&HmpB&_).
  { intros m0 Hm0 Hc0. destruct (turn_delivers (io_with_timers (ap_io b) sysb) l m0 _ stb Hsg Hm0 Hc0
      (rd_peer _ _ _ _ _ (rc_idle _ _ _ _ _ _ _ _ _ _ _ _ Hrc)) (sr_open _ _ _ _ _ (rc_serves _ _ _ _ _ _ _ _ _ _ _ _ Hrc)) Hkind)
      as (ak&Hrun&_). unfold acks. rewrite Hrun. split; [done|].
    exact (sr_open _ _ _ _ _ (rc_serves _ _ _ _ _ _ _ _ _ _ _ _ Hrc)). }
  destruct (turn_delivers (io_with_timers (ap_io b) sysb) l m _ stb Hsg Hletm Hc
    (rd_peer _ _ _ _ _ (rc_idle _ _ _ _ _ _ _ _ _ _ _ _ Hrc)) (sr_open _ _ _ _ _ (rc_serves _ _ _ _ _ _ _ _ _ _ _ _ Hrc)) Hkind)
    as (ak&Hrun&_&Hack).
  unfold acks in HsrB. rewrite Hrun in HsrB.
  exists sA1, mps, sB1, io2, f2, sys2, st2, m, mA, mB, ak.
  split; [|do 7 (split; [done|]); split; [exact HsrB|]].
  - unfold delivery. rewrite Hsend. cbn -[sent_on relay receiving]. rewrite Hmp1.
    rewrite (push_sent _ SA) by (done || apply Hsd). cbn -[relay receiving]. rewrite Hrelay. cbn -[receiving].
    change (lt_session l) with sid in Hrecv. by rewrite Hrecv.
  - intros Htm. apply Hack. cbn. unfold kind_of. by rewrite decide_True.
Qed.

(** The way back is open: [to]'s app has nothing else to send, the nodes [back]
    lead to [ag], and the task [ida] of [sA] receives for [ag]'s app, which waits. *)
Record way_back (back : list Hop) (ida : N) (taskA : Task) : Prop := {
  wb_taken : ap_taken b = length (ob_sent (io_slim (ap_io b)));
  wb_queue : is_Some (queue (sv_message_processor sB) (tk_conn_index task));
  wb_hops : Forall (hop_ok ag) back;
  wb_task : mp_tasks (sv_message_processor sA) !! ida = Some taskA;
  wb_loop : ap_loop a = Looping;
  wb_layer : layer_ok (ap_layer a);
  wb_read : exists q, queue (sv_message_processor sA) (sl_conn_id (ap_layer a)) = Some q /\ ap_read a = length q;
  wb_leads : leads SA ag None (tk_conn_index taskA) (sl_conn_id (ap_layer a));
}.

Lemma queue_elsewhere mp S k k' it : mp_inv mp S -> k' <> k -> queue (push mp k it) k' = queue mp k'.
Proof. intros Hinv Hne. by rewrite (queue_push mp k it k' (mi_wired mp S Hinv)), decide_False. Qed.

(** The acknowledgement's way, from the state the delivery leaves. *)
Lemma answered fuel blob sA1 sB1 io2 f2 sys2 st2 mA mB lyB fB sysB ack item back ida taskA draws :
  let l := the_letter blob in
  leads SA to None (sl_conn_id (ap_layer a)) kA -> mp_inv (sv_message_processor sA) SA ->
  sv_message_processor sA1 = push (sv_message_processor sA) kA (Delivered mA) ->
  serves sA1 i (take_one (set_layer io2 (with_ff (ap_layer a) sid f2 sys2) a)) tokA SA ->
  ready io2 (with_ff (ap_layer a) sid f2 sys2) sid f2 sys2 st2 -> layer_ok (with_ff (ap_layer a) sid f2 sys2) ->
  tk_conn_index task <> sl_conn_id (ap_layer b) -> mp_inv (sv_message_processor sB) SB ->
  sv_message_processor sB1 = push (sv_message_processor sB) (sl_conn_id (ap_layer b)) (Delivered mB) ->
  serves sB1 j (set_layer (io_sent (ap_io b) [ack] [item]) (with_ff lyB sid fB sysB) (read_one b)) tokB SB ->
  ag_agent_id (ffs_source stb) <> DEFAULT_AGENT_ID ->
  letter (ack_of l (ffs_source stb)) (Some (tk_conn_index task)) ack -> way_back back ida taskA ->
  exists sB2 mps sA2 sys3, answering fuel sB1 j (tk_conn_index task) back sA1 ida i sid draws = Done (sB2, mps, sA2) /\
    session_at sA2 i sid = Some (set_timers (delete (lt_id l) (ffs_timers st2)) st2, sys3) /\
    (forall t m0, ffs_timers st2 !! lt_id l = Some (t, m0) -> cancellation_token t ∈ sys_cancelled sys3) /\
    items_of sA2 i = items_of sA1 i.
Proof.
  intros l HleadA HinvA HmpA HsrA [Hpool Hidle] Hlok HneB HinvB HmpB HsrB Hsrc Hack
    [Htaken [qB HqB] Hback HtaskA HloopA _ (qA&HqA&HreadA) HleadA'].
  destruct draws as [[[r1 r2] r3] r4]. set (la := ack_of l (ffs_source stb)) in *.
  rewrite <- (queue_elsewhere _ SB (sl_conn_id (ap_layer b)) _ (Delivered mB) HinvB HneB), <- HmpB in HqB.
  destruct (turn_passes_on sB1 j _ tokB SB la (Some (tk_conn_index task)) ack (tk_conn_index task) qB r1 r2 HsrB) as (sB2&m1&Hr1&_&Hmp1&Hl1&_); try done.
  { cbn. rewrite Htaken. by apply list_lookup_middle. }
  destruct (relayed back la m1) as (mps&m2&Hrelay&Hl2&_); [exact Hback|exact Hsrc|exact Hl1|].
  rewrite <- (queue_elsewhere _ SA kA _ (Delivered mA) HinvA (not_eq_sym (proj1 HleadA))), <- HmpA in HqA.
  set (ios m := match process_internal (OnMessage (mkSessionMessage m (letter_info la (tk_conn_index taskA))) North)
    (io_with_timers io2 sys2) st2 with Done (io, _, _) => io | Panic _ => io2 end).
  assert (Hturn : forall m, letter la None m -> process_internal (OnMessage (mkSessionMessage m
      (letter_info la (tk_conn_index taskA))) North) (io_with_timers io2 sys2) st2 =
        Done (ios m, set_timers (delete (lt_id l) (ffs_timers st2)) st2, tt) /\ io_open (ios m) /\
      ob_sent (io_app (ios m)) = ob_sent (io_app io2) /\
      (forall t m0, ffs_timers st2 !! lt_id l = Some (t, m0) -> cancellation_token t ∈ sys_cancelled (io_timers (ios m)))).
  { intros m Hm. destruct (turn_acknowledged (io_with_timers io2 sys2) la m (tk_conn_index taskA) st2 Hsrc Hm
      (rd_peer _ _ _ _ _ Hidle) (rd_inv _ _ _ _ _ Hidle) eq_refl) as (io'&Hrun&Hinv'&_&Happ&Hcan).
    unfold ios. rewrite Hrun. split; [done|]. split; [apply Hinv'|]. by split. }
  set (a1 := take_one (set_layer io2 (with_ff (ap_layer a) sid f2 sys2) a)) in *.
  destruct (app_receives fuel sA1 i a1 tokA SA la m2 ida taskA f2 sys2 st2 ios
    (set_timers (delete (lt_id l) (ffs_timers st2)) st2) r3 r4) as (sA2&m3&m4&Hr2&Hl3&_&HsrA2&_&_).
  { split; [exact HsrA|exact HloopA|exact Hlok|by exists qA|exact HleadA'| |exact Hidle].
    unfold route. cbn. by rewrite lookup_insert_eq. }
  { rewrite HmpA. by destruct (push_rest (sv_message_processor sA) kA (Delivered mA)) as (_&->&_). }
  { exact Hsrc. } { exact Hl2. } { intros m Hm _. destruct (Hturn m Hm) as (?&?&_). by split. }
  destruct (Hturn m3 Hl3) as (_&_&Happ&Hcan).
  exists sB2, mps, sA2, (io_timers (ios m3)). split; [|split; [|split; [exact Hcan|]]].
  - unfold answering. rewrite Hr1. cbn -[sent_on relay receiving]. rewrite Hmp1.
    rewrite (push_sent _ SB) by first [by eexists|apply HsrB]. cbn -[relay receiving]. rewrite Hrelay. cbn -[receiving].
    change (lt_session la) with sid in Hr2. by rewrite Hr2.
  - by apply (serves_session sA2 i _ _ _ _ _ _ tokA SA _ HsrA2).
  - unfold items_of. rewrite (sr_app _ _ _ _ _ HsrA2), (sr_app _ _ _ _ _ HsrA). cbn. by rewrite Happ.
Qed.

(** C1: A publication reaches the application it is meant for, and a reliable one
    is settled. The publisher's session is fire-and-forget and not sticky; its
    service, the nodes between and the receiver's service each know one way to the
    receiver's name. Then the call, the turns of the session and of the message
    processors, and the turn of the receiving app all return, and the receiving
    application is given exactly one new item: the content that was published,
    described by the sender's name, the session and message id it was sent under
    and the connection it came in on. If the session has a timeout, the message is
    kept for retransmission until then; when the way back is open too, the
    acknowledgement reaches the publisher's session, which keeps the message no
    longer and stops its timer, and the application is told nothing. *)
Theorem publication_end_to_end fuel blob draws :
  crossing ->
  exists sA1 mps sB1 st1 sys1 item,
    delivery fuel sA ag to sid blob i kA hops sB id j draws = Done (sA1, mps, sB1) /\
    items_of sB1 j = Some (ob_sent (io_app (ap_io b)) ++ [Ok item]) /\
    sm_info item = letter_info (the_letter blob) (tk_conn_index task) /\
    get_payload (sm_message item) = Done (Some (mkContent "msg" blob)) /\
    session_at sA1 i sid = Some (st1, sys1) /\
    (is_Some (ff_timeout (ffs_config st)) ->
     exists t m, ffs_timers st1 !! lt_id (the_letter blob) = Some (t, m) /\
     forall back ida taskA draws', way_back back ida taskA ->
     exists sB2 mps' sA2 st2 sys2,
       answering fuel sB1 j (tk_conn_index task) back sA1 ida i sid draws' = Done (sB2, mps', sA2) /\
       session_at sA2 i sid = Some (st2, sys2) /\
       ffs_timers st2 = delete (lt_id (the_letter blob)) (ffs_timers st1) /\
       cancellation_token t ∈ sys_cancelled sys2 /\ items_of sA2 i = items_of sA1 i).
Proof.
  intros Hcr. destruct (delivered fuel blob draws Hcr)
    as (sA1&mps&sB1&io2&f2&sys2&st2&m&mA&mB&acks&Hrun&HmpA&HsrA&Hready&Hlok&Htimer&HmpB&Hlet&HsrB&Hack).
  set (l := the_letter blob) in *. destruct Hcr as [Hsd Hlead Hq Hhops Htask Hrc].
  exists sA1, mps, sB1, st2, sys2. eexists. split; [exact Hrun|].
  split; [unfold items_of; by rewrite (sr_app _ _ _ _ _ HsrB)|]. split; [reflexivity|].
  split; [destruct Hlet as (p&h&Ht&_&_&_&_&_&_&Hc); cbn; unfold get_payload; by rewrite Ht, Hc|].
  pose proof (rd_loop _ _ _ _ _ (proj2 Hready)) as Hloop2.
  split; [exact (serves_session sA1 i io2 (ap_layer a) sid f2 sys2 (take_one a) tokA SA st2 HsrA Hloop2)|].
  intros Htm. destruct (Htimer Htm) as [[t m0] Hm0]. exists t, m0. split; [done|].
  intros back ida taskA draws' Hwb. destruct (Hack Htm) as (ack&->&Hlack).
  pose proof (rc_idle _ _ _ _ _ _ _ _ _ _ _ _ Hrc) as Hidle.
  destruct (answered fuel blob sA1 sB1 io2 f2 sys2 st2 mA mB _ _ _ ack _ back ida taskA draws' Hlead (sr_inv _ _ _ _ _ (sd_serves _ _ _ _ _ _ _ _ _ _ Hsd))
    HmpA HsrA Hready (Hlok (wb_layer _ _ _ Hwb)) (not_eq_sym (proj1 (rc_leads _ _ _ _ _ _ _ _ _ _ _ _ Hrc)))
    (sr_inv _ _ _ _ _ (rc_serves _ _ _ _ _ _ _ _ _ _ _ _ Hrc)) HmpB HsrB (fi_source _ _ (rd_inv _ _ _ _ _ Hidle)) Hlack Hwb)
    as (sB2&mps'&sA2&sys3&Hans&Hses&Hcan&Hitems).
  exists sB2, mps', sA2. eexists _, sys3. split; [exact Hans|]. split; [exact Hses|]. split; [reflexivity|].
  split; [by eapply Hcan|exact Hitems].
Qed.
End crossing.
End service.
Close Scope slim_scope.
