(* ===== verification/EndToEndRun.v ===== *)
(** * From application to application: a run

    Alice and Bob, each on a service of their own, and a node both are connected
    to. Every state is made by the operations of the services and of the node, from
    the initial one: the agents are created and subscribed, Alice sets her route
    and opens a reliable session. Then she publishes. *)
From stdpp Require Import base list gmap strings numbers option sets.
From S2P Require Import Prelude Proto Encoder Messages ConnectionTable Forwarder MessageProcessing.
From S2P Require Import SubscriptionTable SubscriptionTableSpec MessageProcessingProofs DataPlane ProcessorFrame.
From S2P Require Import ReceiverBuffer Timer Session RequestResponse FireAndForget FireAndForgetProofs Streaming SessionLayer SessionLayerProofs.
From S2P Require Import ComponentId Service ServiceProofs ServiceClaims ProxySystem EndToEnd.
Open Scope slim_scope.

Module EndToEndDemo.
Import ServiceDemo.
#[local] Existing Instances toy_hasher checked_build hash_iter_sorted demo_transport demo_errors demo_rng demo_checks
  ascii_tables quiet_telemetry quiet_logging plain_status demo_grpc.

(** ** Setting up *)
Inductive SetUp : Type :=
| Creates (ag : Agent)
| Starts (i : N)
| Connects
| Subscribes (ag to : Agent) (conn : N)
| Routes (ag to : Agent) (conn : N)
| Opens (ag : Agent) (c : FireAndForgetConfiguration)
| Takes (i : N).

Definition run_set_up (c : SetUp) : svc unit :=
  match c with
  | Creates ag => _ ← create_agent ag; mret tt
  | Starts i => loop_start i
  | Connects => _ ← Service_connect peer [true]; mret tt
  | Subscribes ag to conn => _ ← subscribe 5 ag (ag_agent_type to) (Some (ag_agent_id to)) (Some conn); mret tt
  | Routes ag to conn => _ ← set_route 5 ag (ag_agent_type to) (Some (ag_agent_id to)) conn; mret tt
  | Opens ag c => _ ← Service_create_session 5 ag (SessionConfig_FireAndForget c); mret tt
  | Takes i => processor_turn i 0 0
  end.

Definition setup_alice : list SetUp :=
  [Creates alice; Starts 0; Connects; Takes 0; Subscribes alice alice 1; Takes 0; Routes alice bob 1; Takes 0;
   Opens alice (mkFireAndForgetConfiguration (Some 1000%N) (Some 3%N) false)].
Definition setup_bob : list SetUp :=
  [Creates bob; Starts 0; Connects; Takes 0; Subscribes bob bob 1; Takes 0].

Fixpoint set_up (l : list SetUp) (s : Service) : Service :=
  match l with [] => s | c :: l => set_up l (after (run_set_up c) s) end.
Definition sA : Service := set_up setup_alice (Service_new id).
Definition sB : Service := set_up setup_bob (Service_new id).

(** The guards of a set-up: every operation returns, and what the processor takes is
    no unsubscription. *)
Definition set_up_okb (c : SetUp) (s : Service) : bool :=
  finishes (run_set_up c) s &&
  match c with
  | Takes i =>
      match (a ← sv_apps s !! i; ob_sent (io_slim (ap_io a)) !! ap_taken a) with
      | Some m => ProxyDemo.no_unsubscription m
      | None => true
      end
  | _ => true
  end.
Fixpoint all_okb (l : list SetUp) (s : Service) : bool :=
  match l with [] => true | c :: l => set_up_okb c s && all_okb l (after (run_set_up c) s) end.

Lemma ignoring {A} (c : svc A) s s' r : (_ ← c; mret tt) s = Done (s', r) -> exists x, c s = Done (s', x).
Proof. unfold mbind, svc_bind. destruct (c s) as [[s1 x]|]; [|done]. intros [= -> _]. by exists x. Qed.
Lemma sends_step (p : panics ProtoMessage) ag s s' r :
  (msg ← may_panic p; send_message 5 ag msg None) s = Done (s', r) -> svc_step s s'.
Proof. unfold mbind, svc_bind, may_panic. destruct p as [m|]; [|done]. cbn. apply SvcSend. Qed.

Lemma set_up_step c s : set_up_okb c s = true -> svc_step s (after (run_set_up c) s).
Proof.
  intros [[r Hr]%after_returns Hok]%andb_true_iff.
  destruct c as [ag|i| |ag to conn|ag to conn|ag c|i]; cbn [run_set_up] in *;
    try (apply ignoring in Hr as [x Hr]).
  - by eapply SvcCreate.
  - by eapply SvcLoopStart.
  - by eapply SvcConnect.
  - by eapply sends_step.
  - by eapply sends_step.
  - by eapply SvcCreateSession.
  - eapply SvcProcessorTurn; [|exact Hr]. intros a msg task S Ha Hm _ _. rewrite Ha in Hok. cbn in Hok.
    rewrite Hm in Hok. by apply ProxyDemo.receives_ok.
Qed.
Lemma set_up_ok l s : all_okb l s = true -> svc_ok s -> svc_ok (set_up l s).
Proof.
  revert s. induction l as [|c l IH]; intros s; cbn; [done|]. intros [Hc Hl]%andb_true_iff Hs.
  apply IH; [done|]. by eapply svc_step_ok, Hs; apply set_up_step.
Qed.
Lemma sA_ok : svc_ok sA.
Proof. apply set_up_ok; [by vm_compute|apply svc_ok_new]. Qed.
Lemma sB_ok : svc_ok sB.
Proof. apply set_up_ok; [by vm_compute|apply svc_ok_new]. Qed.

(** ** The node

    Alice's and Bob's connections, and the subscriptions that arrive on them. *)
Definition sent (mp : MessageProcessor) (k : N) : ProtoMessage :=
  match sent_on mp k with Done m => m | Panic _ => mkProtoMessage ∅ None end.
Definition receives (task : N) (m : ProtoMessage) (mp : MessageProcessor) : MessageProcessor :=
  Demo.after (stream_event task (Received m 0 0)) mp.
Definition accepted : MessageProcessor := Demo.after (open_channel None None) (Demo.after (open_channel None None) MessageProcessor_new).
Definition node : MessageProcessor :=
  receives 5 (sent (sv_message_processor sB) 1) (receives 2 (sent (sv_message_processor sA) 1) accepted).

Lemma accepts_inv mp S : dp_inv mp S -> Demo.panic_free (open_channel None None mp) = true ->
  exists S', dp_inv (Demo.after (open_channel None None) mp) S'.
Proof.
  intros Hi Hp. destruct (Demo.after_done _ _ Hp) as [r Hr]. eapply dp_step_inv; [by eapply StepAccept|exact Hi].
Qed.
Lemma receives_inv task m mp S : dp_inv mp S -> ProxyDemo.no_unsubscription m = true -> is_Some (mp_tasks mp !! task) ->
  exists S', dp_inv (receives task m mp) S'.
Proof.
  intros Hi Hm [tk Ht]. destruct (stream_event_total mp S task tk (Received m 0 0) Hi Ht (ProxyDemo.receives_ok m mp S tk Hm))
    as (mp'&S'&Hr&Hi'). exists S'. unfold receives, Demo.after. by rewrite Hr.
Qed.
Lemma node_inv : exists S, dp_inv node S.
Proof.
  destruct (accepts_inv MessageProcessor_new ∅ dp_inv_new ltac:(by vm_compute)) as [S1 H1].
  destruct (accepts_inv _ S1 H1 ltac:(by vm_compute)) as [S2 H2].
  destruct (receives_inv 2 (sent (sv_message_processor sA) 1) accepted S2 H2 ltac:(by vm_compute)
    ltac:(eexists; by vm_compute)) as [S3 H3].
  exact (receives_inv 5 (sent (sv_message_processor sB) 1) _ S3 H3 ltac:(by vm_compute) ltac:(eexists; by vm_compute)).
Qed.

(** ** Publishing *)
Definition conf : FireAndForgetConfiguration := mkFireAndForgetConfiguration (Some 1000%N) (Some 3%N) false.
Definition aliceF : FireAndForget := FireAndForget_new 7 conf Bidirectional alice (Some (Agent_fmt alice)).
Definition aliceSt : FireAndForgetState := FireAndForgetState_new 7 alice conf.
Definition bobF : FireAndForget :=
  FireAndForget_new 7 FireAndForgetConfiguration_default Bidirectional bob (Some (Agent_fmt bob)).
Definition bobSt : FireAndForgetState := FireAndForgetState_new 7 bob FireAndForgetConfiguration_default.
Definition blob : list Byte.byte := [Byte.x68; Byte.x69].
(** The tasks of the services' connections to the node. *)
Definition remote : Task := mkTask 1 (Some peer) 5 false.
Definition there : Hop := mkHop node 2 1 0 0.
(** The node when Alice's message has passed it. *)
Definition travelling : ProtoMessage := sent (sv_message_processor (after (sending 5 alice bob 7 blob 0 0 0) sA)) 1.
Definition passed : MessageProcessor := receives 2 travelling node.
Definition back_again : Hop := mkHop passed 5 0 0 0.


Ltac computes := vm_compute; reflexivity.

Lemma alice_serves S : dp_inv (sv_message_processor sA) S -> serves sA 0 (the_app sA 0) 2 S.
Proof. intros [Hi _]. split; [computes|split; computes|exact Hi|split; computes]. Qed.
Lemma bob_serves S : dp_inv (sv_message_processor sB) S -> serves sB 0 (the_app sB 0) 2 S.
Proof. intros [Hi _]. split; [computes|split; computes|exact Hi|split; computes]. Qed.

Lemma crosses SA SB : dp_inv (sv_message_processor sA) SA -> dp_inv (sv_message_processor sB) SB ->
  crossing sA alice 0 (the_app sA 0) 2 SA 7 aliceF TimerSystem_empty aliceSt 1 [there]
    sB bob 0 (the_app sB 0) 2 SB bobF TimerSystem_empty bobSt 6 remote.
Proof.
  intros HA HB. pose proof (alice_serves SA HA) as HsA. pose proof (bob_serves SB HB) as HsB. split.
  - split; [exact HsA|computes|by vm_compute| |computes|computes].
    split; [computes|]. split; [done|done| |done|done|constructor; [apply identity_plain|done]].
    apply (ff_inv_io (ff_io 0)); [by apply ff_inv_new|split; computes|done].
  - split; [by vm_compute|]. apply (sole_in_sole _ _ _ _ (proj1 HA)). computes.
  - eexists; computes.
  - destruct node_inv as [S HS]. constructor; [|done]. exists S, (mkTask 0 None 1 false). split; [exact (proj1 HS)|].
    split; [computes|]. split; [|eexists; computes]. split; [by vm_compute|]. apply (sole_in_sole _ _ _ _ (proj1 HS)). computes.
  - computes.
  - destruct (new_session_idle (ap_io (the_app sB 0)) (ap_layer (the_app sB 0)) FnfReliable 7) as [Hroute Hidle];
      [computes|apply (bool_decide_unpack _); by vm_compute|computes|split; computes|by vm_compute|].
    split; [exact HsB|computes| |eexists; split; computes| |exact Hroute|exact Hidle].
    + apply (so_apps sB sB_ok 0 (the_app sB 0)). computes.
    + split; [by vm_compute|]. apply (sole_in_sole _ _ _ _ (proj1 HB)). computes.
Qed.

Lemma travelling_fine : ProxyDemo.no_unsubscription travelling = true.
Proof. computes. Qed.
Lemma passed_inv : exists S, dp_inv passed S.
Proof.
  destruct node_inv as [S HS]. exact (receives_inv 2 travelling node S HS travelling_fine ltac:(eexists; by vm_compute)).
Qed.

Lemma returns_way SA : dp_inv (sv_message_processor sA) SA ->
  way_back sA alice (the_app sA 0) SA sB (the_app sB 0) remote [back_again] 6 remote.
Proof.
  intros HA. split; [computes|eexists; computes| |computes|computes| |eexists; split; computes|].
  - destruct passed_inv as [S' HS']. constructor; [|done]. exists S', (mkTask 1 None 4 false). split; [exact (proj1 HS')|].
    split; [computes|]. split; [|eexists; computes]. split; [by vm_compute|]. apply (sole_in_sole _ _ _ _ (proj1 HS')). computes.
  - apply (so_apps sA sA_ok 0 (the_app sA 0)). computes.
  - split; [by vm_compute|]. apply (sole_in_sole _ _ _ _ (proj1 HA)). computes.
Qed.

(** Alice's message is delivered and acknowledged. *)
Lemma publication_end_to_end_witness :
  exists sA1 mps sB1 item sB2 mps' sA2 st2 sys2,
    delivery 5 sA alice bob 7 blob 0 1 [there] sB 6 0 (0, 0, 0, 0) = Done (sA1, mps, sB1) /\
    items_of sB1 0 = Some [Ok item] /\ get_payload (sm_message item) = Done (Some (mkContent "msg" blob)) /\
    answering 5 sB1 0 1 [back_again] sA1 6 0 7 (0, 0, 0, 0) = Done (sB2, mps', sA2) /\
    session_at sA2 0 7 = Some (st2, sys2).
Proof.
  destruct (so_mp sA sA_ok) as [SA HA]. destruct (so_mp sB sB_ok) as [SB HB].
  destruct (publication_end_to_end sA alice 0 (the_app sA 0) 2 SA 7 aliceF TimerSystem_empty aliceSt 1 [there]
    sB bob 0 (the_app sB 0) 2 SB bobF TimerSystem_empty bobSt 6 remote 5 blob (0, 0, 0, 0) (crosses SA SB HA HB))
    as (sA1&mps&sB1&st1&sys1&item&Hdel&Hitems&_&Hpay&_&Hrel).
  destruct (Hrel (ex_intro _ 1000%N eq_refl)) as (t&m&_&Hback).
  destruct (Hback [back_again] 6%N remote (0, 0, 0, 0) (returns_way SA HA)) as (sB2&mps'&sA2&st2&sys2&Hans&Hses&_).
  exists sA1, mps, sB1, item, sB2, mps', sA2, st2, sys2.
  split; [exact Hdel|]. split; [exact Hitems|]. split; [exact Hpay|]. split; [exact Hans|exact Hses].
Defined.
End EndToEndDemo.
Close Scope slim_scope.
