(* ===== verification/SdkMock.v ===== *)
(** * The example client: model

    [examples/src/sdk-mock/main.rs]: two of these programs, one with a message to
    publish (the client) and one without (the server), talk over the services of
    their configurations. With a group identifier they first agree on an MLS group
    through two files: the server waits for the client's key package, the client
    for the server's welcome message.

    Each program is a sequence of steps, one per access to a file; the two programs
    run interleaved on one [Disk]. [std::fs::write] creates the file empty and then
    fills it: two steps. The participant of a group is that of [Mls]; the
    interceptor made of it, which the sessions call, is an argument of the turn that
    adds it. [rs] has the random draws of a program. *)
From Stdlib Require Import Ascii.
From stdpp Require Import base list gmap strings numbers option.
From S2P Require Import Prelude Proto Encoder Messages Text ComponentId MessageProcessing.
From S2P Require Import Session SessionLayer Service Slim Mls Bindings TestAgents.
Import SlimConfig.
Open Scope string_scope.

Module SdkMock.
Import TestAgents.

Record Args : Type := mkArgs {
  config : string;
  local_agent : string;
  remote_agent : string;
  message : option string;
  mls_group_id : option string;
}.

(** ** Files *)
Definition key_package_path (group_identifier : string) : string := "/tmp/mls_key_package_" +:+ group_identifier.
Definition welcome_path (group_identifier : string) : string := "/tmp/mls_welcome_" +:+ group_identifier.
Definition identities_path (local_agent : string) : string := "/tmp/mls_identities_" +:+ local_agent.

(** What the system lets the programs remove. A file that can be read need not be
    [removable]: its directory may be write-protected. [dir_removed dir f]: the
    removal of the directory [dir] gets to the file [f] before it stops at an entry
    that cannot be removed. *)
Class Removal : Type := {
  removable : string -> bool;
  dir_removed : string -> string -> bool;
}.

(** [let _ = std::fs::remove_file(..)] and [remove_dir_all]: an error is ignored. *)
Definition remove_file `{Removal} (path : string) (d : Mls.Disk) : Mls.Disk :=
  match Mls.dk_error d path with
  | Some _ => d
  | None => if removable path then Mls.with_files (delete path (Mls.dk_files d)) d else d
  end.
Definition remove_dir_all `{Removal} (path : string) (d : Mls.Disk) : Mls.Disk :=
  match Mls.dk_error d path with
  | Some _ => d
  | None =>
      Mls.with_files (filter (fun f =>
        String.prefix (path +:+ "/") f.1 && dir_removed path f.1 = false) (Mls.dk_files d)) d
  end.
Definition read_file (path : string) (d : Mls.Disk) : option bytes :=
  match Mls.dk_error d path with Some _ => None | None => Mls.dk_files d !! path end.

(** ** Agreeing on a group *)
Inductive Phase : Type :=
| RemoveKeyPackage
| RemoveWelcome
| RemoveIdentities
| Initialize
| CreateFile (contents : bytes)
| WriteFile (contents : bytes)
| Waiting (attempts : nat)
| Reading
| Finished
| Failed (why : string).

Section handshake.
Context `{Mls.MlsRs, Mls.IdentityJson, Removal}.

(** A program: what it does next, its participant, and the group's id once it
    knows it. *)
Record Peer : Type := mkPeer {
  pe_phase : Phase;
  pe_mls : Mls.Mls;
  pe_group : bytes;
}.
Definition Peer_new (local_agent : string) : Peer :=
  mkPeer RemoveKeyPackage (Mls.Mls_new local_agent (identities_path local_agent)) [].
Definition goes_to (p : Phase) (pe : Peer) : Peer := mkPeer p (pe_mls pe) (pe_group pe).
Definition fails (pe : Peer) : Peer := goes_to (Failed "called `Result::unwrap()` on an `Err` value") pe.

Section program.
Variables (server : bool) (group_identifier local_agent : string) (rs : nat -> N).

(** The file a program waits for, and the one it writes. *)
Definition awaited : string := if server then key_package_path group_identifier else welcome_path group_identifier.
Definition offered : string := if server then welcome_path group_identifier else key_package_path group_identifier.
Definition timeout_message : string :=
  if server then "Timeout waiting for client key package" else "Timeout waiting for welcome message".

(** The directory of the identities is made, the participant initialized; the
    server creates the group, the client makes its key package. *)
Definition initialize_peer (d : Mls.Disk) (pe : Peer) : Mls.Disk * Peer :=
  match Mls.dk_error d (identities_path local_agent), Mls.initialize (rs 0) d (pe_mls pe) with
  | Some _, _ => (d, fails pe)
  | None, (d, mls, Err _) => (d, fails (mkPeer Initialize mls (pe_group pe)))
  | None, (d, mls, Ok _) =>
      if server then
        match Mls.create_group (rs 1) mls with
        | (mls, Err _) => (d, fails (mkPeer Initialize mls (pe_group pe)))
        | (mls, Ok group_id) => (d, mkPeer (Waiting 0) mls group_id)
        end
      else
        match Mls.generate_key_package (rs 1) mls with
        | (mls, Err _) => (d, fails (mkPeer Initialize mls (pe_group pe)))
        | (mls, Ok key_package) => (d, mkPeer (CreateFile key_package) mls (pe_group pe))
        end
  end.

(** The file that was waited for: the server adds the client and has a welcome
    message to write, the client joins. *)
Definition use_file (contents : bytes) (pe : Peer) : Peer :=
  if server then
    match Mls.add_member (rs 2) (pe_group pe) contents (pe_mls pe) with
    | (mls, Err _) => fails (mkPeer Reading mls (pe_group pe))
    | (mls, Ok welcome_message) => mkPeer (CreateFile welcome_message) mls (pe_group pe)
    end
  else
    match Mls.join_group contents (pe_mls pe) with
    | (mls, Err _) => fails (mkPeer Reading mls (pe_group pe))
    | (mls, Ok group_id) => mkPeer Finished mls group_id
    end.

Definition peer_step (d : Mls.Disk) (pe : Peer) : Mls.Disk * Peer :=
  match pe_phase pe with
  | RemoveKeyPackage => (remove_file (key_package_path group_identifier) d, goes_to RemoveWelcome pe)
  | RemoveWelcome => (remove_file (welcome_path group_identifier) d, goes_to RemoveIdentities pe)
  | RemoveIdentities => (remove_dir_all (identities_path local_agent) d, goes_to Initialize pe)
  | Initialize => initialize_peer d pe
  | CreateFile contents =>
      match Mls.dk_error d offered with
      | Some _ => (d, fails pe)
      | None => (Mls.with_files (<[offered := []]> (Mls.dk_files d)) d, goes_to (WriteFile contents) pe)
      end
  | WriteFile contents =>
      match Mls.dk_write_error d offered with
      | Some _ => (d, fails pe)
      | None =>
          (Mls.with_files (<[offered := contents]> (Mls.dk_files d)) d,
           goes_to (if server then Finished else Waiting 0) pe)
      end
  | Waiting attempts =>
      if Mls.path_exists d awaited then (d, goes_to Reading pe)
      else if decide (100 < attempts) then (d, goes_to (Failed timeout_message) pe)
      else (d, goes_to (Waiting (S attempts)) pe)
  | Reading =>
      match read_file awaited d with
      | None => (d, fails pe)
      | Some contents => (d, use_file contents pe)
      end
  | Finished | Failed _ => (d, pe)
  end.
End program.

(** The two programs on one disk; [true] is a step of the server. *)
Record Pair : Type := mkPair {
  pa_disk : Mls.Disk;
  pa_server : Peer;
  pa_client : Peer;
}.
Section pair.
Variables (group_identifier server_name client_name : string) (rs rc : nat -> N).
Definition pair_step (who : bool) (p : Pair) : Pair :=
  if who then
    let '(d, pe) := peer_step true group_identifier server_name rs (pa_disk p) (pa_server p) in
    mkPair d pe (pa_client p)
  else
    let '(d, pe) := peer_step false group_identifier client_name rc (pa_disk p) (pa_client p) in
    mkPair d (pa_server p) pe.
Definition run_pair (schedule : list bool) (p : Pair) : Pair := foldl (fun p who => pair_step who p) p schedule.
End pair.
End handshake.

(** ** The service *)
Section mock.
Context `{Hasher, HashIter, Transport, Telemetry, ErrorText, Rng, DebugAssertions, UnicodeTables, StatusText}.
Context {G : GrpcConfig}.
Variable fuel : nat.

Definition agent_id : N := 0.
Definition agent_name (args : Args) : Agent := Agent_from_strings "org" "default" (local_agent args) agent_id.
Definition route (args : Args) : AgentType := AgentType_from_strings "org" "default" (remote_agent args).

Definition mock_start (args : Args) (fate : ServiceFate) : svc (N * N) :=
  '(rx, conn_id) ← start_agent (agent_name args) fate;
  let local_agent_type := AgentType_from_strings "org" "default" (local_agent args) in
  _ ← unwrap err_unwrap (subscribe fuel (agent_name args) local_agent_type (Some agent_id) (Some conn_id));
  _ ← unwrap err_unwrap (set_route fuel (agent_name args) (route args) None conn_id);
  mret (rx, conn_id).

(** The client's session. *)
Definition mock_session (args : Args) : svc Info :=
  unwrap "error creating fire and forget session"
    (Service_create_session fuel (agent_name args) (SessionConfig_FireAndForget FireAndForgetConfiguration_default)).

(** [interceptor]: the one made of the participant that joined, with a group. *)
Definition mock_publish (args : Args) (session : Info) (interceptor : option SessionInterceptor) (msg : string) : svc unit :=
  _ ← match interceptor with
      | Some i => unwrap err_unwrap (Service_add_session_interceptor (agent_name args) (in_id session) i)
      | None => mret tt
      end;
  unwrap err_unwrap (publish fuel (agent_name args) session (route args) None (String.list_byte_of_string msg)).

(** The variables of the loop: the answers still to send, and the server's
    participant until its session has the interceptor. *)
Record Mock : Type := mkMock {
  mk_messages : list (string * Info);
  mk_session_created : bool;
  mk_server_mls : option SessionInterceptor;
}.
Definition Mock_new (server_mls : option SessionInterceptor) : Mock := mkMock [] false server_mls.

Inductive MockEvent : Type :=
| Shutdown
| Tick
| Received (next : option (Result SessionMessage SessionError)).

(** One turn of the loop; [None]: it is left. *)
Definition mock_turn (args : Args) (ev : MockEvent) (m : Mock) : svc (option Mock) :=
  match ev with
  | Shutdown => mret None
  | Tick =>
      match mk_messages m with
      | [] => mret (Some m)
      | (msg, info) :: messages =>
          _ ← unwrap err_unwrap
                (publish fuel (agent_name args) info (route args) None (String.list_byte_of_string msg));
          mret (Some (mkMock messages (mk_session_created m) (mk_server_mls m)))
      end
  | Received None => mret None
  | Received (Some (Err _)) => may_panic (Panic "error")
  | Received (Some (Ok session_msg)) =>
      m ← match message args, mk_session_created m, mk_server_mls m with
          | None, false, Some interceptor =>
              _ ← unwrap err_unwrap
                    (Service_add_session_interceptor (agent_name args) (in_id (sm_info session_msg)) interceptor);
              mret (mkMock (mk_messages m) true None)
          | _, _, _ => mret m
          end;
      match pm_message_type (sm_message session_msg) with
      | None => may_panic (Panic none_unwrap)
      | Some (Publish msg) =>
          _ ← may_panic (Bindings.publish_payload msg);
          let answer := "hello from the " +:+ local_agent args in
          mret (Some (mkMock (mk_messages m ++ [(answer, sm_info session_msg)])%list (mk_session_created m)
                        (mk_server_mls m)))
      | Some _ => mret None
      end
  end.

(** The end of [main]. *)
Definition mock_end (drained : bool) : panics unit :=
  if drained then Done tt else Panic "timeout waiting for drain for service".
End mock.
End SdkMock.
Close Scope string_scope.
