(* ===== verification/SdkMockClaims.v ===== *)
(** * The example client: what its two programs agree on

    The key exchange through files, in every interleaving of the two programs, and
    how it can fail. *)
From stdpp Require Import base list gmap strings numbers option.
From S2P Require Import Prelude Proto Encoder Messages ReceiverBuffer Session FireAndForget SessionLayer SessionLayerProofs EndToEnd.
From S2P Require Import Mls MlsClaims SdkMock.
Import Mls SdkMock.
Open Scope string_scope.

(** ** Paths *)
Lemma key_package_welcome g g' : key_package_path g <> welcome_path g'.
Proof. done. Qed.
Lemma identities_elsewhere n p g : starts_with_slash p = false ->
  path_join (identities_path n) p <> welcome_path g /\ path_join (identities_path n) p <> key_package_path g.
Proof.
  intros Hp. unfold path_join. rewrite Hp. rewrite decide_False by done. by destruct (ends_with_slash _).
Qed.

Create HintDb mock.

Section agreement.
Context `{MlsRs} `{!MlsLaws} `{IdentityJson} `{Removal}.
Implicit Types (d : Disk) (pe : Peer) (p : Pair).

Lemma read_file_with f path d : dk_error d path = None -> SdkMock.read_file path (with_files f d) = f !! path.
Proof. unfold SdkMock.read_file. cbn. by intros ->. Qed.

(** What stays as it is when a file elsewhere is written or any is removed. *)
Definition shrinks (path : string) d d' : Prop :=
  dk_error d' = dk_error d /\ dk_write_error d' = dk_write_error d /\
  forall c, SdkMock.read_file path d' = Some c -> SdkMock.read_file path d = Some c.

Lemma shrinks_refl path d : shrinks path d d.
Proof. done. Qed.
Lemma shrinks_trans path d1 d2 d3 : shrinks path d1 d2 -> shrinks path d2 d3 -> shrinks path d1 d3.
Proof. intros (E1&W1&Ha) (E2&W2&Hb). split; [congruence|]. split; [congruence|]. auto. Qed.
Lemma shrinks_files path d f : (forall c, f !! path = Some c -> dk_files d !! path = Some c) -> shrinks path d (with_files f d).
Proof.
  intros Hf. split; [done|]. split; [done|]. intros c. unfold SdkMock.read_file. cbn. destruct (dk_error d path); [done|]. apply Hf.
Qed.
Lemma shrinks_remove path path' d : shrinks path d (remove_file path' d).
Proof.
  unfold remove_file. destruct (dk_error d path'); [apply shrinks_refl|].
  destruct (removable path'); [|apply shrinks_refl]. apply shrinks_files.
  intros c. rewrite lookup_delete_Some. tauto.
Qed.
Lemma shrinks_remove_dir path path' d : shrinks path d (remove_dir_all path' d).
Proof.
  unfold remove_dir_all. destruct (dk_error d path'); [apply shrinks_refl|]. apply shrinks_files.
  intros c. rewrite map_lookup_filter_Some. tauto.
Qed.
Lemma shrinks_write path path' d c : path' <> path -> shrinks path d (with_files (<[path' := c]> (dk_files d)) d).
Proof. intros Hne. apply shrinks_files. intros c'. by rewrite lookup_insert_ne. Qed.
Hint Resolve shrinks_refl shrinks_remove shrinks_remove_dir shrinks_write : mock.

Lemma initialize_shrinks path r d m d' m' res :
  identity_path (ml_base_path m) (ml_participant_id m) <> path ->
  initialize r d m = (d', m', res) -> shrinks path d d' /\ ml_groups m' = ml_groups m.
Proof.
  intros Hne. unfold initialize, get_identity, save_identity_to_file. set (ip := identity_path _ _) in *.
  destruct (path_exists d ip); [destruct (load_identity_from_file d ip); intros [= <- <- _]; auto with mock|].
  destruct (generate_new_identity r _) as [i|e]; [|intros [= <- <- _]; auto with mock].
  destruct (to_vec_pretty i) as [json|e]; [|intros [= <- <- _]; auto with mock].
  destruct (dk_error d ip); [intros [= <- <- _]; auto with mock|].
  destruct (dk_write_error d ip); intros [= <- <- _]; auto with mock.
Qed.

(** ** One program *)

(** Before its initialization a program has its new participant. *)
Definition unstarted (ph : Phase) : bool :=
  match ph with RemoveKeyPackage | RemoveWelcome | RemoveIdentities | Initialize => true | _ => false end.
Definition starts_as (name : string) pe : Prop :=
  unstarted (pe_phase pe) = true -> pe_mls pe = Mls_new name (identities_path name).

(** Steps a program still makes, at most. *)
Definition left (server : bool) (ph : Phase) : nat :=
  match ph with
  | RemoveKeyPackage => 109
  | RemoveWelcome => 108
  | RemoveIdentities => 107
  | Initialize => 106
  | CreateFile _ => if server then 2 else 105
  | WriteFile _ => if server then 1 else 104
  | Waiting n => (102 - n) + (if server then 3 else 1)
  | Reading => if server then 3 else 1
  | Finished | Failed _ => 0
  end.
Definition ended (ph : Phase) : bool := match ph with Finished | Failed _ => true | _ => false end.
Definition within (ph : Phase) : Prop := match ph with Waiting n => n <= 101 | _ => True end.

Section program.
Context (server : bool) (gid name : string) (draws : nat -> N) (Hname : starts_with_slash name = false).

Lemma name_path g : identity_path (identities_path name) name <> welcome_path g /\
  identity_path (identities_path name) name <> key_package_path g.
Proof. apply identities_elsewhere. destruct name as [|c n]; [done|]. destruct c as [[] [] [] [] [] [] [] []]; done. Qed.

Lemma use_file_phase c pe : match pe_phase (use_file server draws c pe) with
  | CreateFile _ => server = true | Finished => server = false | Failed _ => True | _ => False end.
Proof.
  unfold use_file. destruct server.
  - destruct (add_member _ _ _ _) as [m [w|e]]; done.
  - destruct (join_group _ _) as [m [g|e]]; done.
Qed.
Lemma initialize_phase d pe : match pe_phase (initialize_peer server name draws d pe).2 with
  | CreateFile _ => server = false | Waiting n => server = true /\ n = 0 | Failed _ => True | _ => False end.
Proof.
  unfold initialize_peer. destruct (dk_error d _); [done|]. destruct (initialize _ _ _) as [[d' m] [u|e]]; [|done].
  destruct server; [by destruct (create_group _ _) as [m' [g|e]]|by destruct (generate_key_package _ _) as [m' [g|e]]].
Qed.
Lemma initialize_peer_shrinks path d pe :
  pe_mls pe = Mls_new name (identities_path name) -> identity_path (identities_path name) name <> path ->
  shrinks path d (initialize_peer server name draws d pe).1.
Proof.
  intros Hm Hne. unfold initialize_peer. destruct (dk_error d _); [apply shrinks_refl|]. rewrite Hm.
  destruct (initialize _ _ _) as [[d' m] res] eqn:Hi. apply (initialize_shrinks path) in Hi as [Hs _]; [|exact Hne].
  destruct res; [|done]. destruct server; [by destruct (create_group _ _) as [? [|]]|by destruct (generate_key_package _ _) as [? [|]]].
Qed.

Lemma step_starts d pe : starts_as name pe -> starts_as name (peer_step server gid name draws d pe).2.
Proof.
  intros Hs. unfold peer_step. unfold starts_as in *. destruct (pe_phase pe) eqn:Hp; cbn in *; auto.
  - pose proof (initialize_phase d pe) as Hph. destruct (pe_phase (initialize_peer _ _ _ _ _).2); done.
  - by destruct (dk_error d _).
  - destruct (dk_write_error d _); [done|]. by destruct server.
  - destruct (path_exists d _); [done|]. by destruct (decide _).
  - destruct (SdkMock.read_file _ d) as [c|]; [|done]. cbn. pose proof (use_file_phase c pe) as Hph.
    destruct (pe_phase (use_file _ _ _ _)); done.
  - intros Hu. by rewrite Hp in Hu.
  - intros Hu. by rewrite Hp in Hu.
Qed.

(** A program leaves the file it waits for alone, but for removing it. *)
Lemma step_shrinks d pe : starts_as name pe ->
  shrinks (awaited server gid) d (peer_step server gid name draws d pe).1.
Proof.
  intros Hs. assert (Hne : offered server gid <> awaited server gid) by (by destruct server).
  assert (Hid : identity_path (identities_path name) name <> awaited server gid)
    by (destruct (name_path gid); unfold awaited; by destruct server).
  unfold peer_step. destruct (pe_phase pe) eqn:Hp; cbn; auto with mock.
  - apply initialize_peer_shrinks; [apply Hs; by rewrite Hp|done].
  - destruct (dk_error d _); cbn; auto with mock.
  - destruct (dk_write_error d _); cbn; auto with mock.
  - destruct (path_exists d _); cbn; auto with mock. destruct (decide _); cbn; auto with mock.
  - destruct (SdkMock.read_file _ d); cbn; auto with mock.
Qed.

Lemma step_left d pe : within (pe_phase pe) -> ended (pe_phase pe) = false ->
  within (pe_phase (peer_step server gid name draws d pe).2) /\
  left server (pe_phase (peer_step server gid name draws d pe).2) < left server (pe_phase pe).
Proof.
  intros Hw He. unfold peer_step. destruct (pe_phase pe) eqn:Hp; try done; cbn [fst snd goes_to pe_phase].
  1-3: cbn [left within]; split; [done|lia].
  - pose proof (initialize_phase d pe) as Hph.
    destruct (pe_phase (initialize_peer _ _ _ _ _).2); try done; cbn [left within]; [subst server; split; [done|lia]| |split; [done|lia]].
    destruct Hph as [-> ->]. split; lia.
  - destruct (dk_error d _); cbn [fst snd goes_to pe_phase fails left within]; (split; [done|]); destruct server; lia.
  - destruct (dk_write_error d _); cbn [fst snd goes_to pe_phase fails]; [cbn [left within]; split; [done|]; destruct server; lia|].
    destruct server; cbn [left within]; split; try done; lia.
  - cbn [within] in Hw. destruct (path_exists d _); cbn [fst snd goes_to pe_phase]; [cbn [left within]; split; [done|]; destruct server; lia|].
    destruct (decide _); cbn [left within snd goes_to pe_phase]; (split; [done || lia|]); destruct server; lia.
  - destruct (SdkMock.read_file _ d) as [c|]; cbn [snd]; [|cbn [left within fails goes_to pe_phase]; split; [done|destruct server; lia]].
    pose proof (use_file_phase c pe) as Hph.
    destruct (pe_phase (use_file _ _ _ _)); try done; cbn [left within]; (split; [done|]); destruct server; try done; lia.
Qed.
End program.

(** ** Both programs *)
Section pair.
Context (gid server_name client_name : string) (rs rc : nat -> N).
Context (Hserver : starts_with_slash server_name = false) (Hclient : starts_with_slash client_name = false).
Abbreviation step := (pair_step gid server_name client_name rs rc).
Abbreviation run := (run_pair gid server_name client_name rs rc).
Definition start d : Pair := mkPair d (Peer_new server_name) (Peer_new client_name).

Definition began p : Prop := starts_as server_name (pa_server p) /\ starts_as client_name (pa_client p).
Lemma step_began who p : began p -> began (step who p).
Proof.
  intros [Hs Hc]. unfold pair_step. destruct who.
  - pose proof (step_starts true gid server_name rs (pa_disk p) (pa_server p) Hs) as Hn.
    destruct (peer_step true _ _ _ _ _) as [d pe]. by split.
  - pose proof (step_starts false gid client_name rc (pa_disk p) (pa_client p) Hc) as Hn.
    destruct (peer_step false _ _ _ _ _) as [d pe]. by split.
Qed.
Lemma run_ind (P : Pair -> Prop) : (forall who p, P p -> P (step who p)) -> forall l p, P p -> P (run l p).
Proof. intros Hstep l. induction l as [|who l IH]; intros p Hp; [done|]. apply IH. by apply Hstep. Qed.

(** *** What is agreed *)

(** The client has removed the welcome message of an earlier run. *)
Definition cleaned (ph : Phase) : bool := match ph with RemoveKeyPackage | RemoveWelcome => false | _ => true end.

(** What the file of the welcome message had when the programs were started. *)
Context (d0 : Disk).
Definition stale_gone (ph : Phase) : Prop :=
  cleaned ph = true \/ SdkMock.read_file (welcome_path gid) d0 = None.

(** [wo]: the welcome message the server has made. *)
Record agreed (wo : option bytes) p : Prop := {
  ag_began : began p;
  ag_groups : groups_ok (pe_mls (pa_server p));
  ag_made : match pe_phase (pa_server p) with
            | CreateFile w | WriteFile w => wo = Some w
            | Finished => is_Some wo
            | Failed _ => True
            | _ => wo = None
            end;
  ag_added : forall w, wo = Some w -> exists m kp, groups_ok m /\
    add_member (rs 2) (pe_group (pa_server p)) kp m = (pe_mls (pa_server p), Ok w);
  ag_file : stale_gone (pe_phase (pa_client p)) ->
    forall c, SdkMock.read_file (welcome_path gid) (pa_disk p) = Some c -> c = [] \/ wo = Some c;
  ag_joined : pe_phase (pa_client p) = Finished -> exists w m, wo = Some w /\
    join_group w m = (pe_mls (pa_client p), Ok (pe_group (pa_client p)));
}.

Lemma agreed_start : agreed None (start d0).
Proof. split; cbn; try done. intros [?|Hn] c; [done|]. by rewrite Hn. Qed.

Lemma initialize_groups r d m d' m' res : initialize r d m = (d', m', res) -> ml_groups m' = ml_groups m.
Proof.
  unfold initialize. destruct (get_identity _ _ _ _) as [d1 [i|e]]; by intros [= _ <- _].
Qed.
Lemma initialize_groups_ok d pe : groups_ok (pe_mls pe) -> groups_ok (pe_mls (initialize_peer true server_name rs d pe).2).
Proof.
  intros Hok. unfold initialize_peer. destruct (dk_error d _); [done|].
  destruct (initialize _ _ _) as [[d' m] res] eqn:Hi. apply initialize_groups in Hi.
  assert (Hm : groups_ok m) by (unfold groups_ok; by rewrite Hi). destruct res; [|done].
  pose proof (mls_step_ok m _ (MlsCreateGroup (rs 1) m) Hm) as Hc. by destruct (create_group (rs 1) m) as [m' [g|e]].
Qed.

(** The server's steps but for those on the welcome file and the reading. *)
Lemma agreed_server wo p d pe :
  agreed wo p -> shrinks (welcome_path gid) (pa_disk p) d -> starts_as server_name pe -> groups_ok (pe_mls pe) ->
  (forall w, wo = Some w -> pe_mls pe = pe_mls (pa_server p) /\ pe_group pe = pe_group (pa_server p)) ->
  match pe_phase pe with
  | CreateFile w | WriteFile w => wo = Some w | Finished => is_Some wo | Failed _ => True | _ => wo = None end ->
  agreed wo (mkPair d pe (pa_client p)).
Proof.
  intros [[_ Hc] _ _ Hadd Hfile Hjoin] (_&_&Hs) Hst Hok Hsame Hph. split; cbn; try done.
  - intros w Hw. destruct (Hsame w Hw) as [-> ->]. by apply Hadd.
  - intros Hcl c Hread. by apply Hfile, Hs.
Qed.

Lemma server_step wo p : agreed wo p -> exists wo', agreed wo' (step true p).
Proof.
  intros Hag. destruct (Hag) as [[Hs Hc] Hok Hmade Hadd Hfile Hjoin]. unfold pair_step.
  pose proof (step_starts true gid server_name rs (pa_disk p) (pa_server p) Hs) as Hst.
  unfold peer_step in *. destruct (pe_phase (pa_server p)) eqn:Hp.
  1-3: exists wo; subst wo; apply (agreed_server None p); auto with mock; done.
  - exists wo. subst wo. pose proof (initialize_phase true server_name rs (pa_disk p) (pa_server p)) as Hph.
    pose proof (initialize_groups_ok (pa_disk p) (pa_server p) Hok) as Hok'.
    pose proof (initialize_peer_shrinks true server_name rs (welcome_path gid) (pa_disk p) (pa_server p)
      (Hs ltac:(by rewrite Hp)) (proj1 (name_path server_name Hserver gid))) as Hsh.
    destruct (initialize_peer _ _ _ _ _) as [d pe]. apply (agreed_server None p); try done.
    cbn in *. by destruct (pe_phase pe).
  - subst wo. exists (Some contents). destruct (dk_error (pa_disk p) _) eqn:He.
    { apply (agreed_server _ p); auto with mock; done. }
    split; cbn; [by split|done|done|by apply Hadd| |done]. intros _ c. rewrite read_file_with by done.
    change (offered true gid) with (welcome_path gid). rewrite lookup_insert_eq. intros [= <-]. by left.
  - subst wo. exists (Some contents). destruct (dk_write_error (pa_disk p) _) eqn:He.
    { apply (agreed_server _ p); auto with mock; done. }
    split; cbn; [by split|done|by eexists|by apply Hadd| |done]. intros _ c. unfold SdkMock.read_file. cbn.
    change (offered true gid) with (welcome_path gid). destruct (dk_error _ _); [done|].
    rewrite lookup_insert_eq. intros [= <-]. by right.
  - exists wo. subst wo. destruct (path_exists (pa_disk p) _); [apply (agreed_server None p); auto with mock; done|].
    destruct (decide _); apply (agreed_server None p); auto with mock; done.
  - subst wo. destruct (SdkMock.read_file (awaited true gid) (pa_disk p)) as [kp|].
    2:{ exists None. apply (agreed_server None p); auto with mock; done. }
    unfold use_file in *. destruct (add_member (rs 2) (pe_group (pa_server p)) kp (pe_mls (pa_server p))) as [m [w|e]] eqn:Ha.
    + exists (Some w). split; cbn; [by split| |done| | |].
      * pose proof (mls_step_ok _ _ (MlsAddMember (rs 2) (pe_group (pa_server p)) kp (pe_mls (pa_server p))) Hok) as Hm.
        by rewrite Ha in Hm.
      * intros w' [= <-]. by exists (pe_mls (pa_server p)), kp.
      * intros Hcl c Hread. destruct (Hfile Hcl c Hread) as [->|]; [by left|done].
      * intros Hf. by destruct (Hjoin Hf) as (?&?&?&_).
    + exists None. apply (agreed_server None p); auto with mock; try done.
      pose proof (mls_step_ok _ _ (MlsAddMember (rs 2) (pe_group (pa_server p)) kp (pe_mls (pa_server p))) Hok) as Hm.
      by rewrite Ha in Hm.
  - exists wo. apply (agreed_server wo p); auto with mock; try done. by rewrite Hp.
  - exists wo. apply (agreed_server wo p); auto with mock; try done. by rewrite Hp.
Qed.

(** An empty file is no welcome message. *)
Definition empty_refused : Prop := forall (m m' : Mls) id, join_group [] m <> (m', Ok id).

(** A welcome message left there can be removed, or there is none. *)
Definition stale_removable : Prop :=
  removable (welcome_path gid) = true \/ SdkMock.read_file (welcome_path gid) d0 = None.

Lemma client_step wo p : empty_refused -> stale_removable -> agreed wo p -> agreed wo (step false p).
Proof.
  intros Hempty Hrem [[Hs Hc] Hok Hmade Hadd Hfile Hjoin]. unfold pair_step.
  pose proof (step_starts false gid client_name rc (pa_disk p) (pa_client p) Hc) as Hst.
  pose proof (step_shrinks false gid client_name rc Hclient (pa_disk p) (pa_client p) Hc) as (_&_&Hsh).
  change (awaited false gid) with (welcome_path gid) in Hsh.
  assert (Hkeep : forall pe', peer_step false gid client_name rc (pa_disk p) (pa_client p) =
      ((peer_step false gid client_name rc (pa_disk p) (pa_client p)).1, pe') ->
    (stale_gone (pe_phase pe') -> stale_gone (pe_phase (pa_client p))) ->
    (pe_phase pe' = Finished -> exists w m, wo = Some w /\ join_group w m = (pe_mls pe', Ok (pe_group pe'))) ->
    agreed wo (let '(d, pe) := peer_step false gid client_name rc (pa_disk p) (pa_client p) in mkPair d (pa_server p) pe)).
  { intros pe' Heq Hcl Hfin. rewrite Heq in *. cbn in *. split; cbn; try done. intros Hcl' c Hread. by apply Hfile, Hsh; auto. }
  unfold peer_step in *. destruct (pe_phase (pa_client p)) eqn:Hp; cbn in Hkeep.
  - by eapply Hkeep.
  - destruct Hrem as [Hrem|Hnone]; [|eapply Hkeep; [done|intros _; by right|done]].
    split; cbn; try done. intros _ c. unfold remove_file, SdkMock.read_file.
    destruct (dk_error (pa_disk p) (welcome_path gid)) eqn:He; [by rewrite He|]. rewrite Hrem. cbn. by rewrite He, lookup_delete_eq.
  - by eapply Hkeep.
  - eapply Hkeep; [apply surjective_pairing|intros _; by left|].
    pose proof (initialize_phase false client_name rc (pa_disk p) (pa_client p)) as Hph.
    intros Hf. by rewrite Hf in Hph.
  - destruct (dk_error _ _); by eapply Hkeep.
  - destruct (dk_write_error _ _); by eapply Hkeep.
  - destruct (path_exists _ _); [by eapply Hkeep|]. destruct (decide _); by eapply Hkeep.
  - change (awaited false gid) with (welcome_path gid) in *.
    destruct (SdkMock.read_file (welcome_path gid) (pa_disk p)) as [w|] eqn:Hr; [|by eapply Hkeep].
    eapply Hkeep; [done|intros _; by left|]. cbn. destruct (join_group w (pe_mls (pa_client p))) as [m [g|e]] eqn:Hj; [|done].
    intros _. cbn. exists w, (pe_mls (pa_client p)). split; [|done].
    destruct (Hfile (or_introl eq_refl) w eq_refl) as [->|?]; [by destruct (Hempty _ _ _ Hj)|done].
  - eapply Hkeep; [done|by rewrite Hp|]. intros _. by apply Hjoin.
  - eapply Hkeep; [done|by rewrite Hp|]. by rewrite Hp.
Qed.

(** C32: In every interleaving of a server and a client, whatever files earlier
    runs have left, as long as the client may remove the welcome message among
    them, if there is one it can read: if both get to the end of the key exchange,
    they know the group by the same id, and the client reads what the server sends.
    An error of a file, of the library or a timeout ends a program; what it never
    does is go on with a group of its own. *)
Theorem handshake_sound l :
  empty_refused -> stale_removable ->
  let p := run l (start d0) in
  pe_phase (pa_server p) = Finished -> pe_phase (pa_client p) = Finished ->
  pe_group (pa_client p) = pe_group (pa_server p) /\
  exists g g', ml_groups (pe_mls (pa_server p)) !! pe_group (pa_server p) = Some g /\
    ml_groups (pe_mls (pa_client p)) !! pe_group (pa_server p) = Some g' /\ hears g g'.
Proof.
  intros Hempty Hrem p Hs Hc.
  assert (Hag : exists wo, agreed wo p).
  { apply (run_ind (fun p => exists wo, agreed wo p)); [|exists None; apply agreed_start].
    intros [] q [wo Hq]; [by eapply server_step|exists wo; by apply client_step]. }
  destruct Hag as [wo [_ _ _ Hadd _ Hjoin]]. destruct (Hjoin Hc) as (w&m'&Hwo&Hj).
  destruct (Hadd w Hwo) as (m&kp&Hok&Ha).
  destruct (member_added _ _ _ _ _ _ _ _ _ Hok Ha Hj) as (g&g1&g2&ws&_&Hg2&_&_&Hid&gn&Hgn&Hh).
  split; [done|]. by exists g2, gn.
Qed.

(** *** That it ends *)
Definition steps_of (who : bool) (l : list bool) : nat := length (filter (fun b => b = who) l).
Definition peer_of (who : bool) p : Peer := if who then pa_server p else pa_client p.

Lemma step_other who p : peer_of (negb who) (step who p) = peer_of (negb who) p.
Proof. unfold pair_step. destruct who; by destruct (peer_step _ _ _ _ _ _). Qed.
Lemma step_own who p : exists d, peer_of who (step who p) =
  (peer_step who gid (if who then server_name else client_name) (if who then rs else rc) d (peer_of who p)).2.
Proof. exists (pa_disk p). unfold pair_step. destruct who; cbn; by destruct (peer_step _ _ _ _ _ _). Qed.
Lemma ended_left who ph : within ph -> ended ph = true <-> left who ph = 0.
Proof. destruct ph; cbn [left ended within]; destruct who; try (split; [done|lia]); try done. Qed.

Lemma peer_ends_from who l : forall p, within (pe_phase (peer_of who p)) ->
  left who (pe_phase (peer_of who p)) <= steps_of who l -> ended (pe_phase (peer_of who (run l p))) = true.
Proof.
  induction l as [|b l IH]; intros p Hw Hl.
  { apply (ended_left who); [done|]. cbn in Hl. cbn. lia. }
  cbn [run_pair foldl]. apply IH; unfold steps_of in Hl; rewrite filter_cons in Hl; destruct (decide (b = who)) as [->|Hne].
  - destruct (step_own who p) as [d' ->]. destruct (ended (pe_phase (peer_of who p))) eqn:He.
    + unfold peer_step. destruct (pe_phase (peer_of who p)) eqn:Hp; try done; cbn; by rewrite Hp.
    + by apply step_left.
  - replace who with (negb b) in * by (destruct b, who; done). by rewrite step_other.
  - destruct (step_own who p) as [d' ->]. destruct (ended (pe_phase (peer_of who p))) eqn:He.
    + unfold peer_step. destruct (pe_phase (peer_of who p)) eqn:Hp; try done; cbn; rewrite Hp; cbn; lia.
    + pose proof (proj2 (step_left who gid (if who then server_name else client_name) (if who then rs else rc) d' (peer_of who p) Hw He)) as Hlt.
      cbn [length] in Hl. unfold steps_of. lia.
  - replace who with (negb b) in * by (destruct b, who; done). by rewrite step_other.
Qed.

(** A program makes at most 109 steps, whatever the other does in between. *)
Theorem peer_ends who d l :
  109 <= steps_of who l -> ended (pe_phase (peer_of who (run l (start d)))) = true.
Proof. intros Hn. apply peer_ends_from; destruct who; cbn; (done || exact Hn). Qed.

(** *** A server that is late *)
Record missed p : Prop := {
  ms_began : starts_as server_name (pa_server p);
  ms_server : match pe_phase (pa_server p) with
              | RemoveKeyPackage => True
              | RemoveWelcome | RemoveIdentities | Initialize | Waiting _ | Failed _ =>
                  SdkMock.read_file (key_package_path gid) (pa_disk p) = None
              | _ => False
              end;
  ms_client : match pe_phase (pa_client p) with Waiting _ | Failed _ => True | _ => False end;
  ms_welcome : SdkMock.read_file (welcome_path gid) (pa_disk p) = None;
  ms_error : dk_error (pa_disk p) (key_package_path gid) = None;
  ms_removable : removable (key_package_path gid) = true;
}.

Lemma read_exists path d : SdkMock.read_file path d = None -> path_exists d path = false.
Proof.
  unfold SdkMock.read_file, path_exists. destruct (dk_error d path); [done|]. intros ->.
  by rewrite bool_decide_eq_false_2 by (by intros []).
Qed.

Lemma shrinks_none path d d' : shrinks path d d' -> SdkMock.read_file path d = None -> SdkMock.read_file path d' = None.
Proof. intros (_&_&Hs) Hn. destruct (SdkMock.read_file path d') as [c|] eqn:Hc; [|done]. by rewrite (Hs c eq_refl) in Hn. Qed.

Lemma missed_server p : missed p -> missed (step true p).
Proof.
  intros [Hst Hsrv Hcl Hw He Hrem]. unfold pair_step.
  pose proof (step_starts true gid server_name rs (pa_disk p) (pa_server p) Hst) as Hst'.
  pose proof (step_shrinks true gid server_name rs Hserver (pa_disk p) (pa_server p) Hst) as Hk.
  change (awaited true gid) with (key_package_path gid) in Hk.
  assert (Hsame : forall d pe, shrinks (welcome_path gid) (pa_disk p) d -> shrinks (key_package_path gid) (pa_disk p) d ->
    starts_as server_name pe ->
    match pe_phase pe with
    | RemoveKeyPackage => True
    | RemoveWelcome | RemoveIdentities | Initialize | Waiting _ | Failed _ => SdkMock.read_file (key_package_path gid) d = None
    | _ => False
    end -> missed (mkPair d pe (pa_client p))).
  { intros d pe Hsw Hsk Hs Hph. split; try done; [by apply (shrinks_none _ (pa_disk p))|]. cbn. by rewrite (proj1 Hsk). }
  unfold peer_step in *. destruct (pe_phase (pa_server p)) eqn:Hp; try done.
  - apply Hsame; auto with mock. cbn. unfold remove_file. rewrite He, Hrem. rewrite read_file_with by done. by rewrite lookup_delete_eq.
  - apply Hsame; auto with mock. by apply (shrinks_none _ (pa_disk p)).
  - apply Hsame; auto with mock. by apply (shrinks_none _ (pa_disk p)).
  - pose proof (initialize_phase true server_name rs (pa_disk p) (pa_server p)) as Hph.
    pose proof (initialize_peer_shrinks true server_name rs (welcome_path gid) (pa_disk p) (pa_server p)
      (Hst ltac:(by rewrite Hp)) (proj1 (name_path server_name Hserver gid))) as Hsw.
    destruct (initialize_peer _ _ _ _ _) as [d pe]. cbn in *. apply Hsame; try done.
    pose proof (shrinks_none _ _ _ Hk Hsrv). by destruct (pe_phase pe).
  - change (awaited true gid) with (key_package_path gid) in *. rewrite (read_exists _ _ Hsrv) in *.
    destruct (decide _); by apply Hsame.
  - apply Hsame; try done. by rewrite Hp.
Qed.

Lemma missed_client p : missed p -> missed (step false p).
Proof.
  intros [Hst Hsrv Hcl Hw He Hrem]. unfold pair_step, peer_step.
  destruct (pe_phase (pa_client p)) eqn:Hp; try done.
  - change (awaited false gid) with (welcome_path gid). rewrite (read_exists _ _ Hw).
    by destruct (decide _); split.
  - split; try done. cbn. by rewrite Hp.
Qed.

(** A server that starts when the client has already written its key package,
    and may remove it, does so, and the client never writes another: in every interleaving from
    there both programs end, after at most 109 steps each, with a failure. *)
Theorem late_server_fails p l n :
  pa_server p = Peer_new server_name -> pe_phase (pa_client p) = Waiting n -> n <= 101 ->
  SdkMock.read_file (welcome_path gid) (pa_disk p) = None -> dk_error (pa_disk p) (key_package_path gid) = None ->
  removable (key_package_path gid) = true ->
  109 <= steps_of true l -> 109 <= steps_of false l ->
  exists why why', pe_phase (pa_server (run l p)) = Failed why /\ pe_phase (pa_client (run l p)) = Failed why'.
Proof.
  intros Hs Hc Hn Hw He Hrem Ht Hf.
  assert (Hm : missed (run l p)).
  { apply (run_ind missed); [intros []; [apply missed_server|apply missed_client]|].
    split; try done; by rewrite ?Hs, ?Hc. }
  pose proof (peer_ends_from true l p) as Hes. pose proof (peer_ends_from false l p) as Hec. cbn [peer_of] in *.
  rewrite Hs in Hes. rewrite Hc in Hec. cbn [left within Peer_new pe_phase] in *.
  specialize (Hes I ltac:(lia)). specialize (Hec Hn ltac:(lia)).
  destruct Hm as [_ Hsrv Hcl _ _ _]. destruct (pe_phase (pa_server (run l p))); try done.
  destruct (pe_phase (pa_client (run l p))); try done. by eexists _, _.
Qed.
End pair.
End agreement.

(** ** The first message *)
Section first.
Context `{Hasher, BuildProfile, ErrorText, Rng, DebugAssertions, Logging, HashIter}.

(** The server adds its interceptor to a session when that session has delivered
    a message. The message that opens the session is therefore handed to the
    session with the content it came with: what the client's interceptor has
    encrypted stays encrypted. *)
Theorem first_message_unread fuel io ly l m conn :
  layer_ok ly -> letter l None m -> get_incoming_conn m = Done conn -> lt_kind l = Fnf ->
  sl_pool ly !! lt_session l = None -> SESSION_RANGE_contains (lt_session l) = true -> io_open io ->
  ag_agent_id (sl_agent_name ly) <> DEFAULT_AGENT_ID ->
  exists f sys m', get_payload m' = get_payload m /\
    handle_message fuel (mkSessionMessage m (letter_info l conn)) North io ly =
    Done (io, with_ff ly (lt_session l) (holding f (OnMessage (mkSessionMessage m' (letter_info l conn)) North)) sys, Ok tt).
Proof.
  intros Hok Hl Hc Hk Hnone Hr Ho Hid.
  destruct (new_session_idle io ly Fnf (lt_session l) Hnone ltac:(left) Hr Ho Hid) as [Hroute Hidle].
  rewrite <- Hk in Hroute.
  destruct (layer_takes fuel io ly l m conn _ _ _ Hok Hl Hc Hroute Hidle) as (m'&Hl'&_&Hh).
  eexists _, _, m'. split; [|exact Hh]. destruct Hl as (p&h&Ht&_&_&_&_&_&_&Hm), Hl' as (p'&h'&Ht'&_&_&_&_&_&_&Hm').
  unfold get_payload. by rewrite Ht, Ht', Hm, Hm'.
Qed.
End first.

(** ** Runs *)
Module MockDemo.
#[local] Existing Instances toy_mls toy_laws toy_json.
#[local] Instance all_removable : Removal := {| removable _ := true; dir_removed _ _ := true |}.
Definition rs (i : nat) : N := N.of_nat i.
(** An earlier run has left a welcome message. *)
Definition disk : Disk := mkDisk {[ welcome_path "g" := [Byte.x05] ]} (fun _ => None) (fun _ => None).
Definition starts : Pair := start "server" "client" disk.
Definition runs (l : list bool) : Pair := run_pair "g" "server" "client" rs rs l starts.
Definition times (n : nat) (who : bool) : list bool := replicate n who.

(** Both clean up, the server waits, the client writes, the server answers. *)
Definition good : list bool := (times 4 true ++ times 6 false ++ times 4 true ++ times 2 false)%list.
(** The client looks for the welcome message when the server has created its file. *)
Definition torn : list bool := (times 4 true ++ times 6 false ++ times 3 true ++ times 2 false)%list.

Lemma empty_toy : empty_refused.
Proof. intros [b i [c|] g] m' id; cbn; by intros [=]. Qed.

Lemma handshake_sound_witness :
  pe_group (pa_client (runs good)) = pe_group (pa_server (runs good)) /\
  exists g g', ml_groups (pe_mls (pa_server (runs good))) !! pe_group (pa_server (runs good)) = Some g /\
    ml_groups (pe_mls (pa_client (runs good))) !! pe_group (pa_server (runs good)) = Some g' /\ hears g g'.
Proof.
  apply (handshake_sound "g" "server" "client" rs rs eq_refl eq_refl disk good empty_toy); [left|..]; vm_compute; reflexivity.
Defined.

(** The client reads the welcome message before it is written, and fails. *)
Example torn_welcome :
  pe_phase (pa_client (runs torn)) = Failed "called `Result::unwrap()` on an `Err` value".
Proof. vm_compute. reflexivity. Qed.

(** The client is waiting; the server starts. *)
Definition alone : Pair := run_pair "g" "server" "client" rs rs (times 8 false) starts.
Lemma late_server_fails_witness :
  exists why why', pe_phase (pa_server (run_pair "g" "server" "client" rs rs (times 109 true ++ times 109 false) alone)) = Failed why /\
    pe_phase (pa_client (run_pair "g" "server" "client" rs rs (times 109 true ++ times 109 false) alone)) = Failed why'.
Proof.
  apply (late_server_fails "g" "server" "client" rs rs eq_refl alone (times 109 true ++ times 109 false) 2);
    [vm_compute; reflexivity|vm_compute; reflexivity|lia|vm_compute; reflexivity|reflexivity|reflexivity|vm_compute; lia|vm_compute; lia].
Defined.
Lemma peer_ends_witness : ended (pe_phase (peer_of true (runs (times 109 true)))) = true.
Proof. apply (peer_ends "g" "server" "client" rs rs true disk (times 109 true)). vm_compute. lia. Defined.
End MockDemo.
Close Scope string_scope.
